(* ===== verification/_CoqProject ===== *)
-Q . S2P
Prelude.v
Py.v
PyStruct.v
Crc32.v
MemcacheConstants.v
Json.v
McWire.v
McCommands.v
DcpBinClient.v
Durability.v
TaskManager.v
EventLog.v
KvStore.v
DataHelper.v
DocGen.v
TestInput.v
XUnit.v
TestRunner.v
Bucket.v
DocLoader.v
BucketSelect.v
BucketSpec.v
Cbstats.v
DataAnalysis.v
SdkPool.v
LoadTasks.v
ValidateTasks.v
Rebalance.v
Waits.v
Cbas.v
SpecTasks.v
BucketVerify.v
ClusterUtils.v
DurableLoad.v
MergeReports.v
