(* ===== verification/Prelude.v ===== *)
(** * Verification of TAF, the Couchbase test automation framework

    TAF runs test suites against Couchbase clusters.  It is written in Python 2.7
    for Jython.  This library models the parts of it that carry logic of their
    own rather than calls to a cluster, as executable Rocq functions, and proves
    what they do.

    ** The program and its parts

    - testrunner.py reads configuration files and options, selects tests,
      runs them through [unittest], reports them through lib/xunit.py and takes
      parameters and servers from TestInput.py.
    - Tests load documents from the generators of
      lib/couchbase_helper/documentgenerator.py, in batches.
    - Documents reach the data service through the binary memcached client of
      lib/mc_bin_client.py, with the constants of lib/memcacheConstants.py.
      lib/memcached/helper/data_helper.py keeps one client per node and routes
      a key by its vbucket, which is a CRC-32 of the key (lib/crc32.py or
      [zlib.crc32]).
    - lib/dcp_bin_client.py reads changes back over the DCP protocol, on top of the
      same transport.
    - lib/memcached/helper/kvstore.py (and old_kvstore.py) records what a test
      wrote, for comparison with what the cluster returns.
    - lib/Jython_tasks/task_manager.py runs tasks on a Java thread pool;
      [BucketStats] of lib/BucketLib/bucket.py shares one statistics task through it.
    - lib/couchbase_helper/durability_helper.py says what durable writes must do
      when nodes fail; lib/SystemEventLogLib/Events.py records the events a test
      causes and validates the cluster's event log against them.
    - lib/BucketLib/bucket.py holds the objects that a test keeps for buckets, scopes and
      collections.  couchbase_utils/bucket_utils/bucket_ready_functions.py creates and
      drops them together with the cluster's, expands specifications into them,
      selects some of them at random, computes from their document windows which documents an operation
      loads, judges failed operations, and compares vbucket statistics before and
      after a step.  The statistics come from couchbase_utils/cb_tools/cbstats.py and are collected
      and compared by lib/couchbase_helper/data_analysis_helper.py.
    - The tasks of lib/Jython_tasks/task.py load and validate documents with the clients of lib/sdk_client3.py, which a
      pool shares between them, rebalance the cluster over REST (lib/membase/api/rest_client.py) and
      wait for statistics, as lib/membase/helper/rebalance_helper.py does.
    - couchbase_utils/cluster_utils/cluster_ready_functions.py keeps the cluster object: its servers, which of them run which service, and the
      master.
    - lib/CbasLib/cbas_entity.py and couchbase_utils/cbas_utils/cbas_utils.py keep the analytics entities that a test has
      created, and run analytics jobs on worker threads.

    ** Files

    - Prelude.v: tactics, the hint database [taf], shared lemmas.
    - Py.v: Python's byte strings and their methods, exceptions as values, the
      error monad [res] and the state and error monad [M] in which stateful
      code is written, with [minv] for invariants kept by a computation.
    - PyStruct.v, Json.v: [struct] and [json.loads] as far as they are used.
    - Crc32.v: [crc32_hash] with its table, [zlib.crc32], [vbucket_of].
    - MemcacheConstants.v: lib/memcacheConstants.py.
    - McWire.v: the state of [MemcachedClient] (record [client]: vbucket, feature
      flags, error map, collection map, bytes sent, chunks still to arrive) and its private
      methods, [_sendMsg] = [sendMsg], [_recvMsg] = [recvMsg], [_doCmd] = [doCmd]
      and so on.
    - McCommands.v: the public methods of [MemcachedClient]; [get] is [mc_get].
    - DcpBinClient.v: [DcpClient], its operations, [DcpStream] and the generator
      behind it.  Operation objects live in a store, since three places
      share them.
    - Durability.v: [DurabilityHelper].
    - TaskManager.v: [TaskManager] over the class [Executor] (the Java pool, with its
      documented laws in [ExecutorLaws] and an instance in module [Demo]), and
      [BucketStats.manage_task].
    - EventLog.v: [EventHelper] with its timestamps.
    - KvStore.v: [Partition] (record [partition]), [KVStore] with its locks, and
      [ClientKeyValueStore] (names with [os_]).
    - DataHelper.v: [VBucketAwareMemcached].
    - DocGen.v: the generators; classes [Generator] and [GeneratorLaws] are the
      interface that [BatchedDocumentGenerator] uses and is proved against.  The JSON
      template is a shared mutable object in a store.
    - TestInput.v: TestInput.py.  XUnit.v: lib/xunit.py.  TestRunner.v: testrunner.py.
    - Bucket.v: [Bucket], [Scope], [Collection] with [ScopeUtils] and [CollectionUtils]; the
      REST calls are the class [Manifest], with its documented laws in [ManifestLaws] and
      an instance.
    - DocLoader.v: [DocLoaderUtils].  BucketSelect.v: [get_random_buckets], [get_random_scopes],
      [get_random_collections].  BucketSpec.v: [expand_buckets_spec] and the serverless balancing, with the number and
      comparison semantics of Python 2.
    - Cbstats.v: [Cbstats] over an arbitrary fetch of statistics.  DataAnalysis.v: [DataCollector],
      [DataAnalyzer], [DataAnalysisResultAnalyzer] and the comparisons of [BucketUtils] on top of them.
    - SdkPool.v: [SDKClientPool] with its locks, its threads as interleaved steps.  LoadTasks.v: [Task], [GenericLoadingTask],
      [LoadDocumentsTask] and [LoadDocumentsGeneratorsTask], over the classes [DocOp] (the Java document operations, laws in [DocOpLaws])
      and [Pool].  ValidateTasks.v: [ValidateDocumentsTask] on the same interfaces.
    - Rebalance.v: [RebalanceTask], over the class [Rest] (what the cluster answers, laws in [RestLaws]).
      Waits.v: [Task.wait_until], [StatsWaitTask] and [RebalanceHelper], over the class [Clock].
    - Cbas.v: the analytics names, entities, dictionaries and worker threads.
    - SpecTasks.v: [perform_tasks_from_spec] over Bucket.v and BucketSelect.v; the dictionary of what was done has references, since two of its
      entries share objects, and thread pools take the order of their jobs as an argument.
    - BucketVerify.v: the checks of [BucketUtils] on what a cluster reports, with [verify_doc_op_task_exceptions].
    - DurableLoad.v: [Durability.Loader] with its reader and its check of persistence, three threads as interleaved steps.
    - MergeReports.v: scripts/merge_reports.py, over the report files of XUnit.v.
    - ClusterUtils.v: [CBCluster] and [ClusterUtils], on the cluster and server objects of Rebalance.v.

    ** What the theorems show

    - Transport: a request that is sent is received unchanged however the
      network splits it ([sendMsg_recvMsg], [recvMsg_reassembles]); a command
      gets the answer with its own opaque or the server's error
      ([doCmd_request_response]); keys go to the vbucket of their hash
      ([set_vbucket_spec], [crc32_agrees], [memcached_routes]); collection ids are
      LEB128 and round trip ([collection_id_roundtrip]); [get] and pipelined
      [setMulti] as wholes ([mc_get_spec], [setMulti_drain_spec]).
    - DCP: streams deliver strictly increasing sequence numbers and end
      ([run_ordered], [run_terminates]); mutations and failover logs round trip.
    - Client-side store: partitions and the locked table refine a finite map
      with expiry ([partition_refines], [store_is_a_map]); taking and
      releasing partitions ([acquire_release_partitions]).
    - Generators: batches cover the documents exactly once ([batches_cover]), the search for
      keys of target vbuckets ends exactly when enough candidates exist
      ([target_keys]), sharing of documents ([batch_sharing]).
    - Runner: configuration files, parameters and servers parse as written
      ([conf_file_roundtrip], [params_roundtrip], [ini_servers]); group selection
      ([group_selection]); a run executes and reports the selected tests once, in
      order, and has the documented exit code ([main_runs],
      [xunit_report], [test_parameters]); merged reports keep the latest result of each test ([cases_merged], [merged_report]).
    - Tasks: stopping and collecting a task never waits for ever
      ([stop_then_collect]); the shared statistics task lives exactly as long as
      it has users ([shared_task]).
    - Events: the one-pass checks for order and duplicates are complete
      ([events_checked]); validation succeeds exactly when the recorded events
      occur in order ([validate_recorded]); timestamps round trip.
    - Durability: the quorum decision, the choice of nodes and when it ends, and
      the check of statistics ([durability_quorum], [target_nodes], [verify_stats]).
    - Buckets: the objects follow the server's manifest ([bucket_follows_manifest]); creation in bulk, removal,
      flush, the hierarchy check and random names ([create_collections_spec], [remove_scope_collections_spec],
      [flush_bucket_spec], [hierarchy_validated], [random_name_bounds], [bucket_well_formed]).
    - Operations from a specification: what is returned is what changed on the cluster ([tasks_recorded]), the objects follow the
      cluster also after a failure ([tasks_follow]).
    - Checks: the placement of serverless buckets ([serverless_validated]), item counts ([items_verified]), warm-up ([warmup_decided]), and the classes of failed
      documents ([failures_classified]).
    - Clusters: the lists of nodes per service ([services_listed]), the master ([orchestrator_found]), nodes that are picked or removed ([nodes_picked], [servers_removed]),
      what a clean-up guarantees ([cleanup_sound]).
    - Document loading: the windows of a collection are the documents that exist ([doc_windows],
      [rewind_undoes]); failed documents are accounted for once ([retries_accounted]).
    - Specifications and selection: [spec_expanded], [exponential_total], [balanced_within_limit], [scopes_selected],
      [collections_selected].
    - Statistics: parsing ([stats_grouped]), consistency over nodes and over time ([nodes_consistent],
      [seqnos_compared]), distribution ([distribution_bounds]).
    - Tasks that load and validate: a load task ends ([load_task_ends]), its parts cover the documents ([tasks_cover]), and what is not reported as
      failed is on the server ([loads_reported]); a validation that reports nothing has seen every document as generated, and the other way round ([validation_sound],
      [validation_accepts]); clients in the pool are idle, busy or shared, and counted right ([pool_invariant]).
    - Durable loads: the threads that check a load while it runs judge every document rightly ([durable_judged]) and end unless the load fails ([durable_ends]), but few
      documents are checked for persistence ([persistence_samples]).
    - Rebalance: the task ends ([check_ends]), and the records of the cluster's nodes and services are right ([cluster_bookkeeping], [zones_filled]).
    - Waiting: how long at most ([wait_until_ends], [stats_wait_ends]) and what success means ([persistence_sound], [items_counted], [maps_verified],
      [servers_chosen]).
    - Analytics: names format once and compose ([names_formatted]), dictionaries follow the cluster ([dataverses_kept]), synonyms resolve
      ([synonyms_resolved]), parallel jobs run once each ([jobs_run]).
    - Behaviour that looks unintended is proved too: requests on collections that always fail
      ([collection_requests_fail], [default_collection_unusable]), framing of
      flexible responses ([recvMsg_alt_raises]), dead commands, reports
      read back without some passing tests ([junit_reads_report]), tests that
      are taken for each other ([transform_keeps_one_per_anagram]), windows that leak ([window_leaks],
      [expiry_forgets]), checks that cannot fail or always fail ([dcp_check_blind], [per_node_comparison_fails],
      [compared_as_text], [failover_entries_mixed], [vbucket_state_lost]), [travel_sample_broken],
      errors that are hidden ([write_errors_hidden], [validation_blind], [check_blind], [wait_for_stats_true], [stats_retry_adds]), runs that fail ([no_scope_chosen], [vb_details_two_nodes], [ipv6_not_enforced], [collect_never_ends]), clients of the wrong
      collection ([pool_mixes_collections]), and others.

    ** Bounds and fuel

    Machine-width fields keep their width: [pack] raises [struct.error] when a value
    does not fit, and checksums are 32 bits.  Loops that are not structural take
    fuel.  Receive loops consume a byte per round, so the number of
    bytes wanted is enough, and the parsers ([re_split], [parse_log],
    [parse_xattrs], [getopt], [parse_value]) consume input, so its length is enough; the drains of [setMulti],
    [getMulti] and [stats] and the loop of [DcpStream.run] depend on what
    the server sends, and theorems about them say how much fuel suffices.  The loop of
    [getTargetNodes] depends on random numbers; its fuel is the number of draws, as
    is that of [create_collections] and [create_scopes]; [add_missing] of BucketSpec.v adds one name per round,
    so the number wanted is enough.  A load task needs a round per document; [RebalanceTask.check] needs [num + K (num + 1) + 1] rounds when the
    progress changes [K] times; [wait_until] needs [n] attempts when [10 (2^n - 1)] milliseconds reach the timeout, and [StatsWaitTask] a round per
    five seconds; [_wait_warmup_completed] a round per two seconds of its time.  Fuel of other waits runs out as the exception [Blocked], which stands for waiting for ever.

    ** Not modelled

    The tests under pytests/, REST and SSH calls (rest_client.py, remote_util.py,
    the other utilities of couchbase_utils/), the Java SDK client, the other tasks of
    lib/Jython_tasks/task.py (view, query, index, failover), generated and vendored code, the other scripts, and Java.  Within
    the modelled files: CRAM-MD5 login, the random employee generator
    [JsonDocGenerator], the Wikipedia generator, log files and printing.  The
    cluster, sockets, clocks, random numbers, the [unittest] loader and runner, globbing, downloads and
    regular expressions given by the user are arguments of the definitions.

    Within reach of the same approach and left out: the sub-document and specification-driven loads of lib/Jython_tasks/task.py, the event tables of
    lib/SystemEventLogLib, and the rest of bucket_ready_functions.py and of cbas_utils.py. *)

From Stdlib Require Export ZArith Lia Ascii.
From stdpp Require Export base numbers tactics strings sets gmap list.

#[global] Set Default Goal Selector "!".

(** ** Hint databases and tactics *)

Create HintDb taf.

(** [zbits] proves an equation between integers by comparing bit [i]. *)
Ltac zbits :=
  apply Z.bits_inj'; intros ?i ?Hi;
  repeat first
    [ rewrite Z.lxor_spec | rewrite Z.land_spec | rewrite Z.lor_spec
    | rewrite Z.shiftr_spec by lia | rewrite Z.shiftl_spec by lia ].

(** [by_evaluation] proves an equation between closed terms by evaluation in the kernel. *)
Ltac by_evaluation := match goal with |- _ = ?y => vm_cast_no_check (eq_refl y) end.

(** ** Integers *)

Section integers.
Local Open Scope Z_scope.

Lemma Z_land_range a n : 0 ≤ n → 0 ≤ Z.land a n ≤ n.
Proof.
  intros Hn. split; [apply Z.land_nonneg; lia|].
  destruct (decide (n = 0)) as [->|Hnz]; [by rewrite Z.land_0_r|].
  assert (Hle : Z.ldiff n a = n - Z.land a n).
  { rewrite Z.land_comm. pose proof (Z.add_lor_land (Z.ldiff n a) (Z.land n a)) as H.
    assert (Z.land (Z.ldiff n a) (Z.land n a) = 0) as E.
    { zbits. rewrite Z.ldiff_spec, Z.bits_0.
      destruct (Z.testbit n i), (Z.testbit a i); done. }
    assert (Z.lor (Z.ldiff n a) (Z.land n a) = n) as E'.
    { zbits. rewrite Z.ldiff_spec.
      destruct (Z.testbit n i), (Z.testbit a i); done. }
    lia. }
  assert (0 ≤ Z.ldiff n a) by (apply Z.ldiff_nonneg; lia). lia.
Qed.

Lemma Z_land_mask a k : 0 ≤ k → Z.land a (2 ^ k - 1) = a mod 2 ^ k.
Proof.
  intros Hk. rewrite <- Z.land_ones by done. f_equal.
  rewrite Z.ones_equiv. lia.
Qed.

(** Masking with [n] after masking with a wider mask [2^k - 1] is masking
    with [n]. *)
Lemma Z_land_land_small a n k :
  0 ≤ k → 0 ≤ n < 2 ^ k → Z.land (Z.land a (2 ^ k - 1)) n = Z.land a n.
Proof.
  intros Hk Hn. rewrite <- Z.land_assoc. f_equal.
  rewrite Z.land_comm, Z_land_mask by done. by apply Z.mod_small.
Qed.

Lemma Z_div_pow2_nonneg a k : 0 ≤ a → 0 ≤ Z.shiftr a k.
Proof. intros. by apply Z.shiftr_nonneg. Qed.

End integers.

(** ** Lists *)

Section lists.
Context {A : Type}.
Implicit Types l k : list A.

Lemma take_app_exact l k n : n = length l → take n (l ++ k) = l.
Proof. intros ->. apply take_app_length. Qed.

Lemma drop_app_exact l k n : n = length l → drop n (l ++ k) = k.
Proof. intros ->. apply drop_app_length. Qed.

End lists.
