(* ===== verification/Py.v ===== *)
(** * The Python 2 runtime the sources rely on

    TAF runs on Jython 2.7.  This file models the parts of the language and of
    its standard library that the modelled modules use: [str] values (byte
    strings), exceptions, the two monads the translations are written in, the
    string methods, and [str]/[int] conversions.  The [struct] module has its
    own file, PyStruct.v, and [zlib.crc32] is in Crc32.v. *)

From S2P Require Import Prelude.
From stdpp Require Import pretty.
Local Open Scope Z_scope.

(** ** Byte strings *)

(** A Python 2 [str] is a sequence of bytes. *)
Abbreviation pystr := (list ascii).

(** [py "text"] is the Python literal ['text']. *)
Definition py (s : string) : pystr := String.list_ascii_of_string s.

(** [ord] and [chr]. *)
Definition ord (c : ascii) : Z := Z.of_N (N_of_ascii c).
Definition chr (z : Z) : ascii := ascii_of_N (Z.to_N z).

(** [len] of a string (or of any list) as a Python integer. *)
Definition len {A} (l : list A) : Z := Z.of_nat (length l).

(** [s[a:b]] for non-negative bounds; Python clips bounds that are too big. *)
Definition slice {A} (a b : nat) (l : list A) : list A := take (b - a) (drop a l).

Lemma ord_range c : 0 ≤ ord c < 256.
Proof.
  unfold ord. pose proof (N_ascii_bounded c). lia.
Qed.

Lemma ord_chr z : 0 ≤ z < 256 → ord (chr z) = z.
Proof.
  intros Hz. unfold ord, chr. rewrite N_ascii_embedding; [|lia].
  by rewrite Z2N.id by lia.
Qed.

Lemma chr_ord c : chr (ord c) = c.
Proof. unfold ord, chr. by rewrite N2Z.id, ascii_N_embedding. Qed.

Lemma ord_inj c d : ord c = ord d → c = d.
Proof. intros H. by rewrite <- (chr_ord c), <- (chr_ord d), H. Qed.

#[export] Hint Resolve ord_range : taf.

Lemma len_nonneg {A} (l : list A) : 0 ≤ len l.
Proof. unfold len. lia. Qed.

Lemma len_app {A} (l k : list A) : len (l ++ k) = len l + len k.
Proof. unfold len. rewrite length_app. lia. Qed.

Lemma len_nil {A} : len (@nil A) = 0.
Proof. done. Qed.

Lemma len_cons {A} (x : A) l : len (x :: l) = 1 + len l.
Proof. unfold len. simpl. lia. Qed.

Lemma slice_all {A} (l : list A) n : (length l ≤ n)%nat → slice 0 n l = l.
Proof. intros. unfold slice. rewrite drop_0, Nat.sub_0_r. by apply take_ge. Qed.

Lemma slice_app_l {A} (l k : list A) n : n = length l → slice 0 n (l ++ k) = l.
Proof. intros ->. unfold slice. rewrite drop_0, Nat.sub_0_r. apply take_app_length. Qed.

Lemma slice_app_mid {A} (p l k : list A) a b :
  a = length p → b = (length p + length l)%nat → slice a b (p ++ l ++ k) = l.
Proof.
  intros -> ->. unfold slice. rewrite drop_app_length.
  replace (length p + length l - length p)%nat with (length l) by lia.
  apply take_app_length.
Qed.

Lemma length_slice {A} (l : list A) a b :
  (b ≤ length l)%nat → length (slice a b l) = (b - a)%nat.
Proof. intros. unfold slice. rewrite length_take, length_drop. lia. Qed.

(** ** Exceptions *)

(** The exception classes that the modelled code raises or catches. *)
Inductive exn_class :=
  | ValueError | KeyError | TypeError | AttributeError | NameError
  | AssertionError | IndexError | ZeroDivisionError | StructError | UnicodeError | EOFError
  | StopIteration | RuntimeError | NotImplementedError | SystemExit
  | GenericException | ThreadError | SyntaxError | ImportError
  | ServerUnavailable | RebalanceFailed | StatsUnavailable | IncompleteRead   (* lib/custom_exceptions/exception.py, httplib *)
  | BaseException  (* raised by [Task.set_exception] *)
  | JavaException  (* any other [java.lang.Throwable] *)
  | CancellationException | ExecutionException | InterruptedException | RejectedExecution
  | Blocked        (* not an exception: the thread waits for a lock for ever *)
  | MemcachedError (status : Z).

(** A raised exception: its class and the text [str(ex)] gives. *)
Record pyexn := Exn { exn_cls : exn_class; exn_msg : pystr }.

#[global] Instance exn_class_eq_dec : EqDecision exn_class.
Proof. solve_decision. Defined.
#[global] Instance pyexn_eq_dec : EqDecision pyexn.
Proof. solve_decision. Defined.

(** ** The error monad *)

(** The outcome of a Python expression: a value or an exception. *)
Inductive res (A : Type) : Type :=
  | Ok (a : A)
  | Err (e : pyexn).
Arguments Ok {_} _.
Arguments Err {_} _.

#[global] Instance res_ret : MRet res := λ A a, Ok a.
#[global] Instance res_bind : MBind res := λ A B f m,
  match m with Ok a => f a | Err e => Err e end.
#[global] Instance res_fmap : FMap res := λ A B f m,
  match m with Ok a => Ok (f a) | Err e => Err e end.

Lemma Ok_inj {A} (a b : A) : Ok a = Ok b → a = b.
Proof. by intros [= ->]. Qed.

Definition raise {A} (c : exn_class) : res A := Err (Exn c []).
Definition raise_msg {A} (c : exn_class) (m : pystr) : res A := Err (Exn c m).

(** [assert b]. *)
Definition py_assert (b : bool) : res unit :=
  if b then Ok tt else raise AssertionError.

(** [o] when the operation it stands for succeeded, exception [c] otherwise. *)
Definition of_option {A} (c : exn_class) (o : option A) : res A :=
  match o with Some a => Ok a | None => raise c end.

(** [d[k]] on a dictionary. *)
Definition dict_get `{Countable K} {V} (d : gmap K V) (k : K) : res V :=
  of_option KeyError (d !! k).

(** [l[i]] on a list, for a non-negative index. *)
Definition list_get {A} (l : list A) (i : nat) : res A :=
  of_option IndexError (l !! i).

(** [raises c r]: [r] is an exception of class [c]. *)
Definition raises {A} (c : exn_class) (r : res A) : Prop :=
  match r with Err e => exn_cls e = c | Ok _ => False end.

Definition is_ok {A} (r : res A) : bool := match r with Ok _ => true | Err _ => false end.

(** ** The state-and-error monad *)

(** A method: it reads and writes the object [S] it is called on and returns
    or raises.  The state survives an exception, as attribute writes made
    before a [raise] do. *)
Definition M (S A : Type) : Type := S → res A * S.

#[global] Instance M_ret S : MRet (M S) := λ A a s, (Ok a, s).
#[global] Instance M_bind S : MBind (M S) := λ A B f m s,
  match m s with
  | (Ok a, s') => f a s'
  | (Err e, s') => (Err e, s')
  end.

Definition lift {S A} (r : res A) : M S A := λ s, (r, s).
Definition get {S} : M S S := λ s, (Ok s, s).
Definition gets {S A} (f : S → A) : M S A := λ s, (Ok (f s), s).
Definition put {S} (s : S) : M S unit := λ _, (Ok tt, s).
Definition modify {S} (f : S → S) : M S unit := λ s, (Ok tt, f s).
Definition mraise {S A} (c : exn_class) : M S A := lift (raise c).
Definition mraise_msg {S A} (c : exn_class) (m : pystr) : M S A := lift (raise_msg c m).
Definition massert {S} (b : bool) : M S unit := lift (py_assert b).

(** [try: m  except: h(ex)], the handler seeing every exception; a handler
    that re-raises models a selective [except]. *)
Definition try_except {S A} (m : M S A) (h : pyexn → M S A) : M S A := λ s,
  match m s with
  | (Ok a, s') => (Ok a, s')
  | (Err e, s') => h e s'
  end.

(** What [except Exception] catches: not [BaseException] or [SystemExit], and no Java exception. *)
Definition is_Exception (e : pyexn) : bool :=
  match exn_cls e with
  | BaseException | SystemExit | JavaException | CancellationException | ExecutionException | InterruptedException
  | RejectedExecution | Blocked => false
  | _ => true
  end.
Definition except_Exception {S A} (m : M S A) (h : pyexn → M S A) : M S A :=
  try_except m (λ e, if is_Exception e then h e else lift (Err e)).

(** [for x in l: f(x)]. *)
Fixpoint mfor {S A} (l : list A) (f : A → M S unit) : M S unit :=
  match l with
  | [] => mret tt
  | x :: l => f x ≫= λ _, mfor l f
  end.

Lemma bind_Ok {S A B} (m : M S A) (f : A → M S B) s a s' :
  m s = (Ok a, s') → (m ≫= f) s = f a s'.
Proof. intros H. unfold mbind, M_bind. by rewrite H. Qed.

Lemma bind_Err {S A B} (m : M S A) (f : A → M S B) s e s' :
  m s = (Err e, s') → (m ≫= f) s = (Err e, s').
Proof. intros H. unfold mbind, M_bind. by rewrite H. Qed.

Lemma bind_inv {S A B} (m : M S A) (f : A → M S B) s b s2 :
  (m ≫= f) s = (Ok b, s2) → ∃ a s1, m s = (Ok a, s1) ∧ f a s1 = (Ok b, s2).
Proof.
  unfold mbind, M_bind. destruct (m s) as [[a|e] s1] eqn:E; [eauto|done].
Qed.

Lemma bind_inv_Err {S A B} (m : M S A) (f : A → M S B) s e s2 :
  (m ≫= f) s = (Err e, s2) →
  m s = (Err e, s2) ∨ ∃ a s1, m s = (Ok a, s1) ∧ f a s1 = (Err e, s2).
Proof.
  unfold mbind, M_bind. destruct (m s) as [[a|e'] s1] eqn:E; [eauto|].
  intros [= -> ->]. by left.
Qed.

Lemma massert_inv {S} b (s : S) u s' : massert b s = (Ok u, s') → b = true ∧ s' = s.
Proof. unfold massert, lift, py_assert. destruct b; [by intros [= _ <-]|done]. Qed.

Lemma res_bind_inv {A B} (m : res A) (f : A → res B) b :
  (m ≫= f) = Ok b → ∃ a, m = Ok a ∧ f a = Ok b.
Proof. destruct m; simpl; [eauto|done]. Qed.

(** [minv I m]: method [m] preserves the invariant [I] of its object, also when
    it raises. *)
Definition minv {S A} (I : S → Prop) (m : M S A) : Prop := ∀ s, I s → I (snd (m s)).

Section minv.
Context {S : Type} (I : S → Prop).

Lemma minv_bind {A B} (m : M S A) (f : A → M S B) :
  minv I m → (∀ a, minv I (f a)) → minv I (m ≫= f).
Proof.
  intros Hm Hf s Hs. unfold mbind, M_bind. specialize (Hm s Hs).
  destruct (m s) as [[a|e] s']; simpl in *; [by apply Hf|done].
Qed.
Lemma minv_ret {A} (a : A) : minv I (mret a).
Proof. by intros s. Qed.
Lemma minv_lift {A} (r : res A) : minv I (lift r).
Proof. by intros s. Qed.
Lemma minv_gets {A} (f : S → A) : minv I (gets f).
Proof. by intros s. Qed.
Lemma minv_get : minv I get.
Proof. by intros s. Qed.
Lemma minv_modify f : (∀ s, I s → I (f s)) → minv I (modify f).
Proof. intros Hf s Hs. by apply Hf. Qed.
Lemma minv_mfor {A} (l : list A) (f : A → M S unit) :
  (∀ a, minv I (f a)) → minv I (mfor l f).
Proof. intros Hf. induction l; simpl; [apply minv_ret|by apply minv_bind]. Qed.
Lemma minv_try {A} (m : M S A) (h : pyexn → M S A) : minv I m → (∀ e, minv I (h e)) → minv I (try_except m h).
Proof. intros Hm Hh s Hs. unfold try_except. specialize (Hm s Hs). destruct (m s) as [[a|e] s']; [done|by apply Hh]. Qed.
End minv.

#[export] Hint Resolve minv_ret minv_lift minv_gets minv_get : taf.

(** [solve_minv] follows the structure of a method. *)
Ltac solve_minv :=
  repeat lazymatch goal with
    | |- minv _ (match ?x with _ => _ end) => destruct x
    | |- minv _ (_ ≫= _) => apply minv_bind; [|intros ?]
    | |- minv _ (modify _) => apply minv_modify; intros ? ?
    | |- minv _ (mfor _ _) => apply minv_mfor; intros ?
    end; auto with taf nocore.

(** [step_ok] rewrites one bound call whose result is known. *)
Ltac step_ok := erewrite bind_Ok; [|try eassumption; try reflexivity]; cbv beta.

(** ** String methods *)

Definition str_eqb (a b : pystr) : bool := bool_decide (a = b).

(** [s.startswith(p)] *)
Fixpoint startswith (p s : pystr) : bool :=
  match p, s with
  | [], _ => true
  | _, [] => false
  | a :: p, b :: s => bool_decide (a = b) && startswith p s
  end.

(** [s.endswith(p)] *)
Definition endswith (p s : pystr) : bool := startswith (rev p) (rev s).

(** [p in s] *)
Fixpoint contains (p s : pystr) : bool :=
  startswith p s || match s with [] => false | _ :: s => contains p s end.

(** [s.split(c)] for a one-character separator: the result is never empty. *)
Fixpoint split_on (c : ascii) (s : pystr) : list pystr :=
  match s with
  | [] => [[]]
  | a :: s =>
      if bool_decide (a = c) then [] :: split_on c s
      else match split_on c s with
           | [] => [[a]]
           | w :: ws => (a :: w) :: ws
           end
  end.

(** [s.split(c, 1)]: at most one cut. *)
Fixpoint split_once (c : ascii) (s : pystr) : list pystr :=
  match s with
  | [] => [[]]
  | a :: s =>
      if bool_decide (a = c) then [[]; s]
      else match split_once c s with
           | [] => [[a]]
           | w :: ws => (a :: w) :: ws
           end
  end.

(** [sep.join(words)] *)
Fixpoint join (sep : pystr) (ws : list pystr) : pystr :=
  match ws with
  | [] => []
  | [w] => w
  | w :: ws => w ++ sep ++ join sep ws
  end.

(** White space as [str.strip()] sees it. *)
Definition is_space (c : ascii) : bool :=
  let n := ord c in (n =? 32) || ((9 <=? n) && (n <=? 13)).

Fixpoint lstrip_by (p : ascii → bool) (s : pystr) : pystr :=
  match s with
  | [] => []
  | a :: s' => if p a then lstrip_by p s' else s
  end.
Definition rstrip_by (p : ascii → bool) (s : pystr) : pystr := rev (lstrip_by p (rev s)).

(** [s.strip()], [s.rstrip(chars)] *)
Definition strip (s : pystr) : pystr := rstrip_by is_space (lstrip_by is_space s).
Definition rstrip (chars : pystr) (s : pystr) : pystr :=
  rstrip_by (λ c, bool_decide (c ∈ chars)) s.

(** [s.lower()] on ASCII letters. *)
Definition lower_char (c : ascii) : ascii :=
  let n := ord c in if (65 <=? n) && (n <=? 90) then chr (n + 32) else c.
Definition lower (s : pystr) : pystr := lower_char <$> s.

(** [s.zfill(w)], [s.rjust(w, c)] and [s.ljust(w, c)]; a width below the
    length leaves the string alone.  [zfill] keeps a leading sign, which the
    callers never pass. *)
Definition rjust (w : Z) (c : ascii) (s : pystr) : pystr :=
  replicate (Z.to_nat (w - len s)) c ++ s.
Definition ljust (w : Z) (c : ascii) (s : pystr) : pystr :=
  s ++ replicate (Z.to_nat (w - len s)) c.
Definition zfill (w : Z) (s : pystr) : pystr := rjust w "0"%char s.

(** [str(n)] for an integer. *)
Definition str_of_Z (n : Z) : pystr := py (pretty n).

Lemma py_inj s t : py s = py t → s = t.
Proof.
  intros H. rewrite <- (String.string_of_list_ascii_of_string s),
    <- (String.string_of_list_ascii_of_string t). unfold py in H. by rewrite H.
Qed.

Lemma str_of_Z_inj a b : str_of_Z a = str_of_Z b → a = b.
Proof. intros H%py_inj. by apply (inj pretty). Qed.

(** [s.encode()] and [s.decode()] with the default codec of Python 2, ASCII:
    the identity on seven-bit strings, an error on any other byte. *)
Definition is_ascii (s : pystr) : bool := forallb (λ c, ord c <? 128) s.
Definition encode_ascii (s : pystr) : res pystr :=
  if is_ascii s then Ok s else raise UnicodeError.

Lemma split_on_not_nil c s : split_on c s ≠ [].
Proof.
  destruct s as [|a s]; simpl; [done|]. case_bool_decide; [done|].
  by destruct (split_on c s).
Qed.

(** Joining what [split] produced gives the string back. *)
Lemma join_split_on c s : join [c] (split_on c s) = s.
Proof.
  induction s as [|a s IH]; [done|]. simpl. case_bool_decide as Ha.
  - subst a. pose proof (split_on_not_nil c s).
    destruct (split_on c s) as [|w ws]; [done|]. simpl in *. by rewrite IH.
  - pose proof (split_on_not_nil c s). destruct (split_on c s) as [|w ws]; [done|].
    destruct ws as [|w' ws]; simpl in *; by rewrite IH.
Qed.

(** A word without the separator is its own split. *)
Lemma split_on_word c w : c ∉ w → split_on c w = [w].
Proof.
  induction w as [|a w IH]; [done|]. intros Hin. apply not_elem_of_cons in Hin as [Hne Hin].
  simpl. rewrite bool_decide_eq_false_2 by done. by rewrite IH.
Qed.

Lemma split_on_app c w s : c ∉ w → split_on c (w ++ c :: s) = w :: split_on c s.
Proof.
  induction w as [|a w IH]; intros Hin; simpl.
  - by rewrite bool_decide_eq_true_2.
  - apply not_elem_of_cons in Hin as [Hne Hin].
    rewrite bool_decide_eq_false_2 by done. by rewrite IH.
Qed.

(** Splitting a join of separator-free words gives the words back. *)
Lemma split_on_join c ws :
  ws ≠ [] → Forall (λ w, c ∉ w) ws → split_on c (join [c] ws) = ws.
Proof.
  induction ws as [|w ws IH]; [done|]. intros _ [Hw Hws]%Forall_cons.
  destruct ws as [|w' ws]; [by apply split_on_word|].
  change (join [c] (w :: w' :: ws)) with (w ++ c :: join [c] (w' :: ws)).
  rewrite split_on_app by done. by rewrite IH.
Qed.

Lemma length_rjust w c s : 0 ≤ w → len (rjust w c s) = Z.max w (len s).
Proof.
  intros. unfold rjust, len. rewrite length_app, length_replicate. lia.
Qed.

(** The test [p in s] is the existence of a cut around [p]. *)
Lemma startswith_spec p s : startswith p s = true ↔ ∃ k, s = p ++ k.
Proof.
  revert s. induction p as [|a p IH]; intros s; simpl.
  - split; [eauto|done].
  - destruct s as [|b s]; simpl; [split; [done|intros (k & [=])]|].
    rewrite andb_true_iff, bool_decide_eq_true, IH. split.
    + intros [-> [k ->]]. by exists k.
    + intros [k [= -> ->]]. eauto.
Qed.

Lemma contains_spec p s : contains p s = true ↔ ∃ k1 k2, s = k1 ++ p ++ k2.
Proof.
  induction s as [|a s IH].
  - simpl. rewrite orb_false_r, startswith_spec. split.
    + intros [k Hk]. by exists [], k.
    + intros (k1 & k2 & Hk). destruct k1; [|done]. by exists k2.
  - change (contains p (a :: s)) with (startswith p (a :: s) || contains p s).
    rewrite orb_true_iff, startswith_spec, IH. split.
    + intros [[k Hk]|(k1 & k2 & Hk)]; [by exists [], k|].
      exists (a :: k1), k2. by rewrite Hk.
    + intros (k1 & k2 & Hk). destruct k1 as [|b k1]; [left; by exists k2|].
      right. injection Hk as -> ->. eauto.
Qed.

(** ** Numbers in text *)

Definition digit_val (c : ascii) : option Z :=
  let n := ord c in if (48 <=? n) && (n <=? 57) then Some (n - 48) else None.

Fixpoint digits_val (acc : Z) (s : pystr) : option Z :=
  match s with
  | [] => Some acc
  | c :: s => d ← digit_val c; digits_val (10 * acc + d) s
  end.

(** [int(s)]: surrounding white space and a sign are allowed. *)
Definition int_of_str (s : pystr) : res Z :=
  let s := strip s in
  let '(sgn, s) :=
    match s with
    | c :: s' => if bool_decide (c = "-"%char) then (-1, s')
                 else if bool_decide (c = "+"%char) then (1, s') else (1, s)
    | [] => (1, s)
    end in
  match s with
  | [] => raise ValueError
  | _ => n ← of_option ValueError (digits_val 0 s); Ok (sgn * n)
  end.

(** [s.isdigit()] *)
Definition isdigit (s : pystr) : bool :=
  negb (bool_decide (s = [])) && forallb (λ c, bool_decide (is_Some (digit_val c))) s.

(** [s.rsplit(c, 1)]: at most one cut, at the last occurrence. *)
Fixpoint rsplit_once (c : ascii) (s : pystr) : list pystr :=
  match s with
  | [] => [[]]
  | a :: s' =>
      match rsplit_once c s' with
      | [w1; w2] => [a :: w1; w2]
      | _ => if bool_decide (a = c) then [[]; s'] else [a :: s']
      end
  end.

Lemma rsplit_once_word c w : c ∉ w → rsplit_once c w = [w].
Proof.
  induction w as [|a w IH]; [done|]. intros [Ha Hw]%not_elem_of_cons. simpl. rewrite IH by done.
  by rewrite bool_decide_eq_false_2.
Qed.
Lemma rsplit_once_app c w1 w2 : c ∉ w2 → rsplit_once c (w1 ++ c :: w2) = [w1; w2].
Proof.
  intros Hw. induction w1 as [|a w1 IH]; simpl.
  - rewrite rsplit_once_word by done. by rewrite bool_decide_eq_true_2.
  - by rewrite IH.
Qed.

(** ** Text of numbers and back *)

Lemma digit_val_char x : (x < 10)%N → digit_val (pretty_N_char x) = Some (Z.of_N x).
Proof.
  intros Hx. assert (x = 0 ∨ x = 1 ∨ x = 2 ∨ x = 3 ∨ x = 4 ∨ x = 5 ∨ x = 6 ∨ x = 7 ∨ x = 8 ∨ x = 9)%N
    as H by lia. by destruct_or! H; subst.
Qed.

Lemma digits_val_go x s :
  digits_val 0 (py (pretty_N_go x s)) = digits_val (Z.of_N x) (py s).
Proof.
  revert s. induction (N.lt_wf_0 x) as [x _ IH]; intros s.
  destruct (decide (x = 0)%N) as [->|Hx]; [by rewrite pretty_N_go_0|].
  rewrite pretty_N_go_step by lia. rewrite IH by (apply N.div_lt; lia).
  simpl. rewrite digit_val_char by (by apply N.mod_lt). simpl. f_equal.
  rewrite N2Z.inj_div, N2Z.inj_mod. pose proof (Z.div_mod (Z.of_N x) 10). lia.
Qed.

(** Every character of a printed number is a digit. *)
Lemma digits_val_is_digit acc s v : digits_val acc s = Some v → Forall (λ c, is_Some (digit_val c)) s.
Proof.
  revert acc. induction s as [|c s IH]; intros acc; simpl; [constructor|].
  destruct (digit_val c) eqn:E; simpl; [|done]. intros H. constructor; [by rewrite E|].
  by eapply IH.
Qed.

Lemma digits_val_str n : 0 ≤ n → digits_val 0 (str_of_Z n) = Some n.
Proof.
  intros Hn. unfold str_of_Z. destruct n as [|p|p]; [done| |lia].
  change (pretty (Z.pos p)) with (pretty (N.pos p)). unfold pretty, pretty_N.
  case_decide; [done|]. by rewrite digits_val_go.
Qed.

Lemma str_of_Z_digits n : 0 ≤ n → Forall (λ c, is_Some (digit_val c)) (str_of_Z n).
Proof. intros Hn. eapply digits_val_is_digit. by apply digits_val_str. Qed.

Lemma digits_val_zeros k s : digits_val 0 (replicate k "0"%char ++ s) = digits_val 0 s.
Proof. induction k as [|k IH]; [done|]. simpl. exact IH. Qed.

Lemma digits_val_zfill w n : 0 ≤ n → digits_val 0 (zfill w (str_of_Z n)) = Some n.
Proof. intros Hn. unfold zfill, rjust. by rewrite digits_val_zeros, digits_val_str. Qed.

(** *** Numbers of fixed width *)

(** The [k] last decimal digits of a number. *)
Fixpoint fixed (k : nat) (n : N) : pystr :=
  match k with
  | O => []
  | S k => fixed k (n / 10) ++ [pretty_N_char (n mod 10)]
  end.
Lemma length_fixed k n : length (fixed k n) = k.
Proof. revert n. induction k as [|k IH]; intros n; [done|]. cbn. rewrite length_app, IH. cbn. lia. Qed.
Lemma fixed_0 k : fixed k 0 = replicate k "0"%char.
Proof.
  induction k as [|k IH]; [done|]. cbn [fixed]. change (0 / 10)%N with 0%N. rewrite IH.
  by rewrite <- replicate_cons_app.
Qed.
Lemma pretty_go_app x s : py (pretty_N_go x s) = py (pretty_N_go x "") ++ py s.
Proof.
  revert s. induction (N.lt_wf_0 x) as [x _ IH]; intros s.
  destruct (decide (x = 0)%N) as [->|Hx]; [by rewrite !pretty_N_go_0|].
  rewrite !(pretty_N_go_step x) by lia. rewrite IH by (apply N.div_lt; lia).
  assert (x / 10 < x)%N as Hlt by (apply N.div_lt; lia).
  rewrite (IH _ Hlt (String _ "")). cbn. by rewrite <- app_assoc.
Qed.
Lemma fixed_go k n :
  (n < 10 ^ N.of_nat k)%N →
  ∃ z, fixed k n = replicate z "0"%char ++ py (pretty_N_go n "") ∧ (z + length (py (pretty_N_go n "")) = k)%nat.
Proof.
  revert n. induction k as [|k IH]; intros n Hn.
  - exists 0%nat. cbn in Hn. assert (n = 0)%N as -> by lia. done.
  - destruct (decide (n = 0)%N) as [->|Hx].
    + exists (S k). rewrite fixed_0, pretty_N_go_0, app_nil_r. split; [done|]. cbn. lia.
    + destruct (IH (n / 10)%N) as (z & Hz & Hl).
      { apply N.Div0.div_lt_upper_bound. rewrite Nat2N.inj_succ, N.pow_succ_r' in Hn. done. }
      exists z. cbn [fixed]. rewrite pretty_N_go_step, pretty_go_app, Hz by lia.
      rewrite <- app_assoc, length_app. split; [done|]. unfold py at 2. cbn [String.list_ascii_of_string length]. lia.
Qed.
Lemma zfill_fixed k n : (0 < k)%nat → 0 ≤ n < 10 ^ Z.of_nat k → zfill (Z.of_nat k) (str_of_Z n) = fixed k (Z.to_N n).
Proof.
  intros Hk Hn. unfold zfill, rjust, str_of_Z. destruct n as [|p|p]; [| |lia].
  - change (Z.to_N 0) with 0%N. rewrite fixed_0. change (py (pretty 0)) with ["0"%char].
    destruct k as [|k]; [lia|]. replace (Z.to_nat (Z.of_nat (S k) - len ["0"%char])) with k by (unfold len; cbn; lia).
    by rewrite <- replicate_cons_app.
  - change (pretty (Z.pos p)) with (pretty (N.pos p)). change (Z.to_N (Z.pos p)) with (N.pos p).
    unfold pretty, pretty_N. rewrite decide_False by done.
    destruct (fixed_go k (N.pos p)) as (z & -> & Hl).
    { apply N2Z.inj_lt. rewrite N2Z.inj_pow, nat_N_Z. cbn. lia. }
    f_equal. f_equal. unfold len. lia.
Qed.
Lemma digits_val_app acc s t :
  digits_val acc (s ++ t) = (v ← digits_val acc s; digits_val v t).
Proof.
  revert acc. induction s as [|c s IH]; intros acc; [done|]. cbn.
  destruct (digit_val c); cbn; [apply IH|done].
Qed.
Lemma fixed_digits k n : Forall (λ c, is_Some (digit_val c)) (fixed k n).
Proof.
  revert n. induction k as [|k IH]; intros n; [constructor|]. cbn. apply Forall_app. split; [apply IH|].
  apply Forall_singleton. rewrite digit_val_char; [by eexists|]. by apply N.mod_lt.
Qed.
Lemma not_in_digits c s : digit_val c = None → Forall (λ c, is_Some (digit_val c)) s → c ∉ s.
Proof. intros Hc Hs Hin. rewrite Forall_forall in Hs. destruct (Hs c Hin). congruence. Qed.
