(* ===== verification/PyStruct.v ===== *)
(** * The [struct] module

    [struct.pack], [struct.unpack] and [struct.calcsize] for the format
    characters that the wire protocol modules use: [x], [b], [B], [h], [H],
    [i], [I], [l], [L], [q] and [Q], with the prefixes [>] and [!] (big-endian),
    [<] (little-endian) and none (native order and alignment).  Packing checks
    the number and the range of its arguments and unpacking checks the length of
    its buffer; both raise [struct.error]. *)

From S2P Require Import Prelude Py.
Local Open Scope Z_scope.

(** ** Integers as bytes *)

(** The [n] low bytes of [v], least significant first. *)
Fixpoint le_bytes (n : nat) (v : Z) : pystr :=
  match n with
  | O => []
  | S n => chr (v mod 256) :: le_bytes n (v / 256)
  end.

Fixpoint le_value (s : pystr) : Z :=
  match s with
  | [] => 0
  | c :: s => ord c + 256 * le_value s
  end.

Lemma length_le_bytes n v : length (le_bytes n v) = n.
Proof. revert v. induction n; intros; simpl; auto. Qed.

Lemma pow256_S n : 256 ^ Z.of_nat (S n) = 256 * 256 ^ Z.of_nat n.
Proof. rewrite Nat2Z.inj_succ, Z.pow_succ_r by lia. done. Qed.

Lemma pow256_pos n : 0 < 256 ^ Z.of_nat n.
Proof. apply Z.pow_pos_nonneg; lia. Qed.

Lemma le_value_bytes n v : le_value (le_bytes n v) = v mod 256 ^ Z.of_nat n.
Proof.
  revert v. induction n as [|n IH]; intros v; simpl le_value.
  - by rewrite Z.mod_1_r.
  - rewrite IH, ord_chr by (apply Z.mod_pos_bound; lia).
    rewrite pow256_S, Z.rem_mul_r by (pose proof (pow256_pos n); lia). lia.
Qed.

Lemma le_value_range s : 0 ≤ le_value s < 256 ^ Z.of_nat (length s).
Proof.
  induction s as [|c s IH]; [simpl; lia|].
  simpl le_value. simpl length. rewrite pow256_S.
  pose proof (ord_range c). lia.
Qed.

Lemma le_bytes_value s : le_bytes (length s) (le_value s) = s.
Proof.
  induction s as [|c s IH]; [done|]. simpl. pose proof (ord_range c).
  rewrite (Z.mul_comm 256), Z.mod_add, Z.div_add by lia.
  rewrite Z.mod_small, Z.div_small by lia. by rewrite Z.add_0_l, chr_ord, IH.
Qed.

(** ** Formats *)

Inductive code :=
  | CPad                                   (* x *)
  | CInt (signed : bool) (size : nat).     (* an integer of [size] bytes *)

Definition code_size (c : code) : nat :=
  match c with CPad => 1 | CInt _ n => n end.

(** [native]: the sizes without a prefix, where [l] has eight bytes. *)
Definition parse_code (native : bool) (c : ascii) : option code :=
  match c with
  | "x"%char => Some CPad
  | "b"%char => Some (CInt true 1)
  | "B"%char => Some (CInt false 1)
  | "h"%char => Some (CInt true 2)
  | "H"%char => Some (CInt false 2)
  | "i"%char => Some (CInt true 4)
  | "I"%char => Some (CInt false 4)
  | "l"%char => Some (CInt true (if native then 8 else 4))
  | "L"%char => Some (CInt false (if native then 8 else 4))
  | "q"%char => Some (CInt true 8)
  | "Q"%char => Some (CInt false 8)
  | _ => None
  end%nat.

(** Native alignment, made explicit as pad bytes before each field. *)
Fixpoint align (off : nat) (cs : list code) : list code :=
  match cs with
  | [] => []
  | c :: cs =>
      let p := ((code_size c - off mod code_size c) mod code_size c)%nat in
      replicate p CPad ++ c :: align (off + p + code_size c) cs
  end.

Fixpoint parse_codes (native : bool) (s : pystr) : res (list code) :=
  match s with
  | [] => Ok []
  | c :: s => c ← of_option StructError (parse_code native c);
              cs ← parse_codes native s;
              Ok (c :: cs)
  end.

(** A format string: whether it is big-endian, and its fields. *)
Definition parse_fmt (fmt : string) : res (bool * list code) :=
  match py fmt with
  | ">"%char :: s | "!"%char :: s => cs ← parse_codes false s; Ok (true, cs)
  | "<"%char :: s => cs ← parse_codes false s; Ok (false, cs)
  | s => cs ← parse_codes true s; Ok (false, align 0 cs)
  end.

Definition codes_size (cs : list code) : nat := sum_list_with code_size cs.

(** [struct.calcsize(fmt)] *)
Definition calcsize (fmt : string) : res nat :=
  '(_, cs) ← parse_fmt fmt; Ok (codes_size cs).

(** ** Packing and unpacking one field *)

Definition code_range (signed : bool) (n : nat) (v : Z) : bool :=
  let m := 256 ^ Z.of_nat n in
  if signed then (- (m / 2) <=? v) && (v <? m / 2) else (0 <=? v) && (v <? m).

Definition order_bytes (big : bool) (s : pystr) : pystr := if big then rev s else s.

Definition pack_int (big : bool) (n : nat) (v : Z) : pystr :=
  order_bytes big (le_bytes n v).

Definition unpack_int (big signed : bool) (s : pystr) : Z :=
  let u := le_value (order_bytes big s) in
  let m := 256 ^ Z.of_nat (length s) in
  if signed && (m / 2 <=? u) then u - m else u.

Lemma length_order_bytes big s : length (order_bytes big s) = length s.
Proof. destruct big; [apply length_reverse || apply length_rev|done]. Qed.

Lemma order_bytes_invol big s : order_bytes big (order_bytes big s) = s.
Proof. destruct big; [apply rev_involutive|done]. Qed.

Lemma length_pack_int big n v : length (pack_int big n v) = n.
Proof. unfold pack_int. by rewrite length_order_bytes, length_le_bytes. Qed.

Lemma half_pow256 n : n ≠ O → 2 * (256 ^ Z.of_nat n / 2) = 256 ^ Z.of_nat n.
Proof.
  intros Hn. destruct n as [|n]; [done|]. rewrite pow256_S.
  replace (256 * 256 ^ Z.of_nat n) with (128 * 256 ^ Z.of_nat n * 2) by lia.
  rewrite Z.div_mul by lia. lia.
Qed.

(** One field round-trips when its value is in range. *)
Lemma unpack_pack_int big sg n v :
  n ≠ O → code_range sg n v = true → unpack_int big sg (pack_int big n v) = v.
Proof.
  intros Hn Hr. unfold unpack_int. rewrite length_pack_int. unfold pack_int.
  rewrite order_bytes_invol, le_value_bytes.
  pose proof (half_pow256 n Hn) as Hh. pose proof (pow256_pos n) as Hp.
  unfold code_range in Hr. set (m := 256 ^ Z.of_nat n) in *.
  destruct sg; simpl.
  - apply andb_true_iff in Hr as [H1%Z.leb_le H2%Z.ltb_lt].
    destruct (decide (0 ≤ v)) as [Hv|Hv].
    + rewrite Z.mod_small by lia. destruct (Z.leb_spec (m / 2) v); lia.
    + replace (v mod m) with (v + m); [|apply (Z.mod_unique _ _ (-1)); lia].
      destruct (Z.leb_spec (m / 2) (v + m)); lia.
  - apply andb_true_iff in Hr as [H1%Z.leb_le H2%Z.ltb_lt]. rewrite Z.mod_small; lia.
Qed.

Lemma code_range_unpack big sg s :
  s ≠ [] → code_range sg (length s) (unpack_int big sg s) = true.
Proof.
  intros Hs. unfold unpack_int, code_range.
  pose proof (le_value_range (order_bytes big s)) as Hu.
  rewrite length_order_bytes in Hu.
  assert (length s ≠ O) as Hn by (destruct s; simpl; congruence).
  pose proof (half_pow256 _ Hn). set (m := 256 ^ _) in *.
  destruct sg; simpl.
  - destruct (Z.leb_spec (m / 2) (le_value (order_bytes big s))); lia.
  - lia.
Qed.

Lemma le_bytes_mod n v : le_bytes n (v mod 256 ^ Z.of_nat n) = le_bytes n v.
Proof.
  revert v. induction n as [|n IH]; intros v; [done|]. simpl le_bytes.
  rewrite pow256_S, Z.rem_mul_r by (pose proof (pow256_pos n); lia).
  rewrite (Z.mul_comm 256), Z.mod_add, Z.mod_mod, Z.div_add by lia.
  rewrite (Z.div_small (v mod 256)) by (apply Z.mod_pos_bound; lia).
  by rewrite Z.add_0_l, IH.
Qed.

(** Every byte string is the packing of what it unpacks to. *)
Lemma pack_unpack_int big sg s : pack_int big (length s) (unpack_int big sg s) = s.
Proof.
  unfold pack_int, unpack_int.
  pose proof (le_value_range (order_bytes big s)) as Hu.
  rewrite length_order_bytes in Hu. set (u := le_value _) in *.
  set (m := 256 ^ _) in *.
  transitivity (order_bytes big (le_bytes (length s) u)).
  - f_equal. destruct (sg && _); [|done].
    rewrite <- (le_bytes_mod _ (u - m)). fold m. f_equal.
    symmetry. apply (Z.mod_unique _ _ (-1)); lia.
  - unfold u. rewrite <- (length_order_bytes big s), le_bytes_value.
    apply order_bytes_invol.
Qed.

(** ** Packing and unpacking a format *)

Fixpoint pack_codes (big : bool) (cs : list code) (args : list Z) : res pystr :=
  match cs with
  | [] => match args with [] => Ok [] | _ => raise StructError end
  | CPad :: cs => s ← pack_codes big cs args; Ok (chr 0 :: s)
  | CInt sg n :: cs =>
      match args with
      | [] => raise StructError
      | v :: args =>
          if code_range sg n v
          then s ← pack_codes big cs args; Ok (pack_int big n v ++ s)
          else raise StructError
      end
  end.

Fixpoint unpack_codes (big : bool) (cs : list code) (s : pystr) : list Z :=
  match cs with
  | [] => []
  | CPad :: cs => unpack_codes big cs (drop 1 s)
  | CInt sg n :: cs => unpack_int big sg (take n s) :: unpack_codes big cs (drop n s)
  end.

(** [struct.pack(fmt, *args)] *)
Definition pack (fmt : string) (args : list Z) : res pystr :=
  '(big, cs) ← parse_fmt fmt; pack_codes big cs args.

(** [struct.unpack(fmt, s)] *)
Definition unpack (fmt : string) (s : pystr) : res (list Z) :=
  '(big, cs) ← parse_fmt fmt;
  if bool_decide (length s = codes_size cs) then Ok (unpack_codes big cs s)
  else raise StructError.

(** Every integer field of a parsed format has at least one byte. *)
Definition sized (c : code) : Prop := code_size c ≠ O.

Lemma parse_codes_sized native s cs : parse_codes native s = Ok cs → Forall sized cs.
Proof.
  revert cs. induction s as [|a s IH]; intros cs; simpl.
  - intros [= <-]. constructor.
  - destruct (parse_code native a) as [c|] eqn:Hc; simpl; [|done].
    destruct (parse_codes native s) as [cs'|e]; simpl; [|done].
    intros [= <-]. constructor; [|by apply IH].
    unfold sized. destruct c as [|sg n]; [done|]. simpl. intros ->.
    unfold parse_code in Hc. destruct native; repeat case_match; simplify_eq.
Qed.

Lemma align_sized off cs : Forall sized cs → Forall sized (align off cs).
Proof.
  intros H. revert off. induction H as [|c cs Hc Hcs IH]; intros off; [constructor|].
  simpl. apply Forall_app. split; [|by constructor].
  by apply Forall_replicate.
Qed.

Lemma parse_fmt_sized fmt big cs : parse_fmt fmt = Ok (big, cs) → Forall sized cs.
Proof.
  unfold parse_fmt. intros H.
  repeat case_match; apply res_bind_inv in H as (cs' & Hcs & [= <- <-]);
    eauto using parse_codes_sized, align_sized.
Qed.

Lemma length_pack_codes big cs args s :
  pack_codes big cs args = Ok s → length s = codes_size cs.
Proof.
  revert args s. induction cs as [|[|sg n] cs IH]; intros args s; simpl.
  - destruct args; [by intros [= <-]|done].
  - intros (s' & Hs & [= <-])%res_bind_inv. simpl. f_equal. by eapply IH.
  - destruct args as [|v args]; [done|]. destruct (code_range sg n v); [|done].
    intros (s' & Hs & [= <-])%res_bind_inv. rewrite length_app, length_pack_int.
    unfold codes_size in *. simpl. f_equal. by eapply IH.
Qed.

Lemma unpack_pack_codes big cs args s :
  Forall sized cs → pack_codes big cs args = Ok s → unpack_codes big cs s = args.
Proof.
  intros Hsz. revert args s.
  induction Hsz as [|[|sg n] cs Hc Hsz IH]; intros args s; simpl.
  - by destruct args.
  - intros (s' & Hs & [= <-])%res_bind_inv. simpl. rewrite drop_0. by apply IH.
  - destruct args as [|v args]; [done|]. destruct (code_range sg n v) eqn:Hr; [|done].
    intros (s' & Hs & [= <-])%res_bind_inv.
    rewrite (take_app_exact (pack_int big n v)) by (by rewrite length_pack_int).
    rewrite (drop_app_exact (pack_int big n v)) by (by rewrite length_pack_int).
    rewrite unpack_pack_int by done. f_equal. by apply IH.
Qed.

(** What was packed unpacks to the same values, whatever the format. *)
Lemma unpack_pack fmt args s : pack fmt args = Ok s → unpack fmt s = Ok args.
Proof.
  unfold pack, unpack. intros ([big cs] & Hf & Hp)%res_bind_inv.
  rewrite Hf. simpl. rewrite bool_decide_eq_true_2 by (by eapply length_pack_codes).
  f_equal. eapply unpack_pack_codes; [by eapply parse_fmt_sized|done].
Qed.

Lemma length_pack fmt args s : pack fmt args = Ok s → calcsize fmt = Ok (length s).
Proof.
  unfold pack, calcsize. intros ([big cs] & Hf & Hp)%res_bind_inv.
  rewrite Hf. simpl. by rewrite (length_pack_codes _ _ _ _ Hp).
Qed.

Definition no_pad (c : code) : Prop := c ≠ CPad.

Lemma pack_unpack_codes big cs s :
  Forall sized cs → Forall no_pad cs → length s = codes_size cs →
  pack_codes big cs (unpack_codes big cs s) = Ok s.
Proof.
  intros Hsz. revert s. induction Hsz as [|c cs Hc Hsz IH]; intros s Hnp Hlen.
  - by destruct s.
  - apply Forall_cons_1 in Hnp as [Hc' Hnp].
    destruct c as [|sg n]; [done|]. simpl. change (codes_size (CInt sg n :: cs))
      with (n + codes_size cs)%nat in Hlen.
    assert (length (take n s) = n) as Hn by (rewrite length_take; lia).
    assert (take n s ≠ []) as Hne.
    { intros E. rewrite E in Hn. simpl in Hn. by subst n. }
    pose proof (code_range_unpack big sg _ Hne) as Hr. rewrite Hn in Hr. rewrite Hr.
    pose proof (pack_unpack_int big sg (take n s)) as Hp. rewrite Hn in Hp. rewrite Hp.
    rewrite IH; [simpl; by rewrite take_drop|done|rewrite length_drop; lia].
Qed.

(** Unpacking succeeds exactly on buffers of the format's size. *)
Lemma unpack_Ok fmt big cs s :
  parse_fmt fmt = Ok (big, cs) → length s = codes_size cs →
  unpack fmt s = Ok (unpack_codes big cs s).
Proof. intros Hf Hl. unfold unpack. rewrite Hf. simpl. by rewrite bool_decide_eq_true_2. Qed.

Lemma unpack_Ok_len fmt s vs : unpack fmt s = Ok vs → calcsize fmt = Ok (length s).
Proof.
  unfold unpack, calcsize. intros ([big cs] & Hf & Hu)%res_bind_inv. rewrite Hf. simpl.
  case_bool_decide as Hl; [by rewrite Hl|done].
Qed.

(** [pack_ok] evaluates a [pack] of a literal format on symbolic arguments,
    leaving the ranges to [lia]. *)
Lemma code_range_u n v : 0 ≤ v < 256 ^ Z.of_nat n → code_range false n v = true.
Proof. intros. unfold code_range. lia. Qed.

Lemma pack_codes_int big sg n cs v args :
  code_range sg n v = true →
  pack_codes big (CInt sg n :: cs) (v :: args) =
    (s ← pack_codes big cs args; Ok (pack_int big n v ++ s)).
Proof. intros H. simpl. by rewrite H. Qed.

Global Arguments code_range : simpl never.
Global Arguments pack_int : simpl never.
Global Arguments unpack_int : simpl never.
Global Arguments pack : simpl never.
Global Arguments unpack : simpl never.
