(* ===== verification/Crc32.v ===== *)
(** * CRC-32 and the key-to-vbucket map

    lib/crc32.py hashes a document key with a table-driven CRC-32; every other
    module calls [zlib.crc32].  This file has the table and the hash of
    lib/crc32.py, a bitwise definition of [zlib.crc32] as Python 2 returns it (a
    signed 32-bit integer), and the proof that they agree. *)

From S2P Require Import Prelude Py.
Local Open Scope Z_scope.

(** ** [zlib.crc32] *)

(** One step of the reflected CRC-32 register. *)
Definition crc_poly : Z := 0xedb88320.
Definition crc_bit (c : Z) : Z :=
  Z.lxor (Z.shiftr c 1) (if Z.testbit c 0 then crc_poly else 0).

Definition crc_byte (c : Z) : Z := Nat.iter 8 crc_bit c.

Definition crc_update (c : Z) (a : ascii) : Z := crc_byte (Z.lxor c (ord a)).

Definition mask32 : Z := 2 ^ 32 - 1.

(** The unsigned checksum, and the signed value Python 2 returns. *)
Definition crc32_u (s : pystr) : Z := Z.lxor (foldl crc_update mask32 s) mask32.
Definition zlib_crc32 (s : pystr) : Z :=
  let u := crc32_u s in if 2 ^ 31 <=? u then u - 2 ^ 32 else u.

(** ** lib/crc32.py *)

Definition crc32tab : list Z :=
  [
   0x00000000; 0x77073096; 0xee0e612c; 0x990951ba;
   0x076dc419; 0x706af48f; 0xe963a535; 0x9e6495a3;
   0x0edb8832; 0x79dcb8a4; 0xe0d5e91e; 0x97d2d988;
   0x09b64c2b; 0x7eb17cbd; 0xe7b82d07; 0x90bf1d91;
   0x1db71064; 0x6ab020f2; 0xf3b97148; 0x84be41de;
   0x1adad47d; 0x6ddde4eb; 0xf4d4b551; 0x83d385c7;
   0x136c9856; 0x646ba8c0; 0xfd62f97a; 0x8a65c9ec;
   0x14015c4f; 0x63066cd9; 0xfa0f3d63; 0x8d080df5;
   0x3b6e20c8; 0x4c69105e; 0xd56041e4; 0xa2677172;
   0x3c03e4d1; 0x4b04d447; 0xd20d85fd; 0xa50ab56b;
   0x35b5a8fa; 0x42b2986c; 0xdbbbc9d6; 0xacbcf940;
   0x32d86ce3; 0x45df5c75; 0xdcd60dcf; 0xabd13d59;
   0x26d930ac; 0x51de003a; 0xc8d75180; 0xbfd06116;
   0x21b4f4b5; 0x56b3c423; 0xcfba9599; 0xb8bda50f;
   0x2802b89e; 0x5f058808; 0xc60cd9b2; 0xb10be924;
   0x2f6f7c87; 0x58684c11; 0xc1611dab; 0xb6662d3d;
   0x76dc4190; 0x01db7106; 0x98d220bc; 0xefd5102a;
   0x71b18589; 0x06b6b51f; 0x9fbfe4a5; 0xe8b8d433;
   0x7807c9a2; 0x0f00f934; 0x9609a88e; 0xe10e9818;
   0x7f6a0dbb; 0x086d3d2d; 0x91646c97; 0xe6635c01;
   0x6b6b51f4; 0x1c6c6162; 0x856530d8; 0xf262004e;
   0x6c0695ed; 0x1b01a57b; 0x8208f4c1; 0xf50fc457;
   0x65b0d9c6; 0x12b7e950; 0x8bbeb8ea; 0xfcb9887c;
   0x62dd1ddf; 0x15da2d49; 0x8cd37cf3; 0xfbd44c65;
   0x4db26158; 0x3ab551ce; 0xa3bc0074; 0xd4bb30e2;
   0x4adfa541; 0x3dd895d7; 0xa4d1c46d; 0xd3d6f4fb;
   0x4369e96a; 0x346ed9fc; 0xad678846; 0xda60b8d0;
   0x44042d73; 0x33031de5; 0xaa0a4c5f; 0xdd0d7cc9;
   0x5005713c; 0x270241aa; 0xbe0b1010; 0xc90c2086;
   0x5768b525; 0x206f85b3; 0xb966d409; 0xce61e49f;
   0x5edef90e; 0x29d9c998; 0xb0d09822; 0xc7d7a8b4;
   0x59b33d17; 0x2eb40d81; 0xb7bd5c3b; 0xc0ba6cad;
   0xedb88320; 0x9abfb3b6; 0x03b6e20c; 0x74b1d29a;
   0xead54739; 0x9dd277af; 0x04db2615; 0x73dc1683;
   0xe3630b12; 0x94643b84; 0x0d6d6a3e; 0x7a6a5aa8;
   0xe40ecf0b; 0x9309ff9d; 0x0a00ae27; 0x7d079eb1;
   0xf00f9344; 0x8708a3d2; 0x1e01f268; 0x6906c2fe;
   0xf762575d; 0x806567cb; 0x196c3671; 0x6e6b06e7;
   0xfed41b76; 0x89d32be0; 0x10da7a5a; 0x67dd4acc;
   0xf9b9df6f; 0x8ebeeff9; 0x17b7be43; 0x60b08ed5;
   0xd6d6a3e8; 0xa1d1937e; 0x38d8c2c4; 0x4fdff252;
   0xd1bb67f1; 0xa6bc5767; 0x3fb506dd; 0x48b2364b;
   0xd80d2bda; 0xaf0a1b4c; 0x36034af6; 0x41047a60;
   0xdf60efc3; 0xa867df55; 0x316e8eef; 0x4669be79;
   0xcb61b38c; 0xbc66831a; 0x256fd2a0; 0x5268e236;
   0xcc0c7795; 0xbb0b4703; 0x220216b9; 0x5505262f;
   0xc5ba3bbe; 0xb2bd0b28; 0x2bb45a92; 0x5cb36a04;
   0xc2d7ffa7; 0xb5d0cf31; 0x2cd99e8b; 0x5bdeae1d;
   0x9b64c2b0; 0xec63f226; 0x756aa39c; 0x026d930a;
   0x9c0906a9; 0xeb0e363f; 0x72076785; 0x05005713;
   0x95bf4a82; 0xe2b87a14; 0x7bb12bae; 0x0cb61b38;
   0x92d28e9b; 0xe5d5be0d; 0x7cdcefb7; 0x0bdbdf21;
   0x86d3d2d4; 0xf1d4e242; 0x68ddb3f8; 0x1fda836e;
   0x81be16cd; 0xf6b9265b; 0x6fb077e1; 0x18b74777;
   0x88085ae6; 0xff0f6a70; 0x66063bca; 0x11010b5c;
   0x8f659eff; 0xf862ae69; 0x616bffd3; 0x166ccf45;
   0xa00ae278; 0xd70dd2ee; 0x4e048354; 0x3903b3c2;
   0xa7672661; 0xd06016f7; 0x4969474d; 0x3e6e77db;
   0xaed16a4a; 0xd9d65adc; 0x40df0b66; 0x37d83bf0;
   0xa9bcae53; 0xdebb9ec5; 0x47b2cf7f; 0x30b5ffe9;
   0xbdbdf21c; 0xcabac28a; 0x53b39330; 0x24b4a3a6;
   0xbad03605; 0xcdd70693; 0x54de5729; 0x23d967bf;
   0xb3667a2e; 0xc4614ab8; 0x5d681b02; 0x2a6f2b94;
   0xb40bbe37; 0xc30c8ea1; 0x5a05df1b; 0x2d02ef8d].

Definition crc32_loop (crc : Z) (key : pystr) : Z :=
  foldl (λ crc ch,
    Z.lxor (Z.shiftr crc 8)
      (default 0 (crc32tab !! Z.to_nat (Z.land (Z.lxor crc (ord ch)) 0xff)))) crc key.

Definition crc32_hash (key : pystr) : Z :=
  let crc := crc32_loop (2 ^ 32 - 1) key in
  Z.land (Z.shiftr (Z.lnot crc) 16) 0x7fff.

(** ** The vbucket of a key *)

(** [(((zlib.crc32(key)) >> 16) & 0x7fff) & (vbuckets - 1)], as the document
    generators and the memcached client compute it. *)
Definition vbucket_of (key : pystr) (vbuckets : Z) : Z :=
  Z.land (Z.land (Z.shiftr (zlib_crc32 key) 16) 0x7fff) (vbuckets - 1).

(** ** Proofs *)

(** Every table lookup of [crc32_hash] is in range. *)
Lemma crc32tab_lookup i : 0 ≤ i < 256 → is_Some (crc32tab !! Z.to_nat i).
Proof.
  intros Hi. apply lookup_lt_is_Some. change (length crc32tab) with 256%nat. lia.
Qed.

Lemma crc_bit_lxor a b : crc_bit (Z.lxor a b) = Z.lxor (crc_bit a) (crc_bit b).
Proof.
  unfold crc_bit. rewrite Z.lxor_spec, Z.shiftr_lxor.
  destruct (Z.testbit a 0), (Z.testbit b 0); simpl xorb; cbv iota;
    zbits; rewrite ?Z.bits_0;
    repeat match goal with |- context [Z.testbit ?x ?y] => destruct (Z.testbit x y) end;
    done.
Qed.

Lemma crc_iter_lxor n a b :
  Nat.iter n crc_bit (Z.lxor a b) = Z.lxor (Nat.iter n crc_bit a) (Nat.iter n crc_bit b).
Proof. induction n as [|n IH]; simpl; [done|]. by rewrite IH, crc_bit_lxor. Qed.

(** Zero bits are shifted out one by one. *)
Lemma crc_iter_shiftl n a :
  Nat.iter n crc_bit (Z.shiftl a (Z.of_nat n)) = a.
Proof.
  induction n as [|n IH]; [apply Z.shiftl_0_r|].
  rewrite Nat.iter_succ_r. unfold crc_bit at 2.
  rewrite Z.shiftl_spec_low, Z.lxor_0_r by lia.
  rewrite Z.shiftr_shiftl_l by lia.
  replace (Z.of_nat (S n) - 1) with (Z.of_nat n) by lia. apply IH.
Qed.

Lemma low_high_byte c : c = Z.lxor (Z.land c 0xff) (Z.shiftl (Z.shiftr c 8) 8).
Proof.
  zbits. change 0xff with (Z.ones 8).
  destruct (decide (i < 8)).
  - rewrite Z.ones_spec_low, (Z.testbit_neg_r _ (i - 8)) by lia. by destruct (Z.testbit c i).
  - rewrite Z.ones_spec_high, Z.shiftr_spec by lia.
    replace (i - 8 + 8) with i by lia. by destruct (Z.testbit c i).
Qed.

(** The table holds eight steps of the register for every byte. *)
Lemma crc32tab_spec i :
  0 ≤ i < 256 → default 0 (crc32tab !! Z.to_nat i) = crc_byte i.
Proof.
  intros Hi.
  assert (Forall (λ i, default 0 (crc32tab !! Z.to_nat i) = crc_byte i) (seqZ 0 256)) as H
    by (apply (bool_decide_eq_true_1 _); vm_compute; reflexivity).
  rewrite Forall_forall in H. apply H. apply elem_of_seqZ. lia.
Qed.

(** One round of [crc32_hash] is eight steps of the bitwise register. *)
Lemma crc32_round c a :
  Z.lxor (Z.shiftr c 8)
    (default 0 (crc32tab !! Z.to_nat (Z.land (Z.lxor c (ord a)) 0xff))) = crc_update c a.
Proof.
  assert (Z.shiftr (Z.lxor c (ord a)) 8 = Z.shiftr c 8) as Hx.
  { rewrite Z.shiftr_lxor, (Z.shiftr_div_pow2 (ord a)) by lia.
    rewrite Z.div_small by apply ord_range. apply Z.lxor_0_r. }
  unfold crc_update. rewrite <- Hx. set (x := Z.lxor c (ord a)).
  rewrite crc32tab_spec.
  2:{ pose proof (Z_land_range x 0xff). lia. }
  rewrite (low_high_byte x) at 3. unfold crc_byte. rewrite crc_iter_lxor, Z.lxor_comm.
  f_equal. symmetry. apply (crc_iter_shiftl 8).
Qed.

Lemma crc32_loop_spec c key : crc32_loop c key = foldl crc_update c key.
Proof.
  revert c. induction key as [|a key IH]; intros c; [done|].
  unfold crc32_loop in *. simpl. rewrite crc32_round. apply IH.
Qed.

Lemma testbit_lnot_mask c i :
  0 ≤ i < 32 → Z.testbit (Z.lnot c) i = Z.testbit (Z.lxor c mask32) i.
Proof.
  intros Hi. rewrite Z.lnot_spec, Z.lxor_spec by lia.
  change mask32 with (Z.ones 32). rewrite Z.ones_spec_low by lia.
  by destruct (Z.testbit c i).
Qed.

(** The signed and the unsigned checksum agree on their 32 low bits. *)
Lemma testbit_crc32 s i : 0 ≤ i < 32 → Z.testbit (zlib_crc32 s) i = Z.testbit (crc32_u s) i.
Proof.
  intros Hi. unfold zlib_crc32. case_match; [|done].
  rewrite <- (Z.mod_pow2_bits_low _ 32 i) by lia.
  rewrite <- (Z.mod_pow2_bits_low (crc32_u s) 32 i) by lia.
  f_equal. replace (crc32_u s - 2 ^ 32) with (crc32_u s + (-1) * 2 ^ 32) by lia.
  by rewrite Z.mod_add by lia.
Qed.

Lemma land_shiftr_eq a b k n m :
  0 ≤ k → 0 ≤ n → (∀ i, k ≤ i < k + n → Z.testbit a i = Z.testbit b i) →
  m = 2 ^ n - 1 →
  Z.land (Z.shiftr a k) m = Z.land (Z.shiftr b k) m.
Proof.
  intros Hk Hn H ->. zbits. replace (2 ^ n - 1) with (Z.ones n) by (rewrite Z.ones_equiv; lia).
  destruct (decide (i < n)).
  - rewrite H by lia. done.
  - rewrite Z.ones_spec_high by lia. by rewrite !andb_false_r.
Qed.

(** The table-driven hash is the one every [zlib.crc32] caller computes. *)
Lemma crc32_hash_zlib key :
  crc32_hash key = Z.land (Z.shiftr (zlib_crc32 key) 16) 0x7fff.
Proof.
  unfold crc32_hash. rewrite crc32_loop_spec.
  apply land_shiftr_eq with 15; [lia..| |done].
  intros i Hi. rewrite testbit_lnot_mask, testbit_crc32 by lia. done.
Qed.

Lemma vbucket_of_range key n : 0 < n → 0 ≤ vbucket_of key n < n.
Proof. intros Hn. unfold vbucket_of. pose proof (Z_land_range (Z.land (zlib_crc32 key ≫ 16) 32767) (n - 1)). lia. Qed.

(** With at most 2^15 vbuckets the intermediate mask is redundant. *)
Lemma vbucket_of_no_mask key n :
  0 < n ≤ 2 ^ 15 → vbucket_of key n = Z.land (Z.shiftr (zlib_crc32 key) 16) (n - 1).
Proof.
  intros Hn. unfold vbucket_of. change 0x7fff with (2 ^ 15 - 1).
  apply Z_land_land_small; lia.
Qed.

(** C39: The key hash of lib/crc32.py is the one that the [zlib.crc32] callers compute:
    the table-driven loop gives the upper 15 of the 31 low bits of the checksum
    for every key, and with any number of vbuckets up to 2^15 both
    masks select the same vbucket, which is in range. *)
Theorem crc32_agrees key n :
  0 < n ≤ 2 ^ 15 →
  crc32_hash key = Z.land (Z.shiftr (zlib_crc32 key) 16) 0x7fff ∧
  vbucket_of key n = Z.land (crc32_hash key) (n - 1) ∧
  vbucket_of key n = Z.land (Z.shiftr (zlib_crc32 key) 16) (n - 1) ∧
  0 ≤ vbucket_of key n < n.
Proof.
  intros Hn. split_and!; [apply crc32_hash_zlib| |by apply vbucket_of_no_mask|apply vbucket_of_range; lia..].
  unfold vbucket_of. by rewrite crc32_hash_zlib.
Qed.
Lemma crc32_agrees_witness :
  vbucket_of (py "key-1") 1024 = Z.land (Z.shiftr (zlib_crc32 (py "key-1")) 16) 1023.
Proof. apply (crc32_agrees (py "key-1") 1024). lia. Defined.
