(* ===== verification/MemcacheConstants.v ===== *)
(** * lib/memcacheConstants.py

    Opcodes, status codes, magic bytes and packet formats of the memcached and
    DCP protocols.  A name the module assigns twice has the value of its last
    assignment, which is the one its importers see: [CMD_FLUSH] is the DCP
    opcode 0x5a and not the memcached opcode 8 of line 21. *)

From S2P Require Import Prelude Py PyStruct.
Local Open Scope Z_scope.
Local Open Scope string_scope.

Definition CMD_GET : Z := 0.
Definition CMD_SET : Z := 1.

Definition CMD_ADD : Z := 2.
Definition CMD_REPLACE : Z := 3.
Definition CMD_DELETE : Z := 4.
Definition CMD_INCR : Z := 5.
Definition CMD_DECR : Z := 6.
Definition CMD_QUIT : Z := 7.

Definition CMD_GETQ : Z := 9.
Definition CMD_NOOP : Z := 10.
Definition CMD_VERSION : Z := 11.

Definition CMD_APPEND : Z := 0x0e.
Definition CMD_PREPEND : Z := 0x0f.
Definition CMD_STAT : Z := 0x10.
Definition CMD_SETQ : Z := 0x11.
Definition CMD_DELETEQ : Z := 0x14.
Definition CMD_VERBOSE : Z := 0x1b.
Definition CMD_TOUCH : Z := 0x1c.
Definition CMD_GAT : Z := 0x1d.
Definition CMD_HELLO : Z := 0x1f.
Definition CMD_GET_REPLICA : Z := 0x83.
Definition CMD_OBSERVE_SEQNO : Z := 0x91.
Definition CMD_OBSERVE : Z := 0x92.

Definition CMD_OPEN : Z := 0x50.
Definition CMD_ADD_STREAM : Z := 0x51.
Definition CMD_CLOSE_STREAM : Z := 0x52.
Definition CMD_STREAM_REQ : Z := 0x53.
Definition CMD_GET_FAILOVER_LOG : Z := 0x54.
Definition CMD_STREAM_END : Z := 0x55.
Definition CMD_SNAPSHOT_MARKER : Z := 0x56.
Definition CMD_MUTATION : Z := 0x57.
Definition CMD_DELETION : Z := 0x58.
Definition CMD_EXPIRATION : Z := 0x59.
Definition CMD_FLUSH : Z := 0x5a.
Definition CMD_SET_VB_STATE : Z := 0x5b.
Definition CMD_UPR_NOOP : Z := 0x5c.
Definition CMD_UPR_ACK : Z := 0x5d.
Definition CMD_FLOW_CONTROL : Z := 0x5e.
Definition CMD_SYSTEM_EVENT : Z := 0x5f.

Definition CMD_SASL_LIST_MECHS : Z := 0x20.
Definition CMD_SASL_AUTH : Z := 0x21.
Definition CMD_SASL_STEP : Z := 0x22.

Definition CMD_CREATE_BUCKET : Z := 0x85.
Definition CMD_DELETE_BUCKET : Z := 0x86.
Definition CMD_LIST_BUCKETS : Z := 0x87.
Definition CMD_EXPAND_BUCKET : Z := 0x88.
Definition CMD_SELECT_BUCKET : Z := 0x89.

Definition CMD_STOP_PERSISTENCE : Z := 0x80.
Definition CMD_START_PERSISTENCE : Z := 0x81.
Definition CMD_SET_FLUSH_PARAM : Z := 0x82.
Definition CMD_SET_PARAM : Z := 0x82.

Definition CMD_SET_TAP_PARAM : Z := 0x92.
Definition CMD_EVICT_KEY : Z := 0x93.

Definition CMD_RESTORE_FILE : Z := 0x98.
Definition CMD_RESTORE_ABORT : Z := 0x99.
Definition CMD_RESTORE_COMPLETE : Z := 0x9a.

Definition CMD_START_ONLINEUPDATE : Z := 0x9b.
Definition CMD_COMPLETE_ONLINEUPDATE : Z := 0x9c.
Definition CMD_REVERT_ONLINEUPDATE : Z := 0x9d.

Definition CMD_DEREGISTER_TAP_CLIENT : Z := 0x9e.

Definition CMD_RESET_REPLICATION_CHAIN : Z := 0x9f.

Definition CMD_GET_META : Z := 0xa0.
Definition CMD_GETQ_META : Z := 0xa1.

Definition CMD_SET_WITH_META : Z := 0xa2.
Definition CMD_SETQ_WITH_META : Z := 0xa3.

Definition CMD_ADD_WITH_META : Z := 0xa4.
Definition CMD_ADDQ_WITH_META : Z := 0xa5.

Definition CMD_DELETE_WITH_META : Z := 0xa8.
Definition CMD_DELETEQ_WITH_META : Z := 0xa9.

Definition CMD_SET_DRIFT_COUNTER_STATE : Z := 0xc1.
Definition CMD_GET_ADJUSTED_TIME : Z := 0xc2.

Definition META_ADJUSTED_TIME : Z := 0x1.
Definition META_CONFLICT_RESOLUTION_MODE : Z := 0x2.

Definition CMD_TAP_CONNECT : Z := 0x40.
Definition CMD_TAP_MUTATION : Z := 0x41.
Definition CMD_TAP_DELETE : Z := 0x42.
Definition CMD_TAP_FLUSH : Z := 0x43.
Definition CMD_TAP_OPAQUE : Z := 0x44.
Definition CMD_TAP_VBUCKET_SET : Z := 0x45.
Definition CMD_TAP_CHECKPOINT_START : Z := 0x46.
Definition CMD_TAP_CHECKPOINT_END : Z := 0x47.

Definition CMD_SET_VBUCKET_STATE : Z := 0x3d.
Definition CMD_GET_VBUCKET_STATE : Z := 0x3e.
Definition CMD_DELETE_VBUCKET : Z := 0x3f.

Definition CMD_GET_LOCKED : Z := 0x94.
Definition CMD_COMPACT_DB : Z := 0xb3.
Definition CMD_GET_RANDOM_KEY : Z := 0xb6.

Definition CMD_COLLECTIONS_SET_MANIFEST : Z := 0xb9.
Definition CMD_COLLECTIONS_GET_MANIFEST : Z := 0xba.
Definition CMD_COLLECTIONS_GET_ID : Z := 0xbb.
Definition CMD_COLLECTIONS_GET_SCOPE_ID : Z := 0xbc.

Definition CMD_GET_ERROR_MAP : Z := 0xfe.

Definition CMD_SYNC : Z := 0x96.

Definition CMD_SYNC_EVENT_PERSISTED : Z := 1.
Definition CMD_SYNC_EVENT_MODIFED : Z := 2.
Definition CMD_SYNC_EVENT_DELETED : Z := 3.
Definition CMD_SYNC_EVENT_REPLICATED : Z := 4.
Definition CMD_SYNC_INVALID_KEY : Z := 5.
Definition CMD_SYNC_INVALID_CAS : Z := 6.

Definition VB_STATE_ACTIVE : Z := 1.
Definition VB_STATE_REPLICA : Z := 2.
Definition VB_STATE_PENDING : Z := 3.
Definition VB_STATE_DEAD : Z := 4.

Definition ENGINE_PARAM_FLUSH : Z := 1.
Definition ENGINE_PARAM_TAP : Z := 2.
Definition ENGINE_PARAM_REPLICATION : Z := 2.
Definition ENGINE_PARAM_CHECKPOINT : Z := 3.
Definition ENGINE_PARAM_DCP : Z := 4.
Definition ENGINE_PARAM_VBUCKET : Z := 5.

Definition TAP_OPAQUE_ENABLE_AUTO_NACK : Z := 0.
Definition TAP_OPAQUE_INITIAL_VBUCKET_STREAM : Z := 1.
Definition TAP_OPAQUE_ENABLE_CHECKPOINT_SYNC : Z := 2.
Definition TAP_OPAQUE_OPEN_CHECKPOINT : Z := 3.

Definition TAP_FLAG_BACKFILL : Z := 0x01.
Definition TAP_FLAG_DUMP : Z := 0x02.
Definition TAP_FLAG_LIST_VBUCKETS : Z := 0x04.
Definition TAP_FLAG_TAKEOVER_VBUCKETS : Z := 0x08.
Definition TAP_FLAG_SUPPORT_ACK : Z := 0x10.
Definition TAP_FLAG_REQUEST_KEYS_ONLY : Z := 0x20.
Definition TAP_FLAG_CHECKPOINT : Z := 0x40.
Definition TAP_FLAG_REGISTERED_CLIENT : Z := 0x80.

Definition TAP_FLAG_ACK : Z := 0x01.
Definition TAP_FLAG_NO_VALUE : Z := 0x02.

Definition FLAG_OPEN_CONSUMER : Z := 0x00.
Definition FLAG_OPEN_PRODUCER : Z := 0x01.
Definition FLAG_OPEN_NOTIFIER : Z := 0x02.
Definition FLAG_OPEN_INCLUDE_XATTRS : Z := 0x4.
Definition FLAG_OPEN_INCLUDE_DELETE_TIMES : Z := 0x20.

Definition CMD_SET_CLUSTER_CONFIG : Z := 0xb4.
Definition CMD_GET_CLUSTER_CONFIG : Z := 0xb5.

Definition CMD_SUBDOC_GET : Z := 0xc5.
Definition CMD_SUBDOC_EXISTS : Z := 0xc6.

Definition CMD_SUBDOC_DICT_ADD : Z := 0xc7.
Definition CMD_SUBDOC_DICT_UPSERT : Z := 0xc8.

Definition CMD_SUBDOC_DELETE : Z := 0xc9.
Definition CMD_SUBDOC_REPLACE : Z := 0xca.

Definition CMD_SUBDOC_ARRAY_PUSH_LAST : Z := 0xcb.
Definition CMD_SUBDOC_ARRAY_PUSH_FIRST : Z := 0xcc.
Definition CMD_SUBDOC_ARRAY_INSERT : Z := 0xcd.
Definition CMD_SUBDOC_ARRAY_ADD_UNIQUE : Z := 0xce.

Definition CMD_SUBDOC_COUNTER : Z := 0xcf.

Definition CMD_SUBDOC_MULTI_LOOKUP : Z := 0xd0.
Definition CMD_SUBDOC_MULTI_MUTATION : Z := 0xd1.

Definition SUBDOC_FLAGS_MKDIR_P : Z := 0x01.

Definition SET_PKT_FMT : string := ">II".

Definition META_CMD_FMT : string := ">IIQQ".
Definition EXTENDED_META_CMD_FMT : string := ">IIQQIH".
Definition SKIP_META_CMD_FMT : string := ">IIQQI".

Definition CR : Z := 0x01.

Definition SET_DRIFT_COUNTER_STATE_REQ_FMT : string := ">qB".
Definition GET_ADJUSTED_TIME_RES_FMT : string := ">Q".

Definition EXTENDED_META_DATA_FMT : string := ">BBHQBHB".
Definition EXTENDED_META_DATA_VERSION : Z := 0x1.
Definition META_DATA_ID_ADJUSTED_TIME : Z := 0x1.
Definition META_DATA_ID_ADJUSTED_TIME_SIZE : Z := 8.
Definition META_DATA_ID_CONFLICT_RESOLUTION_MODE : Z := 0x2.
Definition META_DATA_ID_CONFLICT_RESOLUTION_MODE_SIZE : Z := 1.

Definition GET_RES_FMT : string := ">I".

Definition DEL_PKT_FMT : string := "".

Definition TAP_MUTATION_PKT_FMT : string := ">HHbxxxII".
Definition TAP_GENERAL_PKT_FMT : string := ">HHbxxx".

Definition INCRDECR_PKT_FMT : string := ">QQI".

Definition INCRDECR_SPECIAL : Z := 0xffffffff.
Definition INCRDECR_RES_FMT : string := ">Q".
Definition INCRDECR_RES_WITH_UUID_AND_SEQNO_FMT : string := ">QQQ".

Definition FLUSH_PKT_FMT : string := ">I".

Definition META_EXTRA_FMT : string := ">IIQQH".

Definition TOUCH_PKT_FMT : string := ">I".
Definition GAT_PKT_FMT : string := ">I".
Definition GETL_PKT_FMT : string := ">I".

Definition SET_PARAM_FMT : string := ">I".

Definition VB_SET_PKT_FMT : string := ">I".

Definition MAGIC_BYTE : Z := 0x80.
Definition REQ_MAGIC_BYTE : Z := 0x80.

Definition RES_MAGIC_BYTE : Z := 0x81.

Definition ALT_REQ_MAGIC_BYTE : Z := 0x08.
Definition ALT_RES_MAGIC_BYTE : Z := 0x18.

Definition COMPACT_DB_PKT_FMT : string := ">QQBxxxxxxx".

Definition REQ_PKT_FMT : string := ">BBHBBHIIQ".

Definition REQ_PKT_SD_EXTRAS : string := ">HB".

Definition REQ_PKT_SD_EXTRAS_EXPIRY : string := ">HBI".

Definition RES_PKT_FMT : string := ">BBHBBHIIQ".

Definition ALT_RES_PKT_FMT : string := ">BBBBBBHIIQ".

Definition ALT_REQ_PKT_FMT : string := ">BBBBBBHIIQ".

Definition REQ_PKT_SD_MULTI_MUTATE : string := ">BBHI".

Definition ERR_UNKNOWN_CMD : Z := 0x81.
Definition ERR_NOT_FOUND : Z := 0x1.
Definition ERR_EXISTS : Z := 0x2.
Definition ERR_AUTH : Z := 0x20.
Definition NotFoundError : Z := 0xD.
Definition ERR_SUCCESS : Z := 0x00.
Definition ERR_KEY_ENOENT : Z := 0x01.
Definition ERR_2BIG : Z := 0x03.
Definition ERR_EINVAL : Z := 0x04.
Definition ERR_NOT_STORED : Z := 0x05.
Definition ERR_BAD_DELTA : Z := 0x06.
Definition ERR_NOT_MY_VBUCKET : Z := 0x07.
Definition ERR_AUTH_CONTINUE : Z := 0x21.
Definition ERR_ERANGE : Z := 0x22.
Definition ERR_ENOMEM : Z := 0x82.
Definition ERR_NOT_SUPPORTED : Z := 0x83.
Definition ERR_EINTERNAL : Z := 0x84.
Definition ERR_EBUSY : Z := 0x85.
Definition ERR_ETMPFAIL : Z := 0x86.

Definition META_REVID : Z := 0x01.

Definition ERR_SUBDOC_PATH_ENOENT : Z := 0xc0.
Definition ERR_SUBDOC_PATH_MISMATCH : Z := 0xc1.
Definition ERR_SUBDOC_PATH_EINVAL : Z := 0xc2.
Definition ERR_SUBDOC_PATH_E2BIG : Z := 0xc3.
Definition ERR_SUBDOC_DOC_ETOODEEP : Z := 0xc4.
Definition ERR_SUBDOC_VALUE_CANTINSERT : Z := 0xc5.
Definition ERR_SUBDOC_DOC_NOTJSON : Z := 0xc6.
Definition ERR_SUBDOC_NUM_ERANGE : Z := 0xc7.
Definition ERR_SUBDOC_DELTA_ERANGE : Z := 0xc8.
Definition ERR_SUBDOC_PATH_EEXISTS : Z := 0xc9.
Definition ERR_SUBDOC_VALUE_TOODEEP : Z := 0xca.
Definition ERR_SUBDOC_INVALID_CMD_COMBO : Z := 0xcb.
Definition ERR_SUBDOC_MULTI_PATH_FAILURE : Z := 0xcc.

Definition PROTOCOL_BINARY_FEATURE_MUTATION_SEQNO : Z := 0x04.
Definition FEATURE_TCPDELAY : Z := 0x05.
Definition FEATURE_XATTR : Z := 0x06.
Definition FEATURE_XERROR : Z := 0x07.
Definition FEATURE_SELECT_BUCKET : Z := 0x08.
Definition FEATURE_COLLECTIONS : Z := 0x12.

Definition FEATURE_DATATYPE : Z := 0x01.
Definition FEATURE_TLS : Z := 0x2.
Definition FEATURE_TCPNODELAY : Z := 0x03.
Definition FEATURE_MUTATION_SEQNO : Z := 0x04.
Definition FEATURE_SNAPPY : Z := 0x000a.

Definition SKIP_CONFLICT_RESOLUTION_FLAG : Z := 0x1.
Definition FORCE_ACCEPT_WITH_META_OPS : Z := 0x2.
Definition REGENERATE_CAS : Z := 0x4.

Definition DATATYPE_XATTR : Z := 0x4.
Definition DURABILITY_LEVEL_MAJORITY : Z := 0x1.

Definition EVENT_CREATE_COLLECTION : Z := 0x0.
Definition EVENT_DELETE_COLLECTION : Z := 0x1.
Definition EVENT_FLUSH_COLLECTION : Z := 0x2.
Definition EVENT_CREATE_SCOPE : Z := 0x3.
Definition EVENT_DELETE_SCOPE : Z := 0x4.

Definition ERR_ROLLBACK : Z := 0x23.

(** ** Tables *)

Definition DCP_Opcode_Dictionary : gmap Z string :=
  list_to_map
    [(CMD_OPEN, "CMD_OPEN"); (CMD_ADD_STREAM, "CMD_ADD_STREAM");
     (CMD_CLOSE_STREAM, "CMD_CLOSE_STREAM"); (CMD_STREAM_REQ, "CMD_STREAM_REQ");
     (CMD_GET_FAILOVER_LOG, "CMD_GET_FAILOVER_LOG");
     (CMD_STREAM_END, "CMD_STREAM_END");
     (CMD_SNAPSHOT_MARKER, "CMD_SNAPSHOT_MARKER"); (CMD_MUTATION, "CMD_MUTATION");
     (CMD_DELETION, "CMD_DELETION"); (CMD_EXPIRATION, "CMD_EXPIRATION");
     (CMD_FLUSH, "CMD_FLUSH"); (CMD_SET_VB_STATE, "CMD_SET_VB_STATE");
     (CMD_UPR_ACK, "CMD_ACK"); (CMD_FLOW_CONTROL, "CMD_FLOW_CONTROL");
     (CMD_UPR_NOOP, "CMD_DCP_NOOP"); (CMD_SYSTEM_EVENT, "CMD_SYSTEM_EVENT")].

Definition VB_STATE_NAMES : gmap pystr Z :=
  list_to_map
    [(py "active", VB_STATE_ACTIVE); (py "replica", VB_STATE_REPLICA);
     (py "pending", VB_STATE_PENDING); (py "dead", VB_STATE_DEAD)].

Definition TAP_FLAG_TYPES : gmap Z string :=
  list_to_map [(TAP_FLAG_BACKFILL, ">Q"); (TAP_FLAG_REGISTERED_CLIENT, ">B")].

Definition EXTRA_HDR_FMTS : gmap Z string :=
  list_to_map
    [(CMD_SET, SET_PKT_FMT); (CMD_ADD, SET_PKT_FMT); (CMD_REPLACE, SET_PKT_FMT);
     (CMD_INCR, INCRDECR_PKT_FMT); (CMD_DECR, INCRDECR_PKT_FMT);
     (CMD_DELETE, DEL_PKT_FMT); (CMD_FLUSH, FLUSH_PKT_FMT);
     (CMD_TAP_MUTATION, TAP_MUTATION_PKT_FMT); (CMD_TAP_DELETE, TAP_GENERAL_PKT_FMT);
     (CMD_TAP_FLUSH, TAP_GENERAL_PKT_FMT); (CMD_TAP_OPAQUE, TAP_GENERAL_PKT_FMT);
     (CMD_TAP_VBUCKET_SET, TAP_GENERAL_PKT_FMT);
     (CMD_SET_VBUCKET_STATE, VB_SET_PKT_FMT); (CMD_COMPACT_DB, COMPACT_DB_PKT_FMT)].

(** [struct.calcsize(REQ_PKT_FMT)] *)
Definition MIN_RECV_PACKET : nat :=
  match calcsize REQ_PKT_FMT with Ok n => n | Err _ => 0%nat end.

(** The assertion of line 346: both header formats have one size; so has the
    alternative encoding. *)
Lemma header_sizes :
  calcsize REQ_PKT_FMT = Ok 24%nat ∧ calcsize RES_PKT_FMT = Ok 24%nat ∧
  calcsize ALT_RES_PKT_FMT = Ok 24%nat ∧ MIN_RECV_PACKET = 24%nat.
Proof. repeat split; reflexivity. Qed.
