(* ===== verification/Json.v ===== *)
(** * [json.loads]

    A parser for the JSON texts that the clients receive: error maps and
    collection manifests.  Text is a byte string; a [\u] escape above the ASCII
    range becomes its UTF-8 bytes.  Numbers are integers (a fraction or an
    exponent is a parse error here: the modelled payloads have none).  A
    malformed text raises [ValueError]. *)

From S2P Require Import Prelude Py.
Local Open Scope Z_scope.

Inductive json :=
  | JNull
  | JBool (b : bool)
  | JInt (n : Z)
  | JStr (s : pystr)
  | JList (l : list json)
  | JObj (l : list (pystr * json)).

(** ** Lexing helpers *)

Definition digit_value (c : ascii) : option Z :=
  let n := ord c in if (48 <=? n) && (n <=? 57) then Some (n - 48) else None.

Definition hex_value (c : ascii) : option Z :=
  let n := ord c in
  if (48 <=? n) && (n <=? 57) then Some (n - 48)
  else if (97 <=? n) && (n <=? 102) then Some (n - 87)
  else if (65 <=? n) && (n <=? 70) then Some (n - 55)
  else None.

Fixpoint skip_ws (s : pystr) : pystr :=
  match s with
  | c :: s' => let n := ord c in
      if (n =? 32) || (n =? 9) || (n =? 10) || (n =? 13) then skip_ws s' else s
  | [] => []
  end.

Fixpoint parse_digits (acc : Z) (s : pystr) : Z * pystr :=
  match s with
  | c :: s' => match digit_value c with
               | Some d => parse_digits (acc * 10 + d) s'
               | None => (acc, s)
               end
  | [] => (acc, [])
  end.

(** [int(s, 16)] on a string of hexadecimal digits with an optional [0x]. *)
Fixpoint hex_digits (acc : Z) (s : pystr) : option Z :=
  match s with
  | [] => Some acc
  | c :: s => d ← hex_value c; hex_digits (acc * 16 + d) s
  end.
Definition int_of_hex (s : pystr) : res Z :=
  let t := strip s in
  let t := match t with
           | "0"%char :: "x"%char :: u | "0"%char :: "X"%char :: u => u
           | _ => t
           end in
  match t with
  | [] => raise ValueError
  | _ => of_option ValueError (hex_digits 0 t)
  end.

Definition utf8 (n : Z) : pystr :=
  if n <? 128 then [chr n]
  else if n <? 2048 then [chr (192 + n / 64); chr (128 + n mod 64)]
  else [chr (224 + n / 4096); chr (128 + n / 64 mod 64); chr (128 + n mod 64)].

(** The characters of a string literal after its opening quote. *)
Fixpoint parse_chars (s : pystr) : res (pystr * pystr) :=
  match s with
  | [] => raise ValueError
  | c :: s =>
      let n := ord c in
      if n =? 34 then Ok ([], s)
      else if n =? 92 then
        match s with
        | "u"%char :: a :: b :: c' :: d :: s =>
            v ← of_option ValueError (hex_digits 0 [a; b; c'; d]);
            '(t, s) ← parse_chars s; Ok (utf8 v ++ t, s)
        | e :: s =>
            x ← of_option ValueError
              (match e with
               | "n"%char => Some 10 | "t"%char => Some 9 | "r"%char => Some 13
               | "b"%char => Some 8 | "f"%char => Some 12 | "/"%char => Some 47
               | _ => if (ord e =? 34) || (ord e =? 92) then Some (ord e) else None
               end);
            '(t, s) ← parse_chars s; Ok (chr x :: t, s)
        | [] => raise ValueError
        end
      else '(t, s) ← parse_chars s; Ok (c :: t, s)
  end.

Definition eat (c : ascii) (s : pystr) : res pystr :=
  match skip_ws s with
  | d :: s => if bool_decide (c = d) then Ok s else raise ValueError
  | [] => raise ValueError
  end.

Definition keyword (w : string) (v : json) (s : pystr) : res (json * pystr) :=
  if startswith (py w) s then Ok (v, drop (length (py w)) s) else raise ValueError.

(** ** The parser *)

(** [fuel] bounds the number of nested calls; the length of the text is
    enough, since every call consumes at least one character. *)
Fixpoint parse_value (fuel : nat) (s : pystr) : res (json * pystr) :=
  match fuel with
  | O => raise ValueError
  | S fuel =>
    let fix items (f : nat) (s : pystr) : res (list json * pystr) :=
      match f with
      | O => raise ValueError
      | S f =>
        '(v, s) ← parse_value fuel s;
        match skip_ws s with
        | ","%char :: s => '(vs, s) ← items f s; Ok (v :: vs, s)
        | "]"%char :: s => Ok ([v], s)
        | _ => raise ValueError
        end
      end in
    let fix members (f : nat) (s : pystr) : res (list (pystr * json) * pystr) :=
      match f with
      | O => raise ValueError
      | S f =>
        s ← eat (chr 34) s;
        '(k, s) ← parse_chars s;
        s ← eat ":"%char s;
        '(v, s) ← parse_value fuel s;
        match skip_ws s with
        | ","%char :: s => '(vs, s) ← members f s; Ok ((k, v) :: vs, s)
        | "}"%char :: s => Ok ([(k, v)], s)
        | _ => raise ValueError
        end
      end in
    match skip_ws s with
    | [] => raise ValueError
    | c :: s' =>
        if ord c =? 34 then '(t, s) ← parse_chars s'; Ok (JStr t, s)
        else match c with
        | "["%char =>
            match skip_ws s' with
            | "]"%char :: s => Ok (JList [], s)
            | _ => '(vs, s) ← items fuel s'; Ok (JList vs, s)
            end
        | "{"%char =>
            match skip_ws s' with
            | "}"%char :: s => Ok (JObj [], s)
            | _ => '(vs, s) ← members fuel s'; Ok (JObj vs, s)
            end
        | "t"%char => keyword "true" (JBool true) (c :: s')
        | "f"%char => keyword "false" (JBool false) (c :: s')
        | "n"%char => keyword "null" JNull (c :: s')
        | "-"%char =>
            match s' with
            | d :: _ => _ ← of_option ValueError (digit_value d);
                        let '(n, s) := parse_digits 0 s' in Ok (JInt (- n), s)
            | [] => raise ValueError
            end
        | _ => _ ← of_option ValueError (digit_value c);
               let '(n, s) := parse_digits 0 (c :: s') in Ok (JInt n, s)
        end
    end
  end.

Definition json_loads (s : pystr) : res json :=
  '(v, rest) ← parse_value (S (length s)) s;
  match skip_ws rest with
  | [] => Ok v
  | _ => raise ValueError
  end.

(** ** Accessors *)

(** [v[k]] on a decoded object; the last binding of a repeated key wins. *)
Fixpoint assoc (k : pystr) (l : list (pystr * json)) : option json :=
  match l with
  | [] => None
  | (k', v) :: l => match assoc k l with
                    | Some w => Some w
                    | None => if bool_decide (k = k') then Some v else None
                    end
  end.

Definition json_get (v : json) (k : string) : res json :=
  match v with
  | JObj l => of_option KeyError (assoc (py k) l)
  | _ => raise TypeError
  end.

Definition json_str (v : json) : res pystr :=
  match v with JStr s => Ok s | _ => raise TypeError end.
Definition json_list (v : json) : res (list json) :=
  match v with JList l => Ok l | _ => raise TypeError end.
Definition json_obj (v : json) : res (list (pystr * json)) :=
  match v with JObj l => Ok l | _ => raise TypeError end.

(** Equality of parsed values: truth values are the numbers 0 and 1, objects are
    compared by key (texts have no key twice). *)
Fixpoint json_eqb (a b : json) : bool :=
  let num := λ j, match j with JInt n => Some n | JBool b => Some (if b then 1 else 0) | _ => None end in
  match a, b with
  | JNull, JNull => true
  | JStr s, JStr t => bool_decide (s = t)
  | JList l, JList k =>
      (fix all2 l k := match l, k with
                       | [], [] => true
                       | x :: l, y :: k => json_eqb x y && all2 l k
                       | _, _ => false
                       end) l k
  | JObj l, JObj k =>
      (len l =? len k) &&
      (fix all l := match l with
                    | [] => true
                    | (key, x) :: l =>
                        match assoc key k with Some y => json_eqb x y | None => false end && all l
                    end) l
  | _, _ => match num a, num b with Some n, Some m => n =? m | _, _ => false end
  end.

(** Induction over values with the elements of lists and objects. *)
Lemma json_nested_ind (Q : json → Prop) :
  Q JNull → (∀ b, Q (JBool b)) → (∀ n, Q (JInt n)) → (∀ s, Q (JStr s)) →
  (∀ l, Forall Q l → Q (JList l)) → (∀ l, Forall (λ kv, Q kv.2) l → Q (JObj l)) → ∀ v, Q v.
Proof.
  intros H1 H2 H3 H4 H5 H6. fix IH 1. intros [|b|n|s|l|l].
  - exact H1.
  - apply H2.
  - apply H3.
  - apply H4.
  - apply H5. induction l as [|v l IHl]; constructor; [apply IH|exact IHl].
  - apply H6. induction l as [|[k v] l IHl]; constructor; [apply IH|exact IHl].
Qed.

(** [dq "{'k': 1}"] is the text with double quotes for single ones, to write
    JSON literals. *)
Definition dq (s : string) : pystr :=
  (λ c, if bool_decide (c = "'"%char) then chr 34 else c) <$> py s.

Example json_loads_ex :
  json_loads (dq "{'uid': '1a', 'scopes': [{'n': -12, 'x': [true, null]}, {}]} ")
  = Ok (JObj [(py "uid", JStr (py "1a"));
              (py "scopes", JList [JObj [(py "n", JInt (-12));
                                         (py "x", JList [JBool true; JNull])];
                                   JObj []])]).
Proof. reflexivity. Qed.
