(* ===== verification/McWire.v ===== *)
(** * MemcachedClient: framing and request/response matching

    The state of a [MemcachedClient] (lib/mc_bin_client.py), its socket, and the
    methods every command is built from: [_sendMsg], [_recvMsg],
    [_handleKeyedResponse], [_doCmd], the subdocument variants, the collection
    id encoding and the vbucket selection.  Keys, values and extras are Python 2
    [str] values. *)

From S2P Require Import Prelude Py PyStruct Crc32 MemcacheConstants Json.
Local Open Scope Z_scope.

(** ** State *)

(** A collection argument: its name, or its numeric id. *)
Inductive collection_arg :=
  | CName (name : pystr)
  | CId (id : Z).

(** The attributes of the client, with its socket: what was written so far and
    the chunks that successive [recv] calls find (an exhausted list is a closed
    peer), and its random source [self.r] as the sequence of the values that
    [randint(0, 2 ** 32)] returns. *)
Record client := Client {
  vbucketId : Z;
  vbucket_count : Z;
  feature_flag : gset Z;
  features : gset Z;
  error_map : option (gmap Z json);
  error_map_version : Z;
  collection_map : gmap pystr (gmap pystr Z);
  collections_supported : bool;
  sent : pystr;
  inbox : list pystr;
  rnd : nat → Z;
  nrnd : nat
}.

(** [MemcachedClient.__init__] on a connected socket. *)
Definition new_client (chunks : list pystr) (r : nat → Z) : client := {|
  vbucketId := 0;
  vbucket_count := 1024;
  feature_flag := ∅;
  features := ∅;
  error_map := None;
  error_map_version := 1;
  collection_map := ∅;
  collections_supported := false;
  sent := [];
  inbox := chunks;
  rnd := r;
  nrnd := 0
|}.

Definition set_vbucketId (v : Z) (c : client) : client := {|
  vbucketId := v; vbucket_count := vbucket_count c; feature_flag := feature_flag c;
  features := features c; error_map := error_map c;
  error_map_version := error_map_version c; collection_map := collection_map c;
  collections_supported := collections_supported c; sent := sent c; inbox := inbox c;
  rnd := rnd c; nrnd := nrnd c |}.

Definition set_io (out : pystr) (inp : list pystr) (c : client) : client := {|
  vbucketId := vbucketId c; vbucket_count := vbucket_count c; feature_flag := feature_flag c;
  features := features c; error_map := error_map c;
  error_map_version := error_map_version c; collection_map := collection_map c;
  collections_supported := collections_supported c; sent := out; inbox := inp;
  rnd := rnd c; nrnd := nrnd c |}.

Definition set_nrnd (n : nat) (c : client) : client := {|
  vbucketId := vbucketId c; vbucket_count := vbucket_count c; feature_flag := feature_flag c;
  features := features c; error_map := error_map c;
  error_map_version := error_map_version c; collection_map := collection_map c;
  collections_supported := collections_supported c; sent := sent c; inbox := inbox c;
  rnd := rnd c; nrnd := n |}.

Definition set_features (ff f : gset Z) (sup : bool) (em : option (gmap Z json))
    (c : client) : client := {|
  vbucketId := vbucketId c; vbucket_count := vbucket_count c; feature_flag := ff;
  features := f; error_map := em;
  error_map_version := error_map_version c; collection_map := collection_map c;
  collections_supported := sup; sent := sent c; inbox := inbox c;
  rnd := rnd c; nrnd := nrnd c |}.

Definition set_collection_map (m : gmap pystr (gmap pystr Z)) (c : client) : client := {|
  vbucketId := vbucketId c; vbucket_count := vbucket_count c; feature_flag := feature_flag c;
  features := features c; error_map := error_map c;
  error_map_version := error_map_version c; collection_map := m;
  collections_supported := collections_supported c; sent := sent c; inbox := inbox c;
  rnd := rnd c; nrnd := nrnd c |}.

Abbreviation MC := (M client).

(** [self.r.randint(0, 2 ** 32)]: both bounds are included. *)
Definition randint32 : MC Z := λ c, (Ok (rnd c (nrnd c)), set_nrnd (S (nrnd c)) c).

(** The values of a source that respects [randint(0, 2 ** 32)]. *)
Definition rnd_ok (r : nat → Z) : Prop := ∀ i, 0 ≤ r i ≤ 2 ^ 32.

(** ** Collection ids on the wire *)

(** The loop of [_encodeCollectionId]: [output] without its last byte is the
    accumulator; a last byte of 0 is what [array.array('B', [0])] starts with.
    A 32-bit id needs five iterations; [fuel] is the bit length. *)
Fixpoint leb128_loop (fuel : nat) (collection : Z) : pystr :=
  match fuel with
  | O => [chr 0]
  | S fuel =>
      if 0 <? collection then
        let byte := Z.land collection 0xff in
        let collection := Z.shiftr collection 7 in
        if 0 <? collection
        then chr (Z.lor byte 0x80) :: leb128_loop fuel collection
        else [chr byte]
      else [chr 0]
  end.

Definition leb128 (collection : Z) : pystr :=
  leb128_loop (Z.to_nat (Z.log2 collection + 1)) collection.

(** [decodeCollectionID(key)]: the id and the rest of the key.  [decode_rest]
    is the [for] loop over [data[1:]], started with [end = 1]; it returns [cid]
    and the value of [end] when the loop is left, by [break] or by exhaustion. *)
Fixpoint decode_rest (cid shift : Z) (endp : nat) (data : pystr) : Z * nat :=
  match data with
  | [] => (cid, (endp - 1)%nat)
  | d :: data =>
      let cid := Z.lor cid (Z.shiftl (Z.land (ord d) 0x7f) shift) in
      if Z.land (ord d) 0x80 =? 0 then (cid, endp)
      else decode_rest cid (shift + 7) (S endp) data
  end.

Definition decodeCollectionID (key : pystr) : res (Z * pystr) :=
  match key with
  | [] => raise IndexError
  | d0 :: data =>
      let cid := Z.land (ord d0) 0x7f in
      if Z.land (ord d0) 0x80 =? 0x80 then
        let '(cid, endp) :=
          match data with [] => (cid, 1%nat) | _ => decode_rest cid 7 1 data end in
        let endp := S endp in
        if bool_decide (endp = length key)
        then raise_msg ValueError (py "encoded key did not contain a stop byte")
        else Ok (cid, drop endp key)
      else Ok (cid, drop 1 key)
  end.

Definition is_collections_supported (c : client) : bool :=
  bool_decide (FEATURE_COLLECTIONS ∈ features c).
Definition is_xerror_supported (c : client) : bool :=
  bool_decide (FEATURE_XERROR ∈ features c).

(** [output.tobytes()] on an [array.array]: the method is new in Python 3.2, the
    arrays of Python 2.7 do not have it (theirs is called [tostring]). *)
Definition array_tobytes (output : pystr) : res pystr := raise AttributeError.

(** [_encodeCollectionId(key, scope, collection)]: the id as a varint before
    the key.  [.decode()] turns the varint into text with the ASCII codec, and
    adding a [str] to text decodes it the same way. *)
Definition encodeCollectionId (key : pystr) (scope : option pystr)
    (collection : collection_arg) : MC pystr :=
  c ← get;
  if negb (is_collections_supported c) then mraise RuntimeError else
  cid ← match collection with
        | CName name =>
            match scope with
            | None => mraise KeyError
            | Some sc => scm ← lift (dict_get (collection_map c) sc);
                         lift (dict_get scm name)
            end
        | CId id => mret id
        end;
  output ← lift (array_tobytes (leb128 cid));
  prefix ← lift (encode_ascii output);
  key ← lift (encode_ascii key);
  mret (prefix ++ key).

(** Python truth of a collection argument. *)
Definition collection_true (collection : option collection_arg) : bool :=
  match collection with
  | None => false
  | Some (CName n) => negb (bool_decide (n = []))
  | Some (CId i) => negb (i =? 0)
  end.

(** ** Sending *)

(** [self.s.sendall(data)] *)
Definition sendall (data : pystr) : MC unit :=
  modify (λ c, set_io (sent c ++ data) (inbox c) c).

(** [_sendMsg].  The four [x.encode()] calls are the identity on ASCII strings
    and raise on any other: only [AttributeError] is caught around them. *)
Definition sendMsg (cmd : Z) (key val : pystr) (opaque : Z) (extraHeader : pystr)
    (cas dtype vbucket : Z) (fmt : string) (magic : Z)
    (scope : option pystr) (collection : option collection_arg)
    (extended_meta_data : pystr) (extraHeaderLength : option Z) : MC unit :=
  key ← match collection with
        | Some col => if collection_true collection
                      then encodeCollectionId key scope col else mret key
        | None => mret key
        end;
  let ehl := default (len extraHeader) extraHeaderLength in
  msg ← lift (pack fmt [magic; cmd; len key; ehl; dtype; vbucket;
                        len key + len extraHeader + len val + len extended_meta_data;
                        opaque; cas]);
  key ← lift (encode_ascii key);
  extraHeader ← lift (encode_ascii extraHeader);
  val ← lift (encode_ascii val);
  extended_meta_data ← lift (encode_ascii extended_meta_data);
  sendall (msg ++ extraHeader ++ key ++ val ++ extended_meta_data).

(** [_sendCmd] *)
Definition sendCmd (cmd : Z) (key val : pystr) (opaque : Z) (extraHeader : pystr)
    (cas : Z) (scope : option pystr) (collection : option collection_arg)
    (extended_meta_data : pystr) (extraHeaderLength : option Z) : MC unit :=
  vb ← gets vbucketId;
  sendMsg cmd key val opaque extraHeader cas 0 vb REQ_PKT_FMT REQ_MAGIC_BYTE
          scope collection extended_meta_data extraHeaderLength.

(** ** Receiving *)

(** [self.s.recv(n)]: at most [n] bytes of the next chunk; no bytes when the
    peer has closed the connection. *)
Definition recv (n : nat) : MC pystr := λ c,
  match inbox c with
  | [] => (Ok [], c)
  | ch :: chs =>
      if bool_decide (length ch ≤ n)%nat
      then (Ok ch, set_io (sent c) chs c)
      else (Ok (take n ch), set_io (sent c) (drop n ch :: chs) c)
  end.

(** Both receive loops of [_recvMsg]: read until [n] bytes have arrived.  Each
    round gets at least one byte or raises, so [n] rounds are enough. *)
Fixpoint recv_loop (fuel n : nat) (acc : pystr) : MC pystr :=
  match n with
  | O => mret acc
  | _ =>
    match fuel with
    | O => mraise RuntimeError
    | S fuel =>
        data ← recv n;
        if bool_decide (data = [])
        then mraise_msg EOFError (py "Got empty data (remote died?).")
        else recv_loop fuel (n - length data) (acc ++ data)
    end
  end.
Definition recv_exactly (n : nat) : MC pystr := recv_loop n n [].

(** What [_recvMsg] returns: cmd, errcode, opaque, cas, keylen, extralen, dtype
    and the body. *)
Record reply := Reply {
  r_cmd : Z; r_errcode : Z; r_opaque : Z; r_cas : Z;
  r_keylen : Z; r_extralen : Z; r_dtype : Z; r_body : pystr
}.

(** [_recvMsg].  The tuple assignment from [struct.unpack] needs exactly nine
    values. *)
Definition recvMsg : MC reply :=
  response ← recv_exactly MIN_RECV_PACKET;
  ms ← lift (unpack ">B" (slice 0 1 response));
  let magic := default 0 (head ms) in
  _ ← massert (bool_decide (magic ∈ [RES_MAGIC_BYTE; REQ_MAGIC_BYTE;
                                      ALT_RES_MAGIC_BYTE; ALT_REQ_MAGIC_BYTE]));
  let fmt := if (magic =? ALT_RES_MAGIC_BYTE) || (magic =? ALT_REQ_MAGIC_BYTE)
             then ALT_RES_PKT_FMT else RES_PKT_FMT in
  vs ← lift (unpack fmt response);
  match vs with
  | [_; cmd; keylen; extralen; dtype; errcode; remaining; opaque; cas] =>
      rv ← recv_exactly (Z.to_nat remaining);
      mret (Reply cmd errcode opaque cas keylen extralen dtype rv)
  | _ => mraise ValueError
  end.

(** The text of [MemcachedError.msg] when an error map is loaded:
    ["{name} : {desc} : {rv}".format(rv=rv, **err)]; a field called [rv] would
    clash with the keyword argument. *)
Definition xerror_msg (rv : pystr) (err : json) : res pystr :=
  l ← json_obj err;
  _ ← match assoc (py "rv") l with Some _ => raise TypeError | None => Ok tt end;
  nm ← of_option KeyError (assoc (py "name") l);
  desc ← of_option KeyError (assoc (py "desc") l);
  match nm, desc with
  | JStr n, JStr d => Ok (n ++ py " : " ++ d ++ py " : " ++ rv)
  | _, _ => Ok []      (* the text of a value that is not a string *)
  end.

(** [_handleKeyedResponse(myopaque)].  With an error map loaded, an unknown
    code leaves [err = rv], a string, and [**err] raises [TypeError]. *)
Definition handleKeyedResponse (myopaque : option Z) : MC reply :=
  r ← recvMsg;
  _ ← massert (match myopaque with None => true | Some o => r_opaque r =? o end);
  if negb (r_errcode r =? 0) then
    em ← gets error_map;
    msg ← match em with
          | None => mret (r_body r)
          | Some errors =>
              lift (xerror_msg (r_body r) (default (JStr (r_body r)) (errors !! r_errcode r)))
          end;
    mraise_msg (MemcachedError (r_errcode r)) msg
  else mret r.

(** [_handleSingleResponse]: opaque, cas and data. *)
Definition handleSingleResponse (myopaque : option Z) : MC (Z * Z * pystr) :=
  r ← handleKeyedResponse myopaque;
  mret (r_opaque r, r_cas r, r_body r).

(** ** Commands *)

(** [_doCmd] *)
Definition doCmd (cmd : Z) (key val extraHeader : pystr) (cas : Z)
    (scope : option pystr) (collection : option collection_arg)
    (extended_meta_data : pystr) (extraHeaderLength : option Z) : MC (Z * Z * pystr) :=
  opaque ← randint32;
  _ ← sendCmd cmd key val opaque extraHeader cas scope collection
              extended_meta_data extraHeaderLength;
  handleSingleResponse (Some opaque).

(** A subdocument value, written to the wire with [str(val)]. *)
Inductive sd_value := SVStr (s : pystr) | SVInt (n : Z).
Definition sd_str (v : sd_value) : pystr :=
  match v with SVStr s => s | SVInt n => str_of_Z n end.

(** [_doSdCmd] *)
Definition doSdCmd (cmd : Z) (key path : pystr) (val : option sd_value)
    (expiry opaque cas : Z) (create : bool)
    (scope : option pystr) (collection : option collection_arg) : MC (Z * Z * pystr) :=
  opaque ← (if opaque =? 0 then randint32 else mret opaque);
  let createFlag := if create then SUBDOC_FLAGS_MKDIR_P else 0 in
  extraHeader ← lift (if expiry =? 0 then pack REQ_PKT_SD_EXTRAS [len path; createFlag]
                      else pack REQ_PKT_SD_EXTRAS_EXPIRY [len path; createFlag; expiry]);
  let body := path ++ match val with Some v => sd_str v | None => [] end in
  _ ← sendCmd cmd key body opaque extraHeader cas scope collection [] None;
  handleSingleResponse (Some opaque).

(** One entry of the [cmdDict] argument of [_doMultiSdCmd]. *)
Inductive sd_spec_value := SpecStr (s : pystr) | SpecInt (n : Z) | SpecOther.
Record sd_spec := SdSpec {
  create_parents : bool; spec_path : pystr; spec_value : sd_spec_value
}.

Definition sd_opcode (k : pystr) : option Z :=
  if str_eqb k (py "store") then Some CMD_SUBDOC_DICT_ADD
  else if str_eqb k (py "counter") then Some CMD_SUBDOC_COUNTER
  else if str_eqb k (py "add_unique") then Some CMD_SUBDOC_ARRAY_ADD_UNIQUE
  else if str_eqb k (py "push_first") then Some CMD_SUBDOC_ARRAY_PUSH_FIRST
  else if str_eqb k (py "push_last") then Some CMD_SUBDOC_ARRAY_PUSH_LAST
  else if str_eqb k (py "array_insert") then Some CMD_SUBDOC_ARRAY_INSERT
  else if str_eqb k (py "insert") then Some CMD_SUBDOC_DICT_ADD
  else None.

(** The loop over [cmdDict.items()]; [mcmd] and [value] survive from one
    iteration to the next, as the local variables do. *)
Fixpoint multi_sd_body (mcmd : option Z) (value : option pystr) (body : pystr)
    (items : list (pystr * sd_spec)) : res pystr :=
  match items with
  | [] => Ok body
  | (k, v) :: items =>
      let mcmd := match sd_opcode k with Some op => Some op | None => mcmd end in
      let flags := if create_parents v then 1 else 0 in
      let path := spec_path v in
      let '(value, valuelen) :=
        match spec_value v with
        | SpecStr s => let t := chr 34 :: s ++ [chr 34] in (Some t, len t)
        | SpecInt n => let t := str_of_Z n in (Some t, len t)
        | SpecOther => (value, 0)
        end in
      op ← of_option StructError mcmd;
      op_spec ← pack REQ_PKT_SD_MULTI_MUTATE [op; flags; len path; valuelen];
      value' ← of_option NameError value;
      multi_sd_body mcmd value (body ++ op_spec ++ path ++ value') items
  end.

(** [_doMultiSdCmd]: the message goes out with the default [vbucketId=0] of
    [_sendMsg]. *)
Definition doMultiSdCmd (cmd : Z) (key : pystr) (cmdDict : list (pystr * sd_spec))
    (opaque : Z) (scope : option pystr) (collection : option collection_arg)
    : MC (Z * Z * pystr) :=
  opaque ← (if opaque =? 0 then randint32 else mret opaque);
  body ← lift (multi_sd_body None None [] cmdDict);
  _ ← sendMsg cmd key body opaque [] 0 0 0 REQ_PKT_FMT REQ_MAGIC_BYTE scope collection [] None;
  handleSingleResponse (Some opaque).

(** [_set_vbucket(key, vbucket)] *)
Definition set_vbucket (key : pystr) (vbucket : Z) : MC unit :=
  if (vbucket =? 0) || (vbucket <? 0) then
    key ← lift (encode_ascii key);
    modify (λ c, set_vbucketId (vbucket_of key (vbucket_count c)) c)
  else modify (set_vbucketId vbucket).

(** [collection_name(scope, collection)] *)
Definition collection_name (scope : option pystr) (collection : option collection_arg)
    : MC (option pystr * option collection_arg) :=
  sup ← gets collections_supported;
  mret (if (sup : bool)
        then (Some (default (py "_default") scope),
              Some (default (CName (py "_default")) collection))
        else (scope, collection)).

(** ** Proofs: receiving *)

(** Chunks are never empty: [recv] returns no bytes only when the peer closed. *)
Definition chunks_ok (chs : list pystr) : Prop := Forall (λ c, c ≠ []) chs.

#[local] Ltac mstep := cbv [mbind M_bind mret M_ret lift gets get modify massert mraise mraise_msg].

Lemma recv_exact n chs d rest c :
  inbox c = chs → chunks_ok chs → concat chs = d ++ rest → length d = S n →
  ∃ d1 d2 chs', recv (S n) c = (Ok d1, set_io (sent c) chs' c) ∧ d = d1 ++ d2 ∧
    d1 ≠ [] ∧ chunks_ok chs' ∧ concat chs' = d2 ++ rest.
Proof.
  intros Hin Hok Hcat Hlen. unfold recv. rewrite Hin.
  destruct Hok as [|ch chs Hch Hok]; [by destruct d|].
  simpl in Hcat. case_bool_decide as Hle.
  - exists ch, (drop (length ch) d), chs.
    assert (ch = take (length ch) d) as Hd.
    { apply (f_equal (take (length ch))) in Hcat.
      rewrite take_app_length, take_app_le in Hcat by lia. done. }
    split; [done|]. split; [by rewrite Hd at 1; rewrite take_drop|].
    split; [done|]. split; [done|].
    apply (f_equal (drop (length ch))) in Hcat.
    rewrite drop_app_length, drop_app_le in Hcat by lia. done.
  - assert (d = take (S n) ch) as ->.
    { apply (f_equal (take (S n))) in Hcat.
      rewrite <- Hlen in Hcat at 2. rewrite take_app_length, take_app_le in Hcat by lia. done. }
    exists (take (S n) ch), [], (drop (S n) ch :: chs).
    split; [done|]. split; [by rewrite app_nil_r|].
    split; [by destruct ch|]. split.
    + constructor; [|done]. intros E%(f_equal length). rewrite length_drop in E. simpl in E. lia.
    + simpl. apply (f_equal (drop (S n))) in Hcat.
      rewrite drop_app_le in Hcat by lia. rewrite Hcat, drop_app_ge by lia.
      by rewrite Hlen, Nat.sub_diag, drop_0.
Qed.

Lemma set_io_set_io o1 i1 o2 i2 c : set_io o2 i2 (set_io o1 i1 c) = set_io o2 i2 c.
Proof. done. Qed.

Lemma recv_loop_exact fuel n acc c d rest :
  (n ≤ fuel)%nat → chunks_ok (inbox c) → concat (inbox c) = d ++ rest → length d = n →
  ∃ chs', recv_loop fuel n acc c = (Ok (acc ++ d), set_io (sent c) chs' c) ∧
    chunks_ok chs' ∧ concat chs' = rest.
Proof.
  revert n acc c d. induction fuel as [|fuel IH]; intros n acc c d Hf Hok Hcat Hlen.
  - destruct n; [|lia]. destruct d; [|done]. exists (inbox c). simpl.
    mstep. rewrite app_nil_r. by destruct c.
  - destruct n as [|n].
    { destruct d; [|done]. exists (inbox c). simpl. mstep. rewrite app_nil_r. by destruct c. }
    destruct (recv_exact n (inbox c) d rest c eq_refl Hok Hcat Hlen)
      as (d1 & d2 & chs1 & Hr & -> & Hd1 & Hok1 & Hcat1).
    rewrite length_app in Hlen. assert (length d1 ≠ O) by by destruct d1.
    destruct (IH (S n - length d1)%nat (acc ++ d1) (set_io (sent c) chs1 c) d2)
      as (chs2 & Hl & Hok2 & Hcat2); [lia|done|done|lia|].
    exists chs2. change (recv_loop (S fuel) (S n) acc) with
      (data ← recv (S n);
       if bool_decide (data = [])
       then mraise_msg EOFError (py "Got empty data (remote died?).")
       else recv_loop fuel (S n - length data) (acc ++ data)).
    rewrite (bind_Ok _ _ _ _ _ Hr). rewrite bool_decide_eq_false_2 by done.
    rewrite Hl, <- app_assoc. done.
Qed.

(** Reading [n] bytes gives the next [n] bytes of the stream, however the
    network cut the stream into chunks. *)
Lemma recv_exactly_spec n c d rest :
  chunks_ok (inbox c) → concat (inbox c) = d ++ rest → length d = n →
  ∃ chs', recv_exactly n c = (Ok d, set_io (sent c) chs' c) ∧
    chunks_ok chs' ∧ concat chs' = rest.
Proof. intros. by apply (recv_loop_exact n n [] c d rest). Qed.

(** ... and a stream that ends early raises [EOFError]. *)
Lemma recv_loop_eof fuel n acc c :
  (n ≤ fuel)%nat → chunks_ok (inbox c) → (length (concat (inbox c)) < n)%nat →
  raises EOFError (fst (recv_loop fuel n acc c)).
Proof.
  revert n acc c. induction fuel as [|fuel IH]; intros n acc c Hf Hok Hlen; [lia|].
  destruct n as [|n]; [lia|]. simpl.
  unfold mbind, M_bind, recv. destruct (inbox c) as [|ch chs] eqn:Hin; simpl; [done|].
  apply Forall_cons in Hok as [Hch Hok]. simpl in Hlen. rewrite length_app in Hlen.
  rewrite bool_decide_eq_true_2 by lia. rewrite bool_decide_eq_false_2 by done.
  assert (length ch ≠ O) by by destruct ch. apply IH; simpl; [lia|done|].
  change (length (concat chs) < S n - length ch)%nat. lia.
Qed.

(** The bytes of a packet: its 24-byte header and its body. *)
Definition frame (magic cmd keylen extralen dtype status opaque cas : Z) (body : pystr)
    : res pystr :=
  h ← pack RES_PKT_FMT [magic; cmd; keylen; extralen; dtype; status; len body; opaque; cas];
  Ok (h ++ body).

(** Packing any format that starts with a [B] field starts with that byte. *)
Lemma pack_first_byte fmt big cs v args h :
  parse_fmt fmt = Ok (big, CInt false 1 :: cs) → pack fmt (v :: args) = Ok h →
  ∃ t, h = chr v :: t ∧ 0 ≤ v < 256.
Proof.
  intros Hf. unfold pack. rewrite Hf. simpl mbind. simpl pack_codes.
  destruct (code_range false 1 v) eqn:Hr; [|done].
  intros (t & Ht & [= <-])%res_bind_inv.
  unfold code_range in Hr. change (256 ^ Z.of_nat 1) with 256 in Hr.
  exists t. split; [|lia].
  unfold pack_int, order_bytes. simpl.
  destruct big; simpl; by rewrite Z.mod_small by lia.
Qed.

Lemma unpack_B v : 0 ≤ v < 256 → unpack ">B" [chr v] = Ok [v].
Proof.
  intros Hv. apply unpack_pack. unfold pack. simpl.
  rewrite code_range_u by (change (256 ^ Z.of_nat 1) with 256; lia). simpl.
  unfold pack_int, order_bytes. simpl. by rewrite Z.mod_small by lia.
Qed.

Lemma length_header fmt args h :
  calcsize fmt = Ok MIN_RECV_PACKET → pack fmt args = Ok h → length h = MIN_RECV_PACKET.
Proof. intros Hc Hp%length_pack. congruence. Qed.

(** [_recvMsg] on a stream that starts with a packet returns its fields and its
    body and leaves the rest of the stream. *)
Lemma recvMsg_frame c magic cmd kl el dt st op cas body f rest :
  magic = RES_MAGIC_BYTE ∨ magic = REQ_MAGIC_BYTE →
  frame magic cmd kl el dt st op cas body = Ok f →
  chunks_ok (inbox c) → concat (inbox c) = f ++ rest →
  ∃ chs', recvMsg c = (Ok (Reply cmd st op cas kl el dt body), set_io (sent c) chs' c) ∧
    chunks_ok chs' ∧ concat chs' = rest.
Proof.
  intros Hm (h & Hh & [= <-])%res_bind_inv Hok Hcat.
  pose proof (unpack_pack _ _ _ Hh) as Hu.
  destruct (pack_first_byte RES_PKT_FMT true _ _ _ _ eq_refl Hh) as (t & -> & Hrange).
  assert (length (chr magic :: t) = MIN_RECV_PACKET) as Hlen.
  { apply (length_header RES_PKT_FMT) in Hh; done. }
  rewrite <- app_assoc in Hcat.
  destruct (recv_exactly_spec _ c _ _ Hok Hcat Hlen) as (chs1 & Hr1 & Hok1 & Hcat1).
  destruct (recv_exactly_spec (length body) (set_io (sent c) chs1 c) _ _ Hok1 Hcat1 eq_refl)
    as (chs2 & Hr2 & Hok2 & Hcat2).
  exists chs2. split; [|done]. unfold recvMsg.
  rewrite (bind_Ok _ _ _ _ _ Hr1). change (slice 0 1 (chr magic :: t)) with [chr magic].
  rewrite unpack_B by done. cbv [lift]. unfold mbind at 1, M_bind at 1. simpl default.
  assert ((magic =? ALT_RES_MAGIC_BYTE) = false ∧ (magic =? ALT_REQ_MAGIC_BYTE) = false) as [-> ->].
  { by destruct Hm as [->| ->]. }
  unfold massert. rewrite bool_decide_eq_true_2 by (destruct Hm as [->| ->]; repeat constructor). simpl orb. cbv iota.
  rewrite Hu. unfold mbind, M_bind, lift, py_assert. cbv beta iota.
  unfold len. rewrite Nat2Z.id. rewrite Hr2. done.
Qed.

(** ** Proofs: collection ids *)

Lemma leb_cont_byte c :
  0 ≤ c → let b := Z.lor (Z.land c 0xff) 0x80 in
  0 ≤ b < 256 ∧ Z.land b 0x7f = Z.land c 0x7f ∧ Z.land b 0x80 = 0x80.
Proof.
  intros Hc b.
  assert (b = Z.lor (Z.land c (Z.ones 8)) (Z.shiftl 1 7)) as Hb by done.
  assert (Z.land b (Z.ones 7) = Z.land c (Z.ones 7)) as H7.
  { rewrite Hb. zbits. destruct (decide (i < 7)).
    - rewrite !Z.ones_spec_low, (Z.testbit_neg_r _ (i - 7)) by lia.
      by destruct (Z.testbit c i).
    - rewrite (Z.ones_spec_high 7) by lia. by rewrite !andb_false_r. }
  assert (Z.land b (Z.shiftl 1 7) = Z.shiftl 1 7) as H8.
  { rewrite Hb. zbits. by destruct (Z.testbit c i), (Z.testbit (Z.ones 8) i),
      (Z.testbit 1 (i - 7)). }
  assert (Z.land b (Z.ones 8) = b) as H9.
  { rewrite Hb. zbits. destruct (decide (i < 8)).
    - rewrite !Z.ones_spec_low by lia. by rewrite !andb_true_r.
    - rewrite (Z.ones_spec_high 8) by lia. rewrite !andb_false_r.
      destruct (decide (i = 7)); [lia|]. symmetry. change 1 with (2 ^ 0).
      rewrite orb_false_l. apply Z.pow2_bits_false. lia. }
  split; [|done]. rewrite Z.land_ones in H9 by lia. rewrite <- H9.
  apply Z.mod_pos_bound. done.
Qed.

Lemma shiftr7_pos c : 0 ≤ c → 0 < Z.shiftr c 7 ↔ 128 ≤ c.
Proof.
  intros Hc. rewrite Z.shiftr_div_pow2 by lia. change (2 ^ 7) with 128.
  pose proof (Z.div_mod c 128). pose proof (Z.mod_pos_bound c 128). lia.
Qed.

Lemma decode_rest_leb fuel c acc shift endp key :
  0 < c → Z.log2 c < Z.of_nat fuel → 0 ≤ shift →
  decode_rest acc shift endp (leb128_loop fuel c ++ key) =
    (Z.lor acc (Z.shiftl c shift), (endp + length (leb128_loop fuel c) - 1)%nat).
Proof.
  revert c acc shift endp. induction fuel as [|fuel IH]; intros c acc shift endp Hc Hf Hs.
  { pose proof (Z.log2_nonneg c). lia. }
  simpl leb128_loop. rewrite (proj2 (Z.ltb_lt 0 c)) by done.
  destruct (Z.ltb_spec 0 (Z.shiftr c 7)) as [Hmore|Hlast].
  - destruct (leb_cont_byte c) as (Hb & H7 & H8); [lia|].
    simpl. rewrite ord_chr by done. rewrite H8. change (0x80 =? 0) with false. cbv iota.
    rewrite IH; [|done| |lia].
    2:{ rewrite Z.log2_shiftr by done.
        apply shiftr7_pos in Hmore; [|lia].
        pose proof (Z.log2_le_mono 128 c Hmore) as Hl. change (Z.log2 128) with 7 in Hl. lia. }
    f_equal; [|simpl; lia]. rewrite H7. rewrite <- Z.lor_assoc. f_equal.
    change 0x7f with (Z.ones 7). zbits.
    destruct (decide (i < shift)).
    { rewrite !(Z.testbit_neg_r _ (i - _)) by lia. done. }
    destruct (decide (i - shift < 7)).
    + rewrite Z.ones_spec_low, (Z.testbit_neg_r _ (i - (shift + 7))) by lia.
      by rewrite andb_true_r, orb_false_r.
    + rewrite Z.ones_spec_high, Z.shiftr_spec by lia. rewrite andb_false_r, orb_false_l.
      f_equal. lia.
  - assert (c < 128) as Hc7 by (pose proof (shiftr7_pos c); lia).
    assert (Z.land c 0xff = c) as E8.
    { change 0xff with (2 ^ 8 - 1). rewrite Z_land_mask by lia. apply Z.mod_small. lia. }
    assert (Z.land c 0x7f = c) as E7.
    { change 0x7f with (2 ^ 7 - 1). rewrite Z_land_mask by lia. apply Z.mod_small. lia. }
    simpl. rewrite E8, ord_chr by lia. rewrite E7.
    assert (Z.land c 0x80 = 0) as ->; [|simpl; f_equal; lia].
    rewrite <- E7. rewrite <- Z.land_assoc. apply Z.land_0_r.
Qed.

Lemma leb128_small cid : 0 ≤ cid < 128 → leb128 cid = [chr cid].
Proof.
  intros H. unfold leb128. destruct (decide (cid = 0)) as [->|Hne]; [done|].
  assert (Z.to_nat (Z.log2 cid + 1) = S (Z.to_nat (Z.log2 cid))) as ->
    by (pose proof (Z.log2_nonneg cid); lia).
  simpl. rewrite (proj2 (Z.ltb_lt 0 cid)) by lia.
  assert (Z.shiftr cid 7 = 0) as ->
    by (rewrite Z.shiftr_div_pow2 by lia; apply Z.div_small; done).
  simpl. f_equal. f_equal. change 0xff with (2 ^ 8 - 1).
  rewrite Z_land_mask by lia. apply Z.mod_small. lia.
Qed.

Lemma leb128_big cid :
  128 ≤ cid → leb128 cid =
    chr (Z.lor (Z.land cid 0xff) 0x80) ::
      leb128_loop (Z.to_nat (Z.log2 cid)) (Z.shiftr cid 7) ∧ 0 < Z.shiftr cid 7.
Proof.
  intros H. unfold leb128.
  assert (0 < Z.shiftr cid 7) as Hs by (apply shiftr7_pos; lia).
  assert (Z.to_nat (Z.log2 cid + 1) = S (Z.to_nat (Z.log2 cid))) as ->
    by (pose proof (Z.log2_nonneg cid); lia).
  simpl. rewrite (proj2 (Z.ltb_lt 0 cid)) by lia. by rewrite (proj2 (Z.ltb_lt _ _) Hs).
Qed.

Lemma decode_leb128 cid key :
  0 ≤ cid → key ≠ [] → decodeCollectionID (leb128 cid ++ key) = Ok (cid, key).
Proof.
  intros Hc Hk. destruct (decide (cid < 128)) as [Hsm|Hbig].
  - rewrite leb128_small by lia. simpl. rewrite ord_chr by lia.
    change 0x7f with (2 ^ 7 - 1). rewrite Z_land_mask, Z.mod_small by lia.
    assert (Z.land cid 0x80 = 0) as ->; [|by rewrite drop_0].
    assert (cid = Z.land cid (Z.ones 7)) as -> by (rewrite Z.land_ones by lia; by rewrite Z.mod_small by lia).
    rewrite <- Z.land_assoc. apply Z.land_0_r.
  - destruct (leb128_big cid) as [-> Hs]; [lia|].
    destruct (leb_cont_byte cid) as (Hb & H7 & H8); [lia|].
    set (tl := leb128_loop _ _). simpl. rewrite ord_chr by done. rewrite H8, H7.
    change (128 =? 128) with true. cbv iota.
    assert (length tl ≠ O) as Htl.
    { unfold tl. destruct (Z.to_nat (Z.log2 cid)); simpl; [done|]. by repeat case_match. }
    assert (decode_rest (Z.land cid 0x7f) 7 1 (tl ++ key) =
      (cid, length tl)) as Hd.
    { unfold tl. rewrite decode_rest_leb; [|done| |lia].
      - f_equal; [|simpl; lia]. change 0x7f with (Z.ones 7). zbits.
        destruct (decide (i < 7)).
        + rewrite Z.ones_spec_low, (Z.testbit_neg_r _ (i - 7)) by lia.
          by rewrite andb_true_r, orb_false_r.
        + rewrite Z.ones_spec_high, Z.shiftr_spec by lia. rewrite andb_false_r. simpl.
          f_equal. lia.
      - assert (0 < Z.log2 cid) by (apply Z.log2_pos; lia).
        rewrite Z.log2_shiftr by lia. lia. }
    destruct (tl ++ key) as [|b t] eqn:Htk.
    { apply app_nil in Htk as [_ ->]. done. }
    rewrite Hd. rewrite <- Htk.
    rewrite bool_decide_eq_false_2.
    2:{ rewrite length_app. destruct key; simpl; [done|lia]. }
    f_equal. f_equal. simpl. apply drop_app_length.
Qed.

(** ** Proofs: sending *)

(** A run either raises without touching the client, or succeeds. *)
Definition reads {A} (m : MC A) : Prop := ∀ c, ∃ r, m c = (r, c).

Lemma reads_lift {A} (r : res A) : reads (lift r).
Proof. intros c. by exists r. Qed.
Lemma reads_ret {A} (a : A) : reads (mret a).
Proof. intros c. by exists (Ok a). Qed.
Lemma reads_gets {A} (f : client → A) : reads (gets f).
Proof. intros c. by exists (Ok (f c)). Qed.
Lemma reads_bind {A B} (m : MC A) (f : A → MC B) :
  reads m → (∀ a, reads (f a)) → reads (m ≫= f).
Proof.
  intros Hm Hf c. unfold mbind, M_bind. destruct (Hm c) as [[a|e] ->]; [apply Hf|eauto].
Qed.
Lemma reads_get : reads get.
Proof. intros c. by exists (Ok c). Qed.

Ltac solve_reads :=
  repeat first
    [ apply reads_lift | apply reads_ret | apply reads_gets | apply reads_get
    | apply reads_bind; [|intros ?] | case_match ].

Lemma reads_encodeCollectionId key sc col : reads (encodeCollectionId key sc col).
Proof. unfold encodeCollectionId, mraise. solve_reads. Qed.

Lemma encode_ascii_inv s t : encode_ascii s = Ok t → t = s ∧ is_ascii s = true.
Proof. unfold encode_ascii. destruct (is_ascii s); [by intros [= <-]|done]. Qed.

(** [_sendMsg] raises and writes nothing, or writes one packet whose header
    gives the lengths of its parts. *)
Lemma sendMsg_run cmd key val op ext cas dt vb fmt magic sc col emd ehl c :
  (∃ e, sendMsg cmd key val op ext cas dt vb fmt magic sc col emd ehl c = (Err e, c)) ∨
  (∃ key' h,
     sendMsg cmd key val op ext cas dt vb fmt magic sc col emd ehl c =
       (Ok tt, set_io (sent c ++ h ++ ext ++ key' ++ val ++ emd) (inbox c) c) ∧
     pack fmt [magic; cmd; len key'; default (len ext) ehl; dt; vb;
               len key' + len ext + len val + len emd; op; cas] = Ok h ∧
     is_ascii key' = true ∧ is_ascii ext = true ∧ is_ascii val = true ∧
     is_ascii emd = true ∧
     (collection_true col = false → key' = key)).
Proof.
  unfold sendMsg.
  set (mk := match col with Some _ => _ | None => _ end).
  assert (∃ r, mk c = (r, c) ∧ (collection_true col = false → r = Ok key)) as (r & Hr & Hkey).
  { unfold mk. destruct col as [col|]; [|by exists (Ok key)].
    destruct (collection_true (Some col)) eqn:Ht; [|by exists (Ok key)].
    destruct (reads_encodeCollectionId key sc col c) as [r ->]. by exists r. }
  destruct r as [key'|e]; [|left; exists e; by apply bind_Err].
  rewrite (bind_Ok _ _ _ _ _ Hr). unfold mbind, M_bind, lift.
  destruct (pack fmt _) as [h|e] eqn:Hh; [|eauto].
  destruct (encode_ascii key') as [k1|e] eqn:Hk; [|eauto].
  destruct (encode_ascii ext) as [e1|e] eqn:He; [|eauto].
  destruct (encode_ascii val) as [v1|e] eqn:Hv; [|eauto].
  destruct (encode_ascii emd) as [m1|e] eqn:Hm; [|eauto].
  apply encode_ascii_inv in Hk as [-> Hk], He as [-> He], Hv as [-> Hv], Hm as [-> Hm].
  right. exists key', h. split; [done|]. repeat (split; [done|]).
  intros Hf. by apply Hkey in Hf as [= ->].
Qed.

(** The success case on ASCII arguments outside collections. *)
Lemma sendMsg_Ok cmd key val op ext cas dt vb sc col emd c f :
  collection_true col = false →
  is_ascii (ext ++ key ++ val ++ emd) = true →
  frame REQ_MAGIC_BYTE cmd (len key) (len ext) dt vb op cas (ext ++ key ++ val ++ emd) = Ok f →
  sendMsg cmd key val op ext cas dt vb REQ_PKT_FMT REQ_MAGIC_BYTE sc col emd None c =
    (Ok tt, set_io (sent c ++ f) (inbox c) c).
Proof.
  intros Hcol Has (h & Hh & [= <-])%res_bind_inv.
  unfold is_ascii in Has. rewrite !forallb_app, !andb_true_iff in Has.
  destruct Has as (He & Hk & Hv & Hm).
  unfold sendMsg.
  assert (∀ A (x : MC A), match col with
          | Some col0 => if collection_true col then encodeCollectionId key sc col0 else mret key
          | None => mret key end = mret key) as E.
  { intros. destruct col; [|done]. by rewrite Hcol. }
  rewrite (E _ (mret tt)). unfold mbind, M_bind, mret, M_ret, lift. simpl default.
  replace (len key + len ext + len val + len emd) with (len (ext ++ key ++ val ++ emd))
    by (rewrite !len_app; lia).
  change REQ_PKT_FMT with RES_PKT_FMT. rewrite Hh.
  unfold encode_ascii, is_ascii. rewrite He, Hk, Hv, Hm. done.
Qed.

(** The fields of the 24-byte header. *)
Definition header_codes : list code :=
  [CInt false 1; CInt false 1; CInt false 2; CInt false 1; CInt false 1;
   CInt false 2; CInt false 4; CInt false 4; CInt false 8].

Lemma parse_header : parse_fmt RES_PKT_FMT = Ok (true, header_codes).
Proof. reflexivity. Qed.

(** A range check on the header fields is all that [frame] needs. *)
Lemma frame_Ok magic cmd kl el dt st op cas body :
  0 ≤ magic < 2 ^ 8 → 0 ≤ cmd < 2 ^ 8 → 0 ≤ kl < 2 ^ 16 → 0 ≤ el < 2 ^ 8 →
  0 ≤ dt < 2 ^ 8 → 0 ≤ st < 2 ^ 16 → len body < 2 ^ 32 → 0 ≤ op < 2 ^ 32 →
  0 ≤ cas < 2 ^ 64 →
  ∃ h, frame magic cmd kl el dt st op cas body = Ok (h ++ body) ∧
    pack RES_PKT_FMT [magic; cmd; kl; el; dt; st; len body; op; cas] = Ok h.
Proof.
  intros. pose proof (len_nonneg body). unfold frame, pack.
  rewrite parse_header. unfold header_codes.
  cbn [mbind res_bind].
  repeat (rewrite pack_codes_int by (apply code_range_u; simpl Z.of_nat; lia)).
  cbn [mbind res_bind pack_codes]. eexists. split; reflexivity.
Qed.

(** Header fields out of range make [struct.pack] raise: a packet holds only
    32-bit opaques. *)
Lemma frame_opaque_range magic cmd kl el dt st op cas body f :
  frame magic cmd kl el dt st op cas body = Ok f → 0 ≤ op < 2 ^ 32.
Proof.
  unfold frame, pack.
  rewrite parse_header. unfold header_codes.
  cbn [mbind res_bind pack_codes]. intros H.
  repeat match type of H with
  | context [if code_range ?a ?b ?c then _ else _] =>
      let E := fresh "E" in destruct (code_range a b c) eqn:E; [|discriminate H]
  end.
  unfold code_range in E6. change (256 ^ Z.of_nat 4) with (2 ^ 32) in E6. lia.
Qed.

Lemma frame_header magic cmd kl el dt st op cas body h :
  pack RES_PKT_FMT [magic; cmd; kl; el; dt; st; len body; op; cas] = Ok h →
  frame magic cmd kl el dt st op cas body = Ok (h ++ body).
Proof. intros H. unfold frame. by rewrite H. Qed.

(** ** Proofs: request and response *)

(** A response to opaque [op] with status 0 at the head of the stream. *)
Lemma handleSingleResponse_Ok op c rcmd kl el dt cas data f rest :
  frame RES_MAGIC_BYTE rcmd kl el dt 0 op cas data = Ok f →
  chunks_ok (inbox c) → concat (inbox c) = f ++ rest →
  ∃ chs', handleSingleResponse (Some op) c = (Ok (op, cas, data), set_io (sent c) chs' c) ∧
    chunks_ok chs' ∧ concat chs' = rest.
Proof.
  intros Hf Hok Hcat.
  destruct (recvMsg_frame _ _ _ _ _ _ _ _ _ _ _ _ (or_introl eq_refl) Hf Hok Hcat)
    as (chs' & Hr & Hok' & Hcat').
  exists chs'. split; [|done].
  unfold handleSingleResponse, handleKeyedResponse. unfold mbind, M_bind. rewrite Hr. simpl.
  unfold massert, lift, py_assert. rewrite Z.eqb_refl. done.
Qed.

(** A response with a non-zero status raises; which exception depends on
    whether an error map is loaded and knows the status. *)
Definition status_exn (em : option (gmap Z json)) (status : Z) (body : pystr) : pyexn :=
  match em with
  | None => Exn (MemcachedError status) body
  | Some errors =>
      match xerror_msg body (default (JStr body) (errors !! status)) with
      | Ok m => Exn (MemcachedError status) m
      | Err e => e
      end
  end.

Lemma handleSingleResponse_Err op c rcmd kl el dt st cas data f rest :
  st ≠ 0 → frame RES_MAGIC_BYTE rcmd kl el dt st op cas data = Ok f →
  chunks_ok (inbox c) → concat (inbox c) = f ++ rest →
  ∃ chs', handleSingleResponse (Some op) c =
      (Err (status_exn (error_map c) st data), set_io (sent c) chs' c) ∧
    chunks_ok chs' ∧ concat chs' = rest.
Proof.
  intros Hst Hf Hok Hcat.
  destruct (recvMsg_frame _ _ _ _ _ _ _ _ _ _ _ _ (or_introl eq_refl) Hf Hok Hcat)
    as (chs' & Hr & Hok' & Hcat').
  exists chs'. split; [|done].
  unfold handleSingleResponse, handleKeyedResponse. unfold mbind, M_bind. rewrite Hr. simpl.
  unfold massert, lift, py_assert. rewrite Z.eqb_refl.
  rewrite (proj2 (Z.eqb_neq st 0)) by done. simpl. unfold status_exn.
  destruct (error_map c) as [errors|]; [|done].
  by destruct (xerror_msg data _).
Qed.

(** What [_doCmd] puts on the wire and how the client is left before the
    response is read. *)
Lemma doCmd_send cmd key val ext cas sc col emd c f :
  collection_true col = false →
  is_ascii (ext ++ key ++ val ++ emd) = true →
  frame REQ_MAGIC_BYTE cmd (len key) (len ext) 0 (vbucketId c) (rnd c (nrnd c)) cas
        (ext ++ key ++ val ++ emd) = Ok f →
  doCmd cmd key val ext cas sc col emd None c =
    handleSingleResponse (Some (rnd c (nrnd c)))
      (set_io (sent c ++ f) (inbox c) (set_nrnd (S (nrnd c)) c)).
Proof.
  intros Hcol Has Hf. unfold doCmd, sendCmd. unfold mbind, M_bind. simpl.
  rewrite (sendMsg_Ok _ _ _ _ _ _ _ _ _ _ _ _ f); done.
Qed.

(** ** Properties *)

(** C2: whatever way the network cuts the byte stream into chunks, [_recvMsg]
    returns exactly the fields and the body of the packet at the head of the
    stream (magic 0x81 or 0x80) and leaves the following bytes unread. *)
Theorem recvMsg_reassembles c magic cmd kl el dt st op cas body f rest :
  magic = RES_MAGIC_BYTE ∨ magic = REQ_MAGIC_BYTE →
  frame magic cmd kl el dt st op cas body = Ok f →
  chunks_ok (inbox c) → concat (inbox c) = f ++ rest →
  ∃ chs', recvMsg c = (Ok (Reply cmd st op cas kl el dt body), set_io (sent c) chs' c) ∧
    chunks_ok chs' ∧ concat chs' = rest.
Proof. apply recvMsg_frame. Qed.

Definition demo_frame : pystr :=
  match frame RES_MAGIC_BYTE CMD_GET 0 4 0 0 7 99 (py "1234value") with
  | Ok f => f | Err _ => [] end.
Definition demo_rnd (i : nat) : Z := 7.

(** A client whose answer arrives in three pieces, followed by other bytes. *)
Definition demo_client : client :=
  new_client [take 3 demo_frame; slice 3 30 demo_frame;
              drop 30 demo_frame ++ py "next"] demo_rnd.

Lemma recvMsg_reassembles_witness :
  ∃ chs', recvMsg demo_client =
    (Ok (Reply CMD_GET 0 7 99 0 4 0 (py "1234value")),
     set_io (sent demo_client) chs' demo_client) ∧
    chunks_ok chs' ∧ concat chs' = py "next".
Proof.
  apply (recvMsg_reassembles demo_client RES_MAGIC_BYTE CMD_GET 0 4 0 0 7 99
           (py "1234value") demo_frame).
  - by left.
  - reflexivity.
  - by repeat constructor.
  - reflexivity.
Defined.

(** C1: a packet that [_sendMsg] wrote (with any opcode, key, value, extras,
    collection) is read back by [_recvMsg] with the same opcode, vbucket, opaque,
    cas, datatype and lengths, and with the body extras ++ key ++ value ++
    metadata, where key is the encoded key when a collection was given. *)
Theorem sendMsg_recvMsg cmd key val op ext cas dt vb sc col emd c c' d f rest :
  sendMsg cmd key val op ext cas dt vb REQ_PKT_FMT REQ_MAGIC_BYTE sc col emd None c = (Ok tt, c') →
  sent c' = sent c ++ f → chunks_ok (inbox d) → concat (inbox d) = f ++ rest →
  ∃ key' chs', recvMsg d =
      (Ok (Reply cmd vb op cas (len key') (len ext) dt (ext ++ key' ++ val ++ emd)),
       set_io (sent d) chs' d) ∧
    (collection_true col = false → key' = key) ∧ concat chs' = rest.
Proof.
  intros Hs Hsent Hok Hcat.
  destruct (sendMsg_run cmd key val op ext cas dt vb REQ_PKT_FMT REQ_MAGIC_BYTE sc col emd None c)
    as [[e He]|(key' & h & Hrun & Hh & _ & _ & _ & _ & Hkey)]; [congruence|].
  rewrite Hs in Hrun. injection Hrun as ->. simpl in Hsent. apply app_inv_head in Hsent as <-.
  simpl default in Hh.
  replace (len key' + len ext + len val + len emd) with (len (ext ++ key' ++ val ++ emd))
    in Hh by (rewrite !len_app; lia).
  destruct (recvMsg_frame d REQ_MAGIC_BYTE cmd (len key') (len ext) dt vb op cas
    (ext ++ key' ++ val ++ emd) _ rest (or_intror eq_refl) (frame_header _ _ _ _ _ _ _ _ _ _ Hh)
    Hok Hcat) as (chs' & Hr & _ & Hc'). eauto.
Qed.

Definition demo_req : pystr :=
  match frame REQ_MAGIC_BYTE CMD_SET 3 8 0 5 7 0 (py "eeeeeeeekeyval") with
  | Ok f => f | Err _ => [] end.

Lemma sendMsg_recvMsg_witness :
  ∃ key' chs', recvMsg (new_client [demo_req] demo_rnd) =
      (Ok (Reply CMD_SET 5 7 0 (len key') 8 0 (py "eeeeeeee" ++ key' ++ py "val" ++ [])),
       set_io [] chs' (new_client [demo_req] demo_rnd)) ∧
    (false = false → key' = py "key") ∧ concat chs' = [].
Proof.
  apply (sendMsg_recvMsg CMD_SET (py "key") (py "val") 7 (py "eeeeeeee") 0 0 5 None None []
    (new_client [] demo_rnd) (set_io demo_req [] (new_client [] demo_rnd))
    (new_client [demo_req] demo_rnd) demo_req []); try reflexivity.
  by repeat constructor.
Defined.

(** C3: [_doCmd] of an ASCII request outside collections writes exactly one
    request packet carrying the client's vbucket and the drawn opaque; when the
    server answers that opaque with status 0 it returns the opaque, the cas and
    the data of the answer; when the status is not 0 it raises [MemcachedError]
    with that status and the answer's body (no error map loaded). *)
Theorem doCmd_request_response cmd key val ext cas sc col emd c f rcmd kl el dt st rcas data g rest :
  collection_true col = false → error_map c = None →
  is_ascii (ext ++ key ++ val ++ emd) = true →
  frame REQ_MAGIC_BYTE cmd (len key) (len ext) 0 (vbucketId c) (rnd c (nrnd c)) cas
        (ext ++ key ++ val ++ emd) = Ok f →
  frame RES_MAGIC_BYTE rcmd kl el dt st (rnd c (nrnd c)) rcas data = Ok g →
  chunks_ok (inbox c) → concat (inbox c) = g ++ rest →
  ∃ c', doCmd cmd key val ext cas sc col emd None c =
          (if st =? 0 then Ok (rnd c (nrnd c), rcas, data)
           else Err (Exn (MemcachedError st) data), c') ∧
    sent c' = sent c ++ f ∧ concat (inbox c') = rest ∧ vbucketId c' = vbucketId c.
Proof.
  intros Hcol Hem Has Hf Hg Hok Hcat.
  rewrite (doCmd_send _ _ _ _ _ _ _ _ _ f) by done.
  set (c1 := set_io _ _ _). destruct (Z.eqb_spec st 0) as [->|Hst].
  - destruct (handleSingleResponse_Ok _ c1 _ _ _ _ _ _ _ _ Hg Hok Hcat)
      as (chs' & -> & _ & Hc'). eexists. split; [done|]. by simpl.
  - destruct (handleSingleResponse_Err _ c1 _ _ _ _ _ _ _ _ _ Hst Hg Hok Hcat)
      as (chs' & -> & _ & Hc').
    unfold status_exn. change (error_map c1) with (error_map c). rewrite Hem.
    eexists. split; [done|]. by simpl.
Qed.

Definition demo_get_req : pystr :=
  match frame REQ_MAGIC_BYTE CMD_GET 3 0 0 0 7 0 (py "key") with
  | Ok f => f | Err _ => [] end.
Definition demo_miss : pystr :=
  match frame RES_MAGIC_BYTE CMD_GET 0 0 0 1 7 0 (py "Not found") with
  | Ok f => f | Err _ => [] end.

Lemma doCmd_request_response_witness :
  ∃ c', doCmd CMD_GET (py "key") [] [] 0 None None [] None (new_client [demo_miss] demo_rnd) =
          (Err (Exn (MemcachedError 1) (py "Not found")), c') ∧
    sent c' = demo_get_req ∧ concat (inbox c') = [] ∧ vbucketId c' = 0.
Proof.
  apply (doCmd_request_response CMD_GET (py "key") [] [] 0 None None []
    (new_client [demo_miss] demo_rnd) demo_get_req CMD_GET 0 0 0 1 0 (py "Not found")
    demo_miss []); try reflexivity.
  by repeat constructor.
Defined.

Lemma recvMsg_alt c magic t rest :
  magic = ALT_RES_MAGIC_BYTE ∨ magic = ALT_REQ_MAGIC_BYTE →
  length (chr magic :: t) = MIN_RECV_PACKET →
  chunks_ok (inbox c) → concat (inbox c) = (chr magic :: t) ++ rest →
  raises ValueError (fst (recvMsg c)).
Proof.
  intros Hm Hlen Hok Hcat.
  destruct (recv_exactly_spec _ c _ _ Hok Hcat Hlen) as (chs1 & Hr1 & Hok1 & Hcat1).
  unfold recvMsg. rewrite (bind_Ok _ _ _ _ _ Hr1).
  change (slice 0 1 (chr magic :: t)) with [chr magic].
  rewrite unpack_B by (by destruct Hm as [->| ->]).
  destruct (unpack ALT_RES_PKT_FMT (chr magic :: t)) as [vs|] eqn:Hu.
  2:{ unfold unpack in Hu. simpl in Hu. rewrite bool_decide_eq_true_2 in Hu; [done|exact Hlen]. }
  assert (length vs = 10%nat) as Hvs.
  { unfold unpack in Hu. simpl in Hu. case_bool_decide; [|done]. by injection Hu as <-. }
  unfold mbind, M_bind, lift. cbv beta iota. simpl default.
  destruct Hm as [-> | ->]; simpl; rewrite Hu;
    do 10 (destruct vs as [|? vs]; [done|]); by destruct vs.
Qed.

(** [_recvMsg] cannot read the alternative encoding: any packet with magic
    0x08 or 0x18 raises [ValueError], because the format of that header has ten
    fields and the code assigns them to nine names. *)
Theorem recvMsg_alt_raises c magic t rest :
  magic = ALT_RES_MAGIC_BYTE ∨ magic = ALT_REQ_MAGIC_BYTE →
  length (chr magic :: t) = MIN_RECV_PACKET →
  chunks_ok (inbox c) → concat (inbox c) = (chr magic :: t) ++ rest →
  raises ValueError (fst (recvMsg c)).
Proof. apply recvMsg_alt. Qed.

Lemma recvMsg_alt_raises_witness :
  raises ValueError
    (fst (recvMsg (new_client [chr 0x18 :: replicate 23 (chr 0)] demo_rnd))).
Proof.
  apply (recvMsg_alt_raises _ ALT_RES_MAGIC_BYTE (replicate 23 (chr 0)) []).
  - by left.
  - reflexivity.
  - by repeat constructor.
  - reflexivity.
Defined.

(** the value 2^32 that [randint(0, 2 ** 32)] can return as opaque makes
    every command raise [struct.error] before anything is written, and every
    smaller value fits the header. *)
Theorem doCmd_opaque_overflow cmd key val ext cas sc col emd ehl c :
  collection_true col = false → rnd c (nrnd c) = 2 ^ 32 →
  raises StructError (fst (doCmd cmd key val ext cas sc col emd ehl c)) ∧
  sent (snd (doCmd cmd key val ext cas sc col emd ehl c)) = sent c.
Proof.
  intros Hcol Hr. unfold doCmd, sendCmd. unfold mbind, M_bind. simpl. rewrite Hr.
  unfold sendMsg.
  set (mk := match col with Some _ => _ | None => _ end).
  assert (mk = mret key) as -> by (unfold mk; destruct col; [by rewrite Hcol|done]).
  unfold mbind, M_bind, mret, M_ret, lift.
  assert (∀ a b d e x f g, pack REQ_PKT_FMT [REQ_MAGIC_BYTE; a; b; d; e; x; f; 2 ^ 32; g]
            = raise StructError) as Hp.
  { intros. unfold pack. change (parse_fmt REQ_PKT_FMT) with (Ok (true, header_codes)).
    unfold header_codes. cbn [mbind res_bind pack_codes].
    change (code_range false 4 (2 ^ 32)) with false. by repeat case_match. }
  by rewrite Hp.
Qed.

Lemma doCmd_opaque_overflow_witness :
  raises StructError (fst (doCmd CMD_NOOP [] [] [] 0 None None [] None
                             (new_client [] (λ _, 2 ^ 32)))) ∧
  sent (snd (doCmd CMD_NOOP [] [] [] 0 None None [] None (new_client [] (λ _, 2 ^ 32)))) = [].
Proof.
  apply (doCmd_opaque_overflow CMD_NOOP [] [] [] 0 None None [] None
           (new_client [] (λ _, 2 ^ 32))); reflexivity.
Defined.

(** every collection id has a varint encoding that [decodeCollectionID]
    reads back with the rest of the key, for keys that are not empty. *)
Theorem collection_id_roundtrip cid key :
  0 ≤ cid → key ≠ [] → decodeCollectionID (leb128 cid ++ key) = Ok (cid, key).
Proof. apply decode_leb128. Qed.

Lemma collection_id_roundtrip_witness :
  decodeCollectionID (leb128 624485 ++ py "doc-1") = Ok (624485, py "doc-1").
Proof. apply collection_id_roundtrip; [lia|done]. Defined.

Lemma encodeCollectionId_raises key sc col c :
  ∃ e, encodeCollectionId key sc col c = (Err e, c).
Proof.
  unfold encodeCollectionId, mbind, M_bind, get.
  destruct (is_collections_supported c); simpl; [|by eexists].
  destruct col as [name|id]; simpl; [|by eexists].
  destruct sc as [sc|]; [|by eexists]. unfold lift.
  destruct (dict_get (collection_map c) sc) as [scm|e]; [|by eexists].
  destruct (dict_get scm name); by eexists.
Qed.

Lemma doCmd_collection cmd key val ext cas sc col emd ehl c :
  collection_true col = true →
  is_ok (fst (doCmd cmd key val ext cas sc col emd ehl c)) = false ∧
  sent (snd (doCmd cmd key val ext cas sc col emd ehl c)) = sent c.
Proof.
  intros Hcol. unfold doCmd, sendCmd, sendMsg. unfold mbind, M_bind. simpl.
  destruct col as [col|]; [|done]. rewrite Hcol.
  destruct (encodeCollectionId_raises key sc col (set_nrnd (S (nrnd c)) c)) as [e ->]. done.
Qed.

(** no request can be addressed to a collection.  Whatever the collection
    argument, by name or by a non-zero id, and whatever the state of the client,
    a command raises before anything is written; with collections enabled an id
    fails with [AttributeError], because [_encodeCollectionId] calls [tobytes]
    on an array. *)
Theorem collection_requests_fail cmd key val ext cas sc col emd ehl c :
  collection_true col = true →
  is_ok (fst (doCmd cmd key val ext cas sc col emd ehl c)) = false ∧
  sent (snd (doCmd cmd key val ext cas sc col emd ehl c)) = sent c ∧
  (∀ id, is_collections_supported c = true →
     raises AttributeError (fst (encodeCollectionId key sc (CId id) c))).
Proof.
  intros Hcol. destruct (doCmd_collection cmd key val ext cas sc col emd ehl c Hcol) as [H1 H2].
  split_and!; [done|done|]. intros id Hs.
  unfold encodeCollectionId, mbind, M_bind, get. by rewrite Hs.
Qed.

Definition demo_collections : client :=
  set_features ∅ {[FEATURE_COLLECTIONS]} true None (new_client [] demo_rnd).

Lemma collection_requests_fail_witness :
  is_ok (fst (doCmd CMD_GET (py "k") [] [] 0 None (Some (CId 8)) [] None demo_collections)) = false ∧
  sent (snd (doCmd CMD_GET (py "k") [] [] 0 None (Some (CId 8)) [] None demo_collections)) = [] ∧
  (∀ id, is_collections_supported demo_collections = true →
     raises AttributeError (fst (encodeCollectionId (py "k") None (CId id) demo_collections))).
Proof.
  apply (collection_requests_fail CMD_GET (py "k") [] [] 0 None (Some (CId 8)) [] None
           demo_collections). reflexivity.
Defined.

(** [_set_vbucket] leaves an explicit positive vbucket alone; for a
    negative one it selects the vbucket of the key, a number below
    [vbucket_count] equal to the table-driven hash of lib/crc32.py under the
    vbucket mask; and it treats an explicit vbucket 0 as if none was given. *)
Theorem set_vbucket_spec key vbucket c :
  is_ascii key = true → 0 < vbucket_count c →
  set_vbucket key vbucket c =
    (Ok tt, set_vbucketId
       (if 0 <? vbucket then vbucket
        else Z.land (crc32_hash key) (vbucket_count c - 1)) c) ∧
  (vbucket ≤ 0 → 0 ≤ vbucketId (snd (set_vbucket key vbucket c)) < vbucket_count c).
Proof.
  intros Hk Hn.
  assert (set_vbucket key vbucket c =
    (Ok tt, set_vbucketId (if 0 <? vbucket then vbucket
        else Z.land (crc32_hash key) (vbucket_count c - 1)) c)) as E.
  { unfold set_vbucket. rewrite crc32_hash_zlib.
    destruct (Z.eqb_spec vbucket 0) as [->|Hz]; simpl;
      [|destruct (Z.ltb_spec vbucket 0), (Z.ltb_spec 0 vbucket); try lia];
      unfold mbind, M_bind, lift, encode_ascii; rewrite ?Hk; done. }
  split; [done|]. intros Hv. rewrite E. simpl.
  rewrite (proj2 (Z.ltb_ge 0 vbucket)) by lia. rewrite crc32_hash_zlib.
  by apply vbucket_of_range.
Qed.

Lemma set_vbucket_spec_witness :
  set_vbucket (py "doc-7") 0 (new_client [] demo_rnd) =
    (Ok tt, set_vbucketId (Z.land (crc32_hash (py "doc-7")) 1023) (new_client [] demo_rnd)) ∧
  (0 ≤ 0 → 0 ≤ vbucketId (snd (set_vbucket (py "doc-7") 0 (new_client [] demo_rnd))) < 1024).
Proof.
  apply (set_vbucket_spec (py "doc-7") 0 (new_client [] demo_rnd)); [reflexivity|done].
Defined.

(** Receiving never writes. *)
Definition keeps_sent {A} (m : MC A) : Prop := ∀ c, sent (snd (m c)) = sent c.

Lemma keeps_reads {A} (m : MC A) : reads m → keeps_sent m.
Proof. intros H c. by destruct (H c) as [r ->]. Qed.
Lemma keeps_bind {A B} (m : MC A) (f : A → MC B) :
  keeps_sent m → (∀ a, keeps_sent (f a)) → keeps_sent (m ≫= f).
Proof.
  intros Hm Hf c. unfold mbind, M_bind. specialize (Hm c).
  destruct (m c) as [[a|e] c1]; simpl in *; [by rewrite Hf|done].
Qed.
Lemma keeps_recv n : keeps_sent (recv n).
Proof. intros c. unfold recv. by repeat case_match. Qed.
Lemma keeps_recv_loop fuel n acc : keeps_sent (recv_loop fuel n acc).
Proof.
  revert n acc. induction fuel as [|fuel IH]; intros [|n] acc; cbn [recv_loop].
  - apply keeps_reads, reads_ret.
  - apply keeps_reads, reads_lift.
  - apply keeps_reads, reads_ret.
  - apply keeps_bind; [apply keeps_recv|]. intros d. case_bool_decide; [|apply IH].
    apply keeps_reads, reads_lift.
Qed.

Ltac solve_keeps :=
  repeat first
    [ apply keeps_recv_loop
    | apply keeps_reads; first [apply reads_lift | apply reads_ret | apply reads_gets]
    | apply keeps_bind; [|intros ?] | case_match ].

Lemma keeps_handleSingleResponse o : keeps_sent (handleSingleResponse o).
Proof.
  unfold handleSingleResponse, handleKeyedResponse, recvMsg, recv_exactly, massert,
    mraise_msg, mraise. solve_keeps.
Qed.

(** The vbucket field of a header. *)
Lemma header_vbucket m cmd kl el dt vb bl op cas h rest :
  pack REQ_PKT_FMT [m; cmd; kl; el; dt; vb; bl; op; cas] = Ok h →
  slice 6 8 (h ++ rest) = pack_int true 2 vb.
Proof.
  unfold pack. change (parse_fmt REQ_PKT_FMT) with (Ok (true, header_codes)).
  unfold header_codes. cbn [mbind res_bind pack_codes]. intros H.
  repeat match type of H with
  | context [if code_range ?a ?b ?c then _ else _] =>
      destruct (code_range a b c); [|discriminate H]
  end.
  cbn [mbind res_bind] in H. injection H as <-. done.
Qed.

(** every multi-mutation packet is addressed to vbucket 0, whatever vbucket
    was selected for its key: bytes 6 and 7 of what [_doMultiSdCmd] writes are
    zero. *)
Theorem doMultiSdCmd_vbucket_zero cmd key cmdDict op sc col c :
  sent (snd (doMultiSdCmd cmd key cmdDict op sc col c)) = sent c ∨
  ∃ f, sent (snd (doMultiSdCmd cmd key cmdDict op sc col c)) = sent c ++ f ∧
    slice 6 8 f = [chr 0; chr 0].
Proof.
  unfold doMultiSdCmd. set (draw := if op =? 0 then randint32 else mret op).
  assert (∃ o c1, draw c = (Ok o, c1) ∧ sent c1 = sent c) as (o & c1 & Hd & Hs).
  { unfold draw. destruct (op =? 0); eexists _, _; by split. }
  rewrite (bind_Ok _ _ _ _ _ Hd). rewrite <- Hs. clear Hd Hs draw.
  unfold mbind at 1 3, M_bind at 1 3, lift.
  destruct (multi_sd_body None None [] cmdDict) as [body|e]; [|by left].
  unfold mbind, M_bind.
  destruct (sendMsg_run cmd key body o [] 0 0 0 REQ_PKT_FMT REQ_MAGIC_BYTE sc col [] None c1)
    as [[e He]|(key' & h & Hrun & Hh & _)]; [rewrite He; by left|].
  rewrite Hrun. right.
  exists (h ++ [] ++ key' ++ body ++ []). split; [by rewrite keeps_handleSingleResponse|].
  by rewrite (header_vbucket _ _ _ _ _ _ _ _ _ _ _ Hh).
Qed.
