(* ===== verification/McCommands.v ===== *)
(** * MemcachedClient: the commands

    The public methods of [MemcachedClient] (lib/mc_bin_client.py), each the
    whole method: collection defaults, vbucket selection, extras, the request and
    the parsing of the response.  Keyword defaults are passed explicitly. *)

From S2P Require Import Prelude Py PyStruct Crc32 MemcacheConstants Json McWire.
Local Open Scope string_scope.
Local Open Scope list_scope.
Local Open Scope Z_scope.

(** A response as [_doCmd] returns it: opaque, cas, data. *)
Abbreviation resp := (Z * Z * pystr)%type.
Abbreviation copt := (option collection_arg).
Abbreviation sopt := (option pystr).

(** [_mutate], [_cat] *)
Definition mutate (cmd : Z) (key : pystr) (exp flags cas : Z) (val : pystr)
    (scope : sopt) (collection : copt) : MC resp :=
  ext ← lift (pack SET_PKT_FMT [flags; exp]);
  doCmd cmd key val ext cas scope collection [] None.

Definition cat (cmd : Z) (key : pystr) (cas : Z) (val : pystr)
    (scope : sopt) (collection : copt) : MC resp :=
  '(scope, collection) ← collection_name scope collection;
  doCmd cmd key val [] cas scope collection [] None.

Definition append (key value : pystr) (cas vbucket : Z) (scope : sopt) (collection : copt)
    : MC resp :=
  '(scope, collection) ← collection_name scope collection;
  _ ← set_vbucket key vbucket;
  cat CMD_APPEND key cas value scope collection.

Definition prepend (key value : pystr) (cas vbucket : Z) (scope : sopt) (collection : copt)
    : MC resp :=
  '(scope, collection) ← collection_name scope collection;
  _ ← set_vbucket key vbucket;
  cat CMD_PREPEND key cas value scope collection.

(** ** Counters *)

(** What [incr] and [decr] return: the value and the cas, with the vbucket uuid
    and the sequence number when the server sends them, or [None] when the
    response has another length. *)
Inductive counter_result :=
  | Counter2 (value cas : Z)
  | Counter4 (value cas uuid seqno : Z)
  | CounterNone.

(** [__incrdecr] *)
Definition incrdecr (cmd : Z) (key : pystr) (amt init exp : Z)
    (scope : sopt) (collection : copt) : MC counter_result :=
  '(scope, collection) ← collection_name scope collection;
  ext ← lift (pack INCRDECR_PKT_FMT [amt; init; exp]);
  '(_, cas, val) ← doCmd cmd key [] ext 0 scope collection [] None;
  if len val =? 8 then
    vs ← lift (unpack INCRDECR_RES_FMT val);
    v ← lift (list_get vs 0);
    mret (Counter2 v cas)
  else if len val =? 24 then
    vs ← lift (unpack INCRDECR_RES_WITH_UUID_AND_SEQNO_FMT val);
    v ← lift (list_get vs 2);
    uuid ← lift (list_get vs 0);
    seqno ← lift (list_get vs 1);
    mret (Counter4 v cas uuid seqno)
  else mret CounterNone.

Definition incr (key : pystr) (amt init exp vbucket : Z) (scope : sopt) (collection : copt)
    : MC counter_result :=
  '(scope, collection) ← collection_name scope collection;
  _ ← set_vbucket key vbucket;
  incrdecr CMD_INCR key amt init exp scope collection.

Definition decr (key : pystr) (amt init exp vbucket : Z) (scope : sopt) (collection : copt)
    : MC counter_result :=
  '(scope, collection) ← collection_name scope collection;
  _ ← set_vbucket key vbucket;
  incrdecr CMD_DECR key amt init exp scope collection.

(** ** Writes *)

Definition mc_set (key : pystr) (exp flags : Z) (val : pystr) (vbucket : Z)
    (scope : sopt) (collection : copt) : MC resp :=
  '(scope, collection) ← collection_name scope collection;
  _ ← set_vbucket key vbucket;
  mutate CMD_SET key exp flags 0 val scope collection.

Definition mc_add (key : pystr) (exp flags : Z) (val : pystr) (vbucket : Z)
    (scope : sopt) (collection : copt) : MC resp :=
  '(scope, collection) ← collection_name scope collection;
  _ ← set_vbucket key vbucket;
  mutate CMD_ADD key exp flags 0 val scope collection.

Definition mc_replace (key : pystr) (exp flags : Z) (val : pystr) (vbucket : Z)
    (scope : sopt) (collection : copt) : MC resp :=
  '(scope, collection) ← collection_name scope collection;
  _ ← set_vbucket key vbucket;
  mutate CMD_REPLACE key exp flags 0 val scope collection.

(** [cas]: the result of [_mutate] is dropped. *)
Definition mc_cas (key : pystr) (exp flags oldVal : Z) (val : pystr) (vbucket : Z)
    (scope : sopt) (collection : copt) : MC unit :=
  '(scope, collection) ← collection_name scope collection;
  _ ← set_vbucket key vbucket;
  _ ← mutate CMD_SET key exp flags oldVal val scope collection;
  mret tt.

Definition mc_delete (key : pystr) (cas vbucket : Z) (scope : sopt) (collection : copt)
    : MC resp :=
  '(scope, collection) ← collection_name scope collection;
  _ ← set_vbucket key vbucket;
  doCmd CMD_DELETE key [] [] cas scope collection [] None.

Definition mc_touch (key : pystr) (exp vbucket : Z) (scope : sopt) (collection : copt)
    : MC resp :=
  '(scope, collection) ← collection_name scope collection;
  _ ← set_vbucket key vbucket;
  ext ← lift (pack TOUCH_PKT_FMT [exp]);
  doCmd CMD_TOUCH key [] ext 0 scope collection [] None.

Definition evict_key (key : pystr) (vbucket : Z) (scope : sopt) (collection : copt) : MC resp :=
  '(scope, collection) ← collection_name scope collection;
  _ ← set_vbucket key vbucket;
  doCmd CMD_EVICT_KEY key [] [] 0 scope collection [] None.

(** [send_set]: no response is read. *)
Definition send_set (key : pystr) (exp flags : Z) (val : pystr) (vbucket : Z)
    (scope : sopt) (collection : copt) : MC unit :=
  '(scope, collection) ← collection_name scope collection;
  _ ← set_vbucket key vbucket;
  opaque ← randint32;
  ext ← lift (pack SET_PKT_FMT [flags; exp]);
  sendCmd CMD_SET key val opaque ext 0 scope collection [] None.

(** ** Writes with meta data *)

Definition pack_the_extended_meta_data (adjusted_time conflict_resolution_mode : Z) : res pystr :=
  pack EXTENDED_META_DATA_FMT
    [EXTENDED_META_DATA_VERSION; META_DATA_ID_ADJUSTED_TIME; META_DATA_ID_ADJUSTED_TIME_SIZE;
     adjusted_time; META_DATA_ID_CONFLICT_RESOLUTION_MODE;
     META_DATA_ID_CONFLICT_RESOLUTION_MODE_SIZE; conflict_resolution_mode].

(** [_doMetaCmd]: the expiry argument is overwritten with 0. *)
Definition doMetaCmd (cmd : Z) (key value : pystr) (cas exp flags seqno remote_cas options : Z)
    (scope : sopt) (collection : copt) : MC resp :=
  let exp := 0 in
  extra ← lift (pack ">IIQQI" [flags; exp; seqno; remote_cas; options]);
  '(scope, collection) ← collection_name scope collection;
  doCmd cmd key value extra cas scope collection [] None.

Definition setWithMeta (key value : pystr) (exp flags seqno remote_cas options : Z)
    (scope : sopt) (collection : copt) : MC resp :=
  '(scope, collection) ← collection_name scope collection;
  doMetaCmd CMD_SET_WITH_META key value 0 exp flags seqno remote_cas options scope collection.

Definition setWithMetaInvalid (key value : pystr) (exp flags seqno remote_cas options : Z)
    (scope : sopt) (collection : copt) : MC resp :=
  let exp := 0 in
  '(scope, collection) ← collection_name scope collection;
  extra ← lift (pack ">IIQiI" [flags; exp; seqno; remote_cas; options]);
  doCmd CMD_SET_WITH_META key value extra 0 scope collection [] None.

(** [setWithMetaLWW]: four values for the five fields of [META_EXTRA_FMT]. *)
Definition setWithMetaLWW (key value : pystr) (exp flags cas : Z)
    (scope : sopt) (collection : copt) : MC resp :=
  let SEQNO := 0 in
  '(scope, collection) ← collection_name scope collection;
  _ ← set_vbucket key (-1);
  ext ← lift (pack META_EXTRA_FMT [flags; exp; SEQNO; cas]);
  doCmd CMD_SET_WITH_META key value ext 0 scope collection [] None.

(** [delWithMetaLWW]: memcacheConstants has no name [CMD_DEL_WITH_META]. *)
Definition delWithMetaLWW (key : pystr) (exp flags cas : Z)
    (scope : sopt) (collection : copt) : MC resp :=
  '(scope, collection) ← collection_name scope collection;
  _ ← set_vbucket key (-1);
  mraise AttributeError.

Definition set_with_meta (key : pystr) (exp flags seqno cas : Z) (val : pystr) (vbucket : Z)
    (scope : sopt) (collection : copt) : MC resp :=
  _ ← set_vbucket key vbucket;
  '(scope, collection) ← collection_name scope collection;
  ext ← lift (pack SKIP_META_CMD_FMT [flags; exp; seqno; cas; CR]);
  doCmd CMD_SET_WITH_META key val ext 0 scope collection [] None.

Definition del_with_meta (key : pystr) (exp flags seqno cas vbucket options : Z)
    (scope : sopt) (collection : copt) : MC resp :=
  '(scope, collection) ← collection_name scope collection;
  _ ← set_vbucket key vbucket;
  ext ← lift (pack EXTENDED_META_CMD_FMT [flags; exp; seqno; cas; options; 0]);
  doCmd CMD_DELETE_WITH_META key [] ext 0 scope collection [] None.

(** ** Feature negotiation *)

(** [get_error_map] *)
Definition get_error_map : MC (gmap Z json) :=
  ver ← gets error_map_version;
  val ← lift (pack "!H" [ver]);
  '(_, _, errmap) ← doCmd CMD_GET_ERROR_MAP [] val [] 0 None None [] None;
  lift (v ← json_loads errmap;
        es ← json_get v "errors";
        l ← json_obj es;
        foldr (λ (kv : pystr * json) (acc : res (gmap Z json)),
                 k ← int_of_hex kv.1; d ← acc;
                 Ok (match d !! k with Some _ => d | None => <[k := kv.2]> d end))
              (Ok ∅) l).

(** The two-byte values of the HELLO response. *)
Fixpoint hello_features (fuel : nat) (s : pystr) : res (gset Z) :=
  match s with
  | [] => Ok ∅
  | _ =>
    match fuel with
    | O => Ok ∅
    | S fuel =>
        vs ← unpack ">H" (take 2 s);
        rest ← hello_features fuel (drop 2 s);
        Ok (list_to_set vs ∪ rest)
    end
  end.

(** [hello(feature_flag)] *)
Definition hello (flag : Z) : MC unit :=
  val ← lift (pack ">H" [flag]);
  '(_, _, supported) ← doCmd CMD_HELLO [] val [] 0 None None [] None;
  result ← lift (unpack ">H" supported);
  _ ← modify (λ c, if bool_decide (head result = Some flag)
                   then set_features (feature_flag c) (features c) true (error_map c) c else c);
  fs ← lift (hello_features (length supported) supported);
  _ ← modify (λ c, set_features (feature_flag c) (features c ∪ fs)
                     (collections_supported c) (error_map c) c);
  c ← get;
  if is_xerror_supported c then
    em ← get_error_map;
    modify (λ c, set_features (feature_flag c) (features c) (collections_supported c)
                   (Some em) c)
  else mret tt.

Definition enable_xerror : MC unit :=
  modify (λ c, set_features (feature_flag c ∪ {[FEATURE_XERROR]}) (features c)
                 (collections_supported c) (error_map c) c).
Definition enable_collections : MC unit :=
  modify (λ c, set_features (feature_flag c ∪ {[FEATURE_COLLECTIONS]}) (features c)
                 (collections_supported c) (error_map c) c).

(** ** Observe *)

(** [bytes([c])] of Python 2, the text of a one-element list: [['c']], with
    the escapes of [repr]. *)
Definition repr_char (c : ascii) : pystr :=
  let n := ord c in
  let hex := (λ d, if d <? 10 then chr (48 + d) else chr (87 + d)) in
  if n =? 10 then py "'\n'" else if n =? 13 then py "'\r'" else if n =? 9 then py "'\t'"
  else if n =? 92 then py "'\\'"
  else if n =? 39 then [chr 34; c; chr 34]
  else if (32 <=? n) && (n <? 127) then [chr 39; c; chr 39]
  else py "'\x" ++ [hex (n / 16); hex (n mod 16)] ++ py "'".
Definition bytes_of_list1 (c : ascii) : pystr := py "[" ++ repr_char c ++ py "]".

(** [observe]: opaque, replication time, persistence time, persisted flags and
    cas. *)
Definition observe (key : pystr) (vbucket : Z) (scope : sopt) (collection : copt)
    : MC (Z * Z * Z * list Z * Z) :=
  '(scope, collection) ← collection_name scope collection;
  _ ← set_vbucket key vbucket;
  key ← lift (encode_ascii key);
  vb ← gets vbucketId;
  hd ← lift (pack ">HH" [vb; len key]);
  '(opaque, cas, data) ← doCmd CMD_OBSERVE [] (hd ++ key) [] 0 scope collection [] None;
  let rep_time := Z.land cas 0xFFFFFFFF in
  let persist_time := Z.land (Z.shiftr cas 32) 0xFFFFFFFF in
  ch ← lift (list_get data (4 + length key));
  persisted ← lift (unpack ">B" (bytes_of_list1 ch));
  mret (opaque, rep_time, persist_time, persisted, cas).

(** The first (and only) value of an [unpack]. *)
Definition unpack1 (fmt : string) (s : pystr) : res Z :=
  vs ← unpack fmt s; list_get vs 0.

Record observe_seqno_result := ObserveSeqno {
  os_opaque : Z; os_format : Z; os_vbucket : Z; os_uuid : Z;
  os_persisted : Z; os_current : Z; os_old_uuid : option Z; os_received : option Z
}.

Definition observe_seqno (key : pystr) (vbucket_uuid vbucket : Z)
    (scope : sopt) (collection : copt) : MC observe_seqno_result :=
  '(scope, collection) ← collection_name scope collection;
  _ ← set_vbucket key vbucket;
  value ← lift (pack ">Q" [vbucket_uuid]);
  '(opaque, cas, data) ← doCmd CMD_OBSERVE_SEQNO [] value [] 0 scope collection [] None;
  d0 ← lift (list_get data 0);
  format_type ← lift (unpack1 ">B" [d0]);
  vbucket_id ← lift (unpack1 ">H" (slice 1 3 data));
  uuid ← lift (unpack1 ">Q" (slice 3 11 data));
  persisted ← lift (unpack1 ">Q" (slice 11 19 data));
  current ← lift (unpack1 ">Q" (slice 19 27 data));
  if format_type =? 1 then
    old ← lift (unpack1 ">Q" (slice 27 35 data));
    last ← lift (unpack1 ">Q" (slice 35 43 data));
    mret (ObserveSeqno opaque format_type vbucket_id uuid persisted current (Some old) (Some last))
  else
    mret (ObserveSeqno opaque format_type vbucket_id uuid persisted current None None).

(** ** Reads *)

(** [__parseGet(data, klen)]: flags, cas and value. *)
Definition parseGet (d : resp) (klen : Z) : res (Z * Z * pystr) :=
  let '(_, cas, body) := d in
  flags ← unpack1 GET_RES_FMT (take 4 body);
  if klen =? 0 then Ok (flags, cas, drop 4 body)
  else Ok (flags, cas, "{"%char :: default [] (last (split_on "{"%char body))).

Definition mc_get (key : pystr) (vbucket : Z) (scope : sopt) (collection : copt)
    : MC (Z * Z * pystr) :=
  '(scope, collection) ← collection_name scope collection;
  _ ← set_vbucket key vbucket;
  parts ← doCmd CMD_GET key [] [] 0 scope collection [] None;
  lift (parseGet parts 0).

(** [send_get] passes [scope] and [collection] where [_sendCmd] expects
    [extraHeader] and [cas]. *)
Definition send_get (key : pystr) (vbucket : Z) (scope : sopt) (collection : copt) : MC unit :=
  '(scope, collection) ← collection_name scope collection;
  _ ← set_vbucket key vbucket;
  opaque ← randint32;
  match scope with
  | None => mraise TypeError                 (* len(None) *)
  | Some extraHeader =>
      match collection with
      | Some (CId cas) => sendCmd CMD_GET key [] opaque extraHeader cas None None [] None
      | _ => mraise StructError              (* struct.pack of a str or None *)
      end
  end.

Definition getl (key : pystr) (exp vbucket : Z) (scope : sopt) (collection : copt)
    : MC (Z * Z * pystr) :=
  _ ← set_vbucket key vbucket;
  ext ← lift (pack GETL_PKT_FMT [exp]);
  parts ← doCmd CMD_GET_LOCKED key [] ext 0 scope collection [] None;
  lift (parseGet parts 0).

Definition getr (key : pystr) (vbucket : Z) (scope : sopt) (collection : copt)
    : MC (Z * Z * pystr) :=
  '(scope, collection) ← collection_name scope collection;
  _ ← set_vbucket key vbucket;
  parts ← doCmd CMD_GET_REPLICA key [] [] 0 scope collection [] None;
  lift (parseGet parts (len key)).

Definition gat (key : pystr) (exp vbucket : Z) (scope : sopt) (collection : copt)
    : MC (Z * Z * pystr) :=
  '(scope, collection) ← collection_name scope collection;
  _ ← set_vbucket key vbucket;
  ext ← lift (pack GAT_PKT_FMT [exp]);
  parts ← doCmd CMD_GAT key [] ext 0 scope collection [] None;
  lift (parseGet parts 0).

(** [getMeta]: deleted, flags, exp, seqno, cas and, when asked for, the
    conflict resolution mode. *)
Definition getMeta (key : pystr) (request_extended_meta_data : bool)
    (scope : sopt) (collection : copt) : MC (Z * Z * Z * Z * Z * option Z) :=
  '(scope, collection) ← collection_name scope collection;
  _ ← set_vbucket key (-1);
  extras ← lift (if request_extended_meta_data then pack ">B" [1] else Ok []);
  '(opaque, cas, data) ← doCmd CMD_GET_META key [] extras 0 scope collection [] None;
  deleted ← lift (unpack1 ">I" (slice 0 4 data));
  flags ← lift (unpack1 ">I" (slice 4 8 data));
  exp ← lift (unpack1 ">I" (slice 8 12 data));
  seqno ← lift (unpack1 ">Q" (slice 12 20 data));
  if request_extended_meta_data then
    conflict_res ← lift (unpack1 ">B" (slice 20 21 data));
    mret (deleted, flags, exp, seqno, cas, Some conflict_res)
  else mret (deleted, flags, exp, seqno, cas, None).

(** ** Time synchronisation *)

Definition get_adjusted_time (vbucket : Z) (scope : sopt) (collection : copt) : MC resp :=
  '(scope, collection) ← collection_name scope collection;
  _ ← modify (set_vbucketId vbucket);
  doCmd CMD_GET_ADJUSTED_TIME [] [] [] 0 scope collection [] None.

Definition set_time_drift_counter_state (vbucket drift state : Z)
    (scope : sopt) (collection : copt) : MC resp :=
  '(scope, collection) ← collection_name scope collection;
  _ ← modify (set_vbucketId vbucket);
  extras ← lift (pack SET_DRIFT_COUNTER_STATE_REQ_FMT [drift; state]);
  doCmd CMD_SET_DRIFT_COUNTER_STATE [] [] extras 0 scope collection [] None.

Definition set_time_sync_state (vbucket state : Z) (scope : sopt) (collection : copt)
    : MC resp :=
  '(scope, collection) ← collection_name scope collection;
  _ ← modify (set_vbucketId vbucket);
  extras ← lift (pack SET_DRIFT_COUNTER_STATE_REQ_FMT [0; state]);
  doCmd CMD_SET_DRIFT_COUNTER_STATE [] [] extras 0 scope collection [] None.

(** ** Authentication and administration *)

(** A command with neither key, value nor extras. *)
Definition doCmd0 (cmd : Z) : MC resp := doCmd cmd [] [] [] 0 None None [] None.

Definition version : MC resp := doCmd0 CMD_VERSION.

Definition sasl_mechanisms : MC (gset pystr) :=
  '(_, _, data) ← doCmd0 CMD_SASL_LIST_MECHS;
  mret (list_to_set (split_on " "%char data)).

Definition sasl_auth_start (mech data : pystr) : MC resp :=
  doCmd CMD_SASL_AUTH mech data [] 0 None None [] None.

Definition sasl_auth_plain (user password foruser : pystr) : MC resp :=
  sasl_auth_start (py "PLAIN") (join [chr 0] [foruser; user; password]).

Definition stop_persistence : MC resp := doCmd0 CMD_STOP_PERSISTENCE.
Definition start_persistence : MC resp := doCmd0 CMD_START_PERSISTENCE.

Definition set_flush_param (key val : pystr) : MC resp :=
  doCmd CMD_SET_FLUSH_PARAM key val [] 0 None None [] None.

Definition set_param (key val : pystr) (type : Z) : MC resp :=
  type ← lift (pack GET_RES_FMT [type]);
  doCmd CMD_SET_FLUSH_PARAM key val type 0 None None [] None.

Definition start_onlineupdate : MC resp := doCmd0 CMD_START_ONLINEUPDATE.
Definition complete_onlineupdate : MC resp := doCmd0 CMD_COMPLETE_ONLINEUPDATE.
Definition revert_onlineupdate : MC resp := doCmd0 CMD_REVERT_ONLINEUPDATE.

Definition set_tap_param (key val : pystr) : MC resp :=
  doCmd CMD_SET_TAP_PARAM key val [] 0 None None [] None.

Definition set_vbucket_state (vbucket : Z) (stateName : pystr) : MC resp :=
  _ ← modify (set_vbucketId vbucket);
  st ← lift (dict_get VB_STATE_NAMES stateName);
  state ← lift (pack VB_SET_PKT_FMT [st]);
  doCmd CMD_SET_VBUCKET_STATE [] [] state 0 None None [] None.

Definition get_vbucket_state (vbucket : Z) : MC resp :=
  _ ← modify (set_vbucketId vbucket);
  doCmd0 CMD_GET_VBUCKET_STATE.

Definition delete_vbucket (vbucket : Z) : MC resp :=
  _ ← modify (set_vbucketId vbucket);
  doCmd0 CMD_DELETE_VBUCKET.

Definition noop : MC resp := doCmd0 CMD_NOOP.

Definition flush (timebomb : Z) : MC resp :=
  ext ← lift (pack FLUSH_PKT_FMT [timebomb]);
  doCmd CMD_FLUSH [] [] ext 0 None None [] None.

Definition bucket_select (name : pystr) : MC resp :=
  doCmd CMD_SELECT_BUCKET name [] [] 0 None None [] None.

Definition restore_file (filename : pystr) : MC resp :=
  doCmd CMD_RESTORE_FILE filename [] [] 0 None None [] None.
Definition restore_complete : MC resp := doCmd0 CMD_RESTORE_COMPLETE.
Definition deregister_tap_client (tap_name : pystr) : MC resp :=
  doCmd CMD_DEREGISTER_TAP_CLIENT tap_name [] [] 0 None None [] None.
Definition reset_replication_chain : MC resp := doCmd0 CMD_RESET_REPLICATION_CHAIN.

Definition get_config : MC resp := doCmd0 CMD_GET_CLUSTER_CONFIG.
Definition set_config (blob_conf : pystr) : MC resp :=
  doCmd CMD_SET_CLUSTER_CONFIG blob_conf [] [] 0 None None [] None.

Definition list_buckets : MC (list pystr) :=
  '(_, _, data) ← doCmd0 CMD_LIST_BUCKETS;
  mret (split_on " "%char (strip data)).

(** ** Batches *)

(** The responses of one vbucket, up to the one with the terminal opaque.  Every
    response takes at least a header from the inbox, so its size is enough fuel. *)
Definition inbox_size (c : client) : nat := length (concat (inbox c)).

Fixpoint getMulti_drain (fuel : nat) (opaqued : list pystr) (terminal : Z)
    (rv : gmap pystr (Z * Z * pystr)) : MC (gmap pystr (Z * Z * pystr)) :=
  match fuel with
  | O => mraise RuntimeError
  | S fuel =>
      '(opaque, cas, data) ← handleSingleResponse None;
      if negb (opaque =? terminal) then
        key ← lift (of_option KeyError
                      (if opaque <? 0 then None else opaqued !! Z.to_nat opaque));
        item ← lift (parseGet (opaque, cas, data) 0);
        getMulti_drain fuel opaqued terminal (<[key := item]> rv)
      else mret rv
  end.

Fixpoint getMulti_handle (vbs : list Z) (opaqued : list pystr) (terminal : Z)
    (rv : gmap pystr (Z * Z * pystr)) : MC (gmap pystr (Z * Z * pystr)) :=
  match vbs with
  | [] => mret rv
  | vb :: vbs =>
      _ ← modify (set_vbucketId vb);
      n ← gets inbox_size;
      rv ← getMulti_drain (S n) opaqued terminal rv;
      getMulti_handle vbs opaqued terminal rv
  end.

(** The quiet requests, numbered from [k] by their opaque; returns the set of
    vbuckets addressed. *)
Fixpoint getMulti_send (k : Z) (keys : list pystr) (vbucket : Z)
    (scope : sopt) (collection : copt) (vbs : gset Z) : MC (gset Z) :=
  match keys with
  | [] => mret vbs
  | v :: keys =>
      _ ← set_vbucket v vbucket;
      vb ← gets vbucketId;
      _ ← sendCmd CMD_GETQ v [] k [] 0 scope collection [] None;
      getMulti_send (k + 1) keys vbucket scope collection ({[vb]} ∪ vbs)
  end.

Definition send_noops (vbs : list Z) (terminal : Z) : MC unit :=
  mfor vbs (λ vb, _ ← modify (set_vbucketId vb);
                  sendCmd CMD_NOOP [] [] terminal [] 0 None None [] None).

(** [getMulti]: the vbuckets are visited in the order of [elements]. *)
Definition getMulti (keys : list pystr) (vbucket : Z) (scope : sopt) (collection : copt)
    : MC (gmap pystr (Z * Z * pystr)) :=
  '(scope, collection) ← collection_name scope collection;
  let terminal := len keys + 10 in
  vbs ← getMulti_send 0 keys vbucket scope collection ∅;
  _ ← send_noops (elements vbs) terminal;
  getMulti_handle (elements vbs) keys terminal ∅.

Fixpoint setMulti_send (k : Z) (items : list (pystr * pystr)) (extra : pystr) (vbucket : Z)
    (scope : sopt) (collection : copt) (vbs : gset Z) : MC (gset Z) :=
  match items with
  | [] => mret vbs
  | (key, val) :: items =>
      _ ← set_vbucket key vbucket;
      vb ← gets vbucketId;
      _ ← sendCmd CMD_SETQ key val k extra 0 scope collection [] None;
      setMulti_send (k + 1) items extra vbucket scope collection ({[vb]} ∪ vbs)
  end.

(** Collect the [MemcachedError]s of one vbucket; any other exception
    propagates. *)
Fixpoint setMulti_drain (fuel : nat) (terminal : Z) (failed : list pyexn) : MC (list pyexn) :=
  match fuel with
  | O => mraise RuntimeError
  | S fuel => λ c,
      match handleSingleResponse None c with
      | (Ok (opaque, _, _), c') =>
          if opaque =? terminal then (Ok failed, c')
          else setMulti_drain fuel terminal failed c'
      | (Err (Exn (MemcachedError st) m), c') =>
          setMulti_drain fuel terminal (failed ++ [Exn (MemcachedError st) m]) c'
      | (Err e, c') => (Err e, c')
      end
  end.

Fixpoint setMulti_handle (vbs : list Z) (terminal : Z) (failed : list pyexn) : MC (list pyexn) :=
  match vbs with
  | [] => mret failed
  | vb :: vbs =>
      _ ← modify (set_vbucketId vb);
      n ← gets inbox_size;
      failed ← setMulti_drain (S n) terminal failed;
      setMulti_handle vbs terminal failed
  end.

Definition setMulti (exp flags : Z) (items : list (pystr * pystr)) (vbucket : Z)
    (scope : sopt) (collection : copt) : MC (list pyexn) :=
  '(scope, collection) ← collection_name scope collection;
  let terminal := len items + 10 in
  extra ← lift (pack SET_PKT_FMT [flags; exp]);
  vbs ← setMulti_send 0 items extra vbucket scope collection ∅;
  _ ← send_noops (elements vbs) terminal;
  setMulti_handle (elements vbs) terminal [].

(** [stats]: key/value responses until one without a key. *)
Fixpoint stats_drain (fuel : nat) (rv : gmap pystr pystr) : MC (gmap pystr pystr) :=
  match fuel with
  | O => mraise RuntimeError
  | S fuel =>
      r ← handleKeyedResponse None;
      if negb (r_keylen r =? 0) then
        let n := Z.to_nat (r_keylen r) in
        k ← lift (encode_ascii (take n (r_body r)));
        v ← lift (encode_ascii (drop n (r_body r)));
        stats_drain fuel (<[k := v]> rv)
      else mret rv
  end.

Definition stats (sub : pystr) : MC (gmap pystr pystr) :=
  opaque ← randint32;
  _ ← sendCmd CMD_STAT sub [] opaque [] 0 None None [] None;
  n ← gets inbox_size;
  stats_drain (S n) ∅.

(** ** Sync *)

(** A key specification: the dictionary may lack its fields. *)
Record keyspec := KeySpec {
  ks_cas : option Z; ks_vbucket : option Z; ks_key : option pystr
}.

Fixpoint sync_specs (specs : list keyspec) : res pystr :=
  match specs with
  | [] => Ok []
  | sp :: specs =>
      vb ← of_option TypeError (ks_vbucket sp);
      key ← of_option TypeError (ks_key sp);
      a ← pack ">Q" [default 0 (ks_cas sp)];
      b ← pack ">H" [vb];
      d ← pack ">H" [len key];
      rest ← sync_specs specs;
      Ok (a ++ b ++ d ++ key ++ rest)
  end.

(** [_build_sync_payload] *)
Definition build_sync_payload (flags : Z) (keyspecs : list keyspec) : res pystr :=
  a ← pack ">I" [flags];
  b ← pack ">H" [len keyspecs];
  rest ← sync_specs keyspecs;
  Ok (a ++ b ++ rest).

Inductive sync_event := EvName (s : string) | EvId (n : Z).
Record sync_spec := SyncSpec {
  sp_cas : Z; sp_vbucket : Z; sp_key : pystr; sp_event : sync_event
}.

(** The event of a response.  The test for event 6 reads [spec['event']], which
    is not set yet, so an id that is not 1 to 5 raises [KeyError]. *)
Definition sync_event_of (eventid : Z) : res sync_event :=
  if eventid =? CMD_SYNC_EVENT_PERSISTED then Ok (EvName "persisted")
  else if eventid =? CMD_SYNC_EVENT_MODIFED then Ok (EvName "modified")
  else if eventid =? CMD_SYNC_EVENT_DELETED then Ok (EvName "deleted")
  else if eventid =? CMD_SYNC_EVENT_REPLICATED then Ok (EvName "replicated")
  else if eventid =? CMD_SYNC_INVALID_KEY then Ok (EvName "invalid key")
  else raise KeyError.

Fixpoint parse_sync_specs (n : nat) (data : pystr) : res (list sync_spec) :=
  match n with
  | O => Ok []
  | S n =>
      vs ← unpack ">QHHB" (take 13 data);
      match vs with
      | [cas; vb; keylen; eventid] =>
          let kl := Z.to_nat keylen in
          let key := take kl (drop 13 data) in
          ev ← sync_event_of eventid;
          rest ← parse_sync_specs n (drop (13 + kl) data);
          Ok (SyncSpec cas vb key ev :: rest)
      | _ => raise ValueError
      end
  end.

(** [_parse_sync_response] *)
Definition parse_sync_response (data : pystr) : res (list sync_spec) :=
  nkeys ← unpack1 ">H" (take 2 data);
  parse_sync_specs (Z.to_nat nkeys) (drop 2 data).

Definition do_sync (flags : Z) (keyspecs : list keyspec) : MC (Z * Z * list sync_spec) :=
  payload ← lift (build_sync_payload flags keyspecs);
  '(opaque, cas, data) ← doCmd CMD_SYNC [] payload [] 0 None None [] None;
  specs ← lift (parse_sync_response data);
  mret (opaque, cas, specs).

Definition sync_persistence := do_sync 0x8.
Definition sync_mutation := do_sync 0x4.
Definition sync_replication (keyspecs : list keyspec) (numReplicas : Z) :=
  do_sync (Z.shiftl (Z.land numReplicas 0x0f) 4) keyspecs.
Definition sync_replication_or_persistence (keyspecs : list keyspec) (numReplicas : Z) :=
  do_sync (Z.lor (Z.shiftl (Z.land numReplicas 0x0f) 4) 0x8) keyspecs.
Definition sync_replication_and_persistence (keyspecs : list keyspec) (numReplicas : Z) :=
  do_sync (Z.lor (Z.shiftl (Z.land numReplicas 0x0f) 4) 0xA) keyspecs.

(** ** Subdocument operations *)

Definition get_sd (key path : pystr) (cas vbucket : Z) (scope : sopt) (collection : copt) :=
  _ ← set_vbucket key vbucket;
  doSdCmd CMD_SUBDOC_GET key path None 0 0 cas false scope collection.

Definition exists_sd (key path : pystr) (opaque cas vbucket : Z)
    (scope : sopt) (collection : copt) :=
  _ ← set_vbucket key vbucket;
  doSdCmd CMD_SUBDOC_EXISTS key path None 0 opaque cas false scope collection.

(** The subdocument mutations differ in their opcode only. *)
Definition sd_mutation (cmd : Z) (key path : pystr) (value : sd_value) (expiry opaque cas : Z)
    (create : bool) (vbucket : Z) (scope : sopt) (collection : copt) : MC resp :=
  _ ← set_vbucket key vbucket;
  doSdCmd cmd key path (Some value) expiry opaque cas create scope collection.

Definition dict_add_sd := sd_mutation CMD_SUBDOC_DICT_ADD.
Definition dict_upsert_sd := sd_mutation CMD_SUBDOC_DICT_UPSERT.
Definition replace_sd := sd_mutation CMD_SUBDOC_REPLACE.
Definition array_push_last_sd := sd_mutation CMD_SUBDOC_ARRAY_PUSH_LAST.
Definition array_push_first_sd := sd_mutation CMD_SUBDOC_ARRAY_PUSH_FIRST.
Definition array_add_unique_sd := sd_mutation CMD_SUBDOC_ARRAY_ADD_UNIQUE.
Definition array_add_insert_sd := sd_mutation CMD_SUBDOC_ARRAY_INSERT.
Definition counter_sd := sd_mutation CMD_SUBDOC_COUNTER.

Definition delete_sd (key path : pystr) (opaque cas vbucket : Z)
    (scope : sopt) (collection : copt) : MC resp :=
  _ ← set_vbucket key vbucket;
  doSdCmd CMD_SUBDOC_DELETE key path None 0 opaque cas false scope collection.

Definition multi_mutation_sd (key : pystr) (cmdDict : list (pystr * sd_spec)) (opaque vbucket : Z)
    (scope : sopt) (collection : copt) : MC resp :=
  _ ← set_vbucket key vbucket;
  doMultiSdCmd CMD_SUBDOC_MULTI_MUTATION key cmdDict opaque scope collection.

(** [multi_lookup_sd] passes its arguments by position one place off: [expiry]
    lands in [val], [opaque] in [expiry], [cas] in [opaque] and [create] in
    [cas]. *)
Definition multi_lookup_sd (key path : pystr) (expiry opaque cas : Z) (create : bool)
    (vbucket : Z) (scope : sopt) (collection : copt) : MC resp :=
  _ ← set_vbucket key vbucket;
  doSdCmd CMD_SUBDOC_MULTI_LOOKUP key path (Some (SVInt expiry)) opaque cas
          (if create then 1 else 0) false scope collection.

(** ** Collections *)

(** [_update_collection_map]: the loop over the collections of one scope; a
    [KeyError] ends it. *)
Fixpoint update_scope (sname : res pystr) (cols : list json)
    (m : gmap pystr (gmap pystr Z)) : res unit * gmap pystr (gmap pystr Z) :=
  match cols with
  | [] => (Ok tt, m)
  | col :: cols =>
      let assign :=
        uid ← json_get col "uid"; uid ← json_str uid; v ← int_of_hex uid;
        sn ← sname;
        sm ← dict_get m sn;
        cn ← json_get col "name"; cn ← json_str cn;
        Ok (<[sn := <[cn := v]> sm]> m) in
      match assign with
      | Ok m => update_scope sname cols m
      | Err e => (Err e, m)
      end
  end.

Fixpoint update_scopes (scopes : list json) (m : gmap pystr (gmap pystr Z))
    : res unit * gmap pystr (gmap pystr Z) :=
  match scopes with
  | [] => (Ok tt, m)
  | sc :: scopes =>
      let '(r, m) :=
        match json_get sc "collections" ≫= json_list with
        | Ok cols => update_scope (json_get sc "name" ≫= json_str) cols m
        | Err e => (Err e, m)
        end in
      match r with
      | Ok _ => update_scopes scopes m
      | Err e => if bool_decide (exn_cls e = KeyError) then update_scopes scopes m
                 else (Err e, m)
      end
  end.

Definition update_collection_map (manifest : pystr) : MC unit := λ c,
  match json_loads manifest ≫= λ v, json_get v "scopes" ≫= json_list with
  | Ok scopes =>
      let '(r, m) := update_scopes scopes (collection_map c) in (r, set_collection_map m c)
  | Err e => (Err e, c)
  end.

Definition set_collections (manifest : pystr) : MC unit :=
  _ ← doCmd CMD_COLLECTIONS_SET_MANIFEST [] manifest [] 0 None None [] None;
  update_collection_map manifest.

Definition get_collections (update_map : bool) : MC (option resp) :=
  sup ← gets collections_supported;
  if sup : bool then
    rv ← doCmd CMD_COLLECTIONS_GET_MANIFEST [] [] [] 0 None None [] None;
    _ ← (if update_map then update_collection_map rv.2 else mret tt);
    mret (Some rv)
  else mret None.

(** ** Error names *)

Definition error_to_str (errno : Z) : option string :=
  if errno =? 0x01 then Some "Not found"
  else if errno =? 0x02 then Some "Exists"
  else if errno =? 0x03 then Some "Too big"
  else if errno =? 0x04 then Some "Invalid"
  else if errno =? 0x05 then Some "Not stored"
  else if errno =? 0x06 then Some "Bad Delta"
  else if errno =? 0x07 then Some "Not my vbucket"
  else if errno =? 0x08 then Some "No bucket"
  else if errno =? 0x1f then Some "Auth stale"
  else if errno =? 0x20 then Some "Auth error"
  else if errno =? 0x21 then Some "Auth continue"
  else if errno =? 0x22 then Some "Outside legal range"
  else if errno =? 0x23 then Some "Rollback"
  else if errno =? 0x24 then Some "No access"
  else if errno =? 0x25 then Some "Not initialized"
  else if errno =? 0x81 then Some "Unknown Command"
  else if errno =? 0x82 then Some "No Memory"
  else if errno =? 0x83 then Some "Not Supported"
  else if errno =? 0x84 then Some "Internal error"
  else if errno =? 0x85 then Some "Busy"
  else if errno =? 0x86 then Some "Temporary failure"
  else if errno =? ERR_SUBDOC_PATH_ENOENT then Some "Path not exists"
  else if errno =? ERR_SUBDOC_PATH_MISMATCH then Some "Path mismatch"
  else if errno =? ERR_SUBDOC_PATH_EEXISTS then Some "Path exists already"
  else if errno =? ERR_SUBDOC_PATH_EINVAL then Some "Invalid path"
  else if errno =? ERR_SUBDOC_PATH_E2BIG then Some "Path too big"
  else if errno =? ERR_SUBDOC_VALUE_CANTINSERT then Some "Cant insert"
  else if errno =? ERR_SUBDOC_DOC_NOTJSON then Some "Not json"
  else if errno =? ERR_SUBDOC_NUM_ERANGE then Some "Num out of range"
  else if errno =? ERR_SUBDOC_DELTA_ERANGE then Some "Delta out of range"
  else if errno =? ERR_SUBDOC_DOC_ETOODEEP then Some "Doc too deep"
  else if errno =? ERR_SUBDOC_VALUE_TOODEEP then Some "Value too deep"
  else if errno =? ERR_SUBDOC_INVALID_CMD_COMBO then Some "Invalid combinations of commands"
  else if errno =? ERR_SUBDOC_MULTI_PATH_FAILURE
       then Some "Specified key was successfully found, but one or more path operations failed"
  else None.

(** ** The client as a state machine *)

(** The public methods. *)
Inductive public : ∀ A, MC A → Prop :=
  | pub_append k v cas vb s c : public _ (append k v cas vb s c)
  | pub_prepend k v cas vb s c : public _ (prepend k v cas vb s c)
  | pub_incr k a i e vb s c : public _ (incr k a i e vb s c)
  | pub_decr k a i e vb s c : public _ (decr k a i e vb s c)
  | pub_set k e f v vb s c : public _ (mc_set k e f v vb s c)
  | pub_add k e f v vb s c : public _ (mc_add k e f v vb s c)
  | pub_replace k e f v vb s c : public _ (mc_replace k e f v vb s c)
  | pub_cas k e f o v vb s c : public _ (mc_cas k e f o v vb s c)
  | pub_delete k cas vb s c : public _ (mc_delete k cas vb s c)
  | pub_touch k e vb s c : public _ (mc_touch k e vb s c)
  | pub_evict k vb s c : public _ (evict_key k vb s c)
  | pub_send_set k e f v vb s c : public _ (send_set k e f v vb s c)
  | pub_setWithMeta k v e f sq rc o s c : public _ (setWithMeta k v e f sq rc o s c)
  | pub_setWithMetaInvalid k v e f sq rc o s c :
      public _ (setWithMetaInvalid k v e f sq rc o s c)
  | pub_setWithMetaLWW k v e f cas s c : public _ (setWithMetaLWW k v e f cas s c)
  | pub_delWithMetaLWW k e f cas s c : public _ (delWithMetaLWW k e f cas s c)
  | pub_set_with_meta k e f sq cas v vb s c : public _ (set_with_meta k e f sq cas v vb s c)
  | pub_del_with_meta k e f sq cas vb o s c : public _ (del_with_meta k e f sq cas vb o s c)
  | pub_hello f : public _ (hello f)
  | pub_enable_xerror : public _ enable_xerror
  | pub_enable_collections : public _ enable_collections
  | pub_observe k vb s c : public _ (observe k vb s c)
  | pub_observe_seqno k u vb s c : public _ (observe_seqno k u vb s c)
  | pub_get k vb s c : public _ (mc_get k vb s c)
  | pub_send_get k vb s c : public _ (send_get k vb s c)
  | pub_getl k e vb s c : public _ (getl k e vb s c)
  | pub_getr k vb s c : public _ (getr k vb s c)
  | pub_gat k e vb s c : public _ (gat k e vb s c)
  | pub_getMeta k x s c : public _ (getMeta k x s c)
  | pub_get_adjusted_time vb s c : public _ (get_adjusted_time vb s c)
  | pub_drift vb d st s c : public _ (set_time_drift_counter_state vb d st s c)
  | pub_sync_state vb st s c : public _ (set_time_sync_state vb st s c)
  | pub_cmd0 cmd : public _ (doCmd0 cmd)
  | pub_sasl_mechanisms : public _ sasl_mechanisms
  | pub_sasl_plain u p f : public _ (sasl_auth_plain u p f)
  | pub_set_flush_param k v : public _ (set_flush_param k v)
  | pub_set_param k v t : public _ (set_param k v t)
  | pub_set_tap_param k v : public _ (set_tap_param k v)
  | pub_set_vbucket_state vb st : public _ (set_vbucket_state vb st)
  | pub_get_vbucket_state vb : public _ (get_vbucket_state vb)
  | pub_delete_vbucket vb : public _ (delete_vbucket vb)
  | pub_flush t : public _ (flush t)
  | pub_bucket_select n : public _ (bucket_select n)
  | pub_restore_file f : public _ (restore_file f)
  | pub_deregister t : public _ (deregister_tap_client t)
  | pub_set_config b : public _ (set_config b)
  | pub_list_buckets : public _ list_buckets
  | pub_getMulti ks vb s c : public _ (getMulti ks vb s c)
  | pub_setMulti e f kvs vb s c : public _ (setMulti e f kvs vb s c)
  | pub_stats sub : public _ (stats sub)
  | pub_sync fl ks : public _ (do_sync fl ks)
  | pub_get_sd k p cas vb s c : public _ (get_sd k p cas vb s c)
  | pub_exists_sd k p o cas vb s c : public _ (exists_sd k p o cas vb s c)
  | pub_sd_mutation cmd k p v e o cas cr vb s c :
      public _ (sd_mutation cmd k p v e o cas cr vb s c)
  | pub_delete_sd k p o cas vb s c : public _ (delete_sd k p o cas vb s c)
  | pub_multi_mutation k d o vb s c : public _ (multi_mutation_sd k d o vb s c)
  | pub_multi_lookup k p e o cas cr vb s c : public _ (multi_lookup_sd k p e o cas cr vb s c)
  | pub_set_collections m : public _ (set_collections m)
  | pub_get_collections u : public _ (get_collections u).

(** One call on the client, whatever it returns or raises. *)
Inductive api_step : client → client → Prop :=
  | api_call A (m : MC A) c : public A m → api_step c (snd (m c)).

(** A client some program can hold. *)
Definition reachable (c : client) : Prop :=
  ∃ chs r, rtc api_step (new_client chs r) c.

(** ** Proofs: the collection map *)

Definition no_collections (c : client) : Prop := collection_map c = ∅.
Abbreviation cminv := (minv no_collections).

Lemma cm_recv n : cminv (recv n).
Proof. intros c Hc. unfold recv. by repeat case_match. Qed.
Lemma cm_recv_loop fuel n acc : cminv (recv_loop fuel n acc).
Proof.
  revert n acc. induction fuel as [|fuel IH]; intros [|n] acc; cbn [recv_loop];
    auto with taf; [apply minv_lift|].
  apply minv_bind; [apply cm_recv|]. intros d. case_bool_decide; [apply minv_lift|apply IH].
Qed.
#[local] Hint Resolve cm_recv_loop : taf.

Lemma cm_randint32 : cminv randint32.
Proof. by intros c Hc. Qed.
Lemma cm_handleKeyedResponse o : cminv (handleKeyedResponse o).
Proof.
  unfold handleKeyedResponse, recvMsg, recv_exactly, massert, mraise_msg, mraise. solve_minv.
Qed.
#[local] Hint Resolve cm_randint32 cm_handleKeyedResponse : taf.
Lemma cm_handleSingleResponse o : cminv (handleSingleResponse o).
Proof. unfold handleSingleResponse. solve_minv. Qed.
Lemma cm_sendMsg cmd k v o e cas dt vb fmt mg s c em el :
  cminv (sendMsg cmd k v o e cas dt vb fmt mg s c em el).
Proof.
  intros cl Hc.
  destruct (sendMsg_run cmd k v o e cas dt vb fmt mg s c em el cl)
    as [[x ->]|(k' & h & -> & _)]; done.
Qed.
#[local] Hint Resolve cm_handleSingleResponse cm_sendMsg : taf.
Lemma cm_sendCmd cmd k v o e cas s c em el : cminv (sendCmd cmd k v o e cas s c em el).
Proof. unfold sendCmd. solve_minv. Qed.
#[local] Hint Resolve cm_sendCmd : taf.
Lemma cm_doCmd cmd k v e cas s c em el : cminv (doCmd cmd k v e cas s c em el).
Proof. unfold doCmd. solve_minv. Qed.
Lemma cm_doSdCmd cmd k p v e o cas cr s c : cminv (doSdCmd cmd k p v e o cas cr s c).
Proof. unfold doSdCmd. solve_minv. Qed.
Lemma cm_doMultiSdCmd cmd k d o s c : cminv (doMultiSdCmd cmd k d o s c).
Proof. unfold doMultiSdCmd. solve_minv. Qed.
Lemma cm_set_vbucketId v c : no_collections c → no_collections (set_vbucketId v c).
Proof. done. Qed.
#[local] Hint Resolve cm_doCmd cm_doSdCmd cm_doMultiSdCmd cm_set_vbucketId : taf.
Lemma cm_set_vbucket k v : cminv (set_vbucket k v).
Proof. unfold set_vbucket. solve_minv; done. Qed.
Lemma cm_collection_name s c : cminv (collection_name s c).
Proof. unfold collection_name. solve_minv. Qed.
#[local] Hint Resolve cm_set_vbucket cm_collection_name : taf.

Lemma cm_getMulti_drain fuel ks t rv : cminv (getMulti_drain fuel ks t rv).
Proof.
  revert rv. induction fuel as [|fuel IH]; intros rv; cbn [getMulti_drain];
    unfold mraise; solve_minv.
Qed.
#[local] Hint Resolve cm_getMulti_drain : taf.
Lemma cm_getMulti_handle vbs ks t rv : cminv (getMulti_handle vbs ks t rv).
Proof. revert rv. induction vbs as [|vb vbs IH]; intros rv; cbn [getMulti_handle]; solve_minv. Qed.
Lemma cm_getMulti_send k ks vb s c vbs : cminv (getMulti_send k ks vb s c vbs).
Proof.
  revert k vbs. induction ks as [|v ks IH]; intros k vbs; cbn [getMulti_send]; solve_minv.
Qed.
Lemma cm_send_noops vbs t : cminv (send_noops vbs t).
Proof. unfold send_noops. solve_minv. Qed.
Lemma cm_setMulti_send k items e vb s c vbs : cminv (setMulti_send k items e vb s c vbs).
Proof.
  revert k vbs. induction items as [|[key v] items IH]; intros k vbs; cbn [setMulti_send];
    solve_minv.
Qed.
Lemma cm_setMulti_drain fuel t failed : cminv (setMulti_drain fuel t failed).
Proof.
  revert failed. induction fuel as [|fuel IH]; intros failed; cbn [setMulti_drain].
  - unfold mraise. solve_minv.
  - intros c Hc. pose proof (cm_handleSingleResponse None c Hc) as Hh.
    destruct (handleSingleResponse None c) as [[[[o cs] d]|[cls m]] c']; simpl in Hh.
    + case_match; [done|by apply IH].
    + destruct cls; first [done | by apply IH].
Qed.
#[local] Hint Resolve cm_setMulti_drain : taf.
Lemma cm_setMulti_handle vbs t failed : cminv (setMulti_handle vbs t failed).
Proof.
  revert failed. induction vbs as [|vb vbs IH]; intros failed; cbn [setMulti_handle]; solve_minv.
Qed.
Lemma cm_stats_drain fuel rv : cminv (stats_drain fuel rv).
Proof.
  revert rv. induction fuel as [|fuel IH]; intros rv; cbn [stats_drain]; unfold mraise; solve_minv.
Qed.
Lemma update_scope_empty sn cols r m : update_scope sn cols ∅ = (r, m) → m = ∅.
Proof.
  induction cols as [|col cols IH]; cbn [update_scope]; [by intros [= _ <-]|].
  destruct (json_get col "uid" ≫= _) as [m'|e] eqn:E; [|by intros [= _ <-]]. exfalso.
  apply res_bind_inv in E as (u & _ & E). apply res_bind_inv in E as (u' & _ & E).
  apply res_bind_inv in E as (v & _ & E). apply res_bind_inv in E as (s & _ & E).
  by apply res_bind_inv in E as (sm & Hsm & _).
Qed.
Lemma update_scopes_empty scs r m : update_scopes scs ∅ = (r, m) → m = ∅.
Proof.
  revert r m. induction scs as [|sc scs IH]; intros r m; cbn [update_scopes];
    [by intros [= _ <-]|].
  destruct (json_get sc "collections" ≫= json_list) as [cols|e].
  - destruct (update_scope _ cols ∅) as [r' m'] eqn:E.
    apply update_scope_empty in E as ->. destruct r' as [|e]; [apply IH|].
    case_bool_decide; [apply IH|by intros [= _ <-]].
  - case_bool_decide; [apply IH|by intros [= _ <-]].
Qed.
Lemma cm_update_collection_map man : cminv (update_collection_map man).
Proof.
  intros c Hc. unfold update_collection_map, no_collections in *. case_match; [|done].
  rewrite Hc. destruct (update_scopes _ ∅) as [r m] eqn:E. by apply update_scopes_empty in E.
Qed.
#[local] Hint Resolve cm_getMulti_handle cm_getMulti_send cm_send_noops cm_setMulti_send
  cm_setMulti_handle cm_stats_drain cm_update_collection_map : taf.
Lemma cm_set_features f fs b e c : no_collections c → no_collections (set_features f fs b e c).
Proof. done. Qed.
Lemma cm_get_error_map : cminv get_error_map.
Proof. unfold get_error_map. solve_minv. Qed.
#[local] Hint Resolve cm_set_features cm_get_error_map : taf.

(** No public method fills the collection map of a client. *)
Lemma public_cm A (m : MC A) : public A m → cminv m.
Proof.
  destruct 1;
    unfold append, prepend, cat, incr, decr, incrdecr, mc_set, mc_add, mc_replace, mc_cas,
      mc_delete, mc_touch, evict_key, send_set, setWithMeta, setWithMetaInvalid,
      setWithMetaLWW, delWithMetaLWW, set_with_meta, del_with_meta, doMetaCmd, mutate, hello,
      enable_xerror, enable_collections, observe, observe_seqno, mc_get, send_get, getl, getr,
      gat, getMeta, get_adjusted_time, set_time_drift_counter_state, set_time_sync_state,
      sasl_mechanisms, sasl_auth_plain, sasl_auth_start, set_flush_param, set_param,
      set_tap_param, set_vbucket_state, get_vbucket_state, delete_vbucket, flush,
      bucket_select, restore_file, deregister_tap_client, set_config, list_buckets, getMulti,
      setMulti, stats, do_sync, get_sd, exists_sd, sd_mutation, delete_sd, multi_mutation_sd,
      multi_lookup_sd, set_collections, get_collections, doCmd0, mraise; solve_minv;
    case_match; auto with taf nocore.
Qed.

Lemma reachable_no_collections c : reachable c → collection_map c = ∅.
Proof.
  intros (chs & r & H). change (no_collections c).
  assert (no_collections (new_client chs r)) as H0 by done. revert H0.
  induction H as [|x y z Hxy _ IH]; [done|]. intros Hx. apply IH.
  destruct Hxy as [A m c Hm]. by apply (public_cm A m Hm).
Qed.

(** ** Proofs: requests *)

Lemma set_vbucket_run key vb c :
  (∃ e, set_vbucket key vb c = (Err e, c)) ∨
  ∃ v, set_vbucket key vb c = (Ok tt, set_vbucketId v c).
Proof.
  unfold set_vbucket. case_match; [|by right; eexists].
  unfold mbind, M_bind, lift, encode_ascii. destruct (is_ascii key); [right|left]; by eexists.
Qed.

Lemma collection_name_on c sc :
  collections_supported c = true →
  collection_name sc None c = (Ok (Some (default (py "_default") sc), Some (CName (py "_default"))), c).
Proof. intros H. unfold collection_name, mbind, M_bind, gets. by rewrite H. Qed.

Lemma collection_name_off c sc col :
  collections_supported c = false → collection_name sc col c = (Ok (sc, col), c).
Proof. intros H. unfold collection_name, mbind, M_bind, gets. by rewrite H. Qed.

(** The common shape of the keyed commands: default collection, vbucket, and a
    request [k] made with both. *)
Definition keyed {A} (key : pystr) (vbucket : Z) (scope : sopt) (collection : copt)
    (k : sopt → copt → MC A) : MC A :=
  '(scope, collection) ← collection_name scope collection;
  _ ← set_vbucket key vbucket;
  k scope collection.

(** [k] raises and writes nothing. *)
Definition fails {A} (m : MC A) (c : client) : Prop :=
  is_ok (fst (m c)) = false ∧ sent (snd (m c)) = sent c.

Lemma keyed_fails {A} key vb sc (k : sopt → copt → MC A) c :
  collections_supported c = true →
  (∀ v sc', fails (k sc' (Some (CName (py "_default")))) (set_vbucketId v c)) →
  fails (keyed key vb sc None k) c.
Proof.
  intros Hs Hk. unfold fails, keyed. rewrite (bind_Ok _ _ _ _ _ (collection_name_on c sc Hs)).
  destruct (set_vbucket_run key vb c) as [[e He]|[v Hv]].
  - by rewrite (bind_Err _ _ _ _ _ He).
  - rewrite (bind_Ok _ _ _ _ _ Hv). apply (Hk v (Some (default (py "_default") sc))).
Qed.

Lemma fails_bind {A B} (m : MC A) (f : A → MC B) c : fails m c → fails (m ≫= f) c.
Proof. intros [Hm Hs]. unfold fails, mbind, M_bind. by destruct (m c) as [[a|e] c1]. Qed.

Lemma fails_lift {A B} (r : res A) (f : A → MC B) c :
  (∀ a, r = Ok a → fails (f a) c) → fails (lift r ≫= f) c.
Proof.
  intros Hf. unfold fails, mbind, M_bind, lift. destruct r as [a|e]; [by apply Hf|done].
Qed.

(** on any client that a sequence of public calls can produce the
    collection map, which should translate collection names to ids, is empty:
    no call ever fills it.  Once collections are on, a command for which the
    caller names no collection ([get], [delete], [set], [add], [touch]) goes to
    the default collection by name, raises and writes nothing. *)
Theorem default_collection_unusable c key vb sc :
  reachable c → collections_supported c = true →
  collection_map c = ∅ ∧
  fails (mc_get key vb sc None) c ∧
  (∀ cas, fails (mc_delete key cas vb sc None) c) ∧
  (∀ exp flags val, fails (mc_set key exp flags val vb sc None) c) ∧
  (∀ exp flags val, fails (mc_add key exp flags val vb sc None) c) ∧
  (∀ exp, fails (mc_touch key exp vb sc None) c).
Proof.
  intros Hr%reachable_no_collections Hs.
  assert (∀ cmd k v e cas v' sc', fails (doCmd cmd k v e cas sc' (Some (CName (py "_default"))) []
            None) (set_vbucketId v' c)) as Hd by (intros; by apply doCmd_collection).
  assert (∀ cmd k e f v v' sc', fails (mutate cmd k e f 0 v sc' (Some (CName (py "_default"))))
            (set_vbucketId v' c)) as Hm by (intros; apply fails_lift; intros; apply Hd).
  split; [done|]. split_and!; intros.
  - by apply (keyed_fails key vb sc (λ s col,
      doCmd CMD_GET key [] [] 0 s col [] None ≫= λ parts, lift (parseGet parts 0)));
      [|intros; apply fails_bind].
  - by apply (keyed_fails key vb sc (λ s col, doCmd CMD_DELETE key [] [] cas s col [] None)).
  - by apply (keyed_fails key vb sc (λ s col, mutate CMD_SET key exp flags 0 val s col)).
  - by apply (keyed_fails key vb sc (λ s col, mutate CMD_ADD key exp flags 0 val s col)).
  - by apply (keyed_fails key vb sc (λ s col, ext ← lift (pack TOUCH_PKT_FMT [exp]);
      doCmd CMD_TOUCH key [] ext 0 s col [] None)); [|intros; apply fails_lift].
Qed.

(** A server that accepts the collections feature. *)
Definition demo_hello : pystr :=
  match frame RES_MAGIC_BYTE CMD_HELLO 0 0 0 0 7 0 [chr 0; chr FEATURE_COLLECTIONS] with
  | Ok f => f | Err _ => [] end.
Definition demo_after_hello : client :=
  snd (hello FEATURE_COLLECTIONS (new_client [demo_hello] demo_rnd)).

Lemma default_collection_unusable_witness :
  collection_map demo_after_hello = ∅ ∧
  fails (mc_get (py "doc-1") (-1) None None) demo_after_hello ∧
  (∀ cas, fails (mc_delete (py "doc-1") cas (-1) None None) demo_after_hello) ∧
  (∀ exp flags val, fails (mc_set (py "doc-1") exp flags val (-1) None None) demo_after_hello) ∧
  (∀ exp flags val, fails (mc_add (py "doc-1") exp flags val (-1) None None) demo_after_hello) ∧
  (∀ exp, fails (mc_touch (py "doc-1") exp (-1) None None) demo_after_hello).
Proof.
  apply default_collection_unusable; [|vm_compute; reflexivity].
  exists [demo_hello], demo_rnd. apply rtc_once.
  apply (api_call unit (hello FEATURE_COLLECTIONS)). constructor.
Defined.

(** The vbucket a keyed request goes to. *)
Definition request_vbucket (key : pystr) (vbucket count : Z) : Z :=
  if 0 <? vbucket then vbucket else Z.land (crc32_hash key) (count - 1).

Lemma set_vbucket_Ok key vb c :
  is_ascii key = true →
  set_vbucket key vb c = (Ok tt, set_vbucketId (request_vbucket key vb (vbucket_count c)) c).
Proof.
  intros Hk. unfold set_vbucket, request_vbucket. rewrite crc32_hash_zlib.
  destruct (Z.eqb_spec vb 0) as [->|Hz]; simpl;
    [|destruct (Z.ltb_spec vb 0), (Z.ltb_spec 0 vb); try lia];
    unfold mbind, M_bind, lift, encode_ascii; by rewrite ?Hk.
Qed.

Lemma request_vbucket_range key vb n :
  vb < 2 ^ 16 → 0 < n ≤ 2 ^ 16 → 0 ≤ request_vbucket key vb n < 2 ^ 16.
Proof.
  intros Hv Hn. unfold request_vbucket. destruct (Z.ltb_spec 0 vb); [lia|].
  rewrite crc32_hash_zlib. pose proof (vbucket_of_range key n ltac:(lia)) as Hr. unfold vbucket_of in Hr. lia.
Qed.

(** A keyed request on a client without collections, answered with success: what
    it writes and what its continuation gets. *)
Lemma keyed_doCmd {A} key vb cmd val ext cas (k : resp → MC A) c rcmd kl el dt rcas data g rest :
  collections_supported c = false → is_ascii (ext ++ key ++ val) = true →
  len key < 2 ^ 16 → len ext < 2 ^ 8 → len (ext ++ key ++ val) < 2 ^ 32 →
  0 ≤ cmd < 2 ^ 8 → 0 ≤ cas < 2 ^ 64 → vb < 2 ^ 16 → 0 < vbucket_count c ≤ 2 ^ 16 →
  frame RES_MAGIC_BYTE rcmd kl el dt 0 (rnd c (nrnd c)) rcas data = Ok g →
  chunks_ok (inbox c) → concat (inbox c) = g ++ rest →
  ∃ f c1,
    frame REQ_MAGIC_BYTE cmd (len key) (len ext) 0 (request_vbucket key vb (vbucket_count c))
      (rnd c (nrnd c)) cas (ext ++ key ++ val) = Ok f ∧
    keyed key vb None None
      (λ s col, doCmd cmd key val ext cas s col [] None ≫= k) c =
      k (rnd c (nrnd c), rcas, data) c1 ∧
    sent c1 = sent c ++ f ∧ concat (inbox c1) = rest ∧
    vbucketId c1 = request_vbucket key vb (vbucket_count c).
Proof.
  intros Hs Has Hk He Hl Hc Hcas Hvb Hn Hg Hok Hcat.
  assert (is_ascii key = true) as Hak.
  { unfold is_ascii in Has. rewrite !forallb_app, !andb_true_iff in Has. tauto. }
  pose proof (len_nonneg key). pose proof (len_nonneg ext).
  destruct (frame_Ok REQ_MAGIC_BYTE cmd (len key) (len ext) 0
    (request_vbucket key vb (vbucket_count c)) (rnd c (nrnd c)) cas (ext ++ key ++ val))
    as (h & Hf & _); try done; try lia; [by apply request_vbucket_range| |].
  { by eapply frame_opaque_range. }
  exists (h ++ ext ++ key ++ val).
  unfold keyed. rewrite (bind_Ok _ _ _ _ _ (collection_name_off c None None Hs)).
  rewrite (bind_Ok _ _ _ _ _ (set_vbucket_Ok key vb c Hak)).
  set (c0 := set_vbucketId _ c).
  pose proof (doCmd_send cmd key val ext cas None None [] c0 (h ++ ext ++ key ++ val)) as Hd.
  rewrite app_nil_r in Hd. specialize (Hd eq_refl Has Hf).
  set (c2 := set_io _ _ _) in Hd.
  destruct (handleSingleResponse_Ok _ c2 _ _ _ _ _ _ _ _ Hg Hok Hcat) as (chs' & Hh & _ & Hc').
  exists (set_io (sent c2) chs' c2). split; [done|].
  rewrite (bind_Ok _ _ c0 (rnd c (nrnd c), rcas, data) (set_io (sent c2) chs' c2)).
  - by split_and!.
  - etransitivity; [exact Hd|exact Hh].
Qed.

Lemma parseGet_value op cas flags h value :
  pack GET_RES_FMT [flags] = Ok h → parseGet (op, cas, h ++ value) 0 = Ok (flags, cas, value).
Proof.
  intros Hh. assert (length h = 4%nat) as Hl by (by apply length_pack in Hh as [= ->]).
  unfold parseGet, unpack1.
  rewrite (take_app_exact h value 4), (drop_app_exact h value 4) by done.
  by rewrite (unpack_pack _ _ _ Hh).
Qed.

(** C21: [get] on a client without collections writes exactly one GET packet,
    with the key as its body and addressed to the caller's vbucket or, by
    default, to the vbucket of the key, and returns the flags, the cas and the
    value of the response however the bytes of the response arrive; the bytes
    behind the response stay unread. *)
Theorem mc_get_spec key vb c rcmd kl el dt flags cas h value g rest :
  collections_supported c = false → is_ascii key = true → len key < 2 ^ 16 →
  vb < 2 ^ 16 → 0 < vbucket_count c ≤ 2 ^ 16 →
  pack GET_RES_FMT [flags] = Ok h →
  frame RES_MAGIC_BYTE rcmd kl el dt 0 (rnd c (nrnd c)) cas (h ++ value) = Ok g →
  chunks_ok (inbox c) → concat (inbox c) = g ++ rest →
  ∃ f c',
    mc_get key vb None None c = (Ok (flags, cas, value), c') ∧
    frame REQ_MAGIC_BYTE CMD_GET (len key) 0 0 (request_vbucket key vb (vbucket_count c))
      (rnd c (nrnd c)) 0 key = Ok f ∧
    sent c' = sent c ++ f ∧ concat (inbox c') = rest.
Proof.
  intros Hs Hk Hl Hv Hn Hh Hg Hok Hcat.
  destruct (keyed_doCmd key vb CMD_GET [] [] 0 (λ parts, lift (parseGet parts 0)) c
    rcmd kl el dt cas (h ++ value) g rest) as (f & c1 & Hf & Hrun & Hsent & Hin & _);
    rewrite ?app_nil_r; simpl; try done; try lia.
  rewrite app_nil_r in Hf. exists f, c1. split; [|done].
  etransitivity; [exact Hrun|]. unfold lift. by rewrite (parseGet_value _ _ flags).
Qed.

Definition demo_hit : pystr :=
  match frame RES_MAGIC_BYTE CMD_GET 0 4 0 0 7 99 ([chr 0; chr 0; chr 0; chr 5] ++ py "{}") with
  | Ok f => f | Err _ => [] end.

Lemma mc_get_spec_witness :
  ∃ f c',
    mc_get (py "doc-7") (-1) None None (new_client [take 5 demo_hit; drop 5 demo_hit] demo_rnd) =
      (Ok (5, 99, py "{}"), c') ∧
    frame REQ_MAGIC_BYTE CMD_GET 5 0 0 (request_vbucket (py "doc-7") (-1) 1024) 7 0 (py "doc-7")
      = Ok f ∧
    sent c' = f ∧ concat (inbox c') = [].
Proof.
  apply (mc_get_spec (py "doc-7") (-1) (new_client [take 5 demo_hit; drop 5 demo_hit] demo_rnd)
           CMD_GET 0 4 0 5 99 [chr 0; chr 0; chr 0; chr 5] (py "{}") demo_hit []);
    try reflexivity; try (vm_compute; split; done).
  vm_compute. by repeat constructor.
Defined.

Lemma keyed_fails_all {A} key vb sc col (k : sopt → copt → MC A) c :
  (∀ v sc' col', fails (k sc' col') (set_vbucketId v c)) → fails (keyed key vb sc col k) c.
Proof.
  intros Hk. assert (∃ p, collection_name sc col c = (Ok p, c)) as [[sc' col'] Hp] by (by eexists).
  unfold fails, keyed. rewrite (bind_Ok _ _ _ _ _ Hp).
  destruct (set_vbucket_run key vb c) as [[e He]|[v Hv]].
  - by rewrite (bind_Err _ _ _ _ _ He).
  - rewrite (bind_Ok _ _ _ _ _ Hv). apply (Hk v).
Qed.

Lemma pack_META_EXTRA a b d e s : pack META_EXTRA_FMT [a; b; d; e] ≠ Ok s.
Proof.
  unfold pack. cbn -[code_range pack_int]. by repeat case_match.
Qed.

(** [bytes([ch])] is never one byte long. *)
Lemma unpack_bytes_of_list1 ch vs : unpack ">B" (bytes_of_list1 ch) ≠ Ok vs.
Proof.
  intros H%unpack_Ok_len. unfold bytes_of_list1 in H. simpl in H.
  rewrite length_app in H. injection H as H. simpl in H. lia.
Qed.

Lemma doCmd_sent cmd key val ext cas sc col emd ehl c :
  sent (snd (doCmd cmd key val ext cas sc col emd ehl c)) = sent c ∨
  ∃ h rest, sent (snd (doCmd cmd key val ext cas sc col emd ehl c)) = sent c ++ h ++ rest ∧
    ∃ a b d e f g i, pack REQ_PKT_FMT [REQ_MAGIC_BYTE; cmd; a; b; d; e; f; g; i] = Ok h.
Proof.
  unfold doCmd, sendCmd. unfold mbind, M_bind. cbn -[sendMsg handleSingleResponse].
  set (c1 := set_nrnd _ c).
  destruct (sendMsg_run cmd key val (rnd c (nrnd c)) ext cas 0 (vbucketId c) REQ_PKT_FMT
    REQ_MAGIC_BYTE sc col emd ehl c1) as [[e He]|(key' & h & Hrun & Hh & _)].
  - rewrite He. by left.
  - right. rewrite Hrun. eexists h, _. rewrite keeps_handleSingleResponse.
    split; [reflexivity|]. by do 7 eexists.
Qed.

Lemma header_opcode m cmd kl el dt vb bl op cas h rest :
  pack REQ_PKT_FMT [m; cmd; kl; el; dt; vb; bl; op; cas] = Ok h → 0 ≤ cmd < 256 →
  (h ++ rest) !! 1%nat = Some (chr cmd).
Proof.
  unfold pack. change (parse_fmt REQ_PKT_FMT) with (Ok (true, header_codes)).
  unfold header_codes. cbn [mbind res_bind pack_codes]. intros H Hc.
  repeat match type of H with
  | context [if code_range ?a ?b ?c then _ else _] =>
      destruct (code_range a b c); [|discriminate H]
  end.
  cbn [mbind res_bind] in H. injection H as <-.
  unfold pack_int. simpl. by rewrite Z.mod_small.
Qed.

(** four methods never do what they are for.  [setWithMetaLWW] and
    [delWithMetaLWW] raise before anything is written; [observe] never returns;
    and all [flush] writes carries the DCP opcode 0x5a, to which the second
    assignment to [CMD_FLUSH] in lib/memcacheConstants.py binds the name. *)
Theorem dead_commands c :
  (∀ key value exp flags cas sc col, fails (setWithMetaLWW key value exp flags cas sc col) c) ∧
  (∀ key exp flags cas sc col, fails (delWithMetaLWW key exp flags cas sc col) c) ∧
  (∀ key vb sc col, is_ok (fst (observe key vb sc col c)) = false) ∧
  (∀ t, sent (snd (flush t c)) = sent c ∨
        ∃ f, sent (snd (flush t c)) = sent c ++ f ∧ f !! 1%nat = Some (chr 0x5a)).
Proof.
  split_and!.
  - intros. apply (keyed_fails_all key (-1) sc col (λ s c,
      ext ← lift (pack META_EXTRA_FMT [flags; exp; 0; cas]);
      doCmd CMD_SET_WITH_META key value ext 0 s c [] None)).
    intros v sc' col'. apply fails_lift. intros a Ha. by apply pack_META_EXTRA in Ha.
  - intros. by apply (keyed_fails_all key (-1) sc col (λ _ _, mraise AttributeError)).
  - intros. destruct (observe key vb sc col c) as [[v|e] c'] eqn:E; [|done]. exfalso.
    unfold observe in E. repeat (apply bind_inv in E as (? & ? & ?E & E); repeat case_match).
    match goal with H : lift (unpack _ _) _ = _ |- _ => injection H as H _ end.
    by eapply unpack_bytes_of_list1.
  - intros t. unfold flush. destruct (pack FLUSH_PKT_FMT [t]) as [ext|e]; [|by left].
    unfold mbind, M_bind, lift.
    destruct (doCmd_sent CMD_FLUSH [] [] ext 0 None None [] None c)
      as [He|(h & rest & He & a & b & d & e & f & g & i & Hh)]; [by left|right].
    exists (h ++ rest). split; [done|]. by eapply header_opcode.
Qed.

(** ** Proofs: batches *)

(** A response packet of the server. *)
Record packet := Packet {
  p_cmd : Z; p_kl : Z; p_el : Z; p_dt : Z; p_st : Z; p_op : Z; p_cas : Z; p_data : pystr
}.
Definition packet_bytes (p : packet) : res pystr :=
  frame RES_MAGIC_BYTE (p_cmd p) (p_kl p) (p_el p) (p_dt p) (p_st p) (p_op p) (p_cas p) (p_data p).
Fixpoint packets_bytes (ps : list packet) : res pystr :=
  match ps with
  | [] => Ok []
  | p :: ps => b ← packet_bytes p; bs ← packets_bytes ps; Ok (b ++ bs)
  end.

(** The outcome of one packet for a client without an error map. *)
Definition packet_result (p : packet) : res resp :=
  if p_st p =? 0 then Ok (p_op p, p_cas p, p_data p)
  else Err (Exn (MemcachedError (p_st p)) (p_data p)).

Lemma handleSingleResponse_packet p c f rest :
  error_map c = None → packet_bytes p = Ok f → chunks_ok (inbox c) →
  concat (inbox c) = f ++ rest →
  ∃ chs, handleSingleResponse None c = (packet_result p, set_io (sent c) chs c) ∧
    chunks_ok chs ∧ concat chs = rest.
Proof.
  intros Hem Hf Hok Hcat.
  destruct (recvMsg_frame _ _ _ _ _ _ _ _ _ _ _ _ (or_introl eq_refl) Hf Hok Hcat)
    as (chs & Hr & Hok' & Hcat').
  exists chs. split; [|done].
  unfold handleSingleResponse, handleKeyedResponse, packet_result. unfold mbind, M_bind.
  rewrite Hr. simpl.
  destruct (p_st p =? 0); [done|]. simpl. by rewrite Hem.
Qed.

Lemma packet_bytes_long p f : packet_bytes p = Ok f → (1 ≤ length f)%nat.
Proof.
  intros (h & Hh & [= <-])%res_bind_inv. rewrite length_app.
  apply (length_header RES_PKT_FMT) in Hh; [|done]. change MIN_RECV_PACKET with 24%nat in Hh. lia.
Qed.

Lemma packets_bytes_long ps bs : packets_bytes ps = Ok bs → (length ps ≤ length bs)%nat.
Proof.
  revert bs. induction ps as [|p ps IH]; intros bs; simpl; [lia|].
  intros (b & Hb%packet_bytes_long & (bs' & Hbs%IH & [= <-])%res_bind_inv)%res_bind_inv.
  rewrite length_app. lia.
Qed.

(** The errors among the responses to quiet requests. *)
Definition packet_errors (ps : list packet) : list pyexn :=
  omap (λ p, match packet_result p with Ok _ => None | Err e => Some e end) ps.

(** A response that does not end a batch: an error, or another opaque. *)
Definition not_terminal (t : Z) (p : packet) : Prop := p_st p ≠ 0 ∨ p_op p ≠ t.

Lemma setMulti_drain_packets ps last t failed fuel c bs rest :
  error_map c = None → Forall (not_terminal t) ps → p_st last = 0 → p_op last = t →
  packets_bytes (ps ++ [last]) = Ok bs → chunks_ok (inbox c) → concat (inbox c) = bs ++ rest →
  (length ps < fuel)%nat →
  ∃ chs, setMulti_drain fuel t failed c =
      (Ok (failed ++ packet_errors ps), set_io (sent c) chs c) ∧
    chunks_ok chs ∧ concat chs = rest.
Proof.
  intros Hem Hps Hst Hop. revert failed fuel c bs Hem.
  induction Hps as [|p ps Hp Hps IH]; intros failed fuel c bs Hem;
    cbn [app packets_bytes];
    intros (b & Hb & (bs' & Hbs & [= <-])%res_bind_inv)%res_bind_inv Hok Hcat Hfuel;
    (destruct fuel as [|fuel]; [simpl in Hfuel; lia|]); cbn [setMulti_drain];
    rewrite <- app_assoc in Hcat;
    destruct (handleSingleResponse_packet _ c _ _ Hem Hb Hok Hcat) as (chs & -> & Hok' & Hcat').
  - exists chs. unfold packet_result. rewrite Hst, Hop. simpl. rewrite Z.eqb_refl, app_nil_r.
    split_and!; try done. by injection Hbs as <-.
  - unfold packet_errors. cbn [omap list_omap]. fold (packet_errors ps).
    assert (∀ fl, ∃ chs', setMulti_drain fuel t fl (set_io (sent c) chs c) =
      (Ok (fl ++ packet_errors ps), set_io (sent c) chs' c) ∧
      chunks_ok chs' ∧ concat chs' = rest) as Hrec.
    { intros fl. simpl in Hfuel. by apply (IH fl fuel (set_io (sent c) chs c) bs'); [..|lia]. }
    unfold packet_result. destruct (Z.eqb_spec (p_st p) 0) as [E|E].
    + destruct Hp as [Hp|Hp]; [done|]. rewrite (proj2 (Z.eqb_neq _ _) Hp). apply Hrec.
    + destruct (Hrec (failed ++ [Exn (MemcachedError (p_st p)) (p_data p)])) as (chs' & Hr & H').
      exists chs'. split; [|done]. rewrite Hr. by rewrite <- app_assoc.
Qed.

(** draining the responses of a batch of quiet sets ([setMulti]) collects
    exactly the server's error responses, in order, skips successful ones, stops
    at the terminal NOOP response and consumes nothing behind it; the size of
    the inbox is enough fuel, so the loop returns. *)
Theorem setMulti_drain_spec ps last t failed c bs rest :
  error_map c = None → Forall (not_terminal t) ps → p_st last = 0 → p_op last = t →
  packets_bytes (ps ++ [last]) = Ok bs → chunks_ok (inbox c) → concat (inbox c) = bs ++ rest →
  ∃ c', setMulti_drain (S (inbox_size c)) t failed c = (Ok (failed ++ packet_errors ps), c') ∧
    concat (inbox c') = rest ∧ sent c' = sent c.
Proof.
  intros Hem Hps Hst Hop Hb Hok Hcat.
  destruct (setMulti_drain_packets ps last t failed (S (inbox_size c)) c bs rest)
    as (chs & Hr & _ & Hc); try done.
  - apply packets_bytes_long in Hb. unfold inbox_size. rewrite Hcat. rewrite length_app in *.
    simpl in Hb. lia.
  - eexists. split; [exact Hr|]. done.
Qed.

Lemma setMulti_drain_spec_witness :
  ∃ c', setMulti_drain
          (S (inbox_size (new_client [match packets_bytes
              [Packet CMD_SETQ 0 0 0 2 0 0 (py "Exists"); Packet CMD_NOOP 0 0 0 0 12 0 []] with
              Ok b => b | Err _ => [] end] demo_rnd))) 12 []
          (new_client [match packets_bytes
              [Packet CMD_SETQ 0 0 0 2 0 0 (py "Exists"); Packet CMD_NOOP 0 0 0 0 12 0 []] with
              Ok b => b | Err _ => [] end] demo_rnd)
        = (Ok [Exn (MemcachedError 2) (py "Exists")], c') ∧
    concat (inbox c') = [] ∧ sent c' = [].
Proof.
  eapply (setMulti_drain_spec [Packet CMD_SETQ 0 0 0 2 0 0 (py "Exists")]
           (Packet CMD_NOOP 0 0 0 0 12 0 [])); try reflexivity.
  - constructor; [by left|constructor].
  - by repeat constructor.
Defined.
