(* ===== verification/DcpBinClient.v ===== *)
(** * lib/dcp_bin_client.py: the DCP client

    [DcpClient] sends DCP operations through the memcached client of McWire.v,
    matches responses to the operations in flight by opaque, and hands mutations
    out through [DcpStream] objects.  Operation objects keep their identity: the
    dictionary [self.ops], the local variable of [stream_req] and the generator
    all refer to one object, whose queue is kept in a store indexed by it. *)

From S2P Require Import Prelude Py PyStruct MemcacheConstants Json McWire.
Local Open Scope string_scope.
Local Open Scope list_scope.
Local Open Scope Z_scope.

Definition MAX_SEQNO : Z := 0xFFFFFFFFFFFFFFFF.

(** ** Responses *)

(** The values of the response dictionaries. *)
Inductive dval :=
  | DInt (n : Z)
  | DStr (s : pystr)
  | DText (s : string)
  | DNone
  | DLog (l : list (Z * Z))
  | DXattrs (l : list (pystr * pystr)).
#[global] Instance dval_eq_dec : EqDecision dval.
Proof. solve_decision. Defined.

Abbreviation response := (gmap string dval).

(** [response[k]] read as an integer. *)
Definition get_int (r : response) (k : string) : res Z :=
  v ← dict_get r k;
  match v with DInt n => Ok n | _ => raise TypeError end.

(** ** Operations *)

(** What differs between the operation classes when a response is formatted. *)
Inductive op_kind :=
  | KOperation
  | KCloseStream
  | KAddStream
  | KStreamRequest (collection_filtering delete_times : bool)
  | KGetFailoverLog
  | KQuit.

Record operation := Operation {
  op_id : nat;
  op_opcode : Z; op_key : pystr; op_value : pystr; op_extras : pystr;
  op_vbucket : Z; op_opaque : Z; op_class : op_kind
}.

(** ** The client object *)

Record dcp := Dcp {
  base : client;
  ops : gmap Z operation;
  queues : gmap nat (list response);
  next_id : nat;
  dead : bool;
  collections : bool;
  delete_times : bool;
  stream_timeout : bool
}.
Abbreviation MD := (M dcp).

Definition new_dcp (c : client) : dcp := Dcp c ∅ ∅ 0 false true false false.

Definition set_base (b : client) (d : dcp) : dcp :=
  Dcp b (ops d) (queues d) (next_id d) (dead d) (collections d) (delete_times d) (stream_timeout d).
Definition set_ops (o : gmap Z operation) (d : dcp) : dcp :=
  Dcp (base d) o (queues d) (next_id d) (dead d) (collections d) (delete_times d) (stream_timeout d).
Definition set_queues (q : gmap nat (list response)) (n : nat) (d : dcp) : dcp :=
  Dcp (base d) (ops d) q n (dead d) (collections d) (delete_times d) (stream_timeout d).
Definition set_dead (b : bool) (d : dcp) : dcp :=
  Dcp (base d) (ops d) (queues d) (next_id d) b (collections d) (delete_times d) (stream_timeout d).
Definition set_stream_flags (c t : bool) (d : dcp) : dcp :=
  Dcp (base d) (ops d) (queues d) (next_id d) (dead d) c t (stream_timeout d).
Definition set_stream_timeout (b : bool) (d : dcp) : dcp :=
  Dcp (base d) (ops d) (queues d) (next_id d) (dead d) (collections d) (delete_times d) b.

(** A method of the base class. *)
Definition on_base {A} (m : MC A) : MD A := λ d,
  let '(r, b) := m (base d) in (r, set_base b d).

(** [Operation.__init__]; no caller passes an opaque, so one is drawn. *)
Definition new_operation (opcode : Z) (key value extras : pystr) (vbucket : Z) (k : op_kind)
    : MD operation :=
  opaque ← on_base randint32;
  d ← get;
  let op := Operation (next_id d) opcode key value extras vbucket opaque k in
  _ ← put (set_queues (<[next_id d := []]> (queues d)) (S (next_id d)) d);
  mret op.

(** [Open.__init__] and its three subclasses. *)
Definition new_open (name : pystr) (flag : Z) : MD operation :=
  extras ← lift (pack ">iI" [0; flag]);
  new_operation CMD_OPEN name [] extras 0 KOperation.
Definition OpenConsumer (name : pystr) : MD operation := new_open name FLAG_OPEN_CONSUMER.
Definition open_producer_flags (xattr delete_times : bool) : Z :=
  let flags := FLAG_OPEN_PRODUCER in
  let flags := if xattr then Z.lor flags FLAG_OPEN_INCLUDE_XATTRS else flags in
  if delete_times then Z.lor flags FLAG_OPEN_INCLUDE_DELETE_TIMES else flags.
Definition OpenProducer (name : pystr) (xattr delete_times : bool) : MD operation :=
  new_open name (open_producer_flags xattr delete_times).
Definition OpenNotifier (name : pystr) : MD operation := new_open name FLAG_OPEN_NOTIFIER.

Definition CloseStream (vbucket : Z) : MD operation :=
  new_operation CMD_CLOSE_STREAM [] [] [] vbucket KCloseStream.
Definition AddStream (vbucket takeover : Z) : MD operation :=
  extras ← lift (pack ">I" [takeover]);
  new_operation CMD_ADD_STREAM [] [] extras vbucket KAddStream.
Definition StreamRequest (vbucket takeover start_seqno end_seqno vb_uuid : Z)
    (snap_start snap_end : option Z) (collections delete_times : bool) (json : pystr)
    : MD operation :=
  let snap_start := default start_seqno snap_start in
  let snap_end := default start_seqno snap_end in
  extras ← lift (pack ">IIQQQQQ" [takeover; 0; start_seqno; end_seqno; vb_uuid;
                                  snap_start; snap_end]);
  new_operation CMD_STREAM_REQ [] json extras vbucket (KStreamRequest collections delete_times).
Definition GetFailoverLog (vbucket : Z) : MD operation :=
  new_operation CMD_GET_FAILOVER_LOG [] [] [] vbucket KGetFailoverLog.
(** [CMD_CONTROL] and [CMD_DCP_ACK] are not names of memcacheConstants. *)
Definition FlowControl (buffer_size : Z) : MD operation := mraise NameError.
Definition GeneralControl (key value : pystr) : MD operation := mraise NameError.
Definition Ack (nbytes : Z) : MD operation := mraise NameError.
Definition Quit : MD operation := new_operation CMD_QUIT [] [] [] 0 KQuit.

(** ** Parsing responses *)

(** The loop over a failover log; the length of the body is enough fuel. *)
Fixpoint parse_log (fuel : nat) (body : pystr) : res (list (Z * Z)) :=
  match body with
  | [] => Ok []
  | _ =>
    match fuel with
    | O => raise RuntimeError
    | S fuel =>
        vs ← unpack ">QQ" (take 16 body);
        match vs with
        | [vb_uuid; seqno] => rest ← parse_log fuel (drop 16 body); Ok ((vb_uuid, seqno) :: rest)
        | _ => raise ValueError
        end
    end
  end.

Definition parse_failover_log (body : pystr) : res (list (Z * Z)) :=
  _ ← py_assert (len body mod 16 =? 0);
  parse_log (length body) body.

(** [parse_extended_meta_data] *)
Definition unpack_at (fmt : string) (a b : nat) (s : pystr) : res Z :=
  vs ← unpack fmt (slice a b s); list_get vs 0.

Definition parse_extended_meta_data (emd : pystr) : res (Z * Z) :=
  vs ← unpack ">BBH" (slice 0 4 emd);
  match vs with
  | [version; op; op_length] =>
      adjusted_time ← (if op =? META_ADJUSTED_TIME then unpack_at ">Q" 4 12 emd else Ok 0);
      mode ← (if op =? META_ADJUSTED_TIME then Ok 0
              else if op =? META_CONFLICT_RESOLUTION_MODE then unpack_at ">B" 4 5 emd else Ok 0);
      let pos := Z.to_nat (1 + 1 + 2 + op_length) in
      if bool_decide (pos < length emd)%nat then
        vs ← unpack ">BH" (slice pos (pos + 3) emd);
        match vs with
        | [op; op_length] =>
            let pos := (pos + 3)%nat in
            if op =? META_ADJUSTED_TIME then
              t ← unpack_at ">Q" pos (pos + 4) emd; Ok (t, mode)
            else if op =? META_CONFLICT_RESOLUTION_MODE then
              m ← unpack_at ">B" pos (pos + 1) emd; Ok (adjusted_time, m)
            else Ok (adjusted_time, mode)
        | _ => raise ValueError
        end
      else Ok (adjusted_time, mode)
  | _ => raise ValueError
  end.

(** Read up to the next NUL byte; running off the end is an [IndexError]. *)
Fixpoint read_cstr (s : pystr) : res (pystr * pystr) :=
  match s with
  | [] => raise IndexError
  | a :: s => if bool_decide (a = chr 0) then Ok ([], s)
              else '(w, rest) ← read_cstr s; Ok (a :: w, rest)
  end.

(** [parse_extended_attributes]: [pos] is how far [s], the rest of the value,
    starts in it. *)
Fixpoint parse_xattrs (fuel : nat) (tot_len pos : Z) (s : pystr) : res (list (pystr * pystr)) :=
  if pos <? tot_len then
    match fuel with
    | O => raise RuntimeError
    | S fuel =>
        _ ← unpack ">I" (take 4 s);
        let s := drop 4 s in
        '(k, s1) ← read_cstr s;
        '(v, s2) ← read_cstr s1;
        rest ← parse_xattrs fuel tot_len (pos + 4 + (len s - len s2)) s2;
        Ok ((k, v) :: rest)
    end
  else Ok [].
Definition parse_extended_attributes (value : pystr) (tot_len : Z) : res (list (pystr * pystr)) :=
  parse_xattrs (S (length value)) tot_len 0 value.

(** [format_stream_req] *)
Definition format_stream_req (r : response) (status : Z) (body : pystr) : res response :=
  let r := <["err_msg" := DNone]> (<["failover_log" := DLog []]> (<["status" := DInt status]> r)) in
  if status =? 0 then
    l ← parse_failover_log body;
    Ok (<["failover_log" := DLog l]> r)
  else if status =? 35 then
    vs ← unpack ">II" body;
    match vs with
    | [a; b] => Ok (<["rollback" := DInt b]> (<["by_seqno" := DInt a]> r))
    | _ => raise ValueError
    end
  else Ok (<["err_msg" := DStr body]> r).

(** Assert the length of the extras and unpack them behind the frame extras. *)
Definition unpack_extras (fmt : string) (hl extlen : Z) (frameextralen : nat) (body : pystr)
    : res (list Z) :=
  _ ← py_assert (extlen =? hl);
  unpack fmt (slice frameextralen (frameextralen + Z.to_nat hl) body).

(** [response[f1], response[f2], ... = values] *)
Fixpoint store_fields (fs : list string) (vs : list Z) (r : response) : res response :=
  match fs, vs with
  | [], [] => Ok r
  | f :: fs, v :: vs => store_fields fs vs (if bool_decide (f = "_") then r else <[f := DInt v]> r)
  | _, _ => raise ValueError
  end.

Definition format_stream_end (r : response) (fel : nat) (extlen : Z) (body : pystr) : res response :=
  vs ← unpack_extras ">I" 4 extlen fel body; store_fields ["flags"] vs r.
Definition format_mutation (r : response) (fel : nat) (extlen : Z) (body : pystr) : res response :=
  vs ← unpack_extras ">QQIIIHB" 31 extlen fel body;
  store_fields ["by_seqno"; "rev_seqno"; "flags"; "expiration"; "lock_time"; "_"; "nru"] vs r.
Definition format_deletion (delete_times : bool) (r : response) (fel : nat) (extlen : Z)
    (body : pystr) : res response :=
  if delete_times then
    vs ← unpack_extras ">QQIB" 21 extlen fel body;
    store_fields ["by_seqno"; "rev_seqno"; "delete_time"; "_"] vs r
  else
    vs ← unpack_extras ">QQH" 18 extlen fel body;
    store_fields ["by_seqno"; "rev_seqno"; "_"] vs r.
Definition format_expiry (delete_times : bool) (r : response) (fel : nat) (extlen : Z)
    (body : pystr) : res response :=
  _ ← py_assert delete_times;
  vs ← unpack_extras ">QQI" 20 extlen fel body;
  store_fields ["by_seqno"; "rev_seqno"; "delete_time"] vs r.
Definition snapshot_flag (flag : Z) : res string :=
  if flag =? 1 then Ok "memory" else if flag =? 2 then Ok "disk"
  else if flag =? 5 then Ok "memory-checkpoint" else if flag =? 6 then Ok "disk-checkpoint"
  else raise KeyError.
Definition format_snapshot_marker (r : response) (fel : nat) (extlen : Z) (body : pystr)
    : res response :=
  vs ← unpack_extras ">QQI" 20 extlen fel body;
  match vs with
  | [a; b; flag] =>
      f ← snapshot_flag flag;
      Ok (<["flag" := DText f]>
           (<["snap_end_seqno" := DInt b]> (<["snap_start_seqno" := DInt a]> r)))
  | _ => raise ValueError
  end.
Definition format_system_event (r : response) (fel : nat) (extlen : Z) (body : pystr)
    : res response :=
  vs ← unpack_extras ">QIB" 13 extlen fel body;
  store_fields ["by_seqno"; "event"; "version"] vs r.

(** What [recv_op] passes on from a received packet. *)
Record wire := Wire {
  w_opcode : Z; w_keylen : Z; w_extlen : Z; w_dtype : Z; w_status : Z; w_cas : Z;
  w_body : pystr; w_opaque : Z; w_frameextralen : Z
}.

Definition is_mutation_op (opcode : Z) : bool :=
  (opcode =? CMD_MUTATION) || (opcode =? CMD_DELETION) || (opcode =? CMD_EXPIRATION).

(** [StreamRequest.formated_response].  [assert "Unknown opcode ..."] is an
    assertion on a non-empty string and always passes. *)
Definition format_payload (dt : bool) (w : wire) (r : response) : res response :=
  let fel := Z.to_nat (w_frameextralen w) in
  if w_opcode w =? CMD_STREAM_REQ then format_stream_req r (w_status w) (w_body w)
  else if w_opcode w =? CMD_STREAM_END then format_stream_end r fel (w_extlen w) (w_body w)
  else if w_opcode w =? CMD_MUTATION then format_mutation r fel (w_extlen w) (w_body w)
  else if w_opcode w =? CMD_DELETION then format_deletion dt r fel (w_extlen w) (w_body w)
  else if w_opcode w =? CMD_EXPIRATION then format_expiry dt r fel (w_extlen w) (w_body w)
  else if w_opcode w =? CMD_SNAPSHOT_MARKER
       then format_snapshot_marker r fel (w_extlen w) (w_body w)
  else if w_opcode w =? CMD_SYSTEM_EVENT then format_system_event r fel (w_extlen w) (w_body w)
  else Ok r.

Definition stream_id_of (w : wire) : res dval :=
  if w_frameextralen w =? 0 then Ok DNone
  else
    vs ← unpack ">BH" (slice 0 (Z.to_nat (w_frameextralen w)) (w_body w));
    match vs with
    | [tag; streamId] => _ ← py_assert (tag =? 0x22); Ok (DInt streamId)
    | _ => raise ValueError
    end.

Definition stream_response (filtering dt : bool) (w : wire) : res response :=
  let r : response := <["opaque" := DInt (w_opaque w)]> (<["cas" := DInt (w_cas w)]>
             (<["opcode" := DInt (w_opcode w)]> (<["vbucket" := DInt (w_status w)]> ∅))) in
  r ← format_payload dt w r;
  streamId ← stream_id_of w;
  let a := Z.to_nat (w_extlen w + w_frameextralen w) in
  let b := Z.to_nat (w_extlen w + w_frameextralen w + w_keylen w) in
  let key := slice a b (w_body w) in
  let value := drop b (w_body w) in
  '(xattrs, value) ←
    (if negb (Z.land (w_dtype w) DATATYPE_XATTR =? 0) then
       total ← unpack_at ">I" 0 4 value;
       xs ← parse_extended_attributes (drop 4 value) total;
       Ok (DXattrs xs, drop (Z.to_nat (total + 4)) value)
     else Ok (DNone, value));
  let r := <["xattrs" := xattrs]> r in
  '(r, key) ←
    (if is_mutation_op (w_opcode w) then
       if filtering && negb (w_keylen w =? 0) then
         '(cid, key) ← decodeCollectionID key;
         Ok (<["collection_id" := DInt cid]> r, key)
       else Ok (<["collection_id" := DInt 0]> r, key)
     else Ok (r, key));
  Ok (<["streamId" := streamId]> (<["value" := DStr value]> (<["key" := DStr key]> r))).

(** [op.formated_response(...)].  [AddStream] declares one parameter less than
    [recv_op] passes. *)
Definition formated_response (op : operation) (w : wire) : res response :=
  match op_class op with
  | KOperation =>
      Ok (<["body" := DStr (w_body w)]> (<["status" := DInt (w_status w)]>
           (<["opcode" := DInt (w_opcode w)]> ∅)))
  | KCloseStream =>
      Ok (<["value" := DStr (w_body w)]> (<["status" := DInt (w_status w)]>
           (<["opcode" := DInt (w_opcode w)]> ∅)))
  | KAddStream => raise TypeError
  | KStreamRequest filtering dt => stream_response filtering dt w
  | KGetFailoverLog =>
      l ← (if w_status w =? 0 then parse_failover_log (w_body w) else Ok []);
      Ok (<["value" := DLog l]> (<["status" := DInt (w_status w)]>
           (<["opcode" := DInt (w_opcode w)]> ∅)))
  | KQuit => Ok (<["status" := DInt (w_status w)]> (<["opcode" := DInt (w_opcode w)]> ∅))
  end.

(** ** Sending and receiving *)

(** [send_op]; the opcode dump only prints. *)
Definition send_op (op : operation) : MD unit :=
  on_base (_ ← modify (set_vbucketId (op_vbucket op));
           sendCmd (op_opcode op) (op_key op) (op_value op) (op_opaque op) (op_extras op)
                   0 None None [] None).

(** [ack_stream_req] *)
Definition ack_stream_req (opaque : Z) : MD unit :=
  body ← lift (pack "<QQ" [123456; 0]);
  header ← lift (pack REQ_PKT_FMT [RES_MAGIC_BYTE; CMD_STREAM_REQ; 0; 0; 0; 0; len body;
                                    opaque; 0]);
  on_base (sendall (header ++ body)).

(** [cached_op.queue.put(response)] and [op.queue.get()] *)
Definition queue_put (i : nat) (r : response) (d : dcp) : dcp :=
  set_queues (<[i := default [] (queues d !! i) ++ [r]]> (queues d)) (next_id d) d.
Definition queue_get (i : nat) : M dcp (option response) := λ d,
  match queues d !! i with
  | Some (r :: q) => (Ok (Some r), set_queues (<[i := q]> (queues d)) (next_id d) d)
  | _ => (Ok None, d)
  end.

(** The [except Exception] clause of [recv_op]. *)
Definition recv_op_except (op : operation) (e : pyexn) : MD (option response) :=
  if contains (py "died") (exn_msg e)
  then mret (Some (<["status" := DInt 0xff]> (<["opcode" := DInt (op_opcode op)]> ∅)))
  else if contains (py "Timeout") (exn_msg e)
  then _ ← modify (set_stream_timeout true); mret None
  else mret None.

Section RecvOp.
(** How a packet is received: the nine values [recv_op] assigns. *)
Variable recv_wire : MD wire.

(** One round of the loop: [Some r] leaves it with [return r]. *)
Definition recv_op_round (op : operation) : MD (option (option response)) :=
  t ← gets stream_timeout;
  if t : bool then mret (Some None) else
  w ← recv_wire;
  if w_opaque w =? op_opaque op then
    r ← lift (formated_response op w);
    mret (Some (Some r))
  else
    os ← gets ops;
    match os !! w_opaque w with
    | Some cached_op =>
        r ← lift (formated_response cached_op w);
        _ ← modify (queue_put (op_id cached_op) r);
        mret None
    | None =>
        if w_opcode w =? CMD_FLOW_CONTROL then mret None
        else if w_opcode w =? CMD_STREAM_REQ then
          _ ← ack_stream_req (w_opaque w); mret None
        else mraise NameError                (* CMD_DCP_NOOP *)
    end.

Fixpoint recv_op_loop (fuel : nat) (op : operation) : MD (option response) :=
  match fuel with
  | O => mraise RuntimeError
  | S fuel => λ d,
      match recv_op_round op d with
      | (Ok (Some r), d) => (Ok r, d)
      | (Ok None, d) => recv_op_loop fuel op d
      | (Err e, d) => recv_op_except op e d
      end
  end.
End RecvOp.

(** [_recvMsg()] assigned to nine names: it returns eight values. *)
Definition recv_nine : MD wire :=
  _ ← on_base recvMsg;
  mraise_msg ValueError (py "need more than 8 values to unpack").

(** [recv_op(op)].  A round that goes on has taken a packet off the socket, so
    the size of the inbox is enough fuel. *)
Definition recv_op (op : operation) : MD (option response) := λ d,
  recv_op_loop recv_nine (S (length (concat (inbox (base d))))) op d.

(** [_handle_op(op, retries)]; [sleep] has no effect on the state. *)
Fixpoint handle_op_retry (retries : nat) (op : operation) : MD (option response) :=
  match retries with
  | O => mret None
  | S n =>
      r ← recv_op op;
      match r with
      | Some r => mret (Some r)
      | None => handle_op_retry n op
      end
  end.
Definition handle_op (op : operation) (retries : nat) : MD (option response) :=
  _ ← modify (λ d, set_ops (<[op_opaque op := op]> (ops d)) d);
  _ ← send_op op;
  handle_op_retry retries op.

(** ** The public methods *)

Definition open_consumer (name : pystr) : MD (option response) :=
  op ← OpenConsumer name; handle_op op 5.
Definition open_producer (name : pystr) (xattr delete_times collections : bool)
    : MD (option response) :=
  _ ← modify (set_stream_flags collections delete_times);
  op ← OpenProducer name xattr delete_times;
  handle_op op 5.
Definition open_notifier (name : pystr) : MD (option response) :=
  op ← OpenNotifier name; handle_op op 5.
Definition get_failover_log (vbucket : Z) : MD (option response) :=
  op ← GetFailoverLog vbucket; handle_op op 5.
Definition flow_control (buffer_size : Z) : MD (option response) :=
  op ← FlowControl buffer_size; handle_op op 5.
Definition general_control (key value : pystr) : MD (option response) :=
  op ← GeneralControl key value; handle_op op 5.
Definition ack (nbytes : Z) : MD (option response) :=
  op ← Ack nbytes; handle_op op 1.
Definition add_stream (vbucket takeover : Z) : MD (option response) :=
  op ← AddStream vbucket takeover; handle_op op 5.
Definition close_stream (vbucket : Z) : MD (option response) :=
  op ← CloseStream vbucket; handle_op op 5.

(** [quit]: [r['status']] of a [None] response is a [TypeError]. *)
Definition quit : MD response :=
  op ← Quit;
  dd ← gets dead;
  if negb dd then
    r ← handle_op op 5;
    match r with
    | None => mraise TypeError
    | Some r =>
        st ← lift (get_int r "status");
        _ ← (if st =? 0 then modify (set_dead true) else mret tt);
        mret r
    end
  else mret (<["status" := DInt 0xff]> (<["opcode" := DInt (op_opcode op)]> ∅)).

Definition opcode_lookup (opcode : Z) : string :=
  default "Unknown Opcode" (DCP_Opcode_Dictionary !! opcode).

(** ** Streams *)

(** Where the generator of [stream_req] stands: behind a [yield], its first one
    or one of the loop, with the response it yielded, or finished.  The
    constructor of [DcpStream] runs it to its first [yield]. *)
Inductive gen_state :=
  | GYielded (first : bool) (r : option response)
  | GDone.

Record stream := Stream {
  s_gen : gen_state;
  s_vbucket : Z;
  s_last_by_seqno : Z;
  s_mutation_count : Z;
  s_ended : bool;
  s_status : option dval;
  s_failover_log : option dval
}.

Definition set_gen (g : gen_state) (s : stream) : stream :=
  Stream g (s_vbucket s) (s_last_by_seqno s) (s_mutation_count s) (s_ended s)
         (s_status s) (s_failover_log s).
Definition count_mutation (seqno : Z) (s : stream) : stream :=
  Stream (s_gen s) (s_vbucket s) seqno (s_mutation_count s + 1) (s_ended s)
         (s_status s) (s_failover_log s).
Definition end_stream (s : stream) : stream :=
  Stream (s_gen s) (s_vbucket s) (s_last_by_seqno s) (s_mutation_count s) true
         (s_status s) (s_failover_log s).

Section DcpStream.
(** The state behind the stream and how the generator fetches a response from
    it. *)
Context {S : Type} (fetch : M S (option response)).

(** The stream object together with that state. *)
Abbreviation MS := (M (stream * S)).
Definition on_source {A} (m : M S A) : MS A := λ st,
  let '(r, s') := m (snd st) in (r, (fst st, s')).
Definition upd (f : stream → stream) : MS unit := modify (λ st, (f (fst st), snd st)).

Definition is_stream_end (r : option response) : bool :=
  match r with
  | None => false
  | Some r => bool_decide (r !! "opcode" = Some (DInt CMD_STREAM_END))
  end.

(** [self.__generator.next()] *)
Definition gen_next : MS (option response) :=
  st ← get;
  match s_gen (fst st) with
  | GYielded first r =>
      if negb first && is_stream_end r
      then _ ← upd (set_gen GDone); mraise StopIteration
      else r ← on_source fetch; _ ← upd (set_gen (GYielded false r)); mret r
  | GDone => mraise StopIteration
  end.

(** [DcpStream.__init__] *)
Definition new_stream (first : option response) (vbucket : Z) : res stream :=
  match first with
  | None => raise AssertionError
  | Some r => Ok (Stream (GYielded true first) vbucket 0 0 false
                         (r !! "status") (r !! "failover_log"))
  end.

(** [next_response] *)
Definition next_response : MS (option response) :=
  st ← get;
  if s_ended (fst st) then mret None else
  r ← gen_next;
  match r with
  | None => mret None
  | Some resp =>
      opcode ← lift (get_int resp "opcode");
      _ ← (if is_mutation_op opcode then
             vb ← lift (get_int resp "vbucket");
             _ ← massert (vb =? s_vbucket (fst st));
             _ ← massert (bool_decide (is_Some (resp !! "by_seqno")));
             q ← lift (get_int resp "by_seqno");
             st ← get;
             _ ← massert (s_last_by_seqno (fst st) <? q);
             upd (count_mutation q)
           else mret tt);
      _ ← (if opcode =? CMD_STREAM_END then upd end_stream else mret tt);
      mret r
  end.

(** The loop of [run]: [now] is the clock.  [fuel] bounds the rounds. *)
Fixpoint run_loop (fuel : nat) (now to_seqno retries : Z) (acc : list response)
    : MS (list response) :=
  match fuel with
  | O => mraise RuntimeError
  | Datatypes.S fuel =>
      st ← get;
      if s_ended (fst st) then mret acc else
      λ st,
      match next_response st with
      | (Err e, st) =>
          if bool_decide (exn_cls e = StopIteration)
          then (Ok acc, (end_stream (fst st), snd st))
          else (Err e, st)
      | (Ok None, st) =>
          if 0 <? retries - 1 then run_loop fuel now to_seqno (retries - 1) acc st
          else (raise AssertionError, st)
      | (Ok (Some r), st) =>
          let r := <["arrival_time" := DInt now]> r in
          let acc := acc ++ [r] in
          if bool_decide (r !! "status" = Some (DInt 0xff)) then (Ok acc, st)
          else if to_seqno <=? s_last_by_seqno (fst st) then (Ok acc, st)
          else run_loop fuel now to_seqno retries acc st
      end
  end.
End DcpStream.

(** The generator's loop body: the queue first, then the socket. *)
Definition stream_fetch (op : operation) : MD (option response) :=
  q ← queue_get (op_id op);
  match q with
  | Some r => mret (Some r)
  | None => recv_op op
  end.

(** [stream_req]: the operation, for the generator, and the stream. *)
Definition stream_req (vbucket takeover start_seqno end_seqno vb_uuid : Z)
    (snap_start snap_end : option Z) (json : pystr) : MD (operation * stream) :=
  d ← get;
  op ← StreamRequest vbucket takeover start_seqno end_seqno vb_uuid snap_start snap_end
         (collections d) (delete_times d) json;
  response ← handle_op op 5;
  s ← lift (new_stream response vbucket);
  mret (op, s).

(** ** Proofs: ordering and termination of streams *)

(** The sequence numbers of the mutations among some responses. *)
Definition mutation_seqno (r : response) : option Z :=
  match r !! "opcode", r !! "by_seqno" with
  | Some (DInt o), Some (DInt q) => if is_mutation_op o then Some q else None
  | _, _ => None
  end.
Definition seqnos (rs : list response) : list Z := omap mutation_seqno rs.

(** [increasing lo qs hi]: [qs] is strictly increasing, above [lo] and ends at
    [hi] ([lo] when it is empty). *)
Fixpoint increasing (lo : Z) (qs : list Z) (hi : Z) : Prop :=
  match qs with
  | [] => lo = hi
  | q :: qs => lo < q ∧ increasing q qs hi
  end.

Lemma increasing_app lo qs mid rs hi :
  increasing lo qs mid → increasing mid rs hi → increasing lo (qs ++ rs) hi.
Proof.
  revert lo. induction qs as [|q qs IH]; intros lo; simpl; [by intros ->|].
  intros [H1 H2] H3. split; [done|]. by apply IH.
Qed.

Lemma get_int_Ok r k n : get_int r k = Ok n → r !! k = Some (DInt n).
Proof.
  intros (v & Hv & H)%res_bind_inv. unfold dict_get in Hv. destruct (r !! k); [|done].
  injection Hv as ->. destruct v; try done. by injection H as ->.
Qed.

Section stream_proofs.
Context {S : Type} (fetch : M S (option response)).

Lemma gen_next_stream st r st' :
  gen_next fetch st = (r, st') →
  s_vbucket (fst st') = s_vbucket (fst st) ∧
  s_last_by_seqno (fst st') = s_last_by_seqno (fst st) ∧
  s_mutation_count (fst st') = s_mutation_count (fst st) ∧
  s_ended (fst st') = s_ended (fst st).
Proof.
  unfold gen_next, mbind, M_bind, get, on_source, upd, modify, mret, M_ret, mraise, lift.
  destruct st as [s x]. simpl. destruct (s_gen s) as [fi r0|]; [|by intros [= <- <-]].
  destruct (negb fi && is_stream_end r0); simpl; [by intros [= <- <-]|].
  destruct (fetch x) as [[a|e] x']; simpl; by intros [= <- <-].
Qed.

(** What one successful call of [next_response] does to the counters. *)
Lemma next_response_counts st r st' :
  next_response fetch st = (Ok r, st') →
  s_vbucket (fst st') = s_vbucket (fst st) ∧
  increasing (s_last_by_seqno (fst st)) (seqnos (option_list r)) (s_last_by_seqno (fst st')) ∧
  s_mutation_count (fst st') = s_mutation_count (fst st) + len (seqnos (option_list r)) ∧
  Forall (λ x, is_Some (mutation_seqno x) → x !! "vbucket" = Some (DInt (s_vbucket (fst st))))
         (option_list r).
Proof.
  unfold next_response. intros H. apply bind_inv in H as (a & s1 & [= <- <-] & H).
  destruct (s_ended (fst st)); [injection H as <- <-; simpl; rewrite len_nil; split_and!; (done || lia)|].
  apply bind_inv in H as (r1 & s1 & (Hv & Hl & Hc & He)%gen_next_stream & H).
  destruct r1 as [resp|]; [|injection H as <- <-; simpl; rewrite len_nil, Hl, Hc; split_and!; (done || lia)].
  apply bind_inv in H as (opcode & s2 & [= Ho <-] & H). apply get_int_Ok in Ho.
  apply bind_inv in H as ([] & s3 & Hm & H).
  apply bind_inv in H as ([] & s4 & Hend & [= <- <-]).
  assert (s_vbucket (fst s4) = s_vbucket (fst s3) ∧
          s_last_by_seqno (fst s4) = s_last_by_seqno (fst s3) ∧
          s_mutation_count (fst s4) = s_mutation_count (fst s3)) as (-> & -> & ->).
  { destruct (opcode =? CMD_STREAM_END); by injection Hend as <-. }
  simpl. unfold seqnos. simpl. unfold mutation_seqno. rewrite Ho.
  destruct (is_mutation_op opcode) eqn:Em.
  - apply bind_inv in Hm as (vb & ? & [= Hvb <-] & Hm). apply get_int_Ok in Hvb.
    apply bind_inv in Hm as ([] & ? & (Ha1 & ->)%massert_inv & Hm).
    apply bind_inv in Hm as ([] & ? & (_ & ->)%massert_inv & Hm).
    apply bind_inv in Hm as (q & ? & [= Hq <-] & Hm). apply get_int_Ok in Hq.
    apply bind_inv in Hm as (st0 & ? & [= <- <-] & Hm).
    apply bind_inv in Hm as ([] & ? & (Ha3 & ->)%massert_inv & [= <-]).
    rewrite Hq. simpl. rewrite len_cons, len_nil. apply Z.eqb_eq in Ha1. apply Z.ltb_lt in Ha3.
    split_and!; [done|lia|done|lia|]. constructor; [|done]. intros _. by rewrite Hvb, Ha1.
  - injection Hm as <-.
    replace (match resp !! "by_seqno" with Some (DInt q) => None | _ => None end)
      with (@None Z) by (by repeat case_match).
    simpl. rewrite len_nil. split_and!; [done|done|lia|]. constructor; [|done].
    rewrite Ho, Em. intros [? Hx]. by repeat case_match.
Qed.

(** An exception leaves the counters as they were. *)
Lemma next_response_raised st e st' :
  next_response fetch st = (Err e, st') →
  s_last_by_seqno (fst st') = s_last_by_seqno (fst st) ∧
  s_mutation_count (fst st') = s_mutation_count (fst st).
Proof.
  unfold next_response. intros [|(a & s1 & [= <- <-] & H)]%bind_inv_Err; [done|].
  destruct (s_ended (fst st)); [done|].
  apply bind_inv_Err in H as [(_ & -> & -> & _)%gen_next_stream|(r & s1 & Hg & H)]; [done|].
  apply gen_next_stream in Hg as (_ & <- & <- & _). destruct r as [r|]; [|done].
  apply bind_inv_Err in H as [[= _ <-]|(o & s2 & [= _ <-] & H)]; [done|].
  apply bind_inv_Err in H as [Hm|([] & s3 & _ & H)].
  - destruct (is_mutation_op o); [|done].
    do 4 (apply bind_inv_Err in Hm as [[= _ <-]|(? & ? & [= _ <-] & Hm)]; [done|]).
    apply bind_inv_Err in Hm as [[=]|(? & ? & [= <- <-] & Hm)].
    by apply bind_inv_Err in Hm as [[= _ <-]|(? & ? & _ & [=])].
  - by apply bind_inv_Err in H as [H|(? & ? & _ & H)]; [case_match|].
Qed.

Lemma next_response_arrival now r :
  seqnos (option_list (insert "arrival_time" (DInt now) <$> r)) = seqnos (option_list r).
Proof.
  destruct r as [r|]; [|done]. simpl. unfold seqnos. simpl. unfold mutation_seqno.
  by rewrite !lookup_insert_ne by done.
Qed.

Lemma seqnos_app l k : seqnos (l ++ k) = seqnos l ++ seqnos k.
Proof. apply omap_app. Qed.

Lemma run_loop_ordered fuel now to_seqno retries acc st rs st' :
  run_loop fetch fuel now to_seqno retries acc st = (Ok rs, st') →
  ∃ new, rs = acc ++ new ∧
    increasing (s_last_by_seqno (fst st)) (seqnos new) (s_last_by_seqno (fst st')) ∧
    s_mutation_count (fst st') = s_mutation_count (fst st) + len (seqnos new) ∧
    Forall (λ x, is_Some (mutation_seqno x) → x !! "vbucket" = Some (DInt (s_vbucket (fst st))))
           new.
Proof.
  revert retries acc st. induction fuel as [|fuel IH]; intros retries acc st; cbn [run_loop];
    [done|].
  unfold mbind, M_bind, get. destruct (s_ended (fst st)).
  { intros [= <- <-]. exists []. rewrite app_nil_r. simpl. rewrite len_nil. split_and!; (done || lia). }
  destruct (next_response fetch st) as [[[r|]|e] st1] eqn:E.
  - pose proof (next_response_counts _ _ _ E) as (Hv & Hi & Hc & Hf).
    rewrite <- (next_response_arrival now) in Hi, Hc. change (option_list (Some r)) with [r] in Hf.
    change (option_list (insert _ _ <$> Some r))
      with [<["arrival_time" := DInt now]> r] in Hi, Hc.
    set (r1 := <["arrival_time" := DInt now]> r) in *.
    assert (Forall (λ x, is_Some (mutation_seqno x) →
      x !! "vbucket" = Some (DInt (s_vbucket (fst st)))) [r1]) as Hf1.
    { apply Forall_singleton. rewrite Forall_singleton in Hf. intros Hx. unfold r1 in *.
      rewrite lookup_insert_ne by done. apply Hf. revert Hx. unfold mutation_seqno.
      by rewrite !lookup_insert_ne by done. }
    intros H.
    assert (∃ new', rs = (acc ++ [r1]) ++ new' ∧
      increasing (s_last_by_seqno (fst st1)) (seqnos new') (s_last_by_seqno (fst st')) ∧
      s_mutation_count (fst st') = s_mutation_count (fst st1) + len (seqnos new') ∧
      Forall (λ x, is_Some (mutation_seqno x) →
        x !! "vbucket" = Some (DInt (s_vbucket (fst st1)))) new') as (new' & -> & Hi' & Hc' & Hf').
    { case_bool_decide; [|destruct (to_seqno <=? s_last_by_seqno (fst st1)); [|by apply IH in H]];
        injection H as <- <-; exists []; rewrite app_nil_r; simpl; rewrite len_nil;
        split_and!; (done || lia). }
    exists (r1 :: new'). split; [by rewrite <- app_assoc|].
    change (r1 :: new') with ([r1] ++ new'). rewrite seqnos_app, len_app.
    split_and!; [by eapply increasing_app|lia|]. rewrite Hv in Hf'. by apply Forall_app.
  - pose proof (next_response_counts _ _ _ E) as (Hv & Hi & Hc & _). simpl in Hi, Hc.
    rewrite len_nil in Hc. destruct (0 <? retries - 1); [|done]. intros H%IH.
    destruct H as (new & -> & H1 & H2 & H3). exists new. rewrite Hi, <- Hv.
    split_and!; (done || lia).
  - case_bool_decide; [|done]. intros [= <- <-].
    apply next_response_raised in E as [Hl Hc]. exists []. rewrite app_nil_r. simpl.
    rewrite len_nil. split_and!; (done || lia).
Qed.
End stream_proofs.

(** A source runs dry: every response that does not report a dead connection
    uses some of it up. *)
Definition dries {S} (fetch : M S (option response)) (mu : S → nat) : Prop :=
  ∀ x r x', fetch x = (r, x') →
    (mu x' ≤ mu x)%nat ∧
    (∀ resp, r = Ok (Some resp) → resp !! "status" ≠ Some (DInt 0xff) → (mu x' < mu x)%nat).

Section termination.
Context {S : Type} (fetch : M S (option response)) (mu : S → nat) (Hdry : dries fetch mu).

Lemma gen_next_measure st r st' :
  gen_next fetch st = (Ok r, st') →
  (mu (snd st') ≤ mu (snd st))%nat ∧
  (∀ resp, r = Some resp → resp !! "status" ≠ Some (DInt 0xff) → (mu (snd st') < mu (snd st))%nat).
Proof.
  unfold gen_next, mbind, M_bind, get, on_source, upd, modify, mret, M_ret, mraise, lift.
  destruct st as [s x]. simpl. destruct (s_gen s) as [fi r0|]; [|done].
  destruct (negb fi && is_stream_end r0); simpl; [done|].
  destruct (fetch x) as [[a|e] x'] eqn:E; simpl; [|done]. intros [= <- <-].
  destruct (Hdry _ _ _ E) as [H1 H2]. split; [done|]. intros resp -> Hs. by eapply H2.
Qed.

Lemma next_response_source st r st' :
  next_response fetch st = (Ok r, st') →
  (r = None ∧ st' = st) ∨ ∃ s1, gen_next fetch st = (Ok r, s1) ∧ snd st' = snd s1.
Proof.
  unfold next_response. intros H. apply bind_inv in H as (a & s1 & [= <- <-] & H).
  destruct (s_ended (fst st)); [injection H as <- <-; by left|]. right.
  apply bind_inv in H as (r1 & s1 & Hg & H). exists s1.
  destruct r1 as [resp|]; [|injection H as <- <-; done].
  apply bind_inv in H as (opcode & s2 & [= Ho <-] & H).
  apply bind_inv in H as ([] & s3 & Hm & H).
  apply bind_inv in H as ([] & s4 & Hend & [= <- <-]). split; [done|].
  assert (snd s4 = snd s3) as ->.
  { destruct (opcode =? CMD_STREAM_END); by injection Hend as <-. }
  destruct (is_mutation_op opcode); [|by injection Hm as <-].
  do 4 (apply bind_inv in Hm as (? & ? & [= _ <-] & Hm)).
  apply bind_inv in Hm as (? & ? & [= <- <-] & Hm).
  apply bind_inv in Hm as (? & ? & [= _ <-] & Hm). by injection Hm as <-.
Qed.

Lemma next_response_measure st r st' :
  next_response fetch st = (Ok r, st') →
  (mu (snd st') ≤ mu (snd st))%nat ∧
  (∀ resp, r = Some resp → resp !! "status" ≠ Some (DInt 0xff) → (mu (snd st') < mu (snd st))%nat).
Proof.
  intros [[-> ->]|(s1 & Hg & ->)]%next_response_source; [done|]. by apply gen_next_measure.
Qed.

(** Beyond the bound, more fuel changes nothing. *)
Lemma run_loop_fuel now to_seqno f1 f2 retries acc st :
  (mu (snd st) + Z.to_nat retries < f1)%nat → (f1 ≤ f2)%nat →
  run_loop fetch f2 now to_seqno retries acc st = run_loop fetch f1 now to_seqno retries acc st.
Proof.
  revert f2 retries acc st. induction f1 as [|f1 IH]; intros [|f2] retries acc st Hb Hf;
    [lia|lia|lia|]. cbn [run_loop]. unfold mbind, M_bind, get.
  destruct (s_ended (fst st)); [done|].
  destruct (next_response fetch st) as [[[r|]|e] st1] eqn:E; [| |done].
  - case_bool_decide as Hs; [done|]. rewrite lookup_insert_ne in Hs by done.
    destruct (to_seqno <=? s_last_by_seqno (fst st1)); [done|].
    destruct (next_response_measure _ _ _ E) as [_ Hm]. specialize (Hm r eq_refl Hs).
    apply IH; lia.
  - destruct (next_response_measure _ _ _ E) as [Hm _].
    destruct (Z.ltb_spec 0 (retries - 1)); [|done]. apply IH; lia.
Qed.
End termination.

(** ** Proofs: the client's own source *)

Definition inbox_le (n : nat) (c : client) : Prop := (length (concat (inbox c)) ≤ n)%nat.

Lemma inbox_recv n k : minv (inbox_le n) (recv k).
Proof.
  intros c Hc. unfold recv, inbox_le in *. destruct (inbox c) as [|ch chs] eqn:E.
  - simpl. by rewrite E.
  - simpl in Hc. rewrite length_app in Hc. case_bool_decide; simpl; [lia|].
    rewrite length_app, length_drop. lia.
Qed.
Lemma inbox_recv_loop n fuel k acc : minv (inbox_le n) (recv_loop fuel k acc).
Proof.
  revert k acc. induction fuel as [|fuel IH]; intros [|k] acc; cbn [recv_loop];
    auto with taf; [apply minv_lift|].
  apply minv_bind; [apply inbox_recv|]. intros d. case_bool_decide; [apply minv_lift|apply IH].
Qed.
#[local] Hint Resolve inbox_recv_loop : taf.
Lemma inbox_recvMsg n : minv (inbox_le n) recvMsg.
Proof. unfold recvMsg, recv_exactly, massert, mraise. solve_minv. Qed.

(** The response [recv_op] makes up when the peer has closed the connection. *)
Definition died (op : operation) : response :=
  <["status" := DInt 0xff]> (<["opcode" := DInt (op_opcode op)]> ∅).

Lemma recv_op_cases op d r d' :
  recv_op op d = (r, d') →
  (r = Ok None ∨ r = Ok (Some (died op))) ∧ queues d' = queues d ∧ sent (base d') = sent (base d) ∧
  (length (concat (inbox (base d'))) ≤ length (concat (inbox (base d))))%nat.
Proof.
  unfold recv_op. cbn [recv_op_loop]. unfold recv_op_round, recv_nine.
  unfold mbind, M_bind, gets, on_base.
  destruct (stream_timeout d); [intros [= <- <-]; auto|].
  pose proof (inbox_recvMsg _ (base d) (le_n _)) as Hle.
  assert (sent (snd (recvMsg (base d))) = sent (base d)) as Hs.
  { assert (keeps_sent recvMsg) as Hk; [|apply Hk].
    unfold recvMsg, recv_exactly, massert, mraise. solve_keeps. }
  destruct (recvMsg (base d)) as [[a|e] b]; simpl in *.
  - unfold recv_op_except. simpl. intros [= <- <-]. auto.
  - unfold recv_op_except.
    destruct (contains _ _); [intros [= <- <-]; auto|].
    destruct (contains _ _); intros [= <- <-]; auto.
Qed.

(** How much is left for a stream: queued responses and unread bytes. *)
Definition stream_left (op : operation) (d : dcp) : nat :=
  length (default [] (queues d !! op_id op)) + length (concat (inbox (base d))).

Lemma stream_fetch_dries op : dries (stream_fetch op) (stream_left op).
Proof.
  intros d r d'. unfold stream_fetch, mbind, M_bind, queue_get, stream_left.
  destruct (queues d !! op_id op) as [[|q qs]|] eqn:E.
  2:{ intros [= <- <-]. simpl. rewrite lookup_insert_eq. simpl. split; [lia|]. intros. lia. }
  all: intros (Hr & Hq & _ & Hl)%recv_op_cases; rewrite Hq, E; simpl; split; [lia|];
    intros resp -> Hst; destruct Hr as [[=]|[= ->]]; unfold died in Hst;
    by rewrite lookup_insert_eq in Hst.
Qed.

(** [DcpStream.run(to_seqno, retries)] on a stream of this client. *)
Definition run (op : operation) (now to_seqno retries : Z) : M (stream * dcp) (list response) :=
  λ st, run_loop (stream_fetch op) (S (stream_left op (snd st) + Z.to_nat retries))
          now to_seqno retries [] st.

(** ** Properties *)

(** C17: the responses of one [run] of a stream are handed out in order:
    whatever the source of responses is, the sequence numbers of the mutations,
    deletions and expirations returned are strictly increasing and above the
    last one seen before, [last_by_seqno] ends at the last of them,
    [mutation_count] grows by their number, and each belongs to the stream's
    vbucket. *)
Theorem run_ordered {S} (fetch : M S (option response)) fuel now to_seqno retries s x rs s' x' :
  run_loop fetch fuel now to_seqno retries [] (s, x) = (Ok rs, (s', x')) →
  increasing (s_last_by_seqno s) (seqnos rs) (s_last_by_seqno s') ∧
  s_mutation_count s' = s_mutation_count s + len (seqnos rs) ∧
  Forall (λ r, is_Some (mutation_seqno r) → r !! "vbucket" = Some (DInt (s_vbucket s))) rs.
Proof. intros (new & -> & H)%run_loop_ordered. done. Qed.

(** A source of three responses of vbucket 5. *)
Definition demo_mutation (vb q : Z) : response :=
  <["by_seqno" := DInt q]> (<["vbucket" := DInt vb]> (<["opcode" := DInt CMD_MUTATION]> ∅)).
Definition demo_end : response := <["opcode" := DInt CMD_STREAM_END]> ∅.
Definition pop : M (list response) (option response) := λ l,
  match l with [] => (Ok None, []) | r :: l => (Ok (Some r), l) end.
Definition demo_stream : stream := Stream (GYielded true None) 5 0 0 false None None.

Definition demo_run : res (list response) * (stream * list response) :=
  run_loop pop 10 0 MAX_SEQNO 20 []
    (demo_stream, [demo_mutation 5 3; demo_mutation 5 8; demo_end]).

Lemma run_ordered_witness :
  match demo_run with
  | (Ok rs, (s', _)) =>
      increasing 0 (seqnos rs) (s_last_by_seqno s') ∧
      s_mutation_count s' = 0 + len (seqnos rs) ∧
      Forall (λ r, is_Some (mutation_seqno r) → r !! "vbucket" = Some (DInt 5)) rs
  | _ => False
  end.
Proof.
  assert (is_ok (fst demo_run) = true) as Hok by (vm_compute; reflexivity).
  destruct demo_run as [[rs|e] [s' x']] eqn:E; [|discriminate Hok].
  exact (run_ordered pop 10 0 MAX_SEQNO 20 demo_stream _ rs s' x' E).
Defined.

(** [run] always comes to an end: the number of rounds is bounded by the
    responses queued for the stream, the bytes still unread and the retries, so
    running it with any larger bound gives the same outcome. *)
Theorem run_terminates op now to_seqno retries st n :
  (stream_left op (snd st) + Z.to_nat retries < n)%nat →
  run_loop (stream_fetch op) n now to_seqno retries [] st = run op now to_seqno retries st.
Proof.
  intros Hn. unfold run. apply (run_loop_fuel _ _ (stream_fetch_dries op)); lia.
Qed.

Definition demo_op : operation :=
  Operation 0 CMD_STREAM_REQ [] [] [] 5 7 (KStreamRequest false false).
Definition demo_dcp : dcp :=
  queue_put 0 demo_end (queue_put 0 (demo_mutation 5 3) (new_dcp (new_client [] (λ _, 7)))).

Lemma run_terminates_witness :
  run_loop (stream_fetch demo_op) 1000 0 MAX_SEQNO 20 [] (demo_stream, demo_dcp) =
    run demo_op 0 MAX_SEQNO 20 (demo_stream, demo_dcp).
Proof.
  apply run_terminates. apply Nat.ltb_lt. vm_compute. reflexivity.
Defined.

Lemma handle_op_retry_cases n op d r d' :
  handle_op_retry n op d = (r, d') →
  (r = Ok None ∨ r = Ok (Some (died op))) ∧ sent (base d') = sent (base d).
Proof.
  revert d. induction n as [|n IH]; intros d; cbn [handle_op_retry];
    [intros [= <- <-]; auto|].
  unfold mbind, M_bind. destruct (recv_op op d) as [r1 d1] eqn:E.
  apply recv_op_cases in E as ([-> | ->] & _ & Hs & _).
  - intros [H1 H2]%IH. by rewrite H2.
  - intros [= <- <-]. auto.
Qed.

Lemma handle_op_response op n d r d' :
  handle_op op n d = (Ok r, d') → r = None ∨ r = Some (died op).
Proof.
  intros H. unfold handle_op in H. apply bind_inv in H as (? & ? & _ & H).
  apply bind_inv in H as (? & ? & _ & H).
  apply handle_op_retry_cases in H as [[H|H] _]; simplify_eq; auto.
Qed.

(** a stream request never yields a stream of mutations.  [recv_op] assigns
    the eight values of [_recvMsg] to nine names, so a packet that arrives is
    dropped with [None]; [stream_req] then fails its assertion, and the only
    stream it ever returns is the one that reports a dead connection (status
    0xff, no failover log). *)
Theorem stream_req_delivers_nothing :
  (∀ vb tk st en uu ss se js d op s d',
     stream_req vb tk st en uu ss se js d = (Ok (op, s), d') →
     s_status s = Some (DInt 0xff) ∧ s_failover_log s = None) ∧
  (∀ magic cmd kl el dt st op' cas body f rest op d,
     magic = RES_MAGIC_BYTE ∨ magic = REQ_MAGIC_BYTE →
     frame magic cmd kl el dt st op' cas body = Ok f →
     chunks_ok (inbox (base d)) → concat (inbox (base d)) = f ++ rest →
     stream_timeout d = false →
     ∃ d', recv_op op d = (Ok None, d') ∧ concat (inbox (base d')) = rest).
Proof.
  split.
  - intros * H. unfold stream_req in H. apply bind_inv in H as (? & ? & _ & H).
    apply bind_inv in H as (op1 & ? & _ & H).
    apply bind_inv in H as (r & ? & Hr & H). apply bind_inv in H as (s1 & ? & [= Hs <-] & [= <- <- _]).
    apply handle_op_response in Hr as [-> | ->]; [done|]. injection Hs as <-. done.
  - intros * Hm Hf Hok Hcat Ht.
    destruct (recvMsg_frame _ _ _ _ _ _ _ _ _ _ _ _ Hm Hf Hok Hcat) as (chs & Hr & _ & Hc).
    unfold recv_op. cbn [recv_op_loop]. unfold recv_op_round, recv_nine.
    unfold mbind, M_bind, gets, on_base. rewrite Ht, Hr. simpl. eexists. by split.
Qed.

(** A response to an open request arrives and is dropped. *)
Definition demo_open_res : pystr :=
  match frame RES_MAGIC_BYTE CMD_OPEN 0 0 0 0 7 0 [] with Ok f => f | Err _ => [] end.

Lemma stream_req_delivers_nothing_witness :
  ∃ d', recv_op demo_op (new_dcp (new_client [demo_open_res] (λ _, 7))) = (Ok None, d') ∧
        concat (inbox (base d')) = [].
Proof.
  apply (proj2 stream_req_delivers_nothing RES_MAGIC_BYTE CMD_OPEN 0 0 0 0 7 0 [] demo_open_res []);
    try reflexivity; [by left|]. vm_compute. by repeat constructor.
Defined.

Lemma stream_extras_non_ascii a b st uu ss se ext :
  pack ">IIQQQQQ" [a; b; st; MAX_SEQNO; uu; ss; se] = Ok ext → is_ascii ext = false.
Proof.
  unfold pack.
  change (parse_fmt ">IIQQQQQ")
    with (Ok (true, replicate 2 (CInt false 4) ++ replicate 5 (CInt false 8))).
  cbn [mbind res_bind pack_codes replicate app].
  repeat (case_match; [|done]). cbn [mbind res_bind]. intros <-%Ok_inj.
  unfold is_ascii. rewrite !forallb_app.
  change (pack_int true 8 MAX_SEQNO) with (replicate 8 (chr 255)). simpl.
  by rewrite !andb_false_r.
Qed.

Lemma new_operation_Ok opcode key value ext vb k d :
  ∃ op d1, new_operation opcode key value ext vb k d = (Ok op, d1) ∧
    op_extras op = ext ∧ sent (base d1) = sent (base d).
Proof.
  unfold new_operation, mbind, M_bind, on_base, randint32, get, put, mret, M_ret. cbn.
  eexists _, _. split; [reflexivity|done].
Qed.

Lemma send_op_non_ascii op d :
  is_ascii (op_extras op) = false →
  ∃ e d', send_op op d = (Err e, d') ∧ sent (base d') = sent (base d).
Proof.
  intros Ha. unfold send_op, on_base, sendCmd.
  rewrite (bind_Ok _ _ _ tt (set_vbucketId (op_vbucket op) (base d))) by done.
  erewrite bind_Ok by reflexivity.
  match goal with |- context [sendMsg ?a ?b ?v ?e ?f ?g ?h ?i ?j ?k ?l ?m ?n ?o ?p] =>
    destruct (sendMsg_run a b v e f g h i j k l m n o p)
      as [[x ->]|(key' & h' & _ & _ & _ & Hx & _)] end; [|congruence].
  by eexists _, _.
Qed.

(** a stream cannot be requested up to [MAX_SEQNO], the end a client uses
    for an open-ended stream: the extras hold bytes above 0x7f, [encode()]
    refuses them, and nothing is written to the socket. *)
Theorem stream_req_max_seqno vb tk st uu ss se js d :
  is_ok (fst (stream_req vb tk st MAX_SEQNO uu ss se js d)) = false ∧
  sent (base (snd (stream_req vb tk st MAX_SEQNO uu ss se js d))) = sent (base d).
Proof.
  unfold stream_req. rewrite (bind_Ok _ _ d d d) by done.
  set (k := λ op, handle_op op 5 ≫= λ r, lift (new_stream r vb) ≫= λ s, mret (op, s)).
  change (is_ok (fst ((StreamRequest vb tk st MAX_SEQNO uu ss se (collections d) (delete_times d) js
                       ≫= k) d)) = false ∧
          sent (base (snd ((StreamRequest vb tk st MAX_SEQNO uu ss se (collections d)
                              (delete_times d) js ≫= k) d))) = sent (base d)).
  unfold StreamRequest.
  destruct (pack ">IIQQQQQ" _) as [ext|e] eqn:Hp; [|done]. apply stream_extras_non_ascii in Hp.
  destruct (new_operation_Ok CMD_STREAM_REQ [] js ext vb
    (KStreamRequest (collections d) (delete_times d)) d) as (op & d1 & Hn & <- & <-).
  rewrite (bind_Ok _ _ _ op d1) by exact Hn. unfold k, handle_op.
  set (d2 := set_ops (<[op_opaque op := op]> (ops d1)) d1).
  destruct (send_op_non_ascii op d2 Hp) as (e & d' & Hs & Hd).
  erewrite bind_Err; [|erewrite bind_Ok by reflexivity; erewrite bind_Err; [reflexivity|exact Hs]].
  done.
Qed.

(** ** Proofs: parsing *)

(** The bytes a server sends for a failover log. *)
Fixpoint log_bytes (l : list (Z * Z)) : res pystr :=
  match l with
  | [] => Ok []
  | (u, s) :: l => h ← pack ">QQ" [u; s]; t ← log_bytes l; Ok (h ++ t)
  end.

Lemma log_bytes_length l b : log_bytes l = Ok b → length b = (16 * length l)%nat.
Proof.
  revert b. induction l as [|[u s] l IH]; intros b; simpl; [by intros [= <-]|].
  intros (h & Hh & (t & Ht%IH & [= <-])%res_bind_inv)%res_bind_inv.
  apply length_pack in Hh as [= Hl]. rewrite length_app, <- Hl, Ht. lia.
Qed.

Lemma parse_log_bytes fuel l b :
  log_bytes l = Ok b → (length l ≤ fuel)%nat → parse_log fuel b = Ok l.
Proof.
  revert fuel b. induction l as [|[u s] l IH]; intros fuel b; cbn [log_bytes].
  { intros [= <-] _. by destruct fuel. }
  intros (h & Hh & (t & Ht & [= <-])%res_bind_inv)%res_bind_inv Hf.
  pose proof (length_pack _ _ _ Hh) as [= Hl]. destruct fuel as [|fuel]; [simpl in Hf; lia|].
  destruct (h ++ t) as [|a ht] eqn:E.
  { destruct h; [done|done]. }
  cbn [parse_log]. rewrite <- E. rewrite (take_app_exact h t 16), (drop_app_exact h t 16) by done.
  rewrite (unpack_pack _ _ _ Hh). simpl. rewrite (IH fuel t Ht) by (simpl in Hf; lia). done.
Qed.

Lemma parse_failover_log_bytes l b : log_bytes l = Ok b → parse_failover_log b = Ok l.
Proof.
  intros Hb. pose proof (log_bytes_length _ _ Hb) as Hl. unfold parse_failover_log, len.
  rewrite Hl, Nat2Z.inj_mul, Z.mul_comm, Z.mod_mul by done. simpl.
  apply parse_log_bytes; [done|lia].
Qed.

(** One extended attribute: its length, and key and value each ended by NUL. *)
Definition xattr_bytes (kv : pystr * pystr) : pystr :=
  pack_int true 4 (len kv.1 + len kv.2 + 2) ++ kv.1 ++ [chr 0] ++ kv.2 ++ [chr 0].
Definition xattrs_bytes (xs : list (pystr * pystr)) : pystr := concat (xattr_bytes <$> xs).

Lemma read_cstr_app w rest :
  chr 0 ∉ w → read_cstr (w ++ chr 0 :: rest) = Ok (w, rest).
Proof.
  induction w as [|a w IH]; intros Hw.
  - done.
  - apply not_elem_of_cons in Hw as [Ha Hw]. cbn [app read_cstr].
    rewrite bool_decide_eq_false_2 by done. by rewrite IH.
Qed.

Lemma unpack_I s : length s = 4%nat → ∃ v, unpack ">I" s = Ok v.
Proof. intros H. eexists. by apply (unpack_Ok ">I" true [CInt false 4]). Qed.

Lemma parse_xattrs_bytes fuel tot pos xs rest :
  Forall (λ kv, (chr 0 ∉ kv.1) ∧ (chr 0 ∉ kv.2)) xs → (length xs ≤ fuel)%nat →
  tot = pos + len (xattrs_bytes xs) →
  parse_xattrs fuel tot pos (xattrs_bytes xs ++ rest) = Ok xs.
Proof.
  intros Hxs. revert fuel pos.
  induction Hxs as [|[k v] xs [Hk Hv] Hxs IH]; intros fuel pos Hf Ht.
  - change (len (xattrs_bytes [])) with 0 in Ht. destruct fuel; cbn [parse_xattrs];
      by rewrite (proj2 (Z.ltb_ge _ _)) by lia.
  - destruct fuel as [|fuel]; [simpl in Hf; lia|].
    change (xattrs_bytes ((k, v) :: xs)) with (xattr_bytes (k, v) ++ xattrs_bytes xs) in *.
    assert (xattr_bytes (k, v) ++ xattrs_bytes xs ++ rest =
      pack_int true 4 (len k + len v + 2) ++ k ++ chr 0 :: v ++ chr 0 :: (xattrs_bytes xs ++ rest))
      as E by (unfold xattr_bytes; simpl; by rewrite <- !app_assoc; simpl; rewrite <- app_assoc).
    assert (len (xattr_bytes (k, v)) = 4 + len k + 1 + len v + 1) as Hlen.
    { unfold xattr_bytes. rewrite !len_app. unfold len at 1. rewrite length_pack_int.
      simpl. rewrite !len_cons, !len_nil. lia. }
    rewrite len_app in Ht. pose proof (len_nonneg k). pose proof (len_nonneg v).
    pose proof (len_nonneg (xattrs_bytes xs)).
    cbn [parse_xattrs]. rewrite (proj2 (Z.ltb_lt _ _)) by lia.
    rewrite <- app_assoc, E.
    rewrite (take_app_exact (pack_int _ _ _) _ 4), (drop_app_exact (pack_int _ _ _) _ 4)
      by (by rewrite length_pack_int).
    destruct (unpack_I (pack_int true 4 (len k + len v + 2))) as [u ->]; [apply length_pack_int|].
    cbn [mbind res_bind]. rewrite read_cstr_app by done. cbn [mbind res_bind].
    rewrite read_cstr_app by done. cbn [mbind res_bind].
    rewrite IH; [done|simpl in Hf; lia|]. rewrite len_app, len_cons, !len_app, len_cons. 
    rewrite len_app. lia.
Qed.

(** a failover log survives the wire: from the bytes of any log of 64-bit
    pairs both [StreamRequest] and [GetFailoverLog] read back exactly that
    log. *)
Theorem failover_log_roundtrip l b vb cas op fil dt opq :
  log_bytes l = Ok b →
  (∃ r, stream_response fil dt (Wire CMD_STREAM_REQ 0 0 0 0 cas b opq 0) = Ok r ∧
        r !! "failover_log" = Some (DLog l) ∧ r !! "status" = Some (DInt 0)) ∧
  ∃ r, formated_response (Operation op CMD_GET_FAILOVER_LOG [] [] [] vb opq KGetFailoverLog)
         (Wire CMD_GET_FAILOVER_LOG 0 0 0 0 cas b opq 0) = Ok r ∧
       r !! "value" = Some (DLog l).
Proof.
  intros Hb%parse_failover_log_bytes. split.
  - unfold stream_response, format_payload, format_stream_req. simpl. rewrite Hb. simpl.
    eexists. split; [reflexivity|]. split; by simplify_map_eq.
  - unfold formated_response. simpl. rewrite Hb. simpl. eexists. split; [reflexivity|].
    by simplify_map_eq.
Qed.

Lemma failover_log_roundtrip_witness :
  ∃ b, log_bytes [(12345, 0); (2 ^ 64 - 1, 77)] = Ok b ∧
  (∃ r, stream_response true false (Wire CMD_STREAM_REQ 0 0 0 0 9 b 7 0) = Ok r ∧
        r !! "failover_log" = Some (DLog [(12345, 0); (2 ^ 64 - 1, 77)]) ∧
        r !! "status" = Some (DInt 0)) ∧
  ∃ r, formated_response (Operation 0 CMD_GET_FAILOVER_LOG [] [] [] 3 7 KGetFailoverLog)
         (Wire CMD_GET_FAILOVER_LOG 0 0 0 0 9 b 7 0) = Ok r ∧
       r !! "value" = Some (DLog [(12345, 0); (2 ^ 64 - 1, 77)]).
Proof.
  destruct (log_bytes [(12345, 0); (2 ^ 64 - 1, 77)]) as [b|e] eqn:E; [|discriminate E].
  exists b. split; [done|]. exact (failover_log_roundtrip _ b 3 9 0 true false 7 E).
Defined.

(** A value with its extended attributes in front. *)
Definition xattr_value (xs : list (pystr * pystr)) (value : pystr) : pystr :=
  pack_int true 4 (len (xattrs_bytes xs)) ++ xattrs_bytes xs ++ value.

Lemma unpack_int_4 v : 0 ≤ v < 2 ^ 32 → unpack ">I" (pack_int true 4 v) = Ok [v].
Proof.
  intros Hv. apply unpack_pack. unfold pack. change (parse_fmt ">I") with (Ok (true, [CInt false 4])).
  cbn [mbind res_bind pack_codes]. rewrite code_range_u by (change (256 ^ Z.of_nat 4) with (2 ^ 32); lia).
  cbn [mbind res_bind]. by rewrite app_nil_r.
Qed.

Lemma xattrs_bytes_count xs : (length xs ≤ length (xattrs_bytes xs))%nat.
Proof.
  induction xs as [|kv xs IH]; [done|].
  change (xattrs_bytes (kv :: xs)) with (xattr_bytes kv ++ xattrs_bytes xs).
  rewrite length_app. unfold xattr_bytes. rewrite length_app, length_pack_int. simpl. lia.
Qed.

Lemma read_xattr_value xs value :
  Forall (λ kv, (chr 0 ∉ kv.1) ∧ (chr 0 ∉ kv.2)) xs → len (xattrs_bytes xs) < 2 ^ 32 →
  unpack_at ">I" 0 4 (xattr_value xs value) = Ok (len (xattrs_bytes xs)) ∧
  parse_extended_attributes (drop 4 (xattr_value xs value)) (len (xattrs_bytes xs)) = Ok xs ∧
  drop (Z.to_nat (len (xattrs_bytes xs) + 4)) (xattr_value xs value) = value.
Proof.
  intros Hxs Hl. pose proof (len_nonneg (xattrs_bytes xs)). unfold xattr_value. split_and!.
  - unfold unpack_at. rewrite slice_app_l by (by rewrite length_pack_int).
    by rewrite unpack_int_4 by lia.
  - rewrite drop_app_exact by (by rewrite length_pack_int).
    unfold parse_extended_attributes. apply parse_xattrs_bytes; [done| |lia].
    pose proof (xattrs_bytes_count xs). rewrite length_app. lia.
  - rewrite app_assoc. apply drop_app_exact. rewrite length_app, length_pack_int. unfold len. lia.
Qed.

(** a mutation that carries a collection id and extended attributes is
    decoded to what the producer encoded: sequence numbers, flags, expiry and
    lock time, the collection id split from the key, the attributes split from
    the value. *)
Theorem mutation_roundtrip q rev flags ex lock nmeta nru ext cid key xs value dt vb cas opq :
  pack ">QQIIIHB" [q; rev; flags; ex; lock; nmeta; nru] = Ok ext →
  0 ≤ cid → key ≠ [] → Forall (λ kv, (chr 0 ∉ kv.1) ∧ (chr 0 ∉ kv.2)) xs →
  len (xattrs_bytes xs) < 2 ^ 32 →
  ∃ r, stream_response true dt
         (Wire CMD_MUTATION (len (leb128 cid ++ key)) 31 DATATYPE_XATTR vb cas
               (ext ++ (leb128 cid ++ key) ++ xattr_value xs value) opq 0) = Ok r ∧
    get_int r "by_seqno" = Ok q ∧ get_int r "rev_seqno" = Ok rev ∧
    get_int r "flags" = Ok flags ∧ get_int r "expiration" = Ok ex ∧
    get_int r "lock_time" = Ok lock ∧ get_int r "collection_id" = Ok cid ∧
    get_int r "vbucket" = Ok vb ∧ r !! "key" = Some (DStr key) ∧
    r !! "value" = Some (DStr value) ∧ r !! "xattrs" = Some (DXattrs xs).
Proof.
  intros He Hcid Hkey Hxs Hl. pose proof (length_pack _ _ _ He) as [= Hext].
  set (ck := leb128 cid ++ key). set (tail := xattr_value xs value).
  destruct (read_xattr_value xs value Hxs Hl) as (Hx1 & Hx2 & Hx3).
  assert (negb (len ck =? 0) = true) as Hck.
  { unfold ck. rewrite len_app. destruct key; [done|]. rewrite len_cons.
    pose proof (len_nonneg (leb128 cid)). pose proof (len_nonneg key).
    destruct (Z.eqb_spec (len (leb128 cid) + (1 + len key)) 0); [lia|done]. }
  unfold stream_response, format_payload, format_mutation, unpack_extras, stream_id_of.
  cbn -[unpack pack insert slice drop parse_extended_attributes unpack_at decodeCollectionID len
        Z.to_nat leb128].
  rewrite slice_app_l by (change (Z.to_nat 31) with 31%nat; simpl; lia).
  rewrite (unpack_pack _ _ _ He).
  rewrite slice_app_mid; [|change (Z.to_nat (31 + 0)) with 31%nat; lia|unfold len; lia].
  rewrite (app_assoc ext), drop_app_exact by (rewrite length_app; unfold len; lia).
  fold tail in Hx1, Hx2, Hx3. rewrite Hx1. cbn [mbind res_bind]. rewrite Hx2, Hx3.
  cbn [mbind res_bind]. rewrite Hck. simpl andb. cbv iota.
  unfold ck. rewrite decode_leb128 by done.
  eexists. split; [reflexivity|].
  split_and!; reflexivity.
Qed.

Lemma mutation_roundtrip_witness :
  ∃ ext r, pack ">QQIIIHB" [41; 1; 5; 0; 0; 0; 0] = Ok ext ∧
    stream_response true false
         (Wire CMD_MUTATION (len (leb128 300 ++ py "doc")) 31 DATATYPE_XATTR 12 99
               (ext ++ (leb128 300 ++ py "doc") ++ xattr_value [(py "_sync", py "{}")] (py "{1}")) 7 0)
      = Ok r ∧
    get_int r "by_seqno" = Ok 41 ∧ get_int r "rev_seqno" = Ok 1 ∧
    get_int r "flags" = Ok 5 ∧ get_int r "expiration" = Ok 0 ∧
    get_int r "lock_time" = Ok 0 ∧ get_int r "collection_id" = Ok 300 ∧
    get_int r "vbucket" = Ok 12 ∧ r !! "key" = Some (DStr (py "doc")) ∧
    r !! "value" = Some (DStr (py "{1}")) ∧
    r !! "xattrs" = Some (DXattrs [(py "_sync", py "{}")]).
Proof.
  destruct (pack ">QQIIIHB" [41; 1; 5; 0; 0; 0; 0]) as [ext|] eqn:E; [|discriminate E].
  destruct (mutation_roundtrip 41 1 5 0 0 0 0 ext 300 (py "doc") [(py "_sync", py "{}")] (py "{1}")
              false 12 99 7 E) as [r Hr].
  - lia.
  - discriminate.
  - constructor; [|constructor]. split; apply (bool_decide_unpack _); vm_compute; exact I.
  - vm_compute. reflexivity.
  - exists ext, r. split; [reflexivity|exact Hr].
Defined.
