(* ===== verification/Durability.v ===== *)
(** * lib/couchbase_helper/durability_helper.py

    [DurabilityHelper]: whether a durable write must succeed, which nodes to
    disturb, the retries after ambiguous results and the check of the vbucket
    statistics.  The bucket's replica number, the SDK client, the statistics of
    the servers and the random numbers are parameters. *)

From S2P Require Import Prelude Py Json.
Local Open Scope string_scope.
Local Open Scope list_scope.
Local Open Scope Z_scope.

(** [Bucket.DurabilityLevel]; the levels are strings and tests may pass others. *)
Definition NONE : pystr := py "NONE".
Definition MAJORITY : pystr := py "MAJORITY".
Definition MAJORITY_AND_PERSIST_TO_ACTIVE : pystr := py "MAJORITY_AND_PERSIST_TO_ACTIVE".
Definition PERSIST_TO_MAJORITY : pystr := py "PERSIST_TO_MAJORITY".
(** [BucketDurability] *)
Definition BucketDurability : gmap pystr pystr := list_to_map
  [(NONE, py "none"); (MAJORITY, py "majority");
   (MAJORITY_AND_PERSIST_TO_ACTIVE, py "majorityAndPersistActive");
   (PERSIST_TO_MAJORITY, py "persistToMajority")].

(** The fields of a [DurabilityHelper]. *)
Record helper := Helper { cluster_len : Z; durability : pystr; replicate_to : Z; persist_to : Z }.
Definition disk_error_types : list pystr := [py "disk_failure"; py "disk_full"].

(** [__compare] *)
Definition compare (lhs rhs : Z) (comparison : pystr) : bool :=
  if bool_decide (comparison = py "==") then lhs =? rhs
  else if bool_decide (comparison = py ">=") then rhs <=? lhs
  else false.

(** [is_sync_write_enabled] *)
Definition is_sync_write_enabled (bucket_durability doc_durability : pystr) : bool :=
  negb (bool_decide (bucket_durability = py "none")) ||
  (negb (bool_decide (doc_durability = [])) && negb (bool_decide (lower doc_durability = py "none"))).

(** ** Quorum *)

(** [failed_nodes] is a number or a list of nodes; the default is an empty list. *)
Inductive failed := FNum (n : Z) | FList (l : list pystr).

(** [floor(min_nodes_req / 2) + 1], on integers *)
Definition majority_value (replicaNumber : Z) : Z := (replicaNumber + 1) / 2 + 1.

(** [durability_succeeds]; without an induced error the list is subtracted from a
    number, with one the length of a number is taken: both are [TypeError]s. *)
Definition durability_succeeds (h : helper) (replicaNumber : Z) (induced_error : option pystr)
    (failed_nodes : failed) : res bool :=
  match induced_error with
  | None =>
      match failed_nodes with
      | FNum n => Ok (negb (cluster_len h - n <? majority_value replicaNumber))
      | FList _ => raise TypeError
      end
  | Some err =>
      if bool_decide (durability h = MAJORITY) && bool_decide (err ∈ disk_error_types) then Ok true
      else match failed_nodes with
           | FList l => Ok (negb (cluster_len h - len l <? majority_value replicaNumber))
           | FNum _ => raise TypeError
           end
  end.

(** [get_vb_and_error_type] *)
Definition get_vb_and_error_type (d_level : pystr) : pystr * pystr :=
  if bool_decide (d_level = MAJORITY) then (py "replica", py "stop_memcached")
  else if bool_decide (d_level = MAJORITY_AND_PERSIST_TO_ACTIVE) then (py "active", py "stop_persistence")
  else if bool_decide (d_level = PERSIST_TO_MAJORITY) then (py "replica", py "stop_persistence")
  else (py "replica", py "stop_memcached").

(** ** Choosing nodes *)

(** [random.randint(a, b)] for the [k]-th number drawn. *)
Definition randint (rnd : nat → Z) (k : nat) (a b : Z) : res Z :=
  if b <? a then raise ValueError else Ok (a + rnd k mod (b - a + 1)).

(** [cluster.nodes_in_cluster[i]] for a drawn index, which is positive *)
Definition node_at (nodes : list pystr) (i : Z) : res pystr := list_get nodes (Z.to_nat i).

(** The loop of [getTargetNodes]; running out of fuel stands for a loop that goes on. *)
Fixpoint target_loop (rnd : nat → Z) (nodes : list pystr) (nodes_init num : Z) (fuel k : nat)
    (node_list : list pystr) : res (list pystr) :=
  if len node_list =? num then Ok node_list
  else match fuel with
       | O => raise Blocked
       | S fuel =>
           i ← randint rnd k 1 (nodes_init - 1);
           n ← node_at nodes i;
           target_loop rnd nodes nodes_init num fuel (S k)
             (if bool_decide (n ∈ node_list) then node_list else node_list ++ [n])
       end.
Definition getTargetNodes (rnd : nat → Z) (fuel : nat) (nodes : list pystr) (master : pystr)
    (nodes_init num : Z) : res (list pystr) :=
  if 1 <? len nodes then target_loop rnd nodes nodes_init num fuel 0 [] else Ok [master].

(** ** Failed documents *)

(** [validate_durability_exception]; [errors] is [str(failed_doc["error"])] by key. *)
Definition validate_durability_exception (errors : list (pystr * pystr)) (expected : pystr)
    (retry_reason : option pystr) : bool :=
  foldl (λ passed kv,
    let passed := if contains expected kv.2 then passed else false in
    match retry_reason with
    | Some (c :: r) => if contains (c :: r) kv.2 then passed else false
    | _ => passed
    end) true errors.

(** What the SDK client returns, and the entry of a failed document. *)
Record crud_result := CrudResult { c_status : bool; c_value : pystr; c_cas : Z; c_error : pystr }.
Record doc_info := DocInfo { d_value : pystr; d_exp : option Z }.

Section Client.
(** [crud(op_type, key, value, exp)] with the durability settings of the helper and a
    timeout; the client acts on the cluster [W]. *)
Context {W : Type}
  (crud : pystr → pystr → option pystr → option Z → helper → option Z → W → crud_result * W).

(** [retry_with_no_error]: the flag, and the documents with their expiry filled in. *)
Fixpoint retry_with_no_error (h : helper) (docs : list (pystr * doc_info)) (op_type : pystr) (timeout : Z)
    (op_failed : bool) (w : W) : bool * list (pystr * doc_info) * W :=
  match docs with
  | [] => (op_failed, [], w)
  | (key, d) :: docs =>
      let d := DocInfo (d_value d) (Some (default 0 (d_exp d))) in
      let '(r, w) := crud op_type key (Some (d_value d)) (d_exp d) h (Some timeout) w in
      let '(f, ds, w) := retry_with_no_error h docs op_type timeout
                           (if c_status r then op_failed else true) w in
      (f, (key, d) :: ds, w)
  end.

(** [json_loads(str(value))["mutated"]] *)
Definition mutated (value : pystr) : res json := j ← json_loads value; json_get j "mutated".

(** [retry_for_ambiguous_exception] *)
Definition retry_for_ambiguous_exception (h : helper) (op_type key : pystr) (d : doc_info) (w : W) :
    res (bool * W) :=
  let '(read, w) := crud (py "read") key None None h None w in
  let retry := λ b : bool,
    if b then
      let '(r, w) := crud op_type key (Some (d_value d)) None h (Some 10) w in Ok (c_status r, w)
    else Ok (true, w) in
  if bool_decide (op_type = py "create") then retry (negb (bool_decide (c_value read = d_value d)))
  else if bool_decide (op_type = py "delete") then retry (negb (c_cas read =? 0))
  else if bool_decide (op_type = py "read") then Ok (false, w)
  else if bool_decide (op_type = py "update") then
    expected ← mutated (d_value d);
    current ← mutated (c_value read);
    retry (negb (json_eqb expected current))
  else Ok (false, w).
End Client.

(** ** Statistics *)

(** The counters that are summed up; the order in which a dict yields them has no
    influence on the sums. *)
Definition ops : list pystr :=
  [py "ops_create"; py "ops_delete"; py "ops_update"; py "ops_reject"; py "ops_get";
   py "rollback_item_count"; py "sync_write_aborted_count"; py "sync_write_committed_count";
   py "pending_writes"].
Abbreviation vb_stats := (gmap pystr (gmap pystr pystr)).

(** [ops_val[op_type] += int(vb_details_stats[vb_num][op_type])] for every counter *)
Fixpoint add_ops (os : list pystr) (stats : vb_stats) (vb : pystr) (ops_val : gmap pystr Z) : res (gmap pystr Z) :=
  match os with
  | [] => Ok ops_val
  | o :: os =>
      d ← dict_get stats vb;
      t ← dict_get d o;
      n ← int_of_str t;
      v ← dict_get ops_val o;
      add_ops os stats vb (<[o := v + n]> ops_val)
  end.
Fixpoint add_vbs (vbs : list Z) (stats : vb_stats) (ops_val : gmap pystr Z) : res (gmap pystr Z) :=
  match vbs with
  | [] => Ok ops_val
  | i :: vbs => ov ← add_ops ops stats (str_of_Z i) ops_val; add_vbs vbs stats ov
  end.

(** [verify_vbucket_details_stats]; [servers] are the statistics of each node. *)
Definition verify_vbucket_details_stats (servers : list vb_stats) (vbuckets : Z) (expected : gmap pystr Z) :
    res bool :=
  let stats := foldl (λ acc d, d ∪ acc) ∅ servers in
  ops_val ← add_vbs (seqZ 0 vbuckets) stats (list_to_map ((λ o, (o, 0)) <$> ops));
  Ok (existsb (λ o, match expected !! o with
                    | Some e => negb (compare (default 0 (ops_val !! o)) e (py "=="))
                    | None => false
                    end) ops).

(** ** Proofs: quorum *)

(** [durability_succeeds] says yes exactly when the nodes that are left reach the
    majority of the copies (or a disk error cannot matter at level MAJORITY), and
    that majority is the least number such that two sets of that many copies
    always have one in common.  Called with a number of failed nodes but an
    induced error, or with a list but without one (the default), it raises [TypeError]. *)
Theorem durability_quorum h r n l err :
  0 ≤ r →
  let maj := majority_value r in
  (∀ k, r + 1 < 2 * k ↔ maj ≤ k) ∧
  (∃ b, durability_succeeds h r None (FNum n) = Ok b ∧ (b = true ↔ maj ≤ cluster_len h - n)) ∧
  (∃ b, durability_succeeds h r (Some err) (FList l) = Ok b ∧
     (b = true ↔ (durability h = MAJORITY ∧ err ∈ disk_error_types) ∨ maj ≤ cluster_len h - len l)) ∧
  raises TypeError (durability_succeeds h r None (FList l)) ∧
  (durability h ≠ MAJORITY ∨ err ∉ disk_error_types →
     raises TypeError (durability_succeeds h r (Some err) (FNum n))).
Proof.
  intros Hr maj. unfold durability_succeeds. fold maj. split_and!.
  - intros k. unfold maj, majority_value. pose proof (Z.div_mod (r + 1) 2). pose proof (Z.mod_pos_bound (r + 1) 2). lia.
  - eexists. split; [done|]. rewrite negb_true_iff, Z.ltb_ge. done.
  - repeat case_bool_decide; cbn [andb]; eexists; (split; [done|]);
      rewrite ?negb_true_iff, ?Z.ltb_ge; naive_solver.
  - done.
  - intros Hd. repeat case_bool_decide; cbn [andb]; try done. naive_solver.
Qed.
Lemma durability_quorum_witness :
  ∃ b, durability_succeeds (Helper 3 MAJORITY 0 0) 2 None (FNum 1) = Ok b ∧ (b = true ↔ 2 ≤ 3 - 1).
Proof. exact (proj1 (proj2 (durability_quorum (Helper 3 MAJORITY 0 0) 2 1 [] [] ltac:(lia)))). Defined.

(** ** Proofs: choosing nodes *)

Section Targets.
Context (rnd : nat → Z) (nodes : list pystr) (nodes_init num : Z).
Context (Hnd : NoDup nodes) (Hinit : 2 ≤ nodes_init ≤ len nodes).

(** The nodes that may be drawn, and the node of a draw. *)
Definition candidates : list pystr := slice 1 (Z.to_nat nodes_init) nodes.
Definition draw (k : nat) : nat := Z.to_nat (rnd k mod (nodes_init - 1)).

Lemma length_candidates : len candidates = nodes_init - 1.
Proof. unfold candidates, len in *. rewrite length_slice; lia. Qed.
Lemma draw_lookup k : ∃ n, candidates !! draw k = Some n ∧
  (i ← randint rnd k 1 (nodes_init - 1); node_at nodes i) = Ok n.
Proof.
  assert (0 ≤ rnd k mod (nodes_init - 1) < nodes_init - 1) as Hm by (apply Z.mod_pos_bound; lia).
  pose proof length_candidates as Hl. unfold len in Hl.
  destruct (lookup_lt_is_Some_2 candidates (draw k)) as [n Hn]; [unfold draw; lia|].
  exists n. split; [done|]. unfold randint. rewrite (proj2 (Z.ltb_ge _ _)) by lia.
  replace (nodes_init - 1 - 1 + 1) with (nodes_init - 1) by lia. cbn [mbind res_bind].
  unfold node_at, list_get. replace (Z.to_nat (1 + rnd k mod (nodes_init - 1))) with (S (draw k)) by (unfold draw; lia).
  unfold candidates, slice in Hn. rewrite lookup_take_lt in Hn by (unfold draw; lia).
  rewrite lookup_drop in Hn. cbn in Hn. by rewrite Hn.
Qed.

(** The list during the loop. *)
Definition targets_ok (l : list pystr) : Prop := NoDup l ∧ l ⊆ candidates ∧ len l ≤ num.

Lemma targets_step l n : targets_ok l → len l ≠ num → n ∈ candidates →
  targets_ok (if bool_decide (n ∈ l) then l else l ++ [n]).
Proof.
  intros (H1 & H2 & H3) Hne Hn. case_bool_decide; [done|]. split_and!.
  - apply NoDup_app. split_and!; [done|set_solver|apply NoDup_singleton].
  - set_solver.
  - rewrite len_app, len_cons, len_nil. lia.
Qed.

Lemma target_loop_safe fuel k l r :
  targets_ok l → target_loop rnd nodes nodes_init num fuel k l = Ok r → targets_ok r ∧ len r = num.
Proof.
  revert k l. induction fuel as [|fuel IH]; intros k l Hl; cbn [target_loop].
  - destruct (len l =? num) eqn:E; [|done]. intros [= <-]. split; [done|lia].
  - destruct (len l =? num) eqn:E; [intros [= <-]; split; [done|lia]|].
    destruct (draw_lookup k) as (n & Hn & Hd). apply list_elem_of_lookup_2 in Hn.
    unfold mbind, res_bind in *. destruct (randint _ _ _ _) as [i|]; [|done]. rewrite Hd.
    apply IH. apply targets_step; [done|lia|done].
Qed.

(** A list of candidates without repetition that has them all has their number. *)
Lemma targets_len l : targets_ok l → len l ≤ nodes_init - 1.
Proof.
  intros (H1 & H2 & _). rewrite <- length_candidates. unfold len.
  apply inj_le, submseteq_length, NoDup_submseteq; [done|]. intros x. apply H2.
Qed.

(** As long as the loop goes on, the nodes drawn so far are in the list. *)
Lemma target_loop_live fuel k l :
  targets_ok l → (∀ n, n ∈ candidates → n ∈ l ∨ ∃ j, (k ≤ j < k + fuel)%nat ∧ candidates !! draw j = Some n) →
  num ≤ nodes_init - 1 → ∃ r, target_loop rnd nodes nodes_init num fuel k l = Ok r.
Proof.
  intros Hl Hall Hn. revert k l Hl Hall. induction fuel as [|fuel IH]; intros k l Hl Hall; cbn [target_loop].
  - assert (len l = num) as ->; [|rewrite Z.eqb_refl; by eexists].
    destruct Hl as (H1 & H2 & H3). enough (len candidates ≤ len l) by (rewrite length_candidates in *; lia).
    unfold len. apply inj_le, submseteq_length, NoDup_submseteq.
    + unfold candidates, slice. eapply sublist_NoDup; [exact Hnd|].
      etrans; [apply sublist_take|apply sublist_drop].
    + intros x Hx. destruct (Hall x Hx) as [?|(j & Hj & _)]; [done|lia].
  - destruct (len l =? num) eqn:E; [by eexists|].
    destruct (draw_lookup k) as (n & Hd & Hr).
    unfold mbind, res_bind in *. destruct (randint _ _ _ _) as [i|]; [|done]. rewrite Hr.
    apply IH.
    + apply targets_step; [done|lia|by apply list_elem_of_lookup_2 in Hd].
    + intros x Hx. destruct (Hall x Hx) as [Hin|(j & Hj & Hdj)].
      * left. case_bool_decide; set_solver.
      * destruct (decide (j = k)) as [->|]; [|right; exists j; split; [lia|done]].
        left. rewrite Hd in Hdj. injection Hdj as <-. case_bool_decide; set_solver.
Qed.
End Targets.

(** A source of random numbers that yields every node within its first [N] draws. *)
Definition covers (rnd : nat → Z) (nodes : list pystr) (nodes_init : Z) (N : nat) : Prop :=
  ∀ n, n ∈ candidates nodes nodes_init →
    ∃ j, (j < N)%nat ∧ candidates nodes nodes_init !! draw rnd nodes_init j = Some n.

(** [getTargetNodes] on a cluster of at least two nodes: what it returns are
    the asked number of different nodes, none of them the first; it returns once the
    random numbers have hit every node but the first, if no more nodes than
    those are asked for; and it never returns if more (or a negative number) are asked for. *)
Theorem target_nodes rnd nodes master nodes_init num :
  NoDup nodes → 2 ≤ nodes_init ≤ len nodes →
  (∀ fuel l, getTargetNodes rnd fuel nodes master nodes_init num = Ok l →
     len l = num ∧ NoDup l ∧ (∀ n, n ∈ l → n ∈ candidates nodes nodes_init)) ∧
  (∀ N, 0 ≤ num ≤ nodes_init - 1 → covers rnd nodes nodes_init N →
     ∃ l, getTargetNodes rnd N nodes master nodes_init num = Ok l) ∧
  (num < 0 ∨ nodes_init - 1 < num →
     ∀ fuel l, getTargetNodes rnd fuel nodes master nodes_init num ≠ Ok l).
Proof.
  intros Hnd Hi. unfold getTargetNodes. rewrite (proj2 (Z.ltb_lt 1 (len nodes))) by lia.
  assert (0 ≤ num → targets_ok nodes nodes_init num []) as H0.
  { intros H. split_and!; [constructor|set_solver|rewrite len_nil; lia]. }
  assert (∀ fuel k l r, num < 0 → target_loop rnd nodes nodes_init num fuel k l ≠ Ok r) as Hneg.
  { intros fuel k l r Hn. revert k l. induction fuel as [|fuel IH]; intros k l; cbn [target_loop];
      pose proof (len_nonneg l); rewrite (proj2 (Z.eqb_neq (len l) num)) by lia; [done|].
    unfold mbind, res_bind. by repeat (case_match; [|done]). }
  split_and!.
  - intros fuel l H. destruct (decide (0 ≤ num)) as [Hn|]; [|exfalso; eapply Hneg, H; lia].
    apply target_loop_safe in H as [(H1 & H2 & _) H3]; try done; by apply H0.
  - intros N Hn Hc. apply target_loop_live; [done|done|apply H0; lia| |lia].
    intros n Hin. right. destruct (Hc n Hin) as (j & Hj & Hd). exists j. split; [lia|done].
  - intros [Hn|Hn] fuel l H; [exfalso; eapply Hneg, H; lia|].
    apply target_loop_safe in H as [H1 H2]; [apply targets_len in H1; (done || lia)|..]; try done.
    apply H0. lia.
Qed.
Lemma target_nodes_witness :
  ∃ l, getTargetNodes (λ k, Z.of_nat k) 3 [py "n1"; py "n2"; py "n3"; py "n4"] (py "n1") 4 2 = Ok l.
Proof.
  refine (proj1 (proj2 (target_nodes (λ k, Z.of_nat k) [py "n1"; py "n2"; py "n3"; py "n4"] (py "n1") 4 2 _ _)) 3%nat _ _).
  - apply (bool_decide_unpack (NoDup _)). vm_compute. exact I.
  - unfold len. cbn. lia.
  - lia.
  - intros n Hn. vm_compute in Hn. apply list_elem_of_In in Hn. destruct Hn as [<-|[<-|[<-|[]]]];
      [exists 0%nat|exists 1%nat|exists 2%nat]; (split; [lia|reflexivity]).
Defined.

(** ** Proofs: statistics *)

(** The number that vbucket [i] has for a counter, and the sum over vbuckets. *)
Definition stat (stats : vb_stats) (o : pystr) (i : Z) : option Z :=
  match stats !! str_of_Z i with
  | Some d => match d !! o with
              | Some t => match int_of_str t with Ok n => Some n | Err _ => None end
              | None => None
              end
  | None => None
  end.
Definition stat_sum (stats : vb_stats) (o : pystr) (vbs : list Z) : Z :=
  foldr (λ i acc, default 0 (stat stats o i) + acc) 0 vbs.
Definition complete (stats : vb_stats) (os : list pystr) (i : Z) : bool :=
  forallb (λ o, match stat stats o i with Some _ => true | None => false end) os.

Lemma add_ops_spec os stats i ov :
  NoDup os → (∀ o, o ∈ os → is_Some (ov !! o)) →
  if complete stats os i then
    ∃ ov', add_ops os stats (str_of_Z i) ov = Ok ov' ∧
      ∀ o, ov' !! o = if bool_decide (o ∈ os) then (λ v, v + default 0 (stat stats o i)) <$> ov !! o else ov !! o
  else is_ok (add_ops os stats (str_of_Z i) ov) = false.
Proof.
  intros Hnd. revert ov. induction Hnd as [|o os Hin Hnd IH]; intros ov Hov.
  - exists ov. split; [done|]. intros o. by rewrite bool_decide_eq_false_2 by set_solver.
  - cbn [complete forallb add_ops]. unfold dict_get, of_option, mbind, res_bind. cbv beta iota.
    destruct (Hov o) as [v Hv]; [set_solver|].
    unfold stat at 1. destruct (stats !! str_of_Z i) as [d|] eqn:Ed; [|done].
    destruct (d !! o) as [t|] eqn:Et; [|done]. destruct (int_of_str t) as [n|] eqn:En; [|done].
    rewrite Hv. cbn [andb].
    assert (stat stats o i = Some n) as Hn by (unfold stat; by rewrite Ed, Et, En).
    specialize (IH (<[o := v + n]> ov)). fold (complete stats os i).
    destruct (complete stats os i).
    + destruct IH as (ov' & H1 & H2).
      { intros o' Ho'. destruct (decide (o' = o)) as [->|]; [rewrite lookup_insert_eq; eauto|].
        rewrite lookup_insert_ne by done. apply Hov. set_solver. }
      exists ov'. split; [exact H1|]. intros o'. rewrite H2. destruct (decide (o' = o)) as [->|Hne].
      * rewrite bool_decide_eq_false_2 by done. rewrite bool_decide_eq_true_2 by set_solver.
        by rewrite lookup_insert_eq, Hv, Hn.
      * rewrite lookup_insert_ne by done. destruct (decide (o' ∈ os)).
        -- by rewrite !bool_decide_eq_true_2 by set_solver.
        -- by rewrite !bool_decide_eq_false_2 by set_solver.
    + apply IH. intros o' Ho'. destruct (decide (o' = o)) as [->|]; [rewrite lookup_insert_eq; eauto|].
      rewrite lookup_insert_ne by done. apply Hov. set_solver.
Qed.

Lemma ops_NoDup : NoDup ops.
Proof. apply (bool_decide_unpack (NoDup _)). by vm_compute. Qed.

Lemma add_vbs_spec vbs stats ov :
  (∀ o, o ∈ ops → is_Some (ov !! o)) →
  if forallb (complete stats ops) vbs then
    ∃ ov', add_vbs vbs stats ov = Ok ov' ∧
      ∀ o, o ∈ ops → ov' !! o = (λ v, v + stat_sum stats o vbs) <$> ov !! o
  else is_ok (add_vbs vbs stats ov) = false.
Proof.
  revert ov. induction vbs as [|i vbs IH]; intros ov Hov; cbn [forallb add_vbs].
  - exists ov. split; [done|]. intros o Ho. destruct (Hov o Ho) as [v ->]. cbn. f_equal. lia.
  - pose proof (add_ops_spec ops stats i ov ops_NoDup Hov) as Ha.
    destruct (complete stats ops i); cbn [andb].
    + destruct Ha as (ov1 & -> & H1). cbn [mbind res_bind].
      assert (∀ o, o ∈ ops → is_Some (ov1 !! o)) as Hov1.
      { intros o Ho. rewrite H1, bool_decide_eq_true_2 by done. destruct (Hov o Ho) as [v ->]. by eexists. }
      specialize (IH ov1 Hov1). destruct (forallb _ vbs); [|exact IH].
      destruct IH as (ov2 & -> & H2). exists ov2. split; [done|]. intros o Ho.
      rewrite H2, H1, bool_decide_eq_true_2 by done. destruct (Hov o Ho) as [v ->].
      change (stat_sum stats o (i :: vbs)) with (default 0 (stat stats o i) + stat_sum stats o vbs).
      cbn [fmap option_fmap option_map]. f_equal. lia.
    + unfold mbind, res_bind. by destruct (add_ops _ _ _ _).
Qed.

(** [verify_vbucket_details_stats] on statistics in which every vbucket has a
    number for every counter reports a failure exactly when some expected
    counter differs from its sum over the vbuckets, where the last server
    that has a vbucket counts; when a number is missing it raises. *)
Theorem verify_stats servers vbuckets expected :
  let stats := foldl (λ acc d, d ∪ acc) ∅ servers in
  let vbs := seqZ 0 vbuckets in
  if forallb (complete stats ops) vbs then
    ∃ b, verify_vbucket_details_stats servers vbuckets expected = Ok b ∧
      (b = true ↔ ∃ o e, o ∈ ops ∧ expected !! o = Some e ∧ e ≠ stat_sum stats o vbs)
  else is_ok (verify_vbucket_details_stats servers vbuckets expected) = false.
Proof.
  intros stats vbs. unfold verify_vbucket_details_stats. fold stats vbs.
  set (ov0 := list_to_map _).
  assert (∀ o, o ∈ ops → ov0 !! o = Some 0) as H0.
  { intros o Ho. apply elem_of_list_to_map_1; [exact ops_NoDup|].
    apply list_elem_of_fmap. by exists o. }
  pose proof (add_vbs_spec vbs stats ov0) as H. destruct (forallb _ vbs).
  - destruct H as (ov & -> & Hov); [intros o Ho; rewrite H0; by eauto|]. cbn [mbind res_bind].
    eexists. split; [done|]. rewrite existsb_exists. split.
    + intros (o & Ho & Hb). apply list_elem_of_In in Ho. destruct (expected !! o) as [e|] eqn:Ee; [|done].
      rewrite Hov, H0 in Hb by done. exists o, e. split_and!; [done|done|]. cbn in Hb.
      unfold compare in Hb. rewrite bool_decide_eq_true_2 in Hb by done. lia.
    + intros (o & e & Ho & Ee & Hne). exists o. split; [by apply list_elem_of_In|].
      rewrite Ee, Hov, H0 by done. cbn. unfold compare. rewrite bool_decide_eq_true_2 by done. lia.
  - unfold mbind, res_bind. rewrite <- H by (intros o Ho; rewrite H0; by eauto).
    by destruct (add_vbs vbs stats ov0).
Qed.
