(* ===== verification/TaskManager.v ===== *)
(** * lib/Jython_tasks/task_manager.py and its use by BucketStats

    [TaskManager] runs tasks on a Java thread pool and finds their futures by
    the name of the task; [BucketStats.manage_task] (lib/BucketLib/bucket.py) shares one
    statistics task among its users.  The pool is an interface with the
    behaviour that java.util.concurrent documents, and time passes in it while the
    manager sleeps. *)

From S2P Require Import Prelude Py.
Local Open Scope string_scope.
Local Open Scope list_scope.
Local Open Scope Z_scope.

(** ** The thread pool *)

(** Pools [P], tasks [T], futures [F] and values [R].  [tick] is a second in
    which the threads of the pool run; [await] is [future.get()]. *)
Class Executor (P T F R : Type) := {
  submit : T → P → res F * P;
  is_done : F → P → bool;
  tick : P → P;
  await : F → P → res R * P;
  cancel : F → P → bool * P;
  pool_shutdown : P → P;
  pool_shutdown_now : P → P;
  await_termination : Z → P → res bool * P
}.

(** What the documentation of [Future] promises: a future that is done stays done;
    [cancel] leaves it done, fails on a future that is done and else makes
    [get] raise [CancellationException], however often; [get] of a future that is done returns at
    once, with the same outcome every time. *)
Class ExecutorLaws (P T F R : Type) `{Executor P T F R} := {
  done_tick f p : is_done f p = true → is_done f (tick p) = true;
  done_cancel f g p : is_done f p = true → is_done f (cancel g p).2 = true;
  done_await f g p : is_done f p = true → is_done f (await g p).2 = true;
  cancel_done f p : is_done f (cancel f p).2 = true;
  cancel_fails f p : is_done f p = true → cancel f p = (false, p);
  cancel_wins f p : is_done f p = false →
    exn_cls <$> (match (await f (cancel f p).2).1 with Err e => Some e | Ok _ => None end) =
      Some CancellationException;
  await_done f p : is_done f p = true → (await f p).2 = p ∧ ∀ e, (await f p).1 = Err e → exn_cls e ≠ Blocked
}.

(** ** [TaskManager] *)

Section TaskManager.
Context {P T F R : Type} `{HE : Executor P T F R} (thread_name : T → pystr).

Record manager := Manager { futures : gmap pystr F; pool : P }.
Abbreviation MT := (M manager).

(** A method of the pool, called from the manager. *)
Definition on_pool {A} (m : P → res A * P) : MT A := λ s,
  let '(r, p) := m (pool s) in (r, Manager (futures s) p).
Definition with_pool (f : P → P) : MT unit := modify (λ s, Manager (futures s) (f (pool s))).
Definition set_futures (fs : gmap pystr F) : MT unit := modify (λ s, Manager fs (pool s)).

(** [add_new_task], [schedule] (in whole seconds) *)
Definition add_new_task (t : T) : MT unit :=
  f ← on_pool (submit t);
  fs ← gets futures;
  set_futures (<[thread_name t := f]> fs).
Definition schedule (t : T) (sleep_time : Z) : MT unit :=
  _ ← with_pool (Nat.iter (Z.to_nat sleep_time) tick);
  add_new_task t.

(** [get_task_result]; [None] is the result [False] of a cancelled task. *)
Definition get_task_result (t : T) : MT (option R) :=
  fs ← gets futures;
  f ← lift (dict_get fs (thread_name t));
  r ← try_except (v ← on_pool (await f); mret (Some v))
        (λ e, if bool_decide (exn_cls e = CancellationException) then mret None else lift (Err e));
  fs ← gets futures;
  _ ← set_futures (delete (thread_name t) fs);
  mret r.

(** [stop_task]: waits while the future is not done, [n] more seconds at most, then cancels. *)
Fixpoint stop_wait (n : nat) (f : F) (p : P) : P :=
  match n with
  | O => p
  | S n => if is_done f p then p else stop_wait n f (tick p)
  end.
Definition stop_task (t : T) : MT unit :=
  fs ← gets futures;
  match fs !! thread_name t with
  | None => mret tt
  | Some f =>
      _ ← with_pool (stop_wait 30 f);
      p ← gets pool;
      if is_done f p then mret tt
      else _ ← on_pool (λ p, let '(b, p) := cancel f p in (Ok b, p)); mret tt
  end.

(** [abort_all_tasks], in the order in which the dict yields its items. *)
Definition abort_all_tasks (items : gmap pystr F → list (pystr * F)) : MT unit :=
  fs ← gets futures;
  mfor (items fs) (λ kf, _ ← on_pool (λ p, let '(b, p) := cancel kf.2 p in (Ok b, p)); mret tt).

(** [print_tasks_in_pool]: the names it warns about. *)
Definition tasks_in_pool (s : manager) : gmap pystr F := filter (λ kf, is_done kf.2 (pool s) = false) (futures s).

(** [shutdown]; [interrupt] is what re-raising the interrupt of the thread does. *)
Definition shutdown (timeout : Z) : MT unit :=
  _ ← with_pool pool_shutdown;
  try_except
    (b ← on_pool (await_termination timeout);
     if (b : bool) then mret tt
     else
       _ ← with_pool pool_shutdown_now;
       _ ← on_pool (await_termination timeout);
       mret tt)
    (λ e, if bool_decide (exn_cls e = InterruptedException) then with_pool pool_shutdown_now
          else lift (Err e)).

(** ** [BucketStats.manage_task] *)

(** [stats_task]: the number of users, the task and the lock. *)
Record stats := Stats { count : Z; object : option T; lock : bool; tm : manager }.
Abbreviation MB := (M stats).
Definition on_tm {A} (m : MT A) : MB A := λ s,
  let '(r, t) := m (tm s) in (r, Stats (count s) (object s) (lock s) t).
Definition acquire : MB unit :=
  s ← get;
  if lock s then mraise Blocked else put (Stats (count s) (object s) true (tm s)).
Definition release : MB unit :=
  s ← get;
  if lock s then put (Stats (count s) (object s) false (tm s)) else mraise ThreadError.
Definition set_object (o : option T) : MB unit := modify (λ s, Stats (count s) o (lock s) (tm s)).
Definition add_count (n : Z) : MB unit := modify (λ s, Stats (count s + n) (object s) (lock s) (tm s)).

(** [end_task] asks the task to stop.  [new_task] is the [PrintBucketStats] task that
    is made when there is none. *)
Context (end_task : T → P → P).

Definition manage_start (new_task : T) : MB unit :=
  _ ← acquire;
  o ← gets object;
  _ ← match o with
      | None => _ ← set_object (Some new_task); on_tm (add_new_task new_task)
      | Some _ => mret tt
      end;
  _ ← add_count 1;
  release.
Definition manage_stop : MB unit :=
  _ ← acquire;
  n ← gets count;
  _ ← (if n =? 1 then
         o ← gets object;
         match o with
         | None => mraise AttributeError
         | Some t =>
             _ ← on_tm (with_pool (end_task t));
             _ ← on_tm (get_task_result t);
             set_object None
         end
       else mret tt);
  _ ← add_count (-1);
  release.
Definition manage_task (operation : pystr) (new_task : T) : MB unit :=
  if bool_decide (operation = py "start") then manage_start new_task
  else if bool_decide (operation = py "stop") then manage_stop
  else mret tt.
End TaskManager.

Arguments manager P F : clear implicits.
Arguments stats P T F : clear implicits.

(** ** Proofs: stopping and collecting *)

Section Stop.
Context {P T F R : Type} `{HL : ExecutorLaws P T F R} (thread_name : T → pystr).

(** The wait is a number of seconds up to its bound; it ends early only when
    the future is done. *)
Lemma stop_wait_ticks n f p :
  ∃ k, (k ≤ n)%nat ∧ stop_wait n f p = Nat.iter k tick p ∧
    (is_done f (Nat.iter k tick p) = true ∨ k = n).
Proof.
  revert p. induction n as [|n IH]; intros p; cbn [stop_wait]; [by exists 0%nat; auto|].
  destruct (is_done f p) eqn:E; [exists 0%nat; split_and!; [lia|done|by left]|].
  destruct (IH (tick p)) as (k & Hk & -> & Ho). exists (S k).
  rewrite Nat.iter_succ_r. split_and!; [lia|done|]. destruct Ho as [?| ->]; [by left|by right].
Qed.

Lemma get_task_result_done t s f :
  futures s !! thread_name t = Some f → is_done f (pool s) = true →
  match (await f (pool s)).1 with
  | Ok v => get_task_result thread_name t s = (Ok (Some v), Manager (delete (thread_name t) (futures s)) (pool s))
  | Err e =>
      exn_cls e ≠ Blocked ∧
      if bool_decide (exn_cls e = CancellationException)
      then get_task_result thread_name t s = (Ok None, Manager (delete (thread_name t) (futures s)) (pool s))
      else get_task_result thread_name t s = (Err e, s)
  end.
Proof.
  intros Hf Hd. destruct (await_done f (pool s) Hd) as [Hp Hb].
  unfold get_task_result, dict_get, try_except, on_pool, gets, lift, mbind, M_bind. rewrite Hf. cbn.
  destruct (await f (pool s)) as [[v|e] p]; cbn in *; subst.
  - done.
  - split; [by apply Hb|]. destruct s. by case_bool_decide.
Qed.
End Stop.


(** ** A pool *)

(** An instance of the interface: tasks run for a number of seconds in parallel and end
    with a value or an exception. *)
Module Demo.
Inductive future := Running (secs : nat) (v : option Z) | Finished (v : option Z) | Cancelled.
Definition outcome (v : option Z) : res Z :=
  match v with Some n => Ok n | None => raise ExecutionException end.
Definition second (f : future) : future :=
  match f with
  | Running (S n) v => Running n v
  | Running O v => Finished v
  | f => f
  end.
#[global] Instance demo_pool : Executor (list future) (pystr * nat * option Z) nat Z := {
  submit t p := (Ok (length p), p ++ [Running t.1.2 t.2]);
  is_done f p := match p !! f with Some (Running _ _) => false | _ => true end;
  tick p := second <$> p;
  await f p := match p !! f with
               | Some (Running _ v) => (outcome v, <[f := Finished v]> p)
               | Some (Finished v) => (outcome v, p)
               | Some Cancelled => (raise CancellationException, p)
               | None => (raise ExecutionException, p)
               end;
  cancel f p := match p !! f with
                | Some (Running _ _) => (true, <[f := Cancelled]> p)
                | _ => (false, p)
                end;
  pool_shutdown p := p;
  pool_shutdown_now p := (λ f, match f with Running _ _ => Cancelled | f => f end) <$> p;
  await_termination n p := (Ok (forallb (λ f, match f with Running _ _ => false | _ => true end)
                                  (Nat.iter (Z.to_nat n) (fmap second) p)),
                            Nat.iter (Z.to_nat n) (fmap second) p)
}.

Lemma lookup_update (p : list future) f g x y :
  (<[g := x]> p : list future) !! f = Some y → y = x ∧ g = f ∨ p !! f = Some y.
Proof.
  destruct (decide (g = f)) as [->|]; [|rewrite list_lookup_insert_ne by done; by right].
  intros H. left. split; [|done].
  destruct (decide (f < length p)%nat) as [Hl|Hl].
  - rewrite list_lookup_insert_eq in H by done. congruence.
  - rewrite list_insert_ge in H by lia. rewrite lookup_ge_None_2 in H by lia. done.
Qed.

#[global] Instance demo_laws : ExecutorLaws (list future) (pystr * nat * option Z) nat Z.
Proof.
  split; cbn.
  - intros f p. rewrite list_lookup_fmap. destruct (p !! f) as [[[|n] v|v|]|]; cbn; done.
  - intros f g p Hd. destruct (p !! g) as [[]|]; try done. cbn.
    destruct ((<[g := Cancelled]> p : list future) !! f) as [y|] eqn:E; [|done].
    apply lookup_update in E as [[-> ->]|E]; [done|]. by rewrite E in Hd.
  - intros f g p Hd. destruct (p !! g) as [[]|]; try done. cbn.
    destruct ((<[g := _]> p : list future) !! f) as [y|] eqn:E; [|done].
    apply lookup_update in E as [[-> ->]|E]; [done|]. by rewrite E in Hd.
  - intros f p. destruct (p !! f) as [[]|] eqn:E; cbn; rewrite ?E; try done.
    apply lookup_lt_Some in E. by rewrite list_lookup_insert_eq.
  - intros f p. by destruct (p !! f) as [[]|].
  - intros f p. destruct (p !! f) as [[]|] eqn:E; try done. cbn.
    apply lookup_lt_Some in E. by rewrite list_lookup_insert_eq.
  - intros f p. destruct (p !! f) as [[n v|[v|]|]|]; try done; (split; [done|]); intros e [= <-]; done.
Qed.
End Demo.


(** ** Proofs: aborting *)

Section Abort.
Context {P T F R : Type} `{HL : ExecutorLaws P T F R} (thread_name : T → pystr).

Lemma abort_loop (l : list (pystr * F)) (s : manager P F) :
  ∃ p, mfor l (λ kf, _ ← on_pool (λ p, let '(b, p) := cancel kf.2 p in (Ok b, p)); mret tt) s =
         (Ok tt, Manager (futures s) p) ∧
    (∀ f, is_done f (pool s) = true → is_done f p = true) ∧
    (∀ kf, kf ∈ l → is_done kf.2 p = true).
Proof.
  revert s. induction l as [|[k f] l IH]; intros s.
  - exists (pool s). split_and!; [by destruct s|done|]. intros kf. set_solver.
  - cbn [mfor]. destruct (cancel f (pool s)) as [b p1] eqn:Ec.
    rewrite (bind_Ok _ _ s tt (Manager (futures s) p1)) by (unfold on_pool, mbind, M_bind; cbn; by rewrite Ec).
    destruct (IH (Manager (futures s) p1)) as (p & Hrun & Hmono & Hall). exists p.
    split; [exact Hrun|]. cbn [pool] in Hmono. split.
    + intros g Hg. apply Hmono. pose proof (done_cancel g f (pool s) Hg) as Hd. by rewrite Ec in Hd.
    + intros kf [->|Hin]%elem_of_cons; [|by apply Hall].
      apply Hmono. pose proof (cancel_done f (pool s)) as Hd. by rewrite Ec in Hd.
Qed.
End Abort.

(** [abort_all_tasks] leaves every task the manager knows done and forgets none:
    afterwards nothing is reported as still running, and collecting any task
    returns without waiting. *)
Theorem abort_all {P T F R} `{HL : ExecutorLaws P T F R} (thread_name : T → pystr) items (s : manager P F) :
  (∀ m, items m ≡ₚ map_to_list m) →
  let s1 := (abort_all_tasks items s).2 in
  (abort_all_tasks items s).1 = Ok tt ∧ futures s1 = futures s ∧ tasks_in_pool s1 = ∅ ∧
  (∀ t, is_Some (futures s !! thread_name t) →
     ∀ e, (get_task_result thread_name t s1).1 = Err e → exn_cls e ≠ Blocked).
Proof.
  intros Hi. destruct (abort_loop (items (futures s)) s) as (p & Hrun & _ & Hall).
  assert (abort_all_tasks items s = (Ok tt, Manager (futures s) p)) as -> by (unfold abort_all_tasks; exact Hrun).
  cbn [fst snd futures].
  assert (∀ k f, futures s !! k = Some f → is_done f p = true) as Hdone.
  { intros k f Hf. apply (Hall (k, f)). rewrite Hi. by apply elem_of_map_to_list. }
  split_and!; [done|done| |].
  - unfold tasks_in_pool. apply map_empty. intros k. apply map_lookup_filter_None. right.
    intros f Hf Hd. cbn in *. apply Hdone in Hf. congruence.
  - intros t [f Hf] e He. apply Hdone in Hf as Hd.
    pose proof (get_task_result_done thread_name t (Manager (futures s) p) f Hf Hd) as Hg.
    destruct (await f _) as [[v|e'] p']; cbn [fst] in Hg; [by rewrite Hg in He|].
    destruct Hg as [Hb Hg]. case_bool_decide; rewrite Hg in He; [done|]. by injection He as <-.
Qed.
Lemma abort_all_witness :
  tasks_in_pool (abort_all_tasks map_to_list
    (Manager {[py "a" := 0%nat; py "b" := 1%nat]} [Demo.Running 100 (Some 7); Demo.Finished None])).2 = ∅.
Proof.
  refine (proj1 (proj2 (proj2 (abort_all (λ t : pystr * nat * option Z, t.1.1) map_to_list
    (Manager {[py "a" := 0%nat; py "b" := 1%nat]} [Demo.Running 100 (Some 7); Demo.Finished None]) _)))).
  by intros m.
Defined.

(** ** Proofs: the shared statistics task *)

(** Uses of the shared task: a start with the task it would make, a stop, and a second
    that passes. *)
Inductive use (T : Type) := UStart (t : T) | UStop | UTick.
Arguments UStart {_} _.
Arguments UStop {_}.
Arguments UTick {_}.

Definition use_shared {P T F R} `{Executor P T F R} (thread_name : T → pystr) (end_task : T → P → P) (u : use T) :
    M (stats P T F) unit :=
  match u with
  | UStart t => manage_task thread_name end_task (py "start") t
  | UStop => manage_stop thread_name end_task
  | UTick => on_tm (with_pool tick)
  end.
(** The number of users after some uses; no stop may come without a start. *)
Fixpoint balance {T} (n : Z) (us : list (use T)) : option Z :=
  match us with
  | [] => Some n
  | UStart _ :: us => balance (n + 1) us
  | UStop :: us => if 0 <? n then balance (n - 1) us else None
  | UTick :: us => balance n us
  end.

(** Tasks [good] that the pool takes, and that end without an exception once they have
    been asked to; [owns] relates a task, its future and the pool. *)
Record stoppable {P T F R} `{Executor P T F R} (end_task : T → P → P) (good : T → Prop)
    (owns : T → F → P → Prop) : Prop := {
  submit_good t p : good t → ∃ f p', submit t p = (Ok f, p') ∧ owns t f p';
  owns_tick t f p : owns t f p → owns t f (tick p);
  owns_ends t f p : owns t f p → is_ok (await f (end_task t p)).1 = true
}.

Section Shared.
Context {P T F R : Type} `{HE : Executor P T F R} (thread_name : T → pystr) (end_task : T → P → P)
  (good : T → Prop) (owns : T → F → P → Prop) (Hst : stoppable end_task good owns).

(** Between uses: the lock is free, the task exists exactly while there are
    users, and the manager has its future on top of the others. *)
Definition shared_inv (fs0 : gmap pystr F) (s : stats P T F) : Prop :=
  lock s = false ∧ 0 ≤ count s ∧
  match object s with
  | None => count s = 0 ∧ futures (tm s) = fs0
  | Some t => 0 < count s ∧ fs0 !! thread_name t = None ∧
              ∃ f, futures (tm s) = <[thread_name t := f]> fs0 ∧ owns t f (pool (tm s))
  end.

Lemma manage_start_idle t n m f p' :
  submit t (pool m) = (Ok f, p') →
  manage_start thread_name t (Stats n None false m) =
    (Ok tt, Stats (n + 1) (Some t) false (Manager (<[thread_name t := f]> (futures m)) p')).
Proof.
  intros Hs. unfold manage_start, acquire, release, set_object, add_count, get, put, on_tm, add_new_task,
    on_pool, mbind, M_bind, gets, set_futures, modify. cbn. by rewrite Hs.
Qed.

Lemma manage_start_ok fs0 t s :
  shared_inv fs0 s → good t → fs0 !! thread_name t = None →
  ∃ s', manage_start thread_name t s = (Ok tt, s') ∧ shared_inv fs0 s' ∧ count s' = count s + 1.
Proof.
  destruct s as [n o lk m]. intros (Hl & Hn & Ho) Hg Ht. cbn in Hl. subst lk.
  destruct o as [u|]; cbn in Ho.
  - eexists. split; [done|]. cbn. destruct Ho as (H1 & H2 & H3). split; [|done].
    unfold shared_inv. cbn. split_and!; [done|lia|lia|done|done].
  - destruct Ho as [-> Hfs]. destruct (submit_good _ _ _ Hst t (pool m) Hg) as (f & p' & Hs & Hown).
    eexists. split; [by apply manage_start_idle|]. split; [|done].
    unfold shared_inv. cbn. split_and!; [done|lia|lia|done|]. exists f. by rewrite Hfs.
Qed.

Lemma manage_stop_ok fs0 s :
  shared_inv fs0 s → 0 < count s →
  ∃ s', manage_stop thread_name end_task s = (Ok tt, s') ∧ shared_inv fs0 s' ∧ count s' = count s - 1.
Proof.
  destruct s as [n o lk m]. intros (Hl & Hn & Ho) Hpos. cbn in *. subst lk.
  destruct o as [u|]; [|lia]. destruct Ho as (_ & Hu & f & Hf & Hown).
  destruct (n =? 1) eqn:E.
  - pose proof (owns_ends _ _ _ Hst u f (pool m) Hown) as Hok.
    destruct (await f (end_task u (pool m))) as [[v|e] p'] eqn:Ea; [|done].
    exists (Stats (n + -1) None false (Manager fs0 p')). split; [|split; [|cbn; lia]].
    + unfold manage_stop, acquire, release, set_object, add_count, get, put, on_tm, with_pool, get_task_result,
        dict_get, try_except, on_pool, mbind, M_bind, gets, lift, set_futures, modify. cbn.
      rewrite E. cbn. rewrite Hf, lookup_insert_eq. cbn. rewrite Ea. cbn. by rewrite delete_insert_id.
    + unfold shared_inv. cbn. split_and!; [done|lia|lia|done].
  - exists (Stats (n + -1) (Some u) false m). split; [|split; [|cbn; lia]].
    + unfold manage_stop, acquire, release, add_count, get, put, mbind, M_bind, gets. cbn. by rewrite E.
    + unfold shared_inv. cbn. split_and!; [done|lia|lia|done|by exists f].
Qed.

Lemma tick_ok fs0 s :
  shared_inv fs0 s →
  ∃ s', on_tm (with_pool tick) s = (Ok tt, s') ∧ shared_inv fs0 s' ∧ count s' = count s.
Proof.
  intros (Hl & Hn & Ho). eexists. split; [done|]. split; [|done]. unfold shared_inv. cbn.
  split_and!; [done|done|]. destruct (object s) as [u|]; [|done].
  destruct Ho as (H1 & H2 & f & Hf & Hown). split_and!; [done|done|]. exists f. split; [done|].
  by apply (owns_tick _ _ _ Hst).
Qed.

Lemma use_shared_ok fs0 us s n :
  shared_inv fs0 s →
  Forall (λ u, match u with UStart t => good t ∧ fs0 !! thread_name t = None | _ => True end) us →
  balance (count s) us = Some n →
  ∃ s', mfor us (use_shared thread_name end_task) s = (Ok tt, s') ∧ shared_inv fs0 s' ∧ count s' = n.
Proof.
  intros Hs Hus. revert s Hs. induction Hus as [|u us Hu Hus IH]; intros s Hs Hb.
  - exists s. injection Hb as <-. done.
  - assert (∃ s1, use_shared thread_name end_task u s = (Ok tt, s1) ∧ shared_inv fs0 s1 ∧
      balance (count s1) us = Some n) as (s1 & H1 & Hs1 & Hb1).
    { destruct u as [t| |]; cbn [balance] in Hb.
      - destruct Hu as [Hg Hf]. destruct (manage_start_ok fs0 t s Hs Hg Hf) as (s1 & H1 & Hs1 & Hc).
        exists s1. by rewrite Hc.
      - destruct (0 <? count s) eqn:E; [|done].
        destruct (manage_stop_ok fs0 s Hs) as (s1 & H1 & Hs1 & Hc); [lia|]. exists s1. by rewrite Hc.
      - destruct (tick_ok fs0 s Hs) as (s1 & H1 & Hs1 & Hc). exists s1. by rewrite Hc. }
    cbn [mfor]. rewrite (bind_Ok _ _ _ tt s1) by done. by apply IH.
Qed.
End Shared.

(** The statistics task is shared: starting from no users, any sequence of starts
    and stops, with time passing in between, in which every stop has a start before it runs to its end, with the lock
    free again; the task exists exactly while somebody uses it, the manager
    then has its future besides those it had, and after the last stop the manager has
    the futures it had.  One stop too many breaks this: the count is one too low from
    then on, so that the stop for the next start does not end its task. *)
Theorem shared_task {P T F R} `{HE : Executor P T F R} (thread_name : T → pystr) end_task good owns
    (m : manager P F) us n t :
  stoppable end_task good owns → good t →
  Forall (λ u, match u with UStart t => good t ∧ futures m !! thread_name t = None | _ => True end) us →
  balance 0 us = Some n →
  let idle := Stats 0 None false m in
  (∃ s, mfor us (use_shared thread_name end_task) idle = (Ok tt, s) ∧ lock s = false ∧ count s = n ∧
     (n = 0 → object s = None ∧ futures (tm s) = futures m) ∧
     (0 < n → ∃ u f, object s = Some u ∧ futures (tm s) = <[thread_name u := f]> (futures m))) ∧
  (∃ s f, mfor [UStop; UStart t; UStop] (use_shared thread_name end_task) idle = (Ok tt, s) ∧
     count s = -1 ∧ object s = Some t ∧ futures (tm s) = <[thread_name t := f]> (futures m)).
Proof.
  intros Hst Hg Hus Hb idle. split.
  - destruct (use_shared_ok thread_name end_task good owns Hst (futures m) us idle n)
      as (s & Hrun & (Hl & Hc & Ho) & Hn); [by split_and!|done|done|].
    exists s. split_and!; [done|done|done| |]; intros Hz; destruct (object s) as [u|]; rewrite Hn in Ho; try lia.
    + by destruct Ho.
    + destruct Ho as (_ & _ & f & Hf & _). eauto.
  - destruct (submit_good _ _ _ Hst t (pool m) Hg) as (f & p' & Hs & _).
    exists (Stats (-1) (Some t) false (Manager (<[thread_name t := f]> (futures m)) p')), f.
    split; [|done]. unfold idle. cbn [mfor].
    rewrite (bind_Ok _ _ _ tt (Stats (-1) None false m)) by done.
    rewrite (bind_Ok _ _ _ tt _ (manage_start_idle thread_name t (-1) m f p' Hs)). done.
Qed.
Lemma shared_task_witness :
  let t : pystr * nat * option Z := (py "PrintBucketStats_b_1", 5%nat, Some 1) in
  ∃ s, mfor [UStart t; UTick; UStart t; UStop; UStop]
         (use_shared (λ t : pystr * nat * option Z, t.1.1) (λ _ p, p))
         (Stats 0 None false (Manager ∅ [])) = (Ok tt, s) ∧ count s = 0.
Proof.
  intros t.
  destruct (shared_task (λ t : pystr * nat * option Z, t.1.1) (λ _ (p : list Demo.future), p)
    (λ t, is_Some t.2)
    (λ _ f p, ∃ v : Z, p !! f = Some (Demo.Finished (Some v)) ∨ ∃ n, p !! f = Some (Demo.Running n (Some v)))
    (Manager ∅ []) [UStart t; UTick; UStart t; UStop; UStop] 0 t) as [(s & Hrun & _ & Hc & _) _].
  - split.
    + intros [[k n] o] p [v Hv]. cbn in Hv. subst o. eexists _, _. split; [reflexivity|].
      exists v. right. exists n. cbn. rewrite lookup_app_r by lia. by rewrite Nat.sub_diag.
    + intros _ f p [v Hv]. exists v. cbn. rewrite list_lookup_fmap.
      destruct Hv as [->|[[|n] ->]]; cbn; [by left|by left|right; by exists n].
    + intros _ f p [v Hv]. cbn. by destruct Hv as [->|[n ->]].
  - by eexists.
  - repeat constructor; by eexists.
  - reflexivity.
  - exists s. split; [exact Hrun|exact Hc].
Defined.
