(* ===== verification/EventLog.v ===== *)
(** * lib/SystemEventLogLib/Events.py: the system event log of a test

    [EventHelper] records the events that a test expects and validates them against
    those that the cluster reports: timestamps in order, no event id twice on a node within
    a minute, and the expected events among the reported ones, in order.
    Events are JSON objects; what the cluster reports is an argument of [validate]. *)

From S2P Require Import Prelude Py Json.
Local Open Scope string_scope.
Local Open Scope list_scope.
Local Open Scope Z_scope.

(** ** Constants *)

(** [CbServer.sys_event_def_logs], [CbServer.sys_event_log_uuid_uniqueness_time] *)
Definition max_events : Z := 10000.
Definition blocked_window : Z := 60.
(** [Event.Fields.values(only_mandatory_fields=True)] *)
Definition mandatory_fields : list pystr :=
  [py "event_id"; py "uuid"; py "component"; py "timestamp"; py "severity"; py "description"].

(** ** Timestamps *)

Record datetime := DateTime {
  year : Z; month : Z; day : Z; hour : Z; minute : Z; sec : Z; usec : Z
}.
Definition leap (y : Z) : bool := (y mod 4 =? 0) && (negb (y mod 100 =? 0) || (y mod 400 =? 0)).
Definition days_in_month (y m : Z) : Z :=
  if m =? 2 then (if leap y then 29 else 28)
  else if (m =? 4) || (m =? 6) || (m =? 9) || (m =? 11) then 30 else 31.
(** What the [datetime] constructor accepts. *)
Definition valid_datetime (d : datetime) : bool :=
  (1 <=? year d) && (year d <=? 9999) && (1 <=? month d) && (month d <=? 12) &&
  (1 <=? day d) && (day d <=? days_in_month (year d) (month d)) &&
  (0 <=? hour d) && (hour d <=? 23) && (0 <=? minute d) && (minute d <=? 59) &&
  (0 <=? sec d) && (sec d <=? 59) && (0 <=? usec d) && (usec d <=? 999999).

(** Microseconds since the start of year 1. *)
Definition days_before_month (y m : Z) : Z :=
  foldr (λ k acc, days_in_month y k + acc) 0 (seqZ 1 (m - 1)).
Definition ordinal (d : datetime) : Z :=
  365 * (year d - 1) + (year d - 1) / 4 - (year d - 1) / 100 + (year d - 1) / 400 +
  days_before_month (year d) (month d) + (day d - 1).
Definition micros (d : datetime) : Z :=
  (((ordinal d * 24 + hour d) * 60 + minute d) * 60 + sec d) * 1000000 + usec d.

(** [get_timestamp_format] *)
Definition get_timestamp_format (d : datetime) : pystr :=
  let ms_str := take 3 (zfill 6 (str_of_Z (usec d))) in
  zfill 4 (str_of_Z (year d)) ++ py "-" ++ zfill 2 (str_of_Z (month d)) ++ py "-" ++ zfill 2 (str_of_Z (day d)) ++
  py "T" ++ zfill 2 (str_of_Z (hour d)) ++ py ":" ++ zfill 2 (str_of_Z (minute d)) ++ py ":" ++
  zfill 2 (str_of_Z (sec d)) ++ py "." ++ ms_str ++ py "Z".

(** A number of [a] to [b] digits. *)
Definition digits (a b : nat) (s : pystr) : res Z :=
  if bool_decide (a ≤ length s ≤ b)%nat then of_option ValueError (digits_val 0 s) else raise ValueError.
(** [get_datetime_obj_from_str]: [strptime] with the format %Y-%m-%dT%H:%M:%S.%fZ; a fraction is
    filled up with zeros to six digits. *)
Definition get_datetime_obj_from_str (s : pystr) : res datetime :=
  match split_on "T"%char s with
  | [date; time] =>
      match split_on "-"%char date, split_on ":"%char time with
      | [y; mo; d], [h; mi; rest] =>
          match split_on "."%char rest with
          | [se; frac] =>
              match rev frac with
              | z :: f =>
                  if bool_decide (z = "Z"%char) then
                    let f := rev f in
                    y ← digits 4 4 y; mo ← digits 1 2 mo; d ← digits 1 2 d;
                    h ← digits 1 2 h; mi ← digits 1 2 mi; se ← digits 1 2 se;
                    _ ← digits 1 6 f; us ← digits 6 6 (ljust 6 "0"%char f);
                    let dt := DateTime y mo d h mi se us in
                    if valid_datetime dt then Ok dt else raise ValueError
                  else raise ValueError
              | [] => raise ValueError
              end
          | _ => raise ValueError
          end
      | _, _ => raise ValueError
      end
  | _ => raise ValueError
  end.

(** ** Order and duplicates of the reported events *)

Inductive failure :=
  | NotOrdered (uuid curr prev : pystr)
  | DuplicateUuid (uuid prev curr : pystr)
  | DuplicateIds
  | Unable (index : nat).

(** The fields of a reported event that are looked at. *)
Record seen := Seen { e_uuid : pystr; e_time : pystr; e_node : pystr }.
Definition seen_of (event : json) : res seen :=
  u ← json_get event "uuid"; u ← json_str u;
  t ← json_get event "timestamp"; t ← json_str t;
  n ← json_get event "node"; n ← json_str n;
  Ok (Seen u t n).

(** The state of the loop of [__duplicate_event_ids_present]. *)
Record scan := Scan {
  sc_present : bool; sc_failures : list failure;
  sc_nodes : gmap pystr (gmap pystr pystr); sc_prev : option pystr
}.
Definition scan_event (e : seen) (s : scan) : res scan :=
  curr ← get_datetime_obj_from_str (e_time e);
  s ← match sc_prev s with
      | None => Ok s
      | Some p =>
          prev ← get_datetime_obj_from_str p;
          Ok (if micros curr <? micros prev
              then Scan true (sc_failures s ++ [NotOrdered (e_uuid e) (e_time e) p]) (sc_nodes s) (sc_prev s)
              else s)
      end;
  let node := default ∅ (sc_nodes s !! e_node e) in
  s ← match node !! e_uuid e with
      | None => Ok s
      | Some p =>
          prev ← get_datetime_obj_from_str p;
          Ok (if micros curr - micros prev <? blocked_window * 1000000
              then Scan true (sc_failures s ++ [DuplicateUuid (e_uuid e) p (e_time e)]) (sc_nodes s) (sc_prev s)
              else s)
      end;
  Ok (Scan (sc_present s) (sc_failures s)
        (<[e_node e := <[e_uuid e := e_time e]> node]> (sc_nodes s)) (Some (e_time e))).
Fixpoint scan_events (es : list json) (s : scan) : res scan :=
  match es with
  | [] => Ok s
  | e :: es => e ← seen_of e; s ← scan_event e s; scan_events es s
  end.
(** [__duplicate_event_ids_present]: the flag and the failures it appends. *)
Definition duplicate_event_ids_present (es : list json) (failures : list failure) : res (bool * list failure) :=
  s ← scan_events es (Scan false failures ∅ None);
  Ok (sc_present s, sc_failures s).

(** ** Comparing events *)

(** [list.sort]: a stable sort by Python 2's order, in which None comes before
    numbers, numbers before everything else, and strings last; nested lists and
    objects, which the events have not, keep their places. *)
Fixpoint str_leb (a b : pystr) : bool :=
  match a, b with
  | [], _ => true
  | _, [] => false
  | x :: a, y :: b => if ord x <? ord y then true else (ord x =? ord y) && str_leb a b
  end.
Definition json_rank (j : json) : Z :=
  match j with JNull => 0 | JBool _ | JInt _ => 1 | JObj _ => 2 | JList _ => 3 | JStr _ => 4 end.
Definition json_num (j : json) : Z :=
  match j with JInt n => n | JBool true => 1 | _ => 0 end.
Definition json_leb (a b : json) : bool :=
  match a, b with
  | JStr s, JStr t => str_leb s t
  | _, _ => if json_rank a =? json_rank b then json_num a <=? json_num b else json_rank a <? json_rank b
  end.
Fixpoint insert_sorted (x : json) (l : list json) : list json :=
  match l with
  | [] => [x]
  | y :: l => if json_leb x y then x :: y :: l else y :: insert_sorted x l
  end.
Definition py_sort (l : list json) : list json := foldr insert_sorted [] l.

(** [cluster_event[key]] after the test [key in cluster_event]: [None] skips the
    key.  Of a text or a list the key may be a part, but then indexing raises. *)
Definition lookup_key (cluster : json) (key : pystr) : res (option json) :=
  match cluster with
  | JObj fields => Ok (assoc key fields)
  | JStr s => if contains key s then raise TypeError else Ok None
  | JList l => if existsb (λ j, match j with JStr s => bool_decide (s = key) | _ => false end) l
               then raise TypeError else Ok None
  | _ => raise TypeError
  end.

(** [extract_req_values]: the extracted fields, and the fields of the local event, whose lists
    may have been sorted. *)
Fixpoint extract_req_values (local : json) (cluster : json) : res (list (pystr * json) * list (pystr * json)) :=
  match local with
  | JObj fields =>
      (fix go (fields : list (pystr * json)) : res (list (pystr * json) * list (pystr * json)) :=
         match fields with
         | [] => Ok ([], [])
         | (key, lv) :: fields =>
             o ← lookup_key cluster key;
             match o with
             | None => ol ← go fields; Ok (ol.1, (key, lv) :: ol.2)
             | Some cv =>
                 match lv with
                 | JObj _ =>
                     sub ← extract_req_values lv cv;
                     ol ← go fields;
                     Ok ((key, JObj sub.1) :: ol.1, (key, JObj sub.2) :: ol.2)
                 | _ =>
                     match cv with
                     | JList cl =>
                         match lv with
                         | JList ll =>
                             ol ← go fields;
                             Ok ((key, JList (py_sort cl)) :: ol.1, (key, JList (py_sort ll)) :: ol.2)
                         | _ => raise AttributeError
                         end
                     | _ => ol ← go fields; Ok ((key, cv) :: ol.1, (key, lv) :: ol.2)
                     end
                 end
             end
         end) fields
  | _ => raise AttributeError
  end.

(** One comparison of a reported with an expected event: whether they agree, and the expected event. *)
Definition attempt (local cluster : json) : res (bool * json) :=
  ol ← extract_req_values local cluster;
  Ok (json_eqb (JObj ol.1) (JObj ol.2), JObj ol.2).

(** ** [EventHelper] *)

(** A recorded event, or a group of events that happen in parallel. *)
Inductive recorded := One (e : json) | Many (es : list json).
Record helper := Helper {
  test_start_time : option pystr; events : list recorded; parallel_events : bool; counter : Z
}.
Definition new_helper : helper := Helper None [] false 0.
Abbreviation MH := (M helper).

(** [set_test_start_time], [_set_counter], [enable_parallel_events], [disable_parallel_events] *)
Definition set_test_start_time (now : datetime) : MH unit :=
  modify (λ h, Helper (Some (get_timestamp_format now)) (events h) (parallel_events h) (counter h)).
Definition set_counter (n : Z) : MH unit :=
  modify (λ h, Helper (test_start_time h) (events h) (parallel_events h) n).
Definition enable_parallel_events : MH unit :=
  modify (λ h, Helper (test_start_time h) (events h ++ [Many []]) true (counter h)).
Definition disable_parallel_events : MH unit :=
  modify (λ h, Helper (test_start_time h) (events h) false (counter h)).

(** [self.events[-1].append(event_dict)] *)
Definition append_last (e : json) (l : list recorded) : res (list recorded) :=
  match last l with
  | None => raise IndexError
  | Some (One _) => raise AttributeError
  | Some (Many es) => Ok (removelast l ++ [Many (es ++ [e])])
  end.
(** [add_event] *)
Definition add_event (e : json) : MH unit :=
  h ← get;
  match test_start_time h with
  | None => mret tt
  | Some _ =>
      es ← lift (if parallel_events h then append_last e (events h) else Ok (events h ++ [One e]));
      let n := counter h + 1 in
      _ ← put (Helper (test_start_time h) es (parallel_events h) n);
      if max_events <? n then
        match es with
        | [] => mraise IndexError
        | _ :: es => put (Helper (test_start_time h) es (parallel_events h) n)
        end
      else mret tt
  end.

(** [update_event_extra_attrs]: [event["extra_attributes"] = extra_attr_dict] *)
Fixpoint set_field (k : pystr) (v : json) (fields : list (pystr * json)) : list (pystr * json) :=
  match fields with
  | [] => [(k, v)]
  | (k', v') :: fields => if bool_decide (k' = k) then (k, v) :: fields else (k', v') :: set_field k v fields
  end.
Definition update_event_extra_attrs (event attrs : json) : res json :=
  fields ← json_obj event; Ok (JObj (set_field (py "extra_attributes") attrs fields)).

(** The matching loop of [validate]; [Some] index when the loop was not left by [break]. *)
Fixpoint match_loop (cluster : list json) (count : Z) (v_index : nat) (evs : list recorded) :
    res (option nat * list recorded) :=
  match cluster with
  | [] => Ok (Some v_index, evs)
  | c :: cluster =>
      r ← list_get evs v_index;
      match r with
      | Many _ => match_loop cluster count v_index evs
      | One l =>
          bl ← attempt l c;
          let evs := <[v_index := One bl.2]> evs in
          if (bl.1 : bool) then
            if (Z.of_nat (S v_index) =? count) || (Z.of_nat (S v_index) =? max_events) then Ok (None, evs)
            else match_loop cluster count (S v_index) evs
          else match_loop cluster count v_index evs
      end
  end.

(** [validate]: [all] are all the events of the cluster, [since] those of the time asked for. *)
Definition validate (all since : list json) : MH (list failure) :=
  h ← get;
  match events h with
  | [] => mret []
  | _ =>
      df ← lift (duplicate_event_ids_present all []);
      let failures := if (df.1 : bool) then df.2 ++ [DuplicateIds] else df.2 in
      ov ← lift (match_loop since (counter h) 0 (events h));
      _ ← put (Helper (test_start_time h) ov.2 (parallel_events h) (counter h));
      match ov.1 with
      | None => mret failures
      | Some v => _ ← lift (list_get ov.2 v); mret (failures ++ [Unable v])
      end
  end.

(** ** Proofs: timestamps *)

Lemma digits_fixed a b k n :
  (0 < k)%nat → 0 ≤ n < 10 ^ Z.of_nat k → (a ≤ k ≤ b)%nat → digits a b (zfill (Z.of_nat k) (str_of_Z n)) = Ok n.
Proof.
  intros Hk Hn Hab. unfold digits. rewrite digits_val_zfill by lia.
  rewrite zfill_fixed, length_fixed by done. by rewrite bool_decide_eq_true_2.
Qed.
Lemma no_sep c k n : digit_val c = None → (0 < k)%nat → 0 ≤ n < 10 ^ Z.of_nat k → c ∉ zfill (Z.of_nat k) (str_of_Z n).
Proof. intros Hc Hk Hn. rewrite zfill_fixed by done. apply not_in_digits; [done|]. apply fixed_digits. Qed.

(** The milliseconds are the first three digits of the microseconds. *)
Lemma ms_digits us :
  0 ≤ us < 1000000 → take 3 (zfill 6 (str_of_Z us)) = zfill 3 (str_of_Z (us / 1000)).
Proof.
  intros Hu. change 6 with (Z.of_nat 6). change 3 with (Z.of_nat 3).
  assert (0 ≤ us / 1000 < 1000) as Hd by (split; [apply Z.div_pos; lia|apply Z.div_lt_upper_bound; lia]).
  rewrite !zfill_fixed by (done || cbn; lia).
  replace (Z.to_N (us / 1000)) with (Z.to_N us / 10 / 10 / 10)%N.
  - set (n := Z.to_N us).
    assert (∀ a b, fixed 6 n = a ++ b → length a = 3%nat → take 3 (fixed 6 n) = a) as Ht.
    { intros a b -> Hl. by apply take_app_exact. }
    eapply Ht; [|apply length_fixed]. cbn [fixed]. by rewrite <- !app_assoc.
  - rewrite !N.Div0.div_div. rewrite Z2N.inj_div by lia. done.
Qed.
Lemma frac_digits ms :
  0 ≤ ms < 1000 →
  digits 1 6 (zfill 3 (str_of_Z ms)) = Ok ms ∧
  digits 6 6 (ljust 6 "0"%char (zfill 3 (str_of_Z ms))) = Ok (ms * 1000).
Proof.
  intros Hm. change 3 with (Z.of_nat 3). split; [apply digits_fixed; cbn; lia|].
  unfold ljust, digits, len. rewrite length_app, length_replicate, digits_val_app.
  rewrite digits_val_zfill by lia.
  replace (length (zfill (Z.of_nat 3) (str_of_Z ms))) with 3%nat by (by rewrite zfill_fixed, length_fixed by (cbn; lia)).
  change (Z.to_nat (6 - Z.of_nat 3)) with 3%nat. rewrite bool_decide_eq_true_2 by lia.
  transitivity (@Ok Z (10 * (10 * (10 * ms + 0) + 0) + 0)); [reflexivity|]. f_equal. lia.
Qed.

Lemma valid_bounds d : valid_datetime d = true →
  1 ≤ year d ≤ 9999 ∧ 1 ≤ month d ≤ 12 ∧ 1 ≤ day d ≤ 31 ∧ 0 ≤ hour d ≤ 23 ∧ 0 ≤ minute d ≤ 59 ∧
  0 ≤ sec d ≤ 59 ∧ 0 ≤ usec d ≤ 999999.
Proof.
  unfold valid_datetime. rewrite !andb_true_iff, !Z.leb_le.
  assert (days_in_month (year d) (month d) ≤ 31) by (unfold days_in_month; repeat case_match; lia). lia.
Qed.

Lemma split2 c a b : c ∉ a → c ∉ b → split_on c (a ++ c :: b) = [a; b].
Proof. intros Ha Hb. by rewrite split_on_app, split_on_word. Qed.
Lemma split3 c a b d : c ∉ a → c ∉ b → c ∉ d → split_on c (a ++ c :: b ++ c :: d) = [a; b; d].
Proof. intros Ha Hb Hd. by rewrite split_on_app, split2. Qed.
Lemma not_elem_mid (c x : ascii) a b : c ∉ a → c ≠ x → c ∉ b → c ∉ a ++ x :: b.
Proof. intros Ha Hx Hb. by rewrite elem_of_app, elem_of_cons; intros [?|[?|?]]. Qed.

(** A timestamp that [get_timestamp_format] writes is read back by
    [get_datetime_obj_from_str] as the same time cut to whole milliseconds; and so
    reading never gives a later time, nor one that is a millisecond earlier. *)
Theorem timestamp_roundtrip d :
  valid_datetime d = true →
  let d' := DateTime (year d) (month d) (day d) (hour d) (minute d) (sec d) (usec d / 1000 * 1000) in
  get_datetime_obj_from_str (get_timestamp_format d) = Ok d' ∧ micros d - 1000 < micros d' ≤ micros d.
Proof.
  intros Hv d'. pose proof (valid_bounds d Hv) as (Hy & Hmo & Hd & Hh & Hmi & Hs & Hu).
  assert (0 ≤ usec d / 1000 < 1000) as Hms
    by (split; [apply Z.div_pos; lia|apply Z.div_lt_upper_bound; lia]).
  split.
  - unfold get_timestamp_format. rewrite ms_digits by lia.
    change 4 with (Z.of_nat 4). change 2 with (Z.of_nat 2). change 3 with (Z.of_nat 3).
    set (y := zfill _ (str_of_Z (year d))). set (mo := zfill _ (str_of_Z (month d))).
    set (dd := zfill _ (str_of_Z (day d))). set (h := zfill _ (str_of_Z (hour d))).
    set (mi := zfill _ (str_of_Z (minute d))). set (se := zfill _ (str_of_Z (sec d))).
    set (f := zfill _ (str_of_Z (usec d / 1000))).
    assert (∀ c, digit_val c = None → c ∉ y ∧ c ∉ mo ∧ c ∉ dd ∧ c ∉ h ∧ c ∉ mi ∧ c ∉ se ∧ c ∉ f) as Hsep
      by (intros c Hc; split_and!; apply no_sep; (done || cbn; lia)).
    destruct (Hsep "T"%char eq_refl) as (T1 & T2 & T3 & T4 & T5 & T6 & T7).
    destruct (Hsep "-"%char eq_refl) as (D1 & D2 & D3 & _).
    destruct (Hsep ":"%char eq_refl) as (_ & _ & _ & C4 & C5 & C6 & C7).
    destruct (Hsep "."%char eq_refl) as (_ & _ & _ & _ & _ & P6 & P7).
    unfold get_datetime_obj_from_str.
    replace (split_on "T"%char _) with
      [y ++ "-"%char :: mo ++ "-"%char :: dd; h ++ ":"%char :: mi ++ ":"%char :: se ++ "."%char :: f ++ ["Z"%char]].
    2:{ symmetry. transitivity (split_on "T"%char ((y ++ "-"%char :: mo ++ "-"%char :: dd) ++ "T"%char ::
          h ++ ":"%char :: mi ++ ":"%char :: se ++ "."%char :: f ++ ["Z"%char])).
        - f_equal. repeat (rewrite <- app_assoc; cbn [app]). done.
        - apply split2; repeat apply not_elem_mid; (done || apply not_elem_of_nil). }
    rewrite split3 by done. rewrite split3; [|done|done|repeat apply not_elem_mid; (done || apply not_elem_of_nil)].
    rewrite split2; [|done|apply not_elem_mid; (done || apply not_elem_of_nil)].
    rewrite rev_app_distr. cbn [rev app]. rewrite bool_decide_eq_true_2, rev_involutive by done.
    unfold y, mo, dd, h, mi, se, f.
    rewrite !digits_fixed by (cbn; lia). cbn [mbind res_bind].
    destruct (frac_digits (usec d / 1000)) as [F1 F2]; [lia|]. change (Z.of_nat 3) with 3. rewrite F2. cbn [mbind res_bind].
    replace (valid_datetime _) with true; [done|]. symmetry. revert Hv. unfold valid_datetime. cbn.
    rewrite !andb_true_iff, !Z.leb_le. lia.
  - unfold micros, ordinal. cbn. pose proof (Z.div_mod (usec d) 1000). pose proof (Z.mod_pos_bound (usec d) 1000). lia.
Qed.
Lemma timestamp_roundtrip_witness :
  get_datetime_obj_from_str (get_timestamp_format (DateTime 2022 2 28 9 5 59 123456)) =
    Ok (DateTime 2022 2 28 9 5 59 123000).
Proof. exact (proj1 (timestamp_roundtrip (DateTime 2022 2 28 9 5 59 123456) eq_refl)). Defined.

(** ** Proofs: order and duplicates *)

(** An event with its time in microseconds. *)
Abbreviation timed := (seen * Z)%type.
Definition reads (e : json) (k : timed) : Prop :=
  ∃ d, seen_of e = Ok k.1 ∧ get_datetime_obj_from_str (e_time k.1) = Ok d ∧ micros d = k.2.
Definition same (a b : timed) : Prop := e_node a.1 = e_node b.1 ∧ e_uuid a.1 = e_uuid b.1.
#[global] Instance same_dec a b : Decision (same a b).
Proof. unfold same. apply _. Defined.
(** Event [a] may come before event [b]. *)
Definition before_ok (a b : timed) : Prop :=
  a.2 ≤ b.2 ∧ (same a b → blocked_window * 1000000 ≤ b.2 - a.2).
Definition pairwise {A} (R : A → A → Prop) (l : list A) : Prop :=
  ∀ l1 a l2 b l3, l = l1 ++ a :: l2 ++ b :: l3 → R a b.

Lemma pairwise_nil {A} (R : A → A → Prop) : pairwise R [].
Proof. intros l1 a l2 b l3 H. by destruct l1. Qed.
Lemma pairwise_snoc {A} (R : A → A → Prop) l x :
  pairwise R (l ++ [x]) ↔ pairwise R l ∧ Forall (λ a, R a x) l.
Proof.
  split.
  - intros H. split.
    + intros l1 a l2 b l3 ->. apply (H l1 a l2 b (l3 ++ [x])). rewrite <- app_assoc. cbn. by rewrite <- app_assoc.
    + apply Forall_forall. intros a (l1 & l2 & ->)%list_elem_of_split. apply (H l1 a l2 x []).
      by rewrite <- app_assoc.
  - intros [H Hx] l1 a l2 b l3 E. rewrite Forall_forall in Hx.
    destruct l3 as [|c l3 _] using rev_ind.
    + assert (l ++ [x] = (l1 ++ a :: l2) ++ [b]) as E' by (rewrite E; by rewrite <- app_assoc).
      apply app_inj_tail in E' as [-> ->]. apply Hx. set_solver.
    + assert (l ++ [x] = (l1 ++ a :: l2 ++ b :: l3) ++ [c]) as E'.
      { rewrite E. repeat (rewrite <- app_assoc; cbn [app]). done. }
      apply app_inj_tail in E' as [-> _]. by eapply H.
Qed.

Lemma last_same (ks : list timed) k a :
  a ∈ ks → same a k → ∃ ks1 l ks2, ks = ks1 ++ l :: ks2 ∧ same l k ∧ Forall (λ k', ¬ same k' k) ks2.
Proof.
  induction ks as [|x ks IH] using rev_ind; [set_solver|]. intros Ha Hs.
  destruct (decide (same x k)) as [Hx|Hx]; [by exists ks, x, []|].
  destruct IH as (ks1 & l & ks2 & -> & Hl & Hno); [|done|].
  - apply elem_of_app in Ha as [Ha|Ha%list_elem_of_singleton]; [done|]. by subst.
  - exists ks1, l, (ks2 ++ [x]). rewrite <- app_assoc. split_and!; [done|done|].
    apply Forall_app. split; [done|by apply Forall_singleton].
Qed.

(** The last event of a node with an id, as the table of the scan has it. *)
Definition last_occ (ks : list timed) (nd u : pystr) (o : option pystr) : Prop :=
  match o with
  | None => Forall (λ k, ¬ (e_node k.1 = nd ∧ e_uuid k.1 = u)) ks
  | Some p => ∃ ks1 l ks2, ks = ks1 ++ l :: ks2 ∧ e_node l.1 = nd ∧ e_uuid l.1 = u ∧ e_time l.1 = p ∧
                Forall (λ k, ¬ (e_node k.1 = nd ∧ e_uuid k.1 = u)) ks2
  end.
Definition table (s : scan) (nd u : pystr) : option pystr := default ∅ (sc_nodes s !! nd) !! u.

Lemma last_occ_snoc ks k nd u o :
  last_occ ks nd u o →
  last_occ (ks ++ [k]) nd u (if decide (e_node k.1 = nd ∧ e_uuid k.1 = u) then Some (e_time k.1) else o).
Proof.
  intros Ho. case_decide as Hk.
  - exists ks, k, []. naive_solver.
  - destruct o as [p|]; cbn in *.
    + destruct Ho as (ks1 & l & ks2 & -> & H1 & H2 & H3 & H4). exists ks1, l, (ks2 ++ [k]).
      rewrite <- app_assoc. split_and!; [done..|]. apply Forall_app. split; [done|by apply Forall_singleton].
    + apply Forall_app. split; [done|by apply Forall_singleton].
Qed.

(** Given good events so far, the next one is good when it is not before the last one
    and far enough from the last one with its node and id. *)
Lemma next_ok ks k :
  pairwise before_ok ks →
  Forall (λ a, before_ok a k) ks ↔
    (∀ l, last ks = Some l → l.2 ≤ k.2) ∧
    (∀ ks1 l ks2, ks = ks1 ++ l :: ks2 → same l k → Forall (λ k', ¬ same k' k) ks2 →
       blocked_window * 1000000 ≤ k.2 - l.2).
Proof.
  intros Hp. rewrite Forall_forall. split.
  - intros H. split.
    + intros l [ks' ->]%last_Some. apply H. set_solver.
    + intros ks1 l ks2 -> Hs _. apply H; [set_solver|done].
  - intros [Hl Hs].
    assert (∀ a, a ∈ ks → a.2 ≤ k.2) as Hle.
    { intros a Ha. destruct (last ks) as [l|] eqn:E; [|apply last_None in E; subst; set_solver].
      specialize (Hl l eq_refl). apply last_Some in E as [ks' ->].
      apply elem_of_app in Ha as [(l1 & l2 & ->)%list_elem_of_split|Ha%list_elem_of_singleton]; [|by subst].
      destruct (Hp l1 a l2 l []) as [Hal _]; [by rewrite <- app_assoc|]. lia. }
    intros a Ha. split; [by apply Hle|]. intros Hsa.
    destruct (last_same ks k a Ha Hsa) as (ks1 & l & ks2 & E & Hsl & Hno).
    specialize (Hs ks1 l ks2 E Hsl Hno). rewrite E in Ha.
    apply elem_of_app in Ha as [(l1 & l2 & ->)%list_elem_of_split|[->|Ha]%elem_of_cons]; [|done|].
    + destruct (Hp l1 a l2 l ks2) as [Hal _]; [by rewrite E, <- app_assoc|]. lia.
    + rewrite Forall_forall in Hno. by destruct (Hno a Ha).
Qed.

Lemma last_unique {A} (Q : A → Prop) (l1 l1' l2 l2' : list A) x x' l :
  l = l1' ++ x' :: l2' → l = l1 ++ x :: l2 → Q x → Q x' →
  Forall (λ y, ¬ Q y) l2 → Forall (λ y, ¬ Q y) l2' → x' = x.
Proof.
  intros E' E Hx Hx'. revert l2' l E' E. revert l2. 
  induction l1 as [|a l1 IH] in l1' |- *; intros l2 l2' l E' E Hn Hn'; destruct l1' as [|a' l1']; subst;
    cbn in E; injection E as -> E.
  - done.
  - rewrite Forall_forall in Hn. destruct (Hn x'); [rewrite <- E; set_solver|done].
  - rewrite Forall_forall in Hn'. destruct (Hn' x); [rewrite E; set_solver|done].
  - by eapply (IH l1').
Qed.

Definition parsed (k : timed) : Prop :=
  ∃ d, get_datetime_obj_from_str (e_time k.1) = Ok d ∧ micros d = k.2.
Record scan_inv (ks : list timed) (s : scan) : Prop := {
  inv_present : sc_present s = false ↔ pairwise before_ok ks;
  inv_failures : sc_present s = false ↔ sc_failures s = [];
  inv_prev : sc_prev s = e_time ∘ fst <$> last ks;
  inv_table nd u : last_occ ks nd u (table s nd u);
  inv_parsed : Forall parsed ks
}.

(** The two checks of a step, on times. *)
Definition late (ks : list timed) (k : timed) : bool :=
  match last ks with Some l => k.2 <? l.2 | None => false end.
Lemma scan_event_eq ks s k :
  scan_inv ks s → parsed k →
  ∃ dup s', scan_event k.1 s = Ok s' ∧
    (dup = false ↔ ∀ ks1 l ks2, ks = ks1 ++ l :: ks2 → same l k → Forall (λ k', ¬ same k' k) ks2 →
       blocked_window * 1000000 ≤ k.2 - l.2) ∧
    sc_present s' = sc_present s || late ks k || dup ∧
    (sc_failures s' = [] ↔ sc_failures s = [] ∧ late ks k = false ∧ dup = false) ∧
    sc_prev s' = Some (e_time k.1) ∧
    sc_nodes s' = <[e_node k.1 := <[e_uuid k.1 := e_time k.1]> (default ∅ (sc_nodes s !! e_node k.1))]> (sc_nodes s).
Proof.
  intros [_ _ Hprev Htab Hpar] (d & Hd & Hk).
  rewrite Forall_forall in Hpar.
  set (s1 := if late ks k then Scan true (sc_failures s ++ [NotOrdered (e_uuid k.1) (e_time k.1)
               (default [] (sc_prev s))]) (sc_nodes s) (sc_prev s) else s).
  assert ((match sc_prev s with
      | None => Ok s
      | Some p =>
          prev ← get_datetime_obj_from_str p;
          Ok (if micros d <? micros prev
              then Scan true (sc_failures s ++ [NotOrdered (e_uuid k.1) (e_time k.1) p]) (sc_nodes s) (sc_prev s)
              else s)
      end) = Ok s1) as H1.
  { unfold s1, late. rewrite Hprev. destruct (last ks) as [l|] eqn:El; cbn; [|done].
    destruct (Hpar l) as (dl & -> & Hdl); [by apply last_Some_elem_of|]. cbn. by rewrite Hk, Hdl. }
  assert (sc_nodes s1 = sc_nodes s) as Hnodes by (unfold s1; by destruct (late ks k)).
  unfold scan_event. rewrite Hd. cbn [mbind res_bind]. rewrite H1. cbn [mbind res_bind]. rewrite Hnodes.
  specialize (Htab (e_node k.1) (e_uuid k.1)). unfold table in Htab.
  destruct (default ∅ (sc_nodes s !! e_node k.1) !! e_uuid k.1) as [p|]; cbn in Htab.
  - destruct Htab as (ks1 & l & ks2 & E & Hn & Hu & Ht & Hno).
    destruct (Hpar l) as (dl & Hdl & Hl); [rewrite E; set_solver|]. rewrite Ht in Hdl. rewrite Hdl.
    cbn [mbind res_bind]. rewrite Hk, Hl.
    exists (k.2 - l.2 <? blocked_window * 1000000). eexists. split; [done|].
    assert (same l k) as Hsl by done. split_and!.
    + rewrite Z.ltb_ge. split; [|intros H; by eapply H].
      intros H ks1' l' ks2' E' Hs' Hno'. enough (l' = l) as -> by done.
      by apply (last_unique (λ a, same a k) ks1 ks1' ks2 ks2' l l' ks).
    + destruct (_ <? _); unfold s1; destruct (late ks k), (sc_present s); done.
    + destruct (_ <? _); cbn; [split; [by intros [_ ?]%app_nil|by intros (_ & _ & ?)]|].
      unfold s1. destruct (late ks k); cbn; [|by split; [|intros [? _]]].
      split; [by intros [_ ?]%app_nil|by intros (_ & ? & _)].
    + done.
    + by destruct (_ <? _); cbn; rewrite ?Hnodes.
  - exists false. eexists. split; [done|]. split_and!.
    + split; [|done]. intros _ ks1 l ks2 E Hs _. rewrite Forall_forall in Htab.
      destruct (Htab l); [rewrite E; set_solver|exact Hs].
    + unfold s1; destruct (late ks k), (sc_present s); done.
    + unfold s1. destruct (late ks k); cbn; [|by split; [|intros [? _]]].
      split; [by intros [_ ?]%app_nil|by intros (_ & ? & _)].
    + done.
    + by cbn; rewrite ?Hnodes.
Qed.

Lemma scan_event_ok ks s k :
  scan_inv ks s → parsed k → ∃ s', scan_event k.1 s = Ok s' ∧ scan_inv (ks ++ [k]) s'.
Proof.
  intros Hinv Hk. destruct (scan_event_eq ks s k Hinv Hk) as (dup & s' & Hs & Hdup & Hp & Hf & Hpr & Hn).
  destruct Hinv as [Ip If _ It Ipar]. exists s'. split; [done|]. split.
  - rewrite Hp, !orb_false_iff, Ip, pairwise_snoc, Hdup. split.
    + intros [[H1 H2] H3]. split; [done|]. apply next_ok; [done|]. split; [|done].
      intros l Hl. unfold late in H2. rewrite Hl in H2. lia.
    + intros [H1 H2]. apply next_ok in H2 as [H2 H3]; [|done]. split_and!; [done| |done].
      unfold late. destruct (last ks) as [l|]; [|done]. specialize (H2 l eq_refl). lia.
  - rewrite Hp, !orb_false_iff, If, Hf. naive_solver.
  - by rewrite Hpr, last_snoc.
  - intros nd u. unfold table. rewrite Hn.
    replace (default ∅ (<[e_node k.1:=_]> (sc_nodes s) !! nd) !! u)
      with (if decide (e_node k.1 = nd ∧ e_uuid k.1 = u) then Some (e_time k.1) else table s nd u).
    + by apply last_occ_snoc.
    + unfold table. destruct (decide (e_node k.1 = nd)) as [<-|Hne].
      * rewrite lookup_insert_eq. cbn. destruct (decide (e_uuid k.1 = u)) as [<-|Hu].
        -- rewrite lookup_insert_eq. by rewrite decide_True.
        -- rewrite lookup_insert_ne by done. by rewrite decide_False by naive_solver.
      * rewrite lookup_insert_ne by done. by rewrite decide_False by naive_solver.
  - apply Forall_app. split; [done|by apply Forall_singleton].
Qed.

Lemma scan_events_ok es ks done_ s :
  Forall2 reads es ks → scan_inv done_ s →
  ∃ s', scan_events es s = Ok s' ∧ scan_inv (done_ ++ ks) s'.
Proof.
  intros He. revert done_ s. induction He as [|e k es ks (d & Hs & Hd & Hm) He IH]; intros ks0 s Hinv.
  - exists s. by rewrite app_nil_r.
  - cbn [scan_events]. rewrite Hs. cbn [mbind res_bind].
    destruct (scan_event_ok ks0 s k Hinv) as (s1 & -> & Hinv1); [by exists d|]. cbn [mbind res_bind].
    destruct (IH (ks0 ++ [k]) s1 Hinv1) as (s' & Hs' & Hinv'). exists s'.
    split; [done|]. by rewrite <- app_assoc in Hinv'.
Qed.

(** On events with readable timestamps, [__duplicate_event_ids_present] reports a
    problem, and appends failures, exactly when some event has an earlier timestamp than
    one before it, or two events of one node with one id are
    less than a minute apart; comparing with the previous event and with the last one of
    that node and id is enough. *)
Theorem events_checked es ks :
  Forall2 reads es ks →
  ∃ b fs, duplicate_event_ids_present es [] = Ok (b, fs) ∧
    (b = false ↔ pairwise before_ok ks) ∧ (b = false ↔ fs = []).
Proof.
  intros He. unfold duplicate_event_ids_present.
  destruct (scan_events_ok es ks [] (Scan false [] ∅ None) He) as (s & -> & [H1 H2 _ _ _]).
  - split; cbn; [split; [intros _; apply pairwise_nil|done]|done|done| |constructor].
    intros nd u. unfold table. cbn. rewrite lookup_empty. cbn. rewrite lookup_empty. constructor.
  - eexists _, _. split; [done|]. by split.
Qed.
Definition demo_event (u t n : string) : json :=
  JObj [(py "uuid", JStr (py u)); (py "timestamp", JStr (py t)); (py "node", JStr (py n))].
Lemma events_checked_witness :
  ∃ b fs, duplicate_event_ids_present
    [demo_event "a" "2022-02-28T09:05:59.123Z" "n1"; demo_event "a" "2022-02-28T09:06:30.000Z" "n1"] [] = Ok (b, fs) ∧
    b = true.
Proof.
  destruct (events_checked
    [demo_event "a" "2022-02-28T09:05:59.123Z" "n1"; demo_event "a" "2022-02-28T09:06:30.000Z" "n1"]
    [(Seen (py "a") (py "2022-02-28T09:05:59.123Z") (py "n1"), micros (DateTime 2022 2 28 9 5 59 123000));
     (Seen (py "a") (py "2022-02-28T09:06:30.000Z") (py "n1"), micros (DateTime 2022 2 28 9 6 30 0))])
    as (b & fs & Hd & _).
  - repeat constructor; eexists; (split; [reflexivity|split; [vm_compute; reflexivity|reflexivity]]).
  - exists b, fs. split; [exact Hd|]. vm_compute in Hd. by injection Hd.
Defined.

(** ** Proofs: sorting *)

Lemma str_leb_total a b : str_leb a b = true ∨ str_leb b a = true.
Proof.
  revert b. induction a as [|x a IH]; intros [|y b]; cbn; [by left..|by right|].
  destruct (ord x <? ord y) eqn:E1; [by left|]. destruct (ord y <? ord x) eqn:E2; [by right|].
  replace (ord x =? ord y) with true by lia. replace (ord y =? ord x) with true by lia. cbn. apply IH.
Qed.
Lemma json_leb_total a b : json_leb a b = true ∨ json_leb b a = true.
Proof.
  destruct a, b; try (apply str_leb_total); cbn; repeat case_match; (by left) || (by right) || lia.
Qed.
(** Each element is at most its successor. *)
Fixpoint stepwise (l : list json) : bool :=
  match l with
  | [] => true
  | x :: l => match l with [] => true | y :: _ => json_leb x y end && stepwise l
  end.
Lemma insert_stepwise x l : stepwise l = true → stepwise (insert_sorted x l) = true.
Proof.
  induction l as [|y l IH]; [done|]. cbn [insert_sorted]. destruct (json_leb x y) eqn:E.
  - intros H. cbn [stepwise]. by rewrite E.
  - intros [Hy Hl]%andb_prop. specialize (IH Hl). cbn [stepwise]. rewrite IH, andb_true_r.
    assert (json_leb y x = true) by (destruct (json_leb_total x y); congruence).
    destruct l as [|z l]; cbn; [done|]. by destruct (json_leb x z).
Qed.
Lemma sort_stepwise l : stepwise (py_sort l) = true.
Proof. induction l as [|x l IH]; [done|]. cbn. by apply insert_stepwise. Qed.
Lemma sort_fix l : stepwise l = true → py_sort l = l.
Proof.
  induction l as [|x l IH]; [done|]. intros [Hx Hl]%andb_prop. cbn. fold (py_sort l). rewrite IH by done.
  destruct l as [|y l]; [done|]. cbn. by rewrite Hx.
Qed.
Lemma sort_idem l : py_sort (py_sort l) = py_sort l.
Proof. apply sort_fix, sort_stepwise. Qed.
Lemma sort_perm l : py_sort l ≡ₚ l.
Proof.
  assert (∀ x l, insert_sorted x l ≡ₚ x :: l) as Hi.
  { intros x k. induction k as [|y k IH]; [done|]. cbn. destruct (json_leb x y); [done|].
    rewrite IH. apply Permutation_swap. }
  induction l as [|x l IH]; [done|]. cbn. fold (py_sort l). by rewrite Hi, IH.
Qed.

(** ** Proofs: comparing events *)

(** Whether a reported event has what is expected: every expected field is there, with the
    same value, lists compared after sorting and objects field by field. *)
Fixpoint agree (local cluster : json) : bool :=
  match local with
  | JObj fields =>
      (fix go (fields : list (pystr * json)) : bool :=
         match fields with
         | [] => true
         | (key, lv) :: fields =>
             match cluster with
             | JObj cf => match assoc key cf with Some cv => agree lv cv | None => false end
             | _ => false
             end && go fields
         end) fields
  | JList ll =>
      match cluster with
      | JList cl => json_eqb (JList (py_sort cl)) (JList (py_sort ll))
      | _ => false
      end
  | _ => match cluster with JList _ => false | _ => json_eqb cluster local end
  end.
(** Expected events with all lists sorted; keys of objects are distinct. *)
Fixpoint norm (v : json) : json :=
  match v with
  | JList l => JList (py_sort l)
  | JObj fields => JObj ((λ kv, (kv.1, norm kv.2)) <$> fields)
  | _ => v
  end.
Fixpoint wf (v : json) : Prop :=
  match v with
  | JObj fields => NoDup fields.*1 ∧ foldr (λ kv P, wf kv.2 ∧ P) True fields
  | _ => True
  end.

Lemma agree_norm v : ∀ c, agree (norm v) c = agree v c.
Proof.
  induction v as [|b|n|s|l _|fields IH] using json_nested_ind; intros c; try done.
  - cbn. destruct c; try done. by rewrite sort_idem.
  - induction IH as [|[k v] fields Hv _ IH]; [done|]. cbn in *. rewrite IH.
    destruct c; try done. destruct (assoc k _); [|done]. by rewrite Hv.
Qed.

Definition is_list (v : json) : bool := match v with JList _ => true | _ => false end.
(** How a found field is extracted and what becomes of the expected field. *)
Definition taken (lv cv x y : json) : Prop :=
  match lv with
  | JObj _ => ∃ o l, extract_req_values lv cv = Ok (o, l) ∧ x = JObj o ∧ y = JObj l
  | _ => (∃ cl ll, cv = JList cl ∧ lv = JList ll ∧ x = JList (py_sort cl) ∧ y = JList (py_sort ll)) ∨
         (is_list cv = false ∧ x = cv ∧ y = lv)
  end.
Inductive ext (c : json) : list (pystr * json) → list (pystr * json) → list (pystr * json) → Prop :=
  | ext_nil : ext c [] [] []
  | ext_skip k lv fs out l : lookup_key c k = Ok None → ext c fs out l →
      ext c ((k, lv) :: fs) out ((k, lv) :: l)
  | ext_take k lv cv x y fs out l : lookup_key c k = Ok (Some cv) → taken lv cv x y → ext c fs out l →
      ext c ((k, lv) :: fs) ((k, x) :: out) ((k, y) :: l).

Lemma extract_ext fields c out l :
  extract_req_values (JObj fields) c = Ok (out, l) → ext c fields out l.
Proof.
  revert out l. induction fields as [|[k lv] fields IH]; intros out l; cbn [extract_req_values].
  - intros [= <- <-]. constructor.
  - destruct (lookup_key c k) as [[cv|]|] eqn:El; cbn [mbind res_bind]; [| |done].
    + intros H.
      assert (∃ x y out' l', out = (k, x) :: out' ∧ l = (k, y) :: l' ∧ taken lv cv x y ∧
        extract_req_values (JObj fields) c = Ok (out', l')) as (x & y & out' & l' & -> & -> & Ht & Hr).
      { destruct lv as [| | | |ll|fs];
          [..|apply res_bind_inv in H as ([o l0] & Ho & H); apply res_bind_inv in H as ([o' l'] & Hr & H);
              injection H as <- <-; exists (JObj o), (JObj l0), o', l'; split_and!; [done|done| |exact Hr];
              exists o, l0; done];
          (destruct cv as [| | | |cl|fs'];
           try (apply res_bind_inv in H as ([o' l'] & Hr & H); injection H as <- <-;
                eexists _, _, o', l'; split_and!; [done|done| |exact Hr];
                (by right) || (left; eexists _, _; done)); done). }
      econstructor; [exact El|exact Ht|by apply IH].
    + intros H. apply res_bind_inv in H as ([o' l'] & Hr & H). injection H as <- <-.
      constructor; [exact El|by apply IH].
Qed.

Lemma ext_keys c fs out l : ext c fs out l → l.*1 = fs.*1.
Proof. induction 1 as [|k lv fs out l _ _ IH|k lv cv x y fs out l _ _ _ IH]; cbn; [done|by f_equal..]. Qed.
Lemma ext_length c fs out l : ext c fs out l → (length out ≤ length l)%nat.
Proof. induction 1; cbn; lia. Qed.

Lemma assoc_unique k v (l : list (pystr * json)) : NoDup l.*1 → (k, v) ∈ l → assoc k l = Some v.
Proof.
  induction l as [|[k' v'] l IH]; [set_solver|]. cbn. intros [Hk Hl]%NoDup_cons [E|Hin]%elem_of_cons.
  - injection E as -> ->. destruct (assoc k' l) as [w|] eqn:Ea; [|by rewrite bool_decide_eq_true_2].
    exfalso. apply Hk. clear -Ea. induction l as [|[k v] l IH]; [done|]. cbn in *.
    destruct (assoc k' l); [right; by apply IH|]. case_bool_decide; [subst; left|done].
  - by rewrite IH.
Qed.
(** Equality of objects, for a right side with distinct keys. *)
Lemma json_eqb_obj a b :
  json_eqb (JObj a) (JObj b) = true ↔
    length a = length b ∧ Forall (λ kx, ∃ y, assoc kx.1 b = Some y ∧ json_eqb kx.2 y = true) a.
Proof.
  cbn. rewrite andb_true_iff, Z.eqb_eq. unfold len. rewrite Nat2Z.inj_iff. f_equiv.
  induction a as [|[k x] a IH]; cbn; [by split|].
  rewrite andb_true_iff, Forall_cons, IH. cbn. f_equiv.
  destruct (assoc k b) as [y|]; [|naive_solver]. split; [eauto|]. by intros (y' & [= <-] & ?).
Qed.

Lemma lookup_key_found c k cv : lookup_key c k = Ok (Some cv) → ∃ cf, c = JObj cf ∧ assoc k cf = Some cv.
Proof. destruct c; cbn; try done; [by repeat case_match..|]. intros [= H]. eauto. Qed.
Lemma lookup_key_missing c k : lookup_key c k = Ok None →
  match c with JObj cf => assoc k cf = None | _ => True end.
Proof. destruct c; cbn; try done. by intros [=]. Qed.

Lemma agree_obj k lv fields c :
  agree (JObj ((k, lv) :: fields)) c =
    match c with
    | JObj cf => match assoc k cf with Some cv => agree lv cv | None => false end
    | _ => false
    end && agree (JObj fields) c.
Proof. done. Qed.

(** A found field is equal to the expected one, after both may have been sorted, when they agree. *)
Definition compares (v : json) : Prop :=
  wf v → ∀ c out l, extract_req_values v c = Ok (out, l) →
    (json_eqb (JObj out) (JObj l) = true ↔ agree v c = true) ∧ norm (JObj l) = norm v.
Lemma taken_agree lv cv x y :
  compares lv → wf lv → taken lv cv x y → (json_eqb x y = true ↔ agree lv cv = true) ∧ norm y = norm lv.
Proof.
  intros Hc Hw Ht. destruct lv as [| | | |ll|fs]; cbn [taken] in Ht.
  6:{ destruct Ht as (o & l & He & -> & ->). by apply Hc. }
  all: destruct Ht as [(cl & ll' & -> & [=] & -> & ->)|(Hl & -> & ->)]; subst.
  5:{ cbn [agree norm]. by rewrite sort_idem. }
  all: destruct cv; try done.
Qed.

Lemma ext_agree c fs out l :
  NoDup fs.*1 → Forall (λ kv, compares kv.2 ∧ wf kv.2) fs → ext c fs out l →
  (json_eqb (JObj out) (JObj l) = true ↔ agree (JObj fs) c = true) ∧ norm (JObj l) = norm (JObj fs).
Proof.
  intros Hnd Hfs He. pose proof (ext_keys c fs out l He) as Hkeys. rewrite json_eqb_obj.
  assert (NoDup l.*1) as Hndl by (by rewrite Hkeys).
  assert (∀ b, (∀ kx, kx ∈ l → kx ∈ b) → NoDup b.*1 →
    (length out = length l ∧ Forall (λ kx, ∃ y, assoc kx.1 b = Some y ∧ json_eqb kx.2 y = true) out ↔
     agree (JObj fs) c = true)) as Hmain; [|split; [by apply Hmain|]].
  - clear Hnd Hndl Hkeys. induction He as [|k lv fs out l Hk He IH|k lv cv x y fs out l Hk Ht He IH]; intros b Hb Hndb.
    + by cbn.
    + rewrite agree_obj. apply lookup_key_missing in Hk. pose proof (ext_length _ _ _ _ He).
      split; [cbn; intros [? _]; lia|]. destruct c; try done. by rewrite Hk.
    + apply Forall_cons in Hfs as [[Hc Hw] Hfs]. cbn [snd] in *.
      destruct (taken_agree lv cv x y Hc Hw Ht) as [Ha _].
      apply lookup_key_found in Hk as (cf & -> & Hcf). rewrite agree_obj, Hcf, andb_true_iff, <- Ha.
      rewrite <- (IH Hfs b) by (done || intros kx Hkx; apply Hb; set_solver). rewrite Forall_cons. cbn [fst snd length].
      assert (assoc k b = Some y) as Hy by (apply assoc_unique; [done|apply Hb; set_solver]).
      rewrite Hy. split.
      * intros (Hl & (y' & [= <-] & Hxy) & Hall). split_and!; [done|lia|done].
      * intros (Hxy & Hl & Hall). split_and!; [lia|by exists y|done].
  - cbn. f_equal. clear Hnd Hndl Hkeys Hmain.
    induction He as [|k lv fs out l Hk He IH|k lv cv x y fs out l Hk Ht He IH]; [done|..];
      apply Forall_cons in Hfs as [[Hc Hw] Hfs]; cbn.
    + by rewrite IH.
    + destruct (taken_agree lv cv x y Hc Hw Ht) as [_ ->]. by rewrite IH.
Qed.
Lemma extract_agree v : compares v.
Proof.
  induction v as [|b|n|s|l _|fields IH] using json_nested_ind; intros Hw c out l' H; try done.
  cbn in Hw. destruct Hw as [Hnd Hw]. apply extract_ext in H. apply (ext_agree c fields out); [done| |done].
  clear -IH Hw. induction IH as [|kv fields Hkv _ IH]; [done|]. destruct Hw as [Hw Hws]. constructor; [done|by apply IH].
Qed.

(** Sorting the lists of an expected event does not change whether extraction raises. *)
Lemma extract_norm v : ∀ c, is_ok (extract_req_values (norm v) c) = is_ok (extract_req_values v c).
Proof.
  induction v as [|b|n|s|l _|fields IH] using json_nested_ind; intros c; try done.
  induction IH as [|[k lv] fields Hv _ IH]; [done|].
  change (norm (JObj ((k, lv) :: fields))) with (JObj ((k, norm lv) :: ((λ kv, (kv.1, norm kv.2)) <$> fields))).
  change (norm (JObj fields)) with (JObj ((λ kv, (kv.1, norm kv.2)) <$> fields)) in IH.
  cbn [snd] in Hv. cbn [extract_req_values] in *.
  set (g1 := (fix go (fields : list (pystr * json)) := _) _) in IH |- *.
  set (g2 := (fix go (fields : list (pystr * json)) := _) fields) in IH |- *.
  destruct (lookup_key c k) as [[cv|]|]; cbn [mbind res_bind]; [| |done].
  - destruct lv as [| | | |ll|fs]; cbn [norm];
      try (destruct cv; cbn [mbind res_bind]; unfold mbind, res_bind; try done; by destruct g1, g2).
    specialize (Hv cv). cbn [norm] in Hv. unfold mbind, res_bind.
    destruct (extract_req_values (JObj ((λ kv, (kv.1, norm kv.2)) <$> fs)) cv), (extract_req_values (JObj fs) cv);
      try done. by destruct g1, g2.
  - unfold mbind, res_bind. by destruct g1, g2.
Qed.

(** ** Proofs: validation *)

(** The expected events occur among the reported ones, in their order. *)
Inductive embeds : list json → list json → Prop :=
  | embeds_nil cs : embeds [] cs
  | embeds_skip ls c cs : embeds ls cs → embeds ls (c :: cs)
  | embeds_take l ls c cs : agree l c = true → embeds ls cs → embeds (l :: ls) (c :: cs).

Lemma embeds_tail l ls cs : embeds (l :: ls) cs → embeds ls cs.
Proof.
  remember (l :: ls) as k eqn:E. intros H. revert E.
  induction H as [|ls' c cs H IH|l' ls' c cs _ H IH]; intros E; [done|apply embeds_skip; auto|].
  injection E as -> ->. by apply embeds_skip.
Qed.
Lemma embeds_cons_inv l ls c cs :
  embeds (l :: ls) (c :: cs) ↔ if agree l c then embeds ls cs else embeds (l :: ls) cs.
Proof.
  split.
  - intros H. inversion H as [|? ? ? H1|? ? ? ? H1 H2]; subst.
    + destruct (agree l c); [by apply embeds_tail in H1|done].
    + by rewrite H1.
  - destruct (agree l c) eqn:E; [by apply embeds_take|by apply embeds_skip].
Qed.
Lemma embeds_nil_inv l ls : ¬ embeds (l :: ls) [].
Proof. intros H. inversion H. Qed.

(** A recorded event, as it may be after some comparisons. *)
Definition like (l : json) (r : recorded) : Prop := ∃ l', r = One l' ∧ norm l' = norm l.
Definition comparable (l c : json) : Prop := is_ok (extract_req_values l c) = true.

Lemma wf_norm v : wf (norm v) ↔ wf v.
Proof.
  induction v as [|b|n|s|l _|fields IH] using json_nested_ind; try done. cbn.
  assert (((λ kv, (kv.1, norm kv.2)) <$> fields).*1 = fields.*1) as ->.
  { rewrite <- list_fmap_compose. done. }
  f_equiv. induction IH as [|[k v] fields Hv _ IH]; [done|]. cbn in *. by rewrite Hv, IH.
Qed.
Lemma attempt_like l l' c :
  wf l → norm l' = norm l → comparable l c →
  ∃ l'', attempt l' c = Ok (agree l c, l'') ∧ norm l'' = norm l.
Proof.
  intros Hw Hn Hc. unfold comparable in Hc. rewrite <- extract_norm, <- Hn, extract_norm in Hc.
  assert (wf l') as Hw' by (by rewrite <- wf_norm, Hn, wf_norm).
  unfold attempt. destruct (extract_req_values l' c) as [[out fs]|] eqn:E; [|done]. cbn [mbind res_bind fst snd].
  destruct (extract_agree l' Hw' c out fs E) as [Ha Hnm]. exists (JObj fs). split; [|congruence].
  f_equal. f_equal. rewrite <- (agree_norm l), <- Hn, agree_norm. destruct (json_eqb _ _), (agree l' c); try done; [by destruct Ha as [-> _]|by destruct Ha as [_ <-]].
Qed.

Lemma match_loop_ok ls cluster count v evs :
  Forall wf ls → Forall (λ l, Forall (comparable l) cluster) ls →
  (∀ w, (w < length ls)%nat →
     (Z.of_nat (S w) =? count) || (Z.of_nat (S w) =? max_events) = bool_decide (S w = length ls)) →
  Forall2 like ls evs → (v < length ls)%nat →
  ∃ r evs', match_loop cluster count v evs = Ok (r, evs') ∧ Forall2 like ls evs' ∧
    (r = None ↔ embeds (drop v ls) cluster) ∧ (∀ w, r = Some w → (w < length ls)%nat).
Proof.
  intros Hw Hc Hbr. revert v evs Hc. induction cluster as [|c cluster IH]; intros v evs Hc Hl Hv.
  - exists (Some v), evs. destruct (lookup_lt_is_Some_2 ls v Hv) as [l E]. rewrite (drop_S _ l) by done.
    split_and!; [done|done|split; [done|by intros ?%embeds_nil_inv]|by intros w [= <-]].
  - destruct (lookup_lt_is_Some_2 ls v Hv) as [l E].
    destruct (Forall2_lookup_l _ _ _ _ _ Hl E) as (r & Er & (l' & -> & Hn)).
    pose proof (Forall_lookup_1 _ _ _ _ Hw E) as Hwl. pose proof (Forall_lookup_1 _ _ _ _ Hc E) as Hcl.
    assert (Forall (λ l, Forall (comparable l) cluster) ls) as Hc'.
    { eapply Forall_impl; [exact Hc|]. by intros x [_ ?]%Forall_cons. }
    apply Forall_cons in Hcl as [Hcl _].
    destruct (attempt_like l l' c Hwl Hn Hcl) as (l'' & Ha & Hn').
    cbn [match_loop]. unfold list_get, of_option. rewrite Er. cbn [mbind res_bind]. rewrite Ha. cbn [mbind res_bind fst snd].
    assert (Forall2 like ls (<[v := One l'']> evs)) as Hl'.
    { rewrite <- (list_insert_id ls v l E). apply Forall2_insert; [done|]. by exists l''. }
    rewrite (drop_S _ l) by done. setoid_rewrite embeds_cons_inv. destruct (agree l c).
    + rewrite Hbr by done. case_bool_decide as Hlast.
      * exists None, (<[v := One l'']> evs). split_and!; [done|done| |done].
        rewrite drop_ge by lia. split; [intros _; constructor|done].
      * apply IH; [done|done|lia].
    + rewrite <- (drop_S _ l) by done. by apply IH.
Qed.

(** The events that the helper keeps: the last [max_events] ones. *)
Definition kept (es : list json) : list json := drop (length es - Z.to_nat max_events) es.
Lemma max_events_pos : 0 < max_events.
Proof. done. Qed.
Lemma add_event_step t pre e :
  add_event e (Helper (Some t) (One <$> kept pre) false (len pre)) =
    (Ok tt, Helper (Some t) (One <$> kept (pre ++ [e])) false (len (pre ++ [e]))).
Proof.
  pose proof max_events_pos as Hm. unfold add_event, get, put, lift, mbind, M_bind. cbn [test_start_time parallel_events events counter].
  replace (len (pre ++ [e])) with (len pre + 1) by (rewrite len_app, len_cons, len_nil; lia).
  replace ((One <$> kept pre) ++ [One e]) with (One <$> (kept pre ++ [e])) by (by rewrite fmap_app).
  unfold kept. rewrite length_app. cbn [length].
  rewrite <- (drop_app_le pre [e]) by lia.
  destruct (max_events <? len pre + 1) eqn:E; unfold len in E.
  - replace (length pre + 1 - Z.to_nat max_events)%nat with (S (length pre - Z.to_nat max_events)) by lia.
    destruct (lookup_lt_is_Some_2 (pre ++ [e]) (length pre - Z.to_nat max_events)) as [x Hx];
      [rewrite length_app; cbn; lia|].
    by rewrite (drop_S _ x) by done.
  - replace (length pre + 1 - Z.to_nat max_events)%nat with 0%nat by lia.
    by replace (length pre - Z.to_nat max_events)%nat with 0%nat by lia.
Qed.
Lemma add_events_ok t pre es :
  mfor es add_event (Helper (Some t) (One <$> kept pre) false (len pre)) =
    (Ok tt, Helper (Some t) (One <$> kept (pre ++ es)) false (len (pre ++ es))).
Proof.
  revert pre. induction es as [|e es IH]; intros pre; [by rewrite app_nil_r|].
  cbn [mfor]. rewrite (bind_Ok _ _ _ tt _ (add_event_step t pre e)), IH. by rewrite <- app_assoc.
Qed.
Lemma kept_length es : len (kept es) = Z.min (len es) max_events.
Proof. pose proof max_events_pos. unfold kept, len. rewrite length_drop. lia. Qed.

(** Recording and validating.  A test that has set its start time and records events
    keeps the last [max_events] of them.  [validate] then always returns,
    and it reports no failure exactly when the events of the cluster are in order and
    without duplicates, and the events kept occur among those reported for
    the time asked for, in their order, each field as expected with lists in any
    order.  Trying each reported event against the next expected one is enough to find
    them if they are there, and the sorting of lists in place on the way does no harm.
    Events recorded before a start time is set are ignored. *)
Theorem validate_recorded t es all ks since :
  es ≠ [] → Forall wf es → Forall2 reads all ks → Forall (λ l, Forall (comparable l) since) es →
  let h := (mfor es add_event (Helper (Some t) [] false 0)).2 in
  mfor es add_event new_helper = (Ok tt, new_helper) ∧
  events h = One <$> kept es ∧
  ∃ fs h', validate all since h = (Ok fs, h') ∧
    (fs = [] ↔ pairwise before_ok ks ∧ embeds (kept es) since).
Proof.
  intros Hne Hw Hr Hc h. pose proof max_events_pos as Hm.
  assert (h = Helper (Some t) (One <$> kept es) false (len es)) as -> 
    by exact (f_equal snd (add_events_ok t [] es)).
  split_and!; [|done|].
  { clear. induction es as [|e es IH]; [done|]. cbn [mfor]. by rewrite (bind_Ok _ _ _ tt new_helper). }
  assert (len es ≠ 0) as Hlen by (destruct es; [done|rewrite len_cons; pose proof (len_nonneg es); lia]).
  pose proof (kept_length es) as Hk. pose proof (len_nonneg es). unfold len in Hk at 1.
  destruct (match_loop_ok (kept es) since (len es) 0 (One <$> kept es)) as (r & evs' & Hrun & Hlike & Hemb & Hbound).
  - unfold kept. by apply Forall_drop.
  - unfold kept. by apply Forall_drop.
  - intros w Hwl. case_bool_decide as Hlast; [apply orb_true_iff|apply orb_false_iff].
    + rewrite !Z.eqb_eq. rewrite Hlast. lia.
    + rewrite !Z.eqb_neq. lia.
  - clear. induction (kept es) as [|l ls IH]; [constructor|]. rewrite fmap_cons. constructor; [by exists l|done].
  - lia.
  - destruct (events_checked all ks Hr) as (b & fs0 & Hd & Hb & Hf).
    unfold validate, get, put, lift, mbind, M_bind. cbn [events counter parallel_events test_start_time].
    destruct (kept es) as [|l ls] eqn:Ek; [cbn in Hk; lia|]. rewrite fmap_cons in Hrun |- *.
    rewrite Hd. cbn [fst snd]. rewrite Hrun. cbn [fst snd].
    change (drop 0 (l :: ls)) with (l :: ls) in Hemb.
    assert ((if b then fs0 ++ [DuplicateIds] else fs0) = [] ↔ pairwise before_ok ks) as Hfs.
    { rewrite <- Hb. destruct b; [split; [by intros [_ ?]%app_nil|done]|by rewrite <- Hf]. }
    destruct r as [w|].
    + destruct (lookup_lt_is_Some_2 evs' w) as [x Hx].
      { rewrite <- (Forall2_length _ _ _ Hlike). by apply Hbound. }
      unfold list_get, of_option. rewrite Hx. eexists _, _. split; [done|].
      split; [by intros [_ ?]%app_nil|]. intros [_ He]. by apply Hemb in He.
    + eexists _, _. split; [done|]. rewrite Hfs. split; [|by intros [? _]].
      intros ?. split; [done|by apply Hemb].
Qed.

Lemma validate_recorded_witness :
  let e := JObj [(py "event_id", JInt 9); (py "extra_attributes", JObj [(py "nodes", JList [JStr (py "b"); JStr (py "a")])])] in
  let c := JObj [(py "uuid", JStr (py "u")); (py "event_id", JInt 9);
                 (py "extra_attributes", JObj [(py "nodes", JList [JStr (py "a"); JStr (py "b")])])] in
  let h := (mfor [e] add_event (Helper (Some []) [] false 0)).2 in
  ∃ h', validate [] [c] h = (Ok [], h').
Proof.
  intros e c. destruct (validate_recorded [] [e] [] [] [c]) as (_ & _ & fs & h' & Hv & Hfs).
  - discriminate.
  - apply Forall_singleton. unfold e. cbn [wf foldr snd].
    split_and!; try exact I; apply (bool_decide_unpack (NoDup _)); vm_compute; exact I.
  - constructor.
  - repeat constructor.
  - exists h'. rewrite Hv. replace fs with (@nil failure); [reflexivity|]. symmetry. apply Hfs. split; [apply pairwise_nil|].
    apply embeds_take; [vm_compute; reflexivity|apply embeds_nil].
Defined.

(** With a group of parallel events in front of the others, validation never succeeds. *)
Lemma parallel_never_validates es rest all since h ks :
  events h = Many es :: rest → Forall2 reads all ks →
  ∃ fs h', validate all since h = (Ok fs, h') ∧ Unable 0 ∈ fs.
Proof.
  intros Hev Hr. destruct (events_checked all ks Hr) as (b & fs0 & Hd & _).
  assert (match_loop since (counter h) 0 (events h) = Ok (Some 0%nat, events h)) as Hm.
  { induction since as [|c since IH]; [done|]. cbn [match_loop]. rewrite Hev in *. exact IH. }
  unfold validate, get, put, lift, mbind, M_bind. rewrite Hm, Hd, Hev. cbn.
  eexists _, _. split; [done|]. set_solver.
Qed.
