(* ===== verification/KvStore.v ===== *)
(** * lib/memcached/helper/kvstore.py and old_kvstore.py

    The client-side record of what a test has written: [KVStore], a table of
    locked [Partition]s addressed by the CRC of the key, and the older
    [ClientKeyValueStore].  Values are of any type.  Each call of [time.time()]
    is an argument; a loop over the keys of a partition has a function from keys
    to the times at which they are looked at.  Inner dictionaries are never
    updated in place, so sharing them between partitions ([merge]) is harmless
    and they are modelled as values. *)

From S2P Require Import Prelude Py Crc32.
Local Open Scope Z_scope.

(** [l.remove(x)]: the first occurrence; callers check membership first. *)
Fixpoint remove_first (x : pystr) (l : list pystr) : list pystr :=
  match l with
  | [] => []
  | y :: l => if bool_decide (y = x) then l else y :: remove_first x l
  end.

Section Partition.
Context {V : Type}.

(** ** Partition *)

Record item := Item { value : V; expires : Z; flag : Z }.

Record partition := Partition {
  part_id : Z;
  valid : gmap pystr item;
  deleted : gmap pystr V;
  timestamp : gmap pystr Z;
  expired_keys : list pystr
}.

(** [Partition.__init__] *)
Definition new_partition (i : Z) : partition := Partition i ∅ ∅ ∅ [].

(** [set(key, value, exp, flag)]: [now] and [now'] are the two readings of the
    clock. *)
Definition p_set (now now' : Z) (key : pystr) (v : V) (exp fl : Z) (p : partition) : partition :=
  let exp := if negb (exp =? 0) then now + exp else exp in
  Partition (part_id p)
    (<[key := Item v exp fl]> (valid p))
    (delete key (deleted p))
    (<[key := now']> (timestamp p))
    (if bool_decide (key ∈ expired_keys p) then remove_first key (expired_keys p)
     else expired_keys p).

(** [delete(key)] *)
Definition p_delete (now : Z) (key : pystr) (p : partition) : partition :=
  match valid p !! key with
  | Some it =>
      Partition (part_id p) (delete key (valid p)) (<[key := value it]> (deleted p))
        (<[key := now]> (timestamp p)) (expired_keys p)
  | None => p
  end.

(** [__expire_key(key)] *)
Definition expire_key (now : Z) (key : pystr) (p : partition) : partition :=
  match valid p !! key with
  | Some it =>
      if negb (expires it =? 0) && (expires it <? now) then
        Partition (part_id p) (delete key (valid p)) (<[key := value it]> (deleted p))
          (timestamp p) (expired_keys p ++ [key])
      else p
  | None => p
  end.

Definition get_timestamp (key : pystr) (p : partition) : Z := default 0 (timestamp p !! key).
Definition get_key (key : pystr) (p : partition) : option item := valid p !! key.

(** The readers expire the key first. *)
Definition get_valid (now : Z) (key : pystr) (p : partition) : option V * partition :=
  let p := expire_key now key p in (value <$> valid p !! key, p).
Definition get_deleted (now : Z) (key : pystr) (p : partition) : option V * partition :=
  let p := expire_key now key p in (deleted p !! key, p).
Definition get_flag (now : Z) (key : pystr) (p : partition) : option Z * partition :=
  let p := expire_key now key p in (flag <$> valid p !! key, p).

(** [[self.__expire_key(key) for key in keys]] *)
Definition expire_keys (clock : pystr → Z) (keys : list pystr) (p : partition) : partition :=
  foldl (λ p k, expire_key (clock k) k p) p keys.
Definition dict_keys `{Countable K} {A} (d : gmap K A) : list K := (map_to_list d).*1.
Definition expire_all (clock : pystr → Z) (p : partition) : partition :=
  expire_keys clock (dict_keys (valid p)) p.

Definition valid_key_set (clock : pystr → Z) (p : partition) : list pystr * partition :=
  let p := expire_all clock p in (dict_keys (valid p), p).
Definition deleted_key_set (clock : pystr → Z) (p : partition) : list pystr * partition :=
  let p := expire_all clock p in (dict_keys (deleted p), p).
Definition expired_key_set (clock : pystr → Z) (p : partition) : list pystr * partition :=
  let p := expire_all clock p in (expired_keys p, p).

(** [random.choice(l)] with the index it draws; it raises on an empty list. *)
Definition random_choice (r : nat) (l : list pystr) : option pystr :=
  match l with [] => None | _ => l !! (r mod length l)%nat end.
Definition get_random_valid_key (clock : pystr → Z) (r : nat) (p : partition)
    : option pystr * partition :=
  let '(ks, p) := valid_key_set clock p in (random_choice r ks, p).
Definition get_random_deleted_key (r : nat) (p : partition) : option pystr :=
  random_choice r (dict_keys (deleted p)).

(** [merge(partition)]: what the other partition has deleted or expired is not
    looked at. *)
Definition p_merge (other p : partition) : partition :=
  let ks := dict_keys (valid other) in
  Partition (part_id p)
    (valid other ∪ valid p)
    (foldr delete (deleted p) ks)
    (timestamp other ∪ timestamp p)
    (foldr (λ k l, if bool_decide (k ∈ l) then remove_first k l else l) (expired_keys p) ks).

Definition has_valid_keys (p : partition) : bool := bool_decide (valid p ≠ ∅).
Definition has_deleted_keys (p : partition) : bool := bool_decide (deleted p ≠ ∅).

(** [expired(key)] *)
Definition p_expired (now : Z) (key : pystr) (p : partition) : res bool * partition :=
  if bool_decide (valid p !! key = None) && bool_decide (deleted p !! key = None)
  then (raise GenericException, p)
  else let p := expire_key now key p in (Ok (bool_decide (key ∈ expired_keys p)), p).

Definition p_len (clock : pystr → Z) (p : partition) : Z * partition :=
  let p := expire_all clock p in (Z.of_nat (size (valid p)), p).
End Partition.
Arguments item : clear implicits.
Arguments partition : clear implicits.

(** ** KVStore *)

Section KVStore.
Context {V : Type}.

(** One entry of [self.cache]: is the lock held, and the partition. *)
Record slot := Slot { locked : bool; content : partition V }.

Record kvstore := KVStore {
  num_locks : Z;
  cache : gmap Z slot;
  acquire_lock : bool
}.
Abbreviation MK := (M kvstore).

(** [reset] and [__init__] *)
Definition reset_cache (n : Z) : gmap Z slot :=
  list_to_map ((λ i, (i, Slot false (new_partition i))) <$> seqZ 0 n).
Definition new_kvstore (n : Z) : kvstore := KVStore n (reset_cache n) false.
Definition kv_reset (kv : kvstore) : kvstore :=
  KVStore (num_locks kv) (reset_cache (num_locks kv)) (acquire_lock kv).

(** [_hash(key)]: Python's [%] has the sign of the divisor, as [Z.modulo]. *)
Definition kv_hash (kv : kvstore) (key : pystr) : Z := zlib_crc32 key mod num_locks kv.

Definition set_slot (i : Z) (s : slot) (kv : kvstore) : kvstore :=
  KVStore (num_locks kv) (<[i := s]> (cache kv)) (acquire_lock kv).
Definition set_acquire_lock (b : bool) (kv : kvstore) : kvstore :=
  KVStore (num_locks kv) (cache kv) b.

(** [self.cache[i]["lock"].acquire()] and [.release()] *)
Definition lock_slot (i : Z) : MK unit :=
  kv ← get;
  s ← lift (dict_get (cache kv) i);
  if locked s then mraise Blocked else put (set_slot i (Slot true (content s)) kv).
Definition unlock_slot (i : Z) : MK unit :=
  kv ← get;
  s ← lift (dict_get (cache kv) i);
  if locked s then put (set_slot i (Slot false (content s)) kv) else mraise ThreadError.

(** A method of the partition in slot [i], called on the object itself. *)
Definition on_partition {A} (i : Z) (f : partition V → A * partition V) : MK A :=
  kv ← get;
  s ← lift (dict_get (cache kv) i);
  let '(a, p) := f (content s) in
  _ ← put (set_slot i (Slot (locked s) p) kv);
  mret a.

(** [acquire_partition(key)]: the partition object is named by its slot. *)
Definition acquire_partition (key : pystr) : MK Z :=
  kv ← get;
  _ ← lock_slot (kv_hash kv key);
  mret (kv_hash kv key).

(** [acquire_partitions(keys)]: partition objects are equal when their
    [part_id]s are, so the dictionary is keyed by it. *)
Fixpoint acquire_loop (keys : list pystr) (acc : gmap Z (list pystr)) : MK (gmap Z (list pystr)) :=
  match keys with
  | [] => mret acc
  | key :: keys =>
      kv ← get;
      s ← lift (dict_get (cache kv) (kv_hash kv key));
      let i := part_id (content s) in
      _ ← match acc !! i with
          | None => lock_slot (kv_hash kv key)
          | Some _ => mret tt
          end;
      acquire_loop keys (<[i := default [] (acc !! i) ++ [key]]> acc)
  end.
Definition acquire_partitions (keys : list pystr) : MK (gmap Z (list pystr)) :=
  kv ← get;
  _ ← (if acquire_lock kv then mraise Blocked else put (set_acquire_lock true kv));
  parts ← acquire_loop keys ∅;
  _ ← modify (set_acquire_lock false);
  mret parts.

Definition release_partitions (part_ids : list Z) : MK unit := mfor part_ids unlock_slot.

(** [release_partition(key)] with a string or an integer. *)
Definition release_partition (key : pystr + Z) : MK unit :=
  kv ← get;
  match key with
  | inl k => unlock_slot (kv_hash kv k)
  | inr i => unlock_slot i
  end.

(** [acquire_random_partition(has_valid)]; [seed] is the drawn start. *)
Fixpoint random_partition_loop (rounds : list Z) (seed : Z) (has_valid : bool) : MK (option Z) :=
  match rounds with
  | [] => mret None
  | itr :: rounds =>
      kv ← get;
      let part_num := (seed + itr) mod num_locks kv in
      _ ← lock_slot part_num;
      kv ← get;
      s ← lift (dict_get (cache kv) part_num);
      if has_valid && has_valid_keys (content s) then mret (Some part_num)
      else if negb has_valid && has_deleted_keys (content s) then mret (Some part_num)
      else _ ← unlock_slot part_num; random_partition_loop rounds seed has_valid
  end.
Definition acquire_random_partition (seed : Z) (has_valid : bool) : MK (option Z) :=
  kv ← get;
  random_partition_loop (seqZ 0 (num_locks kv)) seed has_valid.

(** [key_set()] *)
Fixpoint key_set_loop (clock : pystr → Z) (slots : list Z) (vs ds : list pystr)
    : MK (list pystr * list pystr) :=
  match slots with
  | [] => mret (vs, ds)
  | i :: slots =>
      _ ← lock_slot i;
      v ← on_partition i (valid_key_set clock);
      d ← on_partition i (deleted_key_set clock);
      _ ← unlock_slot i;
      key_set_loop clock slots (vs ++ v) (ds ++ d)
  end.
Definition key_set (clock : pystr → Z) : MK (list pystr * list pystr) :=
  kv ← get;
  key_set_loop clock (seqZ 0 (num_locks kv)) [] [].

(** [get_partitions()] and [merge_partitions(partitions)] *)
Definition get_partitions (kv : kvstore) : res (list (partition V)) :=
  foldr (λ i (acc : res (list (partition V))), s ← dict_get (cache kv) i; l ← acc; Ok (content s :: l))
        (Ok []) (seqZ 0 (num_locks kv)).
Definition merge_partitions (partitions : list (partition V)) : MK unit :=
  kv ← get;
  mfor (seqZ 0 (num_locks kv)) (λ itr,
    _ ← lock_slot itr;
    other ← lift (list_get partitions (Z.to_nat itr));
    _ ← on_partition itr (λ p, (tt, p_merge other p));
    unlock_slot itr).

(** [__len__] *)
Fixpoint kv_len_loop (clock : pystr → Z) (slots : list Z) (acc : Z) : MK Z :=
  match slots with
  | [] => mret acc
  | i :: slots => n ← on_partition i (p_len clock); kv_len_loop clock slots (acc + n)
  end.
Definition kv_len (clock : pystr → Z) : MK Z :=
  kv ← get;
  kv_len_loop clock (seqZ 0 (num_locks kv)) 0.
End KVStore.
Arguments slot : clear implicits.
Arguments kvstore : clear implicits.

(** ** ClientKeyValueStore *)

(** The entries of [_cache]; the lock pair is taken and released inside every
    method. *)
Inductive status := StValid | StDeleted | StDelete | StExpired.
#[global] Instance status_eq_dec : EqDecision status.
Proof. solve_decision. Defined.

Section ClientKeyValueStore.
Context {V : Type}.
Record entry := Entry { e_value : option V; e_ttl : Z; e_status : status }.
Abbreviation old_store := (gmap pystr entry).

Definition os_write (now : Z) (key : pystr) (v : V) (ttl : Z) (s : old_store) : old_store :=
  if 0 <=? ttl then <[key := Entry (Some v) (now + ttl) StValid]> s
  else <[key := Entry (Some v) (-1) StValid]> s.
(** The value ["N/A"] of an entry that [delete] creates is [None]. *)
Definition os_delete (key : pystr) (s : old_store) : old_store :=
  match s !! key with
  | Some e => <[key := Entry (e_value e) (e_ttl e) StDeleted]> s
  | None => <[key := Entry None (-1) StDelete]> s
  end.
(** [read]: the entry itself is updated; a missing key leaves [item = {}] and
    [item["ttl"]] raises. *)
Definition os_read (now : Z) (key : pystr) : M old_store entry :=
  s ← get;
  match s !! key with
  | None => mraise KeyError
  | Some e =>
      if (0 <=? e_ttl e) && (e_ttl e <? now) then
        let e := Entry (e_value e) (e_ttl e) StExpired in
        _ ← put (<[key := e]> s); mret e
      else mret e
  end.
Definition os_keys (s : old_store) : list pystr := dict_keys s.
Fixpoint os_valid_loop (clock : pystr → Z) (keys : list pystr) (acc : list pystr)
    : M old_store (list pystr) :=
  match keys with
  | [] => mret acc
  | k :: keys =>
      e ← os_read (clock k) k;
      os_valid_loop clock keys (if bool_decide (e_status e = StValid) then acc ++ [k] else acc)
  end.
Definition os_valid_items (clock : pystr → Z) : M old_store (list pystr) :=
  s ← get;
  os_valid_loop clock (os_keys s) [].
End ClientKeyValueStore.
Arguments entry : clear implicits.

(** ** Proofs: partitions *)

Lemma elem_of_remove_first x y l : NoDup l → y ∈ remove_first x l ↔ y ∈ l ∧ y ≠ x.
Proof.
  induction 1 as [|a l Ha Hl IH]; simpl; [set_solver|].
  case_bool_decide as E; [subst; set_solver|]. rewrite elem_of_cons, IH. set_solver.
Qed.

Lemma NoDup_remove_first x l : NoDup l → NoDup (remove_first x l).
Proof.
  induction 1 as [|a l Ha Hl IH]; simpl; [constructor|]. case_bool_decide; [done|].
  constructor; [|done]. rewrite elem_of_remove_first by done. tauto.
Qed.

Lemma elem_of_dict_keys `{Countable K} {A} (d : gmap K A) k : k ∈ dict_keys d ↔ is_Some (d !! k).
Proof.
  unfold dict_keys. rewrite list_elem_of_fmap. split.
  - intros ([k' x] & -> & Hk%elem_of_map_to_list). eauto.
  - intros [x Hx]. exists (k, x). split; [done|]. by apply elem_of_map_to_list.
Qed.

Lemma lookup_foldr_delete {A} (d : gmap pystr A) ks k :
  foldr delete d ks !! k = if bool_decide (k ∈ ks) then None else d !! k.
Proof.
  induction ks as [|a ks IH]; simpl; [done|].
  destruct (decide (k = a)) as [->|Hn].
  - rewrite lookup_delete_eq, bool_decide_eq_true_2 by set_solver. done.
  - rewrite lookup_delete_ne by done. rewrite IH. by repeat case_bool_decide; set_solver.
Qed.

Section partition_proofs.
Context {V : Type}.
Implicit Types p o : partition V.

(** The invariant: a key is never valid and deleted at once, the expired keys are
    deleted ones without repetition, and every key has a time stamp. *)
Record p_wf p : Prop := {
  wf_disjoint k : is_Some (valid p !! k) → deleted p !! k = None;
  wf_expired k : k ∈ expired_keys p → is_Some (deleted p !! k);
  wf_nodup : NoDup (expired_keys p);
  wf_stamp k : is_Some (valid p !! k) ∨ is_Some (deleted p !! k) → is_Some (timestamp p !! k)
}.

(** The partitions a program can hold. *)
Inductive p_reachable : partition V → Prop :=
  | pr_new i : p_reachable (new_partition i)
  | pr_set now now' k v e f p : p_reachable p → p_reachable (p_set now now' k v e f p)
  | pr_delete now k p : p_reachable p → p_reachable (p_delete now k p)
  | pr_expire now k p : p_reachable p → p_reachable (expire_key now k p)
  | pr_merge o p : p_reachable o → p_reachable p → p_reachable (p_merge o p).

Definition unexpire (k : pystr) (l : list pystr) : list pystr :=
  if bool_decide (k ∈ l) then remove_first k l else l.

Lemma elem_of_unexpire k y l : NoDup l → y ∈ unexpire k l ↔ y ∈ l ∧ y ≠ k.
Proof.
  intros Hl. unfold unexpire. case_bool_decide as E; [by apply elem_of_remove_first|].
  split; [|tauto]. intros Hy. split; [done|]. by intros ->.
Qed.
Lemma NoDup_unexpire k l : NoDup l → NoDup (unexpire k l).
Proof. intros. unfold unexpire. case_bool_decide; [by apply NoDup_remove_first|done]. Qed.

Lemma unexpire_all ks l :
  NoDup l → NoDup (foldr unexpire l ks) ∧ ∀ y, y ∈ foldr unexpire l ks ↔ y ∈ l ∧ (y ∉ ks).
Proof.
  intros Hl. induction ks as [|k ks [IH1 IH2]]; simpl; [split; [done|]; set_solver|].
  split; [by apply NoDup_unexpire|]. intros y. rewrite elem_of_unexpire by done.
  rewrite IH2. set_solver.
Qed.

Lemma wf_new i : p_wf (@new_partition V i).
Proof.
  split; simpl.
  - intros k. by rewrite lookup_empty.
  - set_solver.
  - constructor.
  - intros k. rewrite !lookup_empty. intros [[]|[]]; done.
Qed.

Lemma wf_set now now' k v e f p : p_wf p → p_wf (p_set now now' k v e f p).
Proof.
  intros [H1 H2 H3 H4]. split; simpl.
  - intros k'. destruct (decide (k' = k)) as [->|Hn]; [by rewrite lookup_delete_eq|].
    rewrite lookup_insert_ne, lookup_delete_ne by done. apply H1.
  - intros k' [Hk' Hn]%elem_of_unexpire; [|done]. rewrite lookup_delete_ne by done. by apply H2.
  - by apply NoDup_unexpire.
  - intros k'. destruct (decide (k' = k)) as [->|Hn]; [intros _; by rewrite lookup_insert_eq|].
    rewrite !lookup_insert_ne, lookup_delete_ne by done. apply H4.
Qed.

Lemma wf_delete now k p : p_wf p → p_wf (p_delete now k p).
Proof.
  intros [H1 H2 H3 H4]. unfold p_delete. destruct (valid p !! k) as [it|] eqn:E; [|done].
  split; simpl.
  - intros k'. destruct (decide (k' = k)) as [->|Hn]; [by rewrite lookup_delete_eq; intros []|].
    rewrite lookup_delete_ne, lookup_insert_ne by done. apply H1.
  - intros k' Hk'. destruct (decide (k' = k)) as [->|Hn]; [by rewrite lookup_insert_eq|].
    rewrite lookup_insert_ne by done. by apply H2.
  - done.
  - intros k'. destruct (decide (k' = k)) as [->|Hn]; [intros _; by rewrite lookup_insert_eq|].
    rewrite !lookup_insert_ne, lookup_delete_ne by done. apply H4.
Qed.

Lemma wf_not_expired p k : p_wf p → is_Some (valid p !! k) → k ∉ expired_keys p.
Proof. intros [H1 H2 _ _] Hv Hk. apply H2 in Hk. rewrite H1 in Hk by done. by destruct Hk. Qed.

Lemma wf_expire now k p : p_wf p → p_wf (expire_key now k p).
Proof.
  intros Hw. pose proof Hw as [H1 H2 H3 H4]. unfold expire_key.
  destruct (valid p !! k) as [it|] eqn:E; [|done]. case_match; [|done]. split; simpl.
  - intros k'. destruct (decide (k' = k)) as [->|Hn]; [by rewrite lookup_delete_eq; intros []|].
    rewrite lookup_delete_ne, lookup_insert_ne by done. apply H1.
  - intros k' Hk'. destruct (decide (k' = k)) as [->|Hn]; [by rewrite lookup_insert_eq|].
    rewrite lookup_insert_ne by done. apply H2. set_solver.
  - apply NoDup_app. split_and!; [done| |apply NoDup_singleton].
    intros x Hx ->%list_elem_of_singleton. by eapply wf_not_expired.
  - intros k'. destruct (decide (k' = k)) as [->|Hn]; [intros _; apply H4; left; by rewrite E|].
    rewrite lookup_insert_ne, lookup_delete_ne by done. apply H4.
Qed.

Lemma wf_merge o p : p_wf o → p_wf p → p_wf (p_merge o p).
Proof.
  intros Ho [H1 H2 H3 H4].
  destruct (unexpire_all (dict_keys (valid o)) (expired_keys p) H3) as [Hn He].
  split; simpl.
  - intros k. rewrite lookup_foldr_delete. intros Hk. case_bool_decide as Hd; [done|].
    rewrite elem_of_dict_keys in Hd. apply H1. rewrite lookup_union_is_Some in Hk. tauto.
  - intros k [Hk Hd]%He. rewrite lookup_foldr_delete, bool_decide_eq_false_2 by done. by apply H2.
  - done.
  - intros k. rewrite lookup_foldr_delete, !lookup_union_is_Some.
    intros [[Hk|Hk]|Hk]; [left; apply Ho; by left|right; apply H4; by left|].
    case_bool_decide; [by destruct Hk|]. right. apply H4. by right.
Qed.

Lemma p_reachable_wf p : p_reachable p → p_wf p.
Proof.
  induction 1; auto using wf_new, wf_set, wf_delete, wf_expire, wf_merge.
Qed.
End partition_proofs.

(** ** The abstract store *)

(** What a test knows of one key: nothing, a live document, or one that is gone,
    by deletion or by expiry. *)
Inductive kstate (V : Type) :=
  | Absent
  | Live (v : V) (expires flag : Z)
  | Gone (v : V) (expired : bool).
Arguments Absent {_}.
Arguments Live {_} _ _ _.
Arguments Gone {_} _ _.

Section refinement.
Context {V : Type}.
Implicit Types p o : partition V.
Implicit Types s : kstate V.

(** The abstraction function. *)
Definition view p (k : pystr) : kstate V :=
  match valid p !! k with
  | Some it => Live (value it) (expires it) (flag it)
  | None => match deleted p !! k with
            | Some v => Gone v (bool_decide (k ∈ expired_keys p))
            | None => Absent
            end
  end.

(** The abstract operations on the state of one key. *)
Definition a_deadline (now exp : Z) : Z := if exp =? 0 then 0 else now + exp.
Definition a_due (now exp : Z) : bool := negb (exp =? 0) && (exp <? now).
Definition a_delete s : kstate V := match s with Live v _ _ => Gone v false | _ => s end.
Definition a_expire (now : Z) s : kstate V :=
  match s with Live v e _ => if a_due now e then Gone v true else s | _ => s end.
Definition a_merge so s : kstate V := match so with Live _ _ _ => so | _ => s end.
Definition a_valid s : option V := match s with Live v _ _ => Some v | _ => None end.
Definition a_deleted s : option V := match s with Gone v _ => Some v | _ => None end.
(** Update one key, leave the others. *)
Definition a_upd (k : pystr) s (f : pystr → kstate V) : pystr → kstate V :=
  λ k', if bool_decide (k' = k) then s else f k'.

Lemma a_upd_eq k s f : a_upd k s f k = s.
Proof. unfold a_upd. by rewrite bool_decide_eq_true_2. Qed.
Lemma a_upd_ne k k' s f : k' ≠ k → a_upd k s f k' = f k'.
Proof. intros. unfold a_upd. by rewrite bool_decide_eq_false_2. Qed.

Lemma view_set now now' k v e f p k' :
  p_wf p →
  view (p_set now now' k v e f p) k' = a_upd k (Live v (a_deadline now e) f) (view p) k'.
Proof.
  intros Hw. destruct (decide (k' = k)) as [->|Hk].
  - rewrite a_upd_eq. unfold view, p_set, a_deadline. simpl. rewrite lookup_insert_eq. simpl.
    destruct (Z.eqb_spec e 0); simpl; by subst.
  - rewrite a_upd_ne by done. unfold view, p_set. simpl.
    rewrite lookup_insert_ne, lookup_delete_ne by done.
    destruct (valid p !! k'); [done|]. destruct (deleted p !! k'); [|done].
    f_equal. apply bool_decide_ext.
    fold (unexpire k (expired_keys p)). rewrite elem_of_unexpire by apply Hw. tauto.
Qed.
Lemma view_delete now k p k' :
  p_wf p → view (p_delete now k p) k' = a_upd k (a_delete (view p k)) (view p) k'.
Proof.
  intros Hw. destruct (decide (k' = k)) as [->|Hk]; [rewrite a_upd_eq|rewrite a_upd_ne by done];
    unfold p_delete, view; destruct (valid p !! k) as [it|] eqn:E; simpl; try done.
  - rewrite lookup_delete_eq, lookup_insert_eq. simpl.
    rewrite bool_decide_eq_false_2; [done|]. by eapply wf_not_expired.
  - rewrite E. by destruct (deleted p !! k).
  - by rewrite lookup_delete_ne, lookup_insert_ne by done.
Qed.
Lemma view_expire now k p k' :
  p_wf p → view (expire_key now k p) k' = a_upd k (a_expire now (view p k)) (view p) k'.
Proof.
  intros Hw. destruct (decide (k' = k)) as [->|Hk]; [rewrite a_upd_eq|rewrite a_upd_ne by done];
    unfold expire_key, view; destruct (valid p !! k) as [it|] eqn:E; simpl; try done.
  - unfold a_due. destruct (negb (expires it =? 0) && (expires it <? now)); simpl.
    + rewrite lookup_delete_eq, lookup_insert_eq.
      rewrite bool_decide_eq_true_2; [done|]. set_solver.
    + by rewrite E.
  - rewrite E. by destruct (deleted p !! k).
  - destruct (negb (expires it =? 0) && (expires it <? now)); [|done]. simpl. rewrite lookup_delete_ne, lookup_insert_ne by done.
    destruct (valid p !! k'); [done|]. destruct (deleted p !! k'); [|done].
    f_equal. apply bool_decide_ext. set_solver.
Qed.
Lemma view_merge o p k : p_wf p → view (p_merge o p) k = a_merge (view o k) (view p k).
Proof.
  intros Hw. unfold view, p_merge. simpl.
  destruct (valid o !! k) as [it|] eqn:E.
  - by rewrite (lookup_union_Some_l _ _ _ _ E).
  - rewrite (lookup_union_r _ _ _ E).
    replace (a_merge _ _) with (match valid p !! k with
      | Some it => Live (value it) (expires it) (flag it)
      | None => match deleted p !! k with
                | Some v => Gone v (bool_decide (k ∈ expired_keys p)) | None => Absent end end)
      by (by destruct (deleted o !! k)).
    destruct (valid p !! k); [done|].
    assert (k ∉ dict_keys (valid o)) as Hd by (rewrite elem_of_dict_keys, E; by intros []).
    rewrite lookup_foldr_delete, bool_decide_eq_false_2 by done.
    destruct (deleted p !! k); [|done]. f_equal. apply bool_decide_ext.
    destruct (unexpire_all (dict_keys (valid o)) (expired_keys p)) as [_ He]; [apply Hw|].
    unfold unexpire in He. rewrite He. tauto.
Qed.
Lemma view_valid p k : value <$> valid p !! k = a_valid (view p k).
Proof. unfold view. destruct (valid p !! k); [done|]. by destruct (deleted p !! k). Qed.
Lemma view_deleted p k : p_wf p → deleted p !! k = a_deleted (view p k).
Proof.
  intros Hw. unfold view. destruct (valid p !! k) eqn:E.
  - simpl. apply Hw. by rewrite E.
  - by destruct (deleted p !! k).
Qed.
End refinement.

(** ** Proofs: the store *)

Section store_proofs.
Context {V : Type}.
Implicit Types kv : kvstore V.

(** Slot [i] exists for every [i] below [num_locks], and holds partition [i]. *)
Definition kv_wf kv : Prop :=
  0 < num_locks kv ∧
  ∀ i, 0 ≤ i < num_locks kv →
    ∃ s, cache kv !! i = Some s ∧ part_id (content s) = i ∧ p_wf (content s).

Definition unlocked kv (i : Z) : Prop := ∃ s, cache kv !! i = Some s ∧ locked s = false.

(** What the store says of a key. *)
Definition kv_view kv (k : pystr) : kstate V :=
  match cache kv !! kv_hash kv k with
  | Some s => view (content s) k
  | None => Absent
  end.

Lemma kv_hash_range kv k : 0 < num_locks kv → 0 ≤ kv_hash kv k < num_locks kv.
Proof. intros. apply Z.mod_pos_bound. lia. Qed.

Lemma lock_slot_free i kv s :
  cache kv !! i = Some s → locked s = false →
  lock_slot i kv = (Ok tt, set_slot i (Slot true (content s)) kv).
Proof.
  intros Hs Hl. unfold lock_slot, mbind, M_bind, get, lift, dict_get. rewrite Hs. simpl.
  by rewrite Hl.
Qed.
Lemma unlock_slot_held i kv s :
  cache kv !! i = Some s → locked s = true →
  unlock_slot i kv = (Ok tt, set_slot i (Slot false (content s)) kv).
Proof.
  intros Hs Hl. unfold unlock_slot, mbind, M_bind, get, lift, dict_get. rewrite Hs. simpl.
  by rewrite Hl.
Qed.

Lemma on_partition_run {A} i (f : partition V → A * partition V) kv s :
  cache kv !! i = Some s →
  on_partition i f kv =
    (Ok (fst (f (content s))), set_slot i (Slot (locked s) (snd (f (content s)))) kv).
Proof.
  intros Hs. unfold on_partition, mbind, M_bind, get, lift, dict_get. rewrite Hs. simpl.
  by destruct (f (content s)).
Qed.

(** The way tests use a partition: acquire it by key, work on it, release it. *)
Definition with_partition {A} (key : pystr) (f : partition V → A * partition V) : M (kvstore V) A :=
  i ← acquire_partition key;
  a ← on_partition i f;
  _ ← release_partition (inl key);
  mret a.

Lemma with_partition_run {A} key (f : partition V → A * partition V) kv s :
  cache kv !! kv_hash kv key = Some s → locked s = false →
  with_partition key f kv =
    (Ok (fst (f (content s))), set_slot (kv_hash kv key) (Slot false (snd (f (content s)))) kv).
Proof.
  intros Hs Hl. unfold with_partition, acquire_partition.
  rewrite (bind_Ok _ _ kv (kv_hash kv key)
    (set_slot (kv_hash kv key) (Slot true (content s)) kv)).
  2:{ unfold mbind, M_bind, get. by rewrite (lock_slot_free _ _ s). }
  erewrite bind_Ok; [|apply on_partition_run, lookup_insert_eq]. simpl.
  set (kv1 := set_slot _ _ (set_slot _ _ kv)).
  rewrite (bind_Ok _ _ kv1 tt (set_slot (kv_hash kv key) (Slot false (snd (f (content s)))) kv1)).
  - unfold mret, M_ret, kv1, set_slot. simpl. by rewrite !insert_insert_eq.
  - unfold release_partition, mbind, M_bind, get. change (kv_hash kv1 key) with (kv_hash kv key).
    rewrite (unlock_slot_held _ _ (Slot true (snd (f (content s))))); [done| |done].
    apply lookup_insert_eq.
Qed.

(** C4: a partition refines the abstract store of key states, and keeps its
    invariant.  On every partition a program can build from an empty one by
    [set], [delete], expiry and [merge], no key is valid and deleted at once,
    expired keys are deleted ones, and the operations act on the state of their
    key alone: [set] makes it live with its deadline, [delete] and expiry turn a
    live key into a gone one (expiry only past a non-zero deadline), [merge]
    takes over exactly the live keys of the other partition. *)
Theorem partition_refines (p o : partition V) k :
  p_reachable p → p_reachable o →
  (is_Some (valid p !! k) → deleted p !! k = None) ∧
  (k ∈ expired_keys p → is_Some (deleted p !! k)) ∧
  (∀ now now' key v e f, view (p_set now now' key v e f p) k =
     a_upd key (Live v (a_deadline now e) f) (view p) k) ∧
  (∀ now key, view (p_delete now key p) k = a_upd key (a_delete (view p key)) (view p) k) ∧
  (∀ now key, view (expire_key now key p) k = a_upd key (a_expire now (view p key)) (view p) k) ∧
  view (p_merge o p) k = a_merge (view o k) (view p k) ∧
  (∀ now, fst (get_valid now k p) = a_valid (a_expire now (view p k))) ∧
  (∀ now, fst (get_deleted now k p) = a_deleted (a_expire now (view p k))).
Proof.
  intros Hp%p_reachable_wf Ho%p_reachable_wf.
  split_and!; [apply Hp|apply Hp|intros; by apply view_set|intros; by apply view_delete
              |intros; by apply view_expire|by apply view_merge| |].
  - intros now. unfold get_valid. simpl. by rewrite view_valid, view_expire, a_upd_eq.
  - intros now. unfold get_deleted. simpl.
    rewrite view_deleted by (by apply wf_expire). by rewrite view_expire, a_upd_eq.
Qed.

(** C35: the store of partitions is a flat map from keys to key states.  Working
    on a key under its partition's lock always succeeds when the lock is free,
    leaves every lock as it was, and changes the state of that key alone:
    afterwards [set] makes it live and [get_valid] returns the value until the
    deadline. *)
Theorem store_is_a_map kv key (v : V) now now' exp fl t :
  kv_wf kv → unlocked kv (kv_hash kv key) →
  ∃ kv', with_partition key (λ p, (tt, p_set now now' key v exp fl p)) kv = (Ok tt, kv') ∧
    kv_wf kv' ∧ (∀ i, unlocked kv i → unlocked kv' i) ∧
    (∀ k, kv_view kv' k = a_upd key (Live v (a_deadline now exp) fl) (kv_view kv) k) ∧
    fst (with_partition key (get_valid t key) kv') =
      Ok (if a_due t (a_deadline now exp) then None else Some v).
Proof.
  intros [Hn Hw] (s & Hs & Hl).
  destruct (Hw (kv_hash kv key)) as (s' & Hs' & Hid & Hp); [by apply kv_hash_range|].
  assert (s' = s) as -> by congruence.
  rewrite (with_partition_run _ _ _ s) by done. simpl. eexists. split; [reflexivity|].
  set (kv' := set_slot _ _ kv).
  assert (cache kv' !! kv_hash kv' key =
    Some (Slot false (p_set now now' key v exp fl (content s)))) as Hc by apply lookup_insert_eq.
  split_and!.
  - split; [done|]. intros i Hi. simpl. destruct (decide (i = kv_hash kv key)) as [->|Hne].
    + rewrite lookup_insert_eq. eexists. split; [done|]. split; [done|]. by apply wf_set.
    + rewrite lookup_insert_ne by done. by apply Hw.
  - intros i (si & Hsi & Hli). unfold unlocked. simpl.
    destruct (decide (i = kv_hash kv key)) as [->|Hne].
    + rewrite lookup_insert_eq. by eexists.
    + rewrite lookup_insert_ne by done. by exists si.
  - intros k. unfold kv_view. change (kv_hash kv' k) with (kv_hash kv k). simpl.
    destruct (decide (kv_hash kv k = kv_hash kv key)) as [He|Hne].
    + rewrite He, lookup_insert_eq. cbn [content]. rewrite view_set by done.
      unfold a_upd. by rewrite He, Hs.
    + rewrite lookup_insert_ne by done. rewrite a_upd_ne by (by intros ->). done.
  - rewrite (with_partition_run _ _ _ _ Hc) by done. simpl. f_equal.
    unfold get_valid. simpl. rewrite view_valid, view_expire by (by apply wf_set).
    rewrite a_upd_eq, view_set, a_upd_eq by done. simpl.
    by destruct (a_due t (a_deadline now exp)).
Qed.

(** [kv'] is [kv] with the locks of the partitions in [acc] held as well. *)
Definition holds kv (acc : gmap Z (list pystr)) kv' : Prop :=
  num_locks kv' = num_locks kv ∧
  ∀ i, cache kv' !! i =
    (λ s, Slot (locked s || bool_decide (is_Some (acc !! i))) (content s)) <$> cache kv !! i.

(** The keys of partition [i]. *)
Definition keys_of kv (i : Z) (keys : list pystr) : list pystr :=
  filter (λ k, kv_hash kv k = i) keys.
Definition grouped kv (acc : gmap Z (list pystr)) (keys : list pystr) (i : Z) : option (list pystr) :=
  match keys_of kv i keys with
  | [] => acc !! i
  | ks => Some (default [] (acc !! i) ++ ks)
  end.

Lemma holds_lock kv acc kv' i s v :
  holds kv acc kv' → cache kv !! i = Some s →
  holds kv (<[i := v]> acc) (set_slot i (Slot true (content s)) kv').
Proof.
  intros [Hn Hc] Hs. split; [done|]. intros j. simpl. destruct (decide (j = i)) as [->|Hne].
  - rewrite !lookup_insert_eq, Hs. simpl. by rewrite orb_true_r.
  - by rewrite !lookup_insert_ne, Hc by done.
Qed.
Lemma holds_again kv acc kv' i v :
  holds kv acc kv' → is_Some (acc !! i) → holds kv (<[i := v]> acc) kv'.
Proof.
  intros [Hn Hc] Hi. split; [done|]. intros j. rewrite Hc.
  destruct (decide (j = i)) as [->|Hne]; [|by rewrite lookup_insert_ne by done].
  rewrite lookup_insert_eq. by rewrite (bool_decide_eq_true_2 _ Hi).
Qed.

Lemma grouped_cons kv acc key keys i :
  grouped kv (<[kv_hash kv key := default [] (acc !! kv_hash kv key) ++ [key]]> acc) keys i =
  grouped kv acc (key :: keys) i.
Proof.
  unfold grouped, keys_of. rewrite filter_cons. case_decide as E.
  - rewrite <- E, lookup_insert_eq. simpl. rewrite E.
    destruct (filter _ keys) as [|k ks]; [done|]. by rewrite <- app_assoc.
  - by rewrite lookup_insert_ne by done.
Qed.

Lemma acquire_loop_run kv keys acc kv' :
  kv_wf kv → (∀ i, 0 ≤ i < num_locks kv → unlocked kv i) → holds kv acc kv' →
  ∃ acc' kv'', acquire_loop keys acc kv' = (Ok acc', kv'') ∧ holds kv acc' kv'' ∧
    acquire_lock kv'' = acquire_lock kv' ∧ ∀ i, acc' !! i = grouped kv acc keys i.
Proof.
  intros [Hn Hw] Hfree. revert acc kv'. induction keys as [|key keys IH]; intros acc kv' Hh.
  { exists acc, kv'. by split_and!. }
  pose proof Hh as [Hnl Hc]. assert (kv_hash kv' key = kv_hash kv key) as Hk
    by (unfold kv_hash; by rewrite Hnl).
  destruct (Hw (kv_hash kv key)) as (s & Hs & Hid & _); [by apply kv_hash_range|].
  destruct (Hfree (kv_hash kv key)) as (s' & Hs' & Hl); [by apply kv_hash_range|].
  assert (s' = s) as -> by congruence.
  pose proof (Hc (kv_hash kv key)) as Hci. rewrite Hs in Hci. simpl in Hci. rewrite Hl in Hci.
  simpl in Hci. cbn [acquire_loop]. rewrite (bind_Ok _ _ kv' kv' kv') by done. rewrite Hk.
  erewrite bind_Ok; [|unfold lift, dict_get; rewrite Hci; reflexivity]. cbn [content].
  rewrite Hid.
  assert (∃ kv1, match acc !! kv_hash kv key with
      | None => lock_slot (kv_hash kv key) | Some _ => mret tt end kv' = (Ok tt, kv1) ∧
      holds kv (<[kv_hash kv key := default [] (acc !! kv_hash kv key) ++ [key]]> acc) kv1 ∧
      acquire_lock kv1 = acquire_lock kv') as (kv1 & H1 & Hh1 & Ha1).
  { destruct (acc !! kv_hash kv key) as [l|] eqn:E.
    - exists kv'. split_and!; [done| |done]. apply holds_again; [done|by rewrite E].
    - rewrite bool_decide_eq_false_2 in Hci by (by intros []).
      rewrite (lock_slot_free _ _ _ Hci) by done. eexists. split; [done|].
      split; [|done]. by apply (holds_lock kv acc kv' _ s). }
  rewrite (bind_Ok _ _ _ _ _ H1).
  destruct (IH _ _ Hh1) as (acc' & kv2 & Hr & Hh2 & Ha2 & Hg). exists acc', kv2.
  split_and!; [done|done|congruence|]. intros i. by rewrite Hg, grouped_cons.
Qed.

Lemma release_run kv ids acc kv' :
  (∀ i, is_Some (acc !! i) → unlocked kv i) → NoDup ids →
  (∀ i, i ∈ ids → is_Some (acc !! i)) → holds kv acc kv' →
  ∃ kv'' acc', release_partitions ids kv' = (Ok tt, kv'') ∧ holds kv acc' kv'' ∧
    (∀ i, acc' !! i = if bool_decide (i ∈ ids) then None else acc !! i) ∧
    acquire_lock kv'' = acquire_lock kv'.
Proof.
  intros Hfree Hnd. revert acc kv' Hfree.
  induction Hnd as [|i ids Hi Hnd IH]; intros acc kv' Hfree Hin Hh; [by exists kv', acc|].
  pose proof Hh as [Hn Hc]. destruct (Hin i) as [l Hl]; [set_solver|].
  destruct (Hfree i) as (s & Hs & Hls); [by rewrite Hl|].
  pose proof (Hc i) as Hci. rewrite Hs in Hci. simpl in Hci.
  rewrite bool_decide_eq_true_2 in Hci by (by rewrite Hl). rewrite orb_true_r in Hci.
  unfold release_partitions. cbn [mfor].
  erewrite bind_Ok by (by apply (unlock_slot_held _ _ _ Hci)). cbn [content].
  destruct (IH (delete i acc) (set_slot i (Slot false (content s)) kv'))
    as (kv'' & acc' & Hr & Hh' & Ha & Hal).
  - intros j. destruct (decide (j = i)) as [->|Hne]; [rewrite lookup_delete_eq; by intros []|].
    rewrite lookup_delete_ne by done. apply Hfree.
  - intros j Hj. rewrite lookup_delete_ne by (by intros ->). apply Hin. set_solver.
  - split; [done|]. intros j. simpl. destruct (decide (j = i)) as [->|Hne].
    + rewrite lookup_insert_eq, lookup_delete_eq, Hs. simpl. by rewrite Hls.
    + by rewrite lookup_insert_ne, lookup_delete_ne, Hc by done.
  - exists kv'', acc'. split_and!; [done|done| |done]. intros j. rewrite Ha.
    destruct (decide (j = i)) as [->|Hne].
    + rewrite lookup_delete_eq. rewrite (bool_decide_eq_true_2 (i ∈ i :: ids)) by set_solver.
      by case_bool_decide.
    + rewrite lookup_delete_ne by done. by repeat case_bool_decide; set_solver.
Qed.

Lemma holds_nothing kv acc kv' :
  holds kv acc kv' → (∀ i, acc !! i = None) → acquire_lock kv' = acquire_lock kv → kv' = kv.
Proof.
  destruct kv as [n c a], kv' as [n' c' a']. unfold holds. simpl. intros [-> Hc] Hacc ->.
  f_equal. apply map_eq. intros i. rewrite Hc, Hacc.
  destruct (c !! i) as [[b p]|]; [|done]. simpl. by rewrite orb_false_r.
Qed.

(** [acquire_partitions] groups the keys by partition, each group in the
    order of the keys, takes the lock of every partition that occurs exactly
    once however often it occurs, and gives the global lock back;
    [release_partitions] on what it returned restores the store. *)
Theorem acquire_release_partitions kv keys :
  kv_wf kv → (∀ i, 0 ≤ i < num_locks kv → unlocked kv i) → acquire_lock kv = false →
  ∃ parts kv', acquire_partitions keys kv = (Ok parts, kv') ∧
    (∀ i, parts !! i = match keys_of kv i keys with [] => None | ks => Some ks end) ∧
    (∀ i s, 0 ≤ i < num_locks kv → cache kv' !! i = Some s →
       locked s = bool_decide (is_Some (parts !! i))) ∧
    acquire_lock kv' = false ∧
    release_partitions (dict_keys parts) kv' = (Ok tt, kv).
Proof.
  intros Hw Hfree Ha. unfold acquire_partitions.
  rewrite (bind_Ok _ _ kv kv kv) by done. rewrite Ha.
  rewrite (bind_Ok _ _ kv tt (set_acquire_lock true kv)) by done.
  assert (holds kv ∅ (set_acquire_lock true kv)) as Hh0.
  { split; [done|]. intros i. simpl. destruct (cache kv !! i) as [[b p]|]; [|done]. simpl.
    by rewrite orb_false_r. }
  destruct (acquire_loop_run kv keys ∅ _ Hw Hfree Hh0) as (parts & kv1 & Hr & Hh & Hal & Hg).
  rewrite (bind_Ok _ _ _ _ _ Hr).
  assert (∀ i, parts !! i = match keys_of kv i keys with [] => None | ks => Some ks end) as Hp.
  { intros i. rewrite Hg. unfold grouped. by destruct (keys_of kv i keys). }
  assert (∀ i, is_Some (parts !! i) → unlocked kv i) as Hun.
  { intros i Hi. apply Hfree. rewrite Hp in Hi. unfold keys_of in Hi.
    destruct (filter _ keys) as [|k ks] eqn:E; [by destruct Hi|].
    assert (k ∈ filter (λ k, kv_hash kv k = i) keys) as [<- _]%list_elem_of_filter
      by (rewrite E; set_solver).
    apply kv_hash_range, Hw. }
  exists parts, (set_acquire_lock false kv1). split_and!; [done|done| |done|].
  - intros i s Hi. simpl. destruct Hh as [_ Hc]. rewrite Hc.
    destruct (Hfree i Hi) as (s0 & -> & Hl). simpl. intros [= <-]. simpl. by rewrite Hl.
  - destruct (release_run kv (dict_keys parts) parts (set_acquire_lock false kv1))
      as (kv2 & acc' & -> & Hh2 & Hacc & Hal2); [done|apply NoDup_fst_map_to_list| |done|].
    { intros i. by rewrite elem_of_dict_keys. }
    f_equal. apply (holds_nothing kv acc'); [done| |by rewrite Hal2, Ha].
    intros i. rewrite Hacc. case_bool_decide as Hi; [done|]. rewrite elem_of_dict_keys in Hi.
    by apply eq_None_not_Some.
Qed.
End store_proofs.

(** ** Witnesses *)

Definition demo_kv : kvstore pystr := new_kvstore 4.

Lemma new_kvstore_slot {V} n i :
  0 ≤ i < n → cache (@new_kvstore V n) !! i = Some (Slot false (new_partition i)).
Proof.
  intros Hi. simpl. unfold reset_cache. apply elem_of_list_to_map_1.
  - rewrite <- list_fmap_compose. simpl. rewrite list_fmap_id. apply NoDup_seqZ.
  - apply list_elem_of_fmap. exists i. split; [done|]. apply elem_of_seqZ. lia.
Qed.

Lemma new_kvstore_wf {V} n : 0 < n → kv_wf (@new_kvstore V n).
Proof.
  intros Hn. split; [done|]. intros i Hi. eexists. split; [by apply new_kvstore_slot|].
  split; [done|apply wf_new].
Qed.

Lemma new_kvstore_unlocked {V} n i : 0 ≤ i < n → unlocked (@new_kvstore V n) i.
Proof. intros Hi. eexists. split; [by apply new_kvstore_slot|done]. Qed.

Lemma partition_refines_witness :
  (fst (get_valid 130 (py "k") (p_set 100 100 (py "k") (py "v") 20 0 (new_partition 0))) = None) ∧
  (fst (get_deleted 130 (py "k") (p_set 100 100 (py "k") (py "v") 20 0 (new_partition 0)))
     = Some (py "v")).
Proof.
  destruct (partition_refines (p_set 100 100 (py "k") (py "v") 20 0 (new_partition 0))
              (new_partition 0) (py "k")) as (_ & _ & _ & _ & _ & _ & Hv & Hd);
    [by repeat constructor|constructor|].
  split; [rewrite Hv|rewrite Hd]; vm_compute; reflexivity.
Defined.

Lemma store_is_a_map_witness :
  ∃ kv', with_partition (py "doc-1")
           (λ p, (tt, p_set 100 100 (py "doc-1") (py "v") 20 0 p)) demo_kv = (Ok tt, kv') ∧
    kv_wf kv' ∧ (∀ i, unlocked demo_kv i → unlocked kv' i) ∧
    (∀ k, kv_view kv' k = a_upd (py "doc-1") (Live (py "v") 120 0) (kv_view demo_kv) k) ∧
    fst (with_partition (py "doc-1") (get_valid 110 (py "doc-1")) kv') = Ok (Some (py "v")).
Proof.
  apply (store_is_a_map demo_kv (py "doc-1") (py "v") 100 100 20 0 110).
  - apply new_kvstore_wf. lia.
  - apply new_kvstore_unlocked. vm_compute. split; congruence.
Defined.

Lemma acquire_release_partitions_witness :
  ∃ parts kv', acquire_partitions [py "a"; py "b"; py "a"; py "c"] demo_kv = (Ok parts, kv') ∧
    (∀ i, parts !! i = match keys_of demo_kv i [py "a"; py "b"; py "a"; py "c"] with
                       | [] => None | ks => Some ks end) ∧
    (∀ i s, 0 ≤ i < 4 → cache kv' !! i = Some s → locked s = bool_decide (is_Some (parts !! i))) ∧
    acquire_lock kv' = false ∧
    release_partitions (dict_keys parts) kv' = (Ok tt, demo_kv).
Proof.
  apply (acquire_release_partitions demo_kv).
  - apply new_kvstore_wf. lia.
  - intros i Hi. by apply new_kvstore_unlocked.
  - reflexivity.
Defined.
