(* ===== verification/DataHelper.v ===== *)
(** * lib/memcached/helper/data_helper.py: VBucketAwareMemcached

    A client that keeps one connection per data node and routes each key to the
    node that owns its vbucket.  What the cluster reports (the vbucket map, the
    nodes) and how a connection is made ([MemcachedClientHelper.direct_client])
    are parameters. *)

From S2P Require Import Prelude Py Crc32.
Local Open Scope Z_scope.

(** A vbucket of [BucketHelper.get_vbuckets]. *)
Record vbucket := VBucket { vb_id : Z; vb_master : pystr; vb_replica : list pystr }.
(** A node of [RestConnection.get_nodes]. *)
Record node := Node { node_ip : pystr; node_memcached : Z }.

Section VBucketAware.
Context {Conn : Type}.
(** [rest.get_nodes()] and [direct_client(server, bucket, ...)]. *)
Variable nodes : list node.
Variable direct_client : pystr → res Conn.

Record vbaware := VBAware {
  memcacheds : gmap pystr Conn;
  vBucketMap : gmap Z pystr;
  vBucketMapReplica : gmap Z (list pystr)
}.

(** [add_memcached]: a server that no node matches is left out. *)
Definition add_memcached (server_str : pystr) (ms : gmap pystr Conn) : res (gmap pystr Conn) :=
  match ms !! server_str with
  | Some _ => Ok ms
  | None =>
      match rsplit_once ":"%char server_str with
      | [server_ip; port] =>
          server_port ← int_of_str port;
          if existsb (λ n, bool_decide (node_ip n = server_ip) && (node_memcached n =? server_port))
                     nodes
          then c ← direct_client server_str; Ok (<[server_str := c]> ms)
          else Ok ms
      | _ => raise IndexError
      end
  end.

Fixpoint add_all (servers : list pystr) (ms : gmap pystr Conn) : res (gmap pystr Conn) :=
  match servers with
  | [] => Ok ms
  | s :: servers => ms ← add_memcached s ms; add_all servers ms
  end.

(** The loop of [request_map] *)
Fixpoint request_map_loop (vbs : list vbucket) (a : vbaware) : res vbaware :=
  match vbs with
  | [] => Ok a
  | vb :: vbs =>
      ms ← add_memcached (vb_master vb) (memcacheds a);
      ms ← add_all (vb_replica vb) ms;
      request_map_loop vbs
        (VBAware ms (<[vb_id vb := vb_master vb]> (vBucketMap a))
                    (<[vb_id vb := vb_replica vb]> (vBucketMapReplica a)))
  end.
Definition request_map (vb_ready : bool) (vbs : list vbucket) : res vbaware :=
  if negb vb_ready then raise GenericException
  else request_map_loop vbs (VBAware ∅ ∅ ∅).

(** [_get_vBucket_id] *)
Definition get_vBucket_id (a : vbaware) (key : pystr) : Z :=
  Z.land (Z.shiftr (zlib_crc32 key) 16) (Z.of_nat (size (vBucketMap a)) - 1).

Definition memcached_for_vbucket (a : vbaware) (id : Z) : res Conn :=
  match vBucketMap a !! id with
  | None => raise GenericException
  | Some server => of_option GenericException (memcacheds a !! server)
  end.

(** [replica_index] indexes a Python list, so a negative one counts from the
    end. *)
Definition py_index {A} (l : list A) (i : Z) : res A :=
  if i <? 0 then (if len l + i <? 0 then raise IndexError else list_get l (Z.to_nat (len l + i)))
  else list_get l (Z.to_nat i).
Definition memcached_for_replica_vbucket (a : vbaware) (id replica_index : Z) : res Conn :=
  match vBucketMapReplica a !! id with
  | None => raise GenericException
  | Some rs => server ← py_index rs replica_index;
               of_option GenericException (memcacheds a !! server)
  end.

Definition memcached (a : vbaware) (key : pystr) (replica_index : option Z) : res Conn :=
  match replica_index with
  | None => memcached_for_vbucket a (get_vBucket_id a key)
  | Some i => memcached_for_replica_vbucket a (get_vBucket_id a key) i
  end.

(** ** Proofs *)

(** [add_memcached] only ever adds the connection of the server it is given. *)
Lemma add_memcached_mono s ms ms' :
  add_memcached s ms = Ok ms' →
  ∀ s', ms' !! s' = ms !! s' ∨ (∃ c, direct_client s' = Ok c ∧ ms' !! s' = Some c).
Proof.
  unfold add_memcached. destruct (ms !! s); [intros [= <-]; by left|].
  destruct (rsplit_once _ s) as [|w1 [|w2 [|]]]; try done.
  intros (p & _ & H)%res_bind_inv. destruct (existsb _ _); [|injection H as <-; by left].
  apply res_bind_inv in H as (c & Hc & [= <-]). intros s'.
  destruct (decide (s' = s)) as [->|Hn]; [right; exists c; by rewrite lookup_insert_eq|].
  left. by rewrite lookup_insert_ne.
Qed.

(** Every connection is the one [direct_client] makes for its server. *)
Definition conns_ok (ms : gmap pystr Conn) : Prop :=
  ∀ s c, ms !! s = Some c → direct_client s = Ok c.

Lemma add_memcached_ok s ms ms' :
  add_memcached s ms = Ok ms' → conns_ok ms → conns_ok ms'.
Proof.
  intros Ha Hok s' c Hc. destruct (add_memcached_mono _ _ _ Ha s') as [E|(c' & Hd & E)].
  - apply Hok. by rewrite <- E.
  - by rewrite E in Hc; injection Hc as <-.
Qed.
Lemma add_all_ok l ms ms' : add_all l ms = Ok ms' → conns_ok ms → conns_ok ms'.
Proof.
  revert ms. induction l as [|s l IH]; intros ms; simpl; [by intros [= <-]|].
  intros (ms1 & H1 & H2)%res_bind_inv Hok. eapply IH; [done|]. by eapply add_memcached_ok.
Qed.

Definition master_pairs (vbs : list vbucket) : list (Z * pystr) :=
  (λ v, (vb_id v, vb_master v)) <$> vbs.

Lemma request_map_loop_ok vbs a a' :
  request_map_loop vbs a = Ok a' → conns_ok (memcacheds a) →
  conns_ok (memcacheds a') ∧
  vBucketMap a' = list_to_map (reverse (master_pairs vbs)) ∪ vBucketMap a.
Proof.
  revert a. induction vbs as [|vb vbs IH]; intros a; cbn [request_map_loop].
  { intros [= <-] Hok. split; [done|]. simpl. by rewrite (left_id_L ∅ (∪)). }
  intros (ms & H1 & (ms' & H2 & H)%res_bind_inv)%res_bind_inv Hok.
  destruct (IH _ H) as [Hc Hm]; simpl in *; [by eauto using add_all_ok, add_memcached_ok|].
  split; [done|]. rewrite Hm.
  change (master_pairs (vb :: vbs)) with ((vb_id vb, vb_master vb) :: master_pairs vbs).
  rewrite reverse_cons, list_to_map_app. simpl. rewrite insert_union_singleton_l. by rewrite (assoc_L (∪)).
Qed.

(** a vbucket-aware client built from a complete vbucket map of at most
    2^15 vbuckets routes a key to the vbucket that [MemcachedClient] selects for
    it: [memcached(key)] is the connection made for the master of that vbucket,
    and raises only when no node of the cluster matches the master. *)
Theorem memcached_routes vbs n a key :
  request_map true vbs = Ok a → vb_id <$> vbs = seqZ 0 n → 0 < n ≤ 2 ^ 15 →
  ∃ vb, vbs !! Z.to_nat (vbucket_of key n) = Some vb ∧ vb_id vb = vbucket_of key n ∧
    match memcached a key None with
    | Ok c => direct_client (vb_master vb) = Ok c
    | Err e => exn_cls e = GenericException ∧ memcacheds a !! vb_master vb = None
    end.
Proof.
  intros Hr Hids Hn. pose proof (vbucket_of_range key n ltac:(lia)) as Hrange.
  destruct (request_map_loop_ok _ _ _ Hr) as [Hc Hm]; [by intros s c|].
  simpl in Hm. rewrite (right_id_L ∅ (∪)) in Hm.
  assert (NoDup (master_pairs vbs).*1) as Hnd.
  { unfold master_pairs. rewrite <- list_fmap_compose. change (NoDup (vb_id <$> vbs)).
    rewrite Hids. apply NoDup_seqZ. }
  assert (vBucketMap a = list_to_map (master_pairs vbs)) as Hm'.
  { rewrite Hm. apply list_to_map_proper; [|by rewrite reverse_Permutation].
    by rewrite fmap_reverse, reverse_Permutation. }
  assert (length vbs = Z.to_nat n) as Hl.
  { rewrite <- (length_seqZ 0 n), <- Hids. by rewrite length_fmap. }
  destruct (lookup_lt_is_Some_2 vbs (Z.to_nat (vbucket_of key n))) as [vb Hvb]; [lia|].
  assert (vb_id vb = vbucket_of key n) as Hid.
  { assert ((vb_id <$> vbs) !! Z.to_nat (vbucket_of key n) = Some (vb_id vb)) as H
      by (by rewrite list_lookup_fmap, Hvb).
    rewrite Hids, lookup_seqZ_lt in H by lia. injection H as <-. lia. }
  exists vb. split_and!; [done|done|].
  assert (get_vBucket_id a key = vbucket_of key n) as Hg.
  { unfold get_vBucket_id. rewrite vbucket_of_no_mask by lia. do 2 f_equal.
    rewrite Hm', map_size_list_to_map by done. unfold master_pairs. rewrite length_fmap. lia. }
  assert (vBucketMap a !! vbucket_of key n = Some (vb_master vb)) as Hlook.
  { rewrite Hm'. apply elem_of_list_to_map_1; [done|]. rewrite <- Hid.
    apply list_elem_of_fmap. exists vb. split; [done|]. by eapply list_elem_of_lookup_2. }
  unfold memcached, memcached_for_vbucket. rewrite Hg, Hlook.
  destruct (memcacheds a !! vb_master vb) as [c|] eqn:E; simpl; [by apply Hc|done].
Qed.
End VBucketAware.

(** Two nodes, four vbuckets; a connection is the name of its server. *)
Definition demo_nodes : list node :=
  [Node (py "10.0.0.1") 11210; Node (py "10.0.0.2") 11210].
Definition demo_vbs : list vbucket :=
  [VBucket 0 (py "10.0.0.1:11210") [py "10.0.0.2:11210"];
   VBucket 1 (py "10.0.0.2:11210") [py "10.0.0.1:11210"];
   VBucket 2 (py "10.0.0.1:11210") [py "10.0.0.2:11210"];
   VBucket 3 (py "10.0.0.2:11210") [py "10.0.0.1:11210"]].

Lemma memcached_routes_witness :
  ∃ a, request_map demo_nodes Ok true demo_vbs = Ok a ∧
  ∃ vb, demo_vbs !! Z.to_nat (vbucket_of (py "doc-1") 4) = Some vb ∧
    vb_id vb = vbucket_of (py "doc-1") 4 ∧
    match memcached a (py "doc-1") None with
    | Ok c => Ok (vb_master vb) = Ok c
    | Err e => exn_cls e = GenericException ∧ memcacheds a !! vb_master vb = None
    end.
Proof.
  assert (is_ok (request_map demo_nodes Ok true demo_vbs) = true) as Hok by (vm_compute; reflexivity).
  destruct (request_map demo_nodes Ok true demo_vbs) as [a|e] eqn:E; [|discriminate Hok].
  exists a. split; [reflexivity|].
  apply (memcached_routes demo_nodes Ok demo_vbs 4 a (py "doc-1") E); [reflexivity|lia].
Defined.
