(* ===== verification/DocGen.v ===== *)
(** * lib/couchbase_helper/documentgenerator.py: the document generators

    The generators that feed every load task: [DocumentGenerator],
    [DocumentGeneratorForTargetVbucket], [SubdocDocumentGenerator],
    [BlobGenerator], [JSONNonDocGenerator], [Base64Generator], and
    [BatchedDocumentGenerator], which drives one of them through the interface
    [Generator].  The JSON template of a generator is a mutable Java object that
    the generated documents share; it lives in a store and documents refer to
    it.  Python's random numbers are a function of the seed and of the number of
    draws since seeding. *)

From S2P Require Import Prelude Py Crc32.
Local Open Scope string_scope.
Local Open Scope list_scope.
Local Open Scope Z_scope.

(** ** Values *)

(** JSON values as the generators put them into a template. *)
Inductive jv := JVInt (n : Z) | JVStr (s : pystr).
(** A [JsonObject]: its fields. *)
Abbreviation tmpl := (gmap string jv).
(** A keyword argument of a generator, as [randomize] reads it. *)
Inductive kwarg := KList (l : list jv) | KCall (v : jv) | KOther.

(** A generated document: a reference to a template, the UTF-8 bytes or the text
    of one. *)
Inductive doc := DRef (r : nat) | DBytes (t : tmpl) | DText (t : tmpl) | DTextOfBytes (t : tmpl).

(** ** Keys *)

(** [KVGenerator.next_key(doc_index)] *)
Definition kv_next_key (name : pystr) (key_size doc_index : Z) : pystr :=
  name ++ py "-" ++ zfill (key_size - len name - 1) (str_of_Z (Z.abs doc_index)).

Definition letters : pystr :=
  py "ABCDEFGHIJKLMNOPQRSTUVWXYZabcdefghijklmnopqrstuvwxyz0123456789".

(** ** The interface of a generator *)

(** What [BatchedDocumentGenerator] uses of a generator. *)
Class Generator (G V : Type) := {
  g_has_next : G → bool;
  g_next : M G (pystr * V);
  g_next_key : M G pystr;
  g_deep_copy : G → bool;
  g_reset : G → G
}.

(** [next_batch]: [val] starts as the empty string, [None]. *)
Fixpoint next_batch_loop `{Generator G V} (n : nat) (skip_value : bool) (val : option V)
    : M G (list (pystr * option V)) :=
  match n with
  | O => mret []
  | S n =>
      g ← get;
      if g_has_next g then
        if negb skip_value || g_deep_copy g then
          '(key, v) ← g_next;
          rest ← next_batch_loop n true (Some v);
          mret ((key, Some v) :: rest)
        else
          key ← g_next_key;
          rest ← next_batch_loop n skip_value val;
          mret ((key, val) :: rest)
      else mret []
  end.
Definition next_batch `{Generator G V} (batch_size : Z) (skip_value : bool)
    : M G (list (pystr * option V)) :=
  next_batch_loop (Z.to_nat batch_size) skip_value None.

(** [BatchedDocumentGenerator.__init__] *)
Definition new_batched (batch_size : Z) : res Z :=
  if batch_size <=? 0 then raise ValueError else Ok batch_size.

(** ** DocumentGenerator *)

Section Random.
(** [draw seed i]: the [i]-th raw draw of a generator seeded with [seed]. *)
Variable draw : pystr → nat → Z.

(** [randint(lo, hi)], the index of [choice] from [n] values and
    [int(random() * n)], made of one draw each. *)
Definition r_randint (seed : pystr) (i : nat) (lo hi : Z) : Z := lo + draw seed i mod (hi - lo + 1).
Definition r_choice {A} (seed : pystr) (i : nat) (l : list A) : res A :=
  match l with
  | [] => raise IndexError
  | _ => list_get l (Z.to_nat (draw seed i mod len l))
  end.
Definition r_slice (seed : pystr) (i : nat) (n : Z) : Z :=
  if 0 <? n then draw seed i mod n else if n =? 0 then 0 else - (draw seed i mod (- n)).

(** [''.join(random.choice(letters) for _ in range(4*1024))] after
    [random.seed(key_prefix)] *)
Definition random_string (key_prefix : pystr) : pystr :=
  (λ i, nth (Z.to_nat (draw key_prefix i mod 62)) letters "0"%char) <$> seq 0 (4 * 1024).

(** [s[a:b]] for any bounds: negative ones count from the end. *)
Definition py_bound {A} (l : list A) (i : Z) : nat :=
  Z.to_nat (if i <? 0 then Z.max 0 (len l + i) else Z.min i (len l)).
Definition py_slice {A} (l : list A) (a b : Z) : list A := slice (py_bound l a) (py_bound l b) l.

Record docgen := DocGenerator {
  name : pystr;
  itr : Z;
  start : Z;
  end_ : Z;
  doc_type : pystr;
  key_size : Z;
  doc_size : Z;
  body : pystr;
  randomize_doc_size : bool;
  randomize_value : bool;
  randomize : bool;
  mix_key_size : bool;
  deep_copy : bool;
  kwargs : gmap string kwarg;
  template : nat;
  heap : gmap nat tmpl
}.

Definition set_itr (i : Z) (g : docgen) : docgen :=
  DocGenerator (name g) i (start g) (end_ g) (doc_type g) (key_size g) (doc_size g) (body g)
    (randomize_doc_size g) (randomize_value g) (randomize g) (mix_key_size g) (deep_copy g)
    (kwargs g) (template g) (heap g).
Definition set_body (b : pystr) (g : docgen) : docgen :=
  DocGenerator (name g) (itr g) (start g) (end_ g) (doc_type g) (key_size g) (doc_size g) b
    (randomize_doc_size g) (randomize_value g) (randomize g) (mix_key_size g) (deep_copy g)
    (kwargs g) (template g) (heap g).
Definition set_heap (h : gmap nat tmpl) (g : docgen) : docgen :=
  DocGenerator (name g) (itr g) (start g) (end_ g) (doc_type g) (key_size g) (doc_size g) (body g)
    (randomize_doc_size g) (randomize_value g) (randomize g) (mix_key_size g) (deep_copy g)
    (kwargs g) (template g) h.

(** [''.rjust(n, 'a')] *)
Definition body_of (n : Z) : pystr := rjust n "a"%char [].

(** [DocumentGenerator.__init__] with the arguments [doc_generator] passes; the
    template is a new object. *)
Definition new_docgen (key_prefix : pystr) (t : tmpl) (st en : Z) (dtype : pystr)
    (ksize dsize : Z) (rds rv rd mks dc : bool) (kw : gmap string kwarg) : docgen :=
  DocGenerator key_prefix st st en dtype ksize dsize (body_of dsize) rds rv rd mks dc kw
    0%nat {[0%nat := t]}.

(** [has_next], [reset], [__len__] *)
Definition dg_has_next (g : docgen) : bool := itr g <? end_ g.
Definition dg_reset (g : docgen) : docgen := set_itr (start g) g.
Definition dg_len (g : docgen) : Z := end_ g - start g.

Definition seed_hash (nm : pystr) (i : Z) : pystr := nm ++ py "-" ++ str_of_Z (Z.abs i).

(** The key of document [i]: the part of [next_key] before the increment. *)
Definition doc_key (g : docgen) (i : Z) : pystr :=
  if bool_decide (name g = py "random_keys") then
    let s := random_string (name g) in
    let a := r_slice (seed_hash (name g) i) 0 (len s - key_size g) in
    let key_len := key_size g - (len (str_of_Z i) + 1) in
    py_slice s a (key_len + a) ++ py "-" ++ str_of_Z i
  else if mix_key_size g then
    name g ++ py "-" ++
      zfill (r_randint (seed_hash (name g) i) 0 (key_size g) 240 - len (name g) - 1)
            (str_of_Z (Z.abs i))
  else kv_next_key (name g) (key_size g) i.

Definition dg_next_key : M docgen pystr :=
  g ← get;
  _ ← put (set_itr (itr g + 1) g);
  mret (doc_key g (itr g)).

(** The loop over [template.getNames()] of [randomize]; [i] counts the draws.
    The fields put before an exception stay put. *)
Fixpoint randomize_fields (seed : pystr) (i : nat) (ks : list string) (kw : gmap string kwarg)
    (t : tmpl) : res nat * tmpl :=
  match ks with
  | [] => (Ok i, t)
  | k :: ks =>
      match kw !! k with
      | None => randomize_fields seed i ks kw t
      | Some (KCall v) => randomize_fields seed i ks kw (<[k := v]> t)
      | Some (KList l) =>
          if bool_decide (k = "key") then (raise NameError, t)   (* doc_key is unbound here *)
          else match r_choice seed i l with
               | Ok v => randomize_fields seed (S i) ks kw (<[k := v]> t)
               | Err e => (Err e, t)
               end
      | Some KOther => (raise (if bool_decide (k = "key") then NameError else TypeError), t)
      end
  end.

(** [s * n] *)
Definition py_repeat (s : pystr) (n : Z) : pystr := concat (replicate (Z.to_nat n) s).

(** [next] *)
Definition dg_next : M docgen (pystr * doc) :=
  g ← get;
  if end_ g <=? itr g then mraise StopIteration else
  t0 ← lift (of_option KeyError (heap g !! template g));
  let r := if deep_copy g then fresh (dom (heap g)) else template g in
  _ ← modify (λ g, set_heap (<[r := t0]> (heap g)) g);
  let seed := seed_hash (name g) (itr g) in
  let '(ri, t1) := if randomize g
                   then randomize_fields seed 0 ((map_to_list t0).*1) (kwargs g) t0
                   else (Ok 0%nat, t0) in
  _ ← modify (λ g, set_heap (<[r := t1]> (heap g)) g);
  i ← lift ri;
  let dsize := if randomize_doc_size g then r_randint seed i 0 (doc_size g) else doc_size g in
  let i := if randomize_doc_size g then S i else i in
  let b := if randomize_doc_size g then body_of dsize else body g in
  let b := if negb (dsize =? 0) && randomize_value g then
             let s := random_string (name g) in
             let a := r_slice seed i (len s) in
             py_slice (py_repeat s (dsize / len s + 2)) a (dsize + a)
           else b in
  _ ← modify (set_body b);
  let t2 := match t1 !! "body" with Some _ => <["body" := JVStr b]> t1 | None => t1 end in
  _ ← modify (λ g, set_heap (<[r := t2]> (heap g)) g);
  let bin := contains (py "binary") (lower (doc_type g)) in
  let str := contains (py "string") (lower (doc_type g)) in
  let d := if bin then (if str then DTextOfBytes t2 else DBytes t2)
           else if str then DText t2 else DRef r in
  key ← dg_next_key;
  mret (key, d).

#[global] Instance docgen_generator : Generator docgen doc := {|
  g_has_next := dg_has_next;
  g_next := dg_next;
  g_next_key := dg_next_key;
  g_deep_copy := deep_copy;
  g_reset := dg_reset
|}.

(** ** DocumentGeneratorForTargetVbucket *)

(** The fields that matter to the keys; documents are made as in
    [DocumentGenerator]. *)
Record targetgen := TargetGen {
  t_gen : docgen;
  target_vbucket : list Z;
  vbuckets : Z;
  doc_keys : gmap Z pystr;
  doc_keys_len : Z;
  key_counter : Z
}.

(** [tem_vb] of a candidate key. *)
Definition key_vbucket (vbuckets : Z) (key : pystr) : Z :=
  Z.land (Z.land (Z.shiftr (zlib_crc32 key) 16) 0x7fff) (vbuckets - 1).

(** The loop of [create_key_for_vbucket].  Nothing in the code bounds it; [None]
    is a run that is not over after [fuel] rounds. *)
Fixpoint create_keys (fuel : nat) (nm : pystr) (ksize : Z) (targets : list Z) (vbs st en : Z)
    (n : Z) (keys : gmap Z pystr) (counter : Z) : option (gmap Z pystr * Z * Z) :=
  if n <? en then
    match fuel with
    | O => None
    | S fuel =>
        let key := kv_next_key nm ksize counter in
        if bool_decide (key_vbucket vbs key ∈ targets)
        then create_keys fuel nm ksize targets vbs st en (n + 1) (<[st + n := key]> keys) (counter + 1)
        else create_keys fuel nm ksize targets vbs st en n keys (counter + 1)
    end
  else Some (keys, n, counter).

(** [create_key_for_vbucket], with [self.end = self.start + self.doc_keys_len]
    at its end. *)
Definition set_end (e : Z) (g : docgen) : docgen :=
  DocGenerator (name g) (itr g) (start g) e (doc_type g) (key_size g) (doc_size g) (body g)
    (randomize_doc_size g) (randomize_value g) (randomize g) (mix_key_size g) (deep_copy g)
    (kwargs g) (template g) (heap g).
Definition create_key_for_vbucket (fuel : nat) (t : targetgen) : option targetgen :=
  let g := t_gen t in
  match create_keys fuel (name g) (key_size g) (target_vbucket t) (vbuckets t) (start g) (end_ g)
          (doc_keys_len t) (doc_keys t) (key_counter t) with
  | Some (keys, n, counter) =>
      Some (TargetGen (set_end (start g + n) g) (target_vbucket t) (vbuckets t) keys n counter)
  | None => None
  end.

(** [__init__]: the counter starts at [start]. *)
Definition new_targetgen (fuel : nat) (g : docgen) (targets : list Z) (vbs : Z) : option targetgen :=
  create_key_for_vbucket fuel (TargetGen g targets vbs ∅ 0 (start g)).

Definition set_t_gen (g : docgen) (t : targetgen) : targetgen :=
  TargetGen g (target_vbucket t) (vbuckets t) (doc_keys t) (doc_keys_len t) (key_counter t).

Definition tg_next_key : M targetgen pystr :=
  t ← get;
  key ← lift (dict_get (doc_keys t) (itr (t_gen t)));
  _ ← put (set_t_gen (set_itr (itr (t_gen t) + 1) (t_gen t)) t);
  mret key.

(** The names of [kwargs] that a template has: [choice] on each, callable or
    not. *)
Fixpoint t_randomize_fields (seed : pystr) (i : nat) (ks : list string) (kw : gmap string kwarg)
    (t : tmpl) : res nat * tmpl :=
  match ks with
  | [] => (Ok i, t)
  | k :: ks =>
      match kw !! k with
      | None => t_randomize_fields seed i ks kw t
      | Some (KList l) =>
          match r_choice seed i l with
          | Ok v => t_randomize_fields seed (S i) ks kw (<[k := v]> t)
          | Err e => (Err e, t)
          end
      | Some _ => (raise TypeError, t)
      end
  end.

(** Python truth of a JSON value that [template.get] returns. *)
Definition jv_true (v : option jv) : bool :=
  match v with
  | None => false
  | Some (JVInt n) => negb (n =? 0)
  | Some (JVStr s) => negb (bool_decide (s = []))
  end.

(** [next]: the guard is [itr > end]; the size of a randomised body does not
    enter the random value. *)
Definition tg_next : M targetgen (pystr * doc) :=
  t ← get;
  let g := t_gen t in
  if end_ g <? itr g then mraise StopIteration else
  t0 ← lift (of_option KeyError (heap g !! template g));
  let r := if deep_copy g then fresh (dom (heap g)) else template g in
  let seed := name g ++ py "-" ++ str_of_Z (itr g) in
  let '(ri, t1) := if randomize g
                   then t_randomize_fields seed 0 ((map_to_list t0).*1) (kwargs g) t0
                   else (Ok 0%nat, t0) in
  _ ← modify (λ t, set_t_gen (set_heap (<[r := t1]> (heap (t_gen t))) (t_gen t)) t);
  i ← lift ri;
  let b := if randomize_doc_size g then body_of (r_randint seed i 0 (doc_size g)) else body g in
  let i := if randomize_doc_size g then S i else i in
  let b := if negb (doc_size g =? 0) && randomize_value g then
             let s := random_string (name g) in
             let a := r_slice seed i (len s) in
             py_slice (py_repeat s (doc_size g / len s + 2)) a (doc_size g + a)
           else b in
  let t2 := if jv_true (t1 !! "body") then <["body" := JVStr b]> t1 else t1 in
  _ ← modify (λ t, set_t_gen (set_heap (<[r := t2]> (heap (t_gen t))) (set_body b (t_gen t))) t);
  key ← tg_next_key;
  mret (key, DRef r).

#[global] Instance targetgen_generator : Generator targetgen doc := {|
  g_has_next t := dg_has_next (t_gen t);
  g_next := tg_next;
  g_next_key := tg_next_key;
  g_deep_copy t := deep_copy (t_gen t);
  g_reset t := set_t_gen (dg_reset (t_gen t)) t
|}.

(** ** SubdocDocumentGenerator: its keys *)

Record subdocgen := SubdocGen {
  sd_name : pystr; sd_itr : Z; sd_start : Z; sd_end : Z; sd_key_size : Z;
  sd_target : option (list Z); sd_vbuckets : Z; sd_doc_keys : gmap Z pystr
}.

(** [__init__]; an empty list of targets is false and creates no keys. *)
Definition new_subdocgen (fuel : nat) (nm : pystr) (st en ksize : Z) (target : option (list Z))
    (vbs : Z) : option subdocgen :=
  match target with
  | Some (v :: vs) =>
      match create_keys fuel nm ksize (v :: vs) vbs st en 0 ∅ st with
      | Some (keys, n, _) => Some (SubdocGen nm st st (st + n) ksize target vbs keys)
      | None => None
      end
  | _ => Some (SubdocGen nm st st en ksize target vbs ∅)
  end.

Definition sd_set_itr (i : Z) (g : subdocgen) : subdocgen :=
  SubdocGen (sd_name g) i (sd_start g) (sd_end g) (sd_key_size g) (sd_target g) (sd_vbuckets g)
    (sd_doc_keys g).

(** [next_key]: twelve random letters for [random_keys]. *)
Definition sd_next_key : M subdocgen pystr :=
  g ← get;
  key ← lift (match sd_target g with
              | Some _ => dict_get (sd_doc_keys g) (sd_itr g)
              | None =>
                  if bool_decide (sd_name g = py "random_keys") then
                    let seed := sd_name g ++ py "-" ++ str_of_Z (sd_itr g) in
                    Ok ((λ i, nth (Z.to_nat (draw seed i mod 62)) letters "0"%char) <$> seq 0 12)
                  else Ok (kv_next_key (sd_name g) (sd_key_size g) (sd_itr g))
              end);
  _ ← put (sd_set_itr (sd_itr g + 1) g);
  mret key.

(** ** BlobGenerator *)

Record blobgen := BlobGen {
  bl_name : pystr; bl_itr : Z; bl_start : Z; bl_end : Z; bl_seed : pystr; bl_value_size : Z
}.
Definition bl_set_itr (i : Z) (g : blobgen) : blobgen :=
  BlobGen (bl_name g) i (bl_start g) (bl_end g) (bl_seed g) (bl_value_size g).

(** The module-level [choice] draws from a generator of its own; [i] is where it
    stands. *)
Definition blob_value (g : blobgen) (i : nat) : pystr :=
  if bl_value_size g =? 1 then [nth (Z.to_nat (draw [] i mod 52)) letters "A"%char]
  else
    let v := bl_seed g ++ str_of_Z (bl_itr g) in
    let extra := bl_value_size g - len v in
    if 0 <? extra then v ++ replicate (Z.to_nat extra) "a"%char else v.
Definition bl_next (i : nat) : M blobgen (pystr * pystr) :=
  g ← get;
  if bl_end g <=? bl_itr g then mraise StopIteration else
  let key := if bool_decide (bl_name g = py "random_keys")
             then (λ j, nth (Z.to_nat (draw [] (i + j) mod 62)) letters "0"%char) <$> seq 0 12
             else bl_name g ++ str_of_Z (bl_itr g) in
  let v := blob_value g i in
  _ ← put (bl_set_itr (bl_itr g + 1) g);
  mret (key, v).

(** [next_key()] is inherited from [KVGenerator] and lacks its argument. *)
#[global] Instance blobgen_generator : Generator blobgen pystr := {|
  g_has_next g := bl_itr g <? bl_end g;
  g_next := bl_next 0;
  g_next_key := mraise TypeError;
  g_deep_copy _ := false;
  g_reset g := bl_set_itr (bl_start g) g
|}.
End Random.

(** ** JSONNonDocGenerator and Base64Generator *)

(** [while index > len(values): index = index - len(values)]: with values at
    hand, [index] rounds are enough. *)
Fixpoint wrap_index (fuel : nat) (n index : Z) : option Z :=
  if n <? index then
    match fuel with
    | O => None
    | S fuel => wrap_index fuel n (index - n)
    end
  else Some index.

(** [values[index-1]] at document [itr]; index -1 is the last value. *)
Definition cyclic_value {A} (values : list A) (itr : Z) : option (res A) :=
  match wrap_index (Z.to_nat itr) (len values) itr with
  | None => None
  | Some index =>
      Some (let i := index - 1 in
            if i <? 0 then (if len values + i <? 0 then raise IndexError
                            else list_get values (Z.to_nat (len values + i)))
            else list_get values (Z.to_nat i))
  end.

(** ** doc_generator: which fields fit the requested size *)

(** Put a field when more than its length is left. *)
Definition put_if_fits (l : Z) (k : string) (v : jv) (p : tmpl * Z) : tmpl * Z :=
  if l <? p.2 then (<[k := v]> p.1, p.2 - l) else p.
Definition doc_template (size : Z) (mutation_type : pystr) (mutate : Z) : tmpl * Z :=
  let p := (<["mutated" := JVInt mutate]> (∅ : tmpl), size - (19 + len (str_of_Z mutate))) in
  let p := put_if_fits 13 "age" (JVInt 5) p in
  let p := put_if_fits 20 "name" (JVStr (py "james")) p in
  let p := put_if_fits (24 + len mutation_type) "mutation_type" (JVStr mutation_type) p in
  put_if_fits 14 "body" (JVStr (py "b")) p.

(** The names [doc_generator] passes as keyword arguments. *)
Definition doc_kwargs : gmap string kwarg :=
  list_to_map ((λ k, (k, KOther)) <$>
    ["start"; "end"; "key_size"; "mix_key_size"; "doc_size"; "doc_type"; "target_vbucket";
     "vbuckets"; "randomize_doc_size"; "randomize_value"; "randomize"; "deep_copy"]).

(** [doc_generator]; a falsy [target_vbucket] (none, or an empty list) gives the
    plain generator. *)
Definition doc_generator (fuel : nat) (key : pystr) (st en ksize : Z) (mks : bool) (dsize : Z)
    (dtype : pystr) (targets : list Z) (vbs : Z) (mutation_type : pystr) (mutate : Z)
    (rds rv rd dc : bool) : docgen + option targetgen :=
  let '(t, dsize) := doc_template dsize mutation_type mutate in
  let g := new_docgen key t st en dtype ksize dsize rds rv rd mks dc doc_kwargs in
  match targets with
  | [] => inl g
  | _ => inr (new_targetgen fuel g targets vbs)
  end.

(** ** Proofs: batches *)

(** What a generator promises to [BatchedDocumentGenerator]: the keys still to
    come, one per call, whether the value is made or skipped. *)
Class GeneratorLaws (G V : Type) `{Generator G V} := {
  g_ok : G → Prop;
  g_keys : G → list pystr;
  law_has_next g : g_ok g → g_has_next g = negb (bool_decide (g_keys g = []));
  law_next g k ks : g_ok g → g_keys g = k :: ks →
    ∃ v g', g_next g = (Ok (k, v), g') ∧ g_ok g' ∧ g_keys g' = ks;
  law_next_key g k ks : g_ok g → g_keys g = k :: ks →
    ∃ g', g_next_key g = (Ok k, g') ∧ g_ok g' ∧ g_keys g' = ks
}.

(** The caller's loop: batches until the generator is exhausted. *)
Fixpoint all_batches `{Generator G V} (fuel : nat) (batch_size : Z) (skip : bool)
    : M G (list (list (pystr * option V))) :=
  g ← get;
  if g_has_next g then
    match fuel with
    | O => mraise RuntimeError
    | S fuel =>
        b ← next_batch batch_size skip;
        bs ← all_batches fuel batch_size skip;
        mret (b :: bs)
    end
  else mret [].

Section batches.
Context `{HL : GeneratorLaws G V}.

Lemma next_batch_loop_keys n skip (val : option V) g :
  g_ok g →
  ∃ kvs g', next_batch_loop n skip val g = (Ok kvs, g') ∧
    kvs.*1 = take n (g_keys g) ∧ g_ok g' ∧ g_keys g' = drop n (g_keys g).
Proof.
  revert skip val g. induction n as [|n IH]; intros skip val g Hok; cbn [next_batch_loop].
  { exists [], g. by split_and!. }
  rewrite (bind_Ok _ _ g g g) by done. rewrite law_has_next by done.
  destruct (g_keys g) as [|k ks] eqn:Hk.
  { rewrite bool_decide_eq_true_2 by done. exists [], g. by rewrite Hk. }
  rewrite bool_decide_eq_false_2 by done. cbn [negb].
  destruct (negb skip || g_deep_copy g).
  - destruct (law_next g k ks Hok Hk) as (v & g1 & Hn & Hok1 & Hk1).
    rewrite (bind_Ok _ _ _ _ _ Hn).
    destruct (IH true (Some v) g1 Hok1) as (kvs & g' & Hr & Hkv & Hok' & Hk').
    rewrite (bind_Ok _ _ _ _ _ Hr). exists ((k, Some v) :: kvs), g'.
    split_and!; [done|by rewrite fmap_cons, Hkv, Hk1|done|by rewrite Hk', Hk1].
  - destruct (law_next_key g k ks Hok Hk) as (g1 & Hn & Hok1 & Hk1).
    rewrite (bind_Ok _ _ _ _ _ Hn).
    destruct (IH skip val g1 Hok1) as (kvs & g' & Hr & Hkv & Hok' & Hk').
    rewrite (bind_Ok _ _ _ _ _ Hr). exists ((k, val) :: kvs), g'.
    split_and!; [done|by rewrite fmap_cons, Hkv, Hk1|done|by rewrite Hk', Hk1].
Qed.

Lemma all_batches_keys fuel n skip g :
  g_ok g → 0 < n → (length (g_keys g) ≤ fuel)%nat →
  ∃ bs g', all_batches fuel n skip g = (Ok bs, g') ∧
    (concat bs).*1 = g_keys g ∧ g_keys g' = [] ∧
    Forall (λ b, (0 < length b ≤ Z.to_nat n)%nat) bs.
Proof.
  revert g. induction fuel as [|fuel IH]; intros g Hok Hn Hl; cbn [all_batches];
    rewrite (bind_Ok _ _ g g g) by done; rewrite law_has_next by done.
  - destruct (g_keys g) as [|k ks] eqn:Hk; [|simpl in Hl; lia].
    rewrite bool_decide_eq_true_2 by done. exists [], g. by split_and!.
  - destruct (g_keys g) as [|k ks] eqn:Hk.
    { rewrite bool_decide_eq_true_2 by done. exists [], g. by split_and!. }
    rewrite bool_decide_eq_false_2 by done. cbn [negb].
    destruct (next_batch_loop_keys (Z.to_nat n) skip None g Hok) as (b & g1 & Hr & Hb & Hok1 & Hk1).
    unfold next_batch. rewrite (bind_Ok _ _ _ _ _ Hr). rewrite Hk in Hb, Hk1.
    destruct (IH g1 Hok1 Hn) as (bs & g' & Hrs & Hbs & Hk' & Hf).
    { rewrite Hk1, length_drop. simpl in *. lia. }
    rewrite (bind_Ok _ _ _ _ _ Hrs). exists (b :: bs), g'. split_and!; [done| |done|].
    + cbn [concat]. rewrite fmap_app, Hbs, Hb, Hk1. apply take_drop.
    + constructor; [|done]. assert (length b = length (b.*1)) as -> by (by rewrite length_fmap).
      rewrite Hb, length_take. simpl. lia.
Qed.
End batches.

(** *** DocumentGenerator keeps the promise *)

Section docgen_laws.
Variable draw : pystr → nat → Z.

(** The template object exists and [randomize] meets none of its fields among
    the keyword arguments. *)
Definition dg_ok (g : docgen) : Prop :=
  ∃ t, heap g !! template g = Some t ∧
    (randomize g = true → ∀ k, is_Some (t !! k) → kwargs g !! k = None).

Definition dg_keys (g : docgen) : list pystr :=
  doc_key draw g <$> seqZ (itr g) (end_ g - itr g).

Lemma randomize_none seed i ks kw t :
  (∀ k, k ∈ ks → kw !! k = None) → randomize_fields draw seed i ks kw t = (Ok i, t).
Proof.
  intros Hk. induction ks as [|k ks IH]; [done|]. cbn [randomize_fields].
  rewrite (Hk k) by set_solver. apply IH. set_solver.
Qed.

(** What [next] leaves behind: another body, another heap, the next index. *)
Lemma dg_next_run g :
  dg_ok g → itr g < end_ g →
  ∃ d h b, dg_next draw g = (Ok (doc_key draw g (itr g), d), set_itr (itr g + 1) (set_heap h (set_body b g))) ∧
    dg_ok (set_heap h g) ∧
    (doc_type g = py "json" →
       d = DRef (if deep_copy g then fresh (dom (heap g)) else template g)) ∧
    dom h = dom (heap g) ∪ {[if deep_copy g then fresh (dom (heap g)) else template g]}.
Proof.
  intros (t & Ht & Hr) Hi. unfold dg_next. rewrite (bind_Ok _ _ g g g) by done.
  rewrite (proj2 (Z.leb_gt _ _)) by done. rewrite Ht. rewrite (bind_Ok _ _ g t g) by done.
  cbv zeta. set (r := if deep_copy g then fresh (dom (heap g)) else template g).
  rewrite (bind_Ok _ _ g tt (set_heap (<[r := t]> (heap g)) g)) by done.
  assert ((if randomize g then randomize_fields draw (seed_hash (name g) (itr g)) 0
             ((map_to_list t).*1) (kwargs g) t else (Ok 0%nat, t)) = (Ok 0%nat, t)) as ->.
  { destruct (randomize g); [|done]. apply randomize_none.
    intros k ((k' & x) & -> & Hx%elem_of_map_to_list)%list_elem_of_fmap. simpl. apply Hr; [done|].
    by rewrite Hx. }
  do 2 (erewrite bind_Ok by reflexivity). cbv beta.
  match goal with |- context [modify (set_body ?b)] => set (bd := b) end.
  do 2 (erewrite bind_Ok by reflexivity). cbv beta.
  set (t2 := match t !! "body" with Some _ => _ | None => _ end).
  set (d := if contains _ _ then _ else _).
  exists d, (<[r := t2]> (heap g)), bd. split_and!.
  - unfold dg_next_key, mbind, M_bind, get, put, mret, M_ret. cbn -[insert].
    unfold set_itr, set_heap, set_body. cbn -[insert]. by rewrite !insert_insert_eq.
  - assert (∀ k, is_Some (t2 !! k) → is_Some (t !! k)) as Hdom.
    { intros k. unfold t2. destruct (t !! "body") eqn:Eb; [|done].
      destruct (decide (k = "body")) as [->|Hne]; [by rewrite Eb|by rewrite lookup_insert_ne]. }
    unfold dg_ok. cbn -[insert lookup].
    destruct (decide (r = template g)) as [->|Hne].
    + exists t2. rewrite lookup_insert_eq. split; [done|]. intros Hrand k Hk. by apply Hr, Hdom.
    + exists t. by rewrite lookup_insert_ne.
  - intros Hj. unfold d. by rewrite Hj.
  - unfold r. rewrite dom_insert_L. set_solver.
Qed.

Lemma doc_key_set i h b j g :
  doc_key draw (set_itr i (set_heap h (set_body b g))) j = doc_key draw g j.
Proof. done. Qed.

Lemma dg_keys_cons g k ks :
  dg_keys g = k :: ks →
  itr g < end_ g ∧ k = doc_key draw g (itr g) ∧
  ks = doc_key draw g <$> seqZ (itr g + 1) (end_ g - (itr g + 1)).
Proof.
  unfold dg_keys. intros Hk. destruct (Z.le_gt_cases (end_ g) (itr g)).
  - by rewrite seqZ_nil in Hk by lia.
  - rewrite seqZ_cons in Hk by lia. injection Hk as <- <-. split_and!; [done|done|].
    do 2 f_equal; lia.
Qed.

#[global] Program Instance docgen_laws : @GeneratorLaws docgen doc (docgen_generator draw) := {|
  g_ok := dg_ok;
  g_keys := dg_keys
|}.
Next Obligation.
  intros g _. simpl. unfold dg_has_next, dg_keys. destruct (Z.ltb_spec (itr g) (end_ g)).
  - rewrite bool_decide_eq_false_2; [done|]. by rewrite seqZ_cons by lia.
  - by rewrite seqZ_nil by lia.
Qed.
Next Obligation.
  intros g k ks Hok (Hi & -> & ->)%dg_keys_cons.
  destruct (dg_next_run g Hok Hi) as (d & h & b & Hn & Hok' & _).
  eexists d, _. split; [exact Hn|]. split; [exact Hok'|]. done.
Qed.
Next Obligation.
  intros g k ks Hok (Hi & -> & ->)%dg_keys_cons. eexists. split; [reflexivity|]. done.
Qed.
End docgen_laws.

(** *** Keys *)

Section keys.
Variable draw : pystr → nat → Z.


(** Two keys of a generator with the same text have the same number. *)
Lemma doc_key_suffix g i :
  0 ≤ i → ∃ p s, doc_key draw g i = p ++ "-"%char :: s ∧ digits_val 0 s = Some i.
Proof.
  intros Hi. unfold doc_key, kv_next_key. rewrite (Z.abs_eq i) by done.
  case_bool_decide; [|destruct (mix_key_size g)].
  - eexists _, _. split; [reflexivity|]. by apply digits_val_str.
  - eexists _, _. split; [reflexivity|]. by apply digits_val_zfill.
  - eexists _, _. split; [reflexivity|]. by apply digits_val_zfill.
Qed.

Lemma digits_no_dash s v : digits_val 0 s = Some v → "-"%char ∉ s.
Proof.
  intros H%digits_val_is_digit Hin. rewrite Forall_forall in H.
  specialize (H _ Hin). by destruct H.
Qed.

Lemma doc_key_inj g i j : 0 ≤ i → 0 ≤ j → doc_key draw g i = doc_key draw g j → i = j.
Proof.
  intros Hi Hj He. destruct (doc_key_suffix g i Hi) as (p & s & Hp & Hs).
  destruct (doc_key_suffix g j Hj) as (p' & s' & Hp' & Hs').
  rewrite Hp, Hp' in He. apply (f_equal (rsplit_once "-"%char)) in He.
  rewrite !rsplit_once_app in He by (by eapply digits_no_dash). congruence.
Qed.
End keys.

(** ** Properties *)

(** C20: driving a [DocumentGenerator] in batches of any positive size yields
    every document from [start] to [end] exactly once: the loop ends, the keys
    of the batches one after the other are the keys of the documents in order,
    no key occurs twice, and no batch is empty or larger than asked for. *)
Theorem batches_cover draw g n skip :
  dg_ok g → 0 < n → 0 ≤ itr g →
  ∃ bs g', @all_batches _ _ (docgen_generator draw) (length (dg_keys draw g)) n skip g = (Ok bs, g') ∧
    (concat bs).*1 = doc_key draw g <$> seqZ (itr g) (end_ g - itr g) ∧
    NoDup (concat bs).*1 ∧ dg_has_next g' = false ∧
    Forall (λ b, (0 < length b ≤ Z.to_nat n)%nat) bs.
Proof.
  intros Hok Hn Hi.
  destruct (all_batches_keys (HL := docgen_laws draw) (length (dg_keys draw g)) n skip g Hok Hn
              (le_n _)) as (bs & g' & Hr & Hb & Hk & Hf).
  exists bs, g'. split_and!; [done|done| | |done].
  - rewrite Hb. simpl. unfold dg_keys. apply NoDup_fmap_2_strong; [|apply NoDup_seqZ].
    intros x y Hx%elem_of_seqZ Hy%elem_of_seqZ. apply doc_key_inj; lia.
  - unfold dg_has_next. simpl in Hk. unfold dg_keys in Hk. apply Z.ltb_ge.
    apply fmap_nil_inv in Hk. destruct (Z.le_gt_cases (end_ g') (itr g')); [done|].
    by rewrite seqZ_cons in Hk by lia.
Qed.

Definition demo_gen : docgen :=
  new_docgen (py "test_docs") (fst (doc_template 256 (py "ADD") 0)) 0 5 (py "json") 16 180
    false false false false false doc_kwargs.

Lemma batches_cover_witness :
  ∃ bs g', @all_batches _ _ (docgen_generator (λ _ _, 0)) (length (dg_keys (λ _ _, 0) demo_gen)) 2 false
             demo_gen = (Ok bs, g') ∧
    (concat bs).*1 = doc_key (λ _ _, 0) demo_gen <$> seqZ 0 (5 - 0) ∧
    NoDup (concat bs).*1 ∧ dg_has_next g' = false ∧
    Forall (λ b, (0 < length b ≤ Z.to_nat 2)%nat) bs.
Proof.
  apply (batches_cover (λ _ _, 0) demo_gen 2 false).
  - exists (fst (doc_template 256 (py "ADD") 0)). split; [reflexivity|discriminate].
  - lia.
  - done.
Defined.

(** The keys of the targeted vbuckets among the first [n] candidates. *)
Definition target_hits (nm : pystr) (ksize : Z) (targets : list Z) (vbs counter : Z) (n : nat)
    : list pystr :=
  filter (λ key, key_vbucket vbs key ∈ targets)
         (kv_next_key nm ksize <$> seqZ counter (Z.of_nat n)).

Lemma target_hits_S nm ksize targets vbs c n :
  target_hits nm ksize targets vbs c (S n) =
    (if bool_decide (key_vbucket vbs (kv_next_key nm ksize c) ∈ targets)
     then [kv_next_key nm ksize c] else []) ++ target_hits nm ksize targets vbs (c + 1) n.
Proof.
  unfold target_hits. rewrite seqZ_cons by lia. rewrite fmap_cons, filter_cons.
  replace (Z.pred (Z.of_nat (S n))) with (Z.of_nat n) by lia. replace (Z.succ c) with (c + 1) by lia.
  case_decide as Hd;
    [by rewrite bool_decide_eq_true_2|by rewrite bool_decide_eq_false_2].
Qed.

Lemma create_keys_hits fuel nm ksize targets vbs st en n keys c :
  match create_keys fuel nm ksize targets vbs st en n keys c with
  | None => n + len (target_hits nm ksize targets vbs c fuel) < en
  | Some (keys', n', _) =>
      en ≤ n + len (target_hits nm ksize targets vbs c fuel) ∧ n' = Z.max n en ∧
      (∀ i, 0 ≤ i < n' - n →
         keys' !! (st + n + i) = target_hits nm ksize targets vbs c fuel !! Z.to_nat i) ∧
      (∀ i, i < st + n → keys' !! i = keys !! i)
  end.
Proof.
  revert n keys c. induction fuel as [|fuel IH]; intros n keys c; cbn [create_keys];
    (destruct (Z.ltb_spec n en) as [Hlt|Hge];
     [|match goal with |- context [len ?l] => pose proof (len_nonneg l) end;
       split_and!; [lia|lia|intros; lia|done]]).
  - change (target_hits nm ksize targets vbs c 0) with (@nil pystr). rewrite len_nil. lia.
  - rewrite target_hits_S. case_bool_decide as Hh.
    + specialize (IH (n + 1) (<[st + n := kv_next_key nm ksize c]> keys) (c + 1)).
      destruct (create_keys _ _ _ _ _ _ _ _ _ _) as [[[keys' n'] c']|];
        rewrite len_app, len_cons, len_nil; [|lia].
      destruct IH as (H1 & H2 & H3 & H4). split_and!; [lia|lia| |].
      * intros i Hi. destruct (decide (i = 0)) as [->|Hne].
        -- rewrite H4, Z.add_0_r, lookup_insert_eq by lia. done.
        -- replace (st + n + i) with (st + (n + 1) + (i - 1)) by lia. rewrite H3 by lia.
           replace (Z.to_nat i) with (S (Z.to_nat (i - 1))) by lia. done.
      * intros i Hi. rewrite H4 by lia. by rewrite lookup_insert_ne by lia.
    + apply IH.
Qed.

(** the keys for a set of target vbuckets.  The search of
    [create_key_for_vbucket] is over after [fuel] candidates exactly when [end]
    of them belong to a target vbucket (so it never ends when no vbucket is
    targeted); then the generator holds the first of them in order, every one in
    a target vbucket, and its length is [end], not [end - start]. *)
Theorem target_keys fuel g targets vbs :
  match new_targetgen fuel g targets vbs with
  | None => len (target_hits (name g) (key_size g) targets vbs (start g) fuel) < end_ g
  | Some t =>
      end_ g ≤ len (target_hits (name g) (key_size g) targets vbs (start g) fuel) ∧
      dg_len (t_gen t) = Z.max 0 (end_ g) ∧
      ∀ i, 0 ≤ i < dg_len (t_gen t) → ∃ key, doc_keys t !! (start g + i) = Some key ∧
        target_hits (name g) (key_size g) targets vbs (start g) fuel !! Z.to_nat i = Some key ∧
        key_vbucket vbs key ∈ targets
  end.
Proof.
  unfold new_targetgen, create_key_for_vbucket. simpl.
  pose proof (create_keys_hits fuel (name g) (key_size g) targets vbs (start g) (end_ g) 0 ∅
                (start g)) as H.
  destruct (create_keys _ _ _ _ _ _ _ _ _ _) as [[[keys n] c]|]; [|lia]. simpl.
  destruct H as (H1 & H2 & H3 & _). split_and!; [lia|unfold dg_len; simpl; lia|].
  unfold dg_len. simpl. intros i Hi.
  specialize (H3 i ltac:(lia)). rewrite Z.add_0_r in H3.
  destruct (target_hits _ _ _ _ _ _ !! Z.to_nat i) as [key|] eqn:E.
  - exists key. split_and!; [done|done|]. unfold target_hits in E.
    apply list_elem_of_lookup_2, list_elem_of_filter in E. by destruct E.
  - apply lookup_ge_None in E. unfold len in H1. lia.
Qed.

Section sharing.
Variable draw : pystr → nat → Z.
#[local] Existing Instance docgen_generator.

Lemma dg_ok_body h b i g : dg_ok (set_heap h g) → dg_ok (set_itr i (set_heap h (set_body b g))).
Proof. done. Qed.

Lemma next_batch_shared n skip g kvs g' :
  dg_ok g → doc_type g = py "json" → deep_copy g = false →
  @next_batch_loop _ _ (docgen_generator draw) n skip (Some (DRef (template g))) g = (Ok kvs, g') →
  Forall (λ kv, kv.2 = Some (DRef (template g))) kvs.
Proof.
  revert skip g kvs g'. induction n as [|n IH]; intros skip g kvs g' Hok Hj Hd; cbn [next_batch_loop].
  { intros [= <- _]. constructor. }
  rewrite (bind_Ok _ _ g g g) by done. cbn [g_has_next docgen_generator]. unfold dg_has_next.
  destruct (Z.ltb_spec (itr g) (end_ g)); [|intros [= <- _]; constructor].
  cbn [g_deep_copy docgen_generator]. rewrite Hd, orb_false_r. destruct (negb skip).
  - destruct (dg_next_run draw g Hok ltac:(lia)) as (d & h & b & Hn & Hok' & Hdoc & _).
    rewrite (bind_Ok _ _ _ _ _ Hn). rewrite Hdoc, Hd by done. cbv beta iota.
    intros (rest & g2 & Hr & [= <- _])%bind_inv. constructor; [done|].
    by apply (IH true (set_itr (itr g + 1) (set_heap h (set_body b g)))  rest g2).
  - cbn [g_next_key docgen_generator].
    rewrite (bind_Ok _ _ g (doc_key draw g (itr g)) (set_itr (itr g + 1) g)) by done.
    intros (rest & g2 & Hr & [= <- _])%bind_inv. constructor; [done|].
    by apply (IH skip (set_itr (itr g + 1) g) rest g2).
Qed.

Lemma next_batch_fresh n skip val g kvs g' :
  dg_ok g → doc_type g = py "json" → deep_copy g = true →
  @next_batch_loop _ _ (docgen_generator draw) n skip val g = (Ok kvs, g') →
  NoDup kvs.*2 ∧ Forall (λ kv, ∃ r, kv.2 = Some (DRef r) ∧ r ∉ dom (heap g)) kvs.
Proof.
  revert skip val g kvs g'. induction n as [|n IH]; intros skip val g kvs g' Hok Hj Hd;
    cbn [next_batch_loop].
  { intros [= <- _]. split; constructor. }
  rewrite (bind_Ok _ _ g g g) by done. cbn [g_has_next docgen_generator]. unfold dg_has_next.
  destruct (Z.ltb_spec (itr g) (end_ g)); [|intros [= <- _]; split; constructor].
  cbn [g_deep_copy docgen_generator]. rewrite Hd, orb_true_r.
  destruct (dg_next_run draw g Hok ltac:(lia)) as (d & h & b & Hn & Hok' & Hdoc & Hdom).
  rewrite (bind_Ok _ _ _ _ _ Hn). rewrite Hdoc by done. rewrite Hd in *. cbv beta iota.
  intros (rest & g2 & Hr & [= <- _])%bind_inv.
  apply (IH true _ (set_itr (itr g + 1) (set_heap h (set_body b g))) rest g2) in Hr
    as [Hnd Hf]; [|done..].
  cbn [heap set_itr set_heap set_body] in Hf. rewrite Hdom in Hf.
  split.
  - rewrite fmap_cons. constructor; [|done].
    intros ([k v] & Hv & Hin)%list_elem_of_fmap. rewrite Forall_forall in Hf.
    destruct (Hf _ Hin) as (r & Hr' & Hni). simpl in *. rewrite Hr' in Hv. injection Hv as <-.
    set_solver.
  - constructor.
    + eexists. split; [done|]. apply is_fresh.
    + eapply Forall_impl; [done|]. intros kv (r & Hr' & Hni). exists r. split; [done|]. set_solver.
Qed.
End sharing.

(** which documents of a batch are the same object.  Without [deep_copy] all
    documents of a batch are one and the same template object, so a later change
    of one changes them all; with it every document is an object of its own. *)
Theorem batch_sharing draw g n kvs g' :
  dg_ok g → doc_type g = py "json" →
  @next_batch _ _ (docgen_generator draw) n false g = (Ok kvs, g') →
  (deep_copy g = false → Forall (λ kv, kv.2 = Some (DRef (template g))) kvs) ∧
  (deep_copy g = true → NoDup kvs.*2 ∧ Forall (λ kv, ∃ r, kv.2 = Some (DRef r) ∧ r ≠ template g) kvs).
Proof.
  intros Hok Hj Hr. unfold next_batch in Hr. split; intros Hd.
  - destruct (Z.to_nat n) as [|m]; [injection Hr as <- _; constructor|].
    apply (next_batch_shared draw (S m) false g kvs g'); [done..|]. rewrite <- Hr.
    cbn [next_batch_loop negb orb]. reflexivity.
  - apply next_batch_fresh in Hr as [Hnd Hf]; [|done..]. split; [done|].
    destruct Hok as (t & Ht & _). eapply Forall_impl; [done|].
    intros kv (r & Hr' & Hni). exists r. split; [done|]. intros ->.
    apply Hni, elem_of_dom. by rewrite Ht.
Qed.

Definition demo_batch : res (list (pystr * option doc)) * docgen :=
  @next_batch _ _ (docgen_generator (λ _ _, 0)) 3 false demo_gen.

Lemma batch_sharing_witness :
  match demo_batch with
  | (Ok kvs, _) => length kvs = 3%nat ∧ Forall (λ kv, kv.2 = Some (DRef 0)) kvs
  | _ => False
  end.
Proof.
  assert (match demo_batch with (Ok kvs, _) => length kvs =? 3 | _ => false end = true)%nat as Hok
    by (vm_compute; reflexivity).
  destruct demo_batch as [[kvs|e] g'] eqn:E; [|discriminate Hok].
  split; [by apply Nat.eqb_eq|].
  apply (batch_sharing (λ _ _, 0) demo_gen 3 kvs g'); [|reflexivity|exact E|reflexivity].
  exists (fst (doc_template 256 (py "ADD") 0)). split; [reflexivity|discriminate].
Defined.

Lemma wrap_index_mod fuel n i :
  0 < n → i ≤ Z.of_nat fuel → 1 ≤ i → wrap_index fuel n i = Some ((i - 1) mod n + 1).
Proof.
  intros Hn. revert i. induction fuel as [|fuel IH]; intros i Hf Hi; cbn [wrap_index];
    (destruct (Z.ltb_spec n i); [|rewrite Z.mod_small by lia; f_equal; lia]); [lia|].
  rewrite IH by lia. do 2 f_equal. replace (i - n - 1) with (i - 1 + (-1) * n) by lia.
  by rewrite Z.mod_add by lia.
Qed.

(** [JSONNonDocGenerator] and [Base64Generator] hand their values out in a
    cycle: the loop ends for every document number, and document [i] has value
    [i - 1] modulo the number of values (document 0 the last one). *)
Theorem cyclic_value_spec {A} (values : list A) i :
  values ≠ [] → 0 ≤ i →
  ∃ v, cyclic_value values i = Some (Ok v) ∧
    values !! Z.to_nat ((i - 1) mod len values) = Some v.
Proof.
  intros Hv Hi. assert (0 < len values) as Hn.
  { destruct values; [done|]. rewrite len_cons. pose proof (len_nonneg values). lia. }
  pose proof (Z.mod_pos_bound (i - 1) (len values) Hn) as Hr.
  destruct (lookup_lt_is_Some_2 values (Z.to_nat ((i - 1) mod len values))) as [v Hlv];
    [unfold len in *; lia|].
  exists v. split; [|done]. unfold cyclic_value. destruct (decide (i = 0)) as [->|Hne].
  - assert (wrap_index (Z.to_nat 0) (len values) 0 = Some 0) as ->.
    { simpl. by rewrite (proj2 (Z.ltb_ge _ _)) by lia. }
    assert ((0 - 1) mod len values = len values - 1) as Hm.
    { replace (0 - 1) with (len values - 1 + (-1) * len values) by lia.
      rewrite Z.mod_add by lia. apply Z.mod_small. lia. }
    rewrite Hm in Hlv. cbv zeta. change (0 - 1 <? 0) with true. cbv iota.
    rewrite (proj2 (Z.ltb_ge (len values + (0 - 1)) 0)) by lia.
    unfold list_get. replace (len values + (0 - 1)) with (len values - 1) by lia. by rewrite Hlv.
  - rewrite wrap_index_mod by lia. simpl.
    replace ((i - 1) mod len values + 1 - 1) with ((i - 1) mod len values) by lia.
    rewrite (proj2 (Z.ltb_ge _ 0)) by lia. unfold list_get. by rewrite Hlv.
Qed.

Lemma cyclic_value_spec_witness :
  ∃ v, cyclic_value [10; 20; 30] 7 = Some (Ok v) ∧
    [10; 20; 30] !! Z.to_nat ((7 - 1) mod len [10; 20; 30]) = Some v.
Proof. apply cyclic_value_spec; [discriminate|lia]. Defined.

(** a [BlobGenerator] cannot be driven in batches of two or more: the second
    key of a batch is asked for with [next_key()], which the class inherits from
    [KVGenerator] with a required argument, and [TypeError] is raised. *)
Theorem blob_batch_fails draw g n :
  1 < n → bl_itr g + 1 < bl_end g →
  raises TypeError (fst (@next_batch _ _ (blobgen_generator draw) n false g)).
Proof.
  intros Hn Hi. unfold next_batch.
  destruct (Z.to_nat n) as [|[|m]] eqn:E; [lia|lia|].
  set (g2 := bl_set_itr (bl_itr g + 1) g).
  assert (∀ v, @next_batch_loop _ _ (blobgen_generator draw) (S m) true v g2 =
               (raise TypeError, g2)) as Hb.
  { intros v. cbn [next_batch_loop]. rewrite (bind_Ok _ _ g2 g2 g2) by done.
    cbn [g_has_next g_deep_copy g_next_key blobgen_generator negb orb].
    by rewrite (proj2 (Z.ltb_lt _ _)) by (simpl; lia). }
  assert (∃ kv, bl_next draw 0 g = (Ok kv, g2)) as [[k v] Hnext].
  { eexists. unfold bl_next. rewrite (bind_Ok _ _ g g g) by done.
    rewrite (proj2 (Z.leb_gt _ _)) by lia. erewrite bind_Ok by reflexivity. reflexivity. }
  remember (S m) as m1 eqn:Em. cbn [next_batch_loop].
  rewrite (bind_Ok _ _ g g g) by done.
  cbn [g_has_next g_deep_copy g_next blobgen_generator negb orb].
  rewrite (proj2 (Z.ltb_lt _ _)) by lia. rewrite (bind_Ok _ _ _ _ _ Hnext). cbv beta iota.
  by rewrite (bind_Err _ _ _ _ _ (Hb _)).
Qed.

Lemma blob_batch_fails_witness :
  raises TypeError (fst (@next_batch _ _ (blobgen_generator (λ _ _, 0)) 100 false
                           (BlobGen (py "blob") 0 0 10 (py "seed") 64))).
Proof. apply blob_batch_fails; [lia|simpl; lia]. Defined.
