(* ===== verification/TestInput.v ===== *)
(** * TestInput.py: test parameters and servers

    [TestInput.param] with its value conversion, the parsing of [-p] arguments,
    and [TestInputParser], which builds the list of servers from an .ini file or
    from the command line.  [ConfigParser] is represented by what it returns: the
    sections in order with their options in order. *)

From S2P Require Import Prelude Py.
Local Open Scope string_scope.
Local Open Scope list_scope.
Local Open Scope Z_scope.

(** ** Values of parameters *)

(** A float is kept as the text [float] accepts. *)
Inductive pval :=
  | PStr (s : pystr) | PInt (n : Z) | PFloat (s : pystr) | PBool (b : bool)
  | PList (l : list pystr) | PNone.
#[global] Instance pval_eq_dec : EqDecision pval.
Proof. solve_decision. Defined.

(** The syntax of [float(s)]: digits with an optional point and exponent, or a
    special value. *)
Definition span (p : ascii → bool) : pystr → pystr * pystr :=
  fix go s := match s with
              | [] => ([], [])
              | c :: s' => if p c then let '(w, r) := go s' in (c :: w, r) else ([], s)
              end.
Definition is_digit (c : ascii) : bool := bool_decide (is_Some (digit_val c)).
Definition drop_sign (s : pystr) : pystr :=
  match s with
  | c :: s' => if bool_decide (c ∈ py "+-") then s' else s
  | [] => []
  end.
Definition is_exponent (s : pystr) : bool :=
  match s with
  | [] => true
  | c :: s => if bool_decide (c ∈ py "eE") then isdigit (drop_sign s) else false
  end.
Definition is_float (s : pystr) : bool :=
  let s := drop_sign (strip s) in
  if bool_decide (lower s ∈ [py "inf"; py "infinity"; py "nan"]) then true
  else
    let '(a, s) := span is_digit s in
    let '(b, s) := match s with
                   | c :: s' => if bool_decide (c = "."%char) then span is_digit s' else ([], s)
                   | [] => ([], [])
                   end in
    negb (bool_decide (a ++ b = [])) && is_exponent s.

(** [TestInput._parse_param] *)
Definition parse_param (v : pval) : res pval :=
  match v with
  | PInt n => Ok (PInt n)
  | PBool b => Ok (PInt (if b then 1 else 0))
  | PFloat s => raise NotImplementedError     (* never stored: parameters come as text *)
  | PList _ | PNone => raise TypeError        (* int() of a list or of None *)
  | PStr s =>
      match int_of_str s with
      | Ok n => Ok (PInt n)
      | Err _ =>
          if is_float s then Ok (PFloat (strip s))
          else if bool_decide (lower s = py "false") then Ok (PBool false)
          else if bool_decide (lower s = py "true") then Ok (PBool true)
          else Ok (PStr s)
      end
  end.

(** [param(name, default)] *)
Definition param (params : gmap pystr pval) (name : pystr) (dflt : option pval) : res pval :=
  match params !! name with
  | Some v => parse_param v
  | None => of_option GenericException dflt
  end.

(** Python truth; a float is zero when its mantissa is (underflow aside). *)
Definition pval_true (v : pval) : bool :=
  match v with
  | PStr s => negb (bool_decide (s = []))
  | PInt n => negb (n =? 0)
  | PFloat s => existsb (λ c, bool_decide (c ∈ py "123456789iInN"))
                  (span (λ c, negb (bool_decide (c ∈ py "eE"))) s).1
  | PBool b => b
  | PList l => negb (bool_decide (l = []))
  | PNone => false
  end.

(** ** [re.split("[,]?([^,=]+)=", text)] *)

Definition is_key_char (c : ascii) : bool := negb (bool_decide (c ∈ py ",=")).

(** A match at the head of [s]: the group and the rest behind the equals sign. *)
Definition key_eq (s : pystr) : option (pystr * pystr) :=
  let '(w, r) := span is_key_char s in
  match w, r with
  | _ :: _, c :: r' => if bool_decide (c = "="%char) then Some (w, r') else None
  | _, _ => None
  end.
Definition match_at (s : pystr) : option (pystr * pystr) :=
  match s with
  | c :: s' => if bool_decide (c = ","%char) then key_eq s' else key_eq s
  | [] => None
  end.

(** The pieces of the text: the part before the first match, then group and part
    alternating.  [part] is the current part; every step consumes a character. *)
Fixpoint re_split (fuel : nat) (part s : pystr) : pystr * list (pystr * pystr) :=
  match fuel with
  | O => (part, [])
  | S fuel =>
      match match_at s with
      | Some (k, rest) =>
          let '(v, ps) := re_split fuel [] rest in (part, (k, v) :: ps)
      | None =>
          match s with
          | [] => (part, [])
          | c :: s => re_split fuel (part ++ [c]) s
          end
      end
  end.

(** [dict(zip(argument_split[::2], argument_split[1::2]))] with every piece
    stripped; the last value of a key stays. *)
Definition param_pairs (text : pystr) : list (pystr * pystr) :=
  (λ kv, (strip kv.1, strip kv.2)) <$> (re_split (S (length text)) [] text).2.
Definition params_of (text : pystr) : gmap pystr pystr :=
  foldl (λ m kv, <[kv.1 := kv.2]> m) ∅ (param_pairs text).

(** The values of [-p]: a value with commas becomes a list. *)
Definition p_value (v : pystr) : pval :=
  match strip <$> split_on ","%char v with
  | [w] => PStr w
  | l => PList l
  end.
Definition p_option (argument : pystr) : gmap pystr pval := p_value <$> params_of argument.

(** ** Servers *)

Record server := Server {
  ip : pystr; ssh_username : pystr; ssh_password : pystr; ssh_key : pystr;
  rest_username : pystr; rest_password : pystr; services : pystr; port : pystr;
  memcached_port : option pystr; cli_path : pystr; data_path : pystr; index_path : pystr;
  cbas_path : pystr; eventing_path : pystr; n1ql_port : pystr; index_port : pystr;
  fts_port : pystr; es_username : pystr; es_password : pystr
}.
(** [TestInputServer.__init__] *)
Definition new_server : server :=
  Server [] [] [] [] [] [] [] [] None [] [] [] [] [] [] [] [] [] [].

(** A parsed .ini file: sections and their options. *)
Abbreviation options := (list (string * pystr)).
Abbreviation config := (list (pystr * options)).

(** One option of a server's section; the tests are independent [if]s. *)
Definition set_server_option (s : server) (o : string * pystr) : server :=
  let '(k, v) := o in
  Server
    (if bool_decide (k = "ip") then v else ip s)
    (if bool_decide (k = "username") then v else ssh_username s)
    (if bool_decide (k = "password") then v else ssh_password s)
    (if bool_decide (k = "ssh_key") then v else ssh_key s)
    (rest_username s) (rest_password s)
    (if bool_decide (k = "services") then v else services s)
    (if bool_decide (k = "port") then v else port s)
    (if bool_decide (k = "memcached_port") then Some v else memcached_port s)
    (if bool_decide (k = "cli") then v else cli_path s)
    (data_path s) (index_path s) (cbas_path s) (eventing_path s)
    (if bool_decide (k = "n1ql_port") then v else n1ql_port s)
    (if bool_decide (k = "index_port") then v else index_port s)
    (if bool_decide (k = "fts_port") then v else fts_port s)
    (es_username s) (es_password s).

Definition set_ip (i : pystr) (s : server) : server := set_server_option s ("ip", i).

(** The first section of that name. *)
Fixpoint find_section (n : pystr) (c : config) : option options :=
  match c with
  | [] => None
  | (s, o) :: c => if bool_decide (s = n) then Some o else find_section n c
  end.

(** [get_server(ip, config)] *)
Definition get_server (i : pystr) (c : config) : server :=
  foldl set_server_option (set_ip i new_server) (default [] (find_section i c)).

(** [get_server_ips(config, section)] *)
Definition get_server_ips (o : options) : list pystr := snd <$> o.

(** [TestInputMembaseSetting] and [get_membase_settings] *)
Definition get_membase_settings (o : options) : pystr * pystr :=
  foldl (λ m kv, (if bool_decide (kv.1 = "rest_username") then kv.2 else m.1,
                  if bool_decide (kv.1 = "rest_password") then kv.2 else m.2)) ([], []) o.

Section Options.
(** [os.path.expanduser] *)
Variable expanduser : pystr → pystr.

(** Fill an empty field from the global properties. *)
Definition fill (gp : gmap string pystr) (k : string) (v : pystr) : pystr :=
  if bool_decide (v = []) then default v (gp !! k) else v.
Definition fill_key (gp : gmap string pystr) (v : pystr) : pystr :=
  if bool_decide (v = []) then
    match gp !! "ssh_key" with Some k => expanduser k | None => v end
  else v.

(** One server of [get_server_options].  [membase_settings] is [None] when the
    file has no [membase] section, and reading an attribute of it raises. *)
Definition server_options (ms : option (pystr * pystr)) (gp : gmap string pystr) (s : server)
    : res server :=
  ru ← (if bool_decide (rest_username s = [])
        then fst <$> of_option AttributeError ms else Ok (rest_username s));
  rp ← (if bool_decide (rest_password s = [])
        then snd <$> of_option AttributeError ms else Ok (rest_password s));
  Ok (Server (ip s)
        (fill gp "username" (ssh_username s)) (fill gp "password" (ssh_password s))
        (fill_key gp (ssh_key s)) ru rp
        (fill gp "services" (services s)) (fill gp "port" (port s)) (memcached_port s)
        (fill gp "cli" (cli_path s)) (fill gp "data_path" (data_path s))
        (fill gp "index_path" (index_path s)) (fill gp "cbas_path" (cbas_path s))
        (fill gp "eventing_path" (eventing_path s)) (fill gp "n1ql_port" (n1ql_port s))
        (fill gp "index_port" (index_port s)) (fts_port s)
        (fill gp "es_username" (es_username s)) (fill gp "es_password" (es_password s))).

(** [get_server_options(servers, membase_settings, global_properties)] *)
Fixpoint get_server_options (ss : list server) (ms : option (pystr * pystr))
    (gp : gmap string pystr) : res (list server) :=
  match ss with
  | [] => Ok []
  | s :: ss => s ← server_options ms gp s; ss ← get_server_options ss ms gp; Ok (s :: ss)
  end.

(** ** The .ini file *)

(** An entry of the [tuq_client] configuration. *)
Inductive tuq_val := TStr (s : pystr) | TServer (s : server).

(** [get_tuq_config] *)
Definition get_tuq_config (o : options) (c : config) : gmap string tuq_val :=
  foldl (λ m kv,
    let m := if bool_decide (kv.1 = "ip") then <["client" := TServer (get_server kv.2 c)]> m
             else <[kv.1 := TStr kv.2]> m in
    <[kv.1 := TStr kv.2]> m) ∅ o.

(** [get_ui_tests_config]: the server and the other options. *)
Definition get_ui_tests_config (o : options) : server * gmap string pystr :=
  foldl (λ a kv,
    if bool_decide (kv.1 = "selenium_ip") then (set_ip kv.2 a.1, a.2)
    else if bool_decide (kv.1 = "selenium_port")
         then (set_server_option a.1 ("port", kv.2), a.2)
    else if bool_decide (kv.1 = "selenium_user")
         then (set_server_option a.1 ("username", kv.2), a.2)
    else if bool_decide (kv.1 = "selenium_password")
         then (set_server_option a.1 ("password", kv.2), a.2)
    else (a.1, <[kv.1 := kv.2]> a.2)) (new_server, ∅) o.

(** [get_elastic_config] *)
Definition get_elastic_config (o : options) : server :=
  foldl (λ s kv,
    let s := if bool_decide (kv.1 = "ip") then set_ip kv.2 s else s in
    let s := if bool_decide (kv.1 = "port") then set_server_option s ("port", kv.2) else s in
    Server (ip s) (ssh_username s) (ssh_password s) (ssh_key s) (rest_username s)
      (rest_password s) (services s) (port s) (memcached_port s) (cli_path s) (data_path s)
      (index_path s) (cbas_path s) (eventing_path s) (n1ql_port s) (index_port s) (fts_port s)
      (if bool_decide (kv.1 = "es_username") then kv.2 else es_username s)
      (if bool_decide (kv.1 = "es_password") then kv.2 else es_password s)) new_server o.

(** What the loop over the sections collects. *)
Record ini := Ini {
  i_ips : list pystr; i_clients : list pystr; i_membase : option (pystr * pystr);
  i_global : gmap string pystr; i_dashboard : list pystr;
  i_ui : option (server * gmap string pystr); i_tuq : gmap string tuq_val;
  i_elastic : option server; i_capella : gmap string pystr;
  i_clusters : list (list pystr)
}.
Definition empty_ini : ini := Ini [] [] None ∅ [] None ∅ None ∅ [].

Definition ini_section (c : config) (a : ini) (sec : pystr * options) : ini :=
  let '(s, o) := sec in
  if bool_decide (s = py "capella") then
    Ini (i_ips a) (i_clients a) (i_membase a) (i_global a) (i_dashboard a) (i_ui a) (i_tuq a)
        (i_elastic a) (foldl (λ m kv, <[kv.1 := kv.2]> m) ∅ o) (i_clusters a)
  else if bool_decide (s = py "servers") then
    Ini (get_server_ips o) (i_clients a) (i_membase a) (i_global a) (i_dashboard a) (i_ui a)
        (i_tuq a) (i_elastic a) (i_capella a) (i_clusters a)
  else if bool_decide (s = py "clients") then
    Ini (i_ips a) (get_server_ips o) (i_membase a) (i_global a) (i_dashboard a) (i_ui a) (i_tuq a)
        (i_elastic a) (i_capella a) (i_clusters a)
  else if bool_decide (s = py "membase") then
    Ini (i_ips a) (i_clients a) (Some (get_membase_settings o)) (i_global a) (i_dashboard a)
        (i_ui a) (i_tuq a) (i_elastic a) (i_capella a) (i_clusters a)
  else if bool_decide (s = py "global") then
    Ini (i_ips a) (i_clients a) (i_membase a) (foldl (λ m kv, <[kv.1 := kv.2]> m) (i_global a) o)
        (i_dashboard a) (i_ui a) (i_tuq a) (i_elastic a) (i_capella a) (i_clusters a)
  else if bool_decide (s = py "dashboard") then
    Ini (i_ips a) (i_clients a) (i_membase a) (i_global a) (get_server_ips o) (i_ui a) (i_tuq a)
        (i_elastic a) (i_capella a) (i_clusters a)
  else if bool_decide (s = py "uiconf") then
    Ini (i_ips a) (i_clients a) (i_membase a) (i_global a) (i_dashboard a)
        (Some (get_ui_tests_config o)) (i_tuq a) (i_elastic a) (i_capella a) (i_clusters a)
  else if bool_decide (s = py "tuq_client") then
    Ini (i_ips a) (i_clients a) (i_membase a) (i_global a) (i_dashboard a) (i_ui a)
        (get_tuq_config o c) (i_elastic a) (i_capella a) (i_clusters a)
  else if bool_decide (s = py "elastic") then
    Ini (i_ips a) (i_clients a) (i_membase a) (i_global a) (i_dashboard a) (i_ui a) (i_tuq a)
        (Some (get_elastic_config o)) (i_capella a) (i_clusters a)
  else if startswith (py "cluster") s then
    Ini (i_ips a) (i_clients a) (i_membase a) (i_global a) (i_dashboard a) (i_ui a) (i_tuq a)
        (i_elastic a) (i_capella a) (i_clusters a ++ [get_server_ips o])
  else a.
Definition read_sections (c : config) : ini := foldl (ini_section c) empty_ini c.

(** [t_input] *)
Record test_input := TestInput {
  ti_servers : list server;
  ti_clusters : gmap Z (list server);
  ti_clients : option (list pystr);          (* set by [parse_from_file] only *)
  ti_membase : option (pystr * pystr);
  ti_tuq : gmap string tuq_val;
  ti_params : gmap pystr pval
}.
Definition set_params (p : gmap pystr pval) (t : test_input) : test_input :=
  TestInput (ti_servers t) (ti_clusters t) (ti_clients t) (ti_membase t) (ti_tuq t) p.

(** The loop that cuts the servers of all clusters into the clusters. *)
Fixpoint cut_clusters (key : Z) (sizes : list nat) (start end_ : nat) (ss : list server)
    (acc : gmap Z (list server)) : gmap Z (list server) :=
  match sizes with
  | [] => acc
  | n :: sizes =>
      let end_ := (end_ + n)%nat in
      cut_clusters (key + 1) sizes (start + n) end_ ss (<[key := slice start end_ ss]> acc)
  end.

(** [parse_from_file] on a parsed file *)
Definition parse_from_file (c : config) : res test_input :=
  let a := read_sections c in
  cservers ← get_server_options ((λ i, get_server i c) <$> concat (i_clusters a))
                                (i_membase a) (i_global a);
  tuq ← match i_tuq a !! "client" with
        | Some (TServer s) =>
            s ← server_options (i_membase a) (i_global a) s;
            Ok (<["client" := TServer s]> (i_tuq a))
        | Some (TStr s) => if bool_decide (s = []) then Ok (i_tuq a) else raise AttributeError
        | None => Ok (i_tuq a)
        end;
  let clusters := cut_clusters 0 (length <$> i_clusters a) 0 0 cservers ∅ in
  servers ← get_server_options ((λ i, get_server i c) <$> i_ips a) (i_membase a) (i_global a);
  Ok (TestInput servers clusters (Some (i_clients a)) (i_membase a) tuq ∅).
End Options.

(** ** The command line *)

(** [getopt.getopt(args, spec, [])]: the short options of [spec] (followed by a
    colon when they take an argument) up to the first other argument. *)
Fixpoint takes_arg (spec : pystr) (c : ascii) : option bool :=
  match spec with
  | [] => None
  | a :: spec' =>
      if bool_decide (a = c) && negb (bool_decide (c = ":"%char)) then
        Some (match spec' with b :: _ => bool_decide (b = ":"%char) | [] => false end)
      else takes_arg spec' c
  end.
(** The letters of one argument; an option that takes an argument has the rest of
    the letters, or the next argument when there is none. *)
Fixpoint do_shorts (spec letters : pystr) (args : list pystr)
    : res (list (ascii * pystr) * list pystr) :=
  match letters with
  | [] => Ok ([], args)
  | c :: letters =>
      match takes_arg spec c with
      | None => raise GenericException
      | Some true =>
          match letters, args with
          | _ :: _, _ => Ok ([(c, letters)], args)
          | [], a :: args => Ok ([(c, a)], args)
          | [], [] => raise GenericException
          end
      | Some false =>
          '(os, args) ← do_shorts spec letters args; Ok ((c, []) :: os, args)
      end
  end.
Fixpoint getopt (fuel : nat) (spec : pystr) (args : list pystr) : res (list (ascii * pystr)) :=
  match fuel with
  | O => Ok []
  | S fuel =>
      match args with
      | (d :: c :: s) :: args =>
          if negb (bool_decide (d = "-"%char)) then Ok []
          else if bool_decide (c = "-"%char)
          then (if bool_decide (s = []) then Ok [] else raise GenericException)
          else '(os, args) ← do_shorts spec (c :: s) args;
               rest ← getopt fuel spec args; Ok (os ++ rest)
      | _ => Ok []
      end
  end.
Definition run_getopt (spec : string) (args : list pystr) : res (list (ascii * pystr)) :=
  getopt (S (length args)) (py spec) args.

(** [handle_command_line_s]: an address without a colon is skipped. *)
Fixpoint handle_command_line_s (ips : list pystr) : res (list server) :=
  match ips with
  | [] => Ok []
  | i :: ips =>
      if negb (contains (py ":") i) then handle_command_line_s ips
      else
        let info := split_on ":"%char i in
        a ← list_get info 0; p ← list_get info 1; u ← list_get info 2; w ← list_get info 3;
        l ← list_get info 4;
        rest ← handle_command_line_s ips;
        Ok (set_server_option (set_server_option (set_server_option (set_server_option
              (set_ip a new_server) ("port", p)) ("username", u)) ("password", w)) ("cli", l) :: rest)
  end.

(** The servers of [parse_from_command_line]: the options [-s], [-k], [-b] are
    looked for but are not in its option string. *)
Definition cmdline_servers (opts : list (ascii * pystr)) : res (list server) :=
  foldl (λ acc o, ss ← acc;
           if bool_decide (o.1 = "s"%char) then handle_command_line_s (split_on ","%char o.2) else Ok ss)
        (Ok []) opts.
Definition or_else (d v : pystr) : pystr := if bool_decide (v = []) then d else v.
Definition cmdline_defaults (default_port : pystr) (opts : list (ascii * pystr)) (s : server) : server :=
  let arg c := foldl (λ a o, if bool_decide (o.1 = c) then or_else o.2 a else a) in
  Server (ip s) (or_else (py "root") (ssh_username s)) (or_else (py "northscale!23") (ssh_password s))
    (arg "k"%char (ssh_key s) opts) (rest_username s) (rest_password s) (services s)
    (or_else default_port (port s)) (memcached_port s) (arg "b"%char (cli_path s) opts) (data_path s)
    (index_path s) (cbas_path s) (eventing_path s) (n1ql_port s) (index_port s) (fts_port s)
    (es_username s) (es_password s).
(** [None] is the [return] after [-h]. *)
Definition parse_from_command_line (default_port : pystr) (args : list pystr)
    : res (option test_input) :=
  opts ← run_getopt "h:t:c:i:p:" args;
  if existsb (λ o, bool_decide (o.1 = "h"%char)) opts then Ok None else
  ss ← cmdline_servers opts;
  Ok (Some (TestInput (cmdline_defaults default_port opts <$> ss) ∅ None None ∅ ∅)).

(** [get_test_input(argv)]; [read] reads and parses an .ini file. *)
Section GetTestInput.
Variable expanduser : pystr → pystr.
Variable read_config : pystr → config.
Variable default_port : pystr.

Definition get_test_input (args : list pystr) : res (option test_input) :=
  opts ← run_getopt "ht:c:v:s:i:p:l:m:d:e:r:g:" args;
  if existsb (λ o, bool_decide (o.1 = "h"%char)) opts then Ok None else
  let ini_file := foldl (λ a o, if bool_decide (o.1 = "i"%char) then Some o.2 else a) None opts in
  let params := foldl (λ m o, if bool_decide (o.1 = "p"%char) then p_option o.2 ∪ m else m) ∅ opts in
  ot ← match ini_file with
       | Some f => Some <$> parse_from_file expanduser (read_config f)
       | None => parse_from_command_line default_port args
       end;
  match ot with
  | None => raise AttributeError
  | Some t =>
      let t := set_params params t in
      t ← (if bool_decide (is_Some (ti_params t !! py "num_clients")) then Ok t
           else match ti_clients t with
                | None => raise AttributeError
                | Some [] => Ok t
                | Some cs => Ok (set_params (<[py "num_clients" := PInt (len cs)]> (ti_params t)) t)
                end);
      let t := if bool_decide (is_Some (ti_params t !! py "num_nodes")) then t
               else match ti_servers t with
                    | [] => t
                    | ss => set_params (<[py "num_nodes" := PInt (len ss)]> (ti_params t)) t
                    end in
      Ok (Some t)
  end.
End GetTestInput.

(** ** Proofs: splitting parameters *)

Lemma span_app p w s :
  forallb p w = true → span p (w ++ s) = (w ++ (span p s).1, (span p s).2).
Proof.
  induction w as [|c w IH]; intros Hw; simpl; [by destruct (span p s)|].
  simpl in Hw. apply andb_true_iff in Hw as [Hc Hw]. rewrite Hc, IH by done. done.
Qed.

(** Keys and values of a test line. *)
Definition good_key (k : pystr) : Prop := k ≠ [] ∧ forallb is_key_char k = true ∧ strip k = k.
Definition good_value (v : pystr) : Prop := ("="%char ∉ v) ∧ strip v = v.

(** The text ends, or goes on with a comma. *)
Definition comma_next (s : pystr) : Prop := s = [] ∨ ∃ s', s = ","%char :: s'.

Lemma span_no_eq w s : "="%char ∉ w → comma_next s →
  ∃ a b, span is_key_char (w ++ s) = (a, b) ∧ comma_next b.
Proof.
  intros Hw Hs. induction w as [|c w IH]; simpl.
  - destruct Hs as [->|[s' ->]]; [by exists [], []; split; [|left]|].
    exists [], (","%char :: s'). split; [done|]. right. by eexists.
  - apply not_elem_of_cons in Hw as [Hc Hw].
    destruct (is_key_char c) eqn:E.
    + destruct (IH Hw) as (a & b & -> & Hb). by exists (c :: a), b.
    + eexists _, _. split; [done|]. right. exists (w ++ s). f_equal.
      unfold is_key_char in E. apply negb_false_iff, bool_decide_eq_true in E.
      change (py ",=") with [","%char; "="%char] in E.
      apply elem_of_cons in E as [->|E]; [done|]. apply list_elem_of_singleton in E. by subst.
Qed.

Lemma key_eq_none w s : "="%char ∉ w → comma_next s → key_eq (w ++ s) = None.
Proof.
  intros Hw Hs. unfold key_eq. destruct (span_no_eq w s Hw Hs) as (a & b & -> & Hb).
  destruct a; [done|]. destruct Hb as [->|[b' ->]]; done.
Qed.

Lemma match_at_none w s : w ≠ [] → "="%char ∉ w → comma_next s → match_at (w ++ s) = None.
Proof.
  intros Hne Hw Hs. destruct w as [|c w]; [done|]. unfold match_at. simpl.
  case_bool_decide; [|by apply (key_eq_none (c :: w))].
  apply key_eq_none; [|done]. by apply not_elem_of_cons in Hw as [_ Hw].
Qed.

Lemma re_split_skip fuel part w s :
  "="%char ∉ w → comma_next s → (length w ≤ fuel)%nat →
  re_split fuel part (w ++ s) = re_split (fuel - length w) (part ++ w) s.
Proof.
  revert fuel part. induction w as [|c w IH]; intros fuel part Hw Hs Hf.
  - by rewrite app_nil_r, Nat.sub_0_r.
  - destruct fuel as [|fuel]; [simpl in Hf; lia|]. cbn [re_split].
    rewrite match_at_none by done. simpl. apply not_elem_of_cons in Hw as [_ Hw].
    rewrite IH by (done || simpl in Hf; lia). by rewrite <- app_assoc.
Qed.

Lemma key_eq_key k rest : good_key k → key_eq (k ++ "="%char :: rest) = Some (k, rest).
Proof.
  intros (Hne & Hk & _). unfold key_eq. rewrite span_app by done. simpl. rewrite app_nil_r.
  by destruct k.
Qed.

(** [,key=value] for each pair. *)
Definition pair_text (kv : pystr * pystr) : pystr := ","%char :: kv.1 ++ "="%char :: kv.2.
Definition pairs_text (kvs : list (pystr * pystr)) : pystr := concat (pair_text <$> kvs).

Lemma comma_next_pairs kvs : comma_next (pairs_text kvs).
Proof. destruct kvs as [|kv kvs]; [by left|right]. by eexists. Qed.

Definition good_pairs (kvs : list (pystr * pystr)) : Prop :=
  Forall (λ kv, good_key kv.1 ∧ good_value kv.2) kvs.

Lemma re_split_pairs fuel part w kvs :
  "="%char ∉ w → good_pairs kvs → (length w + length (pairs_text kvs) < fuel)%nat →
  re_split fuel part (w ++ pairs_text kvs) = (part ++ w, kvs).
Proof.
  intros Hw Hkv. revert fuel part w Hw.
  induction Hkv as [|[k v] kvs [Hk [Hv Hsv]] Hkv IH]; intros fuel part w Hw Hf.
  - rewrite re_split_skip; [|done|by left|lia].
    destruct (fuel - length w)%nat as [|f] eqn:E; [simpl in Hf; lia|done].
  - rewrite re_split_skip; [|done|apply comma_next_pairs|lia].
    change (pairs_text ((k, v) :: kvs)) with (pair_text (k, v) ++ pairs_text kvs) in *.
    unfold pair_text in *. simpl in *. rewrite !length_app in Hf. simpl in Hf.
    destruct (fuel - length w)%nat as [|f] eqn:E; [lia|].
    cbn [re_split match_at app]. rewrite bool_decide_eq_true_2 by done.
    replace ((k ++ "="%char :: v) ++ pairs_text kvs) with (k ++ "="%char :: (v ++ pairs_text kvs))
      by (by rewrite <- app_assoc).
    rewrite key_eq_key by done. rewrite IH by (done || lia). done.
Qed.

Lemma strip_pairs kvs : good_pairs kvs → (λ kv, (strip kv.1, strip kv.2)) <$> kvs = kvs.
Proof.
  induction 1 as [|[k v] kvs [(_ & _ & Hk) [_ Hv]] Hkv IH]; [done|].
  rewrite fmap_cons, IH. simpl in *. by rewrite Hk, Hv.
Qed.

(** the [key=value] pairs of a test line and of a [-p] argument are read
    back exactly, in order, whatever commas the values contain, when keys have
    neither commas nor equals signs and values have no equals sign and neither
    has outer blanks. *)
Theorem params_roundtrip name kvs :
  "="%char ∉ name → good_pairs kvs →
  param_pairs (name ++ pairs_text kvs) = kvs ∧
  (kvs ≠ [] → param_pairs (drop 1 (pairs_text kvs)) = kvs).
Proof.
  intros Hn Hkv. unfold param_pairs. split.
  - rewrite re_split_pairs by (done || rewrite length_app; lia). simpl. by apply strip_pairs.
  - intros Hne. destruct kvs as [|[k v] kvs]; [done|].
    pose proof Hkv as Hall. apply Forall_cons in Hkv as [[Hk [Hv Hsv]] Hkv].
    change (drop 1 (pairs_text ((k, v) :: kvs))) with ((k ++ "="%char :: v) ++ pairs_text kvs).
    rewrite <- app_assoc. cbn [app]. set (text := k ++ _).
    assert (match_at text = Some (k, v ++ pairs_text kvs)) as Hm.
    { unfold text. destruct k as [|c k']; [by destruct Hk|]. unfold match_at. cbn [app].
      rewrite bool_decide_eq_false_2; [by apply (key_eq_key (c :: k'))|].
      intros ->. destruct Hk as (_ & Hk & _). done. }
    cbn [re_split]. rewrite Hm. rewrite re_split_pairs; [|done|done|].
    + by apply (strip_pairs ((k, v) :: kvs)).
    + unfold text. rewrite length_app. simpl. rewrite length_app. destruct k; [by destruct Hk|].
      simpl. lia.
Qed.

Lemma params_roundtrip_witness :
  param_pairs (py "pkg.mod.Test.test_it,nodes_init=4,vbuckets=1,2,3,GROUP=P0;durability") =
    [(py "nodes_init", py "4"); (py "vbuckets", py "1,2,3"); (py "GROUP", py "P0;durability")].
Proof.
  refine (proj1 (params_roundtrip (py "pkg.mod.Test.test_it")
    [(py "nodes_init", py "4"); (py "vbuckets", py "1,2,3"); (py "GROUP", py "P0;durability")] _ _)).
  - apply (bool_decide_unpack _). vm_compute. exact I.
  - repeat constructor; simpl; try discriminate; apply (bool_decide_unpack _); vm_compute; exact I.
Defined.

(** ** Proofs: servers *)

Section server_proofs.
Variable expanduser : pystr → pystr.

Lemma get_server_options_Forall2 ss ms gp ss' :
  get_server_options expanduser ss ms gp = Ok ss' →
  Forall2 (λ s s', server_options expanduser ms gp s = Ok s') ss ss'.
Proof.
  revert ss'. induction ss as [|s ss IH]; intros ss'; cbn [get_server_options].
  - intros [= <-]. constructor.
  - intros (s1 & H1 & (ss1 & H2 & [= <-])%res_bind_inv)%res_bind_inv. constructor; auto.
Qed.

(** Cutting a concatenation back into its parts. *)
Lemma cut_clusters_spec key pre groups acc :
  ∀ i, cut_clusters key (length <$> groups) (length pre) (length pre) (pre ++ concat groups) acc !! i =
    (if (key <=? i) && (i <? key + len groups) then groups !! Z.to_nat (i - key) else acc !! i).
Proof.
  revert key pre acc. induction groups as [|g groups IH]; intros key pre acc i.
  - simpl. rewrite len_nil. destruct (Z.leb_spec key i), (Z.ltb_spec i (key + 0)); simpl; (done || lia).
  - rewrite fmap_cons. cbn [cut_clusters concat]. rewrite slice_app_mid by lia. rewrite len_cons.
    specialize (IH (key + 1) (pre ++ g) (<[key := g]> acc) i).
    rewrite length_app, <- app_assoc in IH. rewrite IH. pose proof (len_nonneg groups).
    destruct (decide (i = key)) as [->|Hne].
    + rewrite (proj2 (Z.leb_gt _ _)) by lia. simpl. rewrite lookup_insert_eq.
      rewrite (proj2 (Z.leb_le _ _)), (proj2 (Z.ltb_lt _ _)) by lia. simpl. by rewrite Z.sub_diag.
    + rewrite lookup_insert_ne by done.
      destruct (Z.leb_spec (key + 1) i), (Z.leb_spec key i); simpl; try lia; [|done].
      replace (key + 1 + len groups) with (key + (1 + len groups)) by lia.
      destruct (i <? key + (1 + len groups)); [|done].
      replace (Z.to_nat (i - key)) with (S (Z.to_nat (i - (key + 1)))) by lia. done.
Qed.

Lemma Forall2_concat_inv {A B} (R : A → B → Prop) (gs : list (list A)) (l : list B) :
  Forall2 R (concat gs) l → ∃ hs, l = concat hs ∧ Forall2 (Forall2 R) gs hs.
Proof.
  revert l. induction gs as [|g gs IH]; intros l; simpl.
  - intros ->%Forall2_nil_inv_l. exists []. by split; [|constructor].
  - intros (l1 & l2 & H1 & H2 & ->)%Forall2_app_inv_l.
    destruct (IH l2 H2) as (hs & -> & Hhs). exists (l1 :: hs). by split; [|constructor].
Qed.

Lemma get_server_options_total ss ms gp :
  is_ok (get_server_options expanduser ss (Some ms) gp) = true.
Proof.
  induction ss as [|s ss IH]; [done|]. cbn [get_server_options].
  assert (∃ s', server_options expanduser (Some ms) gp s = Ok s') as [s' ->].
  { unfold server_options. do 2 case_bool_decide; by eexists. }
  simpl. by destruct (get_server_options expanduser ss (Some ms) gp).
Qed.

(** A server of the result: its own section first, then the global properties. *)
Definition server_of (c : config) (i : pystr) (s : server) : Prop :=
  server_options expanduser (i_membase (read_sections c)) (i_global (read_sections c))
                 (get_server i c) = Ok s.

Lemma servers_of c ips ss :
  get_server_options expanduser ((λ i, get_server i c) <$> ips) (i_membase (read_sections c))
    (i_global (read_sections c)) = Ok ss → Forall2 (server_of c) ips ss.
Proof.
  intros H%get_server_options_Forall2. by apply Forall2_fmap_l in H.
Qed.

(** a file with a [membase] section and no [tuq_client] section is always
    accepted, and gives exactly the servers of its sections, in order: one per
    address of [servers], and for the k-th [cluster] section the servers of its
    addresses, each with the settings of its own section and the global ones for
    what is unset. *)
Theorem ini_servers c ms :
  i_membase (read_sections c) = Some ms → i_tuq (read_sections c) !! "client" = None →
  ∃ t, parse_from_file expanduser c = Ok t ∧
    Forall2 (server_of c) (i_ips (read_sections c)) (ti_servers t) ∧
    ∀ k ips, i_clusters (read_sections c) !! k = Some ips →
      ∃ ss, ti_clusters t !! Z.of_nat k = Some ss ∧ Forall2 (server_of c) ips ss.
Proof.
  intros Hm Ht. unfold parse_from_file. set (a := read_sections c) in *.
  pose proof (get_server_options_total ((λ i, get_server i c) <$> concat (i_clusters a)) ms
                (i_global a)) as Ht1.
  pose proof (get_server_options_total ((λ i, get_server i c) <$> i_ips a) ms (i_global a)) as Ht2.
  rewrite <- Hm in Ht1, Ht2.
  destruct (get_server_options expanduser ((λ i, get_server i c) <$> concat (i_clusters a)) _ _)
    as [cs|] eqn:E1; [|done].
  destruct (get_server_options expanduser ((λ i, get_server i c) <$> i_ips a) _ _)
    as [ss|] eqn:E2; [|done].
  rewrite Ht. simpl. eexists. split; [reflexivity|]. split; [by apply servers_of|].
  simpl. apply servers_of in E1. apply Forall2_concat_inv in E1 as (gs & -> & Hgs).
  intros k ips Hk. destruct (Forall2_lookup_l _ _ _ _ _ Hgs Hk) as (ss' & Hss & Hf).
  exists ss'. split; [|done].
  assert (length <$> i_clusters a = length <$> gs) as ->.
  { clear -Hgs. induction Hgs as [|x y l k H Hl IH]; [done|].
    rewrite !fmap_cons, IH. f_equal. by eapply Forall2_length. }
  rewrite (cut_clusters_spec 0 [] gs ∅ (Z.of_nat k)).
  pose proof (lookup_lt_Some _ _ _ Hss) as Hlt.
  rewrite (proj2 (Z.leb_le _ _)), (proj2 (Z.ltb_lt _ _)) by (unfold len; lia). simpl.
  rewrite Z.sub_0_r, Nat2Z.id. done.
Qed.
End server_proofs.

Definition demo_ini : config :=
  [(py "global", [("username", py "root"); ("port", py "8091")]);
   (py "membase", [("rest_username", py "Administrator"); ("rest_password", py "password")]);
   (py "servers", [("1", py "10.0.0.1"); ("2", py "10.0.0.2")]);
   (py "cluster1", [("1", py "10.0.0.1")]);
   (py "cluster2", [("1", py "10.0.0.2"); ("2", py "10.0.0.3")]);
   (py "10.0.0.2", [("port", py "9000")])].

Lemma ini_servers_witness :
  ∃ t, parse_from_file id demo_ini = Ok t ∧
    Forall2 (server_of id demo_ini) (i_ips (read_sections demo_ini)) (ti_servers t) ∧
    ∀ k ips, i_clusters (read_sections demo_ini) !! k = Some ips →
      ∃ ss, ti_clusters t !! Z.of_nat k = Some ss ∧ Forall2 (server_of id demo_ini) ips ss.
Proof.
  apply (ini_servers id demo_ini (py "Administrator", py "password")); vm_compute; reflexivity.
Defined.

(** *** The command line *)

Lemma do_shorts_known spec letters args os rest :
  do_shorts spec letters args = Ok (os, rest) → Forall (λ o, is_Some (takes_arg spec o.1)) os.
Proof.
  revert os rest. induction letters as [|c letters IH]; intros os rest; cbn [do_shorts].
  { intros [= <- _]. constructor. }
  destruct (takes_arg spec c) as [[]|] eqn:E; [| |done].
  - destruct letters; [destruct args; [done|]|]; intros [= <- _];
      (constructor; [simpl; by rewrite E|constructor]).
  - intros ([os1 args1] & H1 & [= <- _])%res_bind_inv. constructor; [simpl; by rewrite E|by eapply IH].
Qed.

Lemma getopt_known fuel spec args os :
  getopt fuel spec args = Ok os → Forall (λ o, is_Some (takes_arg spec o.1)) os.
Proof.
  revert args os. induction fuel as [|fuel IH]; intros args os; cbn [getopt].
  { intros [= <-]. constructor. }
  destruct args as [|[|d [|c s]] args]; try (intros [= <-]; constructor).
  destruct (negb (bool_decide (d = "-"%char))); [intros [= <-]; constructor|].
  case_bool_decide; [case_bool_decide; [intros [= <-]; constructor|done]|].
  intros ([os1 args1] & H1 & (os2 & H2 & [= <-])%res_bind_inv)%res_bind_inv.
  apply Forall_app. split; [by eapply do_shorts_known|by eapply IH].
Qed.

Lemma cmdline_servers_none opts :
  Forall (λ o, o.1 ≠ "s"%char) opts → cmdline_servers opts = Ok [].
Proof.
  intros Ho. unfold cmdline_servers. induction Ho as [|o opts Hs Ho IH]; [done|].
  simpl. rewrite bool_decide_eq_false_2 by done. exact IH.
Qed.

Lemma no_ini opts :
  Forall (λ o, o.1 ≠ "i"%char) opts →
  foldl (λ (a : option pystr) (o : ascii * pystr), if bool_decide (o.1 = "i"%char) then Some o.2 else a) None opts
    = None.
Proof.
  intros Ho. induction Ho as [|o opts Hs Ho IH]; [done|].
  simpl. by rewrite bool_decide_eq_false_2.
Qed.

(** servers cannot be given on the command line.  Without an .ini file a test
    input that is returned has no servers: [parse_from_command_line] looks for
    [-s] but its own option string does not have it. *)
Theorem command_line_no_servers eu rc dp args opts t :
  run_getopt "ht:c:v:s:i:p:l:m:d:e:r:g:" args = Ok opts →
  Forall (λ o, o.1 ≠ "i"%char) opts →
  get_test_input eu rc dp args = Ok (Some t) → ti_servers t = [].
Proof.
  intros Ho Hi H. unfold get_test_input in H. rewrite Ho in H. cbn [mbind res_bind] in H.
  destruct (existsb _ opts); [done|]. rewrite no_ini in H by done.
  apply res_bind_inv in H as (ot & Hot & H). destruct ot as [t0|]; [|done].
  assert (ti_servers t0 = []) as Hs.
  { unfold parse_from_command_line in Hot. apply res_bind_inv in Hot as (os & Hos & Hot).
    destruct (existsb _ os); [done|]. rewrite cmdline_servers_none in Hot.
    - simpl in Hot. by injection Hot as <-.
    - apply getopt_known in Hos. eapply Forall_impl; [done|]. intros o Hk Hs. cbn beta in Hk. rewrite Hs in Hk.
      by destruct Hk. }
  apply res_bind_inv in H as (t1 & Ht1 & H). injection H as <-.
  assert (ti_servers t1 = []) as Hs1.
  { case_bool_decide; [by injection Ht1 as <-|].
    destruct (ti_clients _) as [[|c cs]|]; [| |done]; by injection Ht1 as <-. }
  clear Ht1. case_bool_decide; [done|]. by rewrite Hs1.
Qed.

Lemma command_line_no_servers_witness :
  ∃ t, get_test_input id (λ _, []) (py "8091") [py "-p"; py "num_clients=2"] = Ok (Some t) ∧
       ti_servers t = [].
Proof.
  destruct (get_test_input id (λ _, []) (py "8091") [py "-p"; py "num_clients=2"]) as [[t|]|] eqn:E;
    [|vm_compute in E; discriminate E|vm_compute in E; discriminate E].
  exists t. split; [reflexivity|].
  apply (command_line_no_servers id (λ _, []) (py "8091") [py "-p"; py "num_clients=2"]
           [("p"%char, py "num_clients=2")] t); [reflexivity| |exact E].
  constructor; [discriminate|constructor].
Defined.
