(* ===== verification/XUnit.v ===== *)
(** * lib/xunit.py: the JUnit report of a run

    Test cases grouped into suites by class name, with the counters that end up
    in the report, and the report files that [write] produces. *)

From S2P Require Import Prelude Py.
Local Open Scope string_scope.
Local Open Scope list_scope.
Local Open Scope Z_scope.

(** [XUnitTestCaseError], [XUnitTestCase], [XUnitTestSuite] *)
Record case_error := CaseError { err_type : pystr; err_message : pystr }.
Record case := Case { c_name : pystr; c_time : Z; c_error : option case_error; c_params : pystr }.
Record suite := Suite {
  s_name : pystr; s_time : Z; s_tests : list case; s_errors : Z; s_failures : Z; s_skips : Z
}.
Inductive status := Pass | Fail | Skip | Other.
#[global] Instance status_eq_dec : EqDecision status.
Proof. solve_decision. Defined.

(** [XUnitTestResult]: its suites. *)
Abbreviation xunit := (list suite).
Definition new_suite (n : pystr) : suite := Suite n 0 [] 0 0 0.

(** [XUnitTestSuite.add_test] *)
Definition suite_add (name : pystr) (time : Z) (e : case_error) (st : status) (params : pystr)
    (s : suite) : suite :=
  let err := if bool_decide (st = Fail) then Some e else None in
  Suite (s_name s) (s_time s + time) (s_tests s ++ [Case name time err params])
    (if bool_decide (st = Fail) then s_errors s + 1 else s_errors s)
    (if bool_decide (st = Fail) then s_failures s + 1 else s_failures s)
    (if bool_decide (st = Skip) then s_skips s + 1 else s_skips s).

(** [name[:name.rfind(".")]]; without a dot [rfind] is -1 and the last character
    is dropped.  A name with parameters is its own class. *)
Definition class_name (name : pystr) : pystr :=
  if contains (py ",") name then name
  else match rsplit_once "."%char name with
       | [a; _] => a
       | _ => take (length name - 1) name
       end.

(** [XUnitTestResult.add_test] *)
Fixpoint add_to (cls name : pystr) (time : Z) (e : case_error) (st : status) (params : pystr)
    (ss : xunit) : xunit :=
  match ss with
  | [] => [suite_add name time e st params (new_suite cls)]
  | s :: ss =>
      if bool_decide (s_name s = cls) then suite_add name time e st params s :: ss
      else s :: add_to cls name time e st params ss
  end.
Definition add_test (name : pystr) (time : Z) (e : case_error) (st : status) (params : pystr)
    (x : xunit) : xunit := add_to (class_name name) name time e st params x.

(** The parts of [xml.dom.minidom] that are used: elements with attributes and
    children, and text. *)
Inductive node :=
  | Text (data : pystr)
  | Elem (tag : pystr) (attrs : list (pystr * pystr)) (children : list node).
Definition childNodes (n : node) : list node :=
  match n with Text _ => [] | Elem _ _ l => l end.
Fixpoint set_attr (k v : pystr) (l : list (pystr * pystr)) : list (pystr * pystr) :=
  match l with
  | [] => [(k, v)]
  | (k', v') :: l => if bool_decide (k' = k) then (k, v) :: l else (k', v') :: set_attr k v l
  end.
Definition setAttribute (k : string) (v : pystr) (n : node) : node :=
  match n with Text d => Text d | Elem t a l => Elem t (set_attr (py k) v a) l end.
Definition appendChild (c n : node) : node :=
  match n with Text d => Text d | Elem t a l => Elem t a (l ++ [c]) end.
Definition createElement (t : string) : node := Elem (py t) [] [].
Fixpoint attr_of (k : pystr) (l : list (pystr * pystr)) : pystr :=
  match l with
  | [] => []
  | (k', v) :: l => if bool_decide (k' = k) then v else attr_of k l
  end.
Definition getAttribute (k : string) (n : node) : pystr :=
  match n with Text _ => [] | Elem _ a _ => attr_of (py k) a end.
Fixpoint elements (t : pystr) (n : node) : list node :=
  match n with
  | Text _ => []
  | Elem t' _ l => (if bool_decide (t' = t) then [n] else []) ++ concat (elements t <$> l)
  end.
Definition getElementsByTagName (t : string) (n : node) : list node :=
  concat (elements (py t) <$> childNodes n).
(** The document node, with its single element as child. *)
Definition document (n : node) : node := Elem (py "#document") [] [n].

Section Xml.
(** Times are floats, represented by numbers; their text is a parameter. *)
Context (str_time : Z → pystr).

(** [to_xml]: the document that [toprettyxml] prints. *)
Definition case_xml (c : case) : node :=
  let testcase := setAttribute "time" (str_time (c_time c))
                    (setAttribute "name" (c_name c ++ c_params c) (createElement "testcase")) in
  match c_error c with
  | Some e =>
      let error := setAttribute "type" (err_type e) (createElement "error") in
      let error := if bool_decide (err_message e = []) then error
                   else appendChild (Text (err_message e)) error in
      appendChild error testcase
  | None => testcase
  end.
Definition to_xml (s : suite) : node :=
  let ts := setAttribute "name" (s_name s) (createElement "testsuite") in
  let ts := setAttribute "errors" (str_of_Z (s_errors s)) ts in
  let ts := setAttribute "failures" (str_of_Z (s_failures s)) ts in
  let ts := setAttribute "errors" (str_of_Z (s_errors s)) ts in
  let ts := setAttribute "tests" (str_of_Z (len (s_tests s))) ts in
  let ts := setAttribute "time" (str_time (s_time s)) ts in
  let ts := setAttribute "skip" (str_of_Z (s_skips s)) ts in
  document (foldl (λ ts c, appendChild (case_xml c) ts) ts (s_tests s)).

(** [write]: each suite's document goes to its file. *)
Definition report_name (prefix : pystr) (s : suite) : pystr :=
  let name := if contains (py ",") (s_name s)
              then default [] (head (split_on ","%char (s_name s))) else s_name s in
  prefix ++ py "-" ++ name ++ py ".xml".
Definition write (prefix : pystr) (x : xunit) (files : gmap pystr node) : gmap pystr node :=
  foldl (λ f s, <[report_name prefix s := to_xml s]> f) files x.
End Xml.

(** [print_summary]: per suite the names that passed and the names that failed. *)
Definition summary (s : suite) : list pystr * list pystr :=
  (c_name <$> filter (λ c, c_error c = None) (s_tests s),
   c_name <$> filter (λ c, is_Some (c_error c)) (s_tests s)).

(** ** Proofs *)

(** The counters of a suite agree with its cases, and all cases belong to it. *)
Definition suite_ok (s : suite) : Prop :=
  s_errors s = len (filter (λ c, is_Some (c_error c)) (s_tests s)) ∧
  s_failures s = s_errors s ∧
  s_tests s ≠ [] ∧
  Forall (λ c, class_name (c_name c) = s_name s) (s_tests s).
Definition xunit_ok (x : xunit) : Prop := NoDup (s_name <$> x) ∧ Forall suite_ok x.

(** All cases of a report. *)
Definition all_cases (x : xunit) : list case := concat (s_tests <$> x).

Lemma suite_add_counts name time e st params s :
  s_errors s = len (filter (λ c, is_Some (c_error c)) (s_tests s)) → s_failures s = s_errors s →
  Forall (λ c, class_name (c_name c) = s_name s) (s_tests s) → class_name name = s_name s →
  suite_ok (suite_add name time e st params s).
Proof.
  intros He Hf Hc Hn. unfold suite_ok, suite_add. simpl. split_and!.
  - rewrite filter_app, len_app. case_bool_decide; unfold len in *; cbn;
      case_decide as Hd; cbn; try lia; [by destruct Hd; eexists|by destruct Hd].
  - case_bool_decide; lia.
  - intros H%app_nil. naive_solver.
  - apply Forall_app. split; [done|]. by constructor.
Qed.

Lemma add_to_names cls name time e st params x :
  s_name <$> add_to cls name time e st params x =
    (s_name <$> x) ++ (if bool_decide (cls ∈ s_name <$> x) then [] else [cls]).
Proof.
  induction x as [|s x IH]; cbn [add_to].
  - rewrite bool_decide_eq_false_2 by set_solver. done.
  - destruct (decide (s_name s = cls)) as [E|E].
    + rewrite bool_decide_eq_true_2 by done. rewrite !fmap_cons, bool_decide_eq_true_2 by set_solver.
      by rewrite app_nil_r.
    + rewrite bool_decide_eq_false_2 by done. rewrite !fmap_cons, IH. simpl. f_equal. f_equal.
      destruct (decide (cls ∈ s_name <$> x)).
      * by rewrite !bool_decide_eq_true_2 by set_solver.
      * by rewrite !bool_decide_eq_false_2 by set_solver.
Qed.

Lemma add_test_ok name time e st params x :
  xunit_ok x → xunit_ok (add_test name time e st params x).
Proof.
  unfold add_test. intros [Hn Hs]. split.
  - rewrite add_to_names. case_bool_decide; [by rewrite app_nil_r|].
    apply NoDup_app. split_and!; [done| |apply NoDup_singleton]. set_solver.
  - clear Hn. induction Hs as [|s x (H1 & H2 & H3 & H4) Hs IH]; cbn [add_to].
    + constructor; [|constructor]. by apply suite_add_counts.
    + case_bool_decide; [|constructor; [done|exact IH]].
      constructor; [|done]. by apply suite_add_counts.
Qed.

Lemma add_test_cases name time e st params x :
  all_cases (add_test name time e st params x) ≡ₚ
    all_cases x ++ [Case name time (if bool_decide (st = Fail) then Some e else None) params].
Proof.
  unfold add_test, all_cases. induction x as [|s x IH]; [done|]. cbn [add_to].
  destruct (bool_decide (s_name s = class_name name)); rewrite !fmap_cons; simpl.
  - rewrite <- !app_assoc. apply Permutation_app_head, Permutation_app_comm.
  - rewrite IH. by rewrite app_assoc.
Qed.

(** A run's report is built by a sequence of [add_test] calls. *)
Record call := Call { k_name : pystr; k_time : Z; k_error : case_error; k_status : status; k_params : pystr }.
Definition call_case (k : call) : case :=
  Case (k_name k) (k_time k) (if bool_decide (k_status k = Fail) then Some (k_error k) else None) (k_params k).
Definition report (ks : list call) : xunit :=
  foldl (λ x k, add_test (k_name k) (k_time k) (k_error k) (k_status k) (k_params k) x) [] ks.
Lemma report_snoc ks k :
  report (ks ++ [k]) = add_test (k_name k) (k_time k) (k_error k) (k_status k) (k_params k) (report ks).
Proof. unfold report. by rewrite foldl_app. Qed.

Lemma report_ok ks : xunit_ok (report ks).
Proof.
  induction ks as [|k ks IH] using rev_ind.
  - split; constructor.
  - rewrite report_snoc. by apply add_test_ok.
Qed.
Lemma report_cases ks : all_cases (report ks) ≡ₚ call_case <$> ks.
Proof.
  induction ks as [|k ks IH] using rev_ind; [done|].
  rewrite report_snoc, fmap_app, add_test_cases, IH. done.
Qed.
Lemma report_mem ks s c :
  s ∈ report ks → c ∈ s_tests s → s_name s = class_name (c_name c) ∧ c ∈ call_case <$> ks.
Proof.
  intros Hs Hc. destruct (report_ok ks) as [_ Hok].
  rewrite Forall_forall in Hok. destruct (Hok s Hs) as (_ & _ & _ & Hcl).
  rewrite Forall_forall in Hcl. split; [symmetry; by apply Hcl|].
  rewrite <- report_cases. unfold all_cases. apply list_elem_of_In, in_concat.
  exists (s_tests s). split; apply list_elem_of_In; [|done]. by apply list_elem_of_fmap_2.
Qed.

(** The failing calls of a run, and the sum of the error counters of its report. *)
Definition failing (ks : list call) : list call := filter (λ k, k_status k = Fail) ks.
Definition total_errors (x : xunit) : Z := foldr (λ s n, s_errors s + n) 0 x.
Lemma total_errors_ok x :
  Forall suite_ok x → total_errors x = len (filter (λ c, is_Some (c_error c)) (all_cases x)).
Proof.
  induction 1 as [|s x (He & _) _ IH]; [done|]. unfold all_cases in *. cbn.
  rewrite filter_app, len_app. fold (total_errors x). lia.
Qed.
Lemma failing_cases ks :
  len (filter (λ c, is_Some (c_error c)) (call_case <$> ks)) = len (failing ks).
Proof.
  induction ks as [|k ks IH]; [done|]. unfold failing in *. rewrite fmap_cons, !filter_cons.
  destruct k as [n t e st p]. unfold call_case at 1 2. cbn [c_error k_status k_error].
  destruct st; cbn [bool_decide]; repeat (destruct (decide _) as [[? [=]]|?] || destruct (decide _));
    rewrite ?len_cons; try done; try lia.
  by destruct (n0 (mk_is_Some _ e eq_refl)).
Qed.

(** ** The report files *)

Lemma rsplit_once_inv c s a b : rsplit_once c s = [a; b] → s = a ++ c :: b.
Proof.
  revert a b. induction s as [|x s IH]; intros a b; [done|]. cbn.
  destruct (rsplit_once c s) as [|w1 [|w2 [|? ?]]]; try case_bool_decide; intros [= <- <-]; subst; try done.
  by rewrite (IH w1 w2).
Qed.
Lemma contains_char c s : contains [c] s = true ↔ c ∈ s.
Proof.
  rewrite contains_spec. split.
  - intros (k1 & k2 & ->). set_solver.
  - intros (k1 & k2 & ->)%list_elem_of_split. by exists k1, k2.
Qed.
Lemma class_name_no_comma name : ","%char ∉ name → ","%char ∉ class_name name.
Proof.
  intros Hn. unfold class_name. change (py ",") with [","%char].
  destruct (contains [","%char] name) eqn:E; [done|].
  destruct (rsplit_once "."%char name) as [|a [|b [|? ?]]] eqn:Er;
    try (intros Hc; apply Hn; rewrite <- (take_drop (length name - 1) name); set_solver).
  apply rsplit_once_inv in Er. subst. set_solver.
Qed.

Lemma report_name_inj prefix s t :
  ","%char ∉ s_name s → ","%char ∉ s_name t →
  report_name prefix s = report_name prefix t → s_name s = s_name t.
Proof.
  intros Hs Ht. rewrite <- contains_char in Hs, Ht. unfold report_name.
  change (py ",") with [","%char].
  destruct (contains _ (s_name s)); [by destruct Hs|]. destruct (contains _ (s_name t)); [by destruct Ht|].
  intros H. apply app_inv_head, app_inv_head in H. by apply app_inv_tail in H.
Qed.

(** Suites with distinct names without commas each have their document in a
    file of their own once the report is written. *)
Lemma write_files str_time prefix x files s :
  NoDup (s_name <$> x) → Forall (λ s, ","%char ∉ s_name s) x → s ∈ x →
  write str_time prefix x files !! report_name prefix s = Some (to_xml str_time s).
Proof.
  unfold write. induction x as [|t x IH] using rev_ind; [intros _ _ Hs; set_solver|].
  rewrite fmap_app. intros (Hx & Hd & _)%NoDup_app [Hc Ht]%Forall_app Hs.
  rewrite foldl_app. cbn [foldl]. apply elem_of_app in Hs as [Hs|Hs%list_elem_of_singleton].
  - rewrite lookup_insert_ne; [by apply IH|]. intros E.
    apply report_name_inj in E; [|apply (proj1 (Forall_singleton _ _) Ht)|by rewrite Forall_forall in Hc; apply Hc].
    apply (Hd (s_name s)); [by apply list_elem_of_fmap_2|]. rewrite <- E. set_solver.
  - subst. by rewrite lookup_insert_eq.
Qed.

(** The report of a run, built from any sequence of [add_test] calls:
    suites have distinct names; every call becomes one case, with its error kept
    exactly when the status is fail, in the suite of its class, and no
    case is lost or duplicated; a suite counts its failing cases, in [errors] and
    in [failures] alike; and the error counts of the suites add up to
    the failing calls of the run. *)
Theorem xunit_report ks :
  NoDup (s_name <$> report ks) ∧
  all_cases (report ks) ≡ₚ call_case <$> ks ∧
  (∀ s c, s ∈ report ks → c ∈ s_tests s →
     s_name s = class_name (c_name c) ∧ c ∈ call_case <$> ks) ∧
  (∀ s, s ∈ report ks → s_tests s ≠ [] ∧
     s_errors s = len (summary s).2 ∧ s_failures s = s_errors s) ∧
  total_errors (report ks) = len (failing ks).
Proof.
  destruct (report_ok ks) as [Hn Hok]. split_and!; [done|apply report_cases|apply report_mem| |].
  - intros s Hs. rewrite Forall_forall in Hok. destruct (Hok s Hs) as (He & Hf & Ht & _).
    split_and!; [done| |done]. unfold summary, len. cbn [snd]. by rewrite length_fmap.
  - rewrite total_errors_ok by done. rewrite <- failing_cases.
    unfold len. by rewrite (report_cases ks).
Qed.
