(* ===== verification/TestRunner.v ===== *)
(** * testrunner.py: choosing, running and reporting tests

    The parsing of .conf files, the include and exclude filters with the reading
    of earlier reports, group selection, and the loop of [main] with its report
    and exit code.  The [unittest] loader and runner, the clock, the file
    system, downloads and regular expressions are parameters. *)

From stdpp Require Import sorting.
From S2P Require Import Prelude Py TestInput XUnit.
Local Open Scope string_scope.
Local Open Scope list_scope.
Local Open Scope Z_scope.

(** ** Paths *)

Definition basename (p : pystr) : pystr := default [] (last (split_on "/"%char p)).
(** The first part of [splitext] of a name without slashes: leading dots do
    not start an extension. *)
Definition splitext_root (b : pystr) : pystr :=
  match rsplit_once "."%char b with
  | [r; _] => if forallb (λ c, bool_decide (c = "."%char)) r then b else r
  | _ => b
  end.

(** ** Configuration files *)

(** The file system: the lines of every readable file. *)
Abbreviation fsys := (gmap pystr (list pystr)).
Abbreviation tparams := (gmap pystr pval).

(** [locate_conf_file] *)
Definition locate_conf_file (fs : fsys) (filename : pystr) : option (list pystr) :=
  if bool_decide (filename = []) then None
  else match fs !! filename with
       | Some ls => Some ls
       | None => fs !! (py "conf/" ++ filename)
       end.

(** [".".join(name.split(".")[0:-1])] *)
Definition parent (name : pystr) : pystr := join (py ".") (removelast (split_on "."%char name)).

(** [name.find('*') > 0] *)
Definition has_star (name : pystr) : bool :=
  match name with
  | c :: name' => negb (bool_decide (c = "*"%char)) && bool_decide ("*"%char ∈ name')
  | [] => false
  end.

Record conf := Conf { cf_prefix : option pystr; cf_tests : list pystr; cf_params : tparams }.

(** [prefix and ...]: the prefix when it is neither [None] nor empty. *)
Definition prefix_of (c : conf) : option pystr :=
  match cf_prefix c with Some (a :: p) => Some (a :: p) | _ => None end.

Section ConfFiles.
(** The method names of the tests that [loadTestsFromName] finds. *)
Context (loadTestsFromName : pystr → res (list pystr)).

(** [append_test] *)
Definition append_test (tests : list pystr) (name : pystr) : res (list pystr) :=
  if negb (contains (py "test_restore_with_filter_regex") name) &&
     negb (contains (py "test_restore_with_rbac") name) &&
     negb (contains (py "test_backup_with_rbac") name) && has_star name then
    ms ← loadTestsFromName (rstrip (py ".*") name);
    Ok (tests ++ ((λ m, parent name ++ py "." ++ m) <$> ms))
  else Ok (tests ++ [name]).

(** The body of the loop of [parse_conf_file]. *)
Definition conf_line (line : pystr) (c : conf) : res conf :=
  let stripped := strip line in
  if startswith (py "#") stripped || bool_decide (stripped = []) then Ok c
  else if endswith (py ":") stripped then
    Ok (Conf (Some (default [] (head (split_on ":"%char stripped)))) (cf_tests c) (cf_params c))
  else
    let is_params := match prefix_of c with Some p => bool_decide (lower p = py "params") | None => false end in
    if is_params then
      match split_once "="%char stripped with
      | [k; v] => Ok (Conf (cf_prefix c) (cf_tests c) (<[k := PStr v]> (cf_params c)))
      | _ => Ok c
      end
    else
      let name := match prefix_of c with
                  | Some p => if startswith (py " ") line then p ++ py "." ++ stripped else stripped
                  | None => stripped
                  end in
      let prefix := parent (default [] (head (split_on ","%char name))) in
      tests ← append_test (cf_tests c) name;
      Ok (Conf (Some prefix) tests (cf_params c)).

Fixpoint conf_lines (ls : list pystr) (c : conf) : res conf :=
  match ls with
  | [] => Ok c
  | l :: ls => c ← conf_line l c; conf_lines ls c
  end.

(** [parse_conf_file(filename, tests, params)]; [usage] exits. *)
Definition parse_conf_file (fs : fsys) (filename : pystr) (tests : list pystr) (params : tparams) :
    res (list pystr * tparams) :=
  match locate_conf_file fs filename with
  | None => raise SystemExit
  | Some ls =>
      c ← conf_lines ls (Conf None tests params);
      let ps := if bool_decide (is_Some (cf_params c !! py "spec")) then cf_params c
                else <[py "spec" := PStr (splitext_root (basename filename))]> (cf_params c) in
      Ok (cf_tests c, <[py "conf_file" := PStr filename]> ps)
  end.

(** [parse_global_conf_file]: every file that [glob] finds, in turn. *)
Context (isdir : pystr → bool) (glob : pystr → list pystr).
Fixpoint parse_conf_files (fs : fsys) (files : list pystr) (tests : list pystr) (params : tparams) :
    res (list pystr * tparams) :=
  match files with
  | [] => Ok (tests, params)
  | f :: files =>
      tp ← parse_conf_file fs f tests params;
      parse_conf_files fs files tp.1 tp.2
  end.
Definition parse_global_conf_file (fs : fsys) (dirpath : pystr) (tests : list pystr) (params : tparams) :
    res (list pystr * tparams) :=
  let dirpath := if isdir dirpath then dirpath ++ py "/**/*.conf" else dirpath in
  parse_conf_files fs (glob dirpath) tests params.
End ConfFiles.

(** ** Earlier results *)

(** [''.join(sorted(s))] *)
Definition ord_le (a b : ascii) : Prop := ord a ≤ ord b.
#[global] Instance ord_le_dec : RelDecision ord_le.
Proof. intros a b. unfold ord_le. apply _. Defined.
Definition sorted_str (s : pystr) : pystr := merge_sort ord_le s.

(** [check_if_exists] and [check_if_exists_with_params]: the test that is found. *)
Fixpoint check_if_exists (test_list : list pystr) (test_line : pystr) : option pystr :=
  match test_list with
  | [] => None
  | t :: ts => if bool_decide (sorted_str t = sorted_str test_line) then Some t
               else check_if_exists ts test_line
  end.
Fixpoint check_if_exists_with_params (test_list : list pystr) (test_line test_params : pystr) : option pystr :=
  match test_list with
  | [] => None
  | t :: ts =>
      let t1 := if bool_decide (test_params = []) then sorted_str t
                else sorted_str (t ++ py "," ++ strip test_params) in
      if bool_decide (t1 = sorted_str test_line) then Some t
      else check_if_exists_with_params ts test_line test_params
  end.

(** [filter_fields]: the two branches drop the fields that the runner added. *)
Definition colon_fields : list pystr :=
  [py "logs_folder"; py "conf_file"; py "cluster_name:"; py "ini:"; py "case_number:";
   py "num_nodes:"; py "spec:"].
Definition equal_fields : list pystr :=
  [py "logs_folder="; py "conf_file="; py "cluster_name="; py "ini="; py "case_number=";
   py "num_nodes="; py "spec="].
Definition dropped (fields : list pystr) (fw : pystr) : bool := existsb (λ p, startswith p fw) fields.
Fixpoint replace_first (a b : ascii) (s : pystr) : pystr :=
  match s with
  | [] => []
  | c :: s => if bool_decide (c = a) then b :: s else c :: replace_first a b s
  end.
Definition filter_fields (testname : pystr) : pystr :=
  let testwords := split_on ","%char testname in
  if contains (py "logs_folder:") testname then
    foldl (λ line fw,
      if dropped colon_fields fw then line
      else
        let line := line ++ replace_first ":"%char "="%char fw in
        if bool_decide (Some fw = last testwords) then line else line ++ py ",") [] testwords
  else join (py ",") (filter (λ fw, dropped equal_fields fw = false) testwords).

(** [transform_and_write_to_file]: the list, and the file that holds it. *)
Definition transform_step (new_test_list : list pystr) (test : pystr) : list pystr :=
  let line := rstrip (py ",") (filter_fields test) in
  match check_if_exists new_test_list line with
  | Some _ => new_test_list
  | None => new_test_list ++ [line]
  end.
Definition newline : pystr := [ascii_of_N 10].
Definition transform_and_write_to_file (tests_list : list pystr) (filename : string) (fs : fsys) :
    list pystr * fsys :=
  let l := foldl transform_step [] tests_list in
  (l, <[py filename := (λ line, line ++ newline) <$> l]> fs).

(** The common end of the two report readers. *)
Definition transform_results (passed failed : list pystr) (fs : fsys) : (list pystr * list pystr) * fsys :=
  let '(failed, fs) := if bool_decide (failed = []) then (failed, fs)
                       else transform_and_write_to_file failed "failed_tests.conf" fs in
  let '(passed, fs) := if bool_decide (passed = []) then (passed, fs)
                       else transform_and_write_to_file passed "passed_tests.conf" fs in
  ((passed, failed), fs).

(** [getNodeText] *)
Definition getNodeText (l : list node) : pystr :=
  concat ((λ n, match n with Text d => d | Elem _ _ _ => [] end) <$> l).

(** The loop over the test cases of a suite in [parse_junit_result_xml]: [failed]
    is set before the loop only. *)
Fixpoint junit_cases (tcs : list node) (failed : bool) (ps fls : list pystr) : list pystr * list pystr :=
  match tcs with
  | [] => (ps, fls)
  | tc :: tcs =>
      let tcname := getAttribute "name" tc in
      let tcerror := getElementsByTagName "error" tc in
      let fls := fls ++ ((λ _, tcname) <$> tcerror) in
      let failed := failed || negb (bool_decide (tcerror = [])) in
      junit_cases tcs failed (if failed then ps else ps ++ [tcname]) fls
  end.
Definition junit_suites (doc : node) (acc : list pystr * list pystr) : list pystr * list pystr :=
  foldl (λ acc ts, junit_cases (getElementsByTagName "testcase" ts) false acc.1 acc.2) acc
    (getElementsByTagName "testsuite" doc).

(** One [case] element of a Jenkins report. *)
Definition report_case (tc : node) (acc : list pystr * list pystr) : res (list pystr * list pystr) :=
  n ← list_get (getElementsByTagName "name" tc) 0;
  s ← list_get (getElementsByTagName "status" tc) 0;
  let tcname := getNodeText (childNodes n) in
  if bool_decide (getNodeText (childNodes s) = py "PASSED")
  then Ok (acc.1 ++ [tcname], acc.2) else Ok (acc.1, acc.2 ++ [tcname]).
Fixpoint report_cases (tcs : list node) (acc : list pystr * list pystr) : res (list pystr * list pystr) :=
  match tcs with
  | [] => Ok acc
  | tc :: tcs => acc ← report_case tc acc; report_cases tcs acc
  end.
Fixpoint report_docs (docs : list node) (acc : list pystr * list pystr) : res (list pystr * list pystr) :=
  match docs with
  | [] => Ok acc
  | doc :: docs =>
      r ← list_get (getElementsByTagName "testResult" doc) 0;
      acc ← report_cases (concat (getElementsByTagName "case" <$> getElementsByTagName "suite" r)) acc;
      report_docs docs acc
  end.

(** ** Filters *)

Definition is_url (s : pystr) : bool := startswith (py "http://") s || startswith (py "https://") s.

(** [tests.remove(t)] for a [t] in the list. *)
Fixpoint py_remove (t : pystr) (l : list pystr) : list pystr :=
  match l with
  | [] => []
  | t' :: l => if bool_decide (t' = t) then l else t' :: py_remove t l
  end.
Definition exclude_lines (lines : list pystr) (params : pystr) (tests : list pystr) : list pystr :=
  foldl (λ tests line,
    match check_if_exists_with_params tests line params with
    | Some t => py_remove t tests
    | None => tests
    end) tests lines.

Section Filters.
(** The parsed files of a [glob] pattern, the document at a URL when it can be
    downloaded, and [re.search]. *)
Context (glob_xml : pystr → list node) (fetch : pystr → option node) (re_search : pystr → pystr → bool).

Definition log_files (filepath : pystr) : list node :=
  glob_xml (if bool_decide (filepath = []) then py "logs/**/*.xml" else filepath).

(** [parse_testreport_result_xml]; [None] is the pair [None, None] of a failed download. *)
Definition parse_testreport_result_xml (filepath : pystr) (fs : fsys) :
    res (option (list pystr * list pystr) * fsys) :=
  let docs := if is_url filepath
              then (λ d, [d]) <$> fetch (filepath ++ py "/testReport/api/xml?pretty=true")
              else Some (log_files filepath) in
  match docs with
  | None => Ok (None, fs)
  | Some docs =>
      acc ← report_docs docs ([], []);
      let '(r, fs) := transform_results acc.1 acc.2 fs in Ok (Some r, fs)
  end.

(** [parse_junit_result_xml] *)
Definition parse_junit_result_xml (filepath : pystr) (fs : fsys) :
    res (option (list pystr * list pystr) * fsys) :=
  if is_url filepath then parse_testreport_result_xml filepath fs
  else
    let acc := foldl (λ acc doc, junit_suites doc acc) ([], []) (log_files filepath) in
    let '(r, fs) := transform_results acc.1 acc.2 fs in Ok (Some r, fs).

(** The result lists an option refers to, with the tests of a bare URL:
    [tp + tf] is a [TypeError] when both are [None]. *)
Definition filter_results (option : pystr) (fs : fsys) :
    res ((Datatypes.option (list pystr * list pystr) * list pystr) * fsys) :=
  match split_on "="%char option with
  | [_; path] =>
      rf ← (if is_url path then parse_testreport_result_xml path fs else parse_junit_result_xml path fs);
      Ok ((rf.1, []), rf.2)
  | _ =>
      if is_url option then
        rf ← parse_testreport_result_xml option fs;
        match rf.1 with
        | Some (tp, tf) => Ok ((rf.1, tp ++ tf), rf.2)
        | None => raise TypeError
        end
      else rf ← parse_junit_result_xml [] fs; Ok ((rf.1, []), rf.2)
  end.

(** [process_include_or_filter_exclude_tests]; [params] is [options.params]. *)
Definition process_filter (filtertype : string) (option : pystr) (tests : list pystr)
    (params : pystr) (fs : fsys) : res (list pystr * fsys) :=
  if bool_decide (filtertype = "include") || bool_decide (filtertype = "exclude") then
    let include := bool_decide (filtertype = "include") in
    if startswith (py "failed") option || startswith (py "passed") option || is_url option then
      rf ← filter_results option fs;
      match rf.1 with
      | (None, _) => Ok (tests, rf.2)
      | (Some (tp, tf), both) =>
          let tests_list :=
            if startswith (py "failed") option && negb (bool_decide (tf = [])) then tf
            else if startswith (py "passed") option && negb (bool_decide (tp = [])) then tp
            else both in
          Ok (if include then tests_list else exclude_lines tests_list params tests, rf.2)
      end
    else if startswith (py "file=") option then
      name ← list_get (split_on "="%char option) 1;
      match locate_conf_file fs name with
      | Some ls => Ok (if include then strip <$> ls else exclude_lines (strip <$> ls) params tests, fs)
      | None => if include then Ok ([], fs) else raise TypeError
      end
    else Ok (filter (λ i, re_search option i = include) tests, fs)
  else Ok (tests, fs).
End Filters.

(** ** Arguments *)

(** The options that decide what is run; an option that is not given is empty.  The mode,
    the log level and -q change neither the tests nor their order. *)
Record options := Options {
  o_ini : pystr; o_conf : pystr; o_testcase : pystr; o_globalsearch : pystr;
  o_include : pystr; o_exclude : pystr; o_params : pystr; o_noop : bool
}.
Definition given (s : pystr) : bool := negb (bool_decide (s = [])).

Section Args.
Context (loadTestsFromName : pystr → res (list pystr)) (isdir : pystr → bool) (glob : pystr → list pystr)
  (glob_xml : pystr → list node) (fetch : pystr → option node) (re_search : pystr → pystr → bool).

(** [parse_args] once [OptionParser] has read the options: the tests and the
    parameters; wrong or missing options and [-n] exit. *)
Definition parse_args (o : options) (fs : fsys) : res ((list pystr * tparams) * fsys) :=
  if negb (given (o_ini o)) || negb (bool_decide (is_Some (fs !! o_ini o))) then raise SystemExit
  else
    let params := <[py "cluster_name" := PStr (splitext_root (basename (o_ini o)))]>
                    {[py "ini" := PStr (o_ini o)]} in
    if negb (given (o_testcase o) || given (o_conf o) || given (o_globalsearch o) ||
             given (o_include o) || given (o_exclude o)) then raise SystemExit
    else
      tp ← (if given (o_conf o) && negb (given (o_globalsearch o))
            then parse_conf_file loadTestsFromName fs (o_conf o) [] params else Ok ([], params));
      tp ← (if given (o_globalsearch o)
            then parse_global_conf_file loadTestsFromName isdir glob fs (o_globalsearch o) tp.1 tp.2
            else Ok tp);
      tf ← (if given (o_include o)
            then process_filter glob_xml fetch re_search "include" (o_include o) tp.1 (o_params o) fs
            else Ok (tp.1, fs));
      tf ← (if given (o_exclude o)
            then process_filter glob_xml fetch re_search "exclude" (o_exclude o) tf.1 (o_params o) tf.2
            else Ok tf);
      let tests := if given (o_testcase o) then tf.1 ++ [o_testcase o] else tf.1 in
      if o_noop o then raise SystemExit else Ok ((tests, tp.2), tf.2).
End Args.

(** ** Group selection *)

(** [v.split(";")] *)
Definition groups_of (v : pval) : res (list pystr) :=
  match v with PStr s => Ok (split_on ";"%char s) | _ => raise AttributeError end.

(** The first guard of the loop of [main]: GROUP. *)
Definition group_ok (runtime : tparams) (params : gmap pystr pystr) : res bool :=
  match runtime !! py "GROUP" with
  | None => Ok true
  | Some v =>
      run_groups ← groups_of v;
      if bool_decide (py "ALL" ∈ run_groups) then Ok true
      else match params !! py "GROUP" with
           | None => Ok false
           | Some g => Ok (forallb (λ r, bool_decide (r ∈ split_on ";"%char g)) run_groups)
           end
  end.
(** The second guard: EXCLUDE_GROUP. *)
Definition not_excluded (runtime : tparams) (params : gmap pystr pystr) : res bool :=
  match runtime !! py "EXCLUDE_GROUP", params !! py "GROUP" with
  | Some v, Some g =>
      excluded ← groups_of v;
      Ok (negb (existsb (λ r, bool_decide (r ∈ split_on ";"%char g)) excluded))
  | _, _ => Ok true
  end.
Definition selected (runtime : tparams) (params : gmap pystr pystr) : res bool :=
  a ← group_ok runtime params;
  if (a : bool) then not_excluded runtime params else Ok false.

(** ** [str()] of values *)

Definition hex_digit (d : Z) : ascii := chr (if d <? 10 then 48 + d else 87 + d).
(** [repr] of a string, in single quotes unless the text has single quotes and no
    double quotes. *)
Definition repr_char (q c : ascii) : pystr :=
  let n := ord c in
  if bool_decide (c = q) || (n =? 92) then [chr 92; c]
  else if n =? 9 then [chr 92; "t"%char] else if n =? 10 then [chr 92; "n"%char]
  else if n =? 13 then [chr 92; "r"%char]
  else if (n <? 32) || (127 <=? n) then [chr 92; "x"%char; hex_digit (n / 16); hex_digit (n mod 16)]
  else [c].
Definition repr (s : pystr) : pystr :=
  let q := if bool_decide (chr 39 ∈ s) && negb (bool_decide (chr 34 ∈ s)) then chr 34 else chr 39 in
  q :: concat (repr_char q <$> s) ++ [q].
Definition str_list (l : list pystr) : pystr := py "[" ++ join (py ", ") (repr <$> l) ++ py "]".
Definition str_val (v : pval) : pystr :=
  match v with
  | PStr s | PFloat s => s
  | PInt n => str_of_Z n
  | PBool b => py (if b then "True" else "False")
  | PList l => str_list l
  | PNone => py "None"
  end.

(** ** The loop of [main] *)

(** What [TextTestRunner.run] returns: the texts of the failures and errors.  It
    always is an object that counts as true, so the branch for a test that was
    stopped by a timeout is dead. *)
Record result := Result { r_failures : list pystr; r_errors : list pystr }.
Definition bad (r : result) : bool := negb (bool_decide (r_failures r = []) && bool_decide (r_errors r = [])).

(** An entry of [results]; the dict has the time of a passed test only. *)
Record entry := Entry { e_pass : bool; e_name : pystr; e_time : Z }.

Section Main.
(** The world that tests act on, the tests that the loader finds and what a run of
    them does.  A test may change the shared [test_params]. *)
Context {W T : Type} (load : pystr → res T) (run : T → tparams → W → result * tparams * W)
  (clock : W → Z) (items : tparams → list (pystr * pval)) (str_time : Z → pystr).

Record state := State {
  st_world : W; st_params : tparams; st_case : Z; st_results : list entry;
  st_xunit : xunit; st_reports : gmap pystr node
}.

(** The parameters that a test sees. *)
Definition test_params (runtime : tparams) (params : gmap pystr pystr) (case_number : Z) (logs_folder : pystr) :
    tparams :=
  let p := runtime ∪ (PStr <$> params) in
  let p := <[py "case_number" := PInt case_number]> p in
  let p := <[py "logs_folder" := PStr logs_folder]> p in
  if bool_decide (is_Some (p !! py "rerun")) then p else <[py "rerun" := PBool false]> p.

(** The [try] statement: loading, running and the single rerun. *)
Definition execute (name : pystr) (p : tparams) (w : W) : res (result * tparams * W) :=
  match load name with
  | Err e =>
      if bool_decide (exn_cls e = AttributeError) || bool_decide (exn_cls e = SyntaxError)
      then Ok (Result [] [exn_msg e], p, w) else Err e
  | Ok suite =>
      let '(r, p, w) := run suite p w in
      rerun ← param p (py "rerun") None;
      if pval_true rerun && bad r then Ok (run suite (<[py "log_level" := PStr (py "debug")]> p) w)
      else Ok (r, p, w)
  end.

(** The text of the parameters that is added to the name in the report. *)
Definition params_text (p : tparams) : pystr :=
  concat ((λ kv, if given kv.1 && pval_true kv.2 then py "," ++ kv.1 ++ py "=" ++ str_val kv.2 else [])
            <$> items p).
(** The first failure and the first error. *)
Definition first_errors (r : result) : list pystr := take 1 (r_failures r) ++ take 1 (r_errors r).

(** One iteration for a selected test; the flag tells whether to break. *)
Definition run_test (runtime : tparams) (root str_now : pystr) (full_name : pystr) (st : state) :
    res (state * bool) :=
  let start := clock (st_world st) in
  let logs_folder := root ++ py "/test_" ++ str_of_Z (st_case st) in
  let name := default [] (head (split_on ","%char full_name)) in
  let p := test_params runtime (params_of full_name) (st_case st) logs_folder in
  rpw ← execute name p (st_world st);
  let '(r, p, w) := rpw in
  let time_taken := clock w - start in
  let x := if bad r
           then add_test name time_taken (CaseError (py "membase.error") (str_list (first_errors r)))
                  Fail (params_text p) (st_xunit st)
           else add_test name time_taken (CaseError [] []) Pass (params_text p) (st_xunit st) in
  let st' := State w p (st_case st + 1) (st_results st ++ [Entry (negb (bad r)) name time_taken])
               x (write str_time (root ++ py "/report-" ++ str_now) x (st_reports st)) in
  if bad r then
    stop ← param p (py "stop-on-failure") (Some (PBool false));
    Ok (st', pval_true stop)
  else Ok (st', false).

Fixpoint run_tests (runtime : tparams) (root str_now : pystr) (names : list pystr) (st : state) : res state :=
  match names with
  | [] => Ok st
  | name :: names =>
      sel ← selected runtime (params_of name);
      if (sel : bool) then
        sb ← run_test runtime root str_now name st;
        if (sb.2 : bool) then Ok sb.1 else run_tests runtime root str_now names sb.1
      else run_tests runtime root str_now names st
  end.

(** The end of [main]: the exit code. *)
Definition exit_code (st : state) : Z :=
  if bool_decide (is_Some (st_params st !! py "makefile")) &&
     existsb (λ e, negb (e_pass e)) (st_results st) then 1 else 0.

(** [main]: the tests and parameters of [parse_args] and the parameters of
    [get_test_input], which win. *)
Definition main (names : list pystr) (args_params input_params : tparams) (root str_now : pystr) (w : W) :
    res (Z * state) :=
  let runtime := input_params ∪ args_params in
  st ← run_tests runtime root str_now names (State w runtime 1 [] [] ∅);
  Ok (exit_code st, st).
End Main.

(** ** Proofs: group selection *)

#[local] Arguments py : simpl never.
#[local] Arguments split_on : simpl never.

Lemma forallb_elem (l k : list pystr) :
  forallb (λ r, bool_decide (r ∈ k)) l = true ↔ ∀ g, g ∈ l → g ∈ k.
Proof.
  rewrite forallb_forall. split; intros H g Hg.
  - apply list_elem_of_In, H, bool_decide_eq_true in Hg. done.
  - apply bool_decide_eq_true, H. by apply list_elem_of_In.
Qed.
Lemma existsb_elem (l k : list pystr) :
  existsb (λ r, bool_decide (r ∈ k)) l = true ↔ ∃ g, g ∈ l ∧ g ∈ k.
Proof.
  rewrite existsb_exists. split; intros (g & H1 & H2); exists g.
  - split; [by apply list_elem_of_In|by apply bool_decide_eq_true in H2].
  - split; [by apply list_elem_of_In|by apply bool_decide_eq_true].
Qed.

(** With GROUP and EXCLUDE_GROUP given as text, a test is
    selected exactly when no group is requested, or ALL is among the requested
    groups, or the test has groups and every requested group is one of them,
    and no group of the test is excluded.  Tests without groups are never excluded. *)
Theorem group_selection runtime params gs xs :
  (runtime !! py "GROUP" = PStr <$> gs) →
  (runtime !! py "EXCLUDE_GROUP" = PStr <$> xs) →
  let groups := λ o, match o with Some g => split_on ";"%char g | None => [] end in
  ∃ b, selected runtime params = Ok b ∧
    (b = true ↔
      (gs = None ∨ py "ALL" ∈ groups gs ∨
       (is_Some (params !! py "GROUP") ∧ ∀ g, g ∈ groups gs → g ∈ groups (params !! py "GROUP"))) ∧
      (∀ g, g ∈ groups xs → g ∉ groups (params !! py "GROUP"))).
Proof.
  intros Hg Hx groups. unfold selected.
  assert (∃ a, group_ok runtime params = Ok a ∧
    (a = true ↔ gs = None ∨ py "ALL" ∈ groups gs ∨
       (is_Some (params !! py "GROUP") ∧ ∀ g, g ∈ groups gs → g ∈ groups (params !! py "GROUP"))))
    as (a & Ha & Ha').
  { unfold group_ok. rewrite Hg. destruct gs as [g|]; cbn; [|exists true; naive_solver].
    case_bool_decide; [exists true; naive_solver|].
    destruct (params !! py "GROUP") as [pg|]; [|exists false; split; [done|]; naive_solver].
    eexists; split; [done|]. rewrite forallb_elem. naive_solver. }
  assert (∃ b, not_excluded runtime params = Ok b ∧
    (b = true ↔ ∀ g, g ∈ groups xs → g ∉ groups (params !! py "GROUP"))) as (b & Hb & Hb').
  { unfold not_excluded. rewrite Hx. destruct xs as [x|]; cbn; [|exists true; set_solver].
    destruct (params !! py "GROUP") as [pg|]; [|exists true; set_solver].
    eexists; split; [done|]. rewrite negb_true_iff, <- not_true_iff_false, existsb_elem. naive_solver. }
  rewrite Ha. cbn. destruct a; [exists b|exists false]; naive_solver.
Qed.
Lemma group_selection_witness :
  let runtime : tparams := {[py "GROUP" := PStr (py "P0;durability")]} in
  let params := params_of (py "t.T.a,GROUP=durability;P0;x") in
  ∃ b, selected runtime params = Ok b ∧ b = true.
Proof.
  intros runtime params.
  destruct (group_selection runtime params (Some (py "P0;durability")) None) as (b & Hb & _);
    [by vm_compute|by vm_compute|].
  exists b. split; [exact Hb|]. vm_compute in Hb. by injection Hb.
Defined.

(** ** Proofs: filters *)

(** When the results at a bare URL cannot be downloaded, both
    filters raise [TypeError], whatever the tests are: the promised fall-back to all
    the tests is reached only for [failed=URL] and [passed=URL]. *)
Theorem url_filter_unreachable glob_xml fetch re_search ft option tests params fs :
  ft = "include" ∨ ft = "exclude" → is_url option = true → "="%char ∉ option →
  fetch (option ++ py "/testReport/api/xml?pretty=true") = None →
  raises TypeError (process_filter glob_xml fetch re_search ft option tests params fs) ∧
  (∀ kind, kind = "failed=" ∨ kind = "passed=" →
     process_filter glob_xml fetch re_search ft (py kind ++ option) tests params fs = Ok (tests, fs)).
Proof.
  intros Hft Hu Hn Hd.
  assert (parse_testreport_result_xml glob_xml fetch option fs = Ok (None, fs)) as Hp.
  { unfold parse_testreport_result_xml. by rewrite Hu, Hd. }
  unfold process_filter.
  replace (bool_decide (ft = "include") || bool_decide (ft = "exclude")) with true
    by (destruct Hft as [-> | ->]; done).
  split.
  - rewrite Hu, !orb_true_r. unfold filter_results. rewrite split_on_word, Hu, Hp by done. done.
  - intros kind Hk.
    assert (∃ w, py kind = w ++ py "=" ∧ "="%char ∉ w ∧
      startswith (py "failed") (py kind ++ option) || startswith (py "passed") (py kind ++ option) = true)
      as (w & Hw & Hnw & Hst).
    { destruct Hk as [-> | ->]; [exists (py "failed")|exists (py "passed")];
        (split_and!; [done|by vm_compute; set_solver|done]). }
    rewrite Hst. cbn [orb]. unfold filter_results.
    replace (split_on "="%char (py kind ++ option)) with [w; option].
    + by rewrite Hu, Hp.
    + rewrite Hw, <- app_assoc. change (py "=" ++ option) with ("="%char :: option).
      by rewrite split_on_app, split_on_word.
Qed.
Lemma url_filter_unreachable_witness :
  raises TypeError (process_filter (λ _, []) (λ _, None) (λ _ _, true) "include"
    (py "http://ci/job/7") [py "a.B.test_c"] [] ∅).
Proof.
  refine (proj1 (url_filter_unreachable (λ _, []) (λ _, None) (λ _ _, true) "include"
    (py "http://ci/job/7") [py "a.B.test_c"] [] ∅ (or_introl eq_refl) eq_refl _ eq_refl)).
  by apply (bool_decide_unpack (_ ∉ _)); vm_compute.
Defined.

(** ** Proofs: recognising tests *)

#[global] Instance ord_le_total : Total ord_le.
Proof. intros a b. unfold ord_le. lia. Qed.
#[global] Instance ord_le_trans : Transitive ord_le.
Proof. intros a b c. unfold ord_le. lia. Qed.
#[global] Instance ord_le_antisymm : AntiSymm (=) ord_le.
Proof. intros a b H1 H2. apply ord_inj. unfold ord_le in *. lia. Qed.

(** Comparing sorted characters is comparing up to permutation. *)
Lemma sorted_str_eq s t : sorted_str s = sorted_str t ↔ s ≡ₚ t.
Proof.
  unfold sorted_str. split; intros H.
  - by rewrite <- (merge_sort_Permutation ord_le s), H, merge_sort_Permutation.
  - apply (StronglySorted_unique ord_le);
      [by apply (StronglySorted_merge_sort ord_le)..|by rewrite !merge_sort_Permutation].
Qed.

Lemma check_if_exists_spec ts l t :
  check_if_exists ts l = Some t ↔
  ∃ ts1 ts2, ts = ts1 ++ t :: ts2 ∧ t ≡ₚ l ∧ Forall (λ t', ¬ t' ≡ₚ l) ts1.
Proof.
  induction ts as [|t' ts IH]; cbn.
  - split; [done|]. intros (? & ? & ? & _). by destruct x.
  - case_bool_decide as E; rewrite sorted_str_eq in E.
    + split; [intros [= ->]; by exists [], ts|]. intros ([|t1 ts1] & ts2 & [= -> ->] & Ht & Hf); [done|].
      apply Forall_cons in Hf as [Hf _]. done.
    + rewrite IH. split.
      * intros (ts1 & ts2 & -> & Ht & Hf). exists (t' :: ts1), ts2. by repeat constructor.
      * intros ([|t1 ts1] & ts2 & [= -> ->] & Ht & Hf); [done|].
        apply Forall_cons in Hf as [_ Hf]. by exists ts1, ts2.
Qed.
Lemma check_if_exists_none ts l : check_if_exists ts l = None ↔ Forall (λ t, ¬ t ≡ₚ l) ts.
Proof.
  induction ts as [|t ts IH]; cbn; [by split|]. rewrite Forall_cons, <- IH.
  case_bool_decide as E; rewrite sorted_str_eq in E; naive_solver.
Qed.

(** The line of a test in the written list. *)
Definition test_line (test : pystr) : pystr := rstrip (py ",") (filter_fields test).
Definition distinct_lines (l : list pystr) : Prop :=
  ∀ i j a b, l !! i = Some a → l !! j = Some b → a ≡ₚ b → i = j.

Lemma distinct_lines_snoc l x :
  distinct_lines l → Forall (λ t, ¬ t ≡ₚ x) l → distinct_lines (l ++ [x]).
Proof.
  intros Hd Hx i j a b Hi Hj Hab. rewrite Forall_lookup in Hx.
  apply lookup_snoc_Some in Hi as [[? Hi]|[-> <-]]; apply lookup_snoc_Some in Hj as [[? Hj]|[-> <-]].
  - by eapply Hd.
  - by destruct (Hx _ _ Hi).
  - symmetry in Hab. by destruct (Hx _ _ Hj).
  - done.
Qed.

Lemma transform_spec ts :
  let l := foldl transform_step [] ts in
  l `sublist_of` (test_line <$> ts) ∧ distinct_lines l ∧
  Forall (λ t, ∃ t', t' ∈ l ∧ t' ≡ₚ test_line t) ts.
Proof.
  induction ts as [|t ts IH] using rev_ind; cbn zeta.
  - split_and!; [done|by intros ? ? ? ? ?|done].
  - destruct IH as (Hs & Hd & Hf). rewrite foldl_app, fmap_app. cbn [foldl].
    set (l := foldl transform_step [] ts) in *. unfold transform_step. fold (test_line t).
    destruct (check_if_exists l (test_line t)) as [t'|] eqn:E.
    + apply check_if_exists_spec in E as (l1 & l2 & El & Ht & _). split_and!; [|done|].
      * by apply sublist_inserts_r.
      * apply Forall_app. split; [done|]. apply Forall_singleton. exists t'.
        split; [rewrite El; set_solver|exact Ht].
    + apply check_if_exists_none in E. split_and!.
      * by apply sublist_app.
      * by apply distinct_lines_snoc.
      * apply Forall_app. split; [|apply Forall_singleton; exists (test_line t); split; [set_solver|reflexivity]].
        eapply Forall_impl; [exact Hf|]. intros t0 (t' & Ht' & Hp). exists t'. split; [set_solver|done].
Qed.

(** [transform_and_write_to_file] writes the list it returns, one test per
    line; the list is a sublist of the given tests (with the runner's own fields
    removed), in their order; every given test is represented in it by a line with
    the same characters, in any order; and no two of its lines have the same
    characters.  Lines are compared after sorting their characters, so two
    different tests whose lines are anagrams of each other count as one. *)
Theorem transform_keeps_one_per_anagram ts filename fs :
  let '(l, fs') := transform_and_write_to_file ts filename fs in
  fs' !! py filename = Some ((λ line, line ++ newline) <$> l) ∧
  l `sublist_of` (test_line <$> ts) ∧ distinct_lines l ∧
  (∀ t, t ∈ ts → ∃ t', t' ∈ l ∧ t' ≡ₚ test_line t) ∧
  (∀ k, k ≠ py filename → fs' !! k = fs !! k).
Proof.
  unfold transform_and_write_to_file. destruct (transform_spec ts) as (Hs & Hd & Hf).
  rewrite Forall_forall in Hf. split_and!; [by apply lookup_insert_eq|done|done|exact Hf|].
  intros k Hk. by rewrite lookup_insert_ne.
Qed.

(** ** Proofs: the run *)

(** Parameters whose conversion [param] does not raise: text, numbers, truth values. *)
Definition parses (v : pval) : Prop := is_ok (parse_param v) = true.
Definition sane (p : tparams) : Prop :=
  ∀ k v, k = py "rerun" ∨ k = py "stop-on-failure" → p !! k = Some v → parses v.
Definition cut (full_name : pystr) : pystr := default [] (head (split_on ","%char full_name)).

Lemma parses_str s : parses (PStr s).
Proof. unfold parses, parse_param. destruct (int_of_str s); [done|]. by repeat case_match. Qed.
Lemma parses_param p k d : (∀ v, p !! k = Some v → parses v) → is_Some d ∨ is_Some (p !! k) →
  ∃ v, param p k d = Ok v.
Proof.
  intros Hp Hd. unfold param. destruct (p !! k) as [v|] eqn:E.
  - specialize (Hp v eq_refl). unfold parses in Hp. destruct (parse_param v); [eauto|done].
  - destruct Hd as [[v ->]|[? [=]]]. by exists v.
Qed.

Lemma test_params_sane runtime params n folder : sane runtime → sane (test_params runtime params n folder).
Proof.
  intros Hs k v Hk. unfold test_params.
  assert (k ≠ py "case_number" ∧ k ≠ py "logs_folder") as [H1 H2] by (by destruct Hk as [-> | ->]).
  assert (∀ v, (runtime ∪ (PStr <$> params) : tparams) !! k = Some v → parses v) as Hu.
  { intros v' [Hv|[_ Hv]]%lookup_union_Some_raw; [by eapply Hs|].
    apply lookup_fmap_Some in Hv as (s & <- & _). apply parses_str. }
  case_bool_decide.
  - rewrite !lookup_insert_ne by done. apply Hu.
  - destruct (decide (k = py "rerun")) as [->|Hr].
    + rewrite lookup_insert_eq. by intros [= <-].
    + rewrite !lookup_insert_ne by done. apply Hu.
Qed.
Lemma test_params_rerun runtime params n folder :
  is_Some (test_params runtime params n folder !! py "rerun").
Proof. unfold test_params. case_bool_decide; [done|]. rewrite lookup_insert_eq. by eexists. Qed.

(** The tests that the group guards let through. *)
Definition is_selected (runtime : tparams) (name : pystr) : bool :=
  match selected runtime (params_of name) with Ok b => b | Err _ => false end.
Definition chosen (runtime : tparams) (names : list pystr) : list pystr :=
  filter (λ n, is_selected runtime n = true) names.
Lemma chosen_cons runtime n names :
  chosen runtime (n :: names) =
    if is_selected runtime n then n :: chosen runtime names else chosen runtime names.
Proof. unfold chosen. rewrite filter_cons. by destruct (is_selected runtime n). Qed.

Section Run.
Context {W T : Type} (load : pystr → res T) (run : T → tparams → W → result * tparams * W)
  (clock : W → Z) (items : tparams → list (pystr * pval)) (str_time : Z → pystr).

(** The loader finds a test or raises one of the two exceptions that are handled;
    tests keep the parameters of the runner in order. *)
Definition loads : Prop :=
  ∀ n e, load n = Err e → exn_cls e = AttributeError ∨ exn_cls e = SyntaxError.
Definition keeps_params : Prop :=
  ∀ s p w, sane p → is_Some (p !! py "rerun") →
    sane (run s p w).1.2 ∧ is_Some ((run s p w).1.2 !! py "rerun").
Context (Hload : loads) (Hkeep : keeps_params).

Lemma sane_debug p : sane p → sane (<[py "log_level" := PStr (py "debug")]> p).
Proof.
  intros Hs k v Hk. rewrite lookup_insert_ne by (by destruct Hk as [-> | ->]). by apply Hs.
Qed.

Lemma execute_ok name p w : sane p → is_Some (p !! py "rerun") →
  ∃ r p' w', execute load run name p w = Ok (r, p', w') ∧ sane p' ∧ is_Some (p' !! py "rerun").
Proof.
  intros Hs Hr. unfold execute. destruct (load name) as [s|e] eqn:E.
  - destruct (run s p w) as [[r p'] w'] eqn:Er. destruct (Hkeep s p w Hs Hr) as [Hs' Hr'].
    rewrite Er in *. cbn in Hs', Hr'.
    destruct (parses_param p' (py "rerun") None) as [v ->]; [intros v; apply Hs'; by left|by right|].
    cbn. destruct (pval_true v && bad r); [|by exists r, p', w'].
    destruct (Hkeep s (<[py "log_level" := PStr (py "debug")]> p') w') as [Hs2 Hr2].
    { by apply sane_debug. } { by rewrite lookup_insert_ne. }
    destruct (run s _ w') as [[r2 p2] w2]. by exists r2, p2, w2.
  - exists (Result [] [exn_msg e]), p, w. split; [|done].
    by destruct (Hload name e E) as [-> | ->].
Qed.

(** A result and the report call made for it. *)
Definition reported (e : entry) (k : call) : Prop :=
  k_name k = e_name e ∧ k_time k = e_time e ∧ k_status k = (if e_pass e then Pass else Fail).

(** The state between two tests. *)
Record run_inv (prefix : pystr) (st : state (W := W)) : Prop := {
  inv_case : st_case st = 1 + len (st_results st);
  inv_names : Forall (λ e, ","%char ∉ e_name e) (st_results st);
  inv_xunit : ∃ ks, st_xunit st = report ks ∧ Forall2 reported (st_results st) ks;
  inv_files : ∀ s, s ∈ st_xunit st → st_reports st !! report_name prefix s = Some (to_xml str_time s)
}.

(** The break of the loop: the last test failed and asked to stop. *)
Definition stopped (st : state (W := W)) : Prop :=
  ∃ e v, last (st_results st) = Some e ∧ e_pass e = false ∧
    param (st_params st) (py "stop-on-failure") (Some (PBool false)) = Ok v ∧ pval_true v = true.

Lemma cut_no_comma full_name : ","%char ∉ cut full_name.
Proof.
  unfold cut. induction full_name as [|c s IH]; [set_solver|].
  unfold split_on; fold split_on. case_bool_decide as E; [set_solver|].
  destruct (split_on ","%char s) eqn:Es; cbn in *; set_solver.
Qed.

Lemma report_suites_no_comma ks :
  Forall (λ k, ","%char ∉ k_name k) ks → Forall (λ s, ","%char ∉ s_name s) (report ks).
Proof.
  intros Hk. rewrite Forall_forall in Hk. rewrite Forall_forall. intros s Hs.
  destruct (report_ok ks) as [_ Hok]. rewrite Forall_forall in Hok.
  destruct (Hok s Hs) as (_ & _ & Ht & _). destruct (s_tests s) as [|c cs] eqn:E; [done|].
  destruct (report_mem ks s c Hs) as [-> Hc]; [rewrite E; set_solver|].
  apply class_name_no_comma. apply list_elem_of_fmap in Hc as (k & -> & Hin). by apply Hk.
Qed.

(** A step of the loop extends the results, and keeps report and files in line. *)
Lemma run_inv_step prefix st w p e k :
  run_inv prefix st → reported e k → ","%char ∉ e_name e →
  let x := add_test (k_name k) (k_time k) (k_error k) (k_status k) (k_params k) (st_xunit st) in
  run_inv prefix (State w p (st_case st + 1) (st_results st ++ [e]) x
                    (write str_time prefix x (st_reports st))).
Proof.
  intros [Hc Hn (ks & Hx & Hks) Hf] Hr He x.
  assert (x = report (ks ++ [k])) as Hxk by (unfold x; by rewrite Hx, report_snoc).
  assert (Forall2 reported (st_results st ++ [e]) (ks ++ [k])) as Hall.
  { apply Forall2_app; [done|]. by constructor. }
  assert (Forall (λ e, ","%char ∉ e_name e) (st_results st ++ [e])) as Hn'.
  { apply Forall_app. split; [done|]. by apply Forall_singleton. }
  constructor; cbn [st_case st_results st_xunit st_reports].
  - rewrite Hc, len_app, len_cons, len_nil. lia.
  - done.
  - by exists (ks ++ [k]).
  - intros s Hs. rewrite Hxk in *. apply write_files; [apply report_ok| |done].
    apply report_suites_no_comma. clear -Hall Hn'. revert Hn'.
    induction Hall as [|e' k' es ks' (Hke & _) Hall IH]; intros Hn; constructor; inversion Hn; subst; [|by apply IH].
    by rewrite Hke.
Qed.

Lemma run_test_ok runtime root now full_name st :
  sane runtime → run_inv (root ++ py "/report-" ++ now) st →
  ∃ st' stop e, run_test load run clock items str_time runtime root now full_name st = Ok (st', stop) ∧
    run_inv (root ++ py "/report-" ++ now) st' ∧
    st_results st' = st_results st ++ [e] ∧ e_name e = cut full_name ∧
    (stop = true → stopped st').
Proof.
  intros Hs Hinv. unfold run_test. fold (cut full_name).
  set (p0 := test_params _ _ _ _).
  destruct (execute_ok (cut full_name) p0 (st_world st)) as (r & p & w & -> & Hsp & _);
    [by apply test_params_sane|by apply test_params_rerun|].
  unfold mbind, res_bind. cbv zeta. set (t := clock w - _).
  destruct (bad r) eqn:Hb.
  - destruct (parses_param p (py "stop-on-failure") (Some (PBool false))) as [v Hv].
    { intros v. apply Hsp. by right. } { left. by eexists. }
    rewrite Hv. eexists _, _, (Entry false (cut full_name) t). split; [done|].
    split_and!; [|done|done|].
    + apply (run_inv_step _ st w p (Entry false (cut full_name) t)
        (Call (cut full_name) t (CaseError (py "membase.error") (str_list (first_errors r))) Fail
           (params_text items p))); [done|done|apply cut_no_comma].
    + intros Ht. exists (Entry false (cut full_name) t), v. cbn. by rewrite last_snoc.
  - eexists _, _, (Entry true (cut full_name) t). split; [done|].
    split_and!; [|done|done|done].
    apply (run_inv_step _ st w p (Entry true (cut full_name) t)
      (Call (cut full_name) t (CaseError [] []) Pass (params_text items p))); [done|done|apply cut_no_comma].
Qed.

Lemma run_tests_ok runtime root now names st :
  sane runtime → (∀ n, n ∈ names → is_ok (selected runtime (params_of n)) = true) →
  run_inv (root ++ py "/report-" ++ now) st →
  ∃ st' es, run_tests load run clock items str_time runtime root now names st = Ok st' ∧
    run_inv (root ++ py "/report-" ++ now) st' ∧
    st_results st' = st_results st ++ es ∧
    (e_name <$> es) `prefix_of` (cut <$> chosen runtime names) ∧
    ((e_name <$> es) = (cut <$> chosen runtime names) ∨ stopped st').
Proof.
  intros Hs Hsel. revert st. induction names as [|n names IH]; intros st Hinv.
  - exists st, []. cbn. rewrite app_nil_r. by split_and!; [..|left].
  - rewrite chosen_cons. unfold is_selected. cbn [run_tests].
    assert (is_ok (selected runtime (params_of n)) = true) as Hn by (apply Hsel; set_solver).
    assert (∀ m, m ∈ names → is_ok (selected runtime (params_of m)) = true) as Hns
      by (intros m Hm; apply Hsel; set_solver).
    destruct (selected runtime (params_of n)) as [[]|] eqn:E; [| |done].
    + destruct (run_test_ok runtime root now n st Hs Hinv) as (st1 & stop & e & -> & Hinv1 & Hres & He & Hstop).
      unfold mbind, res_bind. cbn [snd fst]. rewrite fmap_cons, <- He. destruct stop.
      * exists st1, [e]. split_and!; [done|done|done| |right; by apply Hstop].
        apply (prefix_app [_]), prefix_nil.
      * destruct (IH Hns st1 Hinv1) as (st' & es & Hrun & Hinv' & Hres' & Hp & Ho). exists st', (e :: es).
        split_and!; [done|done| | |].
        -- by rewrite Hres', Hres, <- app_assoc.
        -- apply (prefix_app [_]), Hp.
        -- destruct Ho as [Ho|Ho]; [left; by rewrite fmap_cons, Ho|by right].
    + unfold mbind, res_bind. by apply IH.
Qed.
End Run.

Lemma existsb_failed (l : list entry) :
  existsb (λ e, negb (e_pass e)) l = true ↔ ∃ e, e ∈ l ∧ e_pass e = false.
Proof.
  rewrite existsb_exists. split; intros (e & H1 & H2); exists e.
  - split; [by apply list_elem_of_In|by apply negb_true_iff].
  - split; [by apply list_elem_of_In|by apply negb_true_iff].
Qed.
Lemma selected_text runtime params :
  (∀ k v, k = py "GROUP" ∨ k = py "EXCLUDE_GROUP" → runtime !! k = Some v → ∃ s, v = PStr s) →
  is_ok (selected runtime params) = true.
Proof.
  intros H. unfold selected, group_ok, not_excluded.
  destruct (runtime !! py "GROUP") as [v|] eqn:Eg; [destruct (H _ v (or_introl eq_refl) Eg) as [s ->]|];
    (destruct (runtime !! py "EXCLUDE_GROUP") as [v|] eqn:Ex; [destruct (H _ v (or_intror eq_refl) Ex) as [s' ->]|]);
    cbn; repeat case_match; try done; by destruct (forallb _ _).
Qed.

Definition demo_load (n : pystr) : res pystr :=
  if endswith (py "gone") n then raise AttributeError else Ok n.
Definition demo_run (n : pystr) (p : tparams) (w : Z) : result * tparams * Z :=
  (Result (if endswith (py "bad") n then [py "boom"] else []) [], p, w + 1).

(** ** Proofs: reading a report back *)

Definition full_name (c : case) : pystr := c_name c ++ c_params c.
(** The cases before the first failure. *)
Fixpoint passing_prefix (cs : list case) : list case :=
  match cs with
  | c :: cs => match c_error c with None => c :: passing_prefix cs | Some _ => [] end
  | [] => []
  end.

Lemma suite_children ts cs str_time :
  foldl (λ ts c, appendChild (case_xml str_time c) ts) ts cs =
    match ts with Text d => Text d | Elem t a l => Elem t a (l ++ (case_xml str_time <$> cs)) end.
Proof.
  revert ts. induction cs as [|c cs IH]; intros ts; cbn [foldl].
  - destruct ts; [done|]. by rewrite app_nil_r.
  - rewrite IH. destruct ts; [done|]. cbn. by rewrite <- app_assoc.
Qed.
Lemma case_xml_elements str_time c t :
  elements (py t) (case_xml str_time c) =
    (if bool_decide (t = "testcase") then [case_xml str_time c] else []) ++
    (if bool_decide (t = "error") then getElementsByTagName "error" (case_xml str_time c) else []).
Proof.
  assert (∀ a b : string, bool_decide (py a = py b) = bool_decide (b = a)) as Hpy.
  { intros a b. apply bool_decide_ext. split; [by intros ?%py_inj|by intros ->]. }
  unfold getElementsByTagName, case_xml, createElement, setAttribute, appendChild.
  destruct (c_error c) as [e|]; [destruct (bool_decide (err_message e = []))|];
    cbn [elements childNodes app fmap list_fmap concat]; rewrite ?Hpy;
    repeat case_bool_decide; subst; done.
Qed.
Lemma case_xml_errors str_time c :
  getElementsByTagName "error" (case_xml str_time c) = [] ∧ c_error c = None ∨
  (∃ n, getElementsByTagName "error" (case_xml str_time c) = [n]) ∧ is_Some (c_error c).
Proof.
  unfold getElementsByTagName, case_xml. destruct (c_error c) as [e|]; [right|by left].
  split; [|by eexists]. by destruct (bool_decide (err_message e = [])); eexists.
Qed.
Lemma case_xml_name str_time c : getAttribute "name" (case_xml str_time c) = full_name c.
Proof. unfold case_xml. by destruct (c_error c) as [e|]. Qed.

Lemma junit_cases_spec str_time cs failed ps fls :
  junit_cases (case_xml str_time <$> cs) failed ps fls =
    (ps ++ (if failed then [] else full_name <$> passing_prefix cs),
     fls ++ (full_name <$> filter (λ c, is_Some (c_error c)) cs)).
Proof.
  revert failed ps fls. induction cs as [|c cs IH]; intros failed ps fls; cbn [junit_cases fmap list_fmap].
  - destruct failed; by rewrite !app_nil_r.
  - rewrite IH, case_xml_name, filter_cons. cbn [passing_prefix].
    destruct (case_xml_errors str_time c) as [[-> Ec]|[[n ->] [e Ec]]]; rewrite Ec; cbn.
    + case_decide as Hd; [by destruct Hd|]. rewrite orb_false_r, app_nil_r.
      destruct failed; [done|]. by rewrite <- app_assoc.
    + case_decide as Hd; [|by destruct Hd]. rewrite orb_true_r, app_nil_r, <- app_assoc.
      by destruct failed; rewrite app_nil_r.
Qed.

Lemma to_xml_suites str_time s :
  ∃ a, getElementsByTagName "testsuite" (to_xml str_time s) =
    [Elem (py "testsuite") a (case_xml str_time <$> s_tests s)].
Proof.
  unfold to_xml. cbv zeta. rewrite suite_children. cbn [createElement setAttribute app].
  eexists. unfold getElementsByTagName, document. cbn [childNodes fmap list_fmap concat elements].
  rewrite bool_decide_eq_true_2 by done. rewrite app_nil_r. cbn [app]. f_equal.
  induction (s_tests s) as [|c cs IH]; [done|]. cbn [fmap list_fmap concat].
  by rewrite case_xml_elements, IH.
Qed.
Lemma suite_cases str_time t a cs :
  getElementsByTagName "testcase" (Elem t a (case_xml str_time <$> cs)) = case_xml str_time <$> cs.
Proof.
  unfold getElementsByTagName. cbn [childNodes].
  induction cs as [|c cs IH]; [done|]. cbn [fmap list_fmap concat].
  rewrite case_xml_elements. cbn [app]. by f_equal.
Qed.

(** Reading back the report of a suite: the failed list is exactly the failing
    tests, with their parameters and in order; the passed list has only the
    tests before the first failure of the suite, because the flag that
    marks a failure is never cleared, so passing tests that follow a
    failing one are in neither list. *)
Theorem junit_reads_report str_time s ps fls :
  junit_suites (to_xml str_time s) (ps, fls) =
    (ps ++ (full_name <$> passing_prefix (s_tests s)),
     fls ++ (full_name <$> filter (λ c, is_Some (c_error c)) (s_tests s))).
Proof.
  unfold junit_suites. destruct (to_xml_suites str_time s) as [a ->]. cbn [foldl fst snd].
  by rewrite suite_cases, junit_cases_spec.
Qed.

(** ** Proofs: configuration files *)

(** A word with no white space at either end. *)
Definition clean (s : pystr) : Prop :=
  (∃ c s', s = c :: s' ∧ is_space c = false) ∧ (∃ s' c, s = s' ++ [c] ∧ is_space c = false).

Lemma lstrip_spaces p ws s : forallb p ws = true → lstrip_by p (ws ++ s) = lstrip_by p s.
Proof. induction ws as [|c ws IH]; [done|]. cbn. intros [-> Hw]%andb_prop. by apply IH. Qed.
Lemma forallb_rev {A} (p : A → bool) l : forallb p (rev l) = forallb p l.
Proof.
  induction l as [|a l IH]; [done|]. cbn. rewrite forallb_app, IH. cbn. destruct (p a), (forallb p l); done.
Qed.
Lemma strip_clean ws1 s ws2 :
  clean s → forallb is_space ws1 = true → forallb is_space ws2 = true → strip (ws1 ++ s ++ ws2) = s.
Proof.
  intros [(c & s1 & E1 & Hc) (s2 & d & E2 & Hd)] H1 H2. unfold strip, rstrip_by.
  rewrite lstrip_spaces by done.
  replace (lstrip_by is_space (s ++ ws2)) with (s ++ ws2) by (rewrite E1; cbn; by rewrite Hc).
  rewrite rev_app_distr, lstrip_spaces by (by rewrite forallb_rev).
  rewrite E2, rev_app_distr. cbn. rewrite Hd. cbn. by rewrite rev_involutive.
Qed.
Lemma split_once_app c w s : c ∉ w → split_once c (w ++ c :: s) = [w; s].
Proof.
  induction w as [|a w IH]; cbn; [by rewrite bool_decide_eq_true_2|].
  intros [Ha Hw]%not_elem_of_cons. rewrite bool_decide_eq_false_2 by done. by rewrite IH.
Qed.
Lemma split_on_snoc c s w : c ∉ w → split_on c (s ++ c :: w) = split_on c s ++ [w].
Proof.
  intros Hw. induction s as [|a s IH].
  - rewrite (split_on_app c []), split_on_word by set_solver. done.
  - cbn [app]. unfold split_on; fold split_on. rewrite IH. case_bool_decide; [done|].
    destruct (split_on c s) eqn:E; [by apply split_on_not_nil in E|done].
Qed.
Lemma parent_dot m w : "."%char ∉ w → parent (m ++ py "." ++ w) = m.
Proof.
  intros Hw. unfold parent. change (py "." ++ w) with ("."%char :: w).
  rewrite split_on_snoc by done. rewrite removelast_last. apply (join_split_on "."%char).
Qed.
Lemma cut_dot m t : ","%char ∉ m → cut (m ++ py "." ++ t) = m ++ py "." ++ cut t.
Proof.
  intros Hm. unfold cut. induction m as [|c m IH].
  - change ([] ++ py "." ++ t) with ("."%char :: t). unfold split_on at 1; fold split_on. cbn [app].
    destruct (split_on ","%char t) eqn:E; [by apply split_on_not_nil in E|done].
  - apply not_elem_of_cons in Hm as [Hc Hm]. specialize (IH Hm). cbn [app] in *.
    unfold split_on at 1; fold split_on. rewrite bool_decide_eq_false_2 by done.
    destruct (split_on ","%char (m ++ py "." ++ t)) eqn:E; [by apply split_on_not_nil in E|].
    cbn in *. by f_equal.
Qed.
Lemma endswith_snoc s c d : endswith [d] (s ++ [c]) = bool_decide (c = d).
Proof.
  unfold endswith. rewrite rev_app_distr. cbn. by repeat case_bool_decide; subst.
Qed.

(** A test module, a test of it with its parameters, and a parameter, as they may be
    written in a file. *)
Definition not_comment (s : pystr) : Prop := head s ≠ Some "#"%char.
Definition no_colon_end (s : pystr) : Prop := last s ≠ Some ":"%char.
Definition good_module (m : pystr) : Prop :=
  clean m ∧ not_comment m ∧ ":"%char ∉ m ∧ ","%char ∉ m ∧ lower m ≠ py "params".
Definition good_test (m t : pystr) : Prop :=
  clean t ∧ not_comment t ∧ no_colon_end t ∧ "."%char ∉ cut t ∧ has_star (m ++ py "." ++ t) = false.
Definition good_param (kv : pystr * pystr) : Prop :=
  clean kv.1 ∧ clean kv.2 ∧ not_comment kv.1 ∧ "="%char ∉ kv.1 ∧ no_colon_end kv.2.

Definition indented (s : pystr) : pystr := py "    " ++ s ++ newline.
Definition heading (s : pystr) : pystr := (s ++ py ":") ++ newline.
Definition section_lines (mt : pystr * list pystr) : list pystr := heading mt.1 :: (indented <$> mt.2).
(** The full names of the tests of a section. *)
Definition section_tests (mt : pystr * list pystr) : list pystr := (λ t, mt.1 ++ py "." ++ t) <$> mt.2.
Definition conf_text (sections : list (pystr * list pystr)) (params : list (pystr * pystr)) : list pystr :=
  concat (section_lines <$> sections) ++
  heading (py "params") :: ((λ kv, indented (kv.1 ++ py "=" ++ kv.2)) <$> params).

Lemma clean_app s t : clean s → clean t → ∀ m, clean (s ++ m ++ t).
Proof.
  intros [(c & s1 & -> & Hc) _] [_ (t1 & d & -> & Hd)] m. split.
  - by exists c, (s1 ++ m ++ t1 ++ [d]).
  - exists (c :: s1 ++ m ++ t1), d. split; [|done]. cbn. by rewrite <- !app_assoc.
Qed.
Lemma clean_colon : clean (py ":").
Proof. split; [by exists ":"%char, []|by exists [], ":"%char]. Qed.
Lemma not_comment_app s t : clean s → not_comment s → startswith (py "#") (s ++ t) = false.
Proof.
  intros [(c & s' & -> & _) _] Hn. cbn. change (py "#") with ["#"%char]. cbn.
  rewrite bool_decide_eq_false_2; [done|]. intros E. apply Hn. by rewrite E.
Qed.
Lemma not_colon s t : clean t → no_colon_end t → endswith (py ":") (s ++ t) = false.
Proof.
  intros [_ (t' & d & -> & _)] Hn. rewrite app_assoc. change (py ":") with [":"%char].
  rewrite endswith_snoc. apply bool_decide_eq_false_2. intros ->. apply Hn. by rewrite last_snoc.
Qed.
Lemma clean_not_nil s : clean s → s ≠ [].
Proof. by intros [(? & ? & -> & _) _]. Qed.
Lemma strip_indented s : clean s → strip (indented s) = s.
Proof. intros. by apply strip_clean. Qed.
Lemma strip_heading s : clean s → strip (heading s) = s ++ py ":".
Proof. intros. apply (strip_clean []); [|done|done]. apply (clean_app _ _ H clean_colon []). Qed.

Section ConfProofs.
Context (load : pystr → res (list pystr)).

Lemma conf_heading m c :
  clean m → not_comment m → ":"%char ∉ m →
  conf_line load (heading m) c = Ok (Conf (Some m) (cf_tests c) (cf_params c)).
Proof.
  intros Hc Hn Hm. unfold conf_line. rewrite strip_heading by done. rewrite not_comment_app by done.
  rewrite bool_decide_eq_false_2 by (by intros [? _]%app_nil; apply (clean_not_nil m)).
  change (py ":") with [":"%char]. rewrite endswith_snoc, bool_decide_eq_true_2 by done. cbn [orb].
  by rewrite split_on_app.
Qed.

Lemma conf_test m t c :
  good_module m → good_test m t → cf_prefix c = Some m →
  conf_line load (indented t) c =
    Ok (Conf (Some m) (cf_tests c ++ [m ++ py "." ++ t]) (cf_params c)).
Proof.
  intros (Hm & _ & _ & Hcm & Hl) (Ht & Hn & Hc & Hd & Hs) Hp. unfold conf_line.
  rewrite strip_indented by done. rewrite <- (app_nil_r t) at 1. rewrite not_comment_app by done.
  rewrite bool_decide_eq_false_2 by (by apply clean_not_nil). cbn [orb].
  pose proof (not_colon [] t Ht Hc) as Hend. cbn [app] in Hend. rewrite Hend. unfold prefix_of. rewrite Hp.
  destruct m as [|a m]; [by apply clean_not_nil in Hm|]. cbv zeta.
  rewrite bool_decide_eq_false_2 by done. change (startswith (py " ") (indented t)) with true. cbv iota.
  fold (cut ((a :: m) ++ py "." ++ t)). rewrite cut_dot, parent_dot by done.
  unfold append_test. rewrite Hs, andb_false_r. done.
Qed.

Lemma conf_param kv c :
  good_param kv → cf_prefix c = Some (py "params") →
  conf_line load (indented (kv.1 ++ py "=" ++ kv.2)) c =
    Ok (Conf (Some (py "params")) (cf_tests c) (<[kv.1 := PStr kv.2]> (cf_params c))).
Proof.
  intros (Hk & Hv & Hn & He & Hc) Hp. unfold conf_line.
  rewrite strip_indented by (by apply clean_app). rewrite not_comment_app by done.
  rewrite bool_decide_eq_false_2 by (by intros [? _]%app_nil; apply (clean_not_nil kv.1)). cbn [orb].
  rewrite app_assoc, not_colon, <- app_assoc by done. unfold prefix_of. rewrite Hp.
  change (py "=" ++ kv.2) with ("="%char :: kv.2). rewrite split_once_app by done. done.
Qed.

Lemma conf_lines_app l1 l2 c : conf_lines load (l1 ++ l2) c = (conf_lines load l1 c ≫= conf_lines load l2).
Proof.
  revert c. induction l1 as [|l l1 IH]; intros c; [done|]. cbn.
  destruct (conf_line load l c); [|done]. cbn. apply IH.
Qed.
Lemma conf_tests m ts c :
  good_module m → Forall (good_test m) ts → cf_prefix c = Some m →
  conf_lines load (indented <$> ts) c =
    Ok (Conf (Some m) (cf_tests c ++ ((λ t, m ++ py "." ++ t) <$> ts)) (cf_params c)).
Proof.
  intros Hm Hts. revert c. induction Hts as [|t ts Ht Hts IH]; intros c Hp.
  - cbn. rewrite app_nil_r, <- Hp. by destruct c.
  - rewrite fmap_cons. cbn [conf_lines]. rewrite (conf_test m) by done. cbn [mbind res_bind].
    rewrite IH by done. cbn. by rewrite <- app_assoc.
Qed.
Lemma conf_params kvs c :
  Forall good_param kvs → cf_prefix c = Some (py "params") →
  conf_lines load ((λ kv, indented (kv.1 ++ py "=" ++ kv.2)) <$> kvs) c =
    Ok (Conf (Some (py "params")) (cf_tests c) (foldl (λ p kv, <[kv.1 := PStr kv.2]> p) (cf_params c) kvs)).
Proof.
  intros Hk. revert c. induction Hk as [|kv kvs Hkv Hk IH]; intros c Hp.
  - cbn. rewrite <- Hp. by destruct c.
  - rewrite fmap_cons. cbn [conf_lines]. rewrite conf_param by done. cbn [mbind res_bind]. by rewrite IH.
Qed.
Lemma conf_sections sections c :
  Forall (λ mt, good_module mt.1 ∧ Forall (good_test mt.1) mt.2) sections →
  ∃ p, conf_lines load (concat (section_lines <$> sections)) c =
    Ok (Conf p (cf_tests c ++ concat (section_tests <$> sections)) (cf_params c)).
Proof.
  intros Hs. revert c. induction Hs as [|[m ts] sections [Hm Hts] Hs IH]; intros c.
  - exists (cf_prefix c). cbn. rewrite app_nil_r. by destruct c.
  - rewrite !fmap_cons. cbn [concat]. rewrite conf_lines_app.
    change (section_lines (m, ts)) with (heading m :: (indented <$> ts)). cbn [conf_lines].
    pose proof Hm as (H1 & H2 & H3 & _). rewrite conf_heading by done. cbn [mbind res_bind].
    rewrite (conf_tests m) by done. cbn [mbind res_bind].
    destruct (IH (Conf (Some m) (cf_tests c ++ ((λ t, m ++ py "." ++ t) <$> ts)) (cf_params c))) as [p Hp].
    exists p. cbn [cf_tests cf_params] in Hp. unfold mbind, res_bind. cbn [cf_tests cf_params]. rewrite Hp. by rewrite <- app_assoc.
Qed.
End ConfProofs.

(** C37: A configuration file with sections of tests under their module names,
    followed by a [params:] section, parses to the tests [module.test] with their
    parameters, in the order of the file, and to the parameters of its last section over those
    given; [spec] defaults to the name of the file. *)
Theorem conf_file_roundtrip load fs filename sections kvs tests params :
  filename ≠ [] → fs !! filename = Some (conf_text sections kvs) →
  Forall (λ mt, good_module mt.1 ∧ Forall (good_test mt.1) mt.2) sections →
  Forall good_param kvs →
  parse_conf_file load fs filename tests params =
    let ps := foldl (λ p kv, <[kv.1 := PStr kv.2]> p) params kvs in
    Ok (tests ++ concat (section_tests <$> sections),
        <[py "conf_file" := PStr filename]>
          (if bool_decide (is_Some (ps !! py "spec")) then ps
           else <[py "spec" := PStr (splitext_root (basename filename))]> ps)).
Proof.
  intros Hne Hfs Hs Hk. unfold parse_conf_file, locate_conf_file.
  rewrite bool_decide_eq_false_2, Hfs by done. unfold conf_text.
  rewrite conf_lines_app. destruct (conf_sections load sections (Conf None tests params) Hs) as [p ->].
  cbn [mbind res_bind conf_lines cf_tests cf_params].
  rewrite conf_heading; [|split; [by exists "p"%char, (py "arams")|by exists (py "param"), "s"%char]|done|].
  - cbn [mbind res_bind]. rewrite conf_params by done. done.
  - by apply (bool_decide_unpack (_ ∉ _)); vm_compute.
Qed.

(** Concrete words are clean by computation. *)
Definition cleanb (s : pystr) : bool :=
  match head s, last s with
  | Some a, Some b => negb (is_space a) && negb (is_space b)
  | _, _ => false
  end.
Lemma cleanb_clean s : cleanb s = true → clean s.
Proof.
  unfold cleanb. destruct s as [|a s]; [done|]. cbn [head].
  destruct (last (a :: s)) as [b|] eqn:E; [|done]. intros [Ha Hb]%andb_prop. split.
  - exists a, s. by destruct (is_space a).
  - apply last_Some in E as [s' E]. exists s', b. by destruct (is_space b).
Qed.
Ltac solve_word := first
  [ apply cleanb_clean; vm_compute; reflexivity
  | apply (bool_decide_unpack (_ ∉ _)); vm_compute; exact I
  | apply (bool_decide_unpack (_ ≠ _)); vm_compute; exact I
  | vm_compute; reflexivity ].
Lemma conf_file_roundtrip_witness :
  let fs : fsys := {[py "conf/sanity.conf" := conf_text
    [(py "epengine.basic_ops.basic_ops", [py "test_doc_size,nodes_init=1,GROUP=P0"; py "test_large_doc_size"])]
    [(py "replicas", py "1")]]} in
  parse_conf_file (λ _, raise ImportError) fs (py "conf/sanity.conf") [] ∅ =
    Ok ([py "epengine.basic_ops.basic_ops.test_doc_size,nodes_init=1,GROUP=P0";
         py "epengine.basic_ops.basic_ops.test_large_doc_size"],
        <[py "conf_file" := PStr (py "conf/sanity.conf")]>
          (<[py "spec" := PStr (py "sanity")]> {[py "replicas" := PStr (py "1")]})).
Proof.
  intros fs.
  rewrite (conf_file_roundtrip (λ _, raise ImportError) fs (py "conf/sanity.conf")
    [(py "epengine.basic_ops.basic_ops", [py "test_doc_size,nodes_init=1,GROUP=P0"; py "test_large_doc_size"])]
    [(py "replicas", py "1")] [] ∅).
  - reflexivity.
  - solve_word.
  - reflexivity.
  - repeat constructor; unfold not_comment, no_colon_end; cbn [fst snd]; solve_word.
  - repeat constructor; unfold not_comment, no_colon_end; cbn [fst snd]; solve_word.
Defined.

(** ** Proofs: the parameters of a test *)

(** What a test sees does not depend on the tests before it: a parameter comes
    from the command line when it is given there, else from the configuration
    file's [params:] section and the runner's options, else from the test's own line; the
    case number and the log folder are the runner's whatever
    was given, [rerun] defaults to false, and different case numbers have
    different log folders. *)
Theorem test_parameters input args line n root :
  let folder := λ m, root ++ py "/test_" ++ str_of_Z m in
  let p := test_params (input ∪ args) (params_of line) n (folder n) in
  (∀ k, k ∉ [py "case_number"; py "logs_folder"; py "rerun"] →
     p !! k = match input !! k, args !! k with
              | Some v, _ => Some v
              | None, Some v => Some v
              | None, None => PStr <$> params_of line !! k
              end) ∧
  p !! py "case_number" = Some (PInt n) ∧ p !! py "logs_folder" = Some (PStr (folder n)) ∧
  (input !! py "rerun" = None → args !! py "rerun" = None → params_of line !! py "rerun" = None →
     p !! py "rerun" = Some (PBool false)) ∧
  (∀ m, folder m = folder n → m = n).
Proof.
  intros folder p. unfold p, test_params. split_and!.
  - intros k Hk. assert (∀ q : tparams, (if bool_decide (is_Some (q !! py "rerun")) then q
      else <[py "rerun" := PBool false]> q) !! k = q !! k) as ->.
    { intros q. case_bool_decide; [done|]. rewrite lookup_insert_ne; [done|set_solver]. }
    rewrite !lookup_insert_ne by set_solver. rewrite !lookup_union, lookup_fmap.
    by destruct (input !! k), (args !! k), (params_of line !! k).
  - case_bool_decide; by rewrite !lookup_insert_ne, lookup_insert_eq by done.
  - case_bool_decide; [by rewrite lookup_insert_eq|]. by rewrite lookup_insert_ne, lookup_insert_eq by done.
  - intros H1 H2 H3. rewrite bool_decide_eq_false_2; [by rewrite lookup_insert_eq|].
    rewrite !lookup_insert_ne, !lookup_union, lookup_fmap, H1, H2, H3 by done. by intros [? [=]].
  - intros m H. do 2 apply app_inv_head in H. by apply str_of_Z_inj.
Qed.
Lemma test_parameters_witness :
  test_params ({[py "replicas" := PStr (py "2")]} ∪ {[py "replicas" := PStr (py "1")]})
    (params_of (py "a.B.t,replicas=0,items=5")) 1 (py "logs" ++ py "/test_" ++ str_of_Z 1) !! py "replicas"
  = Some (PStr (py "2")).
Proof.
  destruct (test_parameters {[py "replicas" := PStr (py "2")]} {[py "replicas" := PStr (py "1")]}
    (py "a.B.t,replicas=0,items=5") 1 (py "logs")) as [H _].
  rewrite (H (py "replicas")); [reflexivity|]. by apply (bool_decide_unpack (_ ∉ _)); vm_compute.
Defined.
