(* ===== verification/Bucket.v ===== *)
(** * lib/BucketLib/bucket.py and the scope and collection bookkeeping

    The objects in which a test keeps what it believes about a bucket: [Bucket],
    [Scope] and [Collection], their constructors and static methods, the
    sample buckets, and the classes [CollectionUtils] and [ScopeUtils] of
    couchbase_utils/bucket_utils/bucket_ready_functions.py, which change the
    cluster over REST and the objects along with it.  The cluster is an
    interface: class [Manifest] has the REST calls, [ManifestLaws] what the server
    documents about them. *)

From stdpp Require Import sorting.
From S2P Require Import Prelude Py.
Local Open Scope Z_scope.
#[local] Arguments py : simpl never.

(** ** lib/Cb_constants/CBServer.py *)

Module CbServer.
Definition default_scope := py "_default".
Definition default_collection := py "_default".
Definition system_scope := py "_system".
Definition eventing_collection := py "_eventing".
Definition mobile_collection := py "_mobile".
Definition query_collection := py "_query".
Definition regulator_collection := py "_regulator".
Definition transaction_collection := py "_transactions".
Definition max_bucket_name_len := 100.
Definition max_scope_name_len := 251.
Definition max_collection_name_len := 251.
End CbServer.

(** ** lib/common_lib.py: Counter *)

(** [get_next] under the counter's lock: the number and the new index. *)
Definition Counter := Z.
Definition get_next (c : Counter) : Z * Counter := (c, c + 1).

(** ** Values of bucket parameters *)

Inductive pv := PNone | PBool (b : bool) | PInt (n : Z) | PStr (s : pystr).
#[global] Instance pv_eq_dec : EqDecision pv.
Proof. solve_decision. Defined.

(** Truth of a value, and [int(v)]. *)
Definition truthy (v : pv) : bool :=
  match v with
  | PNone => false
  | PBool b => b
  | PInt n => negb (n =? 0)
  | PStr s => negb (bool_decide (s = []))
  end.
Definition int_of (v : pv) : res Z :=
  match v with
  | PNone => raise TypeError
  | PBool b => Ok (if b then 1 else 0)
  | PInt n => Ok n
  | PStr s => int_of_str s
  end.
(** [d.get(k, default)] *)
Definition get_def {V} (d : gmap pystr V) (k : pystr) (default : V) : V :=
  match d !! k with Some v => v | None => default end.

(** ** Scopes and collections *)

(** The specification dictionary of a collection.  Every caller gives a name. *)
Record cspec := CSpec {
  cs_name : pystr; cs_num_items : option Z; cs_maxTTL : option Z; cs_history : option pv
}.
Record collection := MkCollection {
  c_name : pystr; num_items : Z; maxTTL : Z; history : pv;
  c_is_dropped : bool; c_recreated : Z;
  doc_index : Z * Z; sub_doc_index : Z * Z
}.
Record scope := MkScope {
  s_name : pystr; collections : gmap pystr collection;
  s_is_dropped : bool; s_recreated : Z
}.

Definition opt_get {A} (o : option A) (default : A) : A :=
  match o with Some a => a | None => default end.

Definition Collection (spec : cspec) : collection :=
  MkCollection (cs_name spec) (opt_get (cs_num_items spec) 0) (opt_get (cs_maxTTL spec) 0)
    (opt_get (cs_history spec) (PStr (py "false"))) false 0 (0, 0) (0, 0).
Definition Scope (name : pystr) : scope := MkScope name ∅ false 0.

(** [Collection.get_dict_object] and [Scope.get_dict_object] *)
Definition collection_dict (c : collection) : cspec :=
  CSpec (c_name c) None (Some (maxTTL c)) (Some (history c)).
Definition scope_dict (s : scope) : pystr := s_name s.

(** The static methods [Collection.flushed], [Collection.recreated] and
    [Scope.recreated]. *)
Definition flushed (skip_resetting_num_items : bool) (c : collection) : collection :=
  MkCollection (c_name c) (if negb skip_resetting_num_items then 0 else num_items c)
    (maxTTL c) (history c) (c_is_dropped c) (c_recreated c) (0, 0) (0, 0).
Definition collection_recreated (spec : cspec) (c : collection) : collection :=
  MkCollection (c_name c) (opt_get (cs_num_items spec) 0) (opt_get (cs_maxTTL spec) 0)
    (opt_get (cs_history spec) (PStr (py "false"))) false (c_recreated c + 1) (0, 0)
    (sub_doc_index c).
Definition scope_recreated (s : scope) : scope :=
  MkScope (s_name s) (collections s) false (s_recreated s + 1).

(** Attribute writes *)
Definition set_c_dropped (c : collection) : collection :=
  MkCollection (c_name c) (num_items c) (maxTTL c) (history c) true (c_recreated c)
    (doc_index c) (sub_doc_index c).
Definition set_num_items (n : Z) (c : collection) : collection :=
  MkCollection (c_name c) n (maxTTL c) (history c) (c_is_dropped c) (c_recreated c)
    (doc_index c) (sub_doc_index c).
Definition set_history (h : pv) (c : collection) : collection :=
  MkCollection (c_name c) (num_items c) (maxTTL c) h (c_is_dropped c) (c_recreated c)
    (doc_index c) (sub_doc_index c).
Definition set_s_dropped (s : scope) : scope :=
  MkScope (s_name s) (collections s) true (s_recreated s).
Definition with_collections (f : gmap pystr collection → gmap pystr collection) (s : scope) : scope :=
  MkScope (s_name s) (f (collections s)) (s_is_dropped s) (s_recreated s).

(** ** Buckets *)

Record bucket_stats := BucketStats {
  itemCount : Z; diskUsed : Z; memUsed : Z; ram : Z; manifest_uid : Z; expected_item_count : Z
}.
Record Serverless := MkServerless { sl_width : pv; sl_weight : pv }.

(** The attributes that come from [new_params]. *)
Record props := Props {
  p_name : pystr; bucketType : pv; replicaNumber : pv; ramQuotaMB : pv; replicaIndex : pv;
  storageBackend : pv; priority : pv; uuid : pv; conflictResolutionType : pv; b_maxTTL : pv;
  flushEnabled : pv; compressionMode : pv; durability_level : pv; purge_interval : pv;
  autoCompactionDefined : pv; fragmentationPercentage : pv;
  historyRetentionCollectionDefault : pv; historyRetentionBytes : pv; historyRetentionSeconds : pv;
  magmaKeyTreeDataBlockSize : pv; magmaSeqTreeDataBlockSize : pv; evictionPolicy : pv;
  num_vbuckets : option Z
}.
Record bucket := MkBucket {
  b_props : props; bucketCapabilities : list pystr; b_stats : bucket_stats;
  scopes : gmap pystr scope; serverless : option Serverless
}.
Definition b_name (b : bucket) : pystr := p_name (b_props b).
Definition with_scopes (f : gmap pystr scope → gmap pystr scope) (b : bucket) : bucket :=
  MkBucket (b_props b) (bucketCapabilities b) (b_stats b) (f (scopes b)) (serverless b).
Definition with_stats (f : bucket_stats → bucket_stats) (b : bucket) : bucket :=
  MkBucket (b_props b) (bucketCapabilities b) (f (b_stats b)) (scopes b) (serverless b).
Definition with_props (f : props → props) (b : bucket) : bucket :=
  MkBucket (f (b_props b)) (bucketCapabilities b) (b_stats b) (scopes b) (serverless b).

(** [bucket.scopes[s].collections[c]] updated in place. *)
Definition on_collection (sn cn : pystr) (f : collection → collection) (b : bucket) : bucket :=
  with_scopes (alter (with_collections (alter f cn)) sn) b.
Definition get_collection (b : bucket) (sn cn : pystr) : res collection :=
  s ← dict_get (scopes b) sn; dict_get (collections s) cn.

(** The enumerations of class [Bucket]. *)
Module Type_.
Definition EPHEMERAL := py "ephemeral".
Definition MEMBASE := py "couchbase".
Definition MEMCACHED := py "memcached".
End Type_.
Module EvictionPolicy.
Definition FULL_EVICTION := py "fullEviction".
Definition NO_EVICTION := py "noEviction".
Definition NRU_EVICTION := py "nruEviction".
Definition VALUE_ONLY := py "valueOnly".
End EvictionPolicy.
Module DurabilityLevel.
Definition NONE := py "NONE".
Definition MAJORITY := py "MAJORITY".
Definition MAJORITY_AND_PERSIST_TO_ACTIVE := py "MAJORITY_AND_PERSIST_TO_ACTIVE".
Definition PERSIST_TO_MAJORITY := py "PERSIST_TO_MAJORITY".
End DurabilityLevel.
Module StorageBackend.
Definition magma := py "magma".
Definition couchstore := py "couchstore".
End StorageBackend.

(** [Bucket.__init__]: [cluster_profile] is [CbServer.cluster_profile], and the name, which
    is always a string, stands apart from the other parameters. *)
Definition init_props (name : option pystr) (new_params : gmap pystr pv) : res props :=
  let get k d := get_def new_params (py k) d in
  let bucketType := get "bucketType" (PStr Type_.MEMBASE) in
  let evictionPolicy :=
    if bool_decide (bucketType = PStr Type_.EPHEMERAL) then
      let p := get "evictionPolicy" (PStr EvictionPolicy.NO_EVICTION) in
      if bool_decide (p ∈ [PStr EvictionPolicy.NRU_EVICTION; PStr EvictionPolicy.NO_EVICTION])
      then p else PStr EvictionPolicy.NO_EVICTION
    else get "evictionPolicy" (PStr EvictionPolicy.FULL_EVICTION) in
  let num_vbs := get "numVBuckets" PNone in
  num_vbuckets ← (if (truthy num_vbs : bool) then Some <$> int_of num_vbs else Ok None);
  Ok (Props (opt_get name (py "default")) bucketType
        (get "replicaNumber" (PInt 1)) (get "ramQuotaMB" (PInt 256)) (get "replicaIndex" (PInt 1))
        (get "storageBackend" (PStr StorageBackend.magma)) (get "priority" (PStr (py "low"))) PNone
        (get "conflictResolutionType" (PStr (py "seqno"))) (get "maxTTL" (PInt 0))
        (get "flushEnabled" (PInt 0)) (get "compressionMode" (PStr (py "passive")))
        (get "durabilityMinLevel" (PStr (lower DurabilityLevel.NONE))) (get "purge_interval" (PInt 1))
        (get "autoCompactionDefined" (PStr (py "false"))) (get "fragmentationPercentage" (PBool false))
        (get "historyRetentionCollectionDefault" (PStr (py "true")))
        (get "historyRetentionBytes" (PInt 0)) (get "historyRetentionSeconds" (PInt 0))
        (get "magmaKeyTreeDataBlockSize" (PInt 4096)) (get "magmaSeqTreeDataBlockSize" (PInt 4096))
        evictionPolicy num_vbuckets).

(** The history setting of a collection that is not told one. *)
Definition default_history (p : props) : pv :=
  if bool_decide (storageBackend p = PStr StorageBackend.magma)
  then historyRetentionCollectionDefault p else PStr (py "false").

(** [scope.collections[c_name] = Collection({"name": c_name})] for each name. *)
Definition add_named (names : list pystr) (cols : gmap pystr collection) : gmap pystr collection :=
  foldl (λ m n, <[n := Collection (CSpec n None None None)]> m) cols names.

Definition default_scope_obj (p : props) : scope :=
  with_collections
    (insert CbServer.default_collection
       (Collection (CSpec CbServer.default_collection None None (Some (default_history p)))))
    (Scope CbServer.default_scope).
Definition system_scope_obj (cluster_profile : pystr) : scope :=
  with_collections
    (λ m, let m := add_named [CbServer.query_collection; CbServer.mobile_collection] m in
          if bool_decide (cluster_profile = py "serverless")
          then add_named [CbServer.eventing_collection; CbServer.transaction_collection] m else m)
    (Scope CbServer.system_scope).

Definition init_serverless (new_params : gmap pystr pv) : option Serverless :=
  match get_def new_params (py "width") PNone, get_def new_params (py "weight") PNone with
  | PNone, _ | _, PNone => None
  | width, weight => Some (MkServerless width weight)
  end.

Definition Bucket_init (cluster_profile : pystr) (name : option pystr) (new_params : gmap pystr pv) :
    res bucket :=
  p ← init_props name new_params;
  Ok (MkBucket p [] (BucketStats 0 0 0 0 0 0)
        (<[CbServer.system_scope := system_scope_obj cluster_profile]>
           (<[CbServer.default_scope := default_scope_obj p]> ∅))
        (init_serverless new_params)).

(** [Bucket.set_defaults] *)
Definition set_default_props (p : props) : props :=
  let dflt (v d : pv) := if bool_decide (v = PNone) then d else v in
  let seq_tree := dflt (magmaSeqTreeDataBlockSize p) (PInt 4096) in
  let key_tree := if bool_decide (seq_tree = PNone) then PInt 4096 else magmaKeyTreeDataBlockSize p in
  Props (p_name p) (bucketType p) (replicaNumber p) (ramQuotaMB p) (replicaIndex p)
    (storageBackend p) (priority p) (uuid p) (conflictResolutionType p) (b_maxTTL p)
    (flushEnabled p) (compressionMode p) (durability_level p) (purge_interval p)
    (autoCompactionDefined p) (fragmentationPercentage p)
    (dflt (historyRetentionCollectionDefault p) (PStr (py "true")))
    (dflt (historyRetentionBytes p) (PInt 0)) (dflt (historyRetentionSeconds p) (PInt 0))
    key_tree seq_tree (evictionPolicy p) (num_vbuckets p).
Definition set_defaults : M bucket unit :=
  p ← gets b_props;
  if bool_decide (storageBackend p = PStr StorageBackend.magma) then
    _ ← modify (with_props set_default_props);
    b ← get;
    _ ← lift (get_collection b CbServer.default_scope CbServer.default_collection);
    modify (on_collection CbServer.default_scope CbServer.default_collection
              (set_history (historyRetentionCollectionDefault (b_props b))))
  else mret tt.

(** The sample buckets. *)
Definition set_expected_item_count (n : Z) (s : bucket_stats) : bucket_stats :=
  BucketStats (itemCount s) (diskUsed s) (memUsed s) (ram s) (manifest_uid s) n.
Definition sample_bucket (profile name : pystr) (total in_default : Z) : res bucket :=
  b ← Bucket_init profile (Some name) ∅;
  let b := with_stats (set_expected_item_count total) b in
  _ ← get_collection b CbServer.default_scope CbServer.default_collection;
  Ok (on_collection CbServer.default_scope CbServer.default_collection (set_num_items in_default) b).
Definition inventory_collections : list (pystr * Z) :=
  [(py "airline", 187); (py "airport", 1968); (py "hotel", 917); (py "landmark", 4495);
   (py "route", 24024)].
Definition TravelSample (profile : pystr) : res bucket :=
  b ← sample_bucket profile (py "travel-sample") 63288 31591;
  let s_name := py "inventory" in
  let scope := foldl
    (λ s '(n, items), with_collections
       (insert s_name (Collection (CSpec n (Some items) None None))) s)
    (Scope s_name) inventory_collections in
  Ok (with_scopes (insert s_name scope) b).
Definition BeerSample (profile : pystr) : res bucket :=
  sample_bucket profile (py "beer-sample") 7303 7303.
Definition GamesimSample (profile : pystr) : res bucket :=
  sample_bucket profile (py "gamesim-sample") 586 586.

(** [BucketStats.increment_manifest_uid] *)
Definition increment_manifest_uid (b : bucket) : bucket :=
  with_stats (λ s, BucketStats (itemCount s) (diskUsed s) (memUsed s) (ram s)
                     (manifest_uid s + 1) (expected_item_count s)) b.

(** ** CollectionUtils and ScopeUtils: the objects *)

Definition get_scope_obj (b : bucket) (scope_name : pystr) : option scope := scopes b !! scope_name.
Definition get_collection_obj (s : scope) (collection_name : pystr) : option collection :=
  collections s !! collection_name.

(** An attribute of [None] is read when the object is missing. *)
Definition some_scope (b : bucket) (scope_name : pystr) : res scope :=
  of_option AttributeError (get_scope_obj b scope_name).
Definition some_collection (s : scope) (collection_name : pystr) : res collection :=
  of_option AttributeError (get_collection_obj s collection_name).

(** [get_active_collections] with its names and objects; [only_names] selects
    the first or the second component. *)
Definition get_active_collections (b : bucket) (scope_name : pystr) : res (list (pystr * collection)) :=
  s ← some_scope b scope_name;
  Ok (List.filter (λ nc, negb (c_is_dropped nc.2)) (map_to_list (collections s))).
Definition get_active_scopes (b : bucket) : list (pystr * scope) :=
  List.filter (λ ns, negb (s_is_dropped ns.2)) (map_to_list (scopes b)).

(** [create_collection_object]: the specification gets its history setting. *)
Definition with_history (b : bucket) (spec : cspec) : cspec :=
  match cs_history spec with
  | Some _ => spec
  | None => CSpec (cs_name spec) (cs_num_items spec) (cs_maxTTL spec) (Some (default_history (b_props b)))
  end.
Definition create_collection_object (scope_name : pystr) (spec : cspec) : M bucket cspec :=
  b ← get;
  s ← lift (some_scope b scope_name);
  let spec := with_history b spec in
  let c := match get_collection_obj s (cs_name spec) with
           | Some c => collection_recreated spec c
           | None => Collection spec
           end in
  _ ← modify (with_scopes (alter (with_collections (insert (cs_name spec) c)) scope_name));
  mret spec.

Definition mark_collection_as_dropped (scope_name collection_name : pystr) : M bucket unit :=
  b ← get;
  s ← lift (some_scope b scope_name);
  _ ← lift (some_collection s collection_name);
  modify (on_collection scope_name collection_name set_c_dropped).
Definition mark_collection_as_flushed (skip : bool) (scope_name collection_name : pystr) :
    M bucket unit :=
  b ← get;
  s ← lift (some_scope b scope_name);
  _ ← lift (some_collection s collection_name);
  modify (on_collection scope_name collection_name (flushed skip)).

(** [create_scope_object]: a scope that was dropped is used again. *)
Definition create_scope_object (name : pystr) : M bucket unit :=
  b ← get;
  match get_scope_obj b name with
  | Some s => modify (with_scopes (insert name (scope_recreated s)))
  | None => modify (with_scopes (insert name (Scope name)))
  end.

(** [mark_scope_as_dropped]: every collection is looked up under the name the
    scope object has. *)
Definition mark_scope_as_dropped (scope_name : pystr) : M bucket unit :=
  b ← get;
  s ← lift (some_scope b scope_name);
  _ ← mfor (fst <$> map_to_list (collections s)) (mark_collection_as_dropped (s_name s));
  modify (with_scopes (alter set_s_dropped scope_name)).

(** ** CollectionUtils and ScopeUtils: the cluster *)

(** The calls of [BucketHelper] for the scopes of one bucket; the Boolean is the
    [status] they return.  Their code sends one HTTP request each. *)
Class Manifest (W : Type) := {
  rest_create_scope : pystr → W → bool * W;
  rest_delete_scope : pystr → W → bool * W;
  rest_create_collection : pystr → cspec → W → bool * W;
  rest_delete_collection : pystr → pystr → W → bool * W;
  rest_set_history : pystr → pystr → pv → W → bool * W;
  rest_flush_bucket : W → bool * W
}.

(** A test with its bucket object: the object, the bucket on the cluster, and the
    names that [get_random_name] will draw. *)
Record world (W : Type) := World { bk : bucket; srv : W; draws : list pystr }.
Arguments World {_} _ _ _.
Arguments bk {_} _.
Arguments srv {_} _.
Arguments draws {_} _.

(** [except Exception]: it does not end a wait that has no end. *)
Definition except_exception {S A} (m : M S A) (h : M S A) : M S A :=
  try_except m (λ e, if bool_decide (exn_cls e = Blocked) then lift (Err e) else h).

Section Cluster.
Context {W : Type} `{Manifest W}.

Definition on_bk {A} (m : M bucket A) : M (world W) A := λ w,
  let '(r, b) := m (bk w) in (r, World b (srv w) (draws w)).
Definition on_srv {A} (f : W → A * W) : M (world W) A := λ w,
  let '(a, s) := f (srv w) in (Ok a, World (bk w) s (draws w)).

Definition create_collection (scope_name : pystr) (spec : cspec) : M (world W) cspec :=
  status ← on_srv (rest_create_collection scope_name spec);
  if negb status then mraise_msg GenericException (py "create_collection failed")
  else
    _ ← on_bk (modify increment_manifest_uid);
    on_bk (create_collection_object scope_name spec).

Definition drop_collection (scope_name collection_name : pystr) : M (world W) unit :=
  status ← on_srv (rest_delete_collection scope_name collection_name);
  if negb status then mraise_msg GenericException (py "delete_collection")
  else
    _ ← on_bk (modify increment_manifest_uid);
    on_bk (mark_collection_as_dropped scope_name collection_name).

(** [flush_collection]: no [BucketHelper] has the method it calls. *)
Definition flush_collection (scope_name collection_name : pystr) : M (world W) unit :=
  mraise AttributeError.

Definition set_history_retention_for_collection (scope_name collection_name : pystr) (h : pv) :
    M (world W) bool :=
  status ← on_srv (rest_set_history scope_name collection_name h);
  if (status : bool) then
    w ← get;
    _ ← lift (get_collection (bk w) scope_name collection_name);
    _ ← on_bk (modify (on_collection scope_name collection_name (set_history h)));
    mret status
  else mret status.

Definition create_scope (name : pystr) : M (world W) unit :=
  status ← on_srv (rest_create_scope name);
  if negb status then mraise_msg GenericException (py "create_scope failed")
  else
    _ ← on_bk (modify increment_manifest_uid);
    on_bk (create_scope_object name).

Definition drop_scope (name : pystr) : M (world W) unit :=
  status ← on_srv (rest_delete_scope name);
  if negb status then mraise_msg GenericException (py "delete_scope failed")
  else
    _ ← on_bk (modify increment_manifest_uid);
    on_bk (mark_scope_as_dropped name).

(** A name from [get_random_name]; the model waits when it has no draws left. *)
Definition next_name : M (world W) pystr := λ w,
  match draws w with
  | [] => (raise Blocked, w)
  | n :: ns => (Ok n, World (bk w) (srv w) ns)
  end.

(** [name in d.keys() and d[name].is_dropped is False] *)
Definition live_collection (b : bucket) (scope_name name : pystr) : bool :=
  match scopes b !! scope_name with
  | Some s => match collections s !! name with Some c => negb (c_is_dropped c) | None => false end
  | None => false
  end.
Definition live_scope (b : bucket) (name : pystr) : bool :=
  match scopes b !! name with Some s => negb (s_is_dropped s) | None => false end.

(** [create_collections]: [fuel] bounds the attempts; the result is the set
    of keys of the dictionary returned. *)
Definition collection_attempt_name (scope_name : pystr) (collection_name : option pystr)
    (with_scope_name : bool) (created : Z) : M (world W) pystr :=
  if (created =? 0) && with_scope_name then mret scope_name
  else match collection_name with
       | None => next_name
       | Some n => mret (n ++ py "_" ++ str_of_Z created)
       end.
Fixpoint create_collections_loop (fuel : nat) (num_collections : Z) (scope_name : pystr)
    (collection_name : option pystr) (with_scope_name : bool) (created : Z) (acc : gset pystr) :
    M (world W) (gset pystr) :=
  if negb (created <? num_collections) then mret acc else
  match fuel with
  | O => mraise Blocked
  | S fuel =>
      col_name ← collection_attempt_name scope_name collection_name with_scope_name created;
      exists_ ← gets (λ w, live_collection (bk w) scope_name col_name);
      done ← except_exception
        (_ ← create_collection scope_name (CSpec col_name None None None);
         if (exists_ : bool) then mraise GenericException else mret true)
        (if exists_ && bool_decide (collection_name = None) then mret false
         else mraise GenericException);
      if (done : bool)
      then create_collections_loop fuel num_collections scope_name collection_name with_scope_name
             (created + 1) ({[col_name]} ∪ acc)
      else create_collections_loop fuel num_collections scope_name collection_name with_scope_name
             created acc
  end.
Definition create_collections (fuel : nat) (num_collections : Z) (scope_name : pystr)
    (collection_name : option pystr) (with_scope_name : bool) : M (world W) (gset pystr) :=
  w ← get;
  _ ← lift (dict_get (scopes (bk w)) scope_name);
  create_collections_loop fuel num_collections scope_name collection_name with_scope_name 0 ∅.

(** [create_scopes] *)
Fixpoint create_scopes_loop (fuel : nat) (num_scopes : Z) (scope_name : option pystr)
    (collection_count : Z) (created : Z) (acc : gmap pystr (gset pystr)) :
    M (world W) (gmap pystr (gset pystr)) :=
  if negb (created <? num_scopes) then mret acc else
  match fuel with
  | O => mraise Blocked
  | S fuel' =>
      curr ← match scope_name with
             | None => next_name
             | Some n => mret (n ++ py "_" ++ str_of_Z created)
             end;
      exists_ ← gets (λ w, live_scope (bk w) curr);
      cols ← except_exception
        (_ ← create_scope curr;
         if (exists_ : bool) then mraise GenericException
         else cs ← create_collections fuel collection_count curr None false; mret (Some cs))
        (if exists_ && bool_decide (scope_name = None) then mret None
         else mraise GenericException);
      match cols with
      | Some cs => create_scopes_loop fuel' num_scopes scope_name collection_count (created + 1)
                     (<[curr := cs]> acc)
      | None => create_scopes_loop fuel' num_scopes scope_name collection_count created acc
      end
  end.
Definition create_scopes (fuel : nat) (num_scopes : Z) (scope_name : option pystr)
    (collection_count : Z) : M (world W) (gmap pystr (gset pystr)) :=
  create_scopes_loop fuel num_scopes scope_name collection_count 0 ∅.

(** [BucketUtils.flush_bucket] of a bucket that exists. *)
Definition flush_bucket (skip_resetting_num_items : bool) : M (world W) bool :=
  status ← on_srv rest_flush_bucket;
  if negb status then mret status
  else
    w ← get;
    _ ← mfor (fst <$> get_active_scopes (bk w)) (λ s_name,
          w ← get;
          cols ← lift (get_active_collections (bk w) s_name);
          mfor (fst <$> cols) (λ c_name,
            on_bk (mark_collection_as_flushed skip_resetting_num_items s_name c_name)));
    mret status.

(** [BucketUtils.remove_scope_collections_for_bucket] *)
Definition remove_scope_collections_for_bucket : M (world W) unit :=
  w ← get;
  mfor (snd <$> get_active_scopes (bk w)) (λ scope,
    if bool_decide (s_name scope = CbServer.system_scope) then mret tt
    else
      w ← get;
      cols ← lift (get_active_collections (bk w) (s_name scope));
      _ ← mfor (snd <$> cols) (λ collection, drop_collection (s_name scope) (c_name collection));
      if negb (bool_decide (s_name scope = CbServer.default_scope))
      then drop_scope (s_name scope) else mret tt).

End Cluster.

(** ** BucketUtils: names, totals and checks *)

(** [get_random_name]: with a prefix and a counter, and with random characters.
    [second] and [microsecond] come from the clock, [name_len] from
    [random.randint], and each entry of [tries] is one round of choices. *)
Definition counter_name (prefix : pystr) (c : Counter) : pystr * Counter :=
  let '(n, c) := get_next c in (prefix ++ py "-" ++ str_of_Z n, c).
Definition invalid_start_chars : pystr := py "_%".
Definition invalid_chars : pystr := py "!@#$^&*()~`:;?/>.,<{}|\][".
Definition char_set (invalid_name : bool) : pystr :=
  py "abcdefghijklmnopqrstuvwxyzABCDEFGHIJKLMNOPQRSTUVWXYZ" ++ py "0123456789"
  ++ invalid_start_chars ++ py "-" ++ (if invalid_name then invalid_chars else []).
Definition name_postfix (second microsecond : Z) : pystr :=
  str_of_Z second ++ py "-" ++ str_of_Z microsecond.
Definition name_rejected (invalid_name : bool) (rand_name : pystr) : res bool :=
  c ← list_get rand_name 0;
  if invalid_name
  then Ok (bool_decide (c ∉ invalid_start_chars) && negb (existsb (λ x, bool_decide (x ∈ rand_name)) invalid_chars))
  else Ok (bool_decide (c ∈ invalid_start_chars)).
Fixpoint first_accepted (invalid_name : bool) (tries : list pystr) : res pystr :=
  match tries with
  | [] => raise Blocked
  | t :: tries =>
      rejected ← name_rejected invalid_name t;
      if (rejected || bool_decide (t = []) : bool) then first_accepted invalid_name tries else Ok t
  end.
Definition get_random_name (invalid_name : bool) (max_length second microsecond : Z)
    (randint : Z → Z → res Z) (choices : Z → list pystr) : res pystr :=
  let postfix := name_postfix second microsecond in
  name_len ← randint 1 (max_length - len postfix - 1);
  rand_name ← first_accepted invalid_name (choices name_len);
  Ok (rand_name ++ py "-" ++ postfix).

(** [get_supported_durability_levels] *)
Definition durability_levels : list pystr :=
  [DurabilityLevel.NONE; DurabilityLevel.MAJORITY;
   DurabilityLevel.MAJORITY_AND_PERSIST_TO_ACTIVE; DurabilityLevel.PERSIST_TO_MAJORITY].
Fixpoint index_of (x : pystr) (l : list pystr) : option nat :=
  match l with
  | [] => None
  | y :: l => if bool_decide (y = x) then Some O else S <$> index_of x l
  end.
Definition get_supported_durability_levels (minimum_level : pystr) : res (list pystr) :=
  match index_of minimum_level durability_levels with
  | None => raise ValueError
  | Some i => Ok (drop i durability_levels)
  end.

(** [get_bucket_obj] *)
Fixpoint get_bucket_obj (buckets : list bucket) (bucket_name : pystr) : option bucket :=
  match buckets with
  | [] => None
  | b :: bs => if bool_decide (b_name b = bucket_name) then Some b else get_bucket_obj bs bucket_name
  end.

(** [get_expected_total_num_items], [get_total_collections_in_bucket] *)
Fixpoint sum_scopes (f : list (pystr * collection) → Z) (b : bucket) (ss : list (pystr * scope)) : res Z :=
  match ss with
  | [] => Ok 0
  | (_, s) :: ss =>
      cols ← get_active_collections b (s_name s);
      n ← sum_scopes f b ss;
      Ok (f cols + n)
  end.
Definition sum_items (cols : list (pystr * collection)) : Z :=
  foldr (λ nc n, num_items nc.2 + n) 0 cols.
Definition get_expected_total_num_items (b : bucket) : res Z :=
  sum_scopes sum_items b (get_active_scopes b).
Definition get_total_collections_in_bucket (b : bucket) : res Z :=
  sum_scopes len b (get_active_scopes b).

(** [validate_bucket_collection_hierarchy]: [scope_count] and [scope_data] are what
    cbstats reports for the scopes, [collection_data] the items per collection. *)
Fixpoint check_items (collection_data : gmap pystr (gmap pystr Z)) (sn : pystr)
    (cols : list (pystr * collection)) (status : bool) : res bool :=
  match cols with
  | [] => Ok status
  | (_, c) :: cols =>
      d ← dict_get collection_data sn;
      expected_items ← dict_get d (c_name c);
      check_items collection_data sn cols (status && (expected_items =? num_items c))
  end.
Fixpoint check_scopes (scope_data : gmap pystr Z) (collection_data : gmap pystr (gmap pystr Z))
    (b : bucket) (ss : list (pystr * scope)) (status : bool) : res bool :=
  match ss with
  | [] => Ok status
  | (_, s) :: ss =>
      active ← get_active_collections b (s_name s);
      n ← dict_get scope_data (s_name s);
      status ← check_items collection_data (s_name s) active (status && (len active =? n));
      check_scopes scope_data collection_data b ss status
  end.
Definition validate_bucket_collection_hierarchy (b : bucket) (scope_count : Z)
    (scope_data : gmap pystr Z) (collection_data : gmap pystr (gmap pystr Z)) : res bool :=
  check_scopes scope_data collection_data b (get_active_scopes b)
    (len (get_active_scopes b) =? scope_count).

(** [calculate_units] *)
Definition calculate_units (key value sub_doc_size xattr : Z) (read : bool) (n_items : Z)
    (durability : pystr) : Z :=
  let limit := if read then 4096 else 1024 in
  let total_size := key + value + sub_doc_size + xattr in
  let expected_cu := total_size / limit in
  let remainder := total_size mod limit in
  let expected_cu := if remainder =? 0 then expected_cu else expected_cu + 1 in
  let expected_cu := if negb (bool_decide (durability = py "NONE")) && negb read
                     then expected_cu * 2 else expected_cu in
  expected_cu * n_items.

(** ** Proofs: what the objects say *)

(** The live collections of a scope, and the live scopes of a bucket with theirs: the
    bucket's manifest as the test sees it. *)
Definition live_cols (s : scope) : gset pystr :=
  dom (filter (λ kc : pystr * collection, c_is_dropped kc.2 = false) (collections s)).
Definition active (b : bucket) : gmap pystr (gset pystr) :=
  live_cols <$> filter (λ ks : pystr * scope, s_is_dropped ks.2 = false) (scopes b).

(** Objects are filed under their names, and a dropped scope has only dropped
    collections. *)
Definition wf_scope (n : pystr) (s : scope) : Prop :=
  s_name s = n ∧
  map_Forall (λ k c, c_name c = k ∧ (s_is_dropped s = true → c_is_dropped c = true)) (collections s).
Definition wf (b : bucket) : Prop := map_Forall wf_scope (scopes b).

Lemma alter_known `{Countable K} {V} (f : V → V) (k : K) (m : gmap K V) v :
  m !! k = Some v → alter f k m = <[k := f v]> m.
Proof.
  intros Hk. apply map_eq. intros i. rewrite lookup_alter, lookup_insert.
  case_decide as E; [subst; by rewrite Hk|done].
Qed.

Section View.
Implicit Types (b : bucket) (s : scope) (c : collection) (n k : pystr).

Lemma active_Some b n cs :
  active b !! n = Some cs ↔ ∃ s, scopes b !! n = Some s ∧ s_is_dropped s = false ∧ cs = live_cols s.
Proof.
  unfold active. rewrite lookup_fmap, fmap_Some. setoid_rewrite map_lookup_filter_Some. naive_solver.
Qed.
Lemma active_None b n :
  active b !! n = None ↔ ∀ s, scopes b !! n = Some s → s_is_dropped s = true.
Proof.
  rewrite eq_None_not_Some. split.
  - intros Hn s Hs. destruct (s_is_dropped s) eqn:E; [done|]. destruct Hn.
    exists (live_cols s). apply active_Some. eauto.
  - intros Hd [cs (s & Hs & E & _)%active_Some]. apply Hd in Hs. congruence.
Qed.
Lemma elem_of_live_cols s k :
  k ∈ live_cols s ↔ ∃ c, collections s !! k = Some c ∧ c_is_dropped c = false.
Proof.
  unfold live_cols. rewrite elem_of_dom. split.
  - intros [c [Hc Hd]%map_lookup_filter_Some]. eauto.
  - intros (c & Hc & Hd). exists c. by apply map_lookup_filter_Some.
Qed.
Lemma live_cols_all_dropped s :
  map_Forall (λ _ c, c_is_dropped c = true) (collections s) → live_cols s = ∅.
Proof.
  intros Hd. apply set_eq. intros k. rewrite elem_of_live_cols. split; [|set_solver].
  intros (c & Hc & E). apply Hd in Hc. congruence.
Qed.

(** A scope object written under a key. *)
Lemma active_insert n s b :
  active (with_scopes (insert n s) b) =
    if s_is_dropped s then delete n (active b) else <[n := live_cols s]> (active b).
Proof.
  unfold active, with_scopes. cbn. destruct (s_is_dropped s) eqn:E.
  - rewrite map_filter_insert_False by (cbn; congruence). by rewrite map_filter_delete, fmap_delete.
  - rewrite map_filter_insert_True by done. by rewrite fmap_insert.
Qed.
Lemma wf_insert n s b : wf b → wf_scope n s → wf (with_scopes (insert n s) b).
Proof. intros Hb Hs. by apply map_Forall_insert_2. Qed.

Lemma live_cols_insert k c s :
  live_cols (with_collections (insert k c) s) =
    if c_is_dropped c then live_cols s ∖ {[k]} else {[k]} ∪ live_cols s.
Proof.
  unfold live_cols, with_collections. cbn. destruct (c_is_dropped c) eqn:E.
  - rewrite map_filter_insert_False by (cbn; congruence). by rewrite map_filter_delete, dom_delete_L.
  - rewrite map_filter_insert_True by done. by rewrite dom_insert_L.
Qed.
Lemma wf_scope_insert n k c s :
  wf_scope n s → c_name c = k → (s_is_dropped s = true → c_is_dropped c = true) →
  wf_scope n (with_collections (insert k c) s).
Proof. intros [Hn Hs] Hk Hd. split; [done|]. by apply map_Forall_insert_2. Qed.

(** [bucket.scopes[n]] and [bucket.scopes[n].collections[k]] updated in place. *)
Lemma with_scopes_alter f n b s :
  scopes b !! n = Some s → with_scopes (alter f n) b = with_scopes (insert n (f s)) b.
Proof. intros Hs. unfold with_scopes. by rewrite (alter_known f n _ s). Qed.
Lemma with_scopes_twice n s s' b :
  with_scopes (insert n s') (with_scopes (insert n s) b) = with_scopes (insert n s') b.
Proof. unfold with_scopes. cbn. by rewrite insert_insert_eq. Qed.
Lemma on_collection_known n k f b s c :
  scopes b !! n = Some s → collections s !! k = Some c →
  on_collection n k f b = with_scopes (insert n (with_collections (insert k (f c)) s)) b.
Proof.
  intros Hs Hc. unfold on_collection. rewrite (with_scopes_alter _ _ _ s) by done.
  unfold with_collections. by rewrite (alter_known f k _ c).
Qed.
End View.

(** *** The four changes *)

Section Changes.
Implicit Types (b : bucket) (s : scope) (n k : pystr).

Lemma create_scope_object_spec n b :
  wf b → active b !! n = None →
  ∃ b', create_scope_object n b = (Ok tt, b') ∧ wf b' ∧ active b' = <[n := ∅]> (active b) ∧
        b_stats b' = b_stats b.
Proof.
  intros Hwf Hn. unfold create_scope_object, get_scope_obj, mbind, M_bind, get, modify.
  destruct (scopes b !! n) as [s|] eqn:Hs; (eexists; split; [done|]).
  - destruct (Hwf n s Hs) as [Hname Hcols]. pose proof (proj1 (active_None b n) Hn s Hs) as Hd.
    assert (map_Forall (λ _ c, c_is_dropped c = true) (collections s)) as Hall.
    { eapply map_Forall_impl; [exact Hcols|]. naive_solver. }
    split_and!; [|rewrite active_insert; cbn; by rewrite live_cols_all_dropped|done].
    apply wf_insert; [done|]. split; [done|]. eapply map_Forall_impl; [exact Hcols|].
    cbn. naive_solver.
  - split_and!; [|rewrite active_insert; cbn; by rewrite live_cols_all_dropped by apply map_Forall_empty|done].
    apply wf_insert; [done|]. split; [done|]. apply map_Forall_empty.
Qed.

Lemma create_collection_object_spec n spec cs b :
  wf b → active b !! n = Some cs →
  ∃ b', create_collection_object n spec b = (Ok (with_history b spec), b') ∧ wf b' ∧
        active b' = <[n := {[cs_name spec]} ∪ cs]> (active b) ∧ b_stats b' = b_stats b.
Proof.
  intros Hwf (s & Hs & Hd & ->)%active_Some. destruct (Hwf n s Hs) as [Hname Hcols].
  unfold create_collection_object, some_scope, get_scope_obj, get_collection_obj, mbind, M_bind, get,
    modify, lift. rewrite Hs. cbn.
  assert (cs_name (with_history b spec) = cs_name spec) as -> by (unfold with_history; by destruct (cs_history spec)).
  set (c := match collections s !! cs_name spec with
            | Some c => collection_recreated (with_history b spec) c
            | None => Collection (with_history b spec) end).
  assert (c_name c = cs_name spec ∧ c_is_dropped c = false) as [Hc1 Hc2].
  { unfold c. destruct (collections s !! cs_name spec) as [c'|] eqn:E; cbn.
    - split; [|done]. by destruct (Hcols _ _ E).
    - split; [|done]. unfold with_history. by destruct (cs_history spec). }
  eexists. split; [done|]. rewrite (with_scopes_alter _ _ _ s) by done. split_and!; [| |done].
  - apply wf_insert; [done|]. apply wf_scope_insert; [by split|done|congruence].
  - rewrite active_insert. cbn. rewrite Hd, live_cols_insert. by rewrite Hc2.
Qed.

Lemma mark_collection_as_dropped_eq n k b s c :
  scopes b !! n = Some s → collections s !! k = Some c →
  mark_collection_as_dropped n k b = (Ok tt, on_collection n k set_c_dropped b).
Proof.
  intros Hs Hc. unfold mark_collection_as_dropped, some_scope, some_collection, get_scope_obj,
    get_collection_obj, mbind, M_bind, get, modify, lift. rewrite Hs. cbn. by rewrite Hc.
Qed.
Lemma mark_collection_as_dropped_spec n k cs b :
  wf b → active b !! n = Some cs → k ∈ cs →
  ∃ b', mark_collection_as_dropped n k b = (Ok tt, b') ∧ wf b' ∧
        active b' = <[n := cs ∖ {[k]}]> (active b) ∧ b_stats b' = b_stats b.
Proof.
  intros Hwf (s & Hs & Hd & ->)%active_Some (c & Hc & Hcd)%elem_of_live_cols.
  eexists. split; [by eapply mark_collection_as_dropped_eq|].
  rewrite (on_collection_known n k _ b s c) by done. destruct (Hwf n s Hs) as [Hname Hcols].
  split_and!; [| |done].
  - apply wf_insert; [done|]. apply wf_scope_insert; [by split| |done]. cbn. by destruct (Hcols _ _ Hc).
  - rewrite active_insert. cbn. by rewrite Hd, live_cols_insert.
Qed.

(** A loop over collections of one scope that writes each of them once. *)
Lemma mfor_collections n f (op : pystr → M bucket unit) s l b :
  (∀ b s c k, scopes b !! n = Some s → collections s !! k = Some c →
     op k b = (Ok tt, on_collection n k f b)) →
  scopes b !! n = Some s → NoDup l → Forall (λ k, is_Some (collections s !! k)) l →
  ∃ s', mfor l op b = (Ok tt, with_scopes (insert n s') b) ∧
    s_name s' = s_name s ∧ s_is_dropped s' = s_is_dropped s ∧ s_recreated s' = s_recreated s ∧
    ∀ k, collections s' !! k = (if bool_decide (k ∈ l) then f else id) <$> collections s !! k.
Proof.
  intros Hop. revert s b. induction l as [|k l IH]; intros s b Hs Hnd Hl.
  - exists s. cbn. split_and!; [|done|done|done|].
    + unfold with_scopes. rewrite insert_id by done. by destruct b.
    + intros k. rewrite bool_decide_eq_false_2 by set_solver. by destruct (collections s !! k).
  - apply Forall_cons in Hl as [[c Hc] Hl]. apply NoDup_cons in Hnd as [Hk Hnd].
    assert (Forall (λ k', is_Some (collections (with_collections (insert k (f c)) s) !! k')) l) as Hl'.
    { eapply Forall_impl; [exact Hl|]. intros k' Hk'. cbn. rewrite lookup_insert. case_decide; eauto. }
    destruct (IH (with_collections (insert k (f c)) s)
                 (with_scopes (insert n (with_collections (insert k (f c)) s)) b))
      as (s' & Hrun & Hn & Hd & Hr & Hcs); [by cbn; rewrite lookup_insert_eq|done|done|].
    exists s'. split_and!; [|done|done|done|].
    + cbn [mfor]. erewrite bind_Ok by (by eapply Hop).
      rewrite (on_collection_known n k _ b s c) by done. by rewrite Hrun, with_scopes_twice.
    + intros j. rewrite Hcs. cbn. rewrite lookup_insert.
      destruct (decide (k = j)) as [<-|Hne].
      * rewrite (bool_decide_eq_true_2 (k ∈ k :: l)), (bool_decide_eq_false_2 (k ∈ l)) by set_solver.
        by rewrite Hc.
      * assert (bool_decide (j ∈ k :: l) = bool_decide (j ∈ l)) as -> by (apply bool_decide_ext; set_solver).
        done.
Qed.
Lemma mark_scope_as_dropped_spec n cs b :
  wf b → active b !! n = Some cs →
  ∃ b', mark_scope_as_dropped n b = (Ok tt, b') ∧ wf b' ∧ active b' = delete n (active b) ∧
        b_stats b' = b_stats b.
Proof.
  intros Hwf (s & Hs & Hd & ->)%active_Some. destruct (Hwf n s Hs) as [Hname Hcols].
  destruct (mfor_collections n set_c_dropped (mark_collection_as_dropped n) s
    (fst <$> map_to_list (collections s)) b) as (s' & Hrun & Hn & _ & _ & Hcs);
    [intros; by eapply mark_collection_as_dropped_eq|done|apply NoDup_fst_map_to_list| |].
  { apply Forall_fmap, Forall_forall. intros [k c] Hin%elem_of_map_to_list. cbn. eauto. }
  unfold mark_scope_as_dropped, some_scope, get_scope_obj, mbind, M_bind, get, modify, lift. rewrite Hs. cbn.
  rewrite Hname, Hrun. eexists. split; [done|].
  rewrite (with_scopes_alter _ n _ s') by (by cbn; rewrite lookup_insert_eq).
  rewrite with_scopes_twice.
  split_and!; [|by rewrite active_insert|done].
  apply wf_insert; [done|]. split; [cbn; congruence|]. intros k c Hk. cbn in Hk. rewrite Hcs in Hk.
  apply fmap_Some in Hk as (c0 & Hc0 & ->).
  rewrite bool_decide_eq_true_2.
  - cbn. split; [|done]. by destruct (Hcols _ _ Hc0).
  - apply list_elem_of_fmap. exists (k, c0). split; [done|]. by apply elem_of_map_to_list.
Qed.

Lemma mark_collection_as_flushed_eq skip n k b s c :
  scopes b !! n = Some s → collections s !! k = Some c →
  mark_collection_as_flushed skip n k b = (Ok tt, on_collection n k (flushed skip) b).
Proof.
  intros Hs Hc. unfold mark_collection_as_flushed, some_scope, some_collection, get_scope_obj,
    get_collection_obj, mbind, M_bind, get, modify, lift. rewrite Hs. cbn. by rewrite Hc.
Qed.

(** What [flush_bucket] does to a scope: every live collection of a live scope is flushed. *)
Definition flush_scope (skip : bool) (s : scope) : scope :=
  if s_is_dropped s then s
  else with_collections (fmap (λ c, if c_is_dropped c then c else flushed skip c)) s.

Lemma active_names_iff (m : gmap pystr collection) k :
  k ∈ (fst <$> List.filter (λ nc, negb (c_is_dropped nc.2)) (map_to_list m)) ↔
  ∃ c, m !! k = Some c ∧ c_is_dropped c = false.
Proof.
  rewrite list_elem_of_fmap. split.
  - intros ([k' c] & -> & Hin%list_elem_of_In). apply filter_In in Hin as [Hin Hd].
    apply list_elem_of_In, elem_of_map_to_list in Hin. cbn in *. exists c. by destruct (c_is_dropped c).
  - intros (c & Hc & Hd). exists (k, c). split; [done|]. apply list_elem_of_In, filter_In. cbn.
    rewrite Hd. split; [|done]. by apply list_elem_of_In, elem_of_map_to_list.
Qed.
Lemma NoDup_active {V} (p : pystr * V → bool) (m : gmap pystr V) :
  NoDup (fst <$> List.filter p (map_to_list m)).
Proof.
  pose proof (NoDup_fst_map_to_list m) as Hnd. induction (map_to_list m) as [|[k v] l IH]; [done|].
  cbn in *. apply NoDup_cons in Hnd as [Hk Hnd]. destruct (p (k, v)); cbn; [|by apply IH].
  apply NoDup_cons. split; [|by apply IH]. intros Hin. apply Hk.
  apply list_elem_of_fmap in Hin as ([k' v'] & -> & Hin%list_elem_of_In).
  apply filter_In in Hin as [Hin%list_elem_of_In _]. apply list_elem_of_fmap. by exists (k', v').
Qed.

Lemma flush_collections skip n s b :
  scopes b !! n = Some s → s_is_dropped s = false →
  mfor (fst <$> List.filter (λ nc, negb (c_is_dropped nc.2)) (map_to_list (collections s)))
       (mark_collection_as_flushed skip n) b = (Ok tt, with_scopes (insert n (flush_scope skip s)) b).
Proof.
  intros Hs Hd.
  destruct (mfor_collections n (flushed skip) (mark_collection_as_flushed skip n) s
    (fst <$> List.filter (λ nc : pystr * collection, negb (c_is_dropped nc.2)) (map_to_list (collections s))) b)
    as (s' & Hrun & Hn & Hd' & Hr & Hcs);
    [intros; by eapply mark_collection_as_flushed_eq|done|apply NoDup_active| |].
  { apply Forall_forall. intros k (c & Hc & _)%active_names_iff. eauto. }
  rewrite Hrun. do 3 f_equal. unfold flush_scope. rewrite Hd. destruct s' as [? cs' ? ?], s as [? cs ? ?].
  cbn in *. unfold with_collections. cbn.
  subst. f_equal. apply map_eq. intros k. rewrite Hcs, lookup_fmap.
  destruct (cs !! k) as [c|] eqn:Hc; [|done]. cbn. f_equal.
  destruct (c_is_dropped c) eqn:E.
  - rewrite bool_decide_eq_false_2; [done|]. rewrite active_names_iff, Hc. naive_solver congruence.
  - rewrite bool_decide_eq_true_2; [done|]. rewrite active_names_iff. eauto.
Qed.
End Changes.

(** ** Proofs: the objects follow the cluster *)

(** What the server documents: it keeps a manifest, a set of collections for each scope, whose
    uid grows by one with every change; a call that it refuses changes nothing. *)
Definition answers {W} (manifest : W → gmap pystr (gset pystr)) (uid : W → Z)
    (allowed : gmap pystr (gset pystr) → Prop) (change : gmap pystr (gset pystr) → gmap pystr (gset pystr))
    (call : W → bool * W) : Prop :=
  ∀ w, let '(ok, w') := call w in
  if ok then allowed (manifest w) ∧ manifest w' = change (manifest w) ∧ uid w' = uid w + 1
  else manifest w' = manifest w ∧ uid w' = uid w.

Class ManifestLaws (W : Type) `{Manifest W} := {
  manifest : W → gmap pystr (gset pystr);
  uid : W → Z;
  create_scope_law n : answers manifest uid (λ m, m !! n = None) (insert n ∅) (rest_create_scope n);
  delete_scope_law n : answers manifest uid (λ m, is_Some (m !! n)) (delete n) (rest_delete_scope n);
  create_collection_law n spec :
    answers manifest uid (λ m, ∃ cs, m !! n = Some cs ∧ cs_name spec ∉ cs)
      (alter (λ cs, {[cs_name spec]} ∪ cs) n) (rest_create_collection n spec);
  delete_collection_law n k :
    answers manifest uid (λ m, ∃ cs, m !! n = Some cs ∧ k ∈ cs)
      (alter (λ cs, cs ∖ {[k]}) n) (rest_delete_collection n k);
  flush_law w : manifest (rest_flush_bucket w).2 = manifest w ∧ uid (rest_flush_bucket w).2 = uid w
}.

(** The changes a test makes, each with the exceptions it may raise caught. *)
Inductive change :=
  | CreateScope (n : pystr) | DropScope (n : pystr)
  | CreateCollection (n : pystr) (spec : cspec) | DropCollection (n k : pystr)
  | FlushBucket (skip : bool).
Definition perform {W} `{Manifest W} (c : change) : M (world W) unit :=
  match c with
  | CreateScope n => create_scope n
  | DropScope n => drop_scope n
  | CreateCollection n spec => create_collection n spec ≫= λ _, mret tt
  | DropCollection n k => drop_collection n k
  | FlushBucket skip => flush_bucket skip ≫= λ _, mret tt
  end.
Definition attempt {S} (m : M S unit) : M S unit := try_except m (λ _, mret tt).

(** The status the server returns for a change. *)
Definition accepted {W} `{Manifest W} (c : change) (w : W) : bool :=
  match c with
  | CreateScope n => (rest_create_scope n w).1
  | DropScope n => (rest_delete_scope n w).1
  | CreateCollection n spec => (rest_create_collection n spec w).1
  | DropCollection n k => (rest_delete_collection n k w).1
  | FlushBucket _ => true
  end.

Section Tracking.
Context {W : Type} `{HL : ManifestLaws W}.
Implicit Types w : world W.

Definition tracks w : Prop :=
  wf (bk w) ∧ active (bk w) = manifest (srv w) ∧ manifest_uid (b_stats (bk w)) = uid (srv w).

Lemma manifest_uid_incr b : manifest_uid (b_stats (increment_manifest_uid b)) = manifest_uid (b_stats b) + 1.
Proof. done. Qed.

(** The outcome of a call and the change that goes with it. *)
Definition call_ok {A : Type} (allowed : gmap pystr (gset pystr) → Prop)
    (chg : gmap pystr (gset pystr) → gmap pystr (gset pystr)) (call : W → bool * W)
    (op : M (world W) A) w : Prop :=
  tracks (op w).2 ∧ draws (op w).2 = draws w ∧ srv (op w).2 = (call (srv w)).2 ∧
  if (call (srv w)).1
  then is_ok (op w).1 = true ∧ allowed (manifest (srv w)) ∧
       manifest (srv (op w).2) = chg (manifest (srv w))
  else ∃ msg, op w = (Err (Exn GenericException msg), World (bk w) (call (srv w)).2 (draws w)).

(** A call followed by the matching change of the objects: accepted changes are made on both sides,
    refused ones on neither. *)
Lemma step_tracks {A} allowed chg call (m : M bucket A) msg w :
  answers manifest uid allowed chg call →
  (allowed (active (bk w)) → wf (bk w) →
     ∃ a b', m (increment_manifest_uid (bk w)) = (Ok a, b') ∧ wf b' ∧ active b' = chg (active (bk w)) ∧
             b_stats b' = b_stats (increment_manifest_uid (bk w))) →
  tracks w →
  call_ok allowed chg call
    (status ← on_srv call;
     if negb status then mraise_msg GenericException msg
     else _ ← on_bk (modify increment_manifest_uid); on_bk m) w.
Proof.
  intros Hcall Hm (Hwf & Hact & Huid). specialize (Hcall (srv w)).
  unfold call_ok, mbind, M_bind, on_srv, on_bk, modify. destruct (call (srv w)) as [ok w'] eqn:E. cbn.
  destruct ok; cbn.
  - destruct Hcall as (Hal & Hman & Hu).
    destruct (Hm ltac:(by rewrite Hact) Hwf) as (a & b' & Hrun & Hwf' & Hact' & Hst). rewrite Hrun. cbn.
    split_and!; [|done|done|done|done|done]. unfold tracks. cbn. split_and!; [done|congruence|].
    rewrite Hst, manifest_uid_incr. congruence.
  - destruct Hcall as [Hman Hu]. split_and!; [|done|done|by eexists]. unfold tracks. cbn. by rewrite Hman, Hu.
Qed.

Lemma incr_view b : active (increment_manifest_uid b) = active b ∧ (wf b → wf (increment_manifest_uid b)).
Proof. done. Qed.

(** [flush_bucket] flushes every live scope. *)
Lemma mfor_on_bk {A} (l : list A) (g : A → M bucket unit) w :
  mfor l (λ x, on_bk (g x)) w = on_bk (mfor l g) w.
Proof.
  revert w. induction l as [|x l IH]; intros w; [by destruct w|]. cbn [mfor].
  unfold mbind at 1 2, M_bind. unfold on_bk at 1 3. destruct (g x (bk w)) as [[[]|e] b']; [|done].
  by rewrite IH.
Qed.
Lemma flush_scopes skip l w :
  NoDup l → Forall (λ n, ∃ s, scopes (bk w) !! n = Some s ∧ s_is_dropped s = false) l →
  ∃ m, mfor l (λ s_name,
          w ← get;
          cols ← lift (get_active_collections (bk w) s_name);
          mfor (fst <$> cols) (λ c_name, on_bk (mark_collection_as_flushed skip s_name c_name))) w
       = (Ok tt, World (with_scopes (λ _, m) (bk w)) (srv w) (draws w)) ∧
    ∀ n, m !! n = (if bool_decide (n ∈ l) then flush_scope skip else id) <$> scopes (bk w) !! n.
Proof.
  revert w. induction l as [|n l IH]; intros w Hnd Hl.
  - exists (scopes (bk w)). split; [by destruct w as [[]]|]. intros n.
    rewrite bool_decide_eq_false_2 by set_solver. by destruct (scopes (bk w) !! n).
  - apply NoDup_cons in Hnd as [Hn Hnd]. apply Forall_cons in Hl as [(s & Hs & Hd) Hl].
    set (w' := World (with_scopes (insert n (flush_scope skip s)) (bk w)) (srv w) (draws w)).
    destruct (IH w' Hnd) as (m & Hrun & Hm).
    { eapply Forall_impl; [exact Hl|]. intros k (s' & Hs' & Hd'). cbn. rewrite lookup_insert.
      case_decide as E; [|by exists s']. subst. exists (flush_scope skip s). split; [done|].
      unfold flush_scope. by destruct (s_is_dropped s) eqn:?. }
    exists m. split.
    + cbn [mfor]. erewrite bind_Ok; [exact Hrun|]. erewrite bind_Ok by done.
      unfold get_active_collections, some_scope, get_scope_obj. rewrite Hs. cbn [of_option].
      erewrite bind_Ok by done. rewrite mfor_on_bk. unfold on_bk. by rewrite (flush_collections skip n s).
    + intros k. rewrite Hm. cbn. rewrite lookup_insert. destruct (decide (n = k)) as [<-|Hne].
      * rewrite bool_decide_eq_false_2, (bool_decide_eq_true_2 (n ∈ n :: l)) by set_solver. by rewrite Hs.
      * assert (bool_decide (k ∈ n :: l) = bool_decide (k ∈ l)) as -> by (apply bool_decide_ext; set_solver).
        done.
Qed.

Lemma active_scope_names b n :
  n ∈ (fst <$> get_active_scopes b) ↔ ∃ s, scopes b !! n = Some s ∧ s_is_dropped s = false.
Proof.
  unfold get_active_scopes. rewrite list_elem_of_fmap. split.
  - intros ([k' c] & -> & Hin%list_elem_of_In). apply filter_In in Hin as [Hin Hd].
    apply list_elem_of_In, elem_of_map_to_list in Hin. cbn in *. exists c. by destruct (s_is_dropped c).
  - intros (c & Hc & Hd). exists (n, c). split; [done|]. apply list_elem_of_In, filter_In. cbn.
    rewrite Hd. split; [|done]. by apply list_elem_of_In, elem_of_map_to_list.
Qed.

(** A flush that the server accepts, exactly. *)
Lemma flush_bucket_eq skip w :
  flush_bucket skip w =
    let '(ok, sv) := rest_flush_bucket (srv w) in
    (Ok ok, World (if ok then with_scopes (fmap (flush_scope skip)) (bk w) else bk w) sv (draws w)).
Proof.
  unfold flush_bucket. unfold mbind at 1, M_bind at 1, on_srv at 1.
  destruct (rest_flush_bucket (srv w)) as [ok sv]. cbn. destruct ok; [|done]. cbn [negb].
  erewrite bind_Ok by done.
  destruct (flush_scopes skip (fst <$> get_active_scopes (bk w)) (World (bk w) sv (draws w)))
    as (m & Hrun & Hm).
  { apply NoDup_active. }
  { apply Forall_forall. intros n. cbn. by rewrite active_scope_names. }
  erewrite bind_Ok by exact Hrun. unfold mret, M_ret. do 2 f_equal.
  unfold with_scopes. cbn. f_equal. apply map_eq. intros n. rewrite Hm, lookup_fmap. cbn.
  destruct (scopes (bk w) !! n) as [s|] eqn:Hs; [|done]. cbn. f_equal. case_bool_decide as E; [done|].
  rewrite active_scope_names, Hs in E. unfold flush_scope. destruct (s_is_dropped s) eqn:Hd; [done|].
  destruct E. eauto.
Qed.

Lemma flush_scope_view skip s :
  s_name (flush_scope skip s) = s_name s ∧ s_is_dropped (flush_scope skip s) = s_is_dropped s ∧
  live_cols (flush_scope skip s) = live_cols s.
Proof.
  unfold flush_scope. destruct (s_is_dropped s) eqn:E; [done|]. split_and!; [done|done|].
  apply set_eq. intros k. rewrite !elem_of_live_cols. cbn. rewrite lookup_fmap.
  destruct (collections s !! k) as [c|]; cbn; [|naive_solver].
  split; intros (? & [= <-] & Hd); (eexists; split; [done|]); destruct (c_is_dropped c) eqn:Ed; cbn in *; congruence.
Qed.
Lemma flush_view skip b :
  active (with_scopes (fmap (flush_scope skip)) b) = active b ∧
  (wf b → wf (with_scopes (fmap (flush_scope skip)) b)).
Proof.
  split.
  - apply map_eq. intros n. apply option_eq. intros cs. rewrite !active_Some. cbn. rewrite lookup_fmap.
    destruct (scopes b !! n) as [s|]; cbn; [|naive_solver].
    destruct (flush_scope_view skip s) as (_ & Hd & Hl). split; intros (? & [= <-] & H1 & ->); eexists;
      (split; [done|]); rewrite ?Hd, ?Hl in *; done.
  - intros Hwf n s' Hs. cbn in Hs. rewrite lookup_fmap in Hs. apply fmap_Some in Hs as (s & Hs & ->).
    destruct (Hwf n s Hs) as [Hn Hc]. destruct (flush_scope_view skip s) as (Hn' & Hd & _). split; [congruence|].
    rewrite Hd. unfold flush_scope. destruct (s_is_dropped s) eqn:E; [done|].
    intros k c Hk. cbn in Hk. rewrite lookup_fmap in Hk. apply fmap_Some in Hk as (c0 & Hk & ->).
    destruct (Hc k c0 Hk) as [Hk' _]. split; [|done]. by destruct (c_is_dropped c0).
Qed.

Lemma create_scope_step n w :
  tracks w → call_ok (λ m, m !! n = None) (insert n ∅) (rest_create_scope n) (create_scope n) w.
Proof.
  intros Ht. eapply step_tracks; [apply create_scope_law| |done]. intros Hn Hwf.
  destruct (create_scope_object_spec n (increment_manifest_uid (bk w))) as (b' & Hb); [done|done|].
  by exists tt, b'.
Qed.
Lemma drop_scope_step n w :
  tracks w → call_ok (λ m, is_Some (m !! n)) (delete n) (rest_delete_scope n) (drop_scope n) w.
Proof.
  intros Ht. eapply step_tracks; [apply delete_scope_law| |done]. intros [cs Hn] Hwf.
  destruct (mark_scope_as_dropped_spec n cs (increment_manifest_uid (bk w))) as (b' & Hb); [done|done|].
  by exists tt, b'.
Qed.
Lemma create_collection_step n spec w :
  tracks w →
  call_ok (λ m, ∃ cs, m !! n = Some cs ∧ cs_name spec ∉ cs) (alter (λ cs, {[cs_name spec]} ∪ cs) n)
    (rest_create_collection n spec) (create_collection n spec) w.
Proof.
  intros Ht. eapply step_tracks; [apply create_collection_law| |done]. intros (cs & Hn & _) Hwf.
  destruct (create_collection_object_spec n spec cs (increment_manifest_uid (bk w))) as (b' & H1 & H2 & H3 & H4);
    [done|done|].
  eexists _, b'. split_and!; [exact H1|done| |done]. by rewrite (alter_known _ n _ cs).
Qed.
Lemma drop_collection_step n k w :
  tracks w →
  call_ok (λ m, ∃ cs, m !! n = Some cs ∧ k ∈ cs) (alter (λ cs, cs ∖ {[k]}) n)
    (rest_delete_collection n k) (drop_collection n k) w.
Proof.
  intros Ht. eapply step_tracks; [apply delete_collection_law| |done]. intros (cs & Hn & Hk) Hwf.
  destruct (mark_collection_as_dropped_spec n k cs (increment_manifest_uid (bk w))) as (b' & H1 & H2 & H3 & H4);
    [done|done|done|].
  eexists tt, b'. split_and!; [exact H1|done| |done]. by rewrite (alter_known _ n _ cs).
Qed.

Lemma flush_tracks skip w : tracks w → tracks (flush_bucket skip w).2.
Proof.
  intros (Hwf & Hact & Hu). rewrite flush_bucket_eq. destruct (flush_law (srv w)) as [Hm Hi].
  destruct (rest_flush_bucket (srv w)) as [ok sv]. cbn in *. unfold tracks. cbn. rewrite Hm, Hi.
  destruct ok; [|done]. destruct (flush_view skip (bk w)) as [Ha Hw]. cbn. rewrite Ha. auto.
Qed.

Lemma perform_tracks c w :
  tracks w →
  tracks (perform c w).2 ∧ is_ok (perform c w).1 = accepted c (srv w) ∧
  (accepted c (srv w) = false → bk (perform c w).2 = bk w).
Proof.
  intros Ht. destruct c as [n|n|n spec|n k|skip]; cbn [perform accepted].
  - destruct (create_scope_step n w Ht) as (H1 & _ & _ & H3).
    destruct (rest_create_scope n (srv w)).1; [by destruct H3|]. destruct H3 as [msg E]. by rewrite E in *.
  - destruct (drop_scope_step n w Ht) as (H1 & _ & _ & H3).
    destruct (rest_delete_scope n (srv w)).1; [by destruct H3|]. destruct H3 as [msg E]. by rewrite E in *.
  - destruct (create_collection_step n spec w Ht) as (H1 & _ & _ & H3).
    unfold mbind, M_bind. destruct (rest_create_collection n spec (srv w)).1.
    + destruct (create_collection n spec w) as [[]]; by destruct H3.
    + destruct H3 as [msg E]. by rewrite E in *.
  - destruct (drop_collection_step n k w Ht) as (H1 & _ & _ & H3).
    destruct (rest_delete_collection n k (srv w)).1; [by destruct H3|]. destruct H3 as [msg E]. by rewrite E in *.
  - pose proof (flush_tracks skip w Ht) as H1. unfold mbind, M_bind. rewrite flush_bucket_eq in *.
    by destruct (rest_flush_bucket (srv w)).
Qed.
End Tracking.

(** *** Creating several collections *)

(** The first [k] draws that are neither in [used] nor repeated, and the draws left. *)
Fixpoint pick (k : nat) (used : gset pystr) (ds : list pystr) : option (list pystr * list pystr) :=
  match k, ds with
  | O, _ => Some ([], ds)
  | S _, [] => None
  | S k', d :: ds =>
      if bool_decide (d ∈ used) then pick k used ds
      else '(l, r) ← pick k' ({[d]} ∪ used) ds; Some (d :: l, r)
  end.
Lemma pick_spec k used ds l r :
  pick k used ds = Some (l, r) →
  length l = k ∧ NoDup l ∧ Forall (λ d, d ∉ used ∧ d ∈ ds) l ∧ r `suffix_of` ds.
Proof.
  revert k used l. induction ds as [|d ds IH]; intros [|k] used l; cbn; try (intros [= <- <-]); try done.
  - split_and!; [done|constructor|constructor|done].
  - split_and!; [done|constructor|constructor|done].
  - case_bool_decide as E.
    + intros (H1 & H2 & H3 & H4)%IH. split_and!; [done|done| |by apply suffix_cons_r].
      eapply Forall_impl; [exact H3|]. set_solver.
    + destruct (pick k ({[d]} ∪ used) ds) as [[l' r']|] eqn:Ep; [|done]. intros [= <- <-].
      apply IH in Ep as (H1 & H2 & H3 & H4). rewrite Forall_forall in H3.
      split_and!; [cbn; lia| | |by apply suffix_cons_r].
      * apply NoDup_cons. split; [|done]. intros Hd. destruct (H3 d Hd). set_solver.
      * constructor; [set_solver|]. apply Forall_forall. intros x Hx. destruct (H3 x Hx). set_solver.
Qed.

(** A server that creates every collection that its manifest allows under scope [n]. *)
Definition creates_in {W} `{ManifestLaws W} (n : pystr) : Prop :=
  ∀ s spec cs, manifest s !! n = Some cs → cs_name spec ∉ cs → (rest_create_collection n spec s).1 = true.

Section CreateMany.
Context {W : Type} `{HL : ManifestLaws W} (n : pystr) (Hacc : creates_in (W := W) n).
Implicit Types w : world W.

Lemma live_collection_iff b cs k :
  active b !! n = Some cs → live_collection b n k = bool_decide (k ∈ cs).
Proof.
  intros (s & Hs & Hd & ->)%active_Some. unfold live_collection. rewrite Hs.
  destruct (collections s !! k) as [c|] eqn:E.
  - destruct (c_is_dropped c) eqn:Ed; cbn.
    + rewrite bool_decide_eq_false_2; [done|]. rewrite elem_of_live_cols. naive_solver congruence.
    + rewrite bool_decide_eq_true_2; [done|]. apply elem_of_live_cols. eauto.
  - rewrite bool_decide_eq_false_2; [done|]. rewrite elem_of_live_cols. naive_solver congruence.
Qed.

(** One attempt: a fresh name is created, a live one is refused by the server. *)
Definition try_create (collection_name : option pystr) (k : pystr) : M (world W) bool :=
  exists_ ← gets (λ w, live_collection (bk w) n k);
  except_exception
    (_ ← create_collection n (CSpec k None None None);
     if (exists_ : bool) then mraise GenericException else mret true)
    (if exists_ && bool_decide (collection_name = None) then mret false
     else mraise GenericException).

Lemma try_create_fresh cn k cs w :
  tracks w → manifest (srv w) !! n = Some cs → k ∉ cs →
  ∃ w', try_create cn k w = (Ok true, w') ∧ tracks w' ∧ draws w' = draws w ∧
        manifest (srv w') = <[n := {[k]} ∪ cs]> (manifest (srv w)).
Proof.
  intros Ht Hn Hk. destruct (create_collection_step n (CSpec k None None None) w Ht) as (H1 & H2 & _ & H3).
  rewrite (Hacc _ (CSpec k None None None) cs) in H3 by done. destruct H3 as (H3 & _ & H4).
  rewrite (alter_known _ n _ cs) in H4 by done.
  unfold try_create, mbind, M_bind, gets, except_exception, try_except.
  destruct Ht as (_ & Ha & _). rewrite (live_collection_iff _ cs) by (by rewrite Ha).
  rewrite bool_decide_eq_false_2 by done.
  destruct (create_collection n _ w) as [[a|e] w'] eqn:E; [|done]. cbn in *. eauto.
Qed.
Lemma try_create_live cn k cs w :
  tracks w → manifest (srv w) !! n = Some cs → k ∈ cs →
  ∃ w', try_create cn k w = ((if bool_decide (cn = None) then Ok false else raise GenericException), w') ∧
        tracks w' ∧ draws w' = draws w ∧ manifest (srv w') = manifest (srv w) ∧ bk w' = bk w.
Proof.
  intros Ht Hn Hk. destruct (create_collection_step n (CSpec k None None None) w Ht) as (H1 & H2 & Hsv & H3).
  destruct (rest_create_collection n _ (srv w)).1 eqn:Er.
  { destruct H3 as (_ & (cs' & Hn' & Hk') & _). rewrite Hn' in Hn. by simplify_eq. }
  destruct H3 as [msg E]. exists (create_collection n (CSpec k None None None) w).2.
  pose proof (create_collection_law n (CSpec k None None None) (srv w)) as Hlaw.
  destruct (rest_create_collection n (CSpec k None None None) (srv w)) as [ok sv] eqn:Es.
  cbn in Er. subst ok. destruct Hlaw as [Hm _].
  unfold try_create, mbind, M_bind, gets, except_exception, try_except.
  destruct Ht as (_ & Ha & _). rewrite (live_collection_iff _ cs) by (by rewrite Ha).
  rewrite bool_decide_eq_true_2 by done. rewrite E in *. cbn in *.
  split_and!; try done. by destruct cn.
Qed.

(** The loop, one attempt at a time. *)
Lemma loop_unfold fuel num cn ws created acc :
  create_collections_loop (S fuel) num n cn ws created acc =
    if negb (created <? num) then mret acc else
    col_name ← collection_attempt_name n cn ws created;
    exists_ ← gets (λ w, live_collection (bk w) n col_name);
    done ← except_exception
        (_ ← create_collection n (CSpec col_name None None None);
         if (exists_ : bool) then mraise GenericException else mret true)
        (if exists_ && bool_decide (cn = None) then mret false else mraise GenericException);
    if (done : bool)
    then create_collections_loop fuel num n cn ws (created + 1) ({[col_name]} ∪ acc)
    else create_collections_loop fuel num n cn ws created acc.
Proof. done. Qed.
Lemma loop_step fuel num cn ws created acc k w w0 :
  created < num → collection_attempt_name n cn ws created w = (Ok k, w0) →
  create_collections_loop (S fuel) num n cn ws created acc w =
    match try_create cn k w0 with
    | (Ok true, w') => create_collections_loop fuel num n cn ws (created + 1) ({[k]} ∪ acc) w'
    | (Ok false, w') => create_collections_loop fuel num n cn ws created acc w'
    | (Err e, w') => (Err e, w')
    end.
Proof.
  intros Hlt Hk. rewrite loop_unfold. replace (created <? num) with true by lia. cbn [negb].
  rewrite (bind_Ok _ _ _ k w0) by done. unfold try_create. unfold mbind at 1, M_bind at 1, gets at 1.
  unfold mbind at 3, M_bind at 3, gets at 1.
  unfold mbind at 1, M_bind at 1.
  by destruct (except_exception _ _ w0) as [[[]|e] w'].
Qed.
Lemma loop_done fuel num cn ws created acc w :
  num ≤ created → create_collections_loop fuel num n cn ws created acc w = (Ok acc, w).
Proof.
  intros Hge. destruct fuel; cbn; by replace (created <? num) with false by lia.
Qed.

(** Random names: the first fresh draws are created, however many are taken. *)
Lemma loop_random fuel num created acc cs w l r :
  tracks w → manifest (srv w) !! n = Some cs → 0 ≤ created →
  pick (Z.to_nat (num - created)) cs (draws w) = Some (l, r) → (length (draws w) ≤ fuel)%nat →
  ∃ w', create_collections_loop fuel num n None false created acc w = (Ok (list_to_set l ∪ acc), w') ∧
    tracks w' ∧ draws w' = r ∧ manifest (srv w') = <[n := list_to_set l ∪ cs]> (manifest (srv w)).
Proof.
  remember (draws w) as ds eqn:Eds. revert fuel created acc cs w l Eds.
  induction ds as [|d ds IH]; intros fuel created acc cs w l Eds Ht Hn Hc Hp Hf;
    (destruct (decide (num ≤ created)) as [Hle|Hlt];
     [replace (Z.to_nat (num - created)) with 0%nat in Hp by lia; cbn in Hp; injection Hp as <- <-;
      exists w; rewrite loop_done by done; cbn [list_to_set foldr];
      split_and!; [by rewrite union_empty_l_L|done|done|]; by rewrite union_empty_l_L, insert_id|]).
  { destruct (Z.to_nat (num - created)) eqn:E; [lia|done]. }
  destruct (Z.to_nat (num - created)) as [|k] eqn:E; [lia|]. destruct fuel as [|fuel]; [cbn in Hf; lia|].
  assert (collection_attempt_name n None false created w = (Ok d, World (bk w) (srv w) ds)) as Hname.
  { unfold collection_attempt_name. rewrite andb_false_r. unfold next_name. by rewrite <- Eds. }
  rewrite (loop_step fuel num None false created acc d w _ ltac:(lia) Hname). cbn in Hp, Hf.
  assert (tracks (World (bk w) (srv w) ds)) as Ht0 by done. case_bool_decide as Ed.
  - destruct (try_create_live None d cs _ Ht0 Hn Ed) as (w1 & -> & Ht1 & Hd1 & Hm1 & _).
    rewrite bool_decide_eq_true_2 by done. cbn in Hd1, Hm1. rewrite <- Hm1.
    apply IH; [done|done|by rewrite Hm1|done|by rewrite E|lia].
  - destruct (pick k ({[d]} ∪ cs) ds) as [[l' r']|] eqn:Ep; [|done]. injection Hp as <- <-.
    destruct (try_create_fresh None d cs _ Ht0 Hn Ed) as (w1 & -> & Ht1 & Hd1 & Hm1). cbn in Hd1, Hm1.
    destruct (IH fuel (created + 1) ({[d]} ∪ acc) ({[d]} ∪ cs) w1 l') as (w' & Hrun & Ht' & Hd' & Hm');
      [done|done|by rewrite Hm1, lookup_insert_eq|lia| |lia|].
    { by replace (Z.to_nat (num - (created + 1))) with k by lia. }
    exists w'. split_and!; [|done|done|].
    + rewrite Hrun. do 2 f_equal. set_solver.
    + rewrite Hm', Hm1, insert_insert_eq. f_equal. set_solver.
Qed.

(** Given names: [base_0], [base_1], ... as long as none is live. *)
Definition numbered (base : pystr) (a : Z) (k : nat) : list pystr :=
  (λ i, base ++ py "_" ++ str_of_Z i) <$> seqZ a (Z.of_nat k).
Lemma numbered_cons base a k :
  numbered base a (S k) = (base ++ py "_" ++ str_of_Z a) :: numbered base (a + 1) k.
Proof. unfold numbered. rewrite Nat2Z.inj_succ. rewrite seqZ_cons by lia. cbn. by rewrite Z.pred_succ. Qed.
Lemma elem_of_numbered base a k x :
  x ∈ numbered base a k ↔ ∃ i, a ≤ i < a + Z.of_nat k ∧ x = base ++ py "_" ++ str_of_Z i.
Proof.
  unfold numbered. rewrite list_elem_of_fmap. setoid_rewrite elem_of_seqZ. naive_solver.
Qed.
Lemma loop_named fuel base num created acc cs w :
  tracks w → manifest (srv w) !! n = Some cs →
  let k := Z.to_nat (num - created) in
  Forall (λ x, x ∉ cs) (numbered base created k) → (k ≤ fuel)%nat →
  ∃ w', create_collections_loop fuel num n (Some base) false created acc w
          = (Ok (list_to_set (numbered base created k) ∪ acc), w') ∧
    tracks w' ∧ draws w' = draws w ∧
    manifest (srv w') = <[n := list_to_set (numbered base created k) ∪ cs]> (manifest (srv w)).
Proof.
  intros Ht Hn k. subst k. remember (Z.to_nat (num - created)) as k eqn:Ek. revert fuel created acc cs w Ek Ht Hn.
  induction k as [|k IH]; intros fuel created acc cs w Ek Ht Hn Hall Hf.
  - exists w. rewrite loop_done by lia. change (numbered base created 0) with (@nil pystr).
    cbn [list_to_set foldr]. rewrite !union_empty_l_L. by rewrite insert_id.
  - rewrite numbered_cons in *. apply Forall_cons in Hall as [Hx Hall]. destruct fuel as [|fuel]; [lia|].
    set (x := base ++ _ ++ _) in *.
    assert (collection_attempt_name n (Some base) false created w = (Ok x, w)) as Hname.
    { unfold collection_attempt_name. by rewrite andb_false_r. }
    rewrite (loop_step fuel num (Some base) false created acc x w _ ltac:(lia) Hname).
    destruct (try_create_fresh (Some base) x cs w Ht Hn Hx) as (w1 & -> & Ht1 & Hd1 & Hm1).
    destruct (IH fuel (created + 1) ({[x]} ∪ acc) ({[x]} ∪ cs) w1) as (w' & Hrun & Ht' & Hd' & Hm');
      [lia|done|by rewrite Hm1, lookup_insert_eq| |lia|].
    { apply Forall_forall. intros y Hy. rewrite Forall_forall in Hall. specialize (Hall y Hy).
      apply elem_of_numbered in Hy as (i & Hi & ->).
      assert (base ++ py "_" ++ str_of_Z i ≠ x); [|set_solver].
      intros Heq. apply app_inv_head in Heq. apply app_inv_head in Heq. apply str_of_Z_inj in Heq. lia. }
    exists w'. split_and!; [|done|congruence|].
    + rewrite Hrun. do 2 f_equal. set_solver.
    + rewrite Hm', Hm1, insert_insert_eq. f_equal. set_solver.
Qed.

(** The first collection is to be named after the scope, and the scope has it: the
    same name is tried for ever. *)
Lemma loop_scope_name fuel num acc cs w :
  tracks w → manifest (srv w) !! n = Some cs → n ∈ cs → 0 < num →
  (create_collections_loop fuel num n None true 0 acc w).1 = raise Blocked.
Proof.
  revert w. induction fuel as [|fuel IH]; intros w Ht Hn Hin Hnum.
  - cbn. by replace (0 <? num) with true by lia.
  - rewrite (loop_step fuel _ _ _ _ _ n w w) by done.
    destruct (try_create_live None n cs w Ht Hn Hin) as (w1 & -> & Ht1 & _ & Hm & _).
    rewrite bool_decide_eq_true_2 by done. apply IH; [done|by rewrite Hm|done|done].
Qed.
End CreateMany.

(** *** Removing everything *)

(** A server that deletes what its manifest has, the system scope and the default
    scope themselves excepted. *)
Definition deletes {W} `{ManifestLaws W} : Prop :=
  (∀ s n k cs, n ≠ CbServer.system_scope → manifest s !! n = Some cs → k ∈ cs →
     (rest_delete_collection n k s).1 = true) ∧
  (∀ s n, n ≠ CbServer.system_scope → n ≠ CbServer.default_scope → is_Some (manifest s !! n) →
     (rest_delete_scope n s).1 = true).

Section RemoveAll.
Context {W : Type} `{HL : ManifestLaws W} (Hdel : deletes (W := W)).
Implicit Types w : world W.

Lemma active_collection_list b n cs :
  wf b → active b !! n = Some cs →
  ∃ l, get_active_collections b n = Ok l ∧ NoDup (fst <$> l) ∧ list_to_set (fst <$> l) = cs ∧
       c_name ∘ snd <$> l = fst <$> l.
Proof.
  intros Hwf (s & Hs & Hd & ->)%active_Some. destruct (Hwf n s Hs) as [_ Hc].
  unfold get_active_collections, some_scope, get_scope_obj. rewrite Hs. cbn. eexists. split; [done|].
  split_and!; [apply NoDup_active| |].
  - apply set_eq. intros k. rewrite elem_of_list_to_set, active_names_iff. by rewrite elem_of_live_cols.
  - apply list_fmap_ext. intros i [k c] Hi. cbn.
    apply list_elem_of_lookup_2, list_elem_of_In, filter_In in Hi as [Hi%list_elem_of_In _].
    apply elem_of_map_to_list in Hi. by destruct (Hc _ _ Hi).
Qed.

Lemma drop_collections n l cs w :
  n ≠ CbServer.system_scope → tracks w → manifest (srv w) !! n = Some cs → NoDup l →
  Forall (λ k, k ∈ cs) l →
  ∃ w', mfor l (drop_collection n) w = (Ok tt, w') ∧ tracks w' ∧
        manifest (srv w') = <[n := cs ∖ list_to_set l]> (manifest (srv w)).
Proof.
  intros Hn. revert cs w. induction l as [|k l IH]; intros cs w Ht Hm Hnd Hl.
  - exists w. split_and!; [done|done|]. cbn [list_to_set foldr]. by rewrite difference_empty_L, insert_id.
  - apply NoDup_cons in Hnd as [Hk Hnd]. apply Forall_cons in Hl as [Hkc Hl].
    destruct (drop_collection_step n k w Ht) as (H1 & _ & _ & H3).
    rewrite (proj1 Hdel _ n k cs) in H3 by done. destruct H3 as (H3 & _ & H4).
    rewrite (alter_known _ n _ cs) in H4 by done.
    destruct (drop_collection n k w) as [[[]|e] w1] eqn:E; [|done]. cbn in *.
    destruct (IH (cs ∖ {[k]}) w1) as (w' & Hrun & Ht' & Hm'); [done|by rewrite H4, lookup_insert_eq|done| |].
    { rewrite Forall_forall in Hl |- *. set_solver. }
    exists w'. split_and!; [|done|].
    + unfold mbind, M_bind. by rewrite E.
    + rewrite Hm', H4, insert_insert_eq. f_equal. set_solver.
Qed.

(** What is left of a scope. *)
Definition emptied (n : pystr) (m : gmap pystr (gset pystr)) : gmap pystr (gset pystr) :=
  if bool_decide (n = CbServer.system_scope) then m
  else if bool_decide (n = CbServer.default_scope) then <[n := ∅]> m else delete n m.

Definition remove_one (scope : scope) : M (world W) unit :=
  if bool_decide (s_name scope = CbServer.system_scope) then mret tt
  else
    w ← get;
    cols ← lift (get_active_collections (bk w) (s_name scope));
    _ ← mfor (snd <$> cols) (λ collection, drop_collection (s_name scope) (c_name collection));
    if negb (bool_decide (s_name scope = CbServer.default_scope))
    then drop_scope (s_name scope) else mret tt.

Lemma mfor_fmap {S A B} (g : A → B) (l : list A) (f : B → M S unit) (st : S) :
  mfor (g <$> l) f st = mfor l (f ∘ g) st.
Proof.
  revert st. induction l as [|a l IH]; intros st; [done|]. cbn. unfold mbind, M_bind.
  destruct (f (g a) st) as [[[]|e] st']; [by rewrite <- IH|done].
Qed.

Lemma remove_one_spec s w :
  tracks w → is_Some (manifest (srv w) !! s_name s) →
  ∃ w', remove_one s w = (Ok tt, w') ∧ tracks w' ∧
        manifest (srv w') = emptied (s_name s) (manifest (srv w)).
Proof.
  intros Ht [cs Hm]. unfold remove_one, emptied. case_bool_decide as Hsys; [by exists w|].
  erewrite bind_Ok by done. destruct Ht as (Hwf & Ha & Hu).
  destruct (active_collection_list (bk w) (s_name s) cs Hwf) as (l & -> & Hnd & Hl & Hcn); [by rewrite Ha|].
  erewrite bind_Ok by done.
  destruct (drop_collections (s_name s) (fst <$> l) cs w Hsys) as (w1 & Hrun & Ht1 & Hm1);
    [done|done|done|apply Forall_forall; set_solver|].
  rewrite <- Hcn, mfor_fmap in Hrun. rewrite (bind_Ok _ _ _ tt w1) by (by rewrite mfor_fmap).
  rewrite Hl, difference_diag_L in Hm1. case_bool_decide as Hdef; cbn [negb]; [by exists w1|].
  destruct (drop_scope_step (s_name s) w1 Ht1) as (H1 & _ & _ & H3).
  rewrite (proj2 Hdel) in H3 by (try done; rewrite Hm1, lookup_insert_eq; eauto).
  destruct H3 as (H3 & _ & H4). destruct (drop_scope (s_name s) w1) as [[[]|e] w2]; [|done].
  exists w2. split_and!; [done|done|]. cbn in H4. by rewrite H4, Hm1, delete_insert_eq.
Qed.

Lemma emptied_other n k m : n ≠ k → emptied n m !! k = m !! k.
Proof.
  intros Hne. unfold emptied. case_bool_decide; [done|]. case_bool_decide; by simplify_map_eq.
Qed.
Lemma remove_scopes l w :
  tracks w → NoDup (s_name <$> l) → Forall (λ s, is_Some (manifest (srv w) !! s_name s)) l →
  ∃ w', mfor l remove_one w = (Ok tt, w') ∧ tracks w' ∧
    ∀ k, manifest (srv w') !! k =
      if bool_decide (k ∈ s_name <$> l) then emptied k (manifest (srv w)) !! k else manifest (srv w) !! k.
Proof.
  revert w. induction l as [|s l IH]; intros w Ht Hnd Hl.
  - exists w. split_and!; [done|done|]. intros k. by rewrite bool_decide_eq_false_2 by set_solver.
  - cbn in Hnd. apply NoDup_cons in Hnd as [Hs Hnd]. apply Forall_cons in Hl as [Hsm Hl].
    destruct (remove_one_spec s w Ht Hsm) as (w1 & Hrun & Ht1 & Hm1).
    destruct (IH w1 Ht1 Hnd) as (w' & Hrun' & Ht' & Hm').
    { rewrite Forall_forall in Hl |- *. intros s' Hs'. rewrite Hm1, emptied_other; [by apply Hl|].
      intros E. apply Hs. rewrite E. by apply list_elem_of_fmap_2. }
    exists w'. split_and!; [|done|].
    + cbn [mfor]. by rewrite (bind_Ok _ _ _ tt w1).
    + intros k. rewrite Hm', Hm1. destruct (decide (s_name s = k)) as [<-|Hne].
      * rewrite bool_decide_eq_false_2 by done. by rewrite bool_decide_eq_true_2 by set_solver.
      * assert (bool_decide (k ∈ s_name <$> s :: l) = bool_decide (k ∈ s_name <$> l)) as ->
          by (apply bool_decide_ext; set_solver).
        case_bool_decide; [|by apply emptied_other].
        unfold emptied at 1 3. repeat case_bool_decide; rewrite ?lookup_insert_eq, ?lookup_delete_eq; [|done|done].
        by apply emptied_other.
Qed.
End RemoveAll.

(** *** A server *)

(** The laws hold for a server that does what is asked whenever its manifest allows it. *)
Module DemoServer.
Record server := Server { sv_manifest : gmap pystr (gset pystr); sv_uid : Z }.
Definition when (b : bool) (f : gmap pystr (gset pystr) → gmap pystr (gset pystr)) (s : server) :
    bool * server :=
  if b then (true, Server (f (sv_manifest s)) (sv_uid s + 1)) else (false, s).
Definition has (n k : pystr) (s : server) : bool :=
  match sv_manifest s !! n with Some cs => bool_decide (k ∈ cs) | None => false end.
#[global] Instance server_manifest : Manifest server := {
  rest_create_scope n s := when (bool_decide (sv_manifest s !! n = None)) (insert n ∅) s;
  rest_delete_scope n s := when (bool_decide (sv_manifest s !! n ≠ None)) (delete n) s;
  rest_create_collection n spec s :=
    when (bool_decide (sv_manifest s !! n ≠ None) && negb (has n (cs_name spec) s))
      (alter (λ cs, {[cs_name spec]} ∪ cs) n) s;
  rest_delete_collection n k s := when (has n k s) (alter (λ cs, cs ∖ {[k]}) n) s;
  rest_set_history n k _ s := (has n k s, s);
  rest_flush_bucket s := (true, s)
}.
Lemma when_answers (allowed : gmap pystr (gset pystr) → Prop) (b : server → bool) f :
  (∀ s, b s = true → allowed (sv_manifest s)) →
  answers sv_manifest sv_uid allowed f (λ s, when (b s) f s).
Proof. intros Hb s. unfold when. destruct (b s) eqn:E; [|done]. split_and!; [by apply Hb|done|done]. Qed.
#[global] Instance server_laws : ManifestLaws server.
Proof.
  refine {| manifest := sv_manifest; uid := sv_uid |}.
  - intros n. apply when_answers. intros s. by rewrite bool_decide_eq_true.
  - intros n. apply when_answers. intros s. rewrite bool_decide_eq_true. apply not_eq_None_Some.
  - intros n spec. apply when_answers. unfold has. intros s [H1 H2]%andb_prop.
    destruct (sv_manifest s !! n) as [cs|]; [|done]. exists cs. split; [done|].
    by case_bool_decide.
  - intros n k. apply when_answers. unfold has. intros s.
    destruct (sv_manifest s !! n) as [cs|]; [|done]. rewrite bool_decide_eq_true. eauto.
  - done.
Defined.
Lemma server_creates n : creates_in (W := server) n.
Proof.
  intros s spec cs. cbn. unfold has, when. intros Hs Hk. rewrite Hs. rewrite (bool_decide_eq_false_2 _ Hk).
  by rewrite bool_decide_eq_true_2.
Qed.
Lemma server_deletes : deletes (W := server).
Proof.
  split.
  - intros s n k cs _. cbn. unfold has, when. intros Hs Hk. rewrite Hs. by rewrite bool_decide_eq_true_2.
  - intros s n _ _ [cs Hn]. cbn in *. unfold when. by rewrite Hn.
Qed.
End DemoServer.

(** ** Properties *)

(** The manifest of a new bucket. *)
Definition new_manifest (cluster_profile : pystr) : gmap pystr (gset pystr) :=
  {[CbServer.default_scope := {[CbServer.default_collection]};
    CbServer.system_scope :=
      {[CbServer.query_collection; CbServer.mobile_collection]} ∪
      (if bool_decide (cluster_profile = py "serverless")
       then {[CbServer.eventing_collection; CbServer.transaction_collection]} else ∅)]}.

Lemma live_cols_new n k c m :
  c_is_dropped c = false →
  live_cols (MkScope n (<[k := c]> m) false 0) = {[k]} ∪ live_cols (MkScope n m false 0).
Proof.
  intros Hc. pose proof (live_cols_insert k c (MkScope n m false 0)) as H. by rewrite Hc in H.
Qed.
Lemma live_cols_none n : live_cols (MkScope n ∅ false 0) = ∅.
Proof. apply live_cols_all_dropped, map_Forall_empty. Qed.

Lemma Bucket_init_view profile name params b :
  Bucket_init profile name params = Ok b →
  wf b ∧ active b = new_manifest profile ∧ manifest_uid (b_stats b) = 0.
Proof.
  unfold Bucket_init. intros (p & Hp & [= <-])%res_bind_inv. split_and!; [| |done].
  - unfold wf. cbn. apply map_Forall_insert_2; [|apply map_Forall_insert_2; [|apply map_Forall_empty]].
    + split; [done|]. unfold system_scope_obj, add_named. cbn [collections with_collections Scope foldl].
      case_bool_decide; repeat apply map_Forall_insert_2; (done || apply map_Forall_empty).
    + split; [done|]. cbn. apply map_Forall_insert_2; [done|apply map_Forall_empty].
  - unfold active, new_manifest. cbn [scopes].
    rewrite !map_filter_insert_True, map_filter_empty, !fmap_insert, fmap_empty by done.
    rewrite insert_insert_ne by (by intros ?%py_inj).
    assert (live_cols (default_scope_obj p) = {[CbServer.default_collection]}) as ->.
    { unfold default_scope_obj, with_collections, Scope. cbn [s_name collections s_is_dropped s_recreated].
      rewrite live_cols_new, live_cols_none by done. set_solver. }
    assert (live_cols (system_scope_obj profile) =
      {[CbServer.query_collection; CbServer.mobile_collection]} ∪
      (if bool_decide (profile = py "serverless")
       then {[CbServer.eventing_collection; CbServer.transaction_collection]} else ∅)) as ->; [|done].
    unfold system_scope_obj, with_collections, Scope, add_named.
    cbn [s_name collections s_is_dropped s_recreated foldl].
    case_bool_decide; rewrite !live_cols_new, live_cols_none by done; set_solver.
Qed.


(** [create_collections] under a live scope, with a server that creates what its manifest
    allows.  With random names it ends as soon as it has drawn enough new ones, has created exactly the
    first [num] draws that were not live yet, and returns their names.  With a given name it creates
    [name_0], [name_1], ... if none of them is live.  But when the first collection is to carry the name of
    the scope and that collection is live, it tries the same name for ever. *)
Theorem create_collections_spec {W} `{HL : ManifestLaws W} n (w : world W) cs num base fuel l r :
  creates_in (W := W) n → tracks w → manifest (srv w) !! n = Some cs → 0 < num →
  pick (Z.to_nat num) cs (draws w) = Some (l, r) →
  (length (draws w) ≤ fuel)%nat → (Z.to_nat num ≤ fuel)%nat →
  (∃ w', create_collections fuel num n None false w = (Ok (list_to_set l), w') ∧
     len l = num ∧ NoDup l ∧ Forall (λ d, d ∉ cs ∧ d ∈ draws w) l ∧
     tracks w' ∧ draws w' = r ∧ manifest (srv w') = <[n := list_to_set l ∪ cs]> (manifest (srv w))) ∧
  (let names := numbered base 0 (Z.to_nat num) in
   Forall (λ x, x ∉ cs) names →
   ∃ w', create_collections fuel num n (Some base) false w = (Ok (list_to_set names), w') ∧
     tracks w' ∧ manifest (srv w') = <[n := list_to_set names ∪ cs]> (manifest (srv w))) ∧
  (n ∈ cs → ∀ fuel, (create_collections fuel num n None true w).1 = raise Blocked).
Proof.
  intros Hacc Ht Hn Hnum Hp Hf1 Hf2.
  assert (∃ s, scopes (bk w) !! n = Some s) as [s Hs].
  { destruct Ht as (_ & Ha & _). rewrite <- Ha in Hn. apply active_Some in Hn as (s & Hs & _). eauto. }
  assert (∀ f cn ws, create_collections f num n cn ws w = create_collections_loop f num n cn ws 0 ∅ w) as Heq.
  { intros f cn ws. unfold create_collections, dict_get, mbind, M_bind, get, lift. by rewrite Hs. }
  split_and!.
  - destruct (pick_spec _ _ _ _ _ Hp) as (H1 & H2 & H3 & _).
    destruct (loop_random n Hacc fuel num 0 ∅ cs w l r) as (w' & Hrun & Ht' & Hd & Hm);
      [done|done|lia|by rewrite Z.sub_0_r|done|].
    exists w'. rewrite Heq, Hrun, union_empty_r_L. split_and!; try done. unfold len. lia.
  - intros names Hall.
    destruct (loop_named n Hacc fuel base num 0 ∅ cs w) as (w' & Hrun & Ht' & _ & Hm);
      rewrite ?Z.sub_0_r in *; [done|done|done|done|].
    exists w'. by rewrite Heq, Hrun, union_empty_r_L.
  - intros Hin f. rewrite Heq. by eapply loop_scope_name.
Qed.
Lemma create_collections_spec_witness :
  ∃ b, Bucket_init (py "default") None ∅ = Ok b ∧
  let w := World b (DemoServer.Server (new_manifest (py "default")) 0)
             [py "_default"; py "x"; py "x"; py "y"; py "z"] in
  (create_collections 5 2 (py "_default") None false w).1 = Ok {[py "x"; py "y"]} ∧
  (create_collections 5 2 (py "_default") None true w).1 = raise Blocked.
Proof.
  destruct (Bucket_init (py "default") None ∅) as [b|] eqn:Hb; [|discriminate Hb].
  exists b. split; [done|]. intros w.
  assert (tracks w) as Ht.
  { destruct (Bucket_init_view _ _ _ _ Hb) as (H1 & H2 & H3). unfold tracks. cbn. by split_and!. }
  destruct (create_collections_spec (py "_default") w {[py "_default"]} 2 (py "c") 5 [py "x"; py "y"] [py "z"])
    as ((w' & Hrun & _) & _ & Hloop); [apply DemoServer.server_creates|done|vm_compute; reflexivity|lia
    |vm_compute; reflexivity|cbn; lia|lia|].
  split; [rewrite Hrun; cbn [fst]; f_equal; vm_compute; reflexivity|].
  apply Hloop. set_solver.
Defined.

(** [remove_scope_collections_for_bucket] with a server that deletes what may be deleted:
    it returns, and of the manifest only the untouched system scope and the empty default scope are left. *)
Theorem remove_scope_collections_spec {W} `{HL : ManifestLaws W} (w : world W) :
  deletes (W := W) → tracks w →
  ∃ w', remove_scope_collections_for_bucket w = (Ok tt, w') ∧ tracks w' ∧
    ∀ n, manifest (srv w') !! n =
      if bool_decide (n = CbServer.system_scope) then manifest (srv w) !! n
      else if bool_decide (n = CbServer.default_scope) then (λ _, ∅) <$> manifest (srv w) !! n
      else None.
Proof.
  intros Hdel Ht. pose proof Ht as (Hwf & Ha & _).
  assert (s_name <$> (snd <$> get_active_scopes (bk w)) = fst <$> get_active_scopes (bk w)) as Hnames.
  { rewrite <- list_fmap_compose. apply list_fmap_ext. intros i [k s] Hi. cbn.
    apply list_elem_of_lookup_2, list_elem_of_In, filter_In in Hi as [Hi%list_elem_of_In _].
    apply elem_of_map_to_list in Hi. by destruct (Hwf _ _ Hi). }
  assert (∀ n, n ∈ (fst <$> get_active_scopes (bk w)) ↔ is_Some (manifest (srv w) !! n)) as Hin.
  { intros n. rewrite active_scope_names, <- Ha. unfold is_Some. setoid_rewrite active_Some. naive_solver. }
  destruct (remove_scopes Hdel (snd <$> get_active_scopes (bk w)) w Ht) as (w' & Hrun & Ht' & Hm).
  { rewrite Hnames. apply NoDup_active. }
  { apply Forall_forall. intros s Hs. apply Hin. rewrite <- Hnames. by apply list_elem_of_fmap_2. }
  exists w'. split_and!; [exact Hrun|done|]. intros n. rewrite Hm, Hnames. case_bool_decide as E.
  - apply Hin in E as [cols Hc]. unfold emptied. repeat case_bool_decide; [done| |by rewrite lookup_delete_eq].
    by rewrite lookup_insert_eq, Hc.
  - rewrite Hin, <- eq_None_not_Some in E. rewrite E. by repeat case_bool_decide.
Qed.
Lemma remove_scope_collections_spec_witness :
  ∃ b, Bucket_init (py "default") None ∅ = Ok b ∧
  let w0 := World b (DemoServer.Server (new_manifest (py "default")) 0) [] in
  ∃ w', remove_scope_collections_for_bucket w0 = (Ok tt, w') ∧
        manifest (srv w') !! CbServer.default_scope = Some ∅.
Proof.
  destruct (Bucket_init (py "default") None ∅) as [b|] eqn:Hb; [|discriminate Hb].
  exists b. split; [done|]. intros w.
  assert (tracks w) as Ht.
  { destruct (Bucket_init_view _ _ _ _ Hb) as (H1 & H2 & H3). unfold tracks. cbn. by split_and!. }
  destruct (remove_scope_collections_spec w DemoServer.server_deletes Ht) as (w' & Hrun & _ & Hm).
  exists w'. split; [done|]. rewrite Hm. vm_compute. reflexivity.
Defined.

Lemma init_props_eviction name params p :
  init_props name params = Ok p → bucketType p = PStr Type_.EPHEMERAL →
  evictionPolicy p = PStr EvictionPolicy.NRU_EVICTION ∨ evictionPolicy p = PStr EvictionPolicy.NO_EVICTION.
Proof.
  unfold init_props. intros (nv & _ & [= <-])%res_bind_inv Hb. cbn in *. clear nv. rewrite Hb.
  destruct (bool_decide_reflect (PStr Type_.EPHEMERAL = PStr Type_.EPHEMERAL)) as [_|]; [|done].
  match goal with |- context [bool_decide (?q ∈ _)] => generalize q; intros v end.
  destruct (bool_decide_reflect (v ∈ [PStr EvictionPolicy.NRU_EVICTION; PStr EvictionPolicy.NO_EVICTION])) as [E|];
    [|by right].
  apply list_elem_of_In in E. destruct E as [<-|[<-|[]]]; auto.
Qed.

Lemma set_default_props_key p :
  magmaKeyTreeDataBlockSize (set_default_props p) = magmaKeyTreeDataBlockSize p.
Proof. unfold set_default_props. cbn. by destruct (magmaSeqTreeDataBlockSize p). Qed.


(** The object of the sample bucket travel-sample has lost its collections: all five of the
    inventory scope are filed under the name of the scope, so that only the last is left, under a name that
    is not its own; the expected total differs from the item count that the same object states. *)
Theorem travel_sample_broken :
  ∃ b, TravelSample (py "default") = Ok b ∧ ¬ wf b ∧
    (c_name <$> get_collection b (py "inventory") (py "inventory")) = Ok (py "route") ∧
    Forall (λ '(n, _), get_collection b (py "inventory") n = raise KeyError) inventory_collections ∧
    get_expected_total_num_items b = Ok 55615 ∧ expected_item_count (b_stats b) = 63288.
Proof.
  eexists. split; [reflexivity|]. split_and!; [|done| | |done].
  - intros Hwf. specialize (Hwf (py "inventory") _ (lookup_insert_eq _ _ _)) as [_ Hc].
    specialize (Hc (py "inventory") _ (lookup_insert_eq _ _ _)) as [Hn _]. cbn in Hn. by apply py_inj in Hn.
  - repeat constructor.
  - vm_compute. reflexivity.
Qed.

(** A random name fits: when [randint] returns a number in the range it is given and each round of choices has
    that many characters of the character set, the name that [get_random_name] returns has at most
    [max_length] characters; a valid name starts with a letter, a digit or a dash and has only characters that
    names may have.  The call fails, with the exception of [randint], exactly when [max_length] leaves no room. *)
Theorem random_name_bounds invalid_name max_length second microsecond randint choices :
  (∀ a b, if bool_decide (a ≤ b) then ∃ r, randint a b = Ok r ∧ a ≤ r ≤ b else randint a b = raise ValueError) →
  (∀ k, 1 ≤ k → Forall (λ t, len t = k ∧ Forall (λ c, c ∈ char_set invalid_name) t) (choices k) ∧
                ∃ t, t ∈ choices k ∧ name_rejected invalid_name t = Ok false) →
  let room := max_length - len (name_postfix second microsecond) - 1 in
  if bool_decide (1 ≤ room) then
    ∃ name, get_random_name invalid_name max_length second microsecond randint choices = Ok name ∧
      len name ≤ max_length ∧
      (invalid_name = false → ∃ c t, name = (c :: t) ++ py "-" ++ name_postfix second microsecond ∧
         c ∉ invalid_start_chars ∧ Forall (λ c, c ∈ char_set false) (c :: t))
  else get_random_name invalid_name max_length second microsecond randint choices = raise ValueError.
Proof.
  intros Hrand Hch room. specialize (Hrand 1 room). unfold get_random_name. fold room.
  case_bool_decide as Hroom; [|by rewrite Hrand]. destruct Hrand as (k & -> & Hk). cbn.
  destruct (Hch k) as [Hall (t & Ht & Hok)]; [lia|].
  assert (∃ t', first_accepted invalid_name (choices k) = Ok t' ∧ t' ∈ choices k ∧
                name_rejected invalid_name t' = Ok false) as (t' & Hfa & Hin & Hrej).
  { clear -Hall Ht Hok Hk. induction (choices k) as [|u us IH]; [by apply elem_of_nil in Ht|].
    apply Forall_cons in Hall as [[Hu _] Hall]. cbn.
    destruct u as [|c u]; [unfold len in Hu; cbn in Hu; lia|].
    assert (∃ r, name_rejected invalid_name (c :: u) = Ok r) as [r Hr].
    { unfold name_rejected. cbn. destruct invalid_name; eauto. }
    rewrite Hr. cbn. rewrite orb_false_r. destruct r.
    - apply elem_of_cons in Ht as [->|Ht]; [congruence|].
      destruct (IH Hall Ht) as (t' & H1 & H2 & H3). exists t'. split_and!; [done|set_solver|done].
    - exists (c :: u). split_and!; [done|set_solver|done]. }
  rewrite Hfa. cbn. eexists. split; [done|]. rewrite Forall_forall in Hall.
  destruct (Hall t' Hin) as [Hl Hcs]. split.
  - rewrite !len_app, Hl. change (len (py "-")) with 1. unfold room in *. lia.
  - intros ->. destruct t' as [|c t']; [done|]. exists c, t'. split_and!; [done| |done].
    unfold name_rejected in Hrej. cbn in Hrej. injection Hrej as Hrej. by apply bool_decide_eq_false in Hrej.
Qed.
Lemma random_name_bounds_witness :
  ∃ name, get_random_name false 20 59 999999 (λ a b, if bool_decide (a ≤ b) then Ok a else raise ValueError)
    (λ k, [replicate (Z.to_nat k) "_"%char; replicate (Z.to_nat k) "q"%char]) = Ok name ∧ len name ≤ 20.
Proof.
  pose proof (random_name_bounds false 20 59 999999
    (λ a b, if bool_decide (a ≤ b) then Ok a else raise ValueError)
    (λ k, [replicate (Z.to_nat k) "_"%char; replicate (Z.to_nat k) "q"%char])) as H.
  cbn zeta in H. rewrite bool_decide_eq_true_2 in H by (vm_compute; discriminate).
  destruct H as (name & H1 & H2 & _); [| |by exists name].
  - intros a b. case_bool_decide; [|done]. exists a. split; [done|lia].
  - intros k Hk. split.
    + repeat constructor; unfold len; rewrite ?length_replicate; try lia;
        apply Forall_replicate; vm_compute; repeat constructor.
    + exists (replicate (Z.to_nat k) "q"%char). split; [set_solver|].
      destruct (Z.to_nat k) eqn:E; [lia|]. unfold name_rejected. cbn. done.
Defined.

(** *** Totals and the hierarchy check *)

Lemma check_items_true cd sn cols st :
  check_items cd sn cols st = Ok true ↔
  st = true ∧ Forall (λ nc : pystr * collection, ∃ d, cd !! sn = Some d ∧ d !! c_name nc.2 = Some (num_items nc.2)) cols.
Proof.
  revert st. induction cols as [|[k c] cols IH]; intros st; cbn.
  - split; [intros [= ->]; by split|by intros [-> _]].
  - rewrite Forall_cons. unfold dict_get. destruct (cd !! sn) as [d|] eqn:Ed; cbn;
      [|split; [done|by intros (_ & (? & [=] & _) & _)]].
    destruct (d !! c_name c) as [v|] eqn:E; cbn.
    + rewrite IH, andb_true_iff, Z.eqb_eq. split.
      * intros [[-> ->] Hf]. split_and!; [done|by exists d|done].
      * intros (-> & (d' & [= <-] & Hd) & Hf). rewrite Hd in E. by injection E as ->.
    + split; [done|]. intros (_ & (d' & [= <-] & Hd) & _). congruence.
Qed.
Lemma check_scopes_true sd cd b ss st :
  check_scopes sd cd b ss st = Ok true ↔
  st = true ∧ Forall (λ ns : pystr * scope, ∃ l, get_active_collections b (s_name ns.2) = Ok l ∧
    sd !! s_name ns.2 = Some (len l) ∧
    Forall (λ nc : pystr * collection, ∃ d, cd !! s_name ns.2 = Some d ∧ d !! c_name nc.2 = Some (num_items nc.2)) l) ss.
Proof.
  revert st. induction ss as [|[k s] ss IH]; intros st; cbn.
  - split; [intros [= ->]; by split|by intros [-> _]].
  - rewrite Forall_cons. cbn. destruct (get_active_collections b (s_name s)) as [l|e] eqn:El; cbn;
      [|split; [done|by intros (_ & (? & [=] & _) & _)]].
    unfold dict_get. destruct (sd !! s_name s) as [v|] eqn:Ev; cbn;
      [|split; [done|by intros (_ & (? & _ & [=] & _) & _)]].
    pose proof (check_items_true cd (s_name s) l (st && (len l =? v))) as Hi.
    rewrite andb_true_iff, Z.eqb_eq in Hi.
    destruct (check_items cd (s_name s) l (st && (len l =? v))) as [r|e] eqn:Er; cbn.
    + rewrite IH. split.
      * intros [-> Hf]. destruct (proj1 Hi eq_refl) as [[-> <-] Hl]. split_and!; [done|by exists l|done].
      * intros (-> & (l' & [= <-] & [= ->] & Hf) & Hss). split; [|done].
        assert (Ok r = Ok true) as [= ->] by (by apply Hi). done.
    + split; [done|]. intros (-> & (l' & [= <-] & [= ->] & Hf) & _).
      assert (Err e = Ok true) as [=] by (by apply Hi).
Qed.

Lemma length_active b : wf b → len (get_active_scopes b) = Z.of_nat (size (active b)).
Proof.
  intros Hwf. unfold len. f_equal. rewrite <- (length_fmap fst).
  assert (list_to_set (fst <$> get_active_scopes b) = dom (active b)) as E.
  { apply set_eq. intros n. rewrite elem_of_list_to_set, active_scope_names, elem_of_dom.
    unfold is_Some. setoid_rewrite active_Some. naive_solver. }
  rewrite <- size_dom, <- E. symmetry. apply size_list_to_set, NoDup_active.
Qed.
Lemma active_scope_entry b n s :
  (n, s) ∈ get_active_scopes b ↔ scopes b !! n = Some s ∧ s_is_dropped s = false.
Proof.
  unfold get_active_scopes. rewrite list_elem_of_In, filter_In, <- list_elem_of_In, elem_of_map_to_list.
  cbn. destruct (s_is_dropped s); cbn; intuition congruence.
Qed.
Lemma active_collection_entry b n s l k c :
  scopes b !! n = Some s → get_active_collections b n = Ok l →
  (k, c) ∈ l ↔ collections s !! k = Some c ∧ c_is_dropped c = false.
Proof.
  unfold get_active_collections, some_scope, get_scope_obj. intros ->. cbn. intros [= <-].
  rewrite list_elem_of_In, filter_In, <- list_elem_of_In, elem_of_map_to_list. cbn.
  destruct (c_is_dropped c); cbn; intuition congruence.
Qed.

(** The check of one scope. *)
Lemma scope_checked (b : bucket) (n : pystr) (s : scope) (sd : gmap pystr Z) (cd : gmap pystr (gmap pystr Z)) :
  wf b → scopes b !! n = Some s → s_is_dropped s = false →
  (∃ l, get_active_collections b (s_name s) = Ok l ∧ sd !! s_name s = Some (len l) ∧
     Forall (λ nc : pystr * collection, ∃ d, cd !! s_name s = Some d ∧ d !! c_name nc.2 = Some (num_items nc.2)) l) ↔
  sd !! n = Some (Z.of_nat (size (live_cols s))) ∧
  ∀ k, k ∈ live_cols s → ∃ c d, get_collection b n k = Ok c ∧ cd !! n = Some d ∧ d !! k = Some (num_items c).
Proof.
  intros Hwf Hs Hd. destruct (Hwf n s Hs) as [Hn Hcs]. rewrite Hn.
  assert (active b !! n = Some (live_cols s)) as Hact by (apply active_Some; eauto).
  destruct (active_collection_list b n _ Hwf Hact) as (l & Hl & Hnd & Hset & Hcn).
  assert (Z.of_nat (size (live_cols s)) = len l) as ->.
  { rewrite <- Hset, size_list_to_set by done. unfold len. by rewrite length_fmap. }
  assert (∀ k c, collections s !! k = Some c → get_collection b n k = Ok c) as Hget.
  { intros k c Hc. unfold get_collection, dict_get. rewrite Hs. cbn. by rewrite Hc. }
  rewrite Hl. split.
  - intros (l' & [= <-] & Hsd & Hf). split; [done|]. intros k (c & Hc & Hcd)%elem_of_live_cols.
    rewrite Forall_forall in Hf. destruct (Hf (k, c)) as (d & Hd1 & Hd2); [by eapply active_collection_entry|].
    destruct (Hcs _ _ Hc) as [Hk _]. cbn in Hd2. rewrite Hk in Hd2. exists c, d. auto.
  - intros [Hsd Hk]. exists l. split_and!; [done|done|]. apply Forall_forall. intros [k c] Hin.
    apply (active_collection_entry b n s l) in Hin as [Hc Hcd]; [|done|done].
    destruct (Hk k) as (c' & d & Hgc & Hd1 & Hd2); [apply elem_of_live_cols; eauto|].
    exists d. split; [done|]. cbn. destruct (Hcs _ _ Hc) as [-> _]. rewrite (Hget k c Hc) in Hgc. by injection Hgc as <-.
Qed.

(** [validate_bucket_collection_hierarchy] returns [True] exactly when the statistics of the
    cluster agree with the objects: as many scopes as are live, for each live scope as many collections as
    are live in it, and for each of them as many items as its object has.  (A scope or collection that the
    statistics lack raises [KeyError] instead of a verdict.) *)
Theorem hierarchy_validated b scope_count scope_data collection_data :
  wf b →
  validate_bucket_collection_hierarchy b scope_count scope_data collection_data = Ok true ↔
  scope_count = Z.of_nat (size (active b)) ∧
  ∀ n cols, active b !! n = Some cols →
    scope_data !! n = Some (Z.of_nat (size cols)) ∧
    ∀ k, k ∈ cols → ∃ c d, get_collection b n k = Ok c ∧
      collection_data !! n = Some d ∧ d !! k = Some (num_items c).
Proof.
  intros Hwf. unfold validate_bucket_collection_hierarchy. rewrite check_scopes_true, length_active by done.
  rewrite Z.eqb_eq, Forall_forall. split; intros [Hcnt H]; (split; [by symmetry|]).
  - intros n cols (s & Hs & Hd & ->)%active_Some. apply scope_checked; [done|done|done|].
    apply (H (n, s)). by apply active_scope_entry.
  - intros [n s] [Hs Hd]%active_scope_entry. apply (scope_checked b n s); [done|done|done|].
    apply H, active_Some. eauto.
Qed.
Lemma hierarchy_validated_witness :
  let sd := {[py "_default" := 1; py "_system" := 2]} in
  let cd := {[py "_default" := {[py "_default" := 0]}; py "_system" := {[py "_query" := 0; py "_mobile" := 0]}]} in
  ∃ b, Bucket_init (py "default") None ∅ = Ok b ∧
    validate_bucket_collection_hierarchy b 2 sd cd = Ok true ∧ size (active b) = 2%nat.
Proof.
  intros sd cd. destruct (Bucket_init (py "default") None ∅) as [b|] eqn:Hb; [|discriminate Hb].
  assert (match Bucket_init (py "default") None ∅ with
          | Ok b => validate_bucket_collection_hierarchy b 2 sd cd
          | Err _ => Ok false end = Ok true) as H by (vm_compute; reflexivity).
  rewrite Hb in H. exists b. split_and!; [done|exact H|].
  apply (hierarchy_validated b 2 sd cd) in H as [Hn _]; [lia|]. by destruct (Bucket_init_view _ _ _ _ Hb).
Defined.

Lemma sum_scopes_zero f b ss :
  Forall (λ ns : pystr * scope, ∃ l, get_active_collections b (s_name ns.2) = Ok l ∧ f l = 0) ss →
  sum_scopes f b ss = Ok 0.
Proof.
  induction 1 as [|[k s] ss (l & Hl & Hf) _ IH]; [done|]. cbn in *. rewrite Hl. cbn. rewrite IH. cbn.
  by rewrite Hf.
Qed.
Lemma sum_items_zero l : Forall (λ nc : pystr * collection, num_items nc.2 = 0) l → sum_items l = 0.
Proof. induction 1 as [|[k c] l Hc _ IH]; [done|]. cbn in *. unfold sum_items in IH. lia. Qed.

(** A flush that the server accepts resets every live collection of every live scope: its
    document windows are empty and its item count is zero, or kept when the caller asks for that;
    dropped scopes and collections keep what they have, and nothing else changes.  Unless counts are
    kept, the expected total of the bucket is then zero. *)
Theorem flush_bucket_spec {W} `{Manifest W} skip (w : world W) sv :
  wf (bk w) → rest_flush_bucket (srv w) = (true, sv) →
  let b' := with_scopes (fmap (flush_scope skip)) (bk w) in
  flush_bucket skip w = (Ok true, World b' sv (draws w)) ∧
  (∀ n s k c, scopes (bk w) !! n = Some s → collections s !! k = Some c →
     get_collection b' n k = Ok (if s_is_dropped s || c_is_dropped c then c else flushed skip c)) ∧
  (skip = false → get_expected_total_num_items b' = Ok 0).
Proof.
  intros Hwf Hsv b'.
  assert (∀ n s, scopes b' !! n = Some s → ∃ s0, scopes (bk w) !! n = Some s0 ∧ s = flush_scope skip s0) as Hinv.
  { intros n s. unfold b'. cbn. rewrite lookup_fmap. intros (s0 & Hs & ->)%fmap_Some. eauto. }
  split_and!.
  - rewrite flush_bucket_eq. by rewrite Hsv.
  - intros n s k c Hs Hc. unfold get_collection, dict_get, b'. cbn. rewrite lookup_fmap, Hs. cbn.
    unfold flush_scope. destruct (s_is_dropped s); cbn; [by rewrite Hc|]. by rewrite lookup_fmap, Hc.
  - intros ->. apply sum_scopes_zero. apply Forall_forall. intros [n s] [Hs Hd]%active_scope_entry.
    assert (wf b') as Hwf' by (by apply flush_view). destruct (Hwf' n s Hs) as [Hn _]. cbn. rewrite Hn.
    destruct (active_collection_list b' n (live_cols s)) as (l & Hl & _); [done|apply active_Some; eauto|].
    exists l. split; [done|]. apply sum_items_zero, Forall_forall. intros [k c] Hin.
    apply (active_collection_entry b' n s l) in Hin as [Hc Hcd]; [|done|done].
    apply Hinv in Hs as (s0 & Hs0 & ->). unfold flush_scope in *.
    destruct (s_is_dropped s0) eqn:E; [congruence|]. cbn in Hc. rewrite lookup_fmap in Hc.
    apply fmap_Some in Hc as (c0 & Hc0 & ->). cbn. by destruct (c_is_dropped c0) eqn:E0; [congruence|].
Qed.
Lemma flush_bucket_spec_witness :
  ∃ b, sample_bucket (py "default") (py "beer-sample") 7303 7303 = Ok b ∧
    (flush_bucket false (World b (DemoServer.Server ∅ 0) [])).1 = Ok true ∧
    get_expected_total_num_items (with_scopes (fmap (flush_scope false)) b) = Ok 0.
Proof.
  destruct (sample_bucket (py "default") (py "beer-sample") 7303 7303) as [b|] eqn:Hb; [|discriminate Hb].
  exists b. split; [done|].
  assert (wf b) as Hwf.
  { unfold sample_bucket in Hb. apply res_bind_inv in Hb as (b0 & Hb0 & Hb).
    apply Bucket_init_view in Hb0 as (Hwf & _). apply res_bind_inv in Hb as (c & Hc & [= <-]).
    unfold get_collection, dict_get in Hc. cbn in Hc.
    destruct (scopes b0 !! CbServer.default_scope) as [s|] eqn:Hs; [|done]. cbn in Hc.
    destruct (collections s !! CbServer.default_collection) as [c'|] eqn:Hc'; [|done].
    rewrite (on_collection_known _ _ _ _ s c') by done. destruct (Hwf _ _ Hs) as [Hn Hcs].
    destruct (Hcs _ _ Hc') as [Hn' Hd']. apply wf_insert; [done|]. by apply wf_scope_insert. }
  destruct (flush_bucket_spec false (World b (DemoServer.Server ∅ 0) []) (DemoServer.Server ∅ 0) Hwf)
    as (H1 & _ & H2); [done|]. split; [by rewrite H1|by apply H2].
Defined.
