(* ===== verification/DocLoader.v ===== *)
(** * couchbase_utils/bucket_utils: DocLoaderUtils

    Which documents a test loads: [DocLoaderUtils] of bucket_ready_functions.py keeps, in each
    [Collection] object, the window of document numbers that exist and the window of those with
    sub-documents, cuts ranges for create, update, delete, ... out of it,
    takes failed operations back, and retries them.  The generators that are given the ranges
    are those of DocGen.v; the SDK client that retries is a parameter. *)

From S2P Require Import Prelude Py Bucket.
Local Open Scope Z_scope.
#[local] Arguments py : simpl never.

(** ** lib/Cb_constants/DocLoading.py *)

Module DocOps.
Definition CREATE := py "create".
Definition DELETE := py "delete".
Definition UPDATE := py "update".
Definition REPLACE := py "replace".
Definition READ := py "read".
Definition TOUCH := py "touch".
End DocOps.
Module SubDocOps.
Definition INSERT := py "insert".
Definition UPSERT := py "upsert".
Definition REMOVE := py "remove".
Definition LOOKUP := py "lookup".
Definition COUNTER := py "counter".
End SubDocOps.
Definition DOC_OPS : list pystr :=
  [DocOps.DELETE; DocOps.READ; DocOps.TOUCH; DocOps.UPDATE; DocOps.REPLACE; DocOps.CREATE].
Definition SUB_DOC_OPS : list pystr :=
  [SubDocOps.REMOVE; SubDocOps.LOOKUP; SubDocOps.UPSERT; SubDocOps.INSERT].

(** ** Windows *)

Definition set_doc_index (w : Z * Z) (c : collection) : collection :=
  MkCollection (c_name c) (num_items c) (maxTTL c) (history c) (c_is_dropped c) (c_recreated c)
    w (sub_doc_index c).
Definition set_sub_doc_index (w : Z * Z) (c : collection) : collection :=
  MkCollection (c_name c) (num_items c) (maxTTL c) (history c) (c_is_dropped c) (c_recreated c)
    (doc_index c) w.
Definition add_num_items (n : Z) (c : collection) : collection := set_num_items (num_items c + n) c.

(** [__get_required_num_from_percentage]; percentages are integers, so that [/] is the
    integer division of Python 2. *)
Definition get_required_num_from_percentage (c : collection) (target_percent : Z) (op_type : pystr) : Z :=
  if bool_decide (op_type ∈ [SubDocOps.REMOVE; SubDocOps.LOOKUP])
  then let sub_doc_num_items := (sub_doc_index c).2 - (sub_doc_index c).1 in
       (sub_doc_num_items * target_percent) / 100
  else (num_items c * target_percent) / 100.

(** [rewind_doc_index]: [n] is [doc_gen.end - doc_gen.start]. *)
Definition rewind_doc_index (op_type : pystr) (n : Z) (update_num_items : bool) (c : collection) : collection :=
  let '(d0, d1) := doc_index c in
  let '(s0, s1) := sub_doc_index c in
  if bool_decide (op_type = DocOps.CREATE) then
    let c := set_doc_index (d0, d1 - n) c in
    if update_num_items then add_num_items (- n) c else c
  else if bool_decide (op_type = DocOps.DELETE) then
    let c := set_doc_index (d0 - n, d1) c in
    if update_num_items then add_num_items n c else c
  else if bool_decide (op_type = SubDocOps.INSERT) then set_sub_doc_index (s0, s1 - n) c
  else if bool_decide (op_type = SubDocOps.REMOVE) then set_sub_doc_index (s0 - n, s1) c
  else c.

(** A call of one of the generator functions, with the range it is given. *)
Inductive gen_call :=
  | DocGen (start end_ : Z) (target_vbuckets : option (list Z))
  | EmployeeGen (start docs_per_day : Z)
  | SubDocGen (start end_ : Z) (target_vbuckets : option (list Z)) (xattr_test : bool)
  | SubDocEditGen (start end_ template_index : Z) (target_vbuckets : option (list Z)) (xattr_test : bool).

(** [get_doc_generator]: [target_vbuckets] is [None] for the value "all". *)
Definition overlaps_subdocs (op_type : pystr) : bool :=
  bool_decide (op_type ∈ [DocOps.DELETE; DocOps.UPDATE; DocOps.REPLACE]).
Definition push_subdocs (en : Z) (c : collection) : collection :=
  let '(s0, s1) := sub_doc_index c in
  if s0 <? en then set_sub_doc_index (en, if s1 <? en then en else s1) c else c.
Definition doc_range (op_type : pystr) (n : Z) (c : collection) : (Z * Z) * collection :=
  let '(d0, d1) := doc_index c in
  if bool_decide (op_type = py "create") then
    let st := d1 in let en := st + n in
    let c := if bool_decide (doc_index c ≠ (0, 0)) then add_num_items (en - st) c else c in
    ((st, en), set_doc_index (d0, en) c)
  else if bool_decide (op_type = py "delete") then
    let st := d0 in let en := st + n in
    ((st, en), add_num_items (- (en - st)) (set_doc_index (en, d1) c))
  else ((d0, d0 + n), c).
Definition get_doc_generator (op_type : pystr) (n : Z) (target_vbuckets : option (list Z)) (type : pystr) :
    M collection gen_call :=
  c ← get;
  let '((st, en), c) := doc_range op_type n c in
  let c := if overlaps_subdocs op_type then push_subdocs en c else c in
  _ ← put c;
  let en := match target_vbuckets with None => en | Some _ => en - st end in
  if bool_decide (type = py "default") then mret (DocGen st en target_vbuckets)
  else if bool_decide (type = py "employee") then mret (EmployeeGen st en)
  else mraise TypeError.   (* generate_earthquake_doc has no parameter docs_per_day *)

(** [get_subdoc_generator]: [choice] is the result of [random.choice([0, 1])]. *)
Definition get_subdoc_generator (op_type : pystr) (n : Z) (target_vbuckets : option (list Z))
    (xattr_test : bool) (choice : Z) : M collection gen_call :=
  c ← get;
  let '(s0, s1) := sub_doc_index c in
  let d1 := (doc_index c).2 in
  let size st en := match target_vbuckets with None => en | Some _ => en - st end in
  if bool_decide (op_type = SubDocOps.INSERT) then
    let st := s1 in
    let en := if st + n >? d1 then d1 else st + n in
    _ ← put (set_sub_doc_index (s0, en) c);
    mret (SubDocGen st (size st en) target_vbuckets xattr_test)
  else
    let st := s0 in let en := st + n in
    if bool_decide (op_type = SubDocOps.REMOVE) then
      _ ← put (set_sub_doc_index (en, s1) c);
      mret (SubDocEditGen st (size st en) 2 target_vbuckets xattr_test)
    else if bool_decide (op_type = SubDocOps.LOOKUP) then
      mret (SubDocEditGen st (size st en) 0 target_vbuckets xattr_test)
    else
      if bool_decide (op_type = SubDocOps.UPSERT) then
        let en' := if en >? d1 then d1 else if en >? s1 then s1 else en in
        _ ← put (if (en >? d1) || (en >? s1) then set_sub_doc_index (s0, en') c else c);
        mret (SubDocEditGen st (size st en') choice target_vbuckets xattr_test)
      else mret (SubDocEditGen st (size st en) choice target_vbuckets xattr_test).

(** ** Generators for a specification *)

(** What is recorded for one operation on one collection. *)
Record op_data := OpData {
  doc_ttl : Z; target_items : Z; iterations : Z; durability_lvl : pystr;
  ignore_exceptions : list pystr; retry_exceptions : list pystr;
  doc_gen_type : pystr; xattr : option bool; doc_gen : gen_call
}.
(** The values of the input specification that the loop uses. *)
Record crud_params := CrudParams {
  in_doc_ttl : Z; in_durability : pystr; in_ignore : list pystr; in_retry : list pystr;
  in_gen_type : pystr → pystr;     (* the type, or a choice seeded by the collection's name *)
  in_target_vbs : option (list Z); in_choice : Z;
  spec_percent_data : gmap pystr (Z * Z)
}.

(** [target_ops] of [create_load_gens] *)
Definition target_ops (sub_doc_gen collection_recreated : bool) : list pystr :=
  if collection_recreated then [DocOps.CREATE]
  else if sub_doc_gen then SUB_DOC_OPS
  else DOC_OPS ++ [py "cont_update"; py "cont_replace"].

(** The body of the innermost loop of [create_load_gens], for one collection and operation: the
    collection and its entry of [crud_spec]. *)
Definition load_gen (p : crud_params) (is_xattr_test recreated : bool) (c_name op_type : pystr) :
    M (collection * gmap pystr op_data) unit :=
  st ← get;
  let '(c, crud) := st in
  percent ← lift (if recreated then Ok 100 else fst <$> dict_get (spec_percent_data p) op_type);
  let n := get_required_num_from_percentage c percent op_type in
  if n =? 0 then mret tt
  else
    its ← lift (snd <$> dict_get (spec_percent_data p) op_type);
    let type := in_gen_type p c_name in
    let is_doc := bool_decide (op_type ∈ DOC_OPS) in
    let '(r, c') := if is_doc then get_doc_generator op_type n (in_target_vbs p) type c
                    else get_subdoc_generator op_type n (in_target_vbs p) is_xattr_test (in_choice p) c in
    _ ← put (c', crud);
    gen ← lift r;
    put (c', <[op_type := OpData (in_doc_ttl p) n its (in_durability p) (in_ignore p) (in_retry p)
                            type (if is_doc then None else Some is_xattr_test) gen]> crud).
Definition load_gens_collection (p : crud_params) (sub_doc_gen is_xattr_test recreated : bool)
    (c_name : pystr) : M (collection * gmap pystr op_data) unit :=
  mfor (target_ops sub_doc_gen recreated) (load_gen p is_xattr_test recreated c_name).

(** [create_load_gens]: buckets, scopes and collections of the specification in order; [crud_spec] is
    the dictionary by bucket, scope, collection and operation. *)
Definition crud_spec := gmap pystr (gmap pystr (gmap pystr (gmap pystr op_data))).
Record loader := Loader { ld_buckets : list bucket; ld_crud : crud_spec }.
Definition setdefault {V} (k : pystr) (v : V) (m : gmap pystr V) : gmap pystr V :=
  match m !! k with Some _ => m | None => <[k := v]> m end.
Definition on_crud (f : crud_spec → crud_spec) (l : loader) : loader := Loader (ld_buckets l) (f (ld_crud l)).
Fixpoint update_bucket (name : pystr) (f : bucket → bucket) (bs : list bucket) : list bucket :=
  match bs with
  | [] => []
  | b :: bs => if bool_decide (b_name b = name) then f b :: bs else b :: update_bucket name f bs
  end.
Definition load_gens_at (p : crud_params) (sub_doc_gen is_xattr_test recreated : bool)
    (b_name s_name c_name : pystr) : M loader unit :=
  _ ← modify (on_crud (alter (alter (setdefault c_name ∅) s_name) b_name));
  l ← get;
  b ← lift (of_option AttributeError (get_bucket_obj (ld_buckets l) b_name));
  c ← lift (get_collection b s_name c_name);
  let crud := opt_get (ld_crud l !! b_name ≫= λ m, m !! s_name ≫= λ m, m !! c_name) ∅ in
  let '(r, (c', crud')) :=
    load_gens_collection p sub_doc_gen is_xattr_test recreated c_name (c, crud) in
  _ ← put (Loader (update_bucket b_name (on_collection s_name c_name (λ _, c')) (ld_buckets l))
             (alter (alter (insert c_name crud') s_name) b_name (ld_crud l)));
  lift r.
Definition create_load_gens (p : crud_params) (sub_doc_gen is_xattr_test recreated : bool)
    (spec : list (pystr * list (pystr * list pystr))) : M loader unit :=
  mfor spec (λ '(b_name, s_dict),
    _ ← modify (on_crud (setdefault b_name ∅));
    l ← get;
    mfor s_dict (λ '(s_name, c_dict),
      _ ← modify (on_crud (alter (setdefault s_name ∅) b_name));
      b ← lift (of_option AttributeError (get_bucket_obj (ld_buckets l) b_name));
      _ ← lift (dict_get (scopes b) s_name);
      mfor c_dict (load_gens_at p sub_doc_gen is_xattr_test recreated b_name s_name))).

(** ** Expiry *)

(** [update_num_items_based_on_expired_docs] with [ttl_level] "document": for each scope, the collections
    with the entries of the loader specification ([n] is [doc_gen.end - doc_gen.start]).
    The state is the flag, the longest expiry time and the collection. *)
Definition expire_entry (op_type : pystr) (ttl n : Z) (updated : bool) (longest : Z) (c : collection) :
    bool * Z * collection :=
  let longest := if ttl >? longest then ttl else longest in
  if negb (ttl =? 0) && bool_decide (op_type ∈ [DocOps.CREATE; DocOps.TOUCH; DocOps.UPDATE; DocOps.REPLACE])
  then
    let '(d0, d1) := doc_index c in
    if bool_decide (op_type = DocOps.CREATE)
    then (updated, longest, add_num_items (- n) (set_doc_index (d0, d1 - n) c))
    else if negb updated
    then (true, longest, add_num_items (- n) (set_doc_index (d0 + n, d1) c))
    else (updated, longest, c)
  else (updated, longest, c).
Fixpoint expire_collection (ops : list (pystr * Z * Z)) (updated : bool) (longest : Z) (c : collection) :
    bool * Z * collection :=
  match ops with
  | [] => (updated, longest, c)
  | (op, ttl, n) :: ops =>
      let '(updated, longest, c) := expire_entry op ttl n updated longest c in
      expire_collection ops updated longest c
  end.
Fixpoint expire_scope (cols : list (collection * list (pystr * Z * Z))) (updated : bool) (longest : Z) :
    Z * list collection :=
  match cols with
  | [] => (longest, [])
  | (c, ops) :: cols =>
      let '(updated, longest, c) := expire_collection ops updated longest c in
      let '(longest, cs) := expire_scope cols updated longest in
      (longest, c :: cs)
  end.
(** [num_items_updated] is reset at each scope. *)
Fixpoint expire_documents (scs : list (list (collection * list (pystr * Z * Z)))) (longest : Z) :
    Z * list (list collection) :=
  match scs with
  | [] => (longest, [])
  | cols :: scs =>
      let '(longest, cs) := expire_scope cols false longest in
      let '(longest, css) := expire_documents scs longest in
      (longest, cs :: css)
  end.
(** The level "collection": every collection of every scope, live or not. *)
Fixpoint expire_by_collection (cs : list collection) (longest : Z) : Z * list collection :=
  match cs with
  | [] => (longest, [])
  | c :: cs =>
      let '(longest, c) := if maxTTL c >? longest then (maxTTL c, set_num_items 0 c) else (longest, c) in
      let '(longest, cs) := expire_by_collection cs longest in
      (longest, c :: cs)
  end.
(** The level "bucket", for one bucket with its TTL. *)
Definition expire_by_bucket (ttl : Z) (cs : list collection) (longest : Z) : Z * list collection :=
  (if ttl >? longest then ttl else longest, set_num_items 0 <$> cs).

(** ** Retrying failed operations *)

(** lib/sdk_exceptions.py: the names that the code below looks for. *)
Module SDKException.
Definition DocumentExistsException := py "com.couchbase.client.core.error.DocumentExistsException".
Definition DocumentNotFoundException := py "com.couchbase.client.core.error.DocumentNotFoundException".
Definition DurabilityAmbiguousException := py "com.couchbase.client.core.error.DurabilityAmbiguousException".
Definition TimeoutException := py "com.couchbase.client.core.error.TimeoutException".
Definition AmbiguousTimeoutException := py "com.couchbase.client.core.error.AmbiguousTimeoutException".
Definition PathNotFoundException := py "com.couchbase.client.core.error.subdoc.PathNotFoundException".
Definition PathExistsException := py "com.couchbase.client.java.error.subdoc.PathExistsException".
Definition RequestCanceledException := py "com.couchbase.client.core.error.RequestCanceledException".
End SDKException.

(** [re.match(".*(com\.[a-zA-Z0-9\.]+)", s)]: the name of a Java class in the first line; the last
    one, since [.*] takes as much as it can.  Only whether there is one matters here. *)
Definition in_class (c : ascii) : bool :=
  let n := ord c in
  ((97 <=? n) && (n <=? 122)) || ((65 <=? n) && (n <=? 90)) || ((48 <=? n) && (n <=? 57)) || (n =? 46).
Definition class_here (s : pystr) : bool :=
  startswith (py "com.") s && match drop 4 s with c :: _ => in_class c | [] => false end.
Fixpoint has_class_name (s : pystr) : bool :=
  class_here s ||
  match s with
  | [] => false
  | c :: s => if ord c =? 10 then false else has_class_name s
  end.
Definition match_class (s : pystr) : res unit :=
  if has_class_name s then Ok tt else raise AttributeError.

Section Retry.
(** A document, the client's state, and [client.crud] for documents and for sub-documents. *)
Context {V C : Type}.
Record failed_doc := FailedDoc { f_error : pystr; f_value : V; f_paths : list V }.
(** The [status] and [error] of a result. *)
Record result := Result { r_status : bool; r_error : pystr }.
Variable crud : pystr → pystr → V → C → result * C.
(** [client.crud] of a sub-document operation: the error of the document if it failed. *)
Variable crud_path : pystr → pystr → V → C → option pystr * C.

Record task_data := TaskData {
  fail : gmap pystr failed_doc;
  retried_success : gmap pystr result; retried_fail : gmap pystr result;
  unwanted_success : gmap pystr result; unwanted_fail : gmap pystr result
}.
(** The state while one operation is validated. *)
Record retry := Retry { rt_items : Z; rt_data : task_data; rt_client : C }.

Definition ambiguous (e : pystr) : bool :=
  contains SDKException.DurabilityAmbiguousException e
  || contains SDKException.AmbiguousTimeoutException e
  || contains SDKException.TimeoutException e
  || (contains SDKException.RequestCanceledException e && contains (py "CHANNEL_CLOSED_WHILE_IN_FLIGHT") e).
Definition mentions (names : list pystr) (e : pystr) : bool := existsb (λ x, contains x e) names.

(** The sub-document operations are retried until one fails. *)
Fixpoint retry_paths (op_type key : pystr) (paths : list V) (cl : C) : result * C :=
  match paths with
  | [] => (Result true [], cl)
  | v :: paths =>
      match crud_path op_type key v cl with
      | (None, cl) => retry_paths op_type key paths cl
      | (Some e, cl) => (Result false e, cl)
      end
  end.
Definition retry_op (op_type key : pystr) (d : failed_doc) (cl : C) : result * C :=
  if bool_decide (op_type ∈ DOC_OPS) then crud op_type key (f_value d) cl
  else retry_paths op_type key (f_paths d) cl.

(** The operation took effect: the retry succeeded, or the first attempt may have and the retry
    says that it did. *)
Definition took_effect (op_type : pystr) (ambiguous_state : bool) (r : result) : bool :=
  r_status r
  || (ambiguous_state && contains SDKException.DocumentExistsException (r_error r)
      && bool_decide (op_type ∈ [py "create"; py "update"]))
  || (ambiguous_state && contains SDKException.PathExistsException (r_error r)
      && bool_decide (op_type ∈ [SubDocOps.INSERT]))
  || (ambiguous_state && contains SDKException.DocumentNotFoundException (r_error r)
      && bool_decide (op_type = py "delete"))
  || (ambiguous_state && contains SDKException.PathNotFoundException (r_error r)
      && bool_decide (op_type = SubDocOps.REMOVE)).

(** [num_items] when an operation did not take effect. *)
Definition undo_items (op_type : pystr) (n : Z) : Z :=
  if bool_decide (op_type = DocOps.CREATE) then n - 1
  else if bool_decide (op_type = DocOps.DELETE) then n + 1 else n.

Definition pop_fail (k : pystr) (t : task_data) : task_data :=
  TaskData (delete k (fail t)) (retried_success t) (retried_fail t) (unwanted_success t) (unwanted_fail t).
(** [op_data[retry_strategy]["success"][key] = result] and the same for "fail". *)
Definition record_success (expected : bool) (k : pystr) (r : result) (t : task_data) : task_data :=
  if expected
  then TaskData (delete k (fail t)) (<[k := r]> (retried_success t)) (retried_fail t) (unwanted_success t) (unwanted_fail t)
  else TaskData (fail t) (retried_success t) (retried_fail t) (<[k := r]> (unwanted_success t)) (unwanted_fail t).
Definition record_fail (expected : bool) (k : pystr) (r : result) (t : task_data) : task_data :=
  if expected
  then TaskData (fail t) (retried_success t) (<[k := r]> (retried_fail t)) (unwanted_success t) (unwanted_fail t)
  else TaskData (fail t) (retried_success t) (retried_fail t) (unwanted_success t) (<[k := r]> (unwanted_fail t)).

(** The body of the loop of [validate_crud_task_per_collection] over the failed keys. *)
Definition validate_key (op_type : pystr) (ignore retry_on : list pystr) (kd : pystr * failed_doc) :
    M retry unit :=
  let '(key, d) := kd in
  _ ← lift (match_class (f_error d));
  if mentions ignore (f_error d) then
    modify (λ s, Retry (undo_items op_type (rt_items s)) (pop_fail key (rt_data s)) (rt_client s))
  else
    s ← get;
    let '(r, cl) := retry_op op_type key d (rt_client s) in
    _ ← put (Retry (rt_items s) (rt_data s) cl);
    let expected := mentions retry_on (f_error d) in
    if took_effect op_type (ambiguous (f_error d)) r then
      modify (λ s, Retry (rt_items s) (record_success expected key r (rt_data s)) (rt_client s))
    else
      _ ← modify (λ s, Retry (undo_items op_type (rt_items s)) (record_fail expected key r (rt_data s)) (rt_client s));
      lift (match_class (r_error r)).
Definition validate_op (op_type : pystr) (ignore retry_on : list pystr) : M retry unit :=
  _ ← modify (λ s, Retry (rt_items s) (TaskData (fail (rt_data s)) ∅ ∅ ∅ ∅) (rt_client s));
  s ← get;
  mfor (map_to_list (fail (rt_data s))) (validate_key op_type ignore retry_on).

(** [validate_crud_task_per_collection]: document operations first.  Each entry has the operation, its
    exceptions to ignore and to retry on, and its data. *)
Record op_entry := OpEntry { oe_op : pystr; oe_ignore : list pystr; oe_retry : list pystr; oe_data : task_data }.
Fixpoint validate_ops (ops : list op_entry) (items : Z) (cl : C) : res unit * (Z * list op_entry * C) :=
  match ops with
  | [] => (Ok tt, (items, [], cl))
  | e :: ops =>
      let '(r, s) := validate_op (oe_op e) (oe_ignore e) (oe_retry e) (Retry items (oe_data e) cl) in
      let e' := OpEntry (oe_op e) (oe_ignore e) (oe_retry e) (rt_data s) in
      match r with
      | Err x => (Err x, (rt_items s, e' :: ops, rt_client s))
      | Ok _ =>
          let '(r, (items, es, cl)) := validate_ops ops (rt_items s) (rt_client s) in
          (r, (items, e' :: es, cl))
      end
  end.
Definition validate_crud_task (c_data : list op_entry) (items : Z) (cl : C) :
    res unit * (Z * list op_entry * C) :=
  let is_doc e := bool_decide (oe_op e ∈ DOC_OPS) in
  validate_ops (List.filter is_doc c_data ++ List.filter (negb ∘ is_doc) c_data) items cl.

(** The verdict of [validate_doc_loading_results]: an operation has failures left. *)
Definition loading_result (ops : list task_data) : bool :=
  forallb (λ t, bool_decide (fail t = ∅)) ops.

End Retry.
Arguments failed_doc : clear implicits.
Arguments task_data : clear implicits.
Arguments retry : clear implicits.
Arguments op_entry : clear implicits.

(** ** Proofs: windows *)

(** [eval_ops] decides the comparisons between operation names. *)
Ltac eval_ops :=
  repeat match goal with
  | |- context [@bool_decide ?P ?D] =>
      let b := eval vm_compute in (@bool_decide P D) in
      lazymatch b with true => idtac | false => idtac end;
      change (@bool_decide P D) with b
  end.

(** The collection has been loaded: its window is that of its items, and sub-documents are in it. *)
Definition loaded (c : collection) : Prop :=
  let '(d0, d1) := doc_index c in
  let '(s0, s1) := sub_doc_index c in
  0 ≤ d0 ∧ 0 < d1 ∧ num_items c = d1 - d0 ∧ d0 ≤ s0 ∧ s0 ≤ s1 ∧ s1 ≤ d1.

(** The range of a generator that is not limited to some vbuckets. *)
Definition gen_range (g : gen_call) : Z * Z :=
  match g with
  | DocGen a b _ | EmployeeGen a b | SubDocGen a b _ _ | SubDocEditGen a b _ _ _ => (a, b)
  end.

(** What an operation does to the documents that exist: those in the window. *)
Definition moves (op_type : pystr) (w : Z * Z) (r : Z * Z) (w' : Z * Z) : Prop :=
  let '(d0, d1) := w in let '(a, b) := r in let '(d0', d1') := w' in
  if bool_decide (op_type = DocOps.CREATE) then a = d1 ∧ b = d1' ∧ d0' = d0 ∧ a ≤ b
  else if bool_decide (op_type = DocOps.DELETE) then a = d0 ∧ b = d0' ∧ d1' = d1 ∧ a ≤ b ∧ b ≤ d1
  else d0' = d0 ∧ d1' = d1 ∧ d0 ≤ a ∧ a ≤ b ∧ b ≤ d1.

Lemma percent_range n p : 0 ≤ n → 0 ≤ p ≤ 100 → 0 ≤ n * p / 100 ≤ n.
Proof. intros Hn Hp. split; [apply Z.div_pos; nia|]. apply Z.div_le_upper_bound; nia. Qed.

Lemma doc_range_ok op c n :
  loaded c → 0 ≤ n → (op ≠ DocOps.CREATE → n ≤ num_items c) → op ∈ DOC_OPS →
  let '(r, c1) := doc_range op n c in
  let c2 := if overlaps_subdocs op then push_subdocs r.2 c1 else c1 in
  moves op (doc_index c) r (doc_index c2) ∧ loaded c2.
Proof.
  destruct c as [cn m ttl h dr rc [d0 d1] [s0 s1]]. unfold loaded, doc_range, moves, push_subdocs, overlaps_subdocs.
  cbn [doc_index sub_doc_index num_items]. intros (H1 & H2 & -> & H4 & H5 & H6) Hn Hle Hop.
  apply list_elem_of_In in Hop. cbn [DOC_OPS In] in Hop.
  destruct_or! Hop; subst op; eval_ops; cbv beta iota zeta.
  all: try (rewrite bool_decide_eq_true_2 by (intros [= ? ?]; lia)).
  all: cbn [doc_index sub_doc_index num_items fst snd set_doc_index set_sub_doc_index add_num_items set_num_items].
  all: try (specialize (Hle ltac:(by intros ?%py_inj))).
  all: repeat match goal with |- context [?a <? ?b] => destruct (Z.ltb_spec a b) end;
    cbn [doc_index sub_doc_index num_items fst snd set_doc_index set_sub_doc_index add_num_items set_num_items]; lia.
Qed.

Lemma subdoc_range_ok op c n x ch :
  loaded c → 0 ≤ n → (op = SubDocOps.REMOVE ∨ op = SubDocOps.LOOKUP → n ≤ (sub_doc_index c).2 - (sub_doc_index c).1) →
  op ∈ SUB_DOC_OPS →
  ∃ g c2, get_subdoc_generator op n None x ch c = (Ok g, c2) ∧
    moves op (doc_index c) (gen_range g) (doc_index c2) ∧ loaded c2.
Proof.
  destruct c as [cn m ttl h dr rc [d0 d1] [s0 s1]]. unfold loaded, moves, get_subdoc_generator, mbind, M_bind, get, put, mret, M_ret.
  cbn [doc_index sub_doc_index num_items fst snd]. intros (H1 & H2 & -> & H4 & H5 & H6) Hn Hle Hop.
  apply list_elem_of_In in Hop. cbn [SUB_DOC_OPS In] in Hop.
  destruct_or! Hop; subst op; eval_ops; cbv beta iota zeta; (eexists _, _; split; [reflexivity|]).
  all: cbn [doc_index sub_doc_index num_items fst snd gen_range set_sub_doc_index].
  all: try (specialize (Hle ltac:(by (left + right)))).
  all: repeat match goal with |- context [?a >? ?b] => rewrite (Z.gtb_ltb a b); destruct (Z.ltb_spec b a) end;
    cbn [orb doc_index sub_doc_index num_items fst snd set_sub_doc_index]; lia.
Qed.

(** One operation of [create_load_gens] on a loaded collection. *)
Lemma load_gen_ok p x cn op c crud per its :
  loaded c → op ∈ DOC_OPS ++ SUB_DOC_OPS → spec_percent_data p !! op = Some (per, its) → 0 ≤ per ≤ 100 →
  in_target_vbs p = None → in_gen_type p cn = py "default" →
  ∃ c' crud', load_gen p x false cn op (c, crud) = (Ok tt, (c', crud')) ∧ loaded c' ∧
    ((c' = c ∧ crud' = crud) ∨
     ∃ d, crud' = <[op := d]> crud ∧ moves op (doc_index c) (gen_range (doc_gen d)) (doc_index c')).
Proof.
  intros Hl Hop Hper Hr Ht Hg. unfold load_gen, mbind, M_bind, get, put, lift. cbn.
  unfold dict_get. rewrite Hper. cbn.
  set (n := get_required_num_from_percentage c per op).
  destruct (n =? 0) eqn:En; [by exists c, crud; auto|]. rewrite Ht, Hg.
  assert (0 ≤ n ∧ (op ∉ [SubDocOps.REMOVE; SubDocOps.LOOKUP] → n ≤ num_items c) ∧
          (op = SubDocOps.REMOVE ∨ op = SubDocOps.LOOKUP → n ≤ (sub_doc_index c).2 - (sub_doc_index c).1))
    as (Hn & Hn1 & Hn2).
  { unfold n, get_required_num_from_percentage. unfold loaded in Hl.
    destruct c as [? m ? ? ? ? [d0 d1] [s0 s1]]. cbn in *. destruct Hl as (H1 & H2 & -> & H4 & H5 & H6).
    case_bool_decide as E.
    - pose proof (percent_range (s1 - s0) per). split_and!; [lia|done|lia].
    - pose proof (percent_range (d1 - d0) per). split_and!; [lia|lia|]. intros [-> | ->]; destruct E; set_solver. }
  case_bool_decide as Hd.
  - pose proof (doc_range_ok op c n Hl Hn) as H. unfold get_doc_generator, mbind, M_bind, get, put.
    destruct (doc_range op n c) as [[st en] c1]. cbn [fst snd] in H. cbn.
    destruct H as [Hm Hl']; [|done|].
    { intros _. apply Hn1. intros E. apply list_elem_of_In in E, Hd. cbn in E, Hd. clear -E Hd.
      destruct_or! E; subst op; destruct_or! Hd; try done; by apply py_inj in Hd. }
    eexists _, _. split; [reflexivity|]. split; [done|]. right. by eexists.
  - destruct (subdoc_range_ok op c n x (in_choice p) Hl Hn Hn2) as (g & c2 & -> & Hm & Hl').
    { apply elem_of_app in Hop as [?|?]; done. }
    cbn. eexists _, _. split; [reflexivity|]. split; [done|]. right. by eexists.
Qed.

(** *** The documents that exist *)

(** The numbers from [a] to [b - 1]. *)
Definition rng (a b : Z) : gset Z := list_to_set (seqZ a (b - a)).
Lemma elem_of_rng a b i : i ∈ rng a b ↔ a ≤ i < b.
Proof. unfold rng. rewrite elem_of_list_to_set, elem_of_seqZ. lia. Qed.
Lemma size_rng a b : a ≤ b → Z.of_nat (size (rng a b)) = b - a.
Proof. intros. unfold rng. rewrite size_list_to_set by apply NoDup_seqZ. rewrite length_seqZ. lia. Qed.

(** A server with documents [live], no number from [top] on ever used, serves operations: a create makes
    documents under numbers never used before, a delete removes documents that exist, and every other operation is on
    documents that exist. *)
Inductive serves : gset Z * Z → list (pystr * (Z * Z)) → gset Z * Z → Prop :=
  | serves_nil s : serves s [] s
  | serves_create live top a b es s :
      top ≤ a → a ≤ b → serves (rng a b ∪ live, b) es s → serves (live, top) ((DocOps.CREATE, (a, b)) :: es) s
  | serves_delete live top a b es s :
      rng a b ⊆ live → serves (live ∖ rng a b, top) es s → serves (live, top) ((DocOps.DELETE, (a, b)) :: es) s
  | serves_other live top op a b es s :
      op ≠ DocOps.CREATE → op ≠ DocOps.DELETE → rng a b ⊆ live →
      serves (live, top) es s → serves (live, top) ((op, (a, b)) :: es) s.
Lemma serves_app s es s1 es' s2 : serves s es s1 → serves s1 es' s2 → serves s (es ++ es') s2.
Proof. induction 1; intros H'; cbn; [done|..]; econstructor; eauto. Qed.

(** The documents of a window. *)
Definition docs_of (w : Z * Z) : gset Z * Z := (rng w.1 w.2, w.2).
Lemma moves_serves op w r w' es s :
  w.1 ≤ w.2 → moves op w r w' → serves (docs_of w') es s → serves (docs_of w) ((op, r) :: es) s.
Proof.
  destruct w as [d0 d1], r as [a b], w' as [d0' d1']. unfold moves, docs_of. cbn. intros Hw.
  case_bool_decide as Hc; [|case_bool_decide as Hd].
  - subst op. intros (-> & -> & -> & Hle) Hs. constructor; [lia|lia|].
    replace (rng d1 d1' ∪ rng d0 d1) with (rng d0 d1'); [done|].
    apply set_eq. intros i. rewrite elem_of_union, !elem_of_rng. lia.
  - subst op. intros (-> & -> & -> & Hle & Hb) Hs. constructor.
    + intros i. rewrite !elem_of_rng. lia.
    + replace (rng d0 d1 ∖ rng d0 d0') with (rng d0' d1); [done|].
      apply set_eq. intros i. rewrite elem_of_difference, !elem_of_rng. lia.
  - intros (-> & -> & Ha & Hle & Hb) Hs. constructor; [done|done| |done].
    intros i. rewrite !elem_of_rng. lia.
Qed.

(** The operations of a pass over a collection, in order. *)
Definition events (ops : list pystr) (crud : gmap pystr op_data) : list (pystr * (Z * Z)) :=
  omap (λ op, (λ d, (op, gen_range (doc_gen d))) <$> crud !! op) ops.

(** Percentages from 0 to 100, and none for the continuous operations. *)
Definition sane_params (p : crud_params) (cn : pystr) : Prop :=
  in_target_vbs p = None ∧ in_gen_type p cn = py "default" ∧
  Forall (λ op, ∃ per its, spec_percent_data p !! op = Some (per, its) ∧ 0 ≤ per ≤ 100) (DOC_OPS ++ SUB_DOC_OPS) ∧
  Forall (λ op, ∃ its, spec_percent_data p !! op = Some (0, its)) [py "cont_update"; py "cont_replace"].

Lemma load_gen_cont p x cn op c crud its :
  op ∈ [py "cont_update"; py "cont_replace"] → spec_percent_data p !! op = Some (0, its) →
  load_gen p x false cn op (c, crud) = (Ok tt, (c, crud)).
Proof.
  intros Hop Hper. unfold load_gen, mbind, M_bind, get, lift. cbn. unfold dict_get. rewrite Hper. cbn.
  unfold get_required_num_from_percentage. rewrite !Z.mul_0_r. by destruct (bool_decide _).
Qed.

Lemma loaded_le c : loaded c → (doc_index c).1 ≤ (doc_index c).2.
Proof. unfold loaded. destruct (doc_index c), (sub_doc_index c). cbn. lia. Qed.

Lemma events_frame (ops : list pystr) (crud crud' : gmap pystr op_data) :
  (∀ op, op ∈ ops → crud' !! op = crud !! op) → events ops crud' = events ops crud.
Proof.
  induction ops as [|op ops IH]; intros H; [done|]. unfold events. cbn. rewrite H by set_solver.
  fold (events ops crud) (events ops crud'). rewrite IH; [done|]. set_solver.
Qed.

Lemma pass_ok (p : crud_params) (x : bool) (cn : pystr) (ops : list pystr) (c : collection) (crud : gmap pystr op_data) :
  sane_params p cn → loaded c → NoDup ops →
  ops ⊆ DOC_OPS ++ SUB_DOC_OPS ++ [py "cont_update"; py "cont_replace"] →
  (∀ op, op ∈ ops → crud !! op = None) →
  ∃ c' crud', mfor ops (load_gen p x false cn) (c, crud) = (Ok tt, (c', crud')) ∧ loaded c' ∧
    (∀ op, op ∉ ops → crud' !! op = crud !! op) ∧
    ∀ es s, serves (docs_of (doc_index c')) es s → serves (docs_of (doc_index c)) (events ops crud' ++ es) s.
Proof.
  intros (Ht & Hg & Hper & Hcont). revert c crud.
  induction ops as [|op ops IH]; intros c crud Hl Hnd Hsub Hfresh.
  - exists c, crud. by split_and!.
  - apply NoDup_cons in Hnd as [Hop Hnd].
    assert (∃ c1 crud1, load_gen p x false cn op (c, crud) = (Ok tt, (c1, crud1)) ∧ loaded c1 ∧
      ((c1 = c ∧ crud1 = crud) ∨
       ∃ d, crud1 = <[op := d]> crud ∧ moves op (doc_index c) (gen_range (doc_gen d)) (doc_index c1)))
      as (c1 & crud1 & Hrun & Hl1 & Hcase).
    { assert (op ∈ (DOC_OPS ++ SUB_DOC_OPS) ++ [py "cont_update"; py "cont_replace"]) as Hin.
      { rewrite <- app_assoc. apply Hsub. set_solver. }
      apply elem_of_app in Hin as [Hin|Hin].
      - rewrite Forall_forall in Hper. destruct (Hper op Hin) as (per & its & Hp & Hr). by eapply load_gen_ok.
      - rewrite Forall_forall in Hcont. destruct (Hcont op Hin) as (its & Hp).
        exists c, crud. split_and!; [by eapply load_gen_cont|done|by left]. }
    destruct (IH c1 crud1 Hl1 Hnd) as (c' & crud' & Hrun' & Hl' & Hframe & Hserve); [set_solver| |].
    { intros op' Hop'. destruct Hcase as [[_ ->]|(d & -> & _)]; [set_solver|].
      rewrite lookup_insert_ne by set_solver. set_solver. }
    exists c', crud'. split_and!; [|done| |].
    + cbn [mfor]. by rewrite (bind_Ok _ _ _ tt (c1, crud1)).
    + intros op' Hne. rewrite Hframe by set_solver. destruct Hcase as [[_ ->]|(d & -> & _)]; [done|].
      by rewrite lookup_insert_ne by set_solver.
    + intros es s Hs. apply Hserve in Hs. unfold events. cbn. rewrite (Hframe op Hop).
      destruct Hcase as [[-> ->]|(d & -> & Hm)].
      * rewrite (Hfresh op) by set_solver. done.
      * rewrite lookup_insert_eq. cbn. eapply moves_serves; [by apply loaded_le|done|done].
Qed.

(** *** Rounds of loading *)

(** Rounds of document or sub-document operations on one collection, each from its own parameters, and the
    operations they produce. *)
Record round := Round { rd_params : crud_params; rd_sub : bool; rd_xattr : bool }.
Fixpoint run_rounds (cn : pystr) (rs : list round) (c : collection) : res (list (pystr * (Z * Z))) * collection :=
  match rs with
  | [] => (Ok [], c)
  | r :: rs =>
      match load_gens_collection (rd_params r) (rd_sub r) (rd_xattr r) false cn (c, ∅) with
      | (Err e, (c, _)) => (Err e, c)
      | (Ok _, (c, crud)) =>
          match run_rounds cn rs c with
          | (Ok es, c) => (Ok (events (target_ops (rd_sub r) false) crud ++ es), c)
          | (Err e, c) => (Err e, c)
          end
      end
  end.

Lemma target_ops_NoDup sub : NoDup (target_ops sub false).
Proof. apply (bool_decide_unpack _). by destruct sub; vm_compute. Qed.
Lemma target_ops_known sub :
  target_ops sub false ⊆ DOC_OPS ++ SUB_DOC_OPS ++ [py "cont_update"; py "cont_replace"].
Proof. unfold target_ops. destruct sub; set_solver. Qed.

Lemma run_rounds_ok cn rs c :
  loaded c → Forall (λ r, sane_params (rd_params r) cn) rs →
  ∃ es c', run_rounds cn rs c = (Ok es, c') ∧ loaded c' ∧
    serves (docs_of (doc_index c)) es (docs_of (doc_index c')).
Proof.
  intros Hl Hrs. revert c Hl. induction Hrs as [|r rs Hr _ IH]; intros c Hl.
  - exists [], c. split_and!; [done|done|constructor].
  - destruct (pass_ok (rd_params r) (rd_xattr r) cn (target_ops (rd_sub r) false) c ∅)
      as (c1 & crud & Hrun & Hl1 & _ & Hs); [done|done|apply target_ops_NoDup|apply target_ops_known|done|].
    destruct (IH c1 Hl1) as (es & c' & Hrun' & Hl' & Hs').
    exists (events (target_ops (rd_sub r) false) crud ++ es), c'. split_and!; [|done|by apply Hs].
    cbn [run_rounds]. unfold load_gens_collection. rewrite Hrun. by rewrite Hrun'.
Qed.

(** The first load of a collection. *)
Lemma first_load p x cn c per its :
  doc_index c = (0, 0) → sub_doc_index c = (0, 0) → 0 < num_items c →
  spec_percent_data p !! DocOps.CREATE = Some (per, its) →
  in_target_vbs p = None → in_gen_type p cn = py "default" →
  ∃ c' crud, load_gens_collection p false x true cn (c, ∅) = (Ok tt, (c', crud)) ∧ loaded c' ∧
    events [DocOps.CREATE] crud = [(DocOps.CREATE, (0, num_items c))] ∧ doc_index c' = (0, num_items c).
Proof.
  intros Hd Hs Hn Hper Ht Hg. destruct c as [cn' m ttl h dr rc w sw]. cbn in Hd, Hs, Hn. subst w sw.
  unfold load_gens_collection. cbn [target_ops mfor].
  unfold load_gen, mbind, M_bind, get, put, lift. cbn [fst snd].
  unfold get_required_num_from_percentage. rewrite bool_decide_eq_false_2 by (vm_compute; set_solver).
  cbn [num_items]. rewrite Z.div_mul by done. replace (m =? 0) with false by lia.
  unfold dict_get. rewrite Hper. cbn [of_option fmap res_fmap].
  rewrite bool_decide_eq_true_2 by set_solver. rewrite Ht, Hg.
  unfold get_doc_generator, doc_range, overlaps_subdocs, mbind, M_bind, get, put. cbn [doc_index]. eval_ops.
  eexists _, _. split; [reflexivity|]. split_and!.
  - unfold loaded. cbn. lia.
  - unfold events. cbn. by rewrite lookup_insert_eq.
  - done.
Qed.

(** C7: The windows of a collection are exactly the documents that exist.  A new collection
    that is to have [n] items is loaded in full by its first pass, and after any rounds of
    document and sub-document operations with percentages from 0 to 100 every create has used numbers never used
    before, every delete, read, update, replace, touch and sub-document operation was on documents that existed then, the document
    window is the set of documents that exist, and [num_items] is its size. *)
Theorem doc_windows cn c p0 x0 per its rs :
  doc_index c = (0, 0) → sub_doc_index c = (0, 0) → 0 < num_items c →
  spec_percent_data p0 !! DocOps.CREATE = Some (per, its) →
  in_target_vbs p0 = None → in_gen_type p0 cn = py "default" →
  Forall (λ r, sane_params (rd_params r) cn) rs →
  ∃ c1 crud es c2,
    load_gens_collection p0 false x0 true cn (c, ∅) = (Ok tt, (c1, crud)) ∧
    run_rounds cn rs c1 = (Ok es, c2) ∧
    let live := rng (doc_index c2).1 (doc_index c2).2 in
    serves (∅, 0) (events [DocOps.CREATE] crud ++ es) (live, (doc_index c2).2) ∧
    num_items c2 = Z.of_nat (size live).
Proof.
  intros Hd Hs Hn Hper Ht Hg Hrs.
  destruct (first_load p0 x0 cn c per its) as (c1 & crud & Hrun & Hl & Hev & Hw); try done.
  destruct (run_rounds_ok cn rs c1 Hl Hrs) as (es & c2 & Hrun2 & Hl2 & Hserve).
  exists c1, crud, es, c2. cbv zeta. split_and!; [done|done| |].
  - rewrite Hev. cbn [app]. apply serves_create; [lia|lia|].
    rewrite Hw in Hserve. unfold docs_of in Hserve. cbn in Hserve. by rewrite union_empty_r_L.
  - rewrite size_rng by (by apply loaded_le). unfold loaded in Hl2.
    destruct (doc_index c2), (sub_doc_index c2). cbn. lia.
Qed.
Definition percents_in (lo hi : Z) (p : crud_params) (ops : list pystr) : bool :=
  forallb (λ op, match spec_percent_data p !! op with
                 | Some (per, _) => (lo <=? per) && (per <=? hi) | None => false end) ops.
Lemma percents_in_spec lo hi p ops :
  percents_in lo hi p ops = true →
  Forall (λ op, ∃ per its, spec_percent_data p !! op = Some (per, its) ∧ lo ≤ per ≤ hi) ops.
Proof.
  intros H. apply Forall_forall. intros op Hop. unfold percents_in in H. rewrite forallb_forall in H.
  apply list_elem_of_In, H in Hop. destruct (spec_percent_data p !! op) as [[per its]|]; [|done].
  exists per, its. split; [done|]. lia.
Qed.
Lemma percents_ok p cn :
  in_target_vbs p = None ∧ in_gen_type p cn = py "default" ∧
  percents_in 0 100 p (DOC_OPS ++ SUB_DOC_OPS) = true ∧
  percents_in 0 0 p [py "cont_update"; py "cont_replace"] = true → sane_params p cn.
Proof.
  intros (H1 & H2 & H3%percents_in_spec & H4%percents_in_spec). split_and!; [done|done|done|].
  eapply Forall_impl; [exact H4|]. intros op (per & its & Hp & Hr). exists its. by replace 0 with per by lia.
Qed.
Definition demo_params (ps : list (pystr * Z)) : crud_params :=
  CrudParams 0 [] [] [] (λ _, py "default") None 0
    (list_to_map ((λ '(op, per), (op, (per, 1))) <$> ps ++
       ((λ op, (op, 0)) <$> DOC_OPS ++ SUB_DOC_OPS ++ [py "cont_update"; py "cont_replace"]))).
Lemma doc_windows_witness :
  let c := Collection (CSpec (py "c") (Some 100) None None) in
  let rs := [Round (demo_params [(DocOps.DELETE, 10); (DocOps.UPDATE, 50); (DocOps.CREATE, 20)]) false false;
             Round (demo_params [(SubDocOps.INSERT, 30); (SubDocOps.LOOKUP, 100)]) true false] in
  ∃ c1 crud es c2,
    load_gens_collection (demo_params []) false false true (py "c") (c, ∅) = (Ok tt, (c1, crud)) ∧
    run_rounds (py "c") rs c1 = (Ok es, c2) ∧ num_items c2 = Z.of_nat (size (rng (doc_index c2).1 (doc_index c2).2)).
Proof.
  intros c rs.
  destruct (doc_windows (py "c") c (demo_params []) false 0 1 rs) as (c1 & crud & es & c2 & H1 & H2 & _ & H3);
    [done|done|done|vm_compute; reflexivity|done|done| |by exists c1, crud, es, c2].
  repeat (constructor; [apply percents_ok; split_and!; vm_compute; reflexivity|]). constructor.
Defined.

(** [norm_coll] computes with a collection whose fields are known. *)
Ltac norm_coll :=
  unfold get_doc_generator, doc_range, overlaps_subdocs, rewind_doc_index, get_subdoc_generator, push_subdocs,
    set_doc_index, set_sub_doc_index, add_num_items, set_num_items, mbind, M_bind, get, put, mret, M_ret;
  cbn [doc_index sub_doc_index num_items fst snd]; eval_ops;
  cbn [doc_index sub_doc_index num_items fst snd c_name maxTTL history c_is_dropped c_recreated gen_range].

Section Rewind.
Variables (c : collection) (n : Z).
Hypotheses (Hl : loaded c) (Hn : 0 ≤ n).

Lemma rewind_create :
  rewind_doc_index DocOps.CREATE n true (get_doc_generator DocOps.CREATE n None (py "default") c).2 = c.
Proof.
  destruct c as [cn m ttl h dr rc [d0 d1] [s0 s1]]. unfold loaded in Hl. cbn in Hl. norm_coll.
  rewrite bool_decide_eq_true_2 by (intros [= ? ?]; lia). norm_coll. f_equal; [lia|]. f_equal. lia.
Qed.
Lemma rewind_delete :
  let c' := rewind_doc_index DocOps.DELETE n true (get_doc_generator DocOps.DELETE n None (py "default") c).2 in
  doc_index c' = doc_index c ∧ num_items c' = num_items c ∧
  (c' = c ↔ (doc_index c).1 + n ≤ (sub_doc_index c).1).
Proof.
  destruct c as [cn m ttl h dr rc [d0 d1] [s0 s1]]. unfold loaded in Hl. cbn in Hl. norm_coll.
  destruct (Z.ltb_spec s0 (d0 + n)) as [Hs|Hs]; norm_coll.
  - split_and!; [f_equal; lia|lia|]. split; [intros [= _ _ E _]; lia|lia].
  - split_and!; [f_equal; lia|lia|]. split; [lia|]. intros _. f_equal; [lia|]. f_equal. lia.
Qed.
Lemma rewind_subdoc op x ch :
  op = SubDocOps.INSERT ∨ op = SubDocOps.REMOVE →
  let r := get_subdoc_generator op n None x ch c in
  let k := match r.1 with Ok g => (gen_range g).2 - (gen_range g).1 | Err _ => 0 end in
  rewind_doc_index op k true r.2 = c.
Proof.
  destruct c as [cn m ttl h dr rc [d0 d1] [s0 s1]]. unfold loaded in Hl. cbn in Hl.
  intros [-> | ->]; norm_coll.
  - rewrite Z.gtb_ltb. destruct (Z.ltb_spec d1 (s1 + n)); norm_coll; do 2 f_equal; lia.
  - do 2 f_equal. lia.
Qed.
End Rewind.
Lemma rewind_first c n :
  doc_index c = (0, 0) → num_items c = n →
  num_items (rewind_doc_index DocOps.CREATE n true
    (get_doc_generator DocOps.CREATE n None (py "default") c).2) = 0.
Proof. destruct c as [? m ? ? ? ? w [s0 s1]]. cbn. intros -> ->. norm_coll. lia. Qed.

(** Taking an operation back.  On a loaded collection [rewind_doc_index] undoes what the generator of a create, of a
    sub-document insert and of a removal did to the collection, and for a
    delete it restores the documents and their count; but not the sub-documents when the delete moved them, and on a collection that was never loaded rewinding the
    first create makes the item count zero. *)
Theorem rewind_undoes c n x ch :
  loaded c → 0 ≤ n →
  let gen op := (get_doc_generator op n None (py "default") c).2 in
  let sub op := get_subdoc_generator op n None x ch c in
  let size r := match r with Ok g => (gen_range g).2 - (gen_range g).1 | Err _ => 0 end in
  rewind_doc_index DocOps.CREATE n true (gen DocOps.CREATE) = c ∧
  (let c' := rewind_doc_index DocOps.DELETE n true (gen DocOps.DELETE) in
   doc_index c' = doc_index c ∧ num_items c' = num_items c ∧
   (c' = c ↔ (doc_index c).1 + n ≤ (sub_doc_index c).1)) ∧
  rewind_doc_index SubDocOps.INSERT (size (sub SubDocOps.INSERT).1) true (sub SubDocOps.INSERT).2 = c ∧
  rewind_doc_index SubDocOps.REMOVE (size (sub SubDocOps.REMOVE).1) true (sub SubDocOps.REMOVE).2 = c ∧
  (∀ c0, doc_index c0 = (0, 0) → num_items c0 = n →
     num_items (rewind_doc_index DocOps.CREATE n true
       (get_doc_generator DocOps.CREATE n None (py "default") c0).2) = 0).
Proof.
  intros Hl Hn gen sub size. split_and!.
  - by apply rewind_create.
  - by apply rewind_delete.
  - apply rewind_subdoc; [done|]. by left.
  - apply rewind_subdoc; [done|]. by right.
  - intros c0. apply rewind_first.
Qed.
Lemma rewind_undoes_witness :
  let c := set_sub_doc_index (20, 40) (set_doc_index (10, 110)
             (Collection (CSpec (py "c") (Some 100) None None))) in
  rewind_doc_index DocOps.CREATE 5 true (get_doc_generator DocOps.CREATE 5 None (py "default") c).2 = c.
Proof.
  intros c. refine (proj1 (rewind_undoes c 5 false 0 _ _)); [|lia]. unfold loaded. cbn. lia.
Defined.

(** Two ways in which a window stops describing what exists.  The continuous operations cut their range
    from the start of the sub-document window by a percentage of all items and without a bound, so that they go past the
    last document as soon as an update has moved that window far enough.  And a collection that is
    dropped and created again keeps its old sub-document window, so that after its first load a lookup of
    everything addresses as many sub-documents as the dropped collection had. *)
Theorem window_leaks c op n x ch spec :
  loaded c → op ∈ [py "cont_update"; py "cont_replace"] →
  (∃ tmpl, get_subdoc_generator op n None x ch c =
     (Ok (SubDocEditGen (sub_doc_index c).1 ((sub_doc_index c).1 + n) tmpl None x), c)) ∧
  (let c' := (get_doc_generator DocOps.UPDATE n None (py "default") c).2 in
   0 < n → sub_doc_index c = ((doc_index c).1, (doc_index c).1) → n ≤ num_items c → num_items c < 2 * n →
   ∃ g, (get_subdoc_generator op n None x ch c').1 = Ok g ∧ (doc_index c').2 < (gen_range g).2) ∧
  (let c' := collection_recreated spec c in
   let c'' := (get_doc_generator DocOps.CREATE (num_items c') None (py "default") c').2 in
   get_required_num_from_percentage c'' 100 SubDocOps.LOOKUP = (sub_doc_index c).2 - (sub_doc_index c).1).
Proof.
  destruct c as [cn m ttl h dr rc [d0 d1] [s0 s1]]. unfold loaded. cbn [doc_index sub_doc_index num_items fst snd].
  intros (H1 & H2 & -> & H4 & H5 & H6) Hop. apply list_elem_of_In in Hop. cbn [In] in Hop.
  split_and!.
  - destruct_or! Hop; subst op; norm_coll; by eexists.
  - cbv zeta. intros Hn [= -> ->] Hle Hlt. norm_coll.
    replace (d0 <? d0 + n) with true by lia. norm_coll.
    destruct_or! Hop; subst op; norm_coll; eexists; (split; [reflexivity|]); cbn; lia.
  - unfold collection_recreated. norm_coll. unfold get_required_num_from_percentage. norm_coll.
    apply Z.div_mul. done.
Qed.
Lemma window_leaks_witness :
  let c := set_doc_index (0, 100) (Collection (CSpec (py "c") (Some 100) None None)) in
  let c' := (get_doc_generator DocOps.UPDATE 60 None (py "default") c).2 in
  ∃ g, (get_subdoc_generator (py "cont_update") 60 None false 0 c').1 = Ok g ∧ (doc_index c').2 < (gen_range g).2.
Proof.
  intros c c'.
  destruct (window_leaks c (py "cont_update") 60 false 0 (CSpec (py "c") None None None)) as (_ & H & _).
  - unfold loaded. cbn. lia.
  - set_solver.
  - apply H; cbn; (lia || done).
Defined.

(** *** Expiry *)

(** The two expiry updates forget collections.  With document TTLs, the flag that should stop updates,
    touches and replaces of one collection from being counted twice is reset per scope: once a collection of the scope has been
    counted, the expired updates of the next one change nothing.  With collection TTLs, an item count is
    reset only where the TTL exceeds all that came before it. *)
Theorem expiry_forgets c1 c2 ttl n1 n2 longest cs :
  0 < ttl →
  (let '(_, out) := expire_scope [(c1, [(DocOps.UPDATE, ttl, n1)]); (c2, [(DocOps.UPDATE, ttl, n2)])] false longest in
   out = [add_num_items (- n1) (set_doc_index ((doc_index c1).1 + n1, (doc_index c1).2) c1); c2]) ∧
  (let '(m, out) := expire_by_collection cs longest in
   m = foldr (λ c, Z.max (maxTTL c)) longest cs ∧
   ∀ i c, cs !! i = Some c →
     out !! i = Some (if foldr (λ c, Z.max (maxTTL c)) longest (take i cs) <? maxTTL c
                      then set_num_items 0 c else c)).
Proof.
  intros Httl. split.
  - cbn [expire_scope expire_collection]. unfold expire_entry. eval_ops. replace (ttl =? 0) with false by lia.
    destruct (doc_index c1), (doc_index c2). done.
  - revert longest. induction cs as [|c cs IH]; intros longest; cbn [expire_by_collection]; [done|].
    assert (∀ l a b, foldr (λ c, Z.max (maxTTL c)) (Z.max a b) l = Z.max a (foldr (λ c, Z.max (maxTTL c)) b l)) as Hmax.
    { induction l as [|x l IHl]; intros a b; cbn; [done|]. rewrite IHl. lia. }
    rewrite Z.gtb_ltb. specialize (IH (Z.max (maxTTL c) longest)).
    destruct (Z.ltb_spec longest (maxTTL c)) as [Hlt|Hge].
    + rewrite Z.max_l in IH by lia. destruct (expire_by_collection cs (maxTTL c)) as [m out].
      destruct IH as [-> IH]. split.
      { cbn. rewrite <- (Hmax cs (maxTTL c) longest). by rewrite Z.max_l by lia. }
      intros [|i] x Hx; simpl in *; [injection Hx as <-; by replace (longest <? maxTTL c) with true by lia|].
      rewrite (IH i x Hx). rewrite <- (Hmax (take i cs) (maxTTL c) longest). by rewrite Z.max_l by lia.
    + rewrite Z.max_r in IH by lia. destruct (expire_by_collection cs longest) as [m out].
      destruct IH as [-> IH]. split.
      { cbn. rewrite <- (Hmax cs (maxTTL c) longest). by rewrite Z.max_r by lia. }
      intros [|i] x Hx; simpl in *; [injection Hx as <-; by replace (longest <? maxTTL c) with false by lia|].
      rewrite (IH i x Hx). rewrite <- (Hmax (take i cs) (maxTTL c) longest). by rewrite Z.max_r by lia.
Qed.
Lemma expiry_forgets_witness :
  let c := set_doc_index (0, 100) (Collection (CSpec (py "c") (Some 100) None None)) in
  (expire_scope [(c, [(DocOps.UPDATE, 30, 50)]); (c, [(DocOps.UPDATE, 30, 50)])] false 0).2 !! 1%nat = Some c.
Proof.
  intros c. destruct (expiry_forgets c c 30 50 50 0 []) as [H _]; [lia|].
  destruct (expire_scope _ _ _) as [m out]. by rewrite H.
Defined.

(** *** Retries *)

Section RetryProofs.
Context {V C : Type} (crud : pystr → pystr → V → C → result * C)
  (crud_path : pystr → pystr → V → C → option pystr * C).
Variables (op : pystr) (ignore retry_on : list pystr).
(** The change of the item count for one operation that did not take effect. *)
Definition undo_sign : Z :=
  if bool_decide (op = DocOps.CREATE) then -1 else if bool_decide (op = DocOps.DELETE) then 1 else 0.
Lemma undo_items_eq n : undo_items op n = n + undo_sign.
Proof. unfold undo_items, undo_sign. repeat case_bool_decide; lia. Qed.

(** The outcome for a list of failed documents: which keys were ignored, and which succeeded or
    failed in an expected or unexpected retry. *)
Record outcome := Outcome { o_ign : gset pystr; o_rs : gset pystr; o_rf : gset pystr;
                            o_us : gset pystr; o_uf : gset pystr }.
Definition sorted_out (l : list (pystr * failed_doc V)) (o : outcome) : Prop :=
  list_to_set (fst <$> l) = o_ign o ∪ o_rs o ∪ o_rf o ∪ o_us o ∪ o_uf o ∧
  (size (o_ign o) + size (o_rs o) + size (o_rf o) + size (o_us o) + size (o_uf o) = length l)%nat ∧
  (∀ k d, (k, d) ∈ l →
     (k ∈ o_ign o ↔ mentions ignore (f_error d) = true) ∧
     (k ∈ o_rs o ∪ o_rf o → mentions retry_on (f_error d) = true) ∧
     (k ∈ o_us o ∪ o_uf o → mentions retry_on (f_error d) = false)).
Definition reflects (s s' : retry V C) (o : outcome) : Prop :=
  fail (rt_data s') = filter (λ kd, kd.1 ∉ o_ign o ∪ o_rs o) (fail (rt_data s)) ∧
  dom (retried_success (rt_data s')) = o_rs o ∪ dom (retried_success (rt_data s)) ∧
  dom (retried_fail (rt_data s')) = o_rf o ∪ dom (retried_fail (rt_data s)) ∧
  dom (unwanted_success (rt_data s')) = o_us o ∪ dom (unwanted_success (rt_data s)) ∧
  dom (unwanted_fail (rt_data s')) = o_uf o ∪ dom (unwanted_fail (rt_data s)) ∧
  rt_items s' = rt_items s + undo_sign * Z.of_nat (size (o_ign o) + size (o_rf o) + size (o_uf o)).

(** One key: it goes to exactly one of the five sets. *)
Definition one (k : pystr) (i : nat) : outcome :=
  let at_ j := if bool_decide (i = j) then {[k]} else ∅ in
  Outcome (at_ 0%nat) (at_ 1%nat) (at_ 2%nat) (at_ 3%nat) (at_ 4%nat).
Lemma filter_not_in (k : pystr) (m : gmap pystr (failed_doc V)) :
  filter (λ kd, kd.1 ∉ ({[k]} : gset pystr)) m = delete k m.
Proof.
  apply map_eq. intros j. rewrite map_lookup_filter, lookup_delete. destruct (m !! j); cbn; [|by case_decide].
  repeat case_decide; set_solver.
Qed.
Ltac reflect_one :=
  unfold reflects, one, pop_fail, record_success, record_fail;
  cbn [rt_data rt_items fail retried_success retried_fail unwanted_success unwanted_fail
       o_ign o_rs o_rf o_us o_uf]; eval_ops; cbv beta iota;
  rewrite ?union_empty_l_L, ?union_empty_r_L, ?filter_not_in, ?undo_items_eq,
    ?dom_insert_L, ?size_empty, ?size_singleton;
  split_and!; first [done | lia | symmetry; apply map_filter_id; set_solver].
Lemma reflects_ignored k cl s :
  reflects s (Retry (undo_items op (rt_items s)) (pop_fail k (rt_data s)) cl) (one k 0).
Proof. reflect_one. Qed.
Lemma reflects_success (e : bool) k r cl s :
  reflects s (Retry (rt_items s) (record_success e k r (rt_data s)) cl) (one k (if e then 1 else 3)).
Proof. destruct e; reflect_one. Qed.
Lemma reflects_fail (e : bool) k r cl s :
  reflects s (Retry (undo_items op (rt_items s)) (record_fail e k r (rt_data s)) cl) (one k (if e then 2 else 4)).
Proof. destruct e; reflect_one. Qed.

(** Failures are reported with the name of a Java class. *)
Hypothesis named : ∀ key d cl, let r := (retry_op crud crud_path op key d cl).1 in
  r_status r = true ∨ has_class_name (r_error r) = true.

Lemma validate_key_ok k d s :
  has_class_name (f_error d) = true →
  ∃ i s', validate_key crud crud_path op ignore retry_on (k, d) s = (Ok tt, s') ∧ (i < 5)%nat ∧
    reflects s s' (one k i) ∧ (i = 0%nat ↔ mentions ignore (f_error d) = true) ∧
    (i = 1%nat ∨ i = 2%nat → mentions retry_on (f_error d) = true) ∧
    (i = 3%nat ∨ i = 4%nat → mentions retry_on (f_error d) = false).
Proof.
  intros Hc. unfold validate_key, mbind, M_bind, lift, match_class, modify, get, put. rewrite Hc.
  destruct (mentions ignore (f_error d)) eqn:Ei.
  - exists 0%nat. eexists. split; [reflexivity|]. split; [lia|]. split; [apply reflects_ignored|split; [done|lia]].
  - pose proof (named k d (rt_client s)) as Hnm. destruct (retry_op crud crud_path op k d (rt_client s)) as [r cl].
    cbn [fst] in Hnm. destruct (took_effect op (ambiguous (f_error d)) r) eqn:Et.
    + exists (if mentions retry_on (f_error d) then 1 else 3)%nat. eexists. split; [reflexivity|].
      split; [destruct (mentions retry_on _); lia|]. split; [exact (reflects_success _ k r cl s)|].
      destruct (mentions retry_on (f_error d)); split_and!; (done || lia).
    + assert (has_class_name (r_error r) = true) as Hr.
      { destruct Hnm as [E|]; [|done]. unfold took_effect in Et. by rewrite E in Et. }
      exists (if mentions retry_on (f_error d) then 2 else 4)%nat. eexists. split; [by rewrite Hr|].
      split; [destruct (mentions retry_on _); lia|]. split; [exact (reflects_fail _ k r cl s)|].
      destruct (mentions retry_on (f_error d)); split_and!; (done || lia).
Qed.

(** Outcomes of one key and of the others together. *)
Definition plus (o o' : outcome) : outcome :=
  Outcome (o_ign o ∪ o_ign o') (o_rs o ∪ o_rs o') (o_rf o ∪ o_rf o') (o_us o ∪ o_us o') (o_uf o ∪ o_uf o').
Lemma size_one_union (k : pystr) (X Y : gset pystr) : X ⊆ {[k]} → k ∉ Y → size (X ∪ Y) = (size X + size Y)%nat.
Proof. intros HX HY. apply size_union. set_solver. Qed.
Lemma one_subset (k : pystr) i :
  o_ign (one k i) ⊆ {[k]} ∧ o_rs (one k i) ⊆ {[k]} ∧ o_rf (one k i) ⊆ {[k]} ∧ o_us (one k i) ⊆ {[k]} ∧ o_uf (one k i) ⊆ {[k]}.
Proof. unfold one. cbn. split_and!; case_bool_decide; set_solver. Qed.
Lemma size_plus (k : pystr) i o :
  k ∉ o_ign o ∪ o_rs o ∪ o_rf o ∪ o_us o ∪ o_uf o →
  size (o_ign (plus (one k i) o)) = (size (o_ign (one k i)) + size (o_ign o))%nat ∧
  size (o_rs (plus (one k i) o)) = (size (o_rs (one k i)) + size (o_rs o))%nat ∧
  size (o_rf (plus (one k i) o)) = (size (o_rf (one k i)) + size (o_rf o))%nat ∧
  size (o_us (plus (one k i) o)) = (size (o_us (one k i)) + size (o_us o))%nat ∧
  size (o_uf (plus (one k i) o)) = (size (o_uf (one k i)) + size (o_uf o))%nat.
Proof.
  intros Hk. rewrite !not_elem_of_union in Hk. destruct Hk as ((((H1 & H2) & H3) & H4) & H5).
  destruct (one_subset k i) as (S1 & S2 & S3 & S4 & S5).
  split_and!; by apply (size_one_union k).
Qed.
Lemma union_swap (X Y Z : gset pystr) : X ∪ (Y ∪ Z) = (Y ∪ X) ∪ Z.
Proof. set_solver. Qed.
Lemma reflects_trans s1 s2 s3 (k : pystr) i o :
  k ∉ o_ign o ∪ o_rs o ∪ o_rf o ∪ o_us o ∪ o_uf o →
  reflects s1 s2 (one k i) → reflects s2 s3 o → reflects s1 s3 (plus (one k i) o).
Proof.
  intros Hk (A1 & A2 & A3 & A4 & A5 & A6) (B1 & B2 & B3 & B4 & B5 & B6).
  destruct (size_plus k i o Hk) as (Z1 & _ & Z3 & _ & Z5). unfold reflects. rewrite Z1, Z3, Z5.
  cbn [plus o_ign o_rs o_rf o_us o_uf]. split_and!.
  - rewrite B1, A1, map_filter_filter. apply map_filter_ext. intros j d _. cbn. clear. set_solver.
  - rewrite B2, A2. apply union_swap.
  - rewrite B3, A3. apply union_swap.
  - rewrite B4, A4. apply union_swap.
  - rewrite B5, A5. apply union_swap.
  - rewrite B6, A6. lia.
Qed.

Lemma validate_keys_ok l s :
  NoDup (fst <$> l) → Forall (λ kd : pystr * failed_doc V, has_class_name (f_error kd.2) = true) l →
  ∃ o s', mfor l (validate_key crud crud_path op ignore retry_on) s = (Ok tt, s') ∧
    sorted_out l o ∧ reflects s s' o.
Proof.
  revert s. induction l as [|[k d] l IH]; intros s Hnd Hl.
  - exists (Outcome ∅ ∅ ∅ ∅ ∅), s. split; [done|]. split.
    + split_and!; [set_solver|done|set_solver].
    + unfold reflects. cbn [o_ign o_rs o_rf o_us o_uf]. rewrite !union_empty_l_L, !size_empty.
      split_and!; try done; [|lia]. symmetry. apply map_filter_id. set_solver.
  - apply Forall_cons in Hl as [Hc Hl]. cbn in Hnd. apply NoDup_cons in Hnd as [Hk Hnd].
    destruct (validate_key_ok k d s Hc) as (i & s1 & Hrun & Hi & Hr & Hi0 & Hi1 & Hi2).
    destruct (IH s1 Hnd Hl) as (o & s' & Hrun' & (Hset & Hsz & Hcls) & Hr').
    exists (plus (one k i) o), s'.
    assert (k ∉ o_ign o ∪ o_rs o ∪ o_rf o ∪ o_us o ∪ o_uf o) as Hko.
    { rewrite <- Hset. by rewrite elem_of_list_to_set. }
    split; [cbn [mfor]; by rewrite (bind_Ok _ _ _ tt s1)|]. split; [|by eapply reflects_trans].
    destruct (one_subset k i) as (S1 & S2 & S3 & S4 & S5). split_and!.
    + cbn [fmap list_fmap list_to_set foldr fst]. rewrite Hset. unfold plus, one. cbn [o_ign o_rs o_rf o_us o_uf].
      clear -Hi. do 5 (destruct i as [|i]; [eval_ops; set_solver|]). lia.
    + destruct (size_plus k i o Hko) as (-> & -> & -> & -> & ->).
      cbn [length]. rewrite <- Hsz. unfold one. cbn [o_ign o_rs o_rf o_us o_uf]. clear -Hi.
      do 5 (destruct i as [|i]; [eval_ops; cbv iota; rewrite ?size_singleton, ?size_empty; lia|]). lia.
    + intros k' d' [E|Hin]%elem_of_cons.
      * injection E as -> ->. unfold plus, one. cbn [o_ign o_rs o_rf o_us o_uf].
        clear -Hi Hi0 Hi1 Hi2 Hko.
        do 5 (destruct i as [|i]; [eval_ops; rewrite <- Hi0; split_and!; try set_solver;
          (intros _; (apply Hi1 || apply Hi2); lia)|]). lia.
      * assert (k' ≠ k) as Hne.
        { intros ->. apply Hk. apply list_elem_of_fmap. by exists (k, d'). }
        destruct (Hcls k' d' Hin) as (C1 & C2 & C3). unfold plus. cbn [o_ign o_rs o_rf o_us o_uf].
        rewrite <- C1. clear -S1 S2 S3 S4 S5 Hne C2 C3. split_and!; set_solver.
Qed.
End RetryProofs.

Lemma size_union_le (X Y : gset pystr) : (size (X ∪ Y) ≤ size X + size Y)%nat.
Proof. rewrite size_union_alt. apply Nat.add_le_mono_l, subseteq_size. set_solver. Qed.
(** Sets whose sizes add up to that of their union: what is left without the first two is the rest. *)
Lemma disjoint_rest (D R A B X Y Z : gset pystr) :
  (∀ k, k ∈ R ↔ k ∈ D ∧ k ∉ A ∪ B) → D = A ∪ B ∪ X ∪ Y ∪ Z →
  (size D = size A + size B + size X + size Y + size Z)%nat → R = X ∪ Y ∪ Z.
Proof.
  intros HR HD Hsz.
  assert (A ∪ B ## X ∪ Y ∪ Z) as Hdis.
  { intros k Hk1 Hk2.
    assert (size (A ∪ B) ≤ size A + size B)%nat as H1 by apply size_union_le.
    assert (size ((X ∪ Y ∪ Z) ∖ {[k]}) < size (X ∪ Y ∪ Z))%nat as H2.
    { apply subset_size. set_solver. }
    assert (size (X ∪ Y ∪ Z) ≤ size X + size Y + size Z)%nat as H3.
    { pose proof (size_union_le (X ∪ Y) Z). pose proof (size_union_le X Y). lia. }
    assert (D = (A ∪ B) ∪ ((X ∪ Y ∪ Z) ∖ {[k]})) as E.
    { subst D. apply set_eq. intros j. destruct (decide (j = k)); set_solver. }
    pose proof (size_union_le (A ∪ B) ((X ∪ Y ∪ Z) ∖ {[k]})) as H4. rewrite <- E in H4. lia. }
  apply set_eq. intros k. rewrite HR, HD. clear -Hdis. set_solver.
Qed.

