(* ===== verification/BucketSelect.v ===== *)
(** * Choosing buckets, scopes and collections

    The random selections of [BucketUtils] (couchbase_utils/bucket_utils/bucket_ready_functions.py):
    [get_random_buckets], [get_random_scopes] and [get_random_collections].  [random.sample] is
    a parameter, with what Python documents about it as a hypothesis ([samples]). *)

From S2P Require Import Prelude Py Bucket.
Local Open Scope Z_scope.
#[local] Arguments py : simpl never.

(** ** Selection *)

(** The requested number: "all" or an integer. *)
Inductive req := All | Num (n : Z).
(** The dictionaries that the functions return: bucket, scope, collections. *)
Abbreviation selection := (gmap pystr (gmap pystr (gset pystr))).

Section Selection.
Variable sample : list pystr → Z → res (list pystr).

(** [list(set(a) - set(b))]; the order of the result is that of the set. *)
Definition list_minus (a b : list pystr) : list pystr :=
  elements ((list_to_set a : gset pystr) ∖ list_to_set b).
(** [req_num == "all" or req_num >= n] *)
Definition wants_all (r : req) (n : Z) : bool :=
  match r with All => true | Num k => n <=? k end.
Definition choose (available excluded : list pystr) (r : req) : res (list pystr) :=
  if wants_all r (len available) then Ok (list_minus available excluded)
  else match r with
       | All => Ok []          (* not reached *)
       | Num k => sample (list_minus available excluded) k
       end.

Definition get_random_buckets (buckets : list bucket) (r : req) (exclude_from : list pystr) : res selection :=
  let names := b_name <$> buckets in
  selected ← (if wants_all r (len buckets) then Ok names
              else match r with
                   | All => Ok []
                   | Num k => sample (list_minus names exclude_from) k
                   end);
  Ok (foldl (λ m n, <[n := ∅]> m) ∅ selected).

(** Names joined by colons, and their parts. *)
Definition qualified (parts : list pystr) : pystr := join (py ":") parts.

(** [selected_buckets[b]["scopes"][s] = {"collections": {}}] *)
Definition select_scope (sel : selection) (q : pystr) : res selection :=
  let parts := split_on ":"%char q in
  b ← list_get parts 0;
  s ← list_get parts 1;
  scs ← dict_get sel b;
  Ok (<[b := <[s := ∅]> scs]> sel).
Fixpoint select_scopes (sel : selection) (qs : list pystr) : res selection :=
  match qs with
  | [] => Ok sel
  | q :: qs => sel ← select_scope sel q; select_scopes sel qs
  end.

(** The scopes of a bucket that may be chosen. *)
Definition scope_names (b : bucket) (only_dropped : bool) : list pystr :=
  let active := fst <$> get_active_scopes b in
  if only_dropped then elements (dom (scopes b) ∖ list_to_set active) else active.
Definition scope_allowed (avoid_default : bool) (s : pystr) : bool :=
  negb (bool_decide (s = CbServer.system_scope) || (bool_decide (s = CbServer.default_scope) && avoid_default)).
Fixpoint available_scopes (buckets : list bucket) (avoid_default only_dropped : bool) (names : list pystr) :
    res (list pystr) :=
  match names with
  | [] => Ok []
  | n :: names =>
      b ← of_option AttributeError (get_bucket_obj buckets n);
      rest ← available_scopes buckets avoid_default only_dropped names;
      Ok (((λ s, qualified [n; s]) <$> List.filter (scope_allowed avoid_default) (scope_names b only_dropped)) ++ rest)
  end.
Definition excluded_scopes (ex : selection) : list pystr :=
  bs ← map_to_list ex; s ← map_to_list bs.2; [qualified [bs.1; s.1]].
Definition get_random_scopes (buckets : list bucket) (r consider_buckets : req)
    (avoid_default only_dropped : bool) (exclude_from : selection) : res selection :=
  sel ← get_random_buckets buckets consider_buckets [];
  available ← available_scopes buckets avoid_default only_dropped (fst <$> map_to_list sel);
  chosen ← choose available (excluded_scopes exclude_from) r;
  select_scopes sel chosen.

(** [selected_buckets[b]["scopes"][s]["collections"][c] = {}] *)
Definition select_collection (sel : selection) (q : pystr) : res selection :=
  let parts := split_on ":"%char q in
  b ← list_get parts 0;
  s ← list_get parts 1;
  c ← list_get parts 2;
  scs ← dict_get sel b;
  cols ← dict_get scs s;
  Ok (<[b := <[s := {[c]} ∪ cols]> scs]> sel).
Fixpoint select_collections (sel : selection) (qs : list pystr) : res selection :=
  match qs with
  | [] => Ok sel
  | q :: qs => sel ← select_collection sel q; select_collections sel qs
  end.
Definition collection_names (b : bucket) (s : pystr) (only_dropped : bool) : res (list pystr) :=
  active ← get_active_collections b s;
  if (only_dropped : bool) then
    sc ← dict_get (scopes b) s;
    Ok (elements (dom (collections sc) ∖ list_to_set (fst <$> active)))
  else Ok (fst <$> active).
Fixpoint available_in_scopes (b : bucket) (n : pystr) (only_dropped : bool) (ss : list pystr) : res (list pystr) :=
  match ss with
  | [] => Ok []
  | s :: ss =>
      cs ← collection_names b s only_dropped;
      rest ← available_in_scopes b n only_dropped ss;
      Ok (((λ c, qualified [n; s; c]) <$> cs) ++ rest)
  end.
Fixpoint available_collections (buckets : list bucket) (only_dropped : bool)
    (sel : list (pystr * gmap pystr (gset pystr))) : res (list pystr) :=
  match sel with
  | [] => Ok []
  | (n, scs) :: sel =>
      (* with no scopes the loop body does not look at the bucket *)
      here ← match fst <$> map_to_list scs with
             | [] => Ok []
             | ss => b ← of_option AttributeError (get_bucket_obj buckets n);
                     available_in_scopes b n only_dropped ss
             end;
      rest ← available_collections buckets only_dropped sel;
      Ok (here ++ rest)
  end.
Definition excluded_collections (ex : selection) : list pystr :=
  bs ← map_to_list ex; s ← map_to_list bs.2; c ← elements s.2; [qualified [bs.1; s.1; c]].
Definition get_random_collections (buckets : list bucket) (r consider_scopes consider_buckets : req)
    (only_dropped : bool) (exclude_from : selection) : res selection :=
  sel ← get_random_scopes buckets consider_scopes consider_buckets false false ∅;
  available ← available_collections buckets only_dropped (map_to_list sel);
  chosen ← choose available (excluded_collections exclude_from) r;
  select_collections sel chosen.
End Selection.

(** ** Proofs: selection *)

(** What Python documents about [random.sample]. *)
Definition samples (sample : list pystr → Z → res (list pystr)) : Prop :=
  ∀ l k, if bool_decide (0 ≤ k ≤ len l) then ∃ r, sample l k = Ok r ∧ len r = k ∧ r ⊆+ l
         else sample l k = raise ValueError.
Definition no_colon (s : pystr) : Prop := ":"%char ∉ s.

Lemma split_qualified ws : ws ≠ [] → Forall no_colon ws → split_on ":"%char (qualified ws) = ws.
Proof. intros. by apply split_on_join. Qed.
Lemma qualified_inj ws ws' :
  ws ≠ [] → ws' ≠ [] → Forall no_colon ws → Forall no_colon ws' → qualified ws = qualified ws' → ws = ws'.
Proof. intros. rewrite <- (split_qualified ws), <- (split_qualified ws') by done. by f_equal. Qed.

Section SelectionProofs.
Variable sample : list pystr → Z → res (list pystr).
Hypothesis Hsample : samples sample.

Lemma elem_of_list_minus a b x : x ∈ list_minus a b ↔ x ∈ a ∧ x ∉ b.
Proof. unfold list_minus. rewrite elem_of_elements, elem_of_difference, !elem_of_list_to_set. done. Qed.
Lemma NoDup_list_minus a b : NoDup (list_minus a b).
Proof. apply NoDup_elements. Qed.

Lemma submseteq_NoDup (l k : list pystr) : NoDup k → l ⊆+ k → NoDup l.
Proof. intros Hnd [l' Hp]%submseteq_Permutation. rewrite Hp in Hnd. by apply NoDup_app in Hnd as [? _]. Qed.

(** A choice: everything that is left, or as many as were asked for, or a [ValueError]. *)
Lemma choose_spec available excluded r :
  let rest := list_minus available excluded in
  match r with
  | All => choose sample available excluded r = Ok rest
  | Num k =>
      if len available <=? k then choose sample available excluded r = Ok rest
      else if bool_decide (0 ≤ k ≤ len rest)
      then ∃ l, choose sample available excluded r = Ok l ∧ len l = k ∧ l ⊆ rest ∧ NoDup l
      else choose sample available excluded r = raise ValueError
  end.
Proof.
  intros rest. unfold choose, wants_all. destruct r as [|k]; [done|].
  destruct (len available <=? k); [done|]. specialize (Hsample rest k). fold rest.
  case_bool_decide; [|done]. destruct Hsample as (l & Hl & Hlen & Hsub). exists l.
  split_and!; [done|done|intros x Hx; by eapply elem_of_submseteq|].
  by eapply submseteq_NoDup, Hsub; apply NoDup_list_minus.
Qed.

Definition has_scope (sel : selection) (b s : pystr) : Prop := ∃ scs, sel !! b = Some scs ∧ is_Some (scs !! s).
Definition has_collection (sel : selection) (b s c : pystr) : Prop :=
  ∃ scs cs, sel !! b = Some scs ∧ scs !! s = Some cs ∧ c ∈ cs.

(** Writing a list of chosen scopes into the dictionary. *)
Lemma select_scopes_spec ps sel :
  Forall (λ '(b, s), is_Some (sel !! b) ∧ no_colon b ∧ no_colon s) ps →
  ∃ sel', select_scopes sel ((λ '(b, s), qualified [b; s]) <$> ps) = Ok sel' ∧
    dom sel' = dom sel ∧ (∀ b s, has_scope sel' b s ↔ has_scope sel b s ∨ (b, s) ∈ ps) ∧
    (∀ b s c, has_collection sel' b s c → has_collection sel b s c).
Proof.
  revert sel. induction ps as [|[b s] ps IH]; intros sel Hps.
  - exists sel. split_and!; [done|done| |done]. intros. set_solver.
  - apply Forall_cons in Hps as [([scs Hb] & Hcb & Hcs) Hps]. cbn [fmap list_fmap select_scopes].
    unfold select_scope. rewrite split_qualified by (try done; repeat constructor; done). cbn.
    unfold dict_get. rewrite Hb. cbn.
    destruct (IH (<[b := <[s := ∅]> scs]> sel)) as (sel' & Hrun & Hdom & Hhas & Hcol).
    { eapply Forall_impl; [exact Hps|]. intros [b' s'] ([x Hx] & ? & ?). split_and!; [|done|done].
      rewrite lookup_insert. case_decide; eauto. }
    exists sel'. split_and!; [done| | |].
    + rewrite Hdom, dom_insert_L. assert (b ∈ dom sel) by (apply elem_of_dom; eauto). set_solver.
    + intros b' s'. rewrite Hhas, elem_of_cons. unfold has_scope. setoid_rewrite lookup_insert.
      destruct (decide (b = b')) as [<-|Hne].
      * split.
        -- intros [(x & [= <-] & [y Hy])|H]; [|by auto]. rewrite lookup_insert in Hy.
           destruct (decide (s = s')) as [<-|]; [by auto|]. left. eauto.
        -- intros [(x & Hx & [y Hy])|[[= ->]|H]]; [| |by auto].
           ++ left. rewrite Hb in Hx. injection Hx as <-. eexists. split; [done|]. rewrite lookup_insert.
              case_decide; eauto.
           ++ left. eexists. split; [done|]. rewrite lookup_insert_eq. eauto.
      * split; [intros [H|H]; auto|]. intros [H|[[= -> ->]|H]]; [by auto|done|by auto].
    + intros b' s' c' H'. apply Hcol in H' as (x & cs & Hx & Hc & Hin). rewrite lookup_insert in Hx.
      destruct (decide (b = b')) as [<-|]; [|by exists x, cs]. injection Hx as <-. rewrite lookup_insert in Hc.
      destruct (decide (s = s')); [injection Hc as <-; set_solver|]. by exists scs, cs.
Qed.

(** The scopes of a bucket that may be chosen. *)
Definition candidate (avoid_default only_dropped : bool) (b : bucket) (s : pystr) : Prop :=
  (∃ sc, scopes b !! s = Some sc ∧ s_is_dropped sc = only_dropped) ∧ s ≠ CbServer.system_scope ∧
  (avoid_default = true → s ≠ CbServer.default_scope).
Lemma scope_names_spec b only_dropped s :
  s ∈ scope_names b only_dropped ↔ ∃ sc, scopes b !! s = Some sc ∧ s_is_dropped sc = only_dropped.
Proof.
  unfold scope_names. destruct only_dropped; [|apply active_scope_names].
  rewrite elem_of_elements, elem_of_difference, elem_of_dom, elem_of_list_to_set, active_scope_names. split.
  - intros [[sc Hsc] Hn]. exists sc. split; [done|]. destruct (s_is_dropped sc) eqn:E; [done|]. destruct Hn. eauto.
  - intros (sc & Hsc & Hd). split; [by eexists|]. intros (sc' & Hsc' & Hd'). rewrite Hsc in Hsc'. injection Hsc' as <-. congruence.
Qed.
Lemma scope_allowed_spec avoid s :
  scope_allowed avoid s = true ↔ s ≠ CbServer.system_scope ∧ (avoid = true → s ≠ CbServer.default_scope).
Proof. unfold scope_allowed. destruct avoid; repeat case_bool_decide; cbn; naive_solver. Qed.

Lemma available_scopes_spec buckets avoid od names :
  Forall (λ n, is_Some (get_bucket_obj buckets n)) names →
  ∃ l, available_scopes buckets avoid od names = Ok l ∧
    ∀ q, q ∈ l ↔ ∃ n b s, n ∈ names ∧ get_bucket_obj buckets n = Some b ∧ candidate avoid od b s ∧ q = qualified [n; s].
Proof.
  induction 1 as [|n names [b Hb] _ (l & Hl & Hq)].
  - exists []. split; [done|]. set_solver.
  - eexists. cbn. rewrite Hb. cbn. rewrite Hl. cbn. split; [done|]. intros q. rewrite elem_of_app, Hq, list_elem_of_fmap. split.
    + intros [(s & -> & Hin)|(n' & b' & s & Hn & H)]; [|exists n', b', s; set_solver].
      apply list_elem_of_In, filter_In in Hin as [Hin%list_elem_of_In Ha].
      rewrite scope_names_spec in Hin. apply scope_allowed_spec in Ha.
      exists n, b, s. split_and!; [set_solver|done|done|done].
    + intros (n' & b' & s & [->|Hn]%elem_of_cons & Hb' & Hc & ->); [|right; by exists n', b', s].
      left. exists s. split; [done|]. apply list_elem_of_In, filter_In. rewrite Hb in Hb'. injection Hb' as <-.
      destruct Hc as [Hc1 Hc2]. split; [by apply list_elem_of_In, scope_names_spec|by apply scope_allowed_spec].
Qed.

(** The buckets: different names, without colons, as are the names of scopes and collections. *)
Definition clean_bucket (b : bucket) : Prop :=
  no_colon (b_name b) ∧
  map_Forall (λ s sc, no_colon s ∧ map_Forall (λ c _, no_colon c) (collections sc)) (scopes b).

Lemma get_bucket_obj_in buckets b :
  NoDup (b_name <$> buckets) → b ∈ buckets → get_bucket_obj buckets (b_name b) = Some b.
Proof.
  induction buckets as [|b' bs IH]; [set_solver|]. cbn. intros [Hn Hnd]%NoDup_cons [->|Hin]%elem_of_cons.
  - by rewrite bool_decide_eq_true_2.
  - rewrite bool_decide_eq_false_2; [by apply IH|]. intros E. apply Hn. rewrite E. by apply list_elem_of_fmap_2.
Qed.
Lemma get_bucket_obj_inv buckets n b : get_bucket_obj buckets n = Some b → b ∈ buckets ∧ b_name b = n.
Proof.
  induction buckets as [|b' bs IH]; cbn; [done|]. case_bool_decide as E.
  - intros [= <-]. set_solver.
  - intros H. apply IH in H. set_solver.
Qed.
Lemma lookup_empties (ns : list pystr) (m : selection) n :
  foldl (λ m n, <[n := ∅]> m) m ns !! n = if bool_decide (n ∈ ns) then Some ∅ else m !! n.
Proof.
  revert m. induction ns as [|n' ns IH]; intros m; [by rewrite bool_decide_eq_false_2 by set_solver|]. cbn.
  rewrite IH, lookup_insert. repeat case_bool_decide; try case_decide; set_solver.
Qed.

Definition is_excluded (ex : selection) (b s : pystr) : Prop := has_scope ex b s.
Lemma excluded_scopes_spec ex q :
  q ∈ excluded_scopes ex ↔ ∃ b s, has_scope ex b s ∧ q = qualified [b; s].
Proof.
  unfold excluded_scopes. rewrite list_elem_of_bind. unfold has_scope. split.
  - intros ([b scs] & Hq & Hin%elem_of_map_to_list). apply list_elem_of_bind in Hq as ([s cs] & Hq & Hs%elem_of_map_to_list).
    apply list_elem_of_singleton in Hq. cbn in *. exists b, s. split; [|done]. eauto.
  - intros (b & s & (scs & Hb & [cs Hs]) & ->). exists (b, scs). split; [|by apply elem_of_map_to_list].
    apply list_elem_of_bind. exists (s, cs). split; [by apply list_elem_of_singleton|by apply elem_of_map_to_list].
Qed.

(** Chosen names are names of something. *)
Lemma chosen_named {A} (name : A → pystr) (P : A → Prop) (l : list pystr) :
  (∀ q, q ∈ l → ∃ p, P p ∧ q = name p) → ∃ ps, l = name <$> ps ∧ Forall P ps.
Proof.
  induction l as [|q l IH]; intros Hl; [by exists []|].
  destruct (Hl q) as (p & HP & ->); [set_solver|]. destruct IH as (ps & -> & Hps); [set_solver|].
  exists (p :: ps). split; [done|]. by constructor.
Qed.
Definition scope_name (p : pystr * pystr) : pystr := qualified [p.1; p.2].
Lemma scope_name_inj p p' :
  no_colon p.1 → no_colon p.2 → no_colon p'.1 → no_colon p'.2 → scope_name p = scope_name p' → p = p'.
Proof.
  destruct p as [a1 a2], p' as [b1 b2]. cbn. intros. assert (∀ a b, no_colon a → no_colon b → Forall no_colon [a; b]) by (by repeat constructor).
  assert ([a1; a2] = [b1; b2]) by (apply qualified_inj; auto). by simplify_eq.
Qed.

(** The scopes that may be chosen from the buckets called [names]. *)
Definition eligible (buckets : list bucket) (names : gset pystr) (avoid od : bool) (ex : selection) (p : pystr * pystr) : Prop :=
  ∃ b, b ∈ buckets ∧ b_name b = p.1 ∧ p.1 ∈ names ∧ candidate avoid od b p.2 ∧ ¬ has_scope ex p.1 p.2.

Section Choice.
Variables (buckets : list bucket) (avoid od : bool) (ex : selection).
Hypothesis Hnd : NoDup (b_name <$> buckets).
Hypothesis Hclean : Forall clean_bucket buckets.
Hypothesis Hex : ∀ b s, has_scope ex b s → no_colon b ∧ no_colon s.

Lemma eligible_clean names p : eligible buckets names avoid od ex p → no_colon p.1 ∧ no_colon p.2.
Proof.
  intros (b & Hb & <- & _ & [(sc & Hsc & _) _] & _). rewrite Forall_forall in Hclean.
  destruct (Hclean b Hb) as [H1 H2]. split; [done|]. by destruct (H2 _ _ Hsc).
Qed.

Lemma eligible_inj names p p' :
  eligible buckets names avoid od ex p → eligible buckets names avoid od ex p' → scope_name p = scope_name p' → p = p'.
Proof. intros []%eligible_clean []%eligible_clean. by apply scope_name_inj. Qed.

(** What is left after the exclusions: the names of the eligible scopes. *)
Lemma left_scopes (sel : selection) :
  map_Forall (λ (n : pystr) scs, n ∈ b_name <$> buckets ∧ scs = ∅) sel →
  ∃ available, available_scopes buckets avoid od (fst <$> map_to_list sel) = Ok available ∧
  ∀ q, q ∈ list_minus available (excluded_scopes ex) ↔ ∃ p, eligible buckets (dom sel) avoid od ex p ∧ q = scope_name p.
Proof.
  intros Hsel.
  destruct (available_scopes_spec buckets avoid od (fst <$> map_to_list sel)) as (av & Hav & Hq).
  { apply Forall_fmap, Forall_forall. intros [n scs] Hin%elem_of_map_to_list. cbn.
    destruct (Hsel _ _ Hin) as [Hn _]. apply list_elem_of_fmap in Hn as (b & -> & Hb).
    exists b. by apply get_bucket_obj_in. }
  exists av. split; [done|]. intros q. rewrite elem_of_list_minus, Hq, excluded_scopes_spec. split.
  - intros [(n & b & s & Hn & Hgb & Hc & ->) Hne]. apply get_bucket_obj_inv in Hgb as [Hb <-].
    apply list_elem_of_fmap in Hn as ([n' scs] & En & Hn%elem_of_map_to_list). cbn in En. subst n'.
    exists (b_name b, s). split; [|done]. exists b. split_and!; [done|done|by apply elem_of_dom_2 in Hn|done|].
    intros Hx. apply Hne. eauto.
  - intros (p & He & ->). pose proof (eligible_clean _ _ He) as [Hc1 Hc2].
    destruct He as (b & Hb & En & [scs Hs]%elem_of_dom & Hc & Hne). split.
    + exists p.1, b, p.2. rewrite <- En at 2. split_and!; [|by apply get_bucket_obj_in|done|done].
      apply list_elem_of_fmap. exists (p.1, scs). split; [done|]. by apply elem_of_map_to_list.
    + intros (b' & s' & Hx & E). destruct (Hex _ _ Hx). apply (scope_name_inj p (b', s')) in E; [|done..]. by subst p.
Qed.

(** Scopes chosen among those names. *)
Lemma scopes_of_choice (sel : selection) (l : list pystr) :
  map_Forall (λ (n : pystr) scs, n ∈ b_name <$> buckets ∧ scs = ∅) sel →
  (∀ q, q ∈ l → ∃ p, eligible buckets (dom sel) avoid od ex p ∧ q = scope_name p) →
  ∃ sel' ps, select_scopes sel l = Ok sel' ∧ dom sel' = dom sel ∧ l = scope_name <$> ps ∧
    Forall (eligible buckets (dom sel) avoid od ex) ps ∧
    (∀ b s, has_scope sel' b s ↔ (b, s) ∈ ps) ∧ (∀ b s c, ¬ has_collection sel' b s c).
Proof.
  intros Hsel Hl. destruct (chosen_named scope_name _ l Hl) as (ps & -> & Hps).
  destruct (select_scopes_spec ps sel) as (sel' & Hrun & Hdom & Hhas & Hcol).
  { eapply Forall_impl; [exact Hps|]. intros [b s] He. pose proof (eligible_clean _ _ He).
    split; [|done]. destruct He as (_ & _ & _ & Hd & _). by apply elem_of_dom in Hd. }
  exists sel', ps. split_and!; [|done|done|done| |].
  - rewrite <- Hrun. f_equal. apply list_fmap_ext. by intros ? [] ?.
  - intros b s. rewrite Hhas. split; [|auto]. intros [(scs & Hb & [x Hx])|Hin]; [|done].
    destruct (Hsel _ _ Hb) as [_ ->]. by rewrite lookup_empty in Hx.
  - intros b s c H. apply Hcol in H as (scs & cs & Hb & Hs & _). destruct (Hsel _ _ Hb) as [_ ->].
    by rewrite lookup_empty in Hs.
Qed.
End Choice.

(** The buckets that may be chosen, and how many. *)
Lemma buckets_of_choice (buckets : list bucket) (r : req) (ex : list pystr) :
  NoDup (b_name <$> buckets) →
  match r with
  | Num k =>
      if len buckets <=? k
      then get_random_buckets sample buckets r ex = Ok (foldl (λ m n, <[n := ∅]> m) ∅ (b_name <$> buckets))
      else if bool_decide (0 ≤ k ≤ len (list_minus (b_name <$> buckets) ex))
      then ∃ l, get_random_buckets sample buckets r ex = Ok (foldl (λ m n, <[n := ∅]> m) ∅ l) ∧
             len l = k ∧ NoDup l ∧ l ⊆ list_minus (b_name <$> buckets) ex
      else get_random_buckets sample buckets r ex = raise ValueError
  | All => get_random_buckets sample buckets r ex = Ok (foldl (λ m n, <[n := ∅]> m) ∅ (b_name <$> buckets))
  end.
Proof.
  intros Hnd. unfold get_random_buckets, wants_all. destruct r as [|k]; [done|].
  destruct (len buckets <=? k); [done|]. specialize (Hsample (list_minus (b_name <$> buckets) ex) k).
  case_bool_decide; [|by rewrite Hsample].
  destruct Hsample as (l & Hl & Hlen & Hsub). rewrite Hl. exists l.
  split_and!; [done|done| |intros x Hx; by eapply elem_of_submseteq].
  by eapply submseteq_NoDup, Hsub; apply NoDup_list_minus.
Qed.

(** Buckets as [get_random_buckets] may choose them. *)
Definition bucket_choice (buckets : list bucket) (r : req) (names : gset pystr) : Prop :=
  let all := list_to_set (b_name <$> buckets) in
  names ⊆ all ∧
  match r with All => names = all | Num k => if len buckets <=? k then names = all else Z.of_nat (size names) = k end.
Lemma buckets_chosen (buckets : list bucket) (r : req) :
  NoDup (b_name <$> buckets) →
  match get_random_buckets sample buckets r [] with
  | Ok sel => bucket_choice buckets r (dom sel) ∧
      map_Forall (λ (n : pystr) scs, n ∈ b_name <$> buckets ∧ scs = ∅) sel
  | Err e => e = Exn ValueError [] ∧ ∃ k, r = Num k ∧ k < 0
  end.
Proof.
  intros Hnd. pose proof (buckets_of_choice buckets r [] Hnd) as H.
  assert (∀ l : list pystr, l ⊆ b_name <$> buckets →
    dom (foldl (λ m n, <[n := ∅]> m) (∅ : selection) l) = list_to_set l ∧
    map_Forall (λ (n : pystr) scs, n ∈ b_name <$> buckets ∧ scs = ∅) (foldl (λ m n, <[n := ∅]> m) (∅ : selection) l))
    as Hfold.
  { intros l Hl. split.
    - apply set_eq. intros n. rewrite elem_of_dom, elem_of_list_to_set, lookup_empties, lookup_empty.
      case_bool_decide; [by split; [|eauto]|]. split; [intros [? [=]]|done].
    - intros n scs. rewrite lookup_empties, lookup_empty. case_bool_decide; [|done]. intros [= <-]. auto. }
  destruct r as [|k].
  - rewrite H. destruct (Hfold (b_name <$> buckets)) as [-> ?]; [done|]. unfold bucket_choice. auto.
  - unfold bucket_choice. destruct (len buckets <=? k) eqn:E.
    + rewrite H. destruct (Hfold (b_name <$> buckets)) as [-> ?]; [done|]. auto.
    + case_bool_decide as Hk.
      * destruct H as (l & -> & Hlen & Hndl & Hl).
        assert (l ⊆ b_name <$> buckets) as Hl' by (intros x Hx; by apply Hl, elem_of_list_minus in Hx as [? _]).
        destruct (Hfold l Hl') as [-> ?]. split; [|done]. split; [set_solver|].
        by rewrite size_list_to_set.
      * rewrite H. split; [done|]. exists k. split; [done|].
        assert (len (list_minus (b_name <$> buckets) []) = len buckets); [|lia].
        unfold list_minus, len. rewrite list_to_set_nil, difference_empty_L, elements_list_to_set by done.
        by rewrite length_fmap.
Qed.

(** A choice among those with [P]: all of them, or [k] of them. *)
Definition picks {A} (P : A → Prop) (r : req) (ps : list A) : Prop :=
  NoDup ps ∧ Forall P ps ∧
  match r with
  | All => ∀ p, P p → p ∈ ps
  | Num k => ((∀ p, P p → p ∈ ps) ∧ len ps ≤ k) ∨ len ps = k
  end.
(** [k] cannot be picked. *)
Definition too_many {A} (P : A → Prop) (k : Z) : Prop :=
  k < 0 ∨ ∀ ps, NoDup ps → Forall P ps → len ps < k.

(** The choice among names, read back as what is named. *)
Lemma choose_named {A} (name : A → pystr) (P : A → Prop) (available excluded : list pystr) (r : req) :
  (∀ p p', P p → P p' → name p = name p' → p = p') →
  (∀ q, q ∈ list_minus available excluded ↔ ∃ p, P p ∧ q = name p) →
  match choose sample available excluded r with
  | Ok l => l ⊆ list_minus available excluded ∧ ∀ ps, l = name <$> ps → Forall P ps → picks P r ps
  | Err e => e = Exn ValueError [] ∧ ∃ k, r = Num k ∧ too_many P k
  end.
Proof.
  intros HP Hq. pose proof (choose_spec available excluded r) as H. cbn zeta in H.
  set (rest := list_minus available excluded) in *.
  assert (NoDup rest) as Hndr by apply NoDup_list_minus.
  assert (∀ ps, name <$> ps = rest → Forall P ps → ∀ p, P p → p ∈ ps) as Hall.
  { intros ps Hps HPs p Hp. assert (name p ∈ name <$> ps) as Hin by (rewrite Hps; apply Hq; eauto).
    apply list_elem_of_fmap in Hin as (p' & E & Hin). rewrite Forall_forall in HPs.
    apply HP in E; [|by auto..]. by subst. }
  assert (choose sample available excluded r = Ok rest →
    rest ⊆ rest ∧ ∀ ps, rest = name <$> ps → Forall P ps →
      NoDup ps ∧ Forall P ps ∧ (∀ p, P p → p ∈ ps) ∧ len ps = len rest) as Hok.
  { intros _. split; [done|]. intros ps Hps HPs. split_and!; [|done|by apply Hall|].
    - apply (NoDup_fmap_1 name). by rewrite <- Hps.
    - unfold len. rewrite Hps. by rewrite length_fmap. }
  destruct r as [|k].
  - rewrite H. destruct (Hok H) as [Hs Hps]. split; [done|]. intros ps E HPs. destruct (Hps ps E HPs) as (? & ? & ? & _).
    by split_and!.
  - destruct (len available <=? k) eqn:Ek.
    + rewrite H. destruct (Hok H) as [Hs Hps]. split; [done|]. intros ps E HPs.
      destruct (Hps ps E HPs) as (? & ? & ? & Hlen). split_and!; [done|done|]. left. split; [done|].
      assert (len rest ≤ len available); [|lia]. unfold len. apply Nat2Z.inj_le.
      apply submseteq_length, NoDup_submseteq; [done|]. intros x Hx. by apply elem_of_list_minus in Hx as [? _].
    + case_bool_decide as Hk.
      * destruct H as (l & -> & Hlen & Hl & Hndl). split; [done|]. intros ps -> HPs.
        split_and!; [by eapply NoDup_fmap_1|done|]. right. unfold len in *. by rewrite length_fmap in Hlen.
      * rewrite H. split; [done|]. exists k. split; [done|]. destruct (decide (k < 0)); [by left|right].
        intros ps Hndp HPs. assert (len ps ≤ len rest); [|lia]. unfold len. rewrite <- (length_fmap name).
        apply Nat2Z.inj_le, submseteq_length, NoDup_submseteq.
        -- apply NoDup_fmap_2_strong; [|done]. intros p p' H1 H2 E. rewrite Forall_forall in HPs.
           by apply HP in E; auto.
        -- intros x Hx. apply list_elem_of_fmap in Hx as (p & -> & Hin). rewrite Forall_forall in HPs. apply Hq. eauto.
Qed.

Lemma get_random_scopes_spec (buckets : list bucket) (r rb : req) (avoid od : bool) (ex : selection) :
  NoDup (b_name <$> buckets) → Forall clean_bucket buckets →
  (∀ b s, has_scope ex b s → no_colon b ∧ no_colon s) →
  match get_random_scopes sample buckets r rb avoid od ex with
  | Ok sel => bucket_choice buckets rb (dom sel) ∧ (∀ b s c, ¬ has_collection sel b s c) ∧
      ∃ ps, (∀ b s, has_scope sel b s ↔ (b, s) ∈ ps) ∧ picks (eligible buckets (dom sel) avoid od ex) r ps
  | Err e => e = Exn ValueError [] ∧
      ((∃ k, rb = Num k ∧ k < 0) ∨
       (∃ k names, r = Num k ∧ bucket_choice buckets rb names ∧ too_many (eligible buckets names avoid od ex) k))
  end.
Proof.
  intros Hnd Hcl Hex. unfold get_random_scopes. pose proof (buckets_chosen buckets rb Hnd) as Hb.
  destruct (get_random_buckets sample buckets rb []) as [sel|e]; cbn; [|destruct Hb as [-> Hk]; auto].
  destruct Hb as [Hbc Hsel].
  destruct (left_scopes buckets avoid od ex Hnd Hcl Hex sel Hsel) as (av & -> & Hleft). cbn.
  pose proof (choose_named scope_name _ av (excluded_scopes ex) r (eligible_inj buckets avoid od ex Hcl (dom sel)) Hleft) as Hch.
  destruct (choose sample av (excluded_scopes ex) r) as [l|e]; cbn.
  - destruct Hch as [Hl Hpick].
    destruct (scopes_of_choice buckets avoid od ex Hcl sel l Hsel) as (sel' & ps & -> & Hdom & -> & HPs & Hhas & Hnc).
    { intros q Hin. by apply Hleft, Hl. }
    rewrite Hdom. split_and!; [done|done|]. exists ps. split; [done|]. by apply Hpick.
  - destruct Hch as [-> (k & -> & Hk)]. split; [done|]. right. by exists k, (dom sel).
Qed.

(** *** Collections *)
Definition collection_name (t : pystr * pystr * pystr) : pystr := qualified [t.1.1; t.1.2; t.2].
Definition clean_triple (t : pystr * pystr * pystr) : Prop := no_colon t.1.1 ∧ no_colon t.1.2 ∧ no_colon t.2.
Lemma clean_parts t : clean_triple t → Forall no_colon [t.1.1; t.1.2; t.2].
Proof. intros (? & ? & ?). by repeat constructor. Qed.
Lemma collection_name_inj t t' : clean_triple t → clean_triple t' → collection_name t = collection_name t' → t = t'.
Proof.
  intros H1%clean_parts H2%clean_parts E. apply qualified_inj in E; [|done..].
  destruct t as [[] ?], t' as [[] ?]. cbn in *. by simplify_eq.
Qed.

(** Writing chosen collections into the dictionary. *)
Lemma select_collections_spec ts sel :
  Forall (λ t, has_scope sel t.1.1 t.1.2 ∧ clean_triple t) ts →
  ∃ sel', select_collections sel (collection_name <$> ts) = Ok sel' ∧ dom sel' = dom sel ∧
    (∀ b s, has_scope sel' b s ↔ has_scope sel b s) ∧
    (∀ b s c, has_collection sel' b s c ↔ has_collection sel b s c ∨ (b, s, c) ∈ ts).
Proof.
  revert sel. induction ts as [|[[b s] c] ts IH]; intros sel Hts.
  - exists sel. split_and!; [done..|]. set_solver.
  - apply Forall_cons in Hts as [[(scs & Hb & [cs Hs]) Hcl%clean_parts] Hts]. cbn [fst snd] in *.
    cbn [fmap list_fmap select_collections].
    unfold select_collection, collection_name. rewrite split_qualified by done. cbn.
    unfold dict_get. rewrite Hb. cbn. rewrite Hs. cbn.
    assert (∀ b' s', has_scope (<[b := <[s := {[c]} ∪ cs]> scs]> sel) b' s' ↔ has_scope sel b' s') as Hsame.
    { intros b' s'. unfold has_scope. rewrite lookup_insert. destruct (decide (b = b')) as [<-|]; [|done].
      rewrite Hb. split; intros (x & [= <-] & Hx); eexists; (split; [done|]); revert Hx;
        rewrite lookup_insert; case_decide; subst; eauto. }
    destruct (IH (<[b := <[s := {[c]} ∪ cs]> scs]> sel)) as (sel' & Hrun & Hdom & Hsc & Hcol).
    { eapply Forall_impl; [exact Hts|]. intros t [Hh ?]. split; [|done]. by apply Hsame. }
    exists sel'. split_and!; [done| | |].
    + rewrite Hdom, dom_insert_L. assert (b ∈ dom sel) by (apply elem_of_dom; eauto). set_solver.
    + intros b' s'. by rewrite Hsc.
    + intros b' s' c'. rewrite Hcol, elem_of_cons. unfold has_collection. rewrite lookup_insert.
      destruct (decide (b = b')) as [<-|Hne]; [|split; [naive_solver|intros [?|[?|?]]; [auto|congruence|auto]]].
      split.
      * intros [(x & cs' & [= <-] & Hx & Hin)|]; [|by auto]. rewrite lookup_insert in Hx.
        destruct (decide (s = s')) as [<-|]; [|by left; eauto].
        injection Hx as <-. apply elem_of_union in Hin as [->%elem_of_singleton|Hin]; [by auto|]. left. eauto.
      * intros [(x & cs' & Hx & Hy & Hin)|[[= -> ->]|]]; [| |by auto]; left.
        -- rewrite Hb in Hx. injection Hx as <-. destruct (decide (s = s')) as [<-|].
           ++ rewrite Hs in Hy. injection Hy as <-. eexists _, _. rewrite lookup_insert_eq. split_and!; [done|done|set_solver].
           ++ eexists _, _. rewrite lookup_insert_ne by done. done.
        -- eexists _, _. rewrite lookup_insert_eq. split_and!; [done|done|set_solver].
Qed.

Lemma collection_names_spec (b : bucket) (s : pystr) (sc : scope) (od : bool) :
  scopes b !! s = Some sc →
  ∃ l, collection_names b s od = Ok l ∧
    ∀ c, c ∈ l ↔ ∃ col, collections sc !! c = Some col ∧ c_is_dropped col = od.
Proof.
  intros Hs. unfold collection_names, get_active_collections, some_scope, get_scope_obj, dict_get. rewrite Hs. cbn.
  assert (∀ c, c ∈ (fst <$> List.filter (λ nc, negb (c_is_dropped nc.2)) (map_to_list (collections sc))) ↔
    ∃ col, collections sc !! c = Some col ∧ c_is_dropped col = false) as Hact.
  { intros c. rewrite list_elem_of_fmap. split.
    - intros ([c' col] & -> & Hin%list_elem_of_In). apply filter_In in Hin as [Hin Hd].
      apply list_elem_of_In, elem_of_map_to_list in Hin. exists col. cbn in *. by destruct (c_is_dropped col).
    - intros (col & Hc & Hd). exists (c, col). split; [done|]. apply list_elem_of_In, filter_In. cbn. rewrite Hd.
      split; [|done]. by apply list_elem_of_In, elem_of_map_to_list. }
  destruct od; eexists; (split; [done|]); [|exact Hact].
  intros c. rewrite elem_of_elements, elem_of_difference, elem_of_dom, elem_of_list_to_set, Hact. split.
  - intros [[col Hc] Hn]. exists col. split; [done|]. destruct (c_is_dropped col) eqn:E; [done|]. destruct Hn. eauto.
  - intros (col & Hc & Hd). split; [by eexists|]. intros (col' & Hc' & Hd'). rewrite Hc in Hc'. injection Hc' as <-. congruence.
Qed.

Definition collection_of (b : bucket) (od : bool) (s c : pystr) : Prop :=
  ∃ sc col, scopes b !! s = Some sc ∧ collections sc !! c = Some col ∧ c_is_dropped col = od.
Lemma available_in_scopes_spec (b : bucket) (n : pystr) (od : bool) (ss : list pystr) :
  Forall (λ s, is_Some (scopes b !! s)) ss →
  ∃ l, available_in_scopes b n od ss = Ok l ∧
    ∀ q, q ∈ l ↔ ∃ s c, s ∈ ss ∧ collection_of b od s c ∧ q = qualified [n; s; c].
Proof.
  induction 1 as [|s ss [sc Hs] _ (l & Hl & Hq)]; [exists []; split; [done|]; set_solver|].
  destruct (collection_names_spec b s sc od Hs) as (cs & Hcs & Hin). cbn. rewrite Hcs. cbn. rewrite Hl. cbn.
  eexists. split; [done|]. intros q. rewrite elem_of_app, Hq, list_elem_of_fmap. split.
  - intros [(c & -> & (col & ? & ?)%Hin)|(s' & c & ? & ?)].
    + exists s, c. split; [set_solver|]. split; [|done]. by exists sc, col.
    + exists s', c. set_solver.
  - intros (s' & c & [->|Hs']%elem_of_cons & Hc & ->); [left|right; by exists s', c].
    exists c. split; [done|]. apply Hin. destruct Hc as (sc' & col & Hsc' & ? & ?). rewrite Hs in Hsc'.
    injection Hsc' as <-. by exists col.
Qed.

Lemma available_collections_spec (buckets : list bucket) (od : bool) (sel : list (pystr * gmap pystr (gset pystr))) :
  Forall (λ ns, ∃ b, get_bucket_obj buckets ns.1 = Some b ∧ ∀ s, is_Some (ns.2 !! s) → is_Some (scopes b !! s)) sel →
  ∃ l, available_collections buckets od sel = Ok l ∧
    ∀ q, q ∈ l ↔ ∃ n scs b s c, (n, scs) ∈ sel ∧ get_bucket_obj buckets n = Some b ∧ is_Some (scs !! s) ∧
      collection_of b od s c ∧ q = qualified [n; s; c].
Proof.
  induction 1 as [|[n scs] sel (b & Hb & Hs) _ (l & Hl & Hq)]; [exists []; split; [done|]; set_solver|].
  cbn [fst snd] in *.
  destruct (available_in_scopes_spec b n od (fst <$> map_to_list scs)) as (here & Hhere & Hin).
  { apply Forall_fmap, Forall_forall. intros [s x] H%elem_of_map_to_list. cbn. apply Hs. by eexists. }
  exists (here ++ l). split.
  - cbn [available_collections]. rewrite Hb. cbn [of_option res_bind mbind].
    destruct (fst <$> map_to_list scs) as [|s ss] eqn:E.
    + cbn in Hhere. injection Hhere as <-. cbn. by rewrite Hl.
    + cbn in *. rewrite Hhere. cbn. by rewrite Hl.
  - intros q. rewrite elem_of_app, Hin, Hq. split.
    + intros [(s & c & Hss & Hc & ->)|(n' & scs' & b' & s & c & ? & ?)].
      * apply list_elem_of_fmap in Hss as ([s' x] & -> & Hss%elem_of_map_to_list).
        exists n, scs, b, s', c. split_and!; [set_solver|done|by eexists|done|done].
      * exists n', scs', b', s, c. split; [set_solver|done].
    + intros (n' & scs' & b' & s & c & [[= -> ->]|Hn]%elem_of_cons & Hb' & [x Hx] & Hc & ->).
      * left. rewrite Hb in Hb'. injection Hb' as <-. exists s, c. split_and!; [|done|done].
        apply list_elem_of_fmap. exists (s, x). split; [done|]. by apply elem_of_map_to_list.
      * right. exists n', scs', b', s, c. split_and!; [done|done|by eexists|done|done].
Qed.
Lemma excluded_collections_spec (ex : selection) q :
  q ∈ excluded_collections ex ↔ ∃ b s c, has_collection ex b s c ∧ q = qualified [b; s; c].
Proof.
  unfold excluded_collections, has_collection. rewrite list_elem_of_bind. split.
  - intros ([b scs] & Hq & Hb%elem_of_map_to_list). apply list_elem_of_bind in Hq as ([s cs] & Hq & Hs%elem_of_map_to_list).
    apply list_elem_of_bind in Hq as (c & Hq & Hc%elem_of_elements). apply list_elem_of_singleton in Hq. cbn in *.
    exists b, s, c. split; [|done]. by exists scs, cs.
  - intros (b & s & c & (scs & cs & Hb & Hs & Hc) & ->). exists (b, scs). split; [|by apply elem_of_map_to_list].
    apply list_elem_of_bind. exists (s, cs). split; [|by apply elem_of_map_to_list].
    apply list_elem_of_bind. exists c. split; [by apply list_elem_of_singleton|by apply elem_of_elements].
Qed.

(** The collections that may be chosen once the scopes of [sel] are. *)
Definition eligible_collection (buckets : list bucket) (sel : pystr → pystr → Prop) (od : bool) (ex : selection)
    (t : pystr * pystr * pystr) : Prop :=
  ∃ b, b ∈ buckets ∧ b_name b = t.1.1 ∧ sel t.1.1 t.1.2 ∧ collection_of b od t.1.2 t.2 ∧ ¬ has_collection ex t.1.1 t.1.2 t.2.

Section CollectionChoice.
Variables (buckets : list bucket) (od : bool) (ex : selection).
Hypothesis Hnd : NoDup (b_name <$> buckets).
Hypothesis Hclean : Forall clean_bucket buckets.
Hypothesis Hex : ∀ b s c, has_collection ex b s c → clean_triple (b, s, c).

Lemma eligible_collection_clean sel t : eligible_collection buckets sel od ex t → clean_triple t.
Proof.
  intros (b & Hb & En & _ & (sc & col & Hs & Hc & _) & _). rewrite Forall_forall in Hclean. unfold clean_triple. rewrite <- En.
  destruct (Hclean b Hb) as [H1 H2]. destruct (H2 _ _ Hs) as [H3 H4]. split_and!; [done|done|]. by apply (H4 _ _ Hc).
Qed.
Lemma eligible_collection_inj sel t t' :
  eligible_collection buckets sel od ex t → eligible_collection buckets sel od ex t' →
  collection_name t = collection_name t' → t = t'.
Proof. intros H1%eligible_collection_clean H2%eligible_collection_clean. by apply collection_name_inj. Qed.

Lemma left_collections (sel : selection) :
  (∀ n s, has_scope sel n s → ∃ b, b ∈ buckets ∧ b_name b = n ∧ is_Some (scopes b !! s)) →
  dom sel ⊆ list_to_set (b_name <$> buckets) →
  ∃ available, available_collections buckets od (map_to_list sel) = Ok available ∧
  ∀ q, q ∈ list_minus available (excluded_collections ex) ↔
    ∃ t, eligible_collection buckets (has_scope sel) od ex t ∧ q = collection_name t.
Proof.
  intros Hscs Hdom.
  destruct (available_collections_spec buckets od (map_to_list sel)) as (av & Hav & Hq).
  { apply Forall_forall. intros [n scs] Hin%elem_of_map_to_list. cbn.
    assert (n ∈ b_name <$> buckets) as (b & -> & Hb)%list_elem_of_fmap.
    { apply (elem_of_list_to_set (C := gset pystr)), Hdom, elem_of_dom. eauto. }
    exists b. split; [by apply get_bucket_obj_in|]. intros s Hs.
    destruct (Hscs (b_name b) s) as (b' & Hb' & En & H); [by exists scs|].
    assert (Some b' = Some b) as [= ->]; [|done].
    rewrite <- (get_bucket_obj_in buckets b' Hnd Hb'), En. by apply get_bucket_obj_in. }
  exists av. split; [done|]. intros q. rewrite elem_of_list_minus, Hq, excluded_collections_spec. split.
  - intros [(n & scs & b & s & c & Hn%elem_of_map_to_list & Hgb & Hs & Hc & ->) Hne].
    apply get_bucket_obj_inv in Hgb as [Hb <-]. exists (b_name b, s, c). split; [|done].
    exists b. split_and!; [done|done|by exists scs|done|]. intros Hx. apply Hne. eauto.
  - intros (t & He & ->). pose proof (eligible_collection_clean _ _ He) as Hct.
    destruct He as (b & Hb & En & (scs & Hn & Hs) & Hc & Hne). split.
    + exists t.1.1, scs, b, t.1.2, t.2. split_and!; [by apply elem_of_map_to_list| |done|done|done].
      rewrite <- En. by apply get_bucket_obj_in.
    + intros (b' & s' & c' & Hx & E). pose proof (Hex _ _ _ Hx) as Hx'.
      apply (collection_name_inj t (b', s', c')) in E; [|done..]. by subst t.
Qed.
End CollectionChoice.

Definition in_pairs (ps : list (pystr * pystr)) (b s : pystr) : Prop := (b, s) ∈ ps.
Lemma eligible_collection_ext buckets od ex (P Q : pystr → pystr → Prop) t :
  (∀ b s, P b s ↔ Q b s) → eligible_collection buckets P od ex t ↔ eligible_collection buckets Q od ex t.
Proof. intros H. unfold eligible_collection. by setoid_rewrite H. Qed.

Lemma get_random_collections_spec (buckets : list bucket) (r rs rb : req) (od : bool) (ex : selection) :
  NoDup (b_name <$> buckets) → Forall clean_bucket buckets →
  (∀ b s c, has_collection ex b s c → clean_triple (b, s, c)) →
  match get_random_collections sample buckets r rs rb od ex with
  | Ok sel => bucket_choice buckets rb (dom sel) ∧
      ∃ ps ts, (∀ b s, has_scope sel b s ↔ (b, s) ∈ ps) ∧ picks (eligible buckets (dom sel) false false ∅) rs ps ∧
        (∀ b s c, has_collection sel b s c ↔ (b, s, c) ∈ ts) ∧
        picks (eligible_collection buckets (in_pairs ps) od ex) r ts
  | Err e => e = Exn ValueError [] ∧
      ((∃ k, rb = Num k ∧ k < 0) ∨
       (∃ k names, rs = Num k ∧ bucket_choice buckets rb names ∧ too_many (eligible buckets names false false ∅) k) ∨
       (∃ k names ps, r = Num k ∧ bucket_choice buckets rb names ∧ picks (eligible buckets names false false ∅) rs ps ∧
          too_many (eligible_collection buckets (in_pairs ps) od ex) k))
  end.
Proof.
  intros Hnd Hcl Hex. unfold get_random_collections.
  assert (∀ b s, has_scope ∅ b s → no_colon b ∧ no_colon s) as Hno by (intros b s (scs & Hb & _); by rewrite lookup_empty in Hb).
  pose proof (get_random_scopes_spec buckets rs rb false false ∅ Hnd Hcl Hno) as Hsc.
  destruct (get_random_scopes sample buckets rs rb false false ∅) as [sel|e]; cbn; [|naive_solver].
  destruct Hsc as (Hbc & Hnc & ps & Hhas & Hps).
  destruct (left_collections buckets od ex Hnd Hcl Hex sel) as (av & -> & Hleft); [|by destruct Hbc|].
  { intros n s Hs%Hhas. destruct Hps as (_ & Hps & _). rewrite Forall_forall in Hps.
    destruct (Hps _ Hs) as (b & Hb & En & _ & [(sc & Hsc & _) _] & _). exists b. split_and!; [done|done|by exists sc]. }
  cbn. setoid_rewrite (eligible_collection_ext buckets od ex _ (in_pairs ps) _ Hhas) in Hleft.
  pose proof (choose_named collection_name _ av (excluded_collections ex) r
    (eligible_collection_inj buckets od ex Hcl (in_pairs ps)) Hleft) as Hch.
  destruct (choose sample av (excluded_collections ex) r) as [l|e]; cbn.
  - destruct Hch as [Hl Hpick].
    destruct (chosen_named collection_name (eligible_collection buckets (in_pairs ps) od ex) l) as (ts & -> & Hts).
    { intros q Hin. by apply Hleft, Hl. }
    destruct (select_collections_spec ts sel) as (sel' & -> & Hdom & Hsc' & Hcol).
    { eapply Forall_impl; [exact Hts|]. intros t Ht. split; [|by eapply eligible_collection_clean].
      destruct Ht as (_ & _ & _ & Hin & _). by apply Hhas. }
    rewrite Hdom. split; [done|]. exists ps, ts. split_and!; [|done| |by apply Hpick].
    + intros b s. by rewrite Hsc'.
    + intros b s c. rewrite Hcol. split; [|by auto]. intros [H|]; [|done]. by apply Hnc in H.
  - destruct Hch as [-> (k & -> & Hk)]. split; [done|]. right. right. by exists k, (dom sel), ps.
Qed.
End SelectionProofs.

(** ** Theorems *)

(** [get_random_scopes] considers all the buckets, or as many as are asked for; from them it
    selects, without repetition and never one that is excluded, the system scope or (with [avoid_default]) the
    default scope, all the scopes that are active (or, with [consider_only_dropped], all that are dropped), or as
    many as are asked for, with no collections. It fails only with a ValueError of the sampling: for
    a negative number, or when a positive number below the count before the exclusions is above the count
    after them. *)
Theorem scopes_selected (sample : list pystr → Z → res (list pystr)) (buckets : list bucket) (r rb : req)
    (avoid od : bool) (ex : selection) :
  samples sample → NoDup (b_name <$> buckets) → Forall clean_bucket buckets →
  (∀ b s, has_scope ex b s → no_colon b ∧ no_colon s) →
  match get_random_scopes sample buckets r rb avoid od ex with
  | Ok sel => bucket_choice buckets rb (dom sel) ∧ (∀ b s c, ¬ has_collection sel b s c) ∧
      ∃ ps, (∀ b s, has_scope sel b s ↔ (b, s) ∈ ps) ∧ picks (eligible buckets (dom sel) avoid od ex) r ps
  | Err e => e = Exn ValueError [] ∧
      ((∃ k, rb = Num k ∧ k < 0) ∨
       (∃ k names, r = Num k ∧ bucket_choice buckets rb names ∧ too_many (eligible buckets names avoid od ex) k))
  end.
Proof. intros. by apply get_random_scopes_spec. Qed.

(** C32: [get_random_collections] selects scopes like [get_random_scopes] and, within the scopes selected,
    without repetition and never one that is excluded, all the collections that are active (or all
    that are dropped), or as many as are asked for; every failure is a ValueError of the sampling: a
    negative number, or more than there are. *)
Theorem collections_selected (sample : list pystr → Z → res (list pystr)) (buckets : list bucket) (r rs rb : req)
    (od : bool) (ex : selection) :
  samples sample → NoDup (b_name <$> buckets) → Forall clean_bucket buckets →
  (∀ b s c, has_collection ex b s c → clean_triple (b, s, c)) →
  match get_random_collections sample buckets r rs rb od ex with
  | Ok sel => bucket_choice buckets rb (dom sel) ∧
      ∃ ps ts, (∀ b s, has_scope sel b s ↔ (b, s) ∈ ps) ∧ picks (eligible buckets (dom sel) false false ∅) rs ps ∧
        (∀ b s c, has_collection sel b s c ↔ (b, s, c) ∈ ts) ∧
        picks (eligible_collection buckets (in_pairs ps) od ex) r ts
  | Err e => e = Exn ValueError [] ∧
      ((∃ k, rb = Num k ∧ k < 0) ∨
       (∃ k names, rs = Num k ∧ bucket_choice buckets rb names ∧ too_many (eligible buckets names false false ∅) k) ∨
       (∃ k names ps, r = Num k ∧ bucket_choice buckets rb names ∧ picks (eligible buckets names false false ∅) rs ps ∧
          too_many (eligible_collection buckets (in_pairs ps) od ex) k))
  end.
Proof. intros. by apply get_random_collections_spec. Qed.

(** The first elements are a sample. *)
Definition first_sample (l : list pystr) (k : Z) : res (list pystr) :=
  if bool_decide (0 ≤ k ≤ len l) then Ok (take (Z.to_nat k) l) else raise ValueError.
Lemma first_sample_samples : samples first_sample.
Proof.
  intros l k. unfold first_sample. case_bool_decide as H; [|done]. eexists. split; [done|]. split.
  - unfold len in *. rewrite length_take. lia.
  - apply prefix_submseteq, take_prefix || (rewrite <- (take_drop (Z.to_nat k) l) at 2; apply submseteq_inserts_r; done).
Qed.

#[local] Instance no_colon_dec s : Decision (no_colon s) := _.
#[local] Instance clean_bucket_dec b : Decision (clean_bucket b) := _.
Definition demo_buckets : list bucket :=
  omap (λ n, match Bucket_init (py "default") (Some n) ∅ with Ok b => Some b | Err _ => None end) [py "b1"; py "b2"].
Lemma demo_buckets_ok : NoDup (b_name <$> demo_buckets) ∧ Forall clean_bucket demo_buckets.
Proof. apply (bool_decide_unpack _). vm_compute. exact I. Qed.
Definition demo_exclusion : selection := {[py "b1" := {[CbServer.default_scope := {[CbServer.default_collection]}]}]}.
Lemma demo_exclusion_ok b s : has_scope demo_exclusion b s → b = py "b1" ∧ s = CbServer.default_scope.
Proof.
  intros (scs & Hb & [x Hs]). unfold demo_exclusion in Hb. apply lookup_singleton_Some in Hb as [<- <-].
  by apply lookup_singleton_Some in Hs as [<- _].
Qed.

(** One of the two default scopes is excluded: asked for one, the other is selected. *)
Lemma scopes_selected_witness :
  ∃ sel ps, get_random_scopes first_sample demo_buckets (Num 1) All false false demo_exclusion = Ok sel ∧
    (∀ b s, has_scope sel b s ↔ (b, s) ∈ ps) ∧ len ps ≤ 1 ∧ dom sel = {[py "b1"; py "b2"]}.
Proof.
  pose proof (scopes_selected first_sample demo_buckets (Num 1) All false false demo_exclusion first_sample_samples
    (proj1 demo_buckets_ok) (proj2 demo_buckets_ok)) as H.
  assert (is_ok (get_random_scopes first_sample demo_buckets (Num 1) All false false demo_exclusion) = true) as Hok
    by (vm_compute; reflexivity).
  destruct (get_random_scopes first_sample demo_buckets (Num 1) All false false demo_exclusion) as [sel|] eqn:E; [|done].
  destruct H as ([_ Hd] & _ & ps & Hps & _ & _ & Hlen).
  { intros b s [-> ->]%demo_exclusion_ok. split; apply (bool_decide_unpack _); vm_compute; exact I. }
  exists sel, ps. split_and!; [done|done|lia|]. rewrite Hd. apply (bool_decide_unpack _). vm_compute. exact I.
Defined.

(** All the collections of one bucket, and a negative number of them. *)
Lemma collections_selected_witness :
  (∃ sel, get_random_collections first_sample demo_buckets All All (Num 1) false ∅ = Ok sel ∧ size (dom sel) = 1%nat) ∧
  get_random_collections first_sample demo_buckets (Num (-1)) All All false demo_exclusion = Err (Exn ValueError []).
Proof.
  destruct demo_buckets_ok as [Hnd Hcl]. split.
  - pose proof (collections_selected first_sample demo_buckets All All (Num 1) false ∅ first_sample_samples Hnd Hcl) as H.
    assert (is_ok (get_random_collections first_sample demo_buckets All All (Num 1) false ∅) = true) as Hok
      by (vm_compute; reflexivity).
    destruct (get_random_collections first_sample demo_buckets All All (Num 1) false ∅) as [sel|] eqn:E; [|done].
    exists sel. split; [done|]. destruct H as [[_ Hs] _].
    { intros b s c (scs & cs & Hb & _). by rewrite lookup_empty in Hb. }
    assert (len demo_buckets <=? 1 = false) as Hlen by (vm_compute; reflexivity). rewrite Hlen in Hs. lia.
  - vm_compute. reflexivity.
Defined.
