(* ===== verification/BucketSpec.v ===== *)
(** * Expanding the specification of buckets

    The part of [BucketUtils] (couchbase_utils/bucket_utils/bucket_ready_functions.py) that completes the
    dictionary from which buckets are created: [expand_collection_spec],
    [expand_scope_spec], [expand_buckets_spec] with its exponential distribution of items, and
    [balance_scopes_collections_items], which fits a specification into the limits of a
    serverless cluster; with the parameter lists of [MetaConstants]
    (lib/collections_helper/collections_spec_constants.py) and [Bucket].

    A dictionary that the code iterates over is a list of pairs in the order of the iteration, which
    Python does not specify: a new key goes to the end here, and no theorem depends on the place.  Other
    dictionaries are finite maps.  Python 2 compares a number with any other value and divides
    integers rounding down.  The names that [get_random_name] draws come from the counters of
    [Bucket] or from a list of draws.  The loops that look for unused names run on fuel; Theorem
    [spec_expanded] says how much is enough. *)

From S2P Require Import Prelude Py Bucket.
Local Open Scope Z_scope.
#[local] Arguments py : simpl never.

(** ** Dictionaries that are iterated over *)

Abbreviation odict A := (list (pystr * A)).
(** [d[k] = a]: in place when the key is there, else at the end. *)
Fixpoint od_set {A} (k : pystr) (a : A) (d : odict A) : odict A :=
  match d with
  | [] => [(k, a)]
  | (k', a') :: d => if bool_decide (k = k') then (k', a) :: d else (k', a') :: od_set k a d
  end.
Definition od_in {A} (k : pystr) (d : odict A) : bool := bool_decide (k ∈ d.*1).

(** ** lib/collections_helper/collections_spec_constants.py *)

Module MetaConstants.
Definition USE_SIMPLE_NAMES := py "use_simple_names".
Definition NUM_BUCKETS := py "num_buckets".
Definition NUM_SCOPES_PER_BUCKET := py "num_scopes_per_bucket".
Definition NUM_COLLECTIONS_PER_SCOPE := py "num_collections_per_scope".
Definition NUM_ITEMS_PER_COLLECTION := py "num_items".
Definition REMOVE_DEFAULT_COLLECTION := py "remove_default_collection".
Definition CREATE_COLLECTIONS_USING_MANIFEST_IMPORT := py "create_collections_using_manifest_import".
Definition BUCKET_TAR_DIR := py "bucket_tar_dir".
Definition BUCKET_TAR_SRC := py "bucket_tar_src".
Definition LOAD_COLLECTIONS_EXPONENTIALLY := py "load_collections_exponentially".
Definition get_params : list pystr :=
  [USE_SIMPLE_NAMES; NUM_BUCKETS; NUM_SCOPES_PER_BUCKET; NUM_COLLECTIONS_PER_SCOPE; NUM_ITEMS_PER_COLLECTION;
   REMOVE_DEFAULT_COLLECTION; CREATE_COLLECTIONS_USING_MANIFEST_IMPORT; BUCKET_TAR_DIR; BUCKET_TAR_SRC;
   LOAD_COLLECTIONS_EXPONENTIALLY].
End MetaConstants.
Import MetaConstants.

(** [Bucket.get_params]: the attributes of the class that cannot be called, the counters included. *)
Definition ramQuotaMB := py "ramQuotaMB".
Definition Bucket_get_params : list pystr :=
  py <$> ["name"; "ramQuotaMB"; "bucketType"; "replicaNumber"; "evictionPolicy"; "priority"; "flushEnabled";
          "conflictResolutionType"; "storageBackend"; "maxTTL"; "replicaIndex"; "threadsNumber"; "compressionMode";
          "uuid"; "durabilityMinLevel"; "purge_interval"; "autoCompactionDefined"; "fragmentationPercentage";
          "numVBuckets"; "width"; "weight"; "historyRetentionCollectionDefault"; "historyRetentionSeconds";
          "historyRetentionBytes"; "magmaKeyTreeDataBlockSize"; "magmaSeqTreeDataBlockSize";
          "bucket_counter"; "scope_counter"; "collection_counter"]%string.

(** ** Specifications *)

Abbreviation params := (gmap pystr pv).
(** A scope: its parameters and, under the key "collections", the collections. *)
Record scope_spec := ScopeSpec { ss_params : params; ss_collections : option (odict params) }.
(** A value in the dictionary of scopes need not be a dictionary. *)
Inductive scope_entry := Entry (s : scope_spec) | NotDict.
Record bucket_spec := BucketSpec { bs_params : params; bs_scopes : option (odict scope_entry) }.
Record buckets_spec := BucketsSpec { sp_params : params; sp_buckets : option (odict bucket_spec) }.

(** The value as a number, in an arithmetic expression.  (A string that is multiplied is repeated; such values are
    not meant here.) *)
Definition number (v : pv) : res Z :=
  match v with
  | PInt n => Ok n
  | PBool b => Ok (if b then 1 else 0)
  | PNone | PStr _ => raise TypeError
  end.

(** [n < v]: None is below all numbers and strings are above them. *)
Definition below (n : Z) (v : pv) : bool :=
  match v with
  | PInt m => n <? m
  | PBool b => n <? (if b then 1 else 0)
  | PNone => false
  | PStr _ => true
  end.

(** The counters of class [Bucket] and the draws of [get_random_name]. *)
Record names := Names { bucket_counter : Counter; scope_counter : Counter; collection_counter : Counter; drawn : list pystr }.
Inductive level := LBucket | LScope | LCollection.
Definition prefix_of (l : level) : pystr :=
  match l with LBucket => py "bucket" | LScope => py "scope" | LCollection => py "collection" end.
Definition counter_of (l : level) (w : names) : Counter :=
  match l with LBucket => bucket_counter w | LScope => scope_counter w | LCollection => collection_counter w end.
Definition set_counter (l : level) (c : Counter) (w : names) : names :=
  match l with
  | LBucket => Names c (scope_counter w) (collection_counter w) (drawn w)
  | LScope => Names (bucket_counter w) c (collection_counter w) (drawn w)
  | LCollection => Names (bucket_counter w) (scope_counter w) c (drawn w)
  end.
(** [get_random_name(prefix=prefix, counter_obj=counter_obj)]; [simple]: both are given. *)
Definition new_name (simple : bool) (l : level) : M names pystr := λ w,
  if simple then
    let '(n, c) := counter_name (prefix_of l) (counter_of l w) in (Ok n, set_counter l c w)
  else match drawn w with
       | [] => (raise Blocked, w)
       | n :: ns => (Ok n, Names (bucket_counter w) (scope_counter w) (collection_counter w) ns)
       end.

(** The three loops that add what the specification leaves out, [while index < required]: a new
    name, unless it is taken, with the value that [make] builds for it. *)
Fixpoint add_missing {A} (fuel : nat) (simple : bool) (l : level) (make : pystr → M names A)
    (required : pv) (index : Z) (d : odict A) : M names (odict A) :=
  if negb (below index required) then mret d else
  match fuel with
  | O => mraise Blocked
  | S fuel =>
      name ← new_name simple l;
      if od_in name d then add_missing fuel simple l make required index d
      else a ← make name; add_missing fuel simple l make required (index + 1) (od_set name a d)
  end.

(** *** [expand_collection_spec] *)

Definition fill_items (def_num_docs : pv) (c : params) : params :=
  match c !! NUM_ITEMS_PER_COLLECTION with
  | None => <[NUM_ITEMS_PER_COLLECTION := def_num_docs]> c
  | Some _ => c
  end.
Definition with_default_collection (scope_name : pystr) (s : scope_spec) : res (odict params) :=
  cols ← of_option KeyError (ss_collections s);
  Ok (if bool_decide (scope_name = CbServer.default_scope) &&
         negb (truthy (default (PBool false) (ss_params s !! REMOVE_DEFAULT_COLLECTION)))
      then od_set CbServer.default_collection ∅ cols else cols).
Definition expand_collection_spec (fuel : nat) (top bucket : params) (scope_name : pystr) (s : scope_spec) :
    M names scope_spec :=
  let def_num_docs := default (PInt 0) (bucket !! NUM_ITEMS_PER_COLLECTION) in
  let required := default (default (PInt 0) (bucket !! NUM_COLLECTIONS_PER_SCOPE)) (ss_params s !! NUM_COLLECTIONS_PER_SCOPE) in
  let def_num_docs := default def_num_docs (ss_params s !! NUM_ITEMS_PER_COLLECTION) in
  cols ← lift (with_default_collection scope_name s);
  simple ← lift (dict_get top USE_SIMPLE_NAMES);
  cols ← add_missing fuel (truthy simple) LCollection (λ _, mret ∅) required (len cols) cols;
  mret (ScopeSpec (ss_params s) (Some ((λ nc, (nc.1, fill_items def_num_docs nc.2)) <$> cols))).

(** *** [expand_scope_spec] *)

Definition fill_remove (def_remove : pv) (s : scope_spec) : scope_spec :=
  match ss_params s !! REMOVE_DEFAULT_COLLECTION with
  | None => ScopeSpec (<[REMOVE_DEFAULT_COLLECTION := def_remove]> (ss_params s)) (ss_collections s)
  | Some _ => s
  end.
Fixpoint expand_scopes (fuel : nat) (top bucket : params) (def_remove : pv) (d : odict scope_entry) :
    M names (odict scope_entry) :=
  match d with
  | [] => mret []
  | (n, NotDict) :: d => d ← expand_scopes fuel top bucket def_remove d; mret ((n, NotDict) :: d)
  | (n, Entry s) :: d =>
      s ← expand_collection_spec fuel top bucket n (fill_remove def_remove s);
      d ← expand_scopes fuel top bucket def_remove d;
      mret ((n, Entry s) :: d)
  end.
Definition with_default_scope (scopes : odict scope_entry) : odict scope_entry :=
  if od_in CbServer.default_scope scopes then scopes
  else od_set CbServer.default_scope (Entry (ScopeSpec ∅ (Some []))) scopes.
Definition new_scope (fuel : nat) (top bucket : params) (n : pystr) : M names scope_entry :=
  s ← expand_collection_spec fuel top bucket n (ScopeSpec ∅ (Some []));
  mret (Entry s).
Definition expand_scope_spec (fuel : nat) (top : params) (b : bucket_spec) : M names bucket_spec :=
  scopes ← lift (of_option KeyError (bs_scopes b));
  let scopes := with_default_scope scopes in
  def_remove ← lift (dict_get top REMOVE_DEFAULT_COLLECTION);
  def_scopes ← lift (dict_get top NUM_SCOPES_PER_BUCKET);
  let required := default def_scopes (bs_params b !! NUM_SCOPES_PER_BUCKET) in
  scopes ← expand_scopes fuel top (bs_params b) def_remove scopes;
  simple ← lift (dict_get top USE_SIMPLE_NAMES);
  scopes ← add_missing fuel (truthy simple) LScope (new_scope fuel top (bs_params b)) required (len scopes) scopes;
  mret (BucketSpec (bs_params b) (Some scopes)).

(** *** [expand_buckets_spec] *)

Fixpoint explicit_ram (d : odict bucket_spec) : res Z :=
  match d with
  | [] => Ok 0
  | (_, b) :: d =>
      here ← match bs_params b !! ramQuotaMB with None => Ok 0 | Some v => number v end;
      rest ← explicit_ram d;
      Ok (here + rest)
  end.
(** The quota for buckets that do not ask for one; [memory_quota] is that of [rest_conn.get_nodes_self()], [None] when
    there is no connection. *)
Definition ram_quota (top : params) (memory_quota : option Z) (requested : Z) (req_num_buckets : pv) : res params :=
  match top !! ramQuotaMB with
  | Some _ => Ok top
  | None =>
      quota ← of_option AttributeError memory_quota;
      if (0 <? quota)
      then n ← number req_num_buckets;
           if bool_decide (n = 0) then raise ZeroDivisionError
           else Ok (<[ramQuotaMB := PInt ((quota - requested) / n)]> top)
      else Ok top
  end.
Definition bucket_defaults (top : params) : params :=
  let meta := List.filter (λ p, negb (bool_decide (p = NUM_BUCKETS))) MetaConstants.get_params in
  let d := foldl (λ d p, <[p := default (PInt 0) (top !! p)]> d) ∅ meta in
  foldl (λ d p, match top !! p with Some v => <[p := v]> d | None => d end) d Bucket_get_params.

(** Parameters that are not given, and the key "scopes". *)
Definition fill_bucket (defaults : params) (b : bucket_spec) : bucket_spec :=
  BucketSpec (bs_params b ∪ defaults) (Some (default [] (bs_scopes b))).
Fixpoint expand_buckets (fuel : nat) (top defaults : params) (d : odict bucket_spec) : M names (odict bucket_spec) :=
  match d with
  | [] => mret []
  | (n, b) :: d =>
      b ← expand_scope_spec fuel top (fill_bucket defaults b);
      d ← expand_buckets fuel top defaults d;
      mret ((n, b) :: d)
  end.

(** The exponential distribution: one collection, the collections of a scope, the scopes of a bucket. *)
Definition halve (remaining : Z) : Z * Z :=
  let n_items := remaining / 2 in
  if bool_decide (n_items = 0) && negb (bool_decide (remaining = 0)) then (remaining, 0)
  else (n_items, remaining - n_items).
Fixpoint halve_collections (remaining : Z) (d : odict params) : odict params * Z :=
  match d with
  | [] => ([], remaining)
  | (n, c) :: d =>
      let '(items, remaining) := halve remaining in
      let '(d, remaining) := halve_collections remaining d in
      ((n, <[NUM_ITEMS_PER_COLLECTION := PInt items]> c) :: d, remaining)
  end.
(** [s_spec["collections"]] *)
Definition collections_of (e : scope_entry) : res (odict params) :=
  match e with NotDict => raise TypeError | Entry s => of_option KeyError (ss_collections s) end.
Definition set_collections (e : scope_entry) (cols : odict params) : scope_entry :=
  match e with NotDict => NotDict | Entry s => Entry (ScopeSpec (ss_params s) (Some cols)) end.
Fixpoint halve_scopes (remaining : Z) (d : odict scope_entry) : res (odict scope_entry * Z) :=
  match d with
  | [] => Ok ([], remaining)
  | (n, e) :: d =>
      cols ← collections_of e;
      let '(cols, remaining) := halve_collections remaining cols in
      rest ← halve_scopes remaining d;
      Ok ((n, set_collections e cols) :: rest.1, rest.2)
  end.
Fixpoint collection_items (d : odict params) : res Z :=
  match d with
  | [] => Ok 0
  | (_, c) :: d =>
      v ← dict_get c NUM_ITEMS_PER_COLLECTION;
      here ← number v;
      rest ← collection_items d;
      Ok (here + rest)
  end.
Fixpoint scope_items (d : odict scope_entry) : res Z :=
  match d with
  | [] => Ok 0
  | (_, e) :: d =>
      cols ← collections_of e;
      here ← collection_items cols;
      rest ← scope_items d;
      Ok (here + rest)
  end.
Definition exponential_load (b : bucket_spec) : res bucket_spec :=
  if truthy (default (PBool false) (bs_params b !! LOAD_COLLECTIONS_EXPONENTIALLY)) then
    scopes ← of_option KeyError (bs_scopes b);
    remaining ← scope_items scopes;
    r ← halve_scopes remaining scopes;
    Ok (BucketSpec (bs_params b) (Some r.1))
  else Ok b.
Fixpoint exponential_loads (d : odict bucket_spec) : res (odict bucket_spec) :=
  match d with
  | [] => Ok []
  | (n, b) :: d => b ← exponential_load b; d ← exponential_loads d; Ok ((n, b) :: d)
  end.

Definition new_bucket (fuel : nat) (top defaults : params) (_ : pystr) : M names bucket_spec :=
  expand_scope_spec fuel top (BucketSpec defaults (Some [])).
Definition expand_buckets_spec (fuel : nat) (memory_quota : option Z) (sp : buckets_spec) : M names (odict bucket_spec) :=
  let buckets := default [] (sp_buckets sp) in
  requested ← lift (explicit_ram buckets);
  let required := default (PInt (len buckets)) (sp_params sp !! NUM_BUCKETS) in
  top ← lift (ram_quota (sp_params sp) memory_quota requested required);
  let defaults := bucket_defaults top in
  buckets ← expand_buckets fuel top defaults buckets;
  simple ← lift (dict_get top USE_SIMPLE_NAMES);
  buckets ← add_missing fuel (truthy simple) LBucket (new_bucket fuel top defaults) required (len buckets) buckets;
  lift (exponential_loads buckets).

(** *** [balance_scopes_collections_items] *)

(** [i <= math.sqrt(n)] for integers is [i * i <= n]. *)
Definition factors (n : Z) : list Z :=
  List.filter (λ i, bool_decide (n mod i = 0)) (seqZ 1 (Z.sqrt n)).
Definition get_divisor (max_limits_variable : Z) : res Z :=
  let factor_list := factors max_limits_variable in
  list_get factor_list (length factor_list / 2).
(** The limit that is used: [max_limits] of the test input (80 when it is not given). *)
Definition effective_limit (max_limits : Z) : Z := if (100 <=? max_limits) || (max_limits <=? 0) then 80 else max_limits.
Definition spec_check (defaults : params) (name : pystr) (b : params) : res params :=
  match b !! name with
  | Some _ => Ok b
  | None => v ← dict_get defaults name; Ok (<[name := v]> b)
  end.
Definition get_number (b : params) (k : pystr) : res Z := v ← dict_get b k; number v.
Definition balance_scopes_collections_items (max_limits : Z) (b : params) (default_spec : option params) : res params :=
  b ← match default_spec with
      | None => Ok b
      | Some default_spec =>
            b ← spec_check default_spec NUM_SCOPES_PER_BUCKET b;
            b ← spec_check default_spec NUM_ITEMS_PER_COLLECTION b;
            spec_check default_spec NUM_COLLECTIONS_PER_SCOPE b
      end;
  let max_limits := effective_limit max_limits in
  scopes ← get_number b NUM_SCOPES_PER_BUCKET;
  cols ← get_number b NUM_COLLECTIONS_PER_SCOPE;
  if (max_limits <? scopes * cols) then
    new_cols ← get_divisor max_limits;
    let new_scopes := max_limits / new_cols in
    items ← get_number b NUM_ITEMS_PER_COLLECTION;
    (* [int(math.ceil(a / b))] of integers: the division has rounded down before *)
    Ok (<[NUM_SCOPES_PER_BUCKET := PInt new_scopes]>
          (<[NUM_COLLECTIONS_PER_SCOPE := PInt new_cols]>
             (<[NUM_ITEMS_PER_COLLECTION := PInt ((items * scopes * cols) / (new_cols * new_scopes))]> b)))
  else Ok b.
(** [specs_for_serverless]: the top level, then each bucket with the top level as default. *)
Fixpoint balance_buckets (max_limits : Z) (top : params) (d : odict bucket_spec) : res (odict bucket_spec) :=
  match d with
  | [] => Ok []
  | (n, b) :: d =>
      p ← balance_scopes_collections_items max_limits (bs_params b) (Some top);
      d ← balance_buckets max_limits top d;
      Ok ((n, BucketSpec p (bs_scopes b)) :: d)
  end.
Definition specs_for_serverless (max_limits : Z) (sp : buckets_spec) : res buckets_spec :=
  top ← balance_scopes_collections_items max_limits (sp_params sp) None;
  match sp_buckets sp with
  | None => Ok (BucketsSpec top None)
  | Some d => d ← balance_buckets max_limits top d; Ok (BucketsSpec top (Some d))
  end.

(** ** Proofs: dictionaries and names *)

Lemma od_set_new {A} k (a : A) d : k ∉ d.*1 → od_set k a d = d ++ [(k, a)].
Proof. induction d as [|[k' a'] d IH]; cbn; [done|]. intros H. rewrite bool_decide_eq_false_2 by set_solver. f_equal. apply IH. set_solver. Qed.
Lemma od_set_keys {A} k (a : A) d : (od_set k a d).*1 = if bool_decide (k ∈ d.*1) then d.*1 else d.*1 ++ [k].
Proof.
  induction d as [|[k' a'] d IH]; cbn; [done|]. destruct (bool_decide_reflect (k = k')) as [->|]; cbn.
  - by rewrite bool_decide_eq_true_2 by set_solver.
  - rewrite IH. repeat case_bool_decide; set_solver.
Qed.
Lemma od_set_length {A} k (a : A) d : len (od_set k a d) = len d + (if bool_decide (k ∈ d.*1) then 0 else 1).
Proof.
  unfold len. rewrite <- (length_fmap fst), od_set_keys. case_bool_decide; rewrite ?length_app, length_fmap; cbn; lia.
Qed.
Lemma od_set_NoDup {A} k (a : A) d : NoDup d.*1 → NoDup (od_set k a d).*1.
Proof. rewrite od_set_keys. case_bool_decide; [done|]. intros. apply NoDup_app. set_solver by (apply NoDup_singleton || idtac). Qed.

(** The names of a counter, from one number on. *)
Definition nth_name (l : level) (n : Z) : pystr := prefix_of l ++ py "-" ++ str_of_Z n.
Definition upcoming (l : level) (c : Counter) (k : nat) : list pystr := nth_name l <$> seqZ c (Z.of_nat k).
Lemma nth_name_inj l m n : nth_name l m = nth_name l n → m = n.
Proof. intros E. do 2 apply app_inv_head in E. by apply str_of_Z_inj. Qed.
Lemma upcoming_NoDup l c k : NoDup (upcoming l c k).
Proof. apply NoDup_fmap_2_strong; [intros m n _ _; apply nth_name_inj|apply NoDup_seqZ]. Qed.
Lemma upcoming_S l c k : upcoming l c (S k) = nth_name l c :: upcoming l (c + 1) k.
Proof. unfold upcoming. rewrite seqZ_cons by lia. cbn. repeat f_equal; lia. Qed.
Lemma new_name_simple l w : new_name true l w = (Ok (nth_name l (counter_of l w)), set_counter l (counter_of l w + 1) w).
Proof. done. Qed.
Lemma counter_of_set l c w : counter_of l (set_counter l c w) = c.
Proof. by destruct l. Qed.

(** Counters of other levels; adding at one level leaves those above alone. *)
Definition same_above (l : level) (w w' : names) : Prop :=
  match l with
  | LBucket => True
  | LScope => bucket_counter w' = bucket_counter w
  | LCollection => bucket_counter w' = bucket_counter w ∧ scope_counter w' = scope_counter w
  end.
Definition same_here (l : level) (w w' : names) : Prop := same_above l w w' ∧ counter_of l w' = counter_of l w.
Lemma same_above_set l c w w' : same_above l (set_counter l c w) w' ↔ same_above l w w'.
Proof. by destruct l. Qed.
Lemma same_above_refl l w : same_above l w w.
Proof. by destruct l. Qed.
Lemma same_above_trans l w1 w2 w3 : same_above l w1 w2 → same_above l w2 w3 → same_above l w1 w3.
Proof. destruct l; cbn; intuition congruence. Qed.

Definition fresh_count (ns : list pystr) (keys : list pystr) : nat := length (filter (.∉ keys) ns).

Lemma fresh_count_snoc ns keys n : n ∉ ns → fresh_count ns (keys ++ [n]) = fresh_count ns keys.
Proof.
  unfold fresh_count. induction ns as [|m ns IH]; [done|]. intros Hn. destruct (decide (m ∈ keys)).
  - rewrite !filter_cons_False by set_solver. apply IH. set_solver.
  - rewrite !filter_cons_True by set_solver. cbn. f_equal. apply IH. set_solver.
Qed.
(** At most as many names are taken as there are keys. *)
Lemma fresh_count_bound ns keys : NoDup ns → (length ns ≤ fresh_count ns keys + length keys)%nat.
Proof.
  intros Hnd. unfold fresh_count.
  assert (length (filter (.∈ keys) ns) ≤ length keys)%nat.
  { apply submseteq_length, NoDup_submseteq; [by apply NoDup_filter|]. intros x [? _]%list_elem_of_filter. done. }
  pose proof (filter_app_complement (.∈ keys) ns) as Hp%Permutation_length. rewrite length_app in Hp.
  unfold filter in *. lia.
Qed.

(** With enough unused names ahead the loop ends, and adds exactly what is missing. *)
Lemma add_missing_enough {A} (P : pystr → A → Prop) (l : level) (make : pystr → M names A) (required : Z) fuel index (d : odict A) w :
  (∀ n w, ∃ a w', make n w = (Ok a, w') ∧ same_here l w w' ∧ P n a) →
  NoDup d.*1 →
  required - index ≤ Z.of_nat (fresh_count (upcoming l (counter_of l w) fuel) d.*1) →
  ∃ added w', add_missing fuel true l make (PInt required) index d w = (Ok (d ++ added), w') ∧
    same_above l w w' ∧ NoDup (d ++ added).*1 ∧ len added = Z.max 0 (required - index) ∧
    Forall (λ na, P na.1 na.2) added.
Proof.
  intros Hmake. revert index d w. induction fuel as [|fuel IH]; intros index d w Hnd Hf.
  - change (fresh_count _ _) with 0%nat in Hf. cbn. destruct (index <? required) eqn:E; [lia|].
    exists [], w. rewrite !app_nil_r. split_and!; [done| |done|unfold len; cbn [length]; lia|done]. apply same_above_refl.
  - cbn [add_missing below]. destruct (index <? required) eqn:E; cbn [negb].
    2:{ exists [], w. rewrite !app_nil_r. split_and!; [done| |done|unfold len; cbn [length]; lia|done]. apply same_above_refl. }
    rewrite upcoming_S in Hf. unfold mbind, M_bind. rewrite new_name_simple.
    set (n := nth_name l (counter_of l w)) in *. set (w1 := set_counter l _ w).
    unfold od_in. case_bool_decide as Hin.
    + destruct (IH index d w1) as (added & w' & H1 & H2 & H3); [done| |].
      { unfold fresh_count in *. rewrite filter_cons_False in Hf by (intros Hn; by apply Hn).
        unfold w1. by rewrite counter_of_set. }
      exists added, w'. split_and!; [done|by apply same_above_set in H2|by apply H3..].
    + destruct (Hmake n w1) as (a & w2 & Hm & [Hs2 Hc2] & HP). rewrite Hm.
      rewrite od_set_new by done.
      destruct (IH (index + 1) (d ++ [(n, a)]) w2) as (added & w' & H1 & H2 & H3 & H4 & H5).
      * rewrite fmap_app. cbn. apply NoDup_app. split_and!; [done|set_solver|apply NoDup_singleton].
      * rewrite Hc2. unfold w1. rewrite counter_of_set. unfold fresh_count in *.
        rewrite filter_cons_True in Hf by done. cbn in Hf. fold (fresh_count (upcoming l (counter_of l w + 1) fuel) d.*1) in Hf.
        fold (fresh_count (upcoming l (counter_of l w + 1) fuel) (d ++ [(n, a)]).*1).
        rewrite fmap_app. cbn [fmap list_fmap fst]. rewrite fresh_count_snoc; [lia|].
        pose proof (upcoming_NoDup l (counter_of l w) (S fuel)) as Hu. rewrite upcoming_S in Hu. by apply NoDup_cons in Hu as [? _].
      * exists ((n, a) :: added), w'. rewrite <- app_assoc in H1, H3. cbn in H1, H3.
        split_and!; [done| |done| |by constructor].
        -- eapply same_above_trans; [|exact H2]. by apply same_above_set in Hs2.
        -- unfold len in *. cbn [length]. lia.
Qed.
Lemma add_missing_ok {A} (P : pystr → A → Prop) (l : level) (make : pystr → M names A) (required : Z) fuel (d : odict A) w :
  (∀ n w, ∃ a w', make n w = (Ok a, w') ∧ same_here l w w' ∧ P n a) →
  NoDup d.*1 → required ≤ Z.of_nat fuel →
  ∃ added w', add_missing fuel true l make (PInt required) (len d) d w = (Ok (d ++ added), w') ∧
    same_above l w w' ∧ NoDup (d ++ added).*1 ∧ len (d ++ added) = Z.max (len d) required ∧
    Forall (λ na, P na.1 na.2) added.
Proof.
  intros Hmake Hnd Hf.
  destruct (add_missing_enough P l make required fuel (len d) d w Hmake Hnd) as (added & w' & H1 & H2 & H3 & H4 & H5).
  { pose proof (fresh_count_bound (upcoming l (counter_of l w) fuel) d.*1 (upcoming_NoDup _ _ _)) as H.
    unfold upcoming in H at 1. rewrite !length_fmap, length_seqZ in H. unfold len. lia. }
  exists added, w'. split_and!; [done..| |done]. unfold len in *. rewrite length_app. lia.
Qed.

(** ** Proofs: what an expanded specification is *)

Definition required_collections (bucket : params) (s : scope_spec) : pv :=
  default (default (PInt 0) (bucket !! NUM_COLLECTIONS_PER_SCOPE)) (ss_params s !! NUM_COLLECTIONS_PER_SCOPE).
Definition default_items (bucket : params) (s : scope_spec) : pv :=
  default (default (PInt 0) (bucket !! NUM_ITEMS_PER_COLLECTION)) (ss_params s !! NUM_ITEMS_PER_COLLECTION).
(** [s'] is [s] with the collections that it asks for and no others; all have a number of items. *)
Definition scope_complete (bucket : params) (n : pystr) (s s' : scope_spec) : Prop :=
  ∃ base req cols', with_default_collection n s = Ok base ∧ required_collections bucket s = PInt req ∧
    s' = ScopeSpec (ss_params s) (Some cols') ∧ NoDup cols'.*1 ∧ len cols' = Z.max (len base) req ∧
    (∀ k c, (k, c) ∈ base → (k, fill_items (default_items bucket s) c) ∈ cols') ∧
    (∀ k c, (k, c) ∈ cols' → k ∉ base.*1 → c = {[NUM_ITEMS_PER_COLLECTION := default_items bucket s]}) ∧
    Forall (λ kc, is_Some (kc.2 !! NUM_ITEMS_PER_COLLECTION)) cols'.
(** A scope that can be expanded with [fuel]. *)
Definition scope_ok (fuel : nat) (bucket : params) (s : scope_spec) : Prop :=
  (∃ cols, ss_collections s = Some cols ∧ NoDup cols.*1) ∧
  (∃ req, required_collections bucket s = PInt req ∧ req ≤ Z.of_nat fuel).

Lemma fill_items_some v c : is_Some (fill_items v c !! NUM_ITEMS_PER_COLLECTION).
Proof. unfold fill_items. destruct (c !! NUM_ITEMS_PER_COLLECTION) eqn:E; [rewrite E; eauto|rewrite lookup_insert_eq; eauto]. Qed.
Lemma with_default_collection_ok n s cols :
  ss_collections s = Some cols → NoDup cols.*1 → ∃ base, with_default_collection n s = Ok base ∧ NoDup base.*1.
Proof.
  intros Hc Hnd. unfold with_default_collection. rewrite Hc. cbn. eexists. split; [done|].
  destruct (bool_decide _ && _); [by apply od_set_NoDup|done].
Qed.

Lemma same_keys {A} (Q : pystr * A → pystr * A → Prop) d d' :
  Forall2 (λ e e', e.1 = e'.1 ∧ Q e e') d d' → d'.*1 = d.*1.
Proof. induction 1 as [|[] [] ? ? [E _] _ IH]; cbn in *; [done|]. by rewrite E, IH. Qed.

Definition no_scope : scope_spec := ScopeSpec ∅ (Some []).
(** An entry of the dictionary of scopes and what becomes of it. *)
Definition entry_complete (bucket : params) (def_remove : pv) (e e' : pystr * scope_entry) : Prop :=
  e.1 = e'.1 ∧
  match e.2, e'.2 with
  | NotDict, NotDict => True
  | Entry s, Entry s' => scope_complete bucket e.1 (fill_remove def_remove s) s'
  | _, _ => False
  end.
Definition required_scopes (top : params) (b : bucket_spec) : option pv :=
  d ← top !! NUM_SCOPES_PER_BUCKET; Some (default d (bs_params b !! NUM_SCOPES_PER_BUCKET)).
(** [b'] is [b] with the scopes that it asks for, the default scope and no others, all of them complete. *)
Definition bucket_complete (top : params) (b b' : bucket_spec) : Prop :=
  ∃ given def_remove req kept added, bs_scopes b = Some given ∧ top !! REMOVE_DEFAULT_COLLECTION = Some def_remove ∧
    required_scopes top b = Some (PInt req) ∧ b' = BucketSpec (bs_params b) (Some (kept ++ added)) ∧
    Forall2 (entry_complete (bs_params b) def_remove) (with_default_scope given) kept ∧
    Forall (λ e, ∃ s', e.2 = Entry s' ∧ scope_complete (bs_params b) e.1 no_scope s') added ∧
    NoDup (kept ++ added).*1 ∧ len (kept ++ added) = Z.max (len (with_default_scope given)) req.
Definition bucket_ok (fuel : nat) (top : params) (b : bucket_spec) : Prop :=
  (∃ given, bs_scopes b = Some given ∧ NoDup given.*1 ∧
     Forall (λ e, match e.2 with NotDict => True | Entry s => scope_ok fuel (bs_params b) s end) given) ∧
  scope_ok fuel (bs_params b) no_scope ∧ is_Some (top !! REMOVE_DEFAULT_COLLECTION) ∧
  (∃ req, required_scopes top b = Some (PInt req) ∧ req ≤ Z.of_nat fuel).

Lemma scope_ok_fill fuel bucket def_remove s : scope_ok fuel bucket s → scope_ok fuel bucket (fill_remove def_remove s).
Proof.
  unfold fill_remove. destruct (ss_params s !! REMOVE_DEFAULT_COLLECTION); [done|]. intros [H1 H2]. split; [done|].
  unfold required_collections in *. cbn. by rewrite lookup_insert_ne by done.
Qed.
Lemma with_default_scope_ok fuel bucket given :
  NoDup given.*1 → scope_ok fuel bucket no_scope →
  Forall (λ e, match e.2 with NotDict => True | Entry s => scope_ok fuel bucket s end) given →
  NoDup (with_default_scope given).*1 ∧
  Forall (λ e, match e.2 with NotDict => True | Entry s => scope_ok fuel bucket s end) (with_default_scope given) ∧
  CbServer.default_scope ∈ (with_default_scope given).*1.
Proof.
  intros Hnd Hno Hall. unfold with_default_scope, od_in. case_bool_decide as H; [done|]. split_and!.
  - by apply od_set_NoDup.
  - rewrite od_set_new by done. apply Forall_app. split; [done|]. by constructor.
  - rewrite od_set_keys. case_bool_decide; set_solver.
Qed.

Section Expand.
Variables (fuel : nat) (top : params) (use_simple : pv).
Hypothesis Hsimple : top !! USE_SIMPLE_NAMES = Some use_simple.
Hypothesis Htrue : truthy use_simple = true.

Lemma expand_collection_spec_ok bucket n s w :
  scope_ok fuel bucket s →
  ∃ s' w', expand_collection_spec fuel top bucket n s w = (Ok s', w') ∧ same_above LCollection w w' ∧
    scope_complete bucket n s s'.
Proof.
  intros [(cols & Hc & Hnd) (req & Hreq & Hf)].
  destruct (with_default_collection_ok n s cols Hc Hnd) as (base & Hb & Hndb).
  destruct (add_missing_ok (λ _ c, c = ∅) LCollection (λ _, mret ∅) req fuel base w) as (added & w' & Ha & Hs & Hndc & Hlen & Hp);
    [|done|done|].
  { intros. eexists _, _. split; [done|]. split; [|done]. split; [apply same_above_refl|done]. }
  set (cols' := (λ nc, (nc.1, fill_items (default_items bucket s) nc.2)) <$> (base ++ added)).
  exists (ScopeSpec (ss_params s) (Some cols')), w'. split_and!; [|done|].
  - unfold expand_collection_spec. fold (default_items bucket s) (required_collections bucket s).
    rewrite Hb. unfold mbind, M_bind, lift at 1. rewrite Hreq. unfold dict_get. rewrite Hsimple. cbn [of_option]. unfold lift.
    rewrite Htrue, Ha. done.
  - assert (cols'.*1 = (base ++ added).*1) as Hkeys.
    { unfold cols'. rewrite <- list_fmap_compose. by apply list_fmap_ext. }
    exists base, req, cols'. split_and!; [done|done|done|by rewrite Hkeys| | | |].
    + unfold cols', len in *. by rewrite length_fmap.
    + intros k c Hin. apply list_elem_of_fmap. exists (k, c). split; [done|]. set_solver.
    + intros k c Hin Hk. apply list_elem_of_fmap in Hin as ([k' c'] & [= -> ->] & Hin).
      apply elem_of_app in Hin as [Hin|Hin]; [destruct Hk; apply list_elem_of_fmap; by exists (k', c')|].
      rewrite Forall_forall in Hp. apply Hp in Hin. cbn in *. by subst c'.
    + apply Forall_fmap, Forall_forall. intros. apply fill_items_some.
Qed.

Lemma expand_scopes_ok bucket def_remove d w :
  Forall (λ e, match e.2 with NotDict => True | Entry s => scope_ok fuel bucket s end) d →
  ∃ d' w', expand_scopes fuel top bucket def_remove d w = (Ok d', w') ∧ same_above LCollection w w' ∧
    Forall2 (entry_complete bucket def_remove) d d'.
Proof.
  intros Hd. revert w. induction Hd as [|[n [s|]] d He Hd IH]; intros w; cbn [fst snd] in *.
  - exists [], w. split_and!; [done|apply same_above_refl|done].
  - destruct (expand_collection_spec_ok bucket n _ w (scope_ok_fill _ _ def_remove s He)) as (s' & w1 & H1 & H2 & H3).
    destruct (IH w1) as (d' & w' & H4 & H5 & H6). exists ((n, Entry s') :: d'), w'. split_and!.
    + cbn. unfold mbind, M_bind. by rewrite H1, H4.
    + by eapply same_above_trans.
    + by constructor.
  - destruct (IH w) as (d' & w' & H4 & H5 & H6). exists ((n, NotDict) :: d'), w'. split_and!; [|done|by constructor].
    cbn. unfold mbind, M_bind. by rewrite H4.
Qed.

Lemma expand_scope_spec_ok b w :
  bucket_ok fuel top b →
  ∃ b' w', expand_scope_spec fuel top b w = (Ok b', w') ∧ same_above LScope w w' ∧ bucket_complete top b b'.
Proof.
  intros ((given & Hg & Hnd & Hall) & Hno & [def_remove Hrm] & (req & Hreq & Hf)).
  destruct (with_default_scope_ok fuel (bs_params b) given Hnd Hno Hall) as (Hnd' & Hall' & _).
  destruct (expand_scopes_ok (bs_params b) def_remove (with_default_scope given) w Hall') as (kept & w1 & He & Hs1 & Hk).
  assert (kept.*1 = (with_default_scope given).*1) as Hkeys.
  { by eapply same_keys, Hk. }
  destruct (add_missing_ok (λ n e, ∃ s', e = Entry s' ∧ scope_complete (bs_params b) n no_scope s') LScope
    (new_scope fuel top (bs_params b)) req fuel kept w1) as (added & w2 & Ha & Hs2 & Hnd2 & Hlen & Hp).
  { intros n w0. destruct (expand_collection_spec_ok (bs_params b) n no_scope w0 Hno) as (s' & w' & H1 & [H2 H3] & H4).
    exists (Entry s'), w'. split_and!; [|by split|by exists s']. unfold new_scope, mbind, M_bind. fold no_scope. by rewrite H1. }
  { by rewrite Hkeys. }
  { done. }
  assert (len kept = len (with_default_scope given)) as Hl by (unfold len; by rewrite <- (length_fmap fst), Hkeys, length_fmap).
  unfold required_scopes in Hreq. destruct (top !! NUM_SCOPES_PER_BUCKET) as [ds|] eqn:Hds; [|done].
  injection Hreq as Hreq.
  exists (BucketSpec (bs_params b) (Some (kept ++ added))), w2. split_and!.
  - unfold expand_scope_spec, mbind, M_bind, lift. rewrite Hg. cbn [of_option]. unfold dict_get.
    rewrite Hrm, Hds. cbn [of_option]. rewrite He, Hsimple. cbn [of_option]. rewrite Htrue, Hreq.
    rewrite Ha. done.
  - destruct Hs1 as [Hs1 _]. cbn in *. congruence.
  - exists given, def_remove, req, kept, added. split_and!; try done.
    + unfold required_scopes. rewrite Hds. cbn. by rewrite Hreq.
    + by rewrite <- Hl.
Qed.

Lemma expand_buckets_ok defaults d w :
  Forall (λ e, bucket_ok fuel top (fill_bucket defaults e.2)) d →
  ∃ d' w', expand_buckets fuel top defaults d w = (Ok d', w') ∧ bucket_counter w' = bucket_counter w ∧
    Forall2 (λ e e', e.1 = e'.1 ∧ bucket_complete top (fill_bucket defaults e.2) e'.2) d d'.
Proof.
  intros Hd. revert w. induction Hd as [|[n b] d He Hd IH]; intros w; cbn [fst snd] in *.
  - by exists [], w.
  - destruct (expand_scope_spec_ok _ w He) as (b' & w1 & H1 & H2 & H3).
    destruct (IH w1) as (d' & w' & H4 & H5 & H6). exists ((n, b') :: d'), w'. split_and!.
    + cbn. unfold mbind, M_bind. by rewrite H1, H4.
    + cbn in H2. congruence.
    + by constructor.
Qed.
End Expand.

Lemma expand_buckets_spec_ok fuel quota sp requested nb top use_simple w :
  let given := default [] (sp_buckets sp) in
  explicit_ram given = Ok requested →
  default (PInt (len given)) (sp_params sp !! NUM_BUCKETS) = PInt nb → nb ≤ Z.of_nat fuel →
  ram_quota (sp_params sp) quota requested (PInt nb) = Ok top →
  top !! USE_SIMPLE_NAMES = Some use_simple → truthy use_simple = true → NoDup given.*1 →
  Forall (λ e, bucket_ok fuel top (fill_bucket (bucket_defaults top) e.2)) given →
  bucket_ok fuel top (BucketSpec (bucket_defaults top) (Some [])) →
  ∃ kept added w', expand_buckets_spec fuel quota sp w = (exponential_loads (kept ++ added), w') ∧
    Forall2 (λ e e', e.1 = e'.1 ∧ bucket_complete top (fill_bucket (bucket_defaults top) e.2) e'.2) given kept ∧
    Forall (λ e, bucket_complete top (BucketSpec (bucket_defaults top) (Some [])) e.2) added ∧
    NoDup (kept ++ added).*1 ∧ len (kept ++ added) = Z.max (len given) nb.
Proof.
  intros given Hram Hnb Hf Htop Hs Ht Hnd Hall Hnew.
  destruct (expand_buckets_ok fuel top use_simple Hs Ht (bucket_defaults top) given w Hall) as (kept & w1 & He & _ & Hk).
  assert (kept.*1 = given.*1) as Hkeys by by eapply same_keys, Hk.
  destruct (add_missing_ok (λ _ b, bucket_complete top (BucketSpec (bucket_defaults top) (Some [])) b) LBucket
    (new_bucket fuel top (bucket_defaults top)) nb fuel kept w1) as (added & w2 & Ha & _ & Hnd2 & Hlen & Hp).
  { intros n w0. destruct (expand_scope_spec_ok fuel top use_simple Hs Ht _ w0 Hnew) as (b' & w' & H1 & H2 & H3).
    exists b', w'. split; [exact H1|]. split; [split; [exact I|exact H2]|exact H3]. }
  { by rewrite Hkeys. }
  { done. }
  exists kept, added, w2. split_and!; [|done|done|done|].
  - unfold expand_buckets_spec. fold given. unfold mbind, M_bind, lift. rewrite Hram, Hnb, Htop, He.
    unfold dict_get. rewrite Hs. cbn [of_option]. rewrite Ht, Ha. done.
  - rewrite Hlen. unfold len. by rewrite <- (length_fmap fst kept), Hkeys, length_fmap.
Qed.

(** ** Proofs: the exponential distribution *)

(** What is left undistributed of [t] items after [n] collections. *)
Definition undistributed (n : nat) (t : Z) : Z :=
  match n with
  | O => t
  | S m => if t <=? 2 ^ Z.of_nat m then 0 else - (- t / 2 ^ Z.of_nat n)
  end.
Lemma halve_spec r i r' : 0 ≤ r → halve r = (i, r') → i + r' = r ∧ 0 ≤ r' ∧ 0 ≤ i ∧ r' = (if bool_decide (r = 1) then 0 else r - r / 2).
Proof.
  intros Hr. unfold halve. pose proof (Z.div_mod r 2). pose proof (Z.mod_pos_bound r 2).
  repeat case_bool_decide; cbn; intros [= <- <-]; split_and!; lia.
Qed.
Lemma undistributed_S n r i r' : 0 ≤ r → halve r = (i, r') → undistributed n r' = undistributed (S n) r.
Proof.
  intros Hr Hh. destruct (halve_spec _ _ _ Hr Hh) as (_ & Hr' & _ & E). clear Hh. destruct n as [|n].
  - unfold undistributed. change (2 ^ Z.of_nat 0) with 1. change (2 ^ Z.of_nat 1) with 2.
    rewrite E. case_bool_decide; [by subst|].
    destruct (r <=? 1) eqn:E1; [assert (r = 0) as -> by lia; done|].
    pose proof (Z.div_mod r 2). pose proof (Z.mod_pos_bound r 2). pose proof (Z.div_mod (-r) 2). pose proof (Z.mod_pos_bound (-r) 2). lia.
  - unfold undistributed. rewrite !Nat2Z.inj_succ, !Z.pow_succ_r by lia. set (p := 2 ^ Z.of_nat n). assert (0 < p) by (apply Z.pow_pos_nonneg; lia).
    pose proof (Z.div_mod r 2). pose proof (Z.mod_pos_bound r 2).
    case_bool_decide.
    + subst r. rewrite E. replace (0 <=? p) with true by lia. replace (1 <=? 2 * p) with true by lia. done.
    + destruct (r' <=? p) eqn:E1, (r <=? 2 * p) eqn:E2; try lia.
      f_equal. rewrite <- (Z.div_div (- r) 2 (2 * p)) by lia. f_equal. 
      pose proof (Z.div_mod (-r) 2). pose proof (Z.mod_pos_bound (-r) 2). lia.
Qed.

Lemma halve_collections_spec d r d' r' :
  0 ≤ r → halve_collections r d = (d', r') →
  r' = undistributed (length d) r ∧ 0 ≤ r' ∧ collection_items d' = Ok (r - r') ∧ d'.*1 = d.*1 ∧
  ∀ n, undistributed n r' = undistributed (length d + n) r.
Proof.
  revert r d' r'. induction d as [|[n c] d IH]; intros r d' r' Hr; cbn [halve_collections].
  - intros [= <- <-]. split_and!; [done|done| |done|done]. cbn. f_equal. lia.
  - destruct (halve r) as [i r1] eqn:Hh. destruct (halve_collections r1 d) as [d1 r2] eqn:Hd.
    intros [= <- <-]. destruct (halve_spec _ _ _ Hr Hh) as (Hsum & Hr1 & Hi & _).
    destruct (IH _ _ _ Hr1 Hd) as (-> & Hr2 & Hc & Hk & Hn). cbn [length Nat.add]. split_and!.
    + by apply (undistributed_S _ _ i).
    + done.
    + cbn. unfold dict_get. rewrite lookup_insert_eq. cbn. rewrite Hc. cbn. f_equal. lia.
    + cbn. by rewrite Hk.
    + intros m. rewrite Hn. by apply (undistributed_S _ _ i).
Qed.
(** The collections of all the scopes. *)
Fixpoint count_collections (d : odict scope_entry) : nat :=
  match d with
  | [] => 0
  | (_, e) :: d => match collections_of e with Ok cols => length cols | Err _ => 0 end + count_collections d
  end.
Lemma halve_scopes_spec d r t :
  0 ≤ r → scope_items d = Ok t →
  ∃ d', halve_scopes r d = Ok (d', undistributed (count_collections d) r) ∧ d'.*1 = d.*1 ∧
    scope_items d' = Ok (r - undistributed (count_collections d) r).
Proof.
  revert r t. induction d as [|[n e] d IH]; intros r t Hr; cbn [scope_items halve_scopes count_collections].
  - intros _. exists []. split_and!; [done|done|]. cbn. f_equal. lia.
  - intros H. apply res_bind_inv in H as (cols & Hcols & H). apply res_bind_inv in H as (here & _ & H).
    apply res_bind_inv in H as (rest & Hrest & _). rewrite Hcols. cbn [mbind res_bind].
    destruct (halve_collections r cols) as [cols' r1] eqn:Hh.
    destruct (halve_collections_spec _ _ _ _ Hr Hh) as (_ & Hr1 & Hc & _ & Hn).
    destruct (IH r1 rest Hr1 Hrest) as (d' & -> & Hk & Hs). rewrite Hn in *. cbn. eexists. split; [done|].
    split; [cbn; by rewrite Hk|]. cbn. destruct e as [s|]; [|discriminate Hcols]. cbn. rewrite Hc. cbn. rewrite Hs. cbn. f_equal. lia.
Qed.

(** ** Proofs: the limits of serverless clusters *)

Lemma effective_limit_bounds m : 0 < effective_limit m < 100.
Proof. unfold effective_limit. destruct (100 <=? m) eqn:E1, (m <=? 0) eqn:E2; cbn; lia. Qed.
Lemma get_divisor_checked : forallb (λ m, match get_divisor m with Ok d => (0 <? d) && (m mod d =? 0) | Err _ => false end) (seqZ 1 99) = true.
Proof. vm_compute. reflexivity. Qed.
Lemma get_divisor_ok m : 0 < m < 100 → ∃ d, get_divisor m = Ok d ∧ 0 < d ∧ d * (m / d) = m.
Proof.
  intros Hm. pose proof get_divisor_checked as H. rewrite forallb_forall in H.
  specialize (H m). rewrite <- list_elem_of_In, elem_of_seqZ in H. specialize (H ltac:(lia)).
  destruct (get_divisor m) as [d|]; [|done]. apply andb_true_iff in H as [H1 H2]. exists d. split; [done|].
  split; [lia|]. pose proof (Z.div_mod m d). lia.
Qed.

(** ** Theorems *)


(** The exponential distribution keeps the scopes and gives each collection in turn half of the items that are
    left; of [t] items over [n] collections all are given away when t is at most 2^(n-1), otherwise
    t / 2^n of them, rounded up, are given to no collection. *)
Theorem exponential_total b scopes t :
  bs_scopes b = Some scopes → scope_items scopes = Ok t → 0 ≤ t →
  truthy (default (PBool false) (bs_params b !! LOAD_COLLECTIONS_EXPONENTIALLY)) = true →
  ∃ scopes', exponential_load b = Ok (BucketSpec (bs_params b) (Some scopes')) ∧ scopes'.*1 = scopes.*1 ∧
    scope_items scopes' = Ok (t - undistributed (count_collections scopes) t).
Proof.
  intros Hs Ht Hpos Hexp. unfold exponential_load. rewrite Hexp, Hs. cbn. rewrite Ht. cbn.
  destruct (halve_scopes_spec scopes t t Hpos Ht) as (d' & Hh & Hk & Hi). rewrite Hh. cbn. eauto.
Qed.

(** [balance_scopes_collections_items] leaves a specification within the limit alone; of
    one above it, it makes exactly as many collections as the limit allows, with the same number
    of items in each, and loses fewer items than the limit (the division has rounded down before
    [math.ceil] rounds up). *)
Theorem balanced_within_limit max_limits b scopes cols items :
  get_number b NUM_SCOPES_PER_BUCKET = Ok scopes → get_number b NUM_COLLECTIONS_PER_SCOPE = Ok cols →
  get_number b NUM_ITEMS_PER_COLLECTION = Ok items →
  let limit := effective_limit max_limits in
  ∃ b' scopes' cols' items', balance_scopes_collections_items max_limits b None = Ok b' ∧
    get_number b' NUM_SCOPES_PER_BUCKET = Ok scopes' ∧ get_number b' NUM_COLLECTIONS_PER_SCOPE = Ok cols' ∧
    get_number b' NUM_ITEMS_PER_COLLECTION = Ok items' ∧ 0 < limit < 100 ∧
    if limit <? scopes * cols
    then scopes' * cols' = limit ∧ 0 < cols' ∧
         items' * limit ≤ items * scopes * cols < items' * limit + limit
    else b' = b.
Proof.
  intros Hs Hc Hi limit. unfold balance_scopes_collections_items. cbn [mbind res_bind]. fold limit.
  rewrite Hs, Hc. cbn [mbind res_bind]. pose proof (effective_limit_bounds max_limits) as Hl. fold limit in Hl.
  destruct (limit <? scopes * cols) eqn:E; [|by eexists b, _, _, _].
  destruct (get_divisor_ok limit Hl) as (d & -> & Hd & Hm). cbn [mbind res_bind]. rewrite Hi. cbn [mbind res_bind].
  eexists _, (limit / d), d, _. split; [reflexivity|]. unfold get_number, dict_get.
  split; [by rewrite lookup_insert_eq|].
  split; [by rewrite lookup_insert_ne, lookup_insert_eq|].
  split; [by rewrite lookup_insert_ne, lookup_insert_ne, lookup_insert_eq|].
  split; [done|]. split; [lia|]. split; [done|]. rewrite Hm.
  pose proof (Z.div_mod (items * scopes * cols) limit). pose proof (Z.mod_pos_bound (items * scopes * cols) limit). lia.
Qed.

(** ** Witnesses *)

Definition demo_top : params :=
  list_to_map [(USE_SIMPLE_NAMES, PBool true); (NUM_BUCKETS, PInt 2); (NUM_SCOPES_PER_BUCKET, PInt 2);
    (NUM_COLLECTIONS_PER_SCOPE, PInt 3); (NUM_ITEMS_PER_COLLECTION, PInt 10); (REMOVE_DEFAULT_COLLECTION, PBool false);
    (ramQuotaMB, PInt 256)].
(** One bucket is given, with a scope of one collection. *)
Definition demo_scopes : odict scope_entry := [(py "s", Entry (ScopeSpec ∅ (Some [(py "c", ∅)])))].
Definition demo_given : odict bucket_spec := [(py "b", BucketSpec ∅ (Some demo_scopes))].
Lemma demo_ok scopes :
  scopes = [] ∨ scopes = demo_scopes → bucket_ok 3 demo_top (BucketSpec (bucket_defaults demo_top) (Some scopes)).
Proof.
  intros Hs.
  assert (∀ cols, NoDup cols.*1 → scope_ok 3 (bucket_defaults demo_top) (ScopeSpec ∅ (Some cols))) as Hok.
  { intros cols Hnd. split; [by exists cols|]. exists 3. split; [vm_compute; reflexivity|lia]. }
  split; [|split; [|split]].
  - exists scopes. split; [done|]. destruct Hs as [-> | ->]; split.
    + apply NoDup_nil_2.
    + constructor.
    + apply NoDup_singleton.
    + constructor; [|constructor]. apply Hok, NoDup_singleton.
  - apply Hok, NoDup_nil_2.
  - by eexists.
  - exists 2. split; [vm_compute; reflexivity|lia].
Qed.
Lemma ram_quota_given top quota requested n : is_Some (top !! ramQuotaMB) → ram_quota top quota requested n = Ok top.
Proof. intros [v Hv]. unfold ram_quota. by rewrite Hv. Qed.

(** Thirty items over three collections: 15, 7 and 4; four go nowhere. *)
Lemma exponential_total_witness :
  let items n := {[NUM_ITEMS_PER_COLLECTION := PInt n]} in
  let scopes := [(py "s", Entry (ScopeSpec ∅ (Some [(py "a", items 10); (py "b", items 10); (py "c", items 10)])))] in
  let b := BucketSpec {[LOAD_COLLECTIONS_EXPONENTIALLY := PBool true]} (Some scopes) in
  ∃ scopes', exponential_load b = Ok (BucketSpec (bs_params b) (Some scopes')) ∧ scope_items scopes' = Ok 26.
Proof.
  intros items scopes b.
  destruct (exponential_total b scopes 30) as (scopes' & H1 & _ & H2); [done|vm_compute; reflexivity|lia|vm_compute; reflexivity|].
  exists scopes'. split; [exact H1|]. rewrite H2. vm_compute. reflexivity.
Defined.

(** Ten scopes of twenty collections of seven items: 1400 items become 1360. *)
Lemma balanced_within_limit_witness :
  let b := list_to_map [(NUM_SCOPES_PER_BUCKET, PInt 10); (NUM_COLLECTIONS_PER_SCOPE, PInt 20); (NUM_ITEMS_PER_COLLECTION, PInt 7)] in
  ∃ b' scopes' cols' items', balance_scopes_collections_items 80 b None = Ok b' ∧
    get_number b' NUM_ITEMS_PER_COLLECTION = Ok items' ∧ scopes' * cols' = 80 ∧ items' = 17.
Proof.
  intros b. destruct (balanced_within_limit 80 b 10 20 7) as (b' & s' & c' & i' & H1 & _ & _ & H2 & _ & H3);
    [vm_compute; reflexivity..|].
  exists b', s', c', i'. split; [exact H1|]. split; [exact H2|].
  change (effective_limit 80) with 80 in H3. change (80 <? 10 * 20) with true in H3. cbv beta iota in H3. lia.
Defined.
