(* ===== verification/Cbstats.v ===== *)
(** * couchbase_utils/cb_tools/cbstats.py: reading the statistics of a node

    The methods of [Cbstats] that turn the flat dictionary of a STAT command into dictionaries per
    vbucket, scope or collection.  The dictionary of a STAT command is a list of pairs in the order of
    iteration (Python does not specify it); what the node answers is a parameter.  The methods that run the command
    line tool use attributes that the class does not have: they raise. *)

From S2P Require Import Prelude Py Crc32.
Local Open Scope Z_scope.
#[local] Arguments py : simpl never.

(** ** Regular expressions of the form [ws*vb_([0-9]+):(class+)] *)

(** The longest prefix in a class of characters, and the rest. *)
Fixpoint span (p : ascii → bool) (s : pystr) : pystr * pystr :=
  match s with
  | [] => ([], [])
  | c :: s' => if p c then let '(a, b) := span p s' in (c :: a, b) else ([], s)
  end.
Definition in_range (a b : ascii) (c : ascii) : bool := (ord a <=? ord c) && (ord c <=? ord b).
Definition is_digit : ascii → bool := in_range "0" "9".
Definition is_alnum (c : ascii) : bool := is_digit c || in_range "a" "z" c || in_range "A" "Z" c.
Definition is_word (c : ascii) : bool := is_alnum c || bool_decide (c = "_"%char).
Definition is_blank (c : ascii) : bool := bool_decide (c = " "%char) || bool_decide (c = "009"%char).
Fixpoint strip_prefix (p s : pystr) : option pystr :=
  match p, s with
  | [], _ => Some s
  | _, [] => None
  | a :: p, b :: s => if bool_decide (a = b) then strip_prefix p s else None
  end.
(** The two groups: the vbucket and the name ([least]: 1 for [+], 0 for [*]).  What follows the match is ignored. *)
Definition vb_match (blanks : bool) (cls : ascii → bool) (least : nat) (key : pystr) : option (pystr * pystr) :=
  let s := if blanks then (span is_blank key).2 else key in
  s ← strip_prefix (py "vb_") s;
  let '(num, s) := span is_digit s in
  if bool_decide (num = []) then None else
  match s with
  | c :: s => if bool_decide (c = ":"%char)
              then let '(name, _) := span cls s in
                   if (length name <? least)%nat then None else Some (num, name)
              else None
  | [] => None
  end.
(** [[a-zA-Z0-9@.->:_]]: the range from the full stop to the greater-than sign has the digits, the colon and more, but not the hyphen. *)
Definition checkpoint_class (c : ascii) : bool :=
  is_alnum c || bool_decide (c = "@"%char) || in_range "." ">" c || bool_decide (c = ":"%char) || bool_decide (c = "_"%char).
Definition details_class : ascii → bool := is_word.
Definition failover_class (c : ascii) : bool := is_word c || bool_decide (c = ":"%char).

(** ** Values: [int(value)] when that is possible *)

Inductive sval := SInt (n : Z) | SStr (s : pystr).
#[global] Instance sval_eq_dec : EqDecision sval.
Proof. solve_decision. Defined.
Definition to_number (v : pystr) : sval :=
  match int_of_str v with Ok n => SInt n | Err _ => SStr v end.

(** [d.setdefault(k1, {})[k2] = v], as the methods write it out. *)
Definition set2 `{Countable K} {V} (k1 : K) (k2 : pystr) (v : V) (d : gmap K (gmap pystr V)) : gmap K (gmap pystr V) :=
  <[k1 := <[k2 := v]> (default ∅ (d !! k1))]> d.

(** [__calculate_vbucket_num] *)
Definition calculate_vbucket_num (doc_key : pystr) (total_vbuckets : Z) : Z :=
  Z.land (Z.land (Z.shiftr (zlib_crc32 doc_key) 16) 0x7fff) (total_vbuckets - 1).

Section Cbstats.
(** [get_stats_memc] of the node: the client's [stats] of a bucket for a name. *)
Variable fetch : pystr → pystr → res (list (pystr * pystr)).

Definition stat_arg (stat_name : pystr) : pystr := if str_eqb stat_name (py "all") then [] else stat_name.
Definition get_stats_memc (bucket_name stat_name : pystr) : res (list (pystr * pystr)) :=
  fetch bucket_name (stat_arg stat_name).
Definition get_stat_memc (bucket_name stat_name key : pystr) : res pystr :=
  output ← get_stats_memc bucket_name stat_name;
  dict_get (list_to_map output : gmap pystr pystr) key.
Definition all_stats := get_stats_memc.
Definition magma_stats := get_stats_memc.
Definition dcp_stats (bucket_name : pystr) := get_stats_memc bucket_name (py "dcp").

(** *** [vbucket_list] *)
Fixpoint vb_numbers (vbucket_type : pystr) (output : list (pystr * pystr)) : res (list Z) :=
  match output with
  | [] => Ok []
  | (key, curr_vb_type) :: output =>
      here ← (if str_eqb curr_vb_type vbucket_type
              then w ← list_get (split_on "_"%char key) 1; n ← int_of_str w; Ok [n]
              else Ok []);
      rest ← vb_numbers vbucket_type output;
      Ok (here ++ rest)
  end.
Definition vbucket_list (bucket_name vbucket_type : pystr) : res (list Z) :=
  output ← get_stats_memc bucket_name (py "vbucket");
  vb_numbers vbucket_type output.

(** *** [vbucket_seqno] *)
Definition seqno_step (stats : gmap pystr (gmap pystr pystr)) (kv : pystr * pystr) : gmap pystr (gmap pystr pystr) :=
  match vb_match true is_word 1 kv.1 with
  | Some (vb_num, stat_name) => set2 vb_num stat_name kv.2 stats
  | None => stats
  end.
Definition vbucket_seqno (bucket_name : pystr) : res (gmap pystr (gmap pystr pystr)) :=
  output ← get_stats_memc bucket_name (py "vbucket-seqno");
  Ok (foldl seqno_step ∅ output).

(** *** [vbucket_details] *)
Definition details_step (stats : gmap pystr (gmap pystr sval)) (kv : pystr * pystr) : res (gmap pystr (gmap pystr sval)) :=
  '(vb_num, stat_name) ← match vb_match true details_class 0 kv.1 with
                         | Some m => Ok m
                         | None => vb_num ← list_get (split_on "_"%char kv.1) 1; Ok (vb_num, py "type")
                         end;
  Ok (set2 vb_num stat_name (to_number kv.2) stats).
Fixpoint details_fold (stats : gmap pystr (gmap pystr sval)) (output : list (pystr * pystr)) : res (gmap pystr (gmap pystr sval)) :=
  match output with
  | [] => Ok stats
  | kv :: output => stats ← details_step stats kv; details_fold stats output
  end.
Definition vbucket_details (bucket_name : pystr) : res (gmap pystr (gmap pystr sval)) :=
  output ← get_stats_memc bucket_name (py "vbucket-details");
  details_fold ∅ output.

(** *** [failover_stats]: a key that does not match is [None.group(1)] *)
Fixpoint failover_fold (stats : gmap pystr (gmap pystr pystr)) (output : list (pystr * pystr)) :
    res (gmap pystr (gmap pystr pystr)) :=
  match output with
  | [] => Ok stats
  | (key, value) :: output =>
      '(vb_num, stat_name) ← of_option AttributeError (vb_match false failover_class 1 key);
      failover_fold (set2 vb_num stat_name value stats) output
  end.
Definition failover_stats (bucket_name : pystr) : res (gmap pystr (gmap pystr pystr)) :=
  output ← get_stats_memc bucket_name (py "failovers");
  failover_fold ∅ output.

(** *** [checkpoint_stats] *)
Definition checkpoint_step (result : gmap Z (gmap pystr sval)) (kv : pystr * pystr) : res (gmap Z (gmap pystr sval)) :=
  match vb_match true checkpoint_class 1 kv.1 with
  | Some (num, stat_name) => n ← int_of_str num; Ok (set2 n stat_name (to_number kv.2) result)
  | None => Ok result
  end.
Fixpoint checkpoint_fold (result : gmap Z (gmap pystr sval)) (output : list (pystr * pystr)) : res (gmap Z (gmap pystr sval)) :=
  match output with
  | [] => Ok result
  | kv :: output => result ← checkpoint_step result kv; checkpoint_fold result output
  end.
Definition checkpoint_stats (bucket_name : pystr) (vb_num : option Z) : res (gmap Z (gmap pystr sval)) :=
  let stat := match vb_num with Some n => py "checkpoint " ++ str_of_Z n | None => py "checkpoint" end in
  output ← get_stats_memc bucket_name stat;
  checkpoint_fold ∅ output.

(** *** [get_scopes] and [get_collections] *)

(** The manifest of [get_collections()[2]]: scopes with their names and ids, each with its collections. *)
Record scope_details := ScopeDetails { sd_name : pystr; sd_uid : pystr; sd_collections : list (pystr * pystr) }.
(** The dictionary that [get_scopes] returns has numbers and, under the names of the scopes, dictionaries. *)
Inductive scope_entry := SCount (n : Z) | SScope (collections num_items : Z).
Fixpoint sum_scope (stats : gmap pystr pystr) (s_id : pystr) (cols : list (pystr * pystr)) : res Z :=
  match cols with
  | [] => Ok 0
  | (_, c_id) :: cols =>
      v ← dict_get stats (py "0x" ++ s_id ++ py ":0x" ++ c_id ++ py ":items");
      n ← int_of_str v;
      rest ← sum_scope stats s_id cols;
      Ok (n + rest)
  end.
Fixpoint scopes_fold (stats : gmap pystr pystr) (data : gmap pystr scope_entry) (details : list scope_details) :
    res (gmap pystr scope_entry) :=
  match details with
  | [] => Ok data
  | s :: details =>
      count ← dict_get data (py "count");
      count ← match count with SCount n => Ok n | SScope _ _ => raise TypeError end;
      items ← sum_scope stats (sd_uid s) (sd_collections s);
      scopes_fold stats
        (<[sd_name s := SScope (len (sd_collections s)) items]> (<[py "count" := SCount (count + 1)]> data)) details
  end.
Definition get_scopes (bucket_name : pystr) (manifest : list scope_details) : res (gmap pystr scope_entry) :=
  output ← fetch bucket_name (py "collections");
  let stats := list_to_map output in
  uid ← dict_get stats (py "manifest_uid");
  uid ← int_of_str uid;
  scopes_fold stats (<[py "count" := SCount 0]> (<[py "manifest_uid" := SCount uid]> ∅)) manifest.

(** The statistics of one collection: those whose key starts with its ids; the third part of the key is the name. *)
Fixpoint collection_stats (prefix : pystr) (d : gmap pystr sval) (output : list (pystr * pystr)) : res (gmap pystr sval) :=
  match output with
  | [] => Ok d
  | (stat, value) :: output =>
      if startswith prefix stat
      then name ← list_get (split_on ":"%char stat) 2;
           collection_stats prefix (<[name := to_number value]> d) output
      else collection_stats prefix d output
  end.
Inductive collection_entry := CCount (n : Z) | CUid (s : pystr) | CScope (cols : gmap pystr (gmap pystr sval)).
Fixpoint collections_fold (output : list (pystr * pystr)) (s_name s_id : pystr) (data : gmap pystr collection_entry)
    (cols : list (pystr * pystr)) : res (gmap pystr collection_entry) :=
  match cols with
  | [] => Ok data
  | (c_name, c_id) :: cols =>
      stats ← collection_stats (py "0x" ++ s_id ++ py ":0x" ++ c_id ++ py ":") ∅ output;
      entry ← dict_get data s_name;
      here ← match entry with CScope m => Ok m | _ => raise TypeError end;
      let data := <[s_name := CScope (<[c_name := stats]> here)]> data in
      count ← dict_get data (py "count");
      count ← match count with CCount n => Ok n | _ => raise TypeError end;
      collections_fold output s_name s_id (<[py "count" := CCount (count + 1)]> data) cols
  end.
Fixpoint manifest_fold (output : list (pystr * pystr)) (data : gmap pystr collection_entry) (details : list scope_details) :
    res (gmap pystr collection_entry) :=
  match details with
  | [] => Ok data
  | s :: details =>
      data ← collections_fold output (sd_name s) (sd_uid s) (<[sd_name s := CScope ∅]> data) (sd_collections s);
      manifest_fold output data details
  end.
Definition get_collections (bucket_name : pystr) (manifest : list scope_details) : res (gmap pystr collection_entry) :=
  output ← fetch bucket_name (py "collections");
  uid ← dict_get (list_to_map output : gmap pystr pystr) (py "manifest_uid");
  manifest_fold output (<[py "manifest_uid" := CUid uid]> (<[py "count" := CCount 0]> ∅)) manifest.

(** *** Methods of the command line tool *)

(** [self.cbstatCmd], [self._execute_cmd] and [self.get_stats] do not exist; [Bucket(bucket_name)]
    takes a dictionary, a string has no [get]. *)
Definition get_timings (_ : pystr) : res unit := raise AttributeError.
Definition get_kvtimings : res unit := raise AttributeError.
Definition disk_info_detail (_ : pystr) : res unit := raise AttributeError.
Definition vkey_stat (_ _ : pystr) : res unit := raise AttributeError.
Definition dcp_vbtakeover (_ : pystr) : res unit := raise AttributeError.
Definition warmup_stats (_ : pystr) : res unit := raise AttributeError.
Definition get_vbucket_stats (_ _ : pystr) (_ : Z) : res unit := raise AttributeError.
(** With a list of vbuckets the first [get_vbucket_stats] raises (outside the [try]); without one, [get_stats] does. *)
Definition verify_failovers_field_stat (vbuckets_list : option (list Z)) : res bool :=
  match vbuckets_list with Some [] => Ok true | _ => raise AttributeError end.
End Cbstats.

(** ** Proofs *)

Lemma vb_span_app p a b :
  Forall (λ c, p c = true) a → match b with [] => True | c :: _ => p c = false end → span p (a ++ b) = (a, b).
Proof.
  intros Ha Hb. induction Ha as [|c a Hc Ha IH]; cbn.
  - destruct b as [|c b]; cbn; [done|]. by rewrite Hb.
  - by rewrite Hc, IH.
Qed.
Lemma strip_prefix_app p s : strip_prefix p (p ++ s) = Some s.
Proof. induction p as [|a p IH]; cbn; [by destruct s|]. by rewrite bool_decide_eq_true_2. Qed.

(** Keys as a node writes them. *)
Definition vb_key (num name : pystr) : pystr := py "vb_" ++ num ++ ":"%char :: name.
Definition vb_num_ok (num : pystr) : Prop := num ≠ [] ∧ Forall (λ c, is_digit c = true) num.
Lemma vb_match_key blanks cls least num name :
  vb_num_ok num → Forall (λ c, cls c = true) name → (least ≤ length name)%nat →
  vb_match blanks cls least (vb_key num name) = Some (num, name).
Proof.
  intros [Hne Hd] Hn Hl. unfold vb_match.
  assert ((if blanks then (span is_blank (vb_key num name)).2 else vb_key num name) = vb_key num name) as ->.
  { destruct blanks; [|done]. reflexivity. }
  unfold vb_key. rewrite strip_prefix_app. cbn [mbind option_bind].
  rewrite (vb_span_app is_digit num) by (done || reflexivity). rewrite bool_decide_eq_false_2 by done.
  rewrite bool_decide_eq_true_2 by done.
  rewrite <- (app_nil_r name) at 1. rewrite vb_span_app by done.
  destruct (Nat.ltb_spec (length name) least); [lia|done].
Qed.
Lemma vb_key_inj n1 n2 m1 m2 : vb_num_ok n1 → vb_num_ok n2 → vb_key n1 m1 = vb_key n2 m2 → n1 = n2 ∧ m1 = m2.
Proof.
  intros [_ H1] [_ H2] E. apply app_inv_head in E.
  pose proof (vb_span_app is_digit n1 (":"%char :: m1) H1 eq_refl) as S1.
  pose proof (vb_span_app is_digit n2 (":"%char :: m2) H2 eq_refl) as S2.
  rewrite E, S2 in S1. by simplify_eq.
Qed.

(** Reading back a dictionary of dictionaries. *)
Definition lookup2 `{Countable K} {V} (d : gmap K (gmap pystr V)) (k1 : K) (k2 : pystr) : option V := d !! k1 ≫= (.!! k2).
Lemma lookup2_set2 `{Countable K} {V} (k1 : K) k2 (v : V) d k1' k2' :
  lookup2 (set2 k1 k2 v d) k1' k2' = if decide (k1 = k1' ∧ k2 = k2') then Some v else lookup2 d k1' k2'.
Proof.
  unfold lookup2, set2. destruct (decide (k1 = k1')) as [<-|Hne].
  - rewrite lookup_insert_eq. cbn. destruct (decide (k2 = k2')) as [<-|Hne2].
    + rewrite lookup_insert_eq. by rewrite decide_True.
    + rewrite lookup_insert_ne, decide_False by naive_solver. by destruct (d !! k1).
  - rewrite lookup_insert_ne, decide_False by naive_solver. done.
Qed.

(** The statistics of a node as triples: vbucket, name and value. *)
Abbreviation stat3 := (pystr * pystr * pystr)%type.
Definition stat_line (t : stat3) : pystr * pystr := (vb_key t.1.1 t.1.2, t.2).
Definition line_ok (cls : ascii → bool) (t : stat3) : Prop :=
  vb_num_ok t.1.1 ∧ t.1.2 ≠ [] ∧ Forall (λ c, cls c = true) t.1.2.

Lemma set2_all (ts : list stat3) (d : gmap pystr (gmap pystr pystr)) :
  NoDup ts.*1 → (∀ t, t ∈ ts → lookup2 d t.1.1 t.1.2 = None) →
  ∀ vb name v, lookup2 (foldl (λ d t, set2 t.1.1 t.1.2 t.2 d) d ts) vb name = Some v ↔
    lookup2 d vb name = Some v ∨ (vb, name, v) ∈ ts.
Proof.
  revert d. induction ts as [|[[vb0 n0] v0] ts IH]; intros d Hnd Hd vb name v; cbn [foldl fst snd]; [set_solver|].
  apply NoDup_cons in Hnd as [Hn Hnd]. rewrite IH; [|done|].
  - rewrite lookup2_set2. cbn in Hn. rewrite elem_of_cons. case_decide as E; [destruct E as [-> ->]|].
    + split; [intros [[= <-]|]; auto|]. intros [H|[[= ->]|H]]; [|by auto|by auto]. exfalso.
      specialize (Hd (vb, name, v0)). cbn in Hd. rewrite Hd in H by set_solver. done.
    + split; [intros [|]; auto|]. intros [H|[[= -> -> ->]|H]]; [by auto|by destruct E|by auto].
  - intros t Ht. rewrite lookup2_set2. case_decide as E; [|apply Hd; set_solver].
    destruct E as [-> ->], Hn. cbn. apply list_elem_of_fmap. exists t. split; [by destruct t as [[] ?]|done].
Qed.
Lemma lookup2_empty vb name : lookup2 (∅ : gmap pystr (gmap pystr pystr)) vb name = None.
Proof. done. Qed.

Lemma seqno_lines (ts : list stat3) d :
  Forall (line_ok is_word) ts → foldl seqno_step d (stat_line <$> ts) = foldl (λ d t, set2 t.1.1 t.1.2 t.2 d) d ts.
Proof.
  intros Hts. revert d. induction Hts as [|[[vb name] v] ts (Hn & Hne & Hc) Hts IH]; intros d; cbn; [done|].
  unfold seqno_step at 2. cbn [fst snd stat_line]. rewrite vb_match_key; [apply IH|done|done|].
  destruct name; [done|cbn; lia].
Qed.
Lemma failover_lines (ts : list stat3) d :
  Forall (line_ok failover_class) ts → failover_fold d (stat_line <$> ts) = Ok (foldl (λ d t, set2 t.1.1 t.1.2 t.2 d) d ts).
Proof.
  intros Hts. revert d. induction Hts as [|[[vb name] v] ts (Hn & Hne & Hc) Hts IH]; intros d; cbn [fmap list_fmap failover_fold stat_line]; [done|].
  cbn [fst snd] in *. rewrite vb_match_key; [|done|done|destruct name; [done|cbn; lia]]. cbn. apply IH.
Qed.

(** The vbuckets of a state. *)
Lemma int_of_digits s n : s ≠ [] → digits_val 0 s = Some n → int_of_str s = Ok n.
Proof.
  intros Hne Hd. pose proof (digits_val_is_digit _ _ _ Hd) as Hall.
  assert (∀ c, is_Some (digit_val c) → is_space c = false ∧ c ≠ "-"%char ∧ c ≠ "+"%char) as Hc.
  { intros c Hc. split_and!; [|intros ->; revert Hc; vm_compute; by intros [? [=]]|intros ->; revert Hc; vm_compute; by intros [? [=]]].
    destruct (is_space c) eqn:E; [|done]. exfalso.
    assert (∀ c, is_space c = true → digit_val c = None) as Hsp by (intros [[] [] [] [] [] [] [] []]; done).
    rewrite Hsp in Hc by done. by destruct Hc. }
  assert (∀ t, t ≠ [] → Forall (λ c, is_Some (digit_val c)) t → lstrip_by is_space t = t) as Hl.
  { intros [|c t] Ht Hf; [done|]. apply Forall_cons in Hf as [Hf _]. cbn. by rewrite (proj1 (Hc c Hf)). }
  assert (strip s = s) as Hs.
  { unfold strip, rstrip_by. rewrite (Hl s) by done. rewrite (Hl (rev s)); [apply rev_involutive| |].
    - intros E. apply Hne. rewrite <- (rev_involutive s), E. done.
    - by apply Forall_rev. }
  unfold int_of_str. rewrite Hs. destruct s as [|c s]; [done|]. apply Forall_cons in Hall as [Hx _].
  destruct (Hc c Hx) as (_ & H1 & H2). rewrite !bool_decide_eq_false_2 by done. rewrite Hd. cbn [of_option mbind res_bind].
  f_equal. lia.
Qed.
Lemma int_of_number n : 0 ≤ n → int_of_str (str_of_Z n) = Ok n.
Proof.
  intros Hn. apply int_of_digits; [|by apply digits_val_str].
  intros E. pose proof (digits_val_str n Hn) as H. rewrite E in H. cbn in H. injection H as <-. by vm_compute in E.
Qed.
Definition vb_line (nt : Z * pystr) : pystr * pystr := (py "vb_" ++ str_of_Z nt.1, nt.2).
Lemma vb_numbers_lines state (l : list (Z * pystr)) :
  Forall (λ nt, 0 ≤ nt.1) l →
  vb_numbers state (vb_line <$> l) = Ok ((filter (λ nt, nt.2 = state) l).*1).
Proof.
  induction 1 as [|[n t] l Hn _ IH]; [done|]. cbn [fmap list_fmap vb_numbers vb_line fst snd] in *.
  unfold str_eqb. rewrite IH. case_bool_decide as E.
  - assert (split_on "_"%char (py "vb_" ++ str_of_Z n) = [py "vb"; str_of_Z n]) as ->.
    { change (py "vb_" ++ str_of_Z n) with (py "vb" ++ "_"%char :: str_of_Z n).
      rewrite split_on_app, split_on_word; [done| |by vm_compute; set_solver].
      apply not_in_digits; [done|by apply str_of_Z_digits]. }
    unfold list_get. cbn [lookup list_lookup of_option mbind res_bind]. rewrite int_of_number by done.
    cbn [mbind res_bind]. by rewrite filter_cons_True.
  - cbn [mbind res_bind]. by rewrite filter_cons_False.
Qed.

(** ** Theorems *)

(** Of a node that answers with lines "vb_<number>:<name>", no name of a vbucket twice, [vbucket_seqno] and [failover_stats]
    return exactly the dictionary of the values by vbucket and name; and of one that answers "vb_<number>"
    with states, [vbucket_list] returns the numbers of the vbuckets in the state that is asked for. *)
Theorem stats_grouped fetch bucket ts fs (vs : list (Z * pystr)) state :
  fetch bucket (py "vbucket-seqno") = Ok (stat_line <$> ts) → Forall (line_ok is_word) ts → NoDup ts.*1 →
  fetch bucket (py "failovers") = Ok (stat_line <$> fs) → Forall (line_ok failover_class) fs → NoDup fs.*1 →
  fetch bucket (py "vbucket") = Ok (vb_line <$> vs) → Forall (λ nt, 0 ≤ nt.1) vs →
  (∃ r, vbucket_seqno fetch bucket = Ok r ∧ ∀ vb name v, lookup2 r vb name = Some v ↔ (vb, name, v) ∈ ts) ∧
  (∃ r, failover_stats fetch bucket = Ok r ∧ ∀ vb name v, lookup2 r vb name = Some v ↔ (vb, name, v) ∈ fs) ∧
  vbucket_list fetch bucket state = Ok ((filter (λ nt, nt.2 = state) vs).*1).
Proof.
  intros Ht Hts Hnt Hf Hfs Hnf Hv Hvs.
  unfold vbucket_seqno, failover_stats, vbucket_list, get_stats_memc.
  assert (∀ s, s ≠ py "all" → stat_arg s = s) as Harg.
  { intros s Hs. unfold stat_arg, str_eqb. by rewrite bool_decide_eq_false_2. }
  rewrite !Harg, Ht, Hf, Hv by by vm_compute. cbn [mbind res_bind]. split_and!.
  - eexists. split; [done|]. intros. rewrite seqno_lines by done. rewrite set2_all; [|done|done]. naive_solver.
  - rewrite failover_lines by done. eexists. split; [done|]. intros. rewrite set2_all; [|done|done]. naive_solver.
  - by apply vb_numbers_lines.
Qed.

(** A node with two vbuckets. *)
Definition demo_fetch (bucket stat : pystr) : res (list (pystr * pystr)) :=
  if str_eqb stat (py "vbucket-seqno") then
    Ok (stat_line <$> [(py "0", py "uuid", py "u"); (py "0", py "high_seqno", py "7")])
  else if str_eqb stat (py "failovers") then Ok (stat_line <$> [(py "0", py "0:id", py "u")])
  else Ok (vb_line <$> [(0, py "active"); (1, py "replica")]).
Lemma stats_grouped_witness :
  (∃ r, vbucket_seqno demo_fetch (py "b") = Ok r ∧ lookup2 r (py "0") (py "high_seqno") = Some (py "7")) ∧
  vbucket_list demo_fetch (py "b") (py "replica") = Ok [1].
Proof.
  destruct (stats_grouped demo_fetch (py "b") [(py "0", py "uuid", py "u"); (py "0", py "high_seqno", py "7")]
    [(py "0", py "0:id", py "u")] [(0, py "active"); (1, py "replica")] (py "replica")) as ((r & Hr & Hiff) & _ & Hl).
  - vm_compute. reflexivity.
  - repeat constructor; discriminate.
  - apply (bool_decide_unpack _). vm_compute. exact I.
  - vm_compute. reflexivity.
  - repeat constructor; discriminate.
  - apply NoDup_singleton.
  - vm_compute. reflexivity.
  - apply Forall_cons. split; [cbn; lia|]. apply Forall_cons. split; [cbn; lia|]. apply Forall_nil. exact I.
  - split; [|exact Hl]. exists r. split; [exact Hr|]. apply Hiff. right. left.
Defined.
