(* ===== verification/DataAnalysis.v ===== *)
(** * Collecting and comparing the statistics of a cluster

    lib/couchbase_helper/data_analysis_helper.py ([DataCollector], [DataAnalyzer],
    [DataAnalysisResultAnalyzer]) and the checks that [BucketUtils]
    (couchbase_utils/bucket_utils/bucket_ready_functions.py) builds on it: vbucket uuids and sequence numbers are the
    same on all nodes and do not go back, failover logs fit them, vbuckets are evenly distributed.

    What the nodes answer is a parameter ([fetch], by address, bucket and name of the statistic).  A dictionary whose
    order of iteration shows in a result is a list of pairs; for [collect_failovers_stats], whose result depends
    on the order, the order is a parameter.  The texts that only go to the log are not modelled. *)

From S2P Require Import Prelude Py Cbstats.
Local Open Scope Z_scope.
#[local] Arguments py : simpl never.

(** ** DataCollector *)

Abbreviation vbstats := (gmap pystr (gmap pystr sval)).
Record server := Server { ip : pystr }.
(** A bucket by its name; [bucketType] is "memcached" or not. *)
Record kv_bucket := KvBucket { kb_name : pystr; kb_memcached : bool }.

Section Collector.
Variable fetch : pystr → pystr → pystr → res (list (pystr * pystr)).

(** [result['vb_%s' % vb_num] = {"state": vb_type}] for the active and the replica vbuckets *)
Fixpoint states (vb_type : pystr) (vbs : list Z) (d : vbstats) : vbstats :=
  match vbs with
  | [] => d
  | n :: vbs => states vb_type vbs (<[py "vb_" ++ str_of_Z n := {[py "state" := SStr vb_type]}]> d)
  end.
(** [result['vb_' + key] = result.pop(key)] for all keys *)
Definition with_prefix {V} (d : gmap pystr V) : gmap pystr V := kmap (app (py "vb_")) d.
(** [map_data.update(result)]: whole entries are replaced. *)
Definition update {V} (d result : gmap pystr V) : gmap pystr V := result ∪ d.
Definition server_stats (s : server) (b : pystr) (collect_vbucket collect_seqno collect_details : bool) : res vbstats :=
  let f := fetch (ip s) in
  d ← (if collect_vbucket : bool then
         a ← vbucket_list f b (py "active");
         r ← vbucket_list f b (py "replica");
         Ok (states (py "replica") r (states (py "active") a ∅))
       else Ok ∅);
  d ← (if collect_seqno : bool then
         r ← vbucket_seqno f b;
         Ok (update d (with_prefix (fmap (M := gmap pystr) (fmap (M := gmap pystr) SStr) r)))
       else Ok d);
  (if collect_details : bool then
     r ← vbucket_details f b;
     Ok (update d (with_prefix r))
   else Ok d).
Fixpoint servers_stats (servers : list server) (b : pystr) (cv cs cd : bool) : res (list (pystr * vbstats)) :=
  match servers with
  | [] => Ok []
  | s :: servers =>
      d ← server_stats s b cv cs cd;
      rest ← servers_stats servers b cv cs cd;
      Ok ((ip s, d) :: rest)
  end.
(** Per node: bucket, node, vbucket; the nodes in the order of the list (a later server with the same address replaces the entry). *)
Fixpoint collect_vbucket_stats (buckets : list kv_bucket) (servers : list server) (cv cs cd : bool) :
    res (list (pystr * gmap pystr vbstats)) :=
  match buckets with
  | [] => Ok []
  | b :: buckets =>
      if kb_memcached b then collect_vbucket_stats buckets servers cv cs cd
      else d ← servers_stats servers (kb_name b) cv cs cd;
           rest ← collect_vbucket_stats buckets servers cv cs cd;
           Ok ((kb_name b, list_to_map (rev d)) :: rest)
  end.
(** Not per node: the union, the last server wins. *)
Fixpoint collect_vbucket_union (buckets : list kv_bucket) (servers : list server) (cv cs cd : bool) :
    res (list (pystr * vbstats)) :=
  match buckets with
  | [] => Ok []
  | b :: buckets =>
      if kb_memcached b then collect_vbucket_union buckets servers cv cs cd
      else d ← servers_stats servers (kb_name b) cv cs cd;
           rest ← collect_vbucket_union buckets servers cv cs cd;
           Ok ((kb_name b, foldl (λ m nd, update m nd.2) ∅ d) :: rest)
  end.

(** [collect_vbucket_num_stats]: active and replica vbuckets by bucket and address. *)
Fixpoint count_vbuckets (vb_type : pystr) (servers : list server) (b : pystr) : res (list (pystr * Z)) :=
  match servers with
  | [] => Ok []
  | s :: servers =>
      l ← vbucket_list (fetch (ip s)) b vb_type;
      rest ← count_vbuckets vb_type servers b;
      Ok ((ip s, len l) :: rest)
  end.
Fixpoint collect_vbucket_num_stats (servers : list server) (buckets : list kv_bucket) :
    res (list (pystr * (list (pystr * Z) * list (pystr * Z)))) :=
  match buckets with
  | [] => Ok []
  | b :: buckets =>
      a ← count_vbuckets (py "active") servers (kb_name b);
      r ← count_vbuckets (py "replica") servers (kb_name b);
      rest ← collect_vbucket_num_stats servers buckets;
      Ok ((kb_name b, (a, r)) :: rest)
  end.

(** [collect_compare_dcp_stats]: the result has names as keys, a mismatch is recorded under the bucket object. *)
Inductive dcp_key := KName (n : pystr) | KBucket (n : pystr).
#[global] Instance dcp_key_eq_dec : EqDecision dcp_key.
Proof. solve_decision. Defined.
#[global] Instance dcp_key_countable : Countable dcp_key.
Proof.
  refine (inj_countable' (λ k, match k with KName n => (true, n) | KBucket n => (false, n) end)
    (λ p, if p.1 : bool then KName p.2 else KBucket p.2) _). by intros [].
Defined.
Fixpoint dcp_fold (b stat_name : pystr) (compare_value buffer_size : Z) (filter_list : list pystr)
    (m : gmap dcp_key bool) (stats : list (pystr * pystr)) : res (gmap dcp_key bool) :=
  match stats with
  | [] => Ok m
  | (key, v) :: stats =>
      m ← (if contains stat_name key then
             let do_filter := existsb (λ f, contains f key) filter_list in
             value ← int_of_str v;
             Ok (if negb do_filter && negb (bool_decide (value = compare_value)) &&
                    (negb (contains (py "eq_dcpq:mapreduce_view") key) || (buffer_size <=? value))
                 then <[KBucket b := false]> m else m)
           else Ok m);
      dcp_fold b stat_name compare_value buffer_size filter_list m stats
  end.
Fixpoint dcp_servers (servers : list server) (b stat_name : pystr) (cv bs : Z) (fl : list pystr) (m : gmap dcp_key bool) :
    res (gmap dcp_key bool) :=
  match servers with
  | [] => Ok m
  | s :: servers =>
      stats ← dcp_stats (fetch (ip s)) b;
      m ← dcp_fold b stat_name cv bs fl m stats;
      dcp_servers servers b stat_name cv bs fl m
  end.
Fixpoint dcp_buckets (buckets : list kv_bucket) (servers : list server) (stat_name : pystr) (cv bs : Z) (fl : list pystr)
    (m : gmap dcp_key bool) : res (gmap dcp_key bool) :=
  match buckets with
  | [] => Ok m
  | b :: buckets =>
      m ← dcp_servers servers (kb_name b) stat_name cv bs fl m;
      dcp_buckets buckets servers stat_name cv bs fl m
  end.
Definition collect_compare_dcp_stats (buckets : list kv_bucket) (servers : list server) (stat_name : pystr)
    (compare_value flow_control_buffer_size : Z) (filter_list : list pystr) : res (gmap dcp_key bool) :=
  dcp_buckets buckets servers stat_name compare_value flow_control_buffer_size filter_list
    (foldl (λ m b, <[KName (kb_name b) := true]> m) ∅ buckets).
(** [verify_unacked_bytes_all_buckets]: the keys for which it writes the critical log line. *)
Definition verify_unacked_bytes_all_buckets (buckets : list kv_bucket) (servers : list server) (filter_list : list pystr) :
    res (list dcp_key) :=
  m ← collect_compare_dcp_stats buckets servers (py "unacked_bytes") 0 20971520 filter_list;
  Ok (fst <$> List.filter (λ kb, kb.2) (map_to_list m)).

(** [collect_dcp_stats]: by vbucket and name. *)
Fixpoint dcp_names (key v : pystr) (extra : pystr) (names : list pystr) (m : gmap Z (gmap pystr Z)) : res (gmap Z (gmap pystr Z)) :=
  match names with
  | [] => Ok m
  | n :: names =>
      m ← (if contains n key && contains extra key then
             value ← int_of_str v;
             let tokens := split_on ":"%char key in
             t ← of_option IndexError (last tokens);
             w ← list_get (split_on "_"%char t) 1;
             vb_no ← int_of_str w;
             Ok (set2 vb_no n value m)
           else Ok m);
      dcp_names key v extra names m
  end.
Fixpoint dcp_values (extra : pystr) (names : list pystr) (stats : list (pystr * pystr)) (m : gmap Z (gmap pystr Z)) :
    res (gmap Z (gmap pystr Z)) :=
  match stats with
  | [] => Ok m
  | (key, v) :: stats => m ← dcp_names key v extra names m; dcp_values extra names stats m
  end.
Fixpoint dcp_nodes (b : pystr) (servers : list server) (names : list pystr) (extra : pystr) (m : gmap Z (gmap pystr Z)) :
    res (gmap Z (gmap pystr Z)) :=
  match servers with
  | [] => Ok m
  | s :: servers =>
      stats ← fetch (ip s) b (py "dcp");
      m ← dcp_values extra names stats m;
      dcp_nodes b servers names extra m
  end.
Fixpoint collect_dcp_stats (buckets : list kv_bucket) (servers : list server) (names : list pystr) (extra : pystr) :
    res (list (pystr * gmap Z (gmap pystr Z))) :=
  match buckets with
  | [] => Ok []
  | b :: buckets =>
      d ← dcp_nodes (kb_name b) servers names extra ∅;
      rest ← collect_dcp_stats buckets servers names extra;
      Ok ((kb_name b, d) :: rest)
  end.

(** *** [collect_failovers_stats] *)

(** [value.split()[0]] *)
Definition first_word (s : pystr) : res pystr :=
  let w := (span (λ c, negb (is_space c)) (lstrip_by is_space s)).1 in
  if bool_decide (w = []) then raise IndexError else Ok w.
(** The dictionary of one vbucket and the number of the log entry that came first. *)
Definition failover_step (acc : option (gmap pystr pystr * Z)) (kv : pystr * pystr) : res (option (gmap pystr pystr * Z)) :=
  let tokens := split_on ":"%char kv.1 in
  '(key, num) ← match tokens with
                | [n; k] => n ← int_of_str n; Ok (k, n)
                | k :: _ => Ok (k, -1)
                | [] => raise IndexError
                end;
  match acc with
  | Some (m, first) =>
      if (first <=? num) || str_eqb key (py "num_entries")
      then w ← first_word kv.2; Ok (Some (<[key := w]> m, first))
      else Ok acc
  | None => w ← first_word kv.2; Ok (Some ({[key := w]}, num))
  end.
Fixpoint failover_entries (acc : option (gmap pystr pystr * Z)) (l : list (pystr * pystr)) : res (option (gmap pystr pystr * Z)) :=
  match l with
  | [] => Ok acc
  | kv :: l => acc ← failover_step acc kv; failover_entries acc l
  end.
(** The order in which a dictionary is iterated over. *)
Variable items : gmap pystr pystr → list (pystr * pystr).
Fixpoint failover_vbuckets (l : list (pystr * gmap pystr pystr)) : res (gmap pystr (gmap pystr pystr)) :=
  match l with
  | [] => Ok ∅
  | (vb, d) :: l =>
      acc ← failover_entries None (items d);
      rest ← failover_vbuckets l;
      Ok match acc with Some (m, _) => <[py "vb_" ++ vb := m]> rest | None => rest end
  end.
Fixpoint failover_servers (servers : list server) (b : pystr) : res (list (pystr * gmap pystr (gmap pystr pystr))) :=
  match servers with
  | [] => Ok []
  | s :: servers =>
      stats ← failover_stats (fetch (ip s)) b;
      d ← failover_vbuckets (map_to_list stats);
      rest ← failover_servers servers b;
      Ok ((ip s, d) :: rest)
  end.
Fixpoint collect_failovers_stats (buckets : list kv_bucket) (servers : list server) :
    res (list (pystr * gmap pystr (gmap pystr (gmap pystr pystr)))) :=
  match buckets with
  | [] => Ok []
  | b :: buckets =>
      d ← failover_servers servers (kb_name b);
      rest ← collect_failovers_stats buckets servers;
      Ok ((kb_name b, list_to_map (rev d)) :: rest)
  end.
End Collector.

(** [createMapVbucket] *)
Fixpoint createMapVbucket (details : list (pystr * pystr)) (m : gmap pystr (gmap pystr pystr)) : gmap pystr (gmap pystr pystr) :=
  match details with
  | [] => m
  | (o, v) :: details =>
      createMapVbucket details
        match split_on ":"%char o with
        | [vb; key] => set2 vb key (strip v) m
        | [vb] => set2 vb (py "state") (strip v) m
        | _ => m
        end
  end.
(** [translateDataFromCSVToMap]: the previous line is indexed as a string, so the "revision" is its sixth character. *)
Fixpoint translate_lines (index : nat) (lines : list pystr) (m : gmap pystr pystr) : res (gmap pystr pystr) :=
  match lines with
  | [] => Ok m
  | value :: lines =>
      let values := split_on ","%char value in
      k ← list_get values index;
      m ← match m !! k with
          | Some prev =>
              c ← list_get prev 5; prev_rev ← int_of_str [c];
              w ← list_get values 5; new_rev ← int_of_str w;
              Ok (if prev_rev <? new_rev then <[k := value]> m else m)
          | None => Ok (<[k := value]> m)
          end;
      translate_lines index lines m
  end.
Definition translateDataFromCSVToMap (index : nat) (lines : list pystr) : res (gmap pystr pystr) := translate_lines index lines ∅.

(** ** DataAnalyzer *)

(** Python 2 orders numbers by value, strings by their bytes, and numbers before strings. *)
Fixpoint str_cmp (a b : pystr) : comparison :=
  match a, b with
  | [], [] => Eq
  | [], _ => Lt
  | _, [] => Gt
  | x :: a, y :: b => match ord x ?= ord y with Eq => str_cmp a b | c => c end
  end.
Definition sval_cmp (a b : sval) : comparison :=
  match a, b with
  | SInt m, SInt n => m ?= n
  | SInt _, SStr _ => Lt
  | SStr _, SInt _ => Gt
  | SStr s, SStr t => str_cmp s t
  end.
Definition sval_int (v : sval) : res Z := match v with SInt n => Ok n | SStr s => int_of_str s end.

(** The types and operations of a comparison map ("float" has no use in the sources). *)
Inductive ctype := TyInt | TyLong | TyString.
Inductive cop := OpFilter | OpGe | OpLe | OpGt | OpLt | OpEq | OpNe | OpOther.
Abbreviation cmap := (gmap pystr (ctype * cop)).
Definition convert_value (v : sval) (t : ctype) : res sval :=
  match t with TyInt | TyLong => n ← sval_int v; Ok (SInt n) | TyString => Ok v end.
Definition op_holds (op : cop) (a b : sval) : bool :=
  match op, sval_cmp a b with
  | OpFilter, _ => true
  | OpGe, (Eq | Gt) | OpLe, (Eq | Lt) | OpGt, Gt | OpLt, Lt | OpEq, Eq | OpNe, (Lt | Gt) => true
  | _, _ => false
  end.
(** [compare_values]: whether there is a reason to report. *)
Definition compare_values (v1 v2 : sval) (logic : ctype * cop) : res bool :=
  a ← convert_value v1 logic.1;
  b ← convert_value v2 logic.1;
  Ok (negb (op_holds logic.2 a b)).

(** The keys with a reason, of one entry that both maps have.  Without a comparison for a key the code reads a
    variable that does not exist. *)
Definition mismatch_key : pystr := py "number of key mismatch".
Fixpoint entry_reasons (c : option cmap) (data1 : list (pystr * sval)) (data2 : gmap pystr sval) : res (gset pystr) :=
  match data1 with
  | [] => Ok ∅
  | (vkey, v1) :: data1 =>
      here ← match c ≫= (.!! vkey) with
             | Some logic => v2 ← dict_get data2 vkey; compare_values v1 v2 logic
             | None => raise NameError
             end;
      rest ← entry_reasons c data1 data2;
      Ok (if here : bool then {[vkey]} ∪ rest else rest)
  end.
Definition compare_entry (c : option cmap) (data1 data2 : gmap pystr sval) : res (gset pystr) :=
  if (size data1 =? size data2)%nat then entry_reasons c (map_to_list data1) data2 else Ok {[mismatch_key]}.
Fixpoint updated_items (c : option cmap) (info1 : list (pystr * gmap pystr sval)) (info2 : vbstats) : res (gmap pystr (gset pystr)) :=
  match info1 with
  | [] => Ok ∅
  | (key, data1) :: info1 =>
      reason ← match info2 !! key with Some data2 => compare_entry c data1 data2 | None => Ok ∅ end;
      rest ← updated_items c info1 info2;
      Ok (if bool_decide (reason = ∅) then rest else <[key := reason]> rest)
  end.
Record comparison_result := ComparisonResult {
  deletedItems : gset pystr; addedItems : gset pystr; updatedItems : gmap pystr (gset pystr)
}.
Definition compare_maps (c : option cmap) (info1 info2 : vbstats) : res comparison_result :=
  upd ← updated_items c (map_to_list info1) info2;
  Ok (ComparisonResult (dom info1 ∖ dom info2) (dom info2 ∖ dom info1) upd).
(** The logical result: is there anything? *)
Definition has_deleted (r : comparison_result) : bool := negb (bool_decide (deletedItems r = ∅)).
Definition has_added (r : comparison_result) : bool := negb (bool_decide (addedItems r = ∅)).
Definition has_updated (r : comparison_result) : bool := negb (bool_decide (updatedItems r = ∅)).

Fixpoint compare_stats_dataset (c : option cmap) (m1 : list (pystr * vbstats)) (m2 : gmap pystr vbstats) :
    res (list (pystr * comparison_result)) :=
  match m1 with
  | [] => Ok []
  | (b, info1) :: m1 =>
      info2 ← dict_get m2 b;
      r ← compare_maps c info1 info2;
      rest ← compare_stats_dataset c m1 m2;
      Ok ((b, r) :: rest)
  end.
(** Per node: [m1] and [m2] by bucket, then by node. *)
Fixpoint compare_per_node_stats_dataset (c : option cmap) (m1 : list (pystr * gmap pystr vbstats))
    (m2 : gmap pystr (gmap pystr vbstats)) : res (list (pystr * list (pystr * comparison_result))) :=
  match m1 with
  | [] => Ok []
  | (b, nodes) :: m1 =>
      nodes2 ← dict_get m2 b;
      r ← compare_stats_dataset c (map_to_list nodes) nodes2;
      rest ← compare_per_node_stats_dataset c m1 m2;
      Ok ((b, r) :: rest)
  end.

(** [compare_data_maps]: lines of comma-separated values, with the names of the fields; the callers pass no comparison map.  A field that differs needs a name. *)
Fixpoint line_reasons (fields data1 data2 : list pystr) (i : nat) : res (gset pystr) :=
  match data1, data2 with
  | v1 :: data1, v2 :: data2 =>
      here ← (if str_eqb v1 v2 then Ok ∅ else f ← list_get fields i; Ok {[f]});
      rest ← line_reasons fields data1 data2 (S i);
      Ok (here ∪ rest)
  | _, _ => Ok ∅
  end.
Definition compare_line (headerInfo line1 line2 : pystr) : res (gset pystr) :=
  let data1 := split_on ","%char line1 in
  let data2 := split_on ","%char line2 in
  if (length data1 =? length data2)%nat then line_reasons (split_on ","%char headerInfo) data1 data2 0
  else Ok {[py "number of value mismatch"]}.
Fixpoint updated_lines (headerInfo : pystr) (info1 : list (pystr * pystr)) (info2 : gmap pystr pystr) : res (gmap pystr (gset pystr)) :=
  match info1 with
  | [] => Ok ∅
  | (key, l1) :: info1 =>
      reason ← match info2 !! key with Some l2 => compare_line headerInfo l1 l2 | None => Ok ∅ end;
      rest ← updated_lines headerInfo info1 info2;
      Ok (if bool_decide (reason = ∅) then rest else <[key := reason]> rest)
  end.
Definition compare_data_maps (headerInfo : pystr) (info1 info2 : gmap pystr pystr) : res comparison_result :=
  upd ← updated_lines headerInfo (map_to_list info1) info2;
  Ok (ComparisonResult (dom info1 ∖ dom info2) (dom info2 ∖ dom info1) upd).
Fixpoint compare_all_dataset (headerInfo : pystr) (m1 : list (pystr * gmap pystr pystr)) (m2 : gmap pystr (gmap pystr pystr)) :
    res (list (pystr * comparison_result)) :=
  match m1 with
  | [] => Ok []
  | (b, info1) :: m1 =>
      info2 ← dict_get m2 b;
      r ← compare_data_maps headerInfo info1 info2;
      rest ← compare_all_dataset headerInfo m1 m2;
      Ok ((b, r) :: rest)
  end.

(** ** DataAnalysisResultAnalyzer: the verdict *)

(** [analyze_result]: [None] is "Not Applicable". *)
Definition analyze_result (lresult : bool) (actual : option bool) : bool :=
  match actual with None => true | Some a => bool_decide (lresult = a) end.
Definition analyze_one (r : comparison_result) (deleted added updated : option bool) : bool :=
  analyze_result (has_deleted r) deleted && analyze_result (has_added r) added && analyze_result (has_updated r) updated.
Definition analyze_all_result (l : list (pystr * comparison_result)) (deleted added updated : option bool) : bool :=
  forallb (λ br, analyze_one br.2 deleted added updated) l.
Definition analyze_per_node_result (l : list (pystr * list (pystr * comparison_result))) (deleted added updated : option bool) : bool :=
  forallb (λ bl, analyze_all_result bl.2 deleted added updated) l.

(** ** Distribution of vbuckets *)

(** [analyze_vb_nums] (and the numbers of [find_data_distribution]): the mean is total / count and the
    standard deviation is the square root of [dev2] / count^2. *)
Record distribution := Distribution { d_max : Z; d_min : Z; total : Z; count : Z; dev2 : Z }.
Definition sum (l : list Z) : Z := foldr Z.add 0 l.
Definition analyze_vb_nums (array : list Z) : res distribution :=
  match array with
  | [] => raise ValueError      (* max of an empty list *)
  | v :: vs =>
      let n := len array in
      Ok (Distribution (foldl Z.max v vs) (foldl Z.min v vs) (sum array) n
            (n * sum ((λ v, v * v) <$> array) - sum array * sum array))
  end.
(** [std <= limit] *)
Definition std_within (d : distribution) (limit : Z) : bool := (0 <=? limit) && (dev2 d <=? limit * limit * (count d * count d)).
Definition find_data_distribution (info : list (pystr * pystr)) : res distribution :=
  vbs ← mapM (λ kv, of_option IndexError (last (split_on ","%char kv.2))) info;
  let m := foldl (λ (m : gmap pystr Z) vb, <[vb := default 0 (m !! vb) + 1]> m) ∅ vbs in
  analyze_vb_nums (snd <$> map_to_list m).

(** [assertTrue] of BucketUtils *)
Definition assertTrue (b : bool) : res unit := if b then Ok tt else raise GenericException.
(** [vb_distribution_analysis]: all the buckets are analysed, then asserted about in order. *)
Definition check_distribution (a r : distribution) (kv_nodes num_replicas total_vbuckets std : Z) (rebalance graceful : bool) : res unit :=
  _ ← assertTrue (if graceful || rebalance then total a =? total_vbuckets else total a <=? total_vbuckets);
  _ ← assertTrue (if rebalance then
                    if 1 <=? kv_nodes - num_replicas then total r =? num_replicas * total_vbuckets
                    else total r <? num_replicas * total_vbuckets
                  else total r <=? num_replicas * total_vbuckets);
  _ ← assertTrue (std_within a std);
  assertTrue (std_within r std).
Definition compare_analyze_active_replica_vb_nums (l : list (pystr * (list (pystr * Z) * list (pystr * Z)))) :
    res (list (pystr * (distribution * distribution))) :=
  mapM (λ bar, a ← analyze_vb_nums (snd <$> bar.2.1); r ← analyze_vb_nums (snd <$> bar.2.2); Ok (bar.1, (a, r))) l.
Fixpoint check_distributions (l : list (pystr * (distribution * distribution))) (kv_nodes num_replicas total_vbuckets std : Z)
    (rebalance graceful : bool) : res unit :=
  match l with
  | [] => Ok tt
  | (_, (a, r)) :: l =>
      _ ← check_distribution a r kv_nodes num_replicas total_vbuckets std rebalance graceful;
      check_distributions l kv_nodes num_replicas total_vbuckets std rebalance graceful
  end.
Definition vb_distribution_analysis (fetch : pystr → pystr → pystr → res (list (pystr * pystr))) (servers : list server)
    (buckets : list kv_bucket) (kv_nodes num_replicas total_vbuckets std : Z) (rebalance graceful : bool) : res unit :=
  counts ← collect_vbucket_num_stats fetch servers buckets;
  l ← compare_analyze_active_replica_vb_nums counts;
  check_distributions l kv_nodes num_replicas total_vbuckets std rebalance graceful.

(** ** The checks of BucketUtils *)

(** *** Consistency between nodes *)

(** [d[k]] for the keys that are kept of a vbucket. *)
Fixpoint kept (keys : list pystr) (d : gmap pystr sval) : res (gmap pystr sval) :=
  match keys with
  | [] => Ok ∅
  | k :: keys => v ← dict_get d k; rest ← kept keys d; Ok (<[k := v]> rest)
  end.
(** [int(a[k]) != int(b[k])] for one of the keys *)
Fixpoint ints_differ (keys : list pystr) (a b : gmap pystr sval) : res bool :=
  match keys with
  | [] => Ok false
  | k :: keys =>
      x ← dict_get a k; x ← sval_int x;
      y ← dict_get b k; y ← sval_int y;
      rest ← ints_differ keys a b;
      Ok (negb (bool_decide (x = y)) || rest)
  end.
(** A vbucket of a node against the first one seen: the key [id] must be the same, the keys [ints] the same
    numbers; the flag is [logic]. *)
Definition seen_step (keys : list pystr) (id : pystr) (ints : list pystr) (acc : vbstats * bool) (vd : pystr * gmap pystr sval) :
    res (vbstats * bool) :=
  d ← kept keys vd.2;
  match acc.1 !! vd.1 with
  | None => Ok (<[vd.1 := d]> acc.1, acc.2)
  | Some first =>
      differ ← ints_differ ints first d;
      Ok (acc.1, acc.2 && bool_decide (first !! id = d !! id) && negb differ)
  end.
Fixpoint seen_vbuckets (keys : list pystr) (id : pystr) (ints : list pystr) (acc : vbstats * bool) (l : list (pystr * gmap pystr sval)) :
    res (vbstats * bool) :=
  match l with
  | [] => Ok acc
  | vd :: l => acc ← seen_step keys id ints acc vd; seen_vbuckets keys id ints acc l
  end.
(** All the vbuckets of all the nodes of a bucket, node after node. *)
Definition node_vbuckets (nodes : list (pystr * vbstats)) : list (pystr * gmap pystr sval) := n ← nodes; map_to_list n.2.
Fixpoint consistency (keys : list pystr) (id : pystr) (ints : list pystr) (logic : bool) (map1 : list (pystr * list (pystr * vbstats))) :
    res (list (pystr * vbstats) * bool) :=
  match map1 with
  | [] => Ok ([], logic)
  | (b, nodes) :: map1 =>
      here ← seen_vbuckets keys id ints (∅, logic) (node_vbuckets nodes);
      rest ← consistency keys id ints here.2 map1;
      Ok ((b, here.1) :: rest.1, rest.2)
  end.
Definition compare_per_node (keys : list pystr) (id : pystr) (ints : list pystr) (map1 : list (pystr * list (pystr * vbstats))) :
    res (list (pystr * vbstats)) :=
  r ← consistency keys id ints true map1;
  if (r.2 : bool) then Ok r.1 else raise GenericException.

Definition seqno_keys : list pystr := [py "uuid"; py "abs_high_seqno"; py "purge_seqno"].
Definition compare_per_node_for_vbucket_consistency (map1 : list (pystr * list (pystr * vbstats)))
    (check_abs_high_seqno check_purge_seqno : bool) : res (list (pystr * vbstats)) :=
  compare_per_node seqno_keys (py "uuid")
    ((if check_abs_high_seqno then [py "abs_high_seqno"] else []) ++ (if check_purge_seqno then [py "purge_seqno"] else [])) map1.

(** For failover logs, each vbucket must also have a state in [vbucketMap] (looked up here before the comparison, in the code
    during it). *)
Definition failover_keys : list pystr := [py "id"; py "seq"; py "num_entries"].
Fixpoint states_known (vbucketMap : gmap pystr (gmap pystr vbstats)) (map1 : list (pystr * list (pystr * vbstats))) : res unit :=
  match map1 with
  | [] => Ok tt
  | (b, nodes) :: map1 =>
      _ ← mapM (λ nd, mapM (λ vd, nodes2 ← dict_get vbucketMap b; vbs ← dict_get nodes2 nd.1; d ← dict_get vbs vd.1;
                                 dict_get d (py "state")) (map_to_list (nd.2 : vbstats))) nodes;
      states_known vbucketMap map1
  end.
Definition compare_per_node_for_failovers_consistency (map1 : list (pystr * list (pystr * vbstats)))
    (vbucketMap : gmap pystr (gmap pystr vbstats)) : res (list (pystr * vbstats)) :=
  _ ← states_known vbucketMap map1;
  compare_per_node failover_keys (py "id") [py "seq"; py "num_entries"] map1.

(** [get_vbucket_seqnos], per node and with the consistency check *)
Definition nodes_of (l : list (pystr * gmap pystr vbstats)) : list (pystr * list (pystr * vbstats)) := (λ bm, (bm.1, map_to_list bm.2)) <$> l.
Definition get_vbucket_seqnos (fetch : pystr → pystr → pystr → res (list (pystr * pystr))) (servers : list server) (buckets : list kv_bucket) : res (list (pystr * vbstats)) :=
  l ← collect_vbucket_stats fetch buckets servers false true false;
  compare_per_node_for_vbucket_consistency (nodes_of l) false false.
Definition get_vbucket_seqnos_per_Node_Only (fetch : pystr → pystr → pystr → res (list (pystr * pystr))) (servers : list server) (buckets : list kv_bucket) :
    res (list (pystr * gmap pystr vbstats)) :=
  l ← collect_vbucket_stats fetch buckets servers false true false;
  _ ← compare_per_node_for_vbucket_consistency (nodes_of l) false false;
  Ok l.

(** *** [compare_vbucket_seqnos] *)
Definition seqno_cmap (compare : cop) : cmap :=
  list_to_map [(py "uuid", (TyString, OpEq)); (py "abs_high_seqno", (TyLong, compare)); (py "purge_seqno", (TyString, compare))].
Definition compare_vbucket_seqnos (fetch : pystr → pystr → pystr → res (list (pystr * pystr))) (prev : list (pystr * vbstats))
    (servers : list server) (buckets : list kv_bucket) (compare : cop) : res (list (pystr * vbstats)) :=
  new ← get_vbucket_seqnos fetch servers buckets;
  r ← compare_stats_dataset (Some (seqno_cmap compare)) prev (list_to_map new);
  if analyze_all_result r (Some false) (Some false) (Some false) then Ok new else raise GenericException.
Definition compare_vbucket_seqnos_per_node (fetch : pystr → pystr → pystr → res (list (pystr * pystr))) (prev : list (pystr * gmap pystr vbstats))
    (servers : list server) (buckets : list kv_bucket) (compare : cop) : res (list (pystr * gmap pystr vbstats)) :=
  new ← get_vbucket_seqnos_per_Node_Only fetch servers buckets;
  r ← compare_per_node_stats_dataset (Some (seqno_cmap compare)) prev (list_to_map new);
  if analyze_per_node_result r (Some false) (Some false) (Some false) then Ok new else raise GenericException.

(** *** [get_failovers_logs] and [compare_failovers_logs] *)
Definition as_svals (m : gmap pystr (gmap pystr (gmap pystr pystr))) : gmap pystr vbstats :=
  fmap (M := gmap pystr) (fmap (M := gmap pystr) (fmap (M := gmap pystr) SStr)) m.
Definition get_failovers_logs (fetch : pystr → pystr → pystr → res (list (pystr * pystr))) (items : gmap pystr pystr → list (pystr * pystr))
    (servers : list server) (buckets : list kv_bucket) : res (list (pystr * vbstats)) :=
  vbucketMap ← collect_vbucket_stats fetch buckets servers true false false;
  new ← collect_failovers_stats fetch items buckets servers;
  compare_per_node_for_failovers_consistency ((λ bm, (bm.1, map_to_list (as_svals bm.2))) <$> new) (list_to_map vbucketMap).
Definition failover_cmap : cmap :=
  list_to_map [(py "id", (TyString, OpEq)); (py "seq", (TyLong, OpLe)); (py "num_entries", (TyString, OpLe))].
Definition compare_failovers_logs (fetch : pystr → pystr → pystr → res (list (pystr * pystr))) (items : gmap pystr pystr → list (pystr * pystr))
    (prev : list (pystr * vbstats)) (servers : list server) (buckets : list kv_bucket) : res (list (pystr * vbstats)) :=
  new ← get_failovers_logs fetch items servers buckets;
  r ← compare_stats_dataset (Some failover_cmap) prev (list_to_map new);
  if analyze_all_result r (Some false) (Some false) (Some false) then Ok new else raise GenericException.

(** *** [compare_vbucketseq_failoverlogs]: [seq < fseq] on what the nodes sent, strings *)
Definition vb_fits (v : gmap pystr sval) (f : gmap pystr sval) : res bool :=
  seq ← dict_get v (py "abs_high_seqno");
  uuid ← dict_get v (py "uuid");
  fseq ← dict_get f (py "seq");
  fuuid ← dict_get f (py "id");
  Ok (negb (match sval_cmp seq fseq with Lt => true | _ => false end) && bool_decide (uuid = fuuid)).
Fixpoint vbs_fit (l : list (pystr * gmap pystr sval)) (f : vbstats) : res bool :=
  match l with
  | [] => Ok true
  | (vb, v) :: l =>
      fv ← dict_get f vb;
      here ← vb_fits v fv;
      rest ← vbs_fit l f;
      Ok (here && rest)
  end.
Fixpoint buckets_fit (l : list (pystr * vbstats)) (f : gmap pystr vbstats) : res bool :=
  match l with
  | [] => Ok true
  | (b, vbs) :: l =>
      fb ← match map_to_list vbs with [] => Ok ∅ | _ => dict_get f b end;
      here ← vbs_fit (map_to_list vbs) fb;
      rest ← buckets_fit l f;
      Ok (here && rest)
  end.
Definition compare_vbucketseq_failoverlogs (vbucketseq : list (pystr * vbstats)) (failoverlog : gmap pystr vbstats) : res unit :=
  ok ← buckets_fit vbucketseq failoverlog;
  if (ok : bool) then Ok tt else raise GenericException.

(** *** [validate_seq_no_stats] *)
Definition comparion_key_pairs : list (pystr * pystr) :=
  [(py "high_completed_seqno", py "high_seqno"); (py "last_persisted_snap_start", py "last_persisted_seqno");
   (py "last_persisted_snap_start", py "last_persisted_snap_end")].
Fixpoint pairs_ordered (stat : gmap pystr pystr) (l : list (pystr * pystr)) : res bool :=
  match l with
  | [] => Ok true
  | (a, b) :: l =>
      x ← dict_get stat a; x ← int_of_str x;
      y ← dict_get stat b; y ← int_of_str y;
      rest ← pairs_ordered stat l;
      Ok ((x <=? y) && rest)
  end.
Fixpoint all_ordered (l : list (pystr * gmap pystr pystr)) : res bool :=
  match l with
  | [] => Ok true
  | (_, stat) :: l => here ← pairs_ordered stat comparion_key_pairs; rest ← all_ordered l; Ok (here && rest)
  end.
Fixpoint validate_seq_no_stats (l : list (pystr * list (pystr * gmap pystr pystr))) : res bool :=
  match l with
  | [] => Ok true
  | (_, vbs) :: l => here ← all_ordered vbs; rest ← validate_seq_no_stats l; Ok (here && rest)
  end.

(** ** Proofs: consistency between nodes *)

(** The number under a key. *)
Definition val (d : gmap pystr sval) (k : pystr) : option Z :=
  v ← d !! k; match sval_int v with Ok n => Some n | Err _ => None end.
Definition agree (id : pystr) (ints : list pystr) (a b : gmap pystr sval) : Prop :=
  a !! id = b !! id ∧ Forall (λ k, val a k = val b k) ints.
Definition complete (keys ints : list pystr) (d : gmap pystr sval) : Prop :=
  Forall (λ k, is_Some (d !! k)) keys ∧ Forall (λ k, is_Some (val d k)) ints.

Lemma kept_ok keys d :
  Forall (λ k, is_Some (d !! k)) keys → ∃ e, kept keys d = Ok e ∧ ∀ k, k ∈ keys → e !! k = d !! k.
Proof.
  induction 1 as [|k keys [v Hv] _ (e & He & Hk)]; [by exists ∅; split; [|set_solver]|].
  cbn. unfold dict_get. rewrite Hv. cbn. rewrite He. cbn. eexists. split; [done|]. intros k' Hk'.
  rewrite lookup_insert. case_decide; [by subst|]. apply Hk. set_solver.
Qed.
Lemma ints_differ_ok ints a b :
  Forall (λ k, is_Some (val a k)) ints → Forall (λ k, is_Some (val b k)) ints →
  ∃ r, ints_differ ints a b = Ok r ∧ (r = false ↔ Forall (λ k, val a k = val b k) ints).
Proof.
  induction ints as [|k ints IH]; [by exists false|]. intros [[x Hx] Ha]%Forall_cons [[y Hy] Hb]%Forall_cons.
  destruct (IH Ha Hb) as (r & Hr & Hiff).
  assert (∀ d n, val d k = Some n → ∃ v, d !! k = Some v ∧ sval_int v = Ok n) as Hval.
  { intros d n. unfold val. destruct (d !! k) as [v|]; [|done]. cbn. destruct (sval_int v) eqn:E; [|done].
    intros [= <-]. by exists v. }
  destruct (Hval a x Hx) as (va & Hva & Hxa), (Hval b y Hy) as (vb & Hvb & Hyb).
  cbn [ints_differ]. unfold dict_get. rewrite Hva, Hvb. cbn [of_option mbind res_bind]. rewrite Hxa, Hyb. cbn [mbind res_bind].
  rewrite Hr. cbn [mbind res_bind]. eexists. split; [done|]. rewrite Forall_cons, Hx, Hy, <- Hiff.
  case_bool_decide; subst; cbn; naive_solver.
Qed.

Section Consistency.
Variables (keys : list pystr) (id : pystr) (ints : list pystr).
Hypothesis Hid : id ∈ keys.
Hypothesis Hints : ints ⊆ keys.

Lemma agree_kept e d d' : (∀ k, k ∈ keys → e !! k = d !! k) → agree id ints e d' ↔ agree id ints d d'.
Proof.
  intros H. unfold agree. rewrite H by done.
  assert (∀ k, k ∈ ints → val e k = val d k) as Hv by (intros k Hk; unfold val; by rewrite H by auto).
  rewrite !Forall_forall. split; intros [? Hf]; (split; [done|]); intros k Hk; rewrite <- Hf by done; by rewrite Hv.
Qed.
Lemma agree_sym a b : agree id ints a b → agree id ints b a.
Proof. intros [H1 H2]. split; [done|]. rewrite Forall_forall in *. intros k Hk. by rewrite H2. Qed.
Lemma agree_trans a b c : agree id ints a b → agree id ints a c → agree id ints b c.
Proof. intros [H1 H2] [H3 H4]. split; [congruence|]. rewrite !Forall_forall in *. intros k Hk. by rewrite <- H2, <- H4. Qed.
Lemma complete_kept e d : (∀ k, k ∈ keys → e !! k = d !! k) → complete keys ints d → complete keys ints e.
Proof.
  intros H [H1 H2]. unfold complete. rewrite !Forall_forall in *. split; intros k Hk.
  - rewrite H by done. auto.
  - unfold val. rewrite H by auto. apply H2, Hk.
Qed.

Lemma seen_ok l acc :
  map_Forall (λ _, complete keys ints) acc.1 → Forall (λ vd, complete keys ints vd.2) l →
  ∃ m flag, seen_vbuckets keys id ints acc l = Ok (m, flag) ∧
    (∀ vb e, acc.1 !! vb = Some e → m !! vb = Some e) ∧ (∀ vb d, (vb, d) ∈ l → is_Some (m !! vb)) ∧
    (∀ vb e, m !! vb = Some e → acc.1 !! vb = Some e ∨ ∃ d, (vb, d) ∈ l ∧ kept keys d = Ok e) ∧
    (flag = true ↔ acc.2 = true ∧ ∀ vb d e, (vb, d) ∈ l → m !! vb = Some e → agree id ints e d).
Proof.
  intros Hacc Hl. revert acc Hacc. induction Hl as [|[vb d] l [Hk Hi] _ IH]; intros acc Hacc.
  - exists acc.1, acc.2. cbn. split_and!; [by destruct acc|done|set_solver|auto|]. split; [|naive_solver]. set_solver.
  - destruct (kept_ok keys d Hk) as (e & He & Hek). cbn [fst snd] in *.
    pose proof (complete_kept e d Hek (conj Hk Hi)) as Hce.
    cbn [seen_vbuckets]. unfold seen_step. cbn [fst snd]. rewrite He. cbn [mbind res_bind].
    destruct (acc.1 !! vb) as [first|] eqn:Ef.
    + destruct (ints_differ_ok ints first e (proj2 (Hacc _ _ Ef)) (proj2 Hce)) as (r & Hr & Hiff). rewrite Hr. cbn [mbind res_bind].
      destruct (IH (acc.1, acc.2 && bool_decide (first !! id = e !! id) && negb r) Hacc) as (m & flag & Hrun & Hold & Hin & Hfrom & Hflag).
      cbn [fst snd] in *. exists m, flag. split_and!; [done|done| | |].
      * intros vb' d' [[= -> ->]|H]%elem_of_cons; [eauto|by eapply Hin].
      * intros vb' e' H. destruct (Hfrom _ _ H) as [|(d' & ? & ?)]; [auto|]. right. exists d'. split; [set_solver|done].
      * rewrite Hflag. rewrite !andb_true_iff, bool_decide_eq_true, negb_true_iff, Hiff.
        assert (agree id ints first d ↔ agree id ints first e) as Hag.
        { split; intros H%agree_sym; apply agree_sym; by apply (agree_kept e d first Hek). }
        split.
        -- intros [[[H1 H2] H3] H4]. split; [done|]. intros vb' d' e' [[= -> ->]|H]%elem_of_cons Hm; [|by eapply H4].
           rewrite (Hold _ _ Ef) in Hm. injection Hm as <-. by apply Hag.
        -- intros [H1 H2]. destruct (proj1 Hag (H2 vb d first ltac:(set_solver) (Hold _ _ Ef))) as [H3 H4].
           split_and!; [done|done|done|]. intros vb' d' e' H. apply H2. set_solver.
    + destruct (IH (<[vb := e]> acc.1, acc.2)) as (m & flag & Hrun & Hold & Hin & Hfrom & Hflag).
      { intros vb' e' H. cbn in H. rewrite lookup_insert in H. case_decide; [by simplify_eq|by eapply Hacc]. }
      cbn [fst snd] in *. assert (m !! vb = Some e) as Hvb by (apply Hold; by rewrite lookup_insert_eq).
      exists m, flag. split_and!; [done| | | |].
      * intros vb' e' H. apply Hold. rewrite lookup_insert_ne; [done|]. intros ->. congruence.
      * intros vb' d' [[= -> ->]|H]%elem_of_cons; [eauto|by eapply Hin].
      * intros vb' e' H. destruct (Hfrom _ _ H) as [Hi'|(d' & ? & ?)]; [|right; exists d'; split; [set_solver|done]].
        rewrite lookup_insert in Hi'. case_decide; [|auto]. subst vb'. injection Hi' as <-. right. exists d. split; [set_solver|done].
      * rewrite Hflag. split; [|intros [H1 H2]; split; [done|]; intros vb' d' e' H; apply H2; set_solver].
        intros [H1 H2]. split; [done|]. intros vb' d' e' [[= -> ->]|H]%elem_of_cons Hm; [|by eapply H2].
        rewrite Hvb in Hm. injection Hm as <-. apply (agree_kept e d d Hek). by split; [|apply Forall_forall].
Qed.

(** All the nodes of a bucket say the same about every vbucket. *)
Definition nodes_agree (nodes : list (pystr * vbstats)) : Prop :=
  ∀ vb d d', (vb, d) ∈ node_vbuckets nodes → (vb, d') ∈ node_vbuckets nodes → agree id ints d d'.
(** [m] has what one of the nodes says, for all the vbuckets. *)
Definition represents (nodes : list (pystr * vbstats)) (m : vbstats) : Prop :=
  (∀ vb, is_Some (m !! vb) ↔ ∃ d, (vb, d) ∈ node_vbuckets nodes) ∧
  ∀ vb e, m !! vb = Some e → ∃ d, (vb, d) ∈ node_vbuckets nodes ∧ kept keys d = Ok e.
Definition all_complete (map1 : list (pystr * list (pystr * vbstats))) : Prop :=
  Forall (λ bn, Forall (λ vd, complete keys ints vd.2) (node_vbuckets bn.2)) map1.

Lemma kept_inv d e : kept keys d = Ok e → complete keys ints d → ∀ k, k ∈ keys → e !! k = d !! k.
Proof. intros He [Hk _]. destruct (kept_ok keys d Hk) as (e' & He' & H). rewrite He in He'. by injection He' as <-. Qed.

Lemma consistency_ok map1 logic :
  all_complete map1 →
  ∃ r flag, consistency keys id ints logic map1 = Ok (r, flag) ∧
    (flag = true ↔ logic = true ∧ Forall (λ bn, nodes_agree bn.2) map1) ∧
    Forall2 (λ bn br, bn.1 = br.1 ∧ represents bn.2 br.2) map1 r.
Proof.
  intros Hall. revert logic. induction Hall as [|[b nodes] map1 Hc Hall IH]; intros logic; cbn [fst snd] in *.
  - exists [], logic. split_and!; [done| |done]. by split; [|naive_solver].
  - destruct (seen_ok (node_vbuckets nodes) (∅, logic)) as (m & fl & Hrun & _ & Hin & Hfrom & Hfl); [|done|].
    { intros ? ? H. cbn in H. by rewrite lookup_empty in H. }
    destruct (IH fl) as (r & flag & Hrun' & Hflag & Hr). exists ((b, m) :: r), flag. split_and!.
    + cbn [consistency]. rewrite Hrun. cbn [mbind res_bind snd fst]. by rewrite Hrun'.
    + assert (∀ vb e, m !! vb = Some e → ∃ d, (vb, d) ∈ node_vbuckets nodes ∧ kept keys d = Ok e) as Hfrom'.
      { intros vb e H. destruct (Hfrom vb e H) as [H'|]; [cbn in H'; by rewrite lookup_empty in H'|done]. }
      rewrite Hflag, Forall_cons, Hfl. cbn [snd]. split.
      * intros [[H1 H2] H3]. split_and!; [done| |done]. intros vb d d' Hd Hd'.
        destruct (Hin vb d Hd) as [e He]. apply (agree_trans e); by eapply H2.
      * intros (H1 & H2 & H3). split_and!; [done| |done]. intros vb d e Hd He.
        destruct (Hfrom' vb e He) as (d0 & Hd0 & Hk). rewrite Forall_forall in Hc.
        apply (agree_kept e d0); [apply kept_inv; [done|exact (Hc _ Hd0)]|]. by apply (H2 vb).
    + constructor; [|done]. split; [done|]. cbn. split.
      * intros vb. split; [|intros [d Hd]; by eapply Hin]. intros [e He].
        destruct (Hfrom vb e He) as [H|(d & ? & _)]; [cbn in H; by rewrite lookup_empty in H|eauto].
      * intros vb e He. destruct (Hfrom vb e He) as [H|]; [cbn in H; by rewrite lookup_empty in H|done].
Qed.
Lemma compare_per_node_ok map1 :
  all_complete map1 →
  (Forall (λ bn, nodes_agree bn.2) map1 →
     ∃ r, compare_per_node keys id ints map1 = Ok r ∧ Forall2 (λ bn br, bn.1 = br.1 ∧ represents bn.2 br.2) map1 r) ∧
  (¬ Forall (λ bn, nodes_agree bn.2) map1 → compare_per_node keys id ints map1 = raise GenericException).
Proof.
  intros Hc. destruct (consistency_ok map1 true Hc) as (r & flag & Hrun & Hflag & Hr).
  unfold compare_per_node. rewrite Hrun. cbn [mbind res_bind snd fst]. split.
  - intros H. assert (flag = true) as -> by (apply Hflag; auto). eauto.
  - intros H. destruct flag; [|done]. destruct H. by apply Hflag.
Qed.
End Consistency.

(** ** Proofs: comparison with an earlier state *)

(** The comparisons of [c] hold between the values of two entries. *)
Definition entry_holds (c : cmap) (d1 d2 : gmap pystr sval) : Prop :=
  ∀ k t op v1 v2, c !! k = Some (t, op) → d1 !! k = Some v1 → d2 !! k = Some v2 →
    ∃ a b, convert_value v1 t = Ok a ∧ convert_value v2 t = Ok b ∧ op_holds op a b = true.
(** Entries that can be compared: the same keys, all of them in [c], and numbers where [c] wants numbers. *)
Definition comparable (c : cmap) (d1 d2 : gmap pystr sval) : Prop :=
  dom d1 = dom d2 ∧ dom d1 ⊆ dom c ∧
  ∀ k t op v, c !! k = Some (t, op) → (d1 !! k = Some v ∨ d2 !! k = Some v) → is_ok (convert_value v t) = true.

Lemma entry_reasons_ok c d1 d2 l :
  comparable c d1 d2 → (∀ k v, (k, v) ∈ l → d1 !! k = Some v) →
  ∃ r, entry_reasons (Some c) l d2 = Ok r ∧
    (r = ∅ ↔ ∀ k t op v1 v2, (k, v1) ∈ l → c !! k = Some (t, op) → d2 !! k = Some v2 →
       ∃ a b, convert_value v1 t = Ok a ∧ convert_value v2 t = Ok b ∧ op_holds op a b = true).
Proof.
  intros (Hdom & Hsub & Hconv). induction l as [|[k v1] l IH]; intros Hl.
  - exists ∅. split; [done|]. split; [set_solver|done].
  - destruct IH as (r & Hr & Hiff); [set_solver|]. cbn [entry_reasons].
    pose proof (Hl k v1 ltac:(set_solver)) as Hk.
    assert (k ∈ dom c) as [[t op] Hc]%elem_of_dom by (apply Hsub, elem_of_dom; eauto).
    assert (k ∈ dom d2) as [v2 H2]%elem_of_dom by (rewrite <- Hdom; apply elem_of_dom; eauto).
    pose proof (Hconv k t op v1 Hc (or_introl Hk)) as Ha. pose proof (Hconv k t op v2 Hc (or_intror H2)) as Hb.
    destruct (convert_value v1 t) as [a|] eqn:Ea; [|done]. destruct (convert_value v2 t) as [b|] eqn:Eb; [|done].
    cbn [mbind option_bind]. rewrite Hc. unfold dict_get. rewrite H2. cbn [of_option mbind res_bind].
    unfold compare_values. cbn [fst snd]. rewrite Ea, Eb. cbn [mbind res_bind]. rewrite Hr. cbn [mbind res_bind].
    eexists. split; [done|]. destruct (op_holds op a b) eqn:Eop; cbn [negb].
    + rewrite Hiff. split; [|intros H k' t' op' v1' v2' Hin; apply H; set_solver].
      intros H k' t' op' v1' v2' [[= -> ->]|Hin]%elem_of_cons Hc' H2'; [|by eapply H]. simplify_eq. eauto.
    + split; [intros E; set_solver|]. intros H. exfalso.
      destruct (H k t op v1 v2) as (a' & b' & ? & ? & ?); [set_solver|done|done|]. congruence.
Qed.
Lemma compare_entry_ok c d1 d2 :
  comparable c d1 d2 → ∃ r, compare_entry (Some c) d1 d2 = Ok r ∧ (r = ∅ ↔ entry_holds c d1 d2).
Proof.
  intros H. destruct (entry_reasons_ok c d1 d2 (map_to_list d1) H) as (r & Hr & Hiff).
  { intros k v. by rewrite elem_of_map_to_list. }
  exists r. split.
  - unfold compare_entry. destruct H as (Hd & _). rewrite <- !size_dom, Hd, Nat.eqb_refl. done.
  - rewrite Hiff. unfold entry_holds. setoid_rewrite elem_of_map_to_list. naive_solver.
Qed.
Lemma updated_items_ok (c : cmap) (l : list (pystr * gmap pystr sval)) (info2 : vbstats) :
  (∀ key d1 d2, (key, d1) ∈ l → info2 !! key = Some d2 → comparable c d1 d2) →
  ∃ u, updated_items (Some c) l info2 = Ok u ∧
    (u = ∅ ↔ ∀ key d1 d2, (key, d1) ∈ l → info2 !! key = Some d2 → entry_holds c d1 d2).
Proof.
  induction l as [|[key d1] l IH]; intros Hl; [exists ∅; split; [done|]; split; [set_solver|done]|].
  destruct IH as (u & Hu & Hiff); [intros key' d1' d2' Hin; apply Hl; by right|]. cbn [updated_items].
  destruct (info2 !! key) as [d2|] eqn:E2.
  - destruct (compare_entry_ok c d1 d2) as (r & Hr & Hre); [apply (Hl key); [by left|done]|].
    rewrite Hr. cbn [mbind res_bind]. rewrite Hu. cbn [mbind res_bind]. eexists. split; [done|]. case_bool_decide as E.
    + rewrite Hiff. split; [|intros H key' d1' d2' Hin; apply H; by right].
      intros H key' d1' d2' [[= -> ->]|Hin]%elem_of_cons H2; [|by eapply H]. simplify_eq. by apply Hre.
    + split; [intros H; by apply insert_non_empty in H|]. intros H. destruct E. apply Hre. apply (H key); [by left|done].
  - cbn [mbind res_bind]. rewrite Hu. cbn [mbind res_bind]. rewrite bool_decide_eq_true_2 by done.
    eexists. split; [done|]. rewrite Hiff. split; [|intros H key' d1' d2' Hin; apply H; by right].
    intros H key' d1' d2' [[= -> ->]|Hin]%elem_of_cons H2; [congruence|by eapply H].
Qed.

(** Nothing deleted, added or updated. *)
Definition unchanged (c : cmap) (info1 info2 : vbstats) : Prop :=
  dom info1 = dom info2 ∧ ∀ vb d1 d2, info1 !! vb = Some d1 → info2 !! vb = Some d2 → entry_holds c d1 d2.
Definition all_comparable (c : cmap) (info1 info2 : vbstats) : Prop :=
  ∀ vb d1 d2, info1 !! vb = Some d1 → info2 !! vb = Some d2 → comparable c d1 d2.
Definition no_change (r : comparison_result) : bool := analyze_one r (Some false) (Some false) (Some false).
Lemma compare_maps_ok (c : cmap) info1 info2 :
  all_comparable c info1 info2 →
  ∃ r, compare_maps (Some c) info1 info2 = Ok r ∧ (no_change r = true ↔ unchanged c info1 info2).
Proof.
  intros H. destruct (updated_items_ok c (map_to_list info1) info2) as (u & Hu & Hiff).
  { intros key d1 d2. rewrite elem_of_map_to_list. apply H. }
  setoid_rewrite elem_of_map_to_list in Hiff.
  unfold compare_maps. rewrite Hu. cbn [mbind res_bind]. eexists. split; [done|].
  unfold no_change, analyze_one, analyze_result, has_deleted, has_added, has_updated, unchanged. cbn [deletedItems addedItems updatedItems].
  rewrite !andb_true_iff, !bool_decide_eq_true, !negb_false_iff, !bool_decide_eq_true, Hiff.
  assert (dom info1 ∖ dom info2 = ∅ ∧ dom info2 ∖ dom info1 = ∅ ↔ dom info1 = dom info2) as Hd.
  { split; [|intros ->; set_solver]. intros [H1 H2]. apply set_eq. intros x. split; intros Hx; apply dec_stable; set_solver. }
  rewrite Hd. done.
Qed.
Lemma compare_stats_ok (c : cmap) (prev : list (pystr * vbstats)) (new : gmap pystr vbstats) :
  (∀ b info1, (b, info1) ∈ prev → ∃ info2, new !! b = Some info2 ∧ all_comparable c info1 info2) →
  ∃ r, compare_stats_dataset (Some c) prev new = Ok r ∧
    (analyze_all_result r (Some false) (Some false) (Some false) = true ↔
       ∀ b info1 info2, (b, info1) ∈ prev → new !! b = Some info2 → unchanged c info1 info2).
Proof.
  induction prev as [|[b info1] prev IH]; intros Hp; [exists []; split; [done|]; split; [set_solver|done]|].
  destruct IH as (r & Hr & Hiff); [intros b' i1 Hin; apply Hp; by right|]. destruct (Hp b info1) as (info2 & Hb & Hc); [by left|].
  destruct (compare_maps_ok c info1 info2 Hc) as (r0 & Hr0 & H0). cbn [compare_stats_dataset].
  unfold dict_get. rewrite Hb. cbn [of_option mbind res_bind]. rewrite Hr0. cbn [mbind res_bind]. rewrite Hr. cbn [mbind res_bind].
  eexists. split; [done|]. unfold analyze_all_result in *. cbn [forallb snd]. fold (no_change r0).
  rewrite andb_true_iff, Hiff, H0. split.
  - intros [H1 H2] b' i1 i2 [[= -> ->]|Hin]%elem_of_cons Hb'; [by simplify_eq|by eapply H2].
  - intros H. split; [apply (H b); [by left|done]|]. intros b' i1 i2 Hin. apply H. by right.
Qed.

(** A key without a comparison. *)
Lemma entry_reasons_fails (c : cmap) (d2 : gmap pystr sval) (l : list (pystr * sval)) (k : pystr) (v : sval) : (k, v) ∈ l → c !! k = None → is_ok (entry_reasons (Some c) l d2) = false.
Proof.
  intros Hin Hk. induction l as [|[k' v'] l IH]; [set_solver|]. cbn [entry_reasons mbind option_bind].
  apply elem_of_cons in Hin as [[= -> ->]|Hin]; [by rewrite Hk|]. destruct (c !! k') as [logic|]; [|done].
  destruct (dict_get d2 k'); [|done]. cbn [mbind res_bind]. destruct (compare_values v' a logic); [|done]. cbn [mbind res_bind].
  specialize (IH Hin). by destruct (entry_reasons (Some c) l d2).
Qed.
Lemma updated_items_fails (c : option cmap) (l : list (pystr * gmap pystr sval)) (info2 : vbstats) (key : pystr) (d1 d2 : gmap pystr sval) :
  (key, d1) ∈ l → info2 !! key = Some d2 → is_ok (compare_entry c d1 d2) = false → is_ok (updated_items c l info2) = false.
Proof.
  intros Hin H2 Hf. induction l as [|[key' d1'] l IH]; [set_solver|]. cbn [updated_items].
  apply elem_of_cons in Hin as [[= -> ->]|Hin].
  - rewrite H2. by destruct (compare_entry c d1' d2).
  - specialize (IH Hin). destruct (match info2 !! key' with Some _ => _ | None => _ end); [|done].
    cbn [mbind res_bind]. by destruct (updated_items c l info2).
Qed.
Lemma compare_stats_fails (c : option cmap) (l : list (pystr * vbstats)) (m2 : gmap pystr vbstats) (b : pystr) (info1 info2 : vbstats) :
  (b, info1) ∈ l → m2 !! b = Some info2 → is_ok (compare_maps c info1 info2) = false → is_ok (compare_stats_dataset c l m2) = false.
Proof.
  intros Hin H2 Hf. induction l as [|[b' i1] l IH]; [set_solver|]. cbn [compare_stats_dataset].
  apply elem_of_cons in Hin as [[= -> ->]|Hin].
  - unfold dict_get. rewrite H2. cbn [of_option mbind res_bind]. by destruct (compare_maps c i1 info2).
  - specialize (IH Hin). destruct (dict_get m2 b'); [|done]. cbn [mbind res_bind]. destruct (compare_maps c i1 a); [|done].
    cbn [mbind res_bind]. by destruct (compare_stats_dataset c l m2).
Qed.

(** ** Proofs: DCP statistics *)

Section Dcp.
Variable fetch : pystr → pystr → pystr → res (list (pystr * pystr)).
Lemma dcp_fold_names b sn cv bs fl m stats m' n :
  dcp_fold b sn cv bs fl m stats = Ok m' → m' !! KName n = m !! KName n.
Proof.
  revert m. induction stats as [|[key v] stats IH]; intros m; cbn [dcp_fold]; [by intros [= <-]|].
  intros (m1 & H1 & H)%res_bind_inv. rewrite (IH _ H). destruct (contains sn key); [|by injection H1 as <-].
  apply res_bind_inv in H1 as (value & _ & [= <-]). case_match; [|done]. by rewrite lookup_insert_ne.
Qed.
Lemma dcp_servers_names servers b sn cv bs fl m m' n :
  dcp_servers fetch servers b sn cv bs fl m = Ok m' → m' !! KName n = m !! KName n.
Proof.
  revert m. induction servers as [|s servers IH]; intros m; cbn [dcp_servers]; [by intros [= <-]|].
  intros (stats & _ & (m1 & H1 & H)%res_bind_inv)%res_bind_inv. rewrite (IH _ H). by eapply dcp_fold_names.
Qed.
Lemma dcp_buckets_names buckets servers sn cv bs fl m m' n :
  dcp_buckets fetch buckets servers sn cv bs fl m = Ok m' → m' !! KName n = m !! KName n.
Proof.
  revert m. induction buckets as [|b buckets IH]; intros m; cbn [dcp_buckets]; [by intros [= <-]|].
  intros (m1 & H1 & H)%res_bind_inv. rewrite (IH _ H). by eapply dcp_servers_names.
Qed.
End Dcp.
Lemma all_true (buckets : list kv_bucket) (m : gmap dcp_key bool) n :
  (n ∈ kb_name <$> buckets ∨ m !! KName n = Some true) → foldl (λ m b, <[KName (kb_name b) := true]> m) m buckets !! KName n = Some true.
Proof.
  revert m. induction buckets as [|b buckets IH]; intros m; cbn; [intros [H|H]; [set_solver|done]|].
  intros H. apply IH. destruct (decide (n = kb_name b)) as [->|Hne]; [right; by rewrite lookup_insert_eq|].
  destruct H as [[H|H]%elem_of_cons|H]; [done|auto|]. right. rewrite lookup_insert_ne; [done|congruence].
Qed.

(** ** Proofs: distributions *)

Lemma sum_cons v l : sum (v :: l) = v + sum l.
Proof. done. Qed.
Definition squares (l : list Z) : Z := sum ((λ v, v * v) <$> l).
Definition distances (x : Z) (l : list Z) : Z := sum ((λ v, (v - x) * (v - x)) <$> l).
Lemma distances_eq x l : distances x l = squares l - 2 * x * sum l + len l * (x * x).
Proof.
  unfold distances, squares. induction l as [|v l IH]; [unfold sum, len; cbn [fmap list_fmap foldr length]; lia|]. cbn [fmap list_fmap]. rewrite !sum_cons, IH, len_cons. ring.
Qed.
Lemma distances_nonneg x l : 0 ≤ distances x l ∧ (distances x l = 0 ↔ Forall (λ v, v = x) l).
Proof.
  unfold distances. induction l as [|v l [IH1 IH2]]; [by split|]. cbn [fmap list_fmap]. rewrite !sum_cons, Forall_cons, <- IH2.
  pose proof (Z.square_nonneg (v - x)) as Hsq. split; [lia|]. split; [|intros [-> ->]; lia].
  intros H. assert ((v - x) * (v - x) = 0) as [?|?]%Z.mul_eq_0 by lia; split; lia.
Qed.
Definition spread (l : list Z) : Z := len l * squares l - sum l * sum l.
Lemma spread_cons x l : spread (x :: l) = spread l + distances x l.
Proof. unfold spread. rewrite distances_eq. unfold squares. cbn [fmap list_fmap]. rewrite !sum_cons, len_cons. ring. Qed.
Lemma spread_nonneg l : 0 ≤ spread l.
Proof.
  induction l as [|x l IH]; [done|]. rewrite spread_cons. pose proof (distances_nonneg x l). lia.
Qed.
Lemma spread_zero x l : spread (x :: l) = 0 ↔ Forall (λ v, v = x) l.
Proof.
  revert x. induction l as [|y l IH]; intros x.
  - split; [done|]. intros _. unfold spread, squares, sum, len. cbn [fmap list_fmap foldr length]. lia.
  - rewrite spread_cons. pose proof (distances_nonneg x (y :: l)) as [H1 H2]. pose proof (spread_nonneg (y :: l)) as H3.
    rewrite <- H2. split; [lia|]. intros H. assert (spread (y :: l) = 0); [|lia]. apply IH.
    apply H2, Forall_cons in H as [-> H]. done.
Qed.
Lemma foldl_max_spec l a : a ≤ foldl Z.max a l ∧ Forall (λ v, v ≤ foldl Z.max a l) l ∧ foldl Z.max a l ∈ a :: l.
Proof.
  revert a. induction l as [|v l IH]; intros a; cbn; [split_and!; [lia|done|set_solver]|].
  destruct (IH (Z.max a v)) as (H1 & H2 & H3). split_and!; [lia|constructor; [lia|done]|].
  apply elem_of_cons in H3 as [->|H3]; [|set_solver]. destruct (Z.max_spec a v) as [[_ ->]|[_ ->]]; set_solver.
Qed.
Lemma foldl_min_spec l a : foldl Z.min a l ≤ a ∧ Forall (λ v, foldl Z.min a l ≤ v) l ∧ foldl Z.min a l ∈ a :: l.
Proof.
  revert a. induction l as [|v l IH]; intros a; cbn; [split_and!; [lia|done|set_solver]|].
  destruct (IH (Z.min a v)) as (H1 & H2 & H3). split_and!; [lia|constructor; [lia|done]|].
  apply elem_of_cons in H3 as [->|H3]; [|set_solver]. destruct (Z.min_spec a v) as [[_ ->]|[_ ->]]; set_solver.
Qed.
Lemma sum_bounds a b l : Forall (λ v, a ≤ v ≤ b) l → a * len l ≤ sum l ≤ b * len l.
Proof. induction 1 as [|v l Hv _ IH]; [unfold sum, len; cbn [foldr length]; lia|]. rewrite sum_cons, len_cons. lia. Qed.

(** ** Theorems *)

(** C33: [compare_per_node_for_vbucket_consistency] accepts the statistics of the nodes exactly when all the nodes that have a
    vbucket agree on its uuid (and on its sequence numbers, where that is asked for), and then returns for every
    vbucket what one of them says; otherwise it raises. *)
Theorem nodes_consistent (map1 : list (pystr * list (pystr * vbstats))) (ch cp : bool) :
  let ints := (if ch then [py "abs_high_seqno"] else []) ++ (if cp then [py "purge_seqno"] else []) in
  all_complete seqno_keys ints map1 →
  (Forall (λ bn, nodes_agree (py "uuid") ints bn.2) map1 →
     ∃ r, compare_per_node_for_vbucket_consistency map1 ch cp = Ok r ∧
          Forall2 (λ bn br, bn.1 = br.1 ∧ represents seqno_keys bn.2 br.2) map1 r) ∧
  (¬ Forall (λ bn, nodes_agree (py "uuid") ints bn.2) map1 →
     compare_per_node_for_vbucket_consistency map1 ch cp = raise GenericException).
Proof.
  intros ints. apply compare_per_node_ok; [by left|].
  intros k Hk. unfold ints, seqno_keys in *. destruct ch, cp; set_solver.
Qed.

(** [compare_vbucket_seqnos] accepts the new statistics exactly when every bucket has the same vbuckets as before and, for each of
    them, the same uuid and sequence numbers in the relation that is asked for to the earlier ones (the purge sequence
    number as text); otherwise it raises. *)
Theorem seqnos_compared (fetch : pystr → pystr → pystr → res (list (pystr * pystr)))
    (servers : list server) (buckets : list kv_bucket) (prev new : list (pystr * vbstats)) (op : cop) :
  get_vbucket_seqnos fetch servers buckets = Ok new →
  (∀ b info1, (b, info1) ∈ prev → ∃ info2, (list_to_map new : gmap pystr vbstats) !! b = Some info2 ∧ all_comparable (seqno_cmap op) info1 info2) →
  let same := ∀ b info1 info2, (b, info1) ∈ prev → (list_to_map new : gmap pystr vbstats) !! b = Some info2 → unchanged (seqno_cmap op) info1 info2 in
  (same → compare_vbucket_seqnos fetch prev servers buckets op = Ok new) ∧
  (¬ same → compare_vbucket_seqnos fetch prev servers buckets op = raise GenericException).
Proof.
  intros Hnew Hp same. destruct (compare_stats_ok (seqno_cmap op) prev (list_to_map new) Hp) as (r & Hr & Hiff).
  fold same in Hiff. unfold compare_vbucket_seqnos. rewrite Hnew. cbn [mbind res_bind]. rewrite Hr. cbn [mbind res_bind].
  destruct (analyze_all_result r (Some false) (Some false) (Some false)); split; intros H; try done; [by destruct H; apply Hiff|].
  by apply Hiff in H.
Qed.

(** Per node, the comparison fails on any vbucket with a statistic besides the uuid and the two sequence numbers: the code then reads a
    variable that does not exist. *)
Theorem per_node_comparison_fails (prev : list (pystr * gmap pystr vbstats)) (new : gmap pystr (gmap pystr vbstats)) (op : cop)
    (b n vb k : pystr) (nodes1 nodes2 : gmap pystr vbstats) (info1 info2 : vbstats) (d1 d2 : gmap pystr sval) (v : sval) :
  (b, nodes1) ∈ prev → new !! b = Some nodes2 → nodes1 !! n = Some info1 → nodes2 !! n = Some info2 →
  info1 !! vb = Some d1 → info2 !! vb = Some d2 → size d1 = size d2 → d1 !! k = Some v → k ∉ seqno_keys →
  is_ok (compare_per_node_stats_dataset (Some (seqno_cmap op)) prev new) = false.
Proof.
  intros Hb Hn Hn1 Hn2 Hv1 Hv2 Hsize Hk Hkeys.
  assert (is_ok (compare_maps (Some (seqno_cmap op)) info1 info2) = false) as Hm.
  { unfold compare_maps. pose proof (updated_items_fails (Some (seqno_cmap op)) (map_to_list info1) info2 vb d1 d2) as H.
    destruct (updated_items _ _ _); [|done]. apply H; [by apply elem_of_map_to_list|done|].
    unfold compare_entry. rewrite Hsize, Nat.eqb_refl. apply (entry_reasons_fails _ _ _ k v); [by apply elem_of_map_to_list|].
    unfold seqno_cmap, seqno_keys in *. apply not_elem_of_list_to_map. set_solver. }
  induction prev as [|[b' nodes'] prev IH]; [set_solver|]. cbn [compare_per_node_stats_dataset].
  apply elem_of_cons in Hb as [[= <- <-]|Hb].
  - unfold dict_get. rewrite Hn. cbn [of_option mbind res_bind].
    pose proof (compare_stats_fails (Some (seqno_cmap op)) (map_to_list nodes1) nodes2 n info1 info2) as H.
    destruct (compare_stats_dataset _ _ _); [|done].
    assert (true = false); [apply H; [by apply elem_of_map_to_list|done|done]|done].
  - specialize (IH Hb). destruct (dict_get new b'); [|done]. cbn [mbind res_bind].
    destruct (compare_stats_dataset _ _ _); [|done]. cbn [mbind res_bind].
    by destruct (compare_per_node_stats_dataset (Some (seqno_cmap op)) prev new).
Qed.

(** [collect_compare_dcp_stats] says "satisfied" for every bucket whatever the nodes answer: a mismatch is recorded under the
    bucket object, not its name. *)
Theorem dcp_check_blind (fetch : pystr → pystr → pystr → res (list (pystr * pystr))) (buckets : list kv_bucket)
    (servers : list server) (stat_name : pystr) (cv bs : Z) (fl : list pystr) (m : gmap dcp_key bool) :
  collect_compare_dcp_stats fetch buckets servers stat_name cv bs fl = Ok m →
  Forall (λ b, m !! KName (kb_name b) = Some true) buckets.
Proof.
  intros H. apply Forall_forall. intros b Hb. unfold collect_compare_dcp_stats in H.
  rewrite (dcp_buckets_names _ _ _ _ _ _ _ _ _ _ H). apply all_true. left. by apply list_elem_of_fmap_2.
Qed.

(** [analyze_vb_nums] of a non-empty list gives its smallest and largest number, both of the list; the mean is between them; the
    squared deviation is never negative, and it is zero exactly when all the numbers are the same. *)
Theorem distribution_bounds (array : list Z) :
  array ≠ [] →
  ∃ d, analyze_vb_nums array = Ok d ∧ d_min d ∈ array ∧ d_max d ∈ array ∧ Forall (λ v, d_min d ≤ v ≤ d_max d) array ∧
    total d = sum array ∧ count d = len array ∧ d_min d * count d ≤ total d ≤ d_max d * count d ∧
    0 ≤ dev2 d ∧ (dev2 d = 0 ↔ d_min d = d_max d).
Proof.
  destruct array as [|v vs]; [done|]. intros _. eexists. split; [done|]. cbn [d_max d_min total count dev2].
  destruct (foldl_max_spec vs v) as (M1 & M2 & M3), (foldl_min_spec vs v) as (m1 & m2 & m3).
  set (mx := foldl Z.max v vs) in *. set (mn := foldl Z.min v vs) in *.
  assert (Forall (λ x, mn ≤ x ≤ mx) (v :: vs)) as Hall.
  { constructor; [lia|]. rewrite Forall_forall in *. intros x Hx. split; auto. }
  fold (squares (v :: vs)). fold (spread (v :: vs)). pose proof (sum_bounds _ _ _ Hall) as [B1 B2].
  split_and!; [done..|exact B1|exact B2|apply spread_nonneg|].
  rewrite spread_zero. split.
  - intros Heq. rewrite Forall_forall in Heq.
    assert (∀ x, x ∈ v :: vs → x = v) as Hx by (intros x [->|?]%elem_of_cons; auto). by rewrite (Hx _ M3), (Hx _ m3).
  - intros E. apply Forall_forall. intros x Hx. rewrite Forall_forall in Hall. pose proof (Hall x). pose proof (Hall v).
    assert (mn ≤ x ≤ mx) by (apply Hall; set_solver). assert (mn ≤ v ≤ mx) by (apply Hall; set_solver). lia.
Qed.

(** Sequence numbers are compared as text in places: with "<=" a purge sequence number that grows from 9 to 10 is reported (as numbers it would
    not be), and [compare_vbucketseq_failoverlogs] raises for a vbucket at 10 with a log at 9 and accepts one at 9 with a log at 10. *)
Theorem compared_as_text :
  compare_values (SStr (py "9")) (SStr (py "10")) (TyString, OpLe) = Ok true ∧
  compare_values (SStr (py "9")) (SStr (py "10")) (TyLong, OpLe) = Ok false ∧
  let at_ (seq fseq : string) :=
    compare_vbucketseq_failoverlogs
      [(py "b", {[py "vb_0" := list_to_map [(py "abs_high_seqno", SStr (py seq)); (py "uuid", SStr (py "u"))]]})]
      {[py "b" := {[py "vb_0" := list_to_map [(py "seq", SStr (py fseq)); (py "id", SStr (py "u"))]]}]} in
  at_ "10"%string "9"%string = raise GenericException ∧ at_ "9"%string "10"%string = Ok tt.
Proof. split; [|split; [|intros at_; split]]; vm_compute; reflexivity. Qed.

(** What [collect_failovers_stats] keeps of a vbucket depends on the order in which Python iterates over the dictionary: of a log with two
    entries it can return the uuid of one with the sequence number of the other. *)
Theorem failover_entries_mixed :
  let e (k v : string) := (py k, py v) in
  let l1 := [e "0:id" "a"; e "0:seq" "1"; e "1:id" "b"; e "1:seq" "2"]%string in
  let l2 := [e "0:id" "a"; e "1:id" "b"; e "1:seq" "2"; e "0:seq" "1"]%string in
  l1 ≡ₚ l2 ∧
  failover_entries None l1 = Ok (Some (list_to_map [e "id" "b"; e "seq" "2"]%string, 0)) ∧
  failover_entries None l2 = Ok (Some (list_to_map [e "id" "b"; e "seq" "1"]%string, 0)).
Proof.
  intros e l1 l2. split; [|split; by_evaluation].
  apply perm_skip. apply (Permutation_app_comm [e "0:seq"%string "1"%string] [e "1:id"%string "b"%string; e "1:seq"%string "2"%string]).
Qed.

(** [collect_vbucket_stats] does not return the union that it documents: for a vbucket in the answer to "vbucket-seqno" the entry is exactly those
    statistics, and the state that was collected before is gone. *)
Theorem vbucket_state_lost (fetch : pystr → pystr → pystr → res (list (pystr * pystr))) (s : server) (b num : pystr)
    (r : gmap pystr (gmap pystr pystr)) (d : vbstats) (e : gmap pystr pystr) :
  vbucket_seqno (fetch (ip s)) b = Ok r → server_stats fetch s b true true false = Ok d → r !! num = Some e →
  d !! (py "vb_" ++ num) = Some (fmap (M := gmap pystr) SStr e).
Proof.
  intros Hr Hd He. unfold server_stats in Hd. apply res_bind_inv in Hd as (d0 & _ & Hd). rewrite Hr in Hd. cbn [mbind res_bind] in Hd.
  injection Hd as <-. unfold update, with_prefix. apply lookup_union_Some_l.
  rewrite (lookup_kmap (app (py "vb_"))) by (intros x y; apply app_inv_head). by rewrite lookup_fmap, He.
Qed.

(** ** Witnesses *)

Definition demo_entry : gmap pystr sval :=
  list_to_map [(py "uuid", SStr (py "u")); (py "abs_high_seqno", SStr (py "7")); (py "purge_seqno", SStr (py "0"))].
Definition demo_info : vbstats := {[py "vb_0" := demo_entry]}.
Definition demo_map1 : list (pystr * list (pystr * vbstats)) := [(py "b", [(py "n1", demo_info); (py "n2", demo_info)])].
Lemma demo_vbuckets : node_vbuckets [(py "n1", demo_info); (py "n2", demo_info)] = [(py "vb_0", demo_entry); (py "vb_0", demo_entry)].
Proof. by_evaluation. Qed.
Lemma nodes_consistent_witness :
  ∃ r, compare_per_node_for_vbucket_consistency demo_map1 true false = Ok r ∧ length r = 1%nat.
Proof.
  destruct (nodes_consistent demo_map1 true false) as [Hok _].
  - constructor; [|constructor]. cbn [snd]. rewrite demo_vbuckets. repeat constructor; vm_compute; by eexists.
  - destruct Hok as (r & Hr & Hf).
    + constructor; [|constructor]. cbn [snd]. intros vb d d'. rewrite demo_vbuckets. intros Hd Hd'.
      assert (∀ x, (vb, x) ∈ [(py "vb_0", demo_entry); (py "vb_0", demo_entry)] → x = demo_entry) as Hx.
      { intros x Hx. apply elem_of_cons in Hx as [[= _ ->]|Hx]; [done|]. apply list_elem_of_singleton in Hx. by injection Hx as _ ->. }
      rewrite (Hx d Hd), (Hx d' Hd'). split; [done|]. by apply Forall_forall.
    + exists r. split; [exact Hr|]. by apply Forall2_length in Hf.
Defined.

(** A node that answers with the three statistics of one vbucket. *)
Definition demo_node (_ _ stat : pystr) : res (list (pystr * pystr)) :=
  Ok (stat_line <$> [(py "0", py "uuid", py "u"); (py "0", py "abs_high_seqno", py "7"); (py "0", py "purge_seqno", py "0")]).
Lemma demo_comparable : comparable (seqno_cmap OpLe) demo_entry demo_entry.
Proof.
  split; [done|]. split; [apply (bool_decide_unpack _); vm_compute; exact I|].
  intros k t op v Hc Hv. assert (demo_entry !! k = Some v) as Hk by naive_solver.
  apply elem_of_list_to_map_2 in Hk. repeat (apply elem_of_cons in Hk as [[= -> ->]|Hk]); [..|set_solver];
    vm_compute in Hc; injection Hc as <- <-; vm_compute; reflexivity.
Qed.
Lemma demo_info_lookup vb d : demo_info !! vb = Some d → d = demo_entry.
Proof. unfold demo_info. by intros [_ <-]%lookup_singleton_Some. Qed.
Lemma seqnos_compared_witness :
  compare_vbucket_seqnos demo_node [(py "b", demo_info)] [Server (py "n1"); Server (py "n2")] [KvBucket (py "b") false] OpLe =
    Ok [(py "b", demo_info)].
Proof.
  apply (seqnos_compared demo_node [Server (py "n1"); Server (py "n2")] [KvBucket (py "b") false]
    [(py "b", demo_info)] [(py "b", demo_info)] OpLe).
  - by_evaluation.
  - intros b info1 [= -> ->]%list_elem_of_singleton. exists demo_info. split; [apply lookup_insert_eq|].
    intros vb d1 d2 ->%demo_info_lookup ->%demo_info_lookup. apply demo_comparable.
  - intros b info1 info2 [= -> ->]%list_elem_of_singleton H.
    assert ((list_to_map [(py "b", demo_info)] : gmap pystr vbstats) !! py "b" = Some demo_info) as Hb by apply lookup_insert_eq.
    rewrite Hb in H. injection H as <-. split; [done|].
    intros vb d1 d2 ->%demo_info_lookup ->%demo_info_lookup.
    intros k t op v1 v2 Hc Hv1 Hv2. rewrite Hv1 in Hv2. injection Hv2 as <-.
    apply elem_of_list_to_map_2 in Hv1. repeat (apply elem_of_cons in Hv1 as [[= -> ->]|Hv1]); [..|set_solver];
      vm_compute in Hc; injection Hc as <- <-; eexists _, _; split_and!; vm_compute; reflexivity.
Defined.

Lemma per_node_comparison_fails_witness :
  let d := <[py "high_seqno" := SStr (py "7")]> demo_entry in
  let nodes := {[py "n1" := {[py "vb_0" := d]}]} in
  is_ok (compare_per_node_stats_dataset (Some (seqno_cmap OpLe)) [(py "b", nodes)] {[py "b" := nodes]}) = false.
Proof.
  intros d nodes.
  apply (per_node_comparison_fails _ _ OpLe (py "b") (py "n1") (py "vb_0") (py "high_seqno") nodes nodes
    {[py "vb_0" := d]} {[py "vb_0" := d]} d d (SStr (py "7"))).
  - by left.
  - apply lookup_singleton_eq.
  - apply lookup_singleton_eq.
  - apply lookup_singleton_eq.
  - apply lookup_singleton_eq.
  - apply lookup_singleton_eq.
  - reflexivity.
  - apply lookup_insert_eq.
  - apply (bool_decide_unpack _). vm_compute. exact I.
Defined.

(** A node with a million unacknowledged bytes. *)
Lemma dcp_check_blind_witness :
  let f := λ _ _ _ : pystr, Ok [(py "eq_dcpq:replication:x:unacked_bytes", py "1000000")] in
  ∃ m, collect_compare_dcp_stats f [KvBucket (py "b") false] [Server (py "n")] (py "unacked_bytes") 0 20971520 [] = Ok m ∧
    m !! KName (py "b") = Some true.
Proof.
  intros f.
  assert (is_ok (collect_compare_dcp_stats f [KvBucket (py "b") false] [Server (py "n")] (py "unacked_bytes") 0 20971520 []) = true) as Hok
    by by_evaluation.
  destruct (collect_compare_dcp_stats f [KvBucket (py "b") false] [Server (py "n")] (py "unacked_bytes") 0 20971520 []) as [m|] eqn:E;
    [|discriminate Hok].
  exists m. split; [reflexivity|].
  pose proof (dcp_check_blind f [KvBucket (py "b") false] [Server (py "n")] (py "unacked_bytes") 0 20971520 [] m E) as H.
  by apply Forall_cons in H as [H _].
Defined.

Lemma distribution_bounds_witness : ∃ d, analyze_vb_nums [342; 341; 341] = Ok d ∧ total d = 1024 ∧ 0 ≤ dev2 d.
Proof.
  destruct (distribution_bounds [342; 341; 341]) as (d & Hd & _ & _ & _ & Ht & _ & _ & Hn & _); [discriminate|].
  exists d. split; [exact Hd|]. split; [rewrite Ht; vm_compute; reflexivity|exact Hn].
Defined.

Lemma vbucket_state_lost_witness :
  let f := λ _ _ stat : pystr, if str_eqb stat (py "vbucket") then Ok [(py "vb_0", py "active")]
                               else Ok [(py "vb_0:uuid", py "u")] in
  ∃ d, server_stats f (Server (py "n")) (py "b") true true false = Ok d ∧ d !! py "vb_0" = Some {[py "uuid" := SStr (py "u")]}.
Proof.
  intros f.
  assert (is_ok (server_stats f (Server (py "n")) (py "b") true true false) = true) as Hok by by_evaluation.
  destruct (server_stats f (Server (py "n")) (py "b") true true false) as [d|] eqn:E; [|discriminate Hok].
  exists d. split; [reflexivity|]. rewrite <- (map_fmap_singleton SStr). change (py "vb_0") with (py "vb_" ++ py "0").
  apply (vbucket_state_lost f (Server (py "n")) (py "b") (py "0") {[py "0" := {[py "uuid" := py "u"]}]} d {[py "uuid" := py "u"]}).
  - by_evaluation.
  - exact E.
  - apply lookup_singleton_eq.
Defined.
