(* ===== verification/SdkPool.v ===== *)
(** * lib/sdk_client3.py: the pool of SDK clients

    [SDKClientPool] shares SDK clients among the threads of the load tasks: per bucket it keeps
    idle and busy clients and, in the same dictionary, one entry per collection in use with a
    reference count, under the name of the scope followed by the name of the collection.  Clients are objects with
    an identity, so they live in a store.  What a thread does while it holds the lock of a bucket is one step;
    a lock that is never released shows as [Blocked]. *)

From S2P Require Import Prelude Py Bucket.
Local Open Scope string_scope.
Local Open Scope list_scope.
Local Open Scope Z_scope.

(** ** The objects *)

(** [SDKClient]: the names it was told to select, and the collection that its operations
    go to. *)
Record client := Client {
  cl_bucket : pystr;
  scope_name : pystr;
  collection_name : pystr;
  handle : pystr * pystr
}.

(** [SDKClient.select_collection] *)
Definition select_collection (s k : pystr) (c : client) : client :=
  Client (cl_bucket c) s k
    (if bool_decide (k ≠ CbServer.default_collection) then (s, k)
     else (CbServer.default_scope, CbServer.default_collection)).
(** [SDKClient.__init__] with the default scope and collection. *)
Definition new_client (b : pystr) : client :=
  select_collection CbServer.default_scope CbServer.default_collection (Client b [] [] ([], [])).

(** [self.clients[bucket.name]]: three fixed keys, and the entries of the collections with
    "client" and "counter". *)
Record bpool := BPool {
  lock : bool;
  idle_clients : list nat;
  busy_clients : list nat;
  cols : gmap pystr (nat * Z)
}.
Definition reserved : list pystr := [py "lock"; py "idle_clients"; py "busy_clients"].

Record pool := Pool {
  clients : gmap pystr bpool;
  heap : gmap nat client;
  closed : list nat
}.

Definition set_clients (f : gmap pystr bpool → gmap pystr bpool) (p : pool) : pool :=
  Pool (f (clients p)) (heap p) (closed p).
Definition set_heap (f : gmap nat client → gmap nat client) (p : pool) : pool :=
  Pool (clients p) (f (heap p)) (closed p).
Definition set_lock (l : bool) (x : bpool) : bpool := BPool l (idle_clients x) (busy_clients x) (cols x).
Definition set_cols (f : gmap pystr (nat * Z) → gmap pystr (nat * Z)) (x : bpool) : bpool :=
  BPool (lock x) (idle_clients x) (busy_clients x) (f (cols x)).
Definition set_lists (i b : list nat) (x : bpool) : bpool := BPool (lock x) i b (cols x).

Definition bucket_pool (b : pystr) : M pool bpool :=
  p ← get; lift (dict_get (clients p) b).
Definition on_bucket (b : pystr) (f : bpool → bpool) : M pool unit := modify (set_clients (alter f b)).

(** [self.clients[bucket.name]["lock"].acquire()] and [release()] *)
Definition acquire (b : pystr) : M pool unit :=
  x ← bucket_pool b;
  if lock x then mraise Blocked else on_bucket b (set_lock true).
Definition release (b : pystr) : M pool unit :=
  x ← bucket_pool b;
  if lock x then on_bucket b (set_lock false) else mraise ThreadError.

(** ** The operations *)

(** [shutdown] *)
Definition shutdown (p : pool) : pool :=
  Pool ∅ (heap p)
    (closed p ++ concat ((λ bx : pystr * bpool, idle_clients bx.2 ++ busy_clients bx.2) <$> map_to_list (clients p))).

(** [create_clients]; [connect] is the outcome of the connection of a new client. *)
Definition empty_bpool : bpool := BPool false [] [] ∅.
Definition create_client (connect : nat → res unit) (b : pystr) : M pool unit :=
  p ← get;
  let c := fresh (dom (heap p)) in
  _ ← lift (connect c);
  _ ← modify (set_heap (<[c := new_client b]>));
  on_bucket b (λ x, set_lists (idle_clients x ++ [c]) (busy_clients x) x).
Definition create_clients (connect : nat → res unit) (b : pystr) (req_clients : Z) : M pool unit :=
  _ ← modify (set_clients (λ m, match m !! b with Some _ => m | None => <[b := empty_bpool]> m end));
  mfor (replicate (Z.to_nat req_clients) tt) (λ _, create_client connect b).

(** A round of the loop of [get_client_for_bucket]: [None] when the round ends without a client. *)
Definition get_attempt (b s k : pystr) : M pool (option nat) :=
  let col_name := s ++ k in
  _ ← acquire b;
  x ← bucket_pool b;
  r ← (if bool_decide (col_name ∈ reserved) then mraise TypeError
       else match cols x !! col_name with
            | Some (c, n) => _ ← on_bucket b (set_cols (<[col_name := (c, n + 1)]>)); mret (Some c)
            | None =>
                match last (idle_clients x) with
                | Some c =>
                    _ ← on_bucket b (λ x, set_lists (removelast (idle_clients x)) (busy_clients x) x);
                    _ ← modify (set_heap (alter (select_collection s k) c));
                    _ ← on_bucket b (λ x, set_lists (idle_clients x) (busy_clients x ++ [c]) x);
                    _ ← on_bucket b (set_cols (<[col_name := (c, 1)]>));
                    mret (Some c)
                | None => mret None
                end
            end);
  _ ← release b;
  mret r.

(** [get_client_for_bucket], by a thread alone: [None] for a bucket without pool, else rounds until one
    gives a client. *)
Fixpoint get_loop (fuel : nat) (b s k : pystr) : M pool nat :=
  match fuel with
  | O => mraise Blocked
  | S fuel => r ← get_attempt b s k; match r with Some c => mret c | None => get_loop fuel b s k end
  end.
Definition get_client_for_bucket (fuel : nat) (b s k : pystr) : M pool (option nat) :=
  p ← get;
  match clients p !! b with
  | None => mret None
  | Some _ => c ← get_loop fuel b s k; mret (Some c)
  end.

(** [list.remove(x)] *)
Fixpoint list_remove (c : nat) (l : list nat) : res (list nat) :=
  match l with
  | [] => raise ValueError
  | d :: l => if bool_decide (d = c) then Ok l else l' ← list_remove c l; Ok (d :: l')
  end.

(** [release_client] *)
Definition release_client (c : nat) : M pool unit :=
  p ← get;
  cl ← lift (of_option AttributeError (heap p !! c));
  let b := cl_bucket cl in
  match clients p !! b with
  | None => mret tt
  | Some _ =>
      let col_name := scope_name cl ++ collection_name cl in
      _ ← acquire b;
      x ← bucket_pool b;
      _ ← (if bool_decide (col_name ∈ reserved) then mraise TypeError
           else
             '(c', n) ← lift (dict_get (cols x) col_name);
             if n =? 1 then
               _ ← on_bucket b (set_cols (delete col_name));
               busy ← lift (list_remove c (busy_clients x));
               _ ← on_bucket b (λ x, set_lists (idle_clients x) busy x);
               on_bucket b (λ x, set_lists (idle_clients x ++ [c]) (busy_clients x) x)
             else on_bucket b (set_cols (<[col_name := (c', n - 1)]>)));
      release b
  end.

(** ** Threads *)

(** A reference that a thread has got and not yet released. *)
Record hold := Hold { h_client : nat; h_bucket : pystr; h_scope : pystr; h_collection : pystr }.
Record sys := Sys { sp : pool; held : list hold }.

Section System.
(** The collections that the threads work on. *)
Context (names : list (pystr * pystr)) (connect : nat → res unit).

(** A step of some thread: more clients are created, a round of [get_client_for_bucket]
    is run, or a reference is released. *)
Inductive step (σ : sys) : sys → Prop :=
  | step_create b n :
      step σ (Sys (create_clients connect b n (sp σ)).2 (held σ))
  | step_get b s k :
      (s, k) ∈ names → is_Some (clients (sp σ) !! b) →
      step σ (Sys (get_attempt b s k (sp σ)).2
                  (match (get_attempt b s k (sp σ)).1 with
                   | Ok (Some c) => [Hold c b s k]
                   | _ => []
                   end ++ held σ))
  | step_release h l1 l2 :
      held σ = l1 ++ h :: l2 →
      step σ (Sys (release_client (h_client h) (sp σ)).2 (l1 ++ l2)).
End System.
Definition initial : sys := Sys (Pool ∅ ∅ []) [].

(** Different collections have different entries, and none has one of the fixed keys. *)
Definition separable (names : list (pystr * pystr)) : Prop :=
  (∀ s k s' k', (s, k) ∈ names → (s', k') ∈ names → s ++ k = s' ++ k' → s = s' ∧ k = k') ∧
  (∀ s k, (s, k) ∈ names → s ++ k ∉ reserved).

(** The references to a client. *)
Definition references (c : nat) (l : list hold) : Z := len (filter (λ h, h_client h = c) l).

(** ** Proofs: what an operation does *)

Definition with_bucket (b : pystr) (x : bpool) (p : pool) : pool := set_clients (<[b := x]>) p.

Lemma clients_with b x p b' :
  clients (with_bucket b x p) !! b' = if bool_decide (b = b') then Some x else clients p !! b'.
Proof.
  unfold with_bucket. simpl. case_bool_decide as E; [subst; apply lookup_insert_eq|by apply lookup_insert_ne].
Qed.
Lemma with_with b x y p : with_bucket b x (with_bucket b y p) = with_bucket b x p.
Proof. unfold with_bucket, set_clients. simpl. by rewrite insert_insert_eq. Qed.
Lemma with_same b x p : clients p !! b = Some x → with_bucket b x p = p.
Proof. intros H. unfold with_bucket, set_clients. destruct p; simpl in *. by rewrite insert_id. Qed.
Lemma with_heap b x f p : set_heap f (with_bucket b x p) = with_bucket b x (set_heap f p).
Proof. done. Qed.

Section Ops.
Context (b : pystr) (x : bpool) (p : pool) (Hb : clients p !! b = Some x).

Lemma bucket_pool_run : bucket_pool b p = (Ok x, p).
Proof. unfold bucket_pool, dict_get. by rewrite (bind_Ok _ _ p p p), Hb. Qed.
Lemma on_bucket_run f : on_bucket b f p = (Ok tt, with_bucket b (f x) p).
Proof.
  unfold on_bucket, modify, with_bucket, set_clients. do 2 f_equal.
  apply map_eq. intros i. destruct (decide (i = b)) as [->|].
  - by rewrite lookup_alter_eq, lookup_insert_eq, Hb.
  - by rewrite lookup_alter_ne, lookup_insert_ne.
Qed.
End Ops.

Lemma bucket_pool_with b x p : bucket_pool b (with_bucket b x p) = (Ok x, with_bucket b x p).
Proof. apply bucket_pool_run. by rewrite clients_with, bool_decide_eq_true_2. Qed.
Lemma on_bucket_with b x f p : on_bucket b f (with_bucket b x p) = (Ok tt, with_bucket b (f x) p).
Proof.
  rewrite (on_bucket_run _ x); [by rewrite with_with|]. by rewrite clients_with, bool_decide_eq_true_2.
Qed.
Lemma acquire_run b x p :
  clients p !! b = Some x → lock x = false → acquire b p = (Ok tt, with_bucket b (set_lock true x) p).
Proof.
  intros Hb Hl. unfold acquire. rewrite (bind_Ok _ _ _ _ _ (bucket_pool_run b x p Hb)). rewrite Hl.
  by apply on_bucket_run.
Qed.
Lemma release_with b x p :
  lock x = true → release b (with_bucket b x p) = (Ok tt, with_bucket b (set_lock false x) p).
Proof.
  intros Hl. unfold release. rewrite (bind_Ok _ _ _ _ _ (bucket_pool_with b x p)), Hl. apply on_bucket_with.
Qed.

Ltac run := repeat first
  [ rewrite (bind_Ok _ _ _ _ _ (bucket_pool_with _ _ _)) | rewrite (bind_Ok _ _ _ _ _ (on_bucket_with _ _ _ _))
  | rewrite (bind_Ok (modify _) _ _ tt _ eq_refl); rewrite ?with_heap
  | erewrite (bind_Ok (release _)) by (by apply release_with) ].

(** A round of [get_client_for_bucket] and [release_client], on a pool whose lock is free. *)
Lemma get_attempt_run b s k p i bu co :
  clients p !! b = Some (BPool false i bu co) → s ++ k ∉ reserved →
  get_attempt b s k p =
  match co !! (s ++ k) with
  | Some (c, n) => (Ok (Some c), with_bucket b (BPool false i bu (<[s ++ k := (c, n + 1)]> co)) p)
  | None =>
      match last i with
      | Some c => (Ok (Some c),
          with_bucket b (BPool false (removelast i) (bu ++ [c]) (<[s ++ k := (c, 1)]> co))
            (set_heap (alter (select_collection s k) c) p))
      | None => (Ok None, p)
      end
  end.
Proof.
  intros Hb Hr. unfold get_attempt. cbv zeta.
  rewrite (bind_Ok _ _ _ _ _ (acquire_run b _ p Hb eq_refl)). run.
  rewrite bool_decide_eq_false_2 by done. cbn [set_lock cols idle_clients busy_clients].
  destruct (co !! (s ++ k)) as [[c n]|].
  - erewrite bind_Ok; [|run; reflexivity]. by run.
  - destruct (last i) as [c|].
    + erewrite bind_Ok; [|run; reflexivity]. by run.
    + erewrite bind_Ok; [|reflexivity]. run. unfold set_lock. simpl. by rewrite (with_same b _ p Hb).
Qed.

Lemma release_client_run c cl p i bu co c' n :
  heap p !! c = Some cl → clients p !! cl_bucket cl = Some (BPool false i bu co) →
  let col := scope_name cl ++ collection_name cl in
  col ∉ reserved → co !! col = Some (c', n) →
  release_client c p =
  if n =? 1 then
    match list_remove c bu with
    | Ok bu' => (Ok tt, with_bucket (cl_bucket cl) (BPool false (i ++ [c]) bu' (delete col co)) p)
    | Err e => (Err e, with_bucket (cl_bucket cl) (BPool true i bu (delete col co)) p)
    end
  else (Ok tt, with_bucket (cl_bucket cl) (BPool false i bu (<[col := (c', n - 1)]> co)) p).
Proof.
  intros Hc Hb col Hr Hco. unfold release_client. rewrite (bind_Ok _ _ p p p) by done.
  rewrite Hc. rewrite (bind_Ok _ _ p cl p) by done. cbv zeta. rewrite Hb.
  rewrite (bind_Ok _ _ _ _ _ (acquire_run _ _ p Hb eq_refl)). run.
  fold col. rewrite bool_decide_eq_false_2 by done. cbn [set_lock cols idle_clients busy_clients].
  unfold dict_get. rewrite Hco. destruct (n =? 1) eqn:En.
  - destruct (list_remove c bu) as [bu'|e] eqn:El.
    + erewrite bind_Ok; [|erewrite (bind_Ok (lift _)) by reflexivity; cbv beta iota; rewrite En; run;
        erewrite (bind_Ok (lift _)) by reflexivity; run; rewrite on_bucket_with; reflexivity].
      rewrite release_with by done. done.
    + erewrite bind_Err; [|erewrite (bind_Ok (lift _)) by reflexivity; cbv beta iota; rewrite En; run;
        erewrite (bind_Err (lift _)) by reflexivity; reflexivity]. done.
  - erewrite bind_Ok; [|erewrite (bind_Ok (lift _)) by reflexivity; cbv beta iota; rewrite En; rewrite on_bucket_with; reflexivity].
    rewrite release_with by done. done.
Qed.

Lemma create_client_run connect b x p :
  clients p !! b = Some x →
  let c := fresh (dom (heap p)) in
  create_client connect b p =
  match connect c with
  | Ok _ => (Ok tt, with_bucket b (set_lists (idle_clients x ++ [c]) (busy_clients x) x)
                      (set_heap (<[c := new_client b]>) p))
  | Err e => (Err e, p)
  end.
Proof.
  intros Hb c. unfold create_client. rewrite (bind_Ok _ _ p p p) by done. cbv zeta. fold c.
  destruct (connect c) as [[]|e]; [|by erewrite bind_Err].
  rewrite (bind_Ok (lift _) _ _ tt _ eq_refl), (bind_Ok (modify _) _ _ tt _ eq_refl).
  by rewrite (on_bucket_run b x).
Qed.

(** ** Proofs: the invariant *)

Lemma references_app c l1 l2 : references c (l1 ++ l2) = references c l1 + references c l2.
Proof. unfold references. by rewrite filter_app, len_app. Qed.
Lemma references_cons c h l :
  references c (h :: l) = (if bool_decide (h_client h = c) then 1 else 0) + references c l.
Proof.
  unfold references. rewrite filter_cons. case_decide as E.
  - by rewrite len_cons, bool_decide_eq_true_2.
  - by rewrite bool_decide_eq_false_2.
Qed.
Lemma references_nonneg c l : 0 ≤ references c l.
Proof. apply len_nonneg. Qed.
Lemma references_zero c l h : references c l = 0 → h ∈ l → h_client h ≠ c.
Proof.
  intros Hz (l1 & l2 & ->)%list_elem_of_split Hc. rewrite references_app, references_cons in Hz.
  rewrite bool_decide_eq_true_2 in Hz by done.
  pose proof (references_nonneg c l1). pose proof (references_nonneg c l2). lia.
Qed.

Lemma references_none c l : (∀ h, h ∈ l → h_client h ≠ c) → references c l = 0.
Proof.
  induction l as [|h l IH]; [done|]. intros Hl. rewrite references_cons, bool_decide_eq_false_2, IH; set_solver.
Qed.

Lemma list_remove_spec c l : c ∈ l → ∃ l', list_remove c l = Ok l' ∧ l ≡ₚ c :: l'.
Proof.
  induction l as [|d l IH]; [set_solver|]. intros Hin. cbn [list_remove].
  case_bool_decide as E; [subst; by exists l|].
  destruct IH as (l' & -> & Hp); [set_solver|]. exists (d :: l'). split; [done|].
  rewrite Hp. apply Permutation_swap.
Qed.
Lemma last_removelast (l : list nat) c : last l = Some c → l = removelast l ++ [c].
Proof.
  induction l as [|d [|e l] IH]; [done|by intros [= ->]|]. intros H. simpl app. f_equal. by apply IH.
Qed.

Section Invariant.
Context (names : list (pystr * pystr)) (connect : nat → res unit).

Definition selected (cl : client) : Prop :=
  handle cl = handle (select_collection (scope_name cl) (collection_name cl) cl).

Definition bucket_ok (p : pool) (hs : list hold) (b : pystr) (x : bpool) : Prop :=
  lock x = false ∧ NoDup (idle_clients x ++ busy_clients x) ∧
  (∀ c, c ∈ idle_clients x ++ busy_clients x → ∃ cl, heap p !! c = Some cl ∧ cl_bucket cl = b ∧
     (c ∈ idle_clients x → references c hs = 0)) ∧
  (∀ c, c ∈ busy_clients x ↔ ∃ col n, cols x !! col = Some (c, n)) ∧
  (∀ col c n, cols x !! col = Some (c, n) →
     ∃ cl, heap p !! c = Some cl ∧ col = scope_name cl ++ collection_name cl ∧
       (scope_name cl, collection_name cl) ∈ names ∧ selected cl ∧ n = references c hs ∧ 1 ≤ n).

Definition sys_ok (σ : sys) : Prop :=
  (∀ b x, clients (sp σ) !! b = Some x → bucket_ok (sp σ) (held σ) b x) ∧
  (∀ h, h ∈ held σ → (h_scope h, h_collection h) ∈ names ∧
     ∃ x n, clients (sp σ) !! h_bucket h = Some x ∧ cols x !! (h_scope h ++ h_collection h) = Some (h_client h, n)) ∧
  (∀ c cl, heap (sp σ) !! c = Some cl →
     ∃ x, clients (sp σ) !! cl_bucket cl = Some x ∧ c ∈ idle_clients x ++ busy_clients x).

(** A bucket keeps its part of the invariant when nothing happens to its clients. *)
Lemma bucket_ok_frame p p' hs hs' b x :
  bucket_ok p hs b x →
  (∀ c, c ∈ idle_clients x ++ busy_clients x →
     heap p' !! c = heap p !! c ∧ references c hs' = references c hs) →
  bucket_ok p' hs' b x.
Proof.
  intros (Hl & Hnd & Hc & Hb & Hcol) Hf. split_and!; [done|done| |done|].
  - intros c Hin. destruct (Hf c Hin) as [-> ->]. by apply Hc.
  - intros col c n Hcn. destruct (Hf c) as [-> ->]; [|by apply Hcol].
    apply elem_of_app. right. apply Hb. eauto.
Qed.

(** The clients of different buckets are different. *)
Lemma other_bucket σ b x b' x' c c' :
  sys_ok σ → clients (sp σ) !! b = Some x → clients (sp σ) !! b' = Some x' → b ≠ b' →
  c ∈ idle_clients x ++ busy_clients x → c' ∈ idle_clients x' ++ busy_clients x' → c ≠ c'.
Proof.
  intros (Hok & _) Hb Hb' Hne Hc Hc' ->.
  destruct (Hok _ _ Hb) as (_ & _ & H1 & _). destruct (Hok _ _ Hb') as (_ & _ & H2 & _).
  destruct (H1 _ Hc) as (cl & E1 & E2 & _). destruct (H2 _ Hc') as (cl' & E3 & E4 & _). congruence.
Qed.

(** A change to one bucket and to the clients of it. *)
Lemma sys_ok_update σ b x x' hp hs' :
  sys_ok σ → clients (sp σ) !! b = Some x →
  let p' := with_bucket b x' (set_heap hp (sp σ)) in
  bucket_ok p' hs' b x' → idle_clients x ++ busy_clients x ≡ₚ idle_clients x' ++ busy_clients x' →
  (∀ c, c ∉ idle_clients x ++ busy_clients x →
     heap p' !! c = heap (sp σ) !! c ∧ references c hs' = references c (held σ)) →
  (∀ h, h ∈ hs' → (h_bucket h ≠ b ∧ h ∈ held σ) ∨
     (h_bucket h = b ∧ (h_scope h, h_collection h) ∈ names ∧
      ∃ n, cols x' !! (h_scope h ++ h_collection h) = Some (h_client h, n))) →
  sys_ok (Sys p' hs').
Proof.
  intros Hσ Hb p' Hok Hp Hf Hh. pose proof Hσ as (H1 & H2 & H3). split_and!.
  - intros b' x0. cbn [sp held]. unfold p' at 1. rewrite clients_with. case_bool_decide as E.
    { intros [= <-]. by rewrite <- E. }
    cbn. intros Hb'. eapply bucket_ok_frame; [by apply H1|]. intros c Hc. apply Hf. intros Hc'.
    by eapply (other_bucket σ b x b' x0 c c).
  - intros h Hin. destruct (Hh h Hin) as [[Hne Hin']|(Heq & Hn & n & Hc)].
    + destruct (H2 h Hin') as (? & y & n & Hy & Hc). split; [done|]. exists y, n. split; [|done].
      cbn [sp]. unfold p'. by rewrite clients_with, bool_decide_eq_false_2.
    + split; [done|]. exists x', n. split; [|done]. cbn [sp]. unfold p'.
      by rewrite clients_with, bool_decide_eq_true_2.
  - intros c cl Hcl. cbn [sp] in *. destruct (decide (c ∈ idle_clients x ++ busy_clients x)) as [Hin|Hin].
    + assert (c ∈ idle_clients x' ++ busy_clients x') as Hin' by (by rewrite <- Hp).
      destruct Hok as (_ & _ & Hc & _). destruct (Hc c Hin') as (cl' & E1 & E2 & _).
      assert (cl' = cl) as -> by congruence. exists x'. split; [|done]. unfold p'.
      by rewrite clients_with, bool_decide_eq_true_2.
    + rewrite (proj1 (Hf c Hin)) in Hcl. destruct (H3 c cl Hcl) as (y & Hy & Hcy). exists y. split; [|done].
      unfold p'. rewrite clients_with, bool_decide_eq_false_2; [done|]. intros Heq. rewrite <- Heq, Hb in Hy. by injection Hy as <-.
Qed.

Context (Hsep : separable names).

(** What the invariant says about a reference [h] that is about to be released: its client and entry, and what
    is left of the references. *)
Definition entry_of (σ : sys) (l1 : list hold) (h : hold) (l2 : list hold) (cl : client) (i bu : list nat)
    (co : gmap pystr (nat * Z)) (n : Z) : Prop :=
  let c := h_client h in let col := h_scope h ++ h_collection h in
  clients (sp σ) !! h_bucket h = Some (BPool false i bu co) ∧ heap (sp σ) !! c = Some cl ∧
  cl_bucket cl = h_bucket h ∧ col = scope_name cl ++ collection_name cl ∧ c ∈ bu ∧ co !! col = Some (c, n) ∧
  references c (l1 ++ l2) = n - 1 ∧ (∀ d, d ≠ c → references d (l1 ++ l2) = references d (held σ)) ∧
  (∀ col' m, co !! col' = Some (c, m) → col' = col) ∧
  (∀ h', h' ∈ l1 ++ l2 → h_bucket h' = h_bucket h →
     (h_scope h', h_collection h') ∈ names ∧ ∃ m, co !! (h_scope h' ++ h_collection h') = Some (h_client h', m)).

Lemma held_entry σ l1 h l2 :
  sys_ok σ → held σ = l1 ++ h :: l2 → ∃ cl i bu co n, entry_of σ l1 h l2 cl i bu co n.
Proof.
  intros Hσ Hh. pose proof Hσ as (H1 & H2 & H3).
  destruct (H2 h) as (Hn & x & n & Hb & Hc); [rewrite Hh; set_solver|].
  pose proof (H1 _ _ Hb) as (Hl & Hnd & Hcl & Hbu & Hcol).
  destruct (Hcol _ _ _ Hc) as (cl & Hcl1 & Hcn & _ & _ & Hn' & _).
  assert (h_client h ∈ busy_clients x) as Hbusy by (apply Hbu; eauto).
  destruct (Hcl (h_client h)) as (cl' & E1 & E2 & _); [set_solver|].
  assert (cl' = cl) as -> by congruence.
  destruct x as [lk i bu co]. cbn in *. subst lk. exists cl, i, bu, co, n.
  unfold entry_of. split_and!; try done.
  - rewrite Hn', Hh, !references_app, references_cons, bool_decide_eq_true_2 by done. lia.
  - intros d Hd. by rewrite Hh, !references_app, references_cons, bool_decide_eq_false_2.
  - intros col' m Hd. destruct (Hcol _ _ _ Hd) as (? & ? & -> & _). congruence.
  - intros h' Hin Eb. destruct (H2 h') as (? & x' & m & Hx' & Hm); [rewrite Hh; set_solver|].
    rewrite Eb, Hb in Hx'. injection Hx' as <-. eauto.
Qed.

(** The last reference to a client makes it idle. *)
Lemma release_last σ l1 h l2 cl i bu bu' co :
  sys_ok σ → held σ = l1 ++ h :: l2 → entry_of σ l1 h l2 cl i bu co 1 → bu ≡ₚ h_client h :: bu' →
  sys_ok (Sys (with_bucket (h_bucket h)
                 (BPool false (i ++ [h_client h]) bu' (delete (h_scope h ++ h_collection h) co)) (sp σ)) (l1 ++ l2)).
Proof.
  intros Hσ Hh (Hb & _ & _ & _ & _ & Hc & Rc & Rd & Hinj & Hheld) Hp. pose proof Hσ as (H1 & _ & _).
  pose proof (H1 _ _ Hb) as (_ & Hnd & Hcl & Hbu & Hcol). cbn in *.
  set (c := h_client h) in *. set (col := h_scope h ++ h_collection h) in *.
  assert (i ++ bu ≡ₚ (i ++ [c]) ++ bu') as Hperm by (rewrite Hp; solve_Permutation).
  rewrite Hperm in Hnd. assert (c ∉ i ∧ c ∉ bu') as [Hci Hcb].
  { rewrite <- app_assoc in Hnd.
    apply NoDup_app in Hnd as (_ & Hn1 & Hn2). apply NoDup_cons in Hn2 as [Hn2 _]. split; [|done].
    intros Hi. apply (Hn1 c Hi). set_solver. }
  eapply (sys_ok_update σ (h_bucket h) _ (BPool false (i ++ [c]) bu' (delete col co)) id); [done|exact Hb| |done| |].
  - split_and!; cbn; [done|done| | |].
    + intros d Hd. rewrite <- Hperm in Hd. destruct (Hcl d Hd) as (cl' & ? & ? & Hi). exists cl'. split_and!; [done|done|].
      intros [Hin|Hin%list_elem_of_singleton]%elem_of_app; [rewrite Rd by (by intros ->); auto|subst d; lia].
    + intros d. split.
      * intros Hd. destruct (proj1 (Hbu d)) as (col' & m & Hm); [rewrite Hp; set_solver|]. exists col', m.
        rewrite lookup_delete_ne; [done|]. intros <-. rewrite Hc in Hm. congruence.
      * intros (col' & m & [Hne Hm]%lookup_delete_Some). assert (d ∈ bu) as Hd by (apply Hbu; eauto).
        rewrite Hp in Hd. apply elem_of_cons in Hd as [->|]; [|done]. by destruct Hne; eapply eq_sym, Hinj.
    + intros col' d m [Hne Hm]%lookup_delete_Some. destruct (Hcol _ _ _ Hm) as (cl' & ? & ? & ? & ? & ? & ?).
      exists cl'. rewrite Rd; [done|]. intros ->. by destruct Hne; eapply eq_sym, Hinj.
  - intros d Hd. split; [done|]. apply Rd. intros ->. apply Hd. cbn. rewrite Hp. set_solver.
  - intros h' Hin. destruct (decide (h_bucket h' = h_bucket h)) as [Eb|]; [right|left; rewrite Hh; set_solver].
    destruct (Hheld h' Hin Eb) as (? & m & Hm). split_and!; [done|done|]. exists m. cbn.
    rewrite lookup_delete_ne; [done|]. intros Heq. rewrite <- Heq, Hc in Hm. injection Hm as Hm1 _.
    eapply (references_zero c (l1 ++ l2)); [lia|exact Hin|done].
Qed.

(** Any other decreases the count. *)
Lemma release_more σ l1 h l2 cl i bu co n :
  sys_ok σ → held σ = l1 ++ h :: l2 → entry_of σ l1 h l2 cl i bu co n → n ≠ 1 →
  sys_ok (Sys (with_bucket (h_bucket h)
                 (BPool false i bu (<[h_scope h ++ h_collection h := (h_client h, n - 1)]> co)) (sp σ)) (l1 ++ l2)).
Proof.
  intros Hσ Hh (Hb & _ & _ & _ & Hbusy & Hc & Rc & Rd & Hinj & Hheld) En. pose proof Hσ as (H1 & _ & _).
  pose proof (H1 _ _ Hb) as (_ & Hnd & Hcl & Hbu & Hcol). cbn in *.
  set (c := h_client h) in *. set (col := h_scope h ++ h_collection h) in *.
  eapply (sys_ok_update σ (h_bucket h) _ (BPool false i bu (<[col := (c, n - 1)]> co)) id); [done|exact Hb| |done| |].
  - split_and!; cbn; [done|done| | |].
    + intros d Hd. destruct (Hcl d Hd) as (cl' & ? & ? & Hi). exists cl'. split_and!; [done|done|].
      intros Hin. rewrite Rd; [by apply Hi|]. intros ->. apply NoDup_app in Hnd as (_ & Hnd & _). by apply (Hnd c).
    + intros d. rewrite Hbu. split; intros (col' & m & Hm); exists col'; destruct (decide (col' = col)) as [->|].
      1,3: rewrite lookup_insert_eq in * || idtac; eexists; by simplify_eq.
      all: exists m; by rewrite ?lookup_insert_ne in * by done.
    + intros col' d m [[<- [= <- <-]]|[Hne Hm]]%lookup_insert_Some.
      * destruct (Hcol _ _ _ Hc) as (cl' & ? & ? & ? & ? & ? & ?). exists cl'. split_and!; [done..|by rewrite Rc|lia].
      * destruct (Hcol _ _ _ Hm) as (cl' & ? & ? & ? & ? & ? & ?).
        exists cl'. rewrite Rd; [done|]. intros ->. by destruct Hne; eapply eq_sym, Hinj.
  - intros d Hd. split; [done|]. apply Rd. intros ->. apply Hd. cbn. set_solver.
  - intros h' Hin. destruct (decide (h_bucket h' = h_bucket h)) as [Eb|]; [right|left; rewrite Hh; set_solver].
    destruct (Hheld h' Hin Eb) as (? & m & Hm). split_and!; [done|done|]. cbn.
    destruct (decide (h_scope h' ++ h_collection h' = col)) as [Heq|]; [|exists m; by rewrite lookup_insert_ne].
    exists (n - 1). rewrite Heq in *. rewrite lookup_insert_eq. congruence.
Qed.

Lemma release_ok σ l1 h l2 :
  sys_ok σ → held σ = l1 ++ h :: l2 →
  (release_client (h_client h) (sp σ)).1 = Ok tt ∧
  sys_ok (Sys (release_client (h_client h) (sp σ)).2 (l1 ++ l2)).
Proof.
  intros Hσ Hh. destruct (held_entry σ l1 h l2 Hσ Hh) as (cl & i & bu & co & n & HE).
  pose proof HE as (Hb & Hcl & E2 & Hcn & Hbusy & Hc & _).
  assert (h_scope h ++ h_collection h ∉ reserved) as Hr.
  { apply Hsep. apply Hσ. rewrite Hh. set_solver. }
  rewrite (release_client_run (h_client h) cl (sp σ) i bu co (h_client h) n) by (by rewrite ?E2, <- ?Hcn).
  rewrite <- Hcn, E2. destruct (n =? 1) eqn:En.
  - apply Z.eqb_eq in En as ->. destruct (list_remove_spec _ bu Hbusy) as (bu' & -> & Hp).
    split; [done|]. by eapply release_last.
  - apply Z.eqb_neq in En. split; [done|]. by eapply release_more.
Qed.
(** A collection in use gets one more reference. *)
Lemma get_shared σ b s k c n i bu co :
  sys_ok σ → (s, k) ∈ names → clients (sp σ) !! b = Some (BPool false i bu co) → co !! (s ++ k) = Some (c, n) →
  sys_ok (Sys (with_bucket b (BPool false i bu (<[s ++ k := (c, n + 1)]> co)) (sp σ)) (Hold c b s k :: held σ)).
Proof.
  intros Hσ Hn Hb Hc. pose proof Hσ as (H1 & H2 & _).
  pose proof (H1 _ _ Hb) as (_ & Hnd & Hcl & Hbu & Hcol). cbn in *.
  destruct (Hcol _ _ _ Hc) as (cl & Hcl1 & Hcol1 & ? & ? & ? & ?).
  assert (c ∈ bu) as Hcbu by (apply Hbu; eauto).
  assert (c ∉ i) as Hci by (intros Hi; apply NoDup_app in Hnd as (_ & Hnd & _); by apply (Hnd c)).
  assert (∀ d, d ≠ c → references d (Hold c b s k :: held σ) = references d (held σ)) as Rd.
  { intros d Hd. by rewrite references_cons, bool_decide_eq_false_2. }
  eapply (sys_ok_update σ b _ (BPool false i bu (<[s ++ k := (c, n + 1)]> co)) id); [done|exact Hb| |done| |].
  - split_and!; cbn; [done|done| | |].
    + intros d Hd. destruct (Hcl d Hd) as (cl' & ? & ? & Hi). exists cl'. split_and!; [done|done|].
      intros Hin. rewrite Rd; [by apply Hi|]. by intros ->.
    + intros d. rewrite Hbu. split; intros (col' & m & Hm); exists col'; destruct (decide (col' = s ++ k)) as [->|].
      1,3: rewrite lookup_insert_eq in * || idtac; eexists; by simplify_eq.
      all: exists m; by rewrite ?lookup_insert_ne in * by done.
    + intros col' d m [[<- [= <- <-]]|[Hne Hm]]%lookup_insert_Some.
      * exists cl. rewrite references_cons, bool_decide_eq_true_2 by done. split_and!; [done..|lia|lia].
      * destruct (Hcol _ _ _ Hm) as (cl' & Hcl' & -> & ? & ? & ? & ?). exists cl'. rewrite Rd; [done|].
        intros ->. congruence.
  - intros d Hd. split; [done|]. apply Rd. intros ->. apply Hd. cbn. set_solver.
  - intros h [->|Hin]%elem_of_cons.
    + right. cbn. split_and!; [done|done|]. exists (n + 1). by rewrite lookup_insert_eq.
    + destruct (decide (h_bucket h = b)) as [Eb|]; [right|by left].
      destruct (H2 h Hin) as (? & x & m & Hx & Hm). rewrite Eb, Hb in Hx. injection Hx as <-.
      split_and!; [done|done|]. cbn in *. destruct (decide (h_scope h ++ h_collection h = s ++ k)) as [Heq|].
      * exists (n + 1). rewrite Heq in *. rewrite lookup_insert_eq. congruence.
      * exists m. by rewrite lookup_insert_ne.
Qed.

(** An idle client is taken for a collection that is not in use. *)
Lemma get_idle σ b s k c i bu co :
  sys_ok σ → (s, k) ∈ names → clients (sp σ) !! b = Some (BPool false (i ++ [c]) bu co) → co !! (s ++ k) = None →
  sys_ok (Sys (with_bucket b (BPool false i (bu ++ [c]) (<[s ++ k := (c, 1)]> co))
                 (set_heap (alter (select_collection s k) c) (sp σ))) (Hold c b s k :: held σ)).
Proof.
  intros Hσ Hn Hb Hc. pose proof Hσ as (H1 & H2 & _).
  pose proof (H1 _ _ Hb) as (_ & Hnd & Hcl & Hbu & Hcol). cbn in *.
  assert ((i ++ [c]) ++ bu ≡ₚ i ++ (bu ++ [c])) as Hperm by solve_Permutation.
  assert (c ∉ i ∧ c ∉ bu) as [Hci Hcb].
  { rewrite <- app_assoc in Hnd. apply NoDup_app in Hnd as (_ & Hn1 & Hn2).
    apply NoDup_cons in Hn2 as [Hn2 _]. split; [|done]. intros Hi. apply (Hn1 c Hi). set_solver. }
  destruct (Hcl c) as (cl & Hcl1 & Hclb & Hz); [set_solver|]. specialize (Hz ltac:(set_solver)).
  assert (∀ d, d ≠ c → references d (Hold c b s k :: held σ) = references d (held σ)) as Rd.
  { intros d Hd. by rewrite references_cons, bool_decide_eq_false_2. }
  assert (∀ d, d ≠ c → alter (select_collection s k) c (heap (sp σ)) !! d = heap (sp σ) !! d) as Hh.
  { intros d Hd. by rewrite lookup_alter_ne. }
  eapply (sys_ok_update σ b _ (BPool false i (bu ++ [c]) (<[s ++ k := (c, 1)]> co))); [done|exact Hb| |done| |].
  - split_and!; cbn; [done|by rewrite <- Hperm| | |].
    + intros d Hd. rewrite <- Hperm in Hd. destruct (decide (d = c)) as [->|Hne].
      { exists (select_collection s k cl). by rewrite lookup_alter_eq, Hcl1. }
      rewrite Hh, Rd by done. destruct (Hcl d Hd) as (cl' & ? & ? & Hi). exists cl'. split_and!; [done|done|].
      intros Hin. apply Hi. set_solver.
    + intros d. rewrite elem_of_app, Hbu, list_elem_of_singleton. split.
      * intros [(col' & m & Hm)|Heq]; [exists col', m; by rewrite lookup_insert_ne by (by intros <-; rewrite Hc in Hm)|].
        exists (s ++ k), 1. rewrite lookup_insert_eq. by subst.
      * intros (col' & m & [[<- [= <- <-]]|[Hne Hm]]%lookup_insert_Some); [by right|left; eauto].
    + intros col' d m [[<- [= <- <-]]|[Hne Hm]]%lookup_insert_Some.
      * exists (select_collection s k cl). rewrite lookup_alter_eq, Hcl1, references_cons, bool_decide_eq_true_2 by done.
        split_and!; [done..|lia|lia].
      * destruct (Hcol _ _ _ Hm) as (cl' & Hcl' & ? & ? & ? & ? & ?). assert (d ≠ c).
        { intros ->. apply Hcb, Hbu. eauto. }
        exists cl'. by rewrite Hh, Rd.
  - intros d Hd. cbn in *. assert (d ≠ c) by set_solver. by rewrite Hh, Rd.
  - intros h [->|Hin]%elem_of_cons.
    + right. cbn. split_and!; [done|done|]. exists 1. by rewrite lookup_insert_eq.
    + destruct (decide (h_bucket h = b)) as [Eb|]; [right|by left].
      destruct (H2 h Hin) as (? & x & m & Hx & Hm). rewrite Eb, Hb in Hx. injection Hx as <-.
      split_and!; [done|done|]. cbn in *. exists m. rewrite lookup_insert_ne; [done|]. intros Heq. congruence.
Qed.

Lemma get_ok σ b s k x :
  sys_ok σ → (s, k) ∈ names → clients (sp σ) !! b = Some x →
  let '(r, p') := get_attempt b s k (sp σ) in
  match r with
  | Ok (Some c) => sys_ok (Sys p' (Hold c b s k :: held σ))
  | Ok None => p' = sp σ ∧ idle_clients x = [] ∧ cols x !! (s ++ k) = None
  | Err _ => False
  end.
Proof.
  intros Hσ Hn Hb. pose proof Hσ as (H1 & _). pose proof (H1 _ _ Hb) as (Hl & _).
  destruct x as [lk i bu co]. cbn in Hl. subst lk.
  rewrite (get_attempt_run b s k _ i bu co Hb) by (by apply Hsep).
  destruct (co !! (s ++ k)) as [[c n]|] eqn:Hc; [by apply get_shared|].
  destruct (last i) as [c|] eqn:Hi; [|by apply last_None in Hi].
  apply last_removelast in Hi. rewrite Hi in Hb. by apply get_idle.
Qed.
Lemma new_bucket_ok σ b :
  sys_ok σ → clients (sp σ) !! b = None → sys_ok (Sys (with_bucket b empty_bpool (sp σ)) (held σ)).
Proof.
  intros (H1 & H2 & H3) Hb. split_and!; cbn [sp held].
  - intros b' x. rewrite clients_with. case_bool_decide as E.
    + intros [= <-]. unfold bucket_ok, empty_bpool. cbn. split_and!; [done|constructor|set_solver| |set_solver].
      intros c. split; [set_solver|]. by intros (? & ? & ?).
    + intros Hx. by apply H1.
  - intros h Hin. destruct (H2 h Hin) as (? & x & n & Hx & Hc). split; [done|]. exists x, n. split; [|done].
    rewrite clients_with, bool_decide_eq_false_2; [done|]. congruence.
  - intros c cl Hc. destruct (H3 c cl Hc) as (x & Hx & ?). exists x. split; [|done].
    rewrite clients_with, bool_decide_eq_false_2; [done|]. congruence.
Qed.

Lemma create_client_ok p hs b x :
  sys_ok (Sys p hs) → clients p !! b = Some x →
  let p' := (create_client connect b p).2 in
  sys_ok (Sys p' hs) ∧ is_Some (clients p' !! b).
Proof.
  intros Hσ Hb p'. subst p'. rewrite (create_client_run connect b x p Hb).
  set (c := fresh (dom (heap p))). assert (heap p !! c = None) as Hc by (apply not_elem_of_dom, is_fresh).
  destruct (connect c) as [[]|e]; [|done]. cbn [snd]. split; [|by rewrite clients_with, bool_decide_eq_true_2].
  pose proof Hσ as (H1 & H2 & H3). cbn [sp held] in *.
  assert (∀ d b' y, clients p !! b' = Some y → d ∈ idle_clients y ++ busy_clients y → d ≠ c) as Hd.
  { intros d b' y Hy Hin ->. destruct (H1 _ _ Hy) as (_ & _ & H & _). destruct (H c Hin) as (? & ? & _). congruence. }
  assert (∀ h, h ∈ hs → h_client h ≠ c) as Hh.
  { intros h Hin Heq. destruct (H2 h Hin) as (_ & y & n & Hy & Hn). destruct (H1 _ _ Hy) as (_ & _ & _ & _ & H).
    destruct (H _ _ _ Hn) as (? & ? & _). congruence. }
  pose proof (references_none c hs Hh) as Hz.
  split_and!; cbn [sp held].
  - intros b' y. rewrite clients_with. case_bool_decide as E; cbn.
    + subst b'. intros [= <-]. destruct (H1 _ _ Hb) as (Hl & Hnd & Hcl & Hbu & Hcol). unfold bucket_ok. cbn.
      assert ((idle_clients x ++ [c]) ++ busy_clients x ≡ₚ c :: idle_clients x ++ busy_clients x) as Hp by solve_Permutation.
      split_and!; [done| | |done|].
      * rewrite Hp. constructor; [|done]. intros Hin. by eapply Hd.
      * intros d. rewrite Hp. intros [->|Hin]%elem_of_cons.
        { exists (new_client b). by rewrite lookup_insert_eq. }
        rewrite lookup_insert_ne by (by apply not_eq_sym; eapply Hd). destruct (Hcl d Hin) as (cl & ? & ? & Hi).
        exists cl. split_and!; [done|done|]. intros [?|?%list_elem_of_singleton]%elem_of_app; [by apply Hi|by subst d].
      * intros col d n Hn. rewrite lookup_insert_ne; [by apply Hcol|]. apply not_eq_sym. eapply Hd; [exact Hb|].
        apply elem_of_app. right. apply Hbu. eauto.
    + intros Hy. eapply bucket_ok_frame; [by apply H1|]. intros d Hin. split; [|done]. cbn.
      apply lookup_insert_ne. apply not_eq_sym. by eapply Hd.
  - intros h Hin. destruct (H2 h Hin) as (? & y & n & Hy & Hn). split; [done|]. rewrite clients_with.
    case_bool_decide as E; [|by exists y, n]. rewrite <- E, Hb in Hy. injection Hy as <-. by eexists _, n.
  - intros d cl Hdc. change (<[c := new_client b]> (heap p) !! d = Some cl) in Hdc. apply lookup_insert_Some in Hdc as [[<- <-]|[Hne Hcl]].
    + exists (set_lists (idle_clients x ++ [c]) (busy_clients x) x).
      rewrite clients_with, bool_decide_eq_true_2 by done. cbn. set_solver.
    + destruct (H3 d cl Hcl) as (y & Hy & Hin). rewrite clients_with. case_bool_decide as E; [|by exists y].
      rewrite <- E, Hb in Hy. injection Hy as <-. eexists. split; [done|]. cbn. set_solver.
Qed.

Lemma create_clients_ok σ b n :
  sys_ok σ → sys_ok (Sys (create_clients connect b n (sp σ)).2 (held σ)).
Proof.
  intros Hσ. unfold create_clients. erewrite bind_Ok by reflexivity. cbv beta.
  set (p0 := set_clients _ (sp σ)).
  assert (sys_ok (Sys p0 (held σ)) ∧ is_Some (clients p0 !! b)) as [Hp0 Hb0].
  { unfold p0. destruct (clients (sp σ) !! b) as [x|] eqn:Hb.
    - replace (set_clients _ (sp σ)) with (sp σ); [by destruct σ|]. destruct (sp σ). unfold set_clients. cbn in *. by rewrite Hb.
    - replace (set_clients _ (sp σ)) with (with_bucket b empty_bpool (sp σ)).
      + split; [by apply new_bucket_ok|]. by rewrite clients_with, bool_decide_eq_true_2.
      + unfold with_bucket, set_clients. by rewrite Hb. }
  clearbody p0. revert p0 Hp0 Hb0. induction (Z.to_nat n) as [|m IH]; intros p0 Hp0 [x Hb0]; [done|].
  cbn [replicate mfor]. destruct (create_client_ok p0 (held σ) b x Hp0 Hb0) as [Hp1 Hb1].
  unfold mbind, M_bind. destruct (create_client connect b p0) as [[[]|e] p1]; [by apply IH|done].
Qed.

Lemma initial_ok : sys_ok initial.
Proof. unfold sys_ok. cbn. split_and!; set_solver by (intros; simplify_map_eq). Qed.

Lemma step_ok σ σ' : sys_ok σ → step names connect σ σ' → sys_ok σ'.
Proof.
  intros Hσ [b n|b s k Hn [x Hb]|h l1 l2 Hh].
  - by apply create_clients_ok.
  - pose proof (get_ok σ b s k x Hσ Hn Hb) as Hg. destruct (get_attempt b s k (sp σ)) as [[[c|]|] p']; cbn in *; [done| |done].
    destruct Hg as (-> & _). by destruct σ.
  - by apply release_ok.
Qed.
Lemma reachable_ok σ : rtc (step names connect) initial σ → sys_ok σ.
Proof.
  assert (∀ τ, sys_ok τ → rtc (step names connect) τ σ → sys_ok σ) as H; [|apply H, initial_ok].
  intros τ Hτ Hr. induction Hr as [|τ τ1 σ Hs Hr IH]; [done|]. apply IH. by eapply step_ok.
Qed.
End Invariant.

(** Creating clients in a bucket without pool. *)
Lemma create_after_shutdown connect b n p :
  clients p !! b = None →
  let p' := (create_clients connect b n p).2 in
  ∃ i, clients p' !! b = Some (BPool false i [] ∅) ∧ ∀ c cl, heap p !! c = Some cl → heap p' !! c = Some cl.
Proof.
  intros Hb. unfold create_clients. rewrite (bind_Ok (modify _) _ _ tt (with_bucket b empty_bpool p)).
  2:{ unfold modify, with_bucket, set_clients. by rewrite Hb. }
  assert (∃ i, clients (with_bucket b empty_bpool p) !! b = Some (BPool false i [] ∅)) as H1.
  { exists []. by rewrite clients_with, bool_decide_eq_true_2. }
  assert (∀ c cl, heap p !! c = Some cl → heap (with_bucket b empty_bpool p) !! c = Some cl) as H2 by done.
  revert H1 H2. generalize (with_bucket b empty_bpool p) as q. clear Hb.
  induction (Z.to_nat n) as [|m IH]; intros q (i & Hq) Hh; [by exists i|]. cbn [replicate mfor].
  unfold mbind, M_bind. rewrite (create_client_run connect b _ q Hq).
  destruct (connect _) as [[]|e]; [|by exists i]. eapply IH; [eexists; by rewrite clients_with, bool_decide_eq_true_2|].
  intros c cl Hc. specialize (Hh c cl Hc). cbn. rewrite lookup_insert_ne; [done|]. intros Heq.
  assert (heap q !! fresh (dom (heap q)) = None) by (apply not_elem_of_dom, is_fresh). congruence.
Qed.

(** ** Properties *)


(** Two collections whose scope and collection names run together to the same text share a client: the second
    thread is given the client of the first, and its operations go to the first thread's collection. *)
Theorem pool_mixes_collections b s k s' k' p i c bu co :
  clients p !! b = Some (BPool false (i ++ [c]) bu co) → is_Some (heap p !! c) →
  s ++ k = s' ++ k' → (s, k) ≠ (s', k') → k ≠ CbServer.default_collection →
  s ++ k ∉ reserved → co !! (s ++ k) = None →
  let '(r1, p1) := get_attempt b s k p in
  let '(r2, p2) := get_attempt b s' k' p1 in
  r1 = Ok (Some c) ∧ r2 = Ok (Some c) ∧ handle <$> heap p2 !! c = Some (s, k).
Proof.
  intros Hb [cl Hcl] Heq _ Hk Hr Hco. rewrite (get_attempt_run b s k p _ _ _ Hb Hr), Hco.
  rewrite last_snoc. erewrite get_attempt_run; [|by rewrite clients_with, bool_decide_eq_true_2|by rewrite <- Heq].
  rewrite <- Heq, lookup_insert_eq. split_and!; [done|done|]. cbn. rewrite lookup_alter_eq, Hcl. cbn.
  by rewrite bool_decide_eq_true_2.
Qed.

(** An exception inside the pool leaves the bucket locked for ever.  Asking for a collection whose joined name is one of
    the fixed keys of the dictionary raises [TypeError], and releasing a client that was handed out before [shutdown], once the pool of the bucket
    was created again, raises [KeyError]; after either, every request and every release on the bucket waits for ever. *)
Theorem pool_error_keeps_lock b x p :
  clients p !! b = Some x → lock x = false →
  let stuck p := (∀ s k, (get_attempt b s k p).1 = raise Blocked) ∧
    (∀ c cl, heap p !! c = Some cl → cl_bucket cl = b → (release_client c p).1 = raise Blocked) in
  (∀ s k, s ++ k ∈ reserved → (get_attempt b s k p).1 = raise TypeError ∧ stuck (get_attempt b s k p).2) ∧
  (∀ c cl connect n, heap p !! c = Some cl → cl_bucket cl = b → scope_name cl ++ collection_name cl ∉ reserved →
     let p' := (create_clients connect b n (shutdown p)).2 in
     (release_client c p').1 = raise KeyError ∧ stuck (release_client c p').2).
Proof.
  intros Hb Hl stuck.
  assert (∀ q y, lock y = true → stuck (with_bucket b y q)) as Hstuck.
  { intros q y Hy. assert (acquire b (with_bucket b y q) = (raise Blocked, with_bucket b y q)) as Ha.
    { unfold acquire. by rewrite (bind_Ok _ _ _ _ _ (bucket_pool_with b y q)), Hy. }
    split; [intros s k; unfold get_attempt; by rewrite (bind_Err _ _ _ _ _ Ha)|].
    intros c cl Hc <-. unfold release_client. rewrite (bind_Ok get _ _ _ _ eq_refl), Hc, (bind_Ok (lift _) _ _ cl _ eq_refl).
    cbv zeta. rewrite clients_with, bool_decide_eq_true_2 by done. by rewrite (bind_Err _ _ _ _ _ Ha). }
  split.
  - intros s k Hin. unfold get_attempt. rewrite (bind_Ok _ _ _ _ _ (acquire_run b x p Hb Hl)). run.
    rewrite bool_decide_eq_true_2 by done. erewrite bind_Err by reflexivity. split; [done|]. by apply Hstuck.
  - intros c cl connect n Hc0 Hcb Hr p'.
    destruct (create_after_shutdown connect b n (shutdown p)) as (i & Hb' & Hheap); [done|].
    fold p' in Hb', Hheap. pose proof (Hheap c cl Hc0) as Hc. clearbody p'. subst b. unfold release_client.
    rewrite (bind_Ok get _ _ _ _ eq_refl), Hc, (bind_Ok (lift _) _ _ cl _ eq_refl). cbv zeta. rewrite Hb'.
    rewrite (bind_Ok _ _ _ _ _ (acquire_run _ _ p' Hb' eq_refl)). run. rewrite bool_decide_eq_false_2 by done.
    erewrite bind_Err; [|by erewrite bind_Err by reflexivity]. split; [done|]. by apply Hstuck.
Qed.

(** ** Examples *)

Definition demo_names : list (pystr * pystr) := [(py "s1", py "c1"); (CbServer.default_scope, CbServer.default_collection)].
Definition demo_bucket : pystr := py "default".
Definition demo_connect (_ : nat) : res unit := Ok tt.
Definition demo_pool : pool := (create_clients demo_connect demo_bucket 1 (sp initial)).2.
Definition demo_client : nat := fresh (∅ : gset nat).
Definition demo_sys : sys :=
  Sys (get_attempt demo_bucket (py "s1") (py "c1") demo_pool).2 [Hold demo_client demo_bucket (py "s1") (py "c1")].

Lemma demo_separable : separable demo_names.
Proof.
  unfold separable, demo_names. split.
  - intros s k s' k' Ha Hb Heq. rewrite !elem_of_cons, !elem_of_nil in Ha, Hb.
    destruct Ha as [Ha|[Ha|[]]], Hb as [Hb|[Hb|[]]]; injection Ha as -> ->; injection Hb as -> ->;
      first [done | by vm_compute in Heq].
  - intros s k Ha Hr. rewrite !elem_of_cons, !elem_of_nil in Ha. unfold reserved in Hr.
    rewrite !elem_of_cons, !elem_of_nil in Hr.
    destruct Ha as [Ha|[Ha|[]]], Hr as [Hr|[Hr|[Hr|[]]]]; injection Ha as -> ->; by vm_compute in Hr.
Qed.
Lemma demo_reachable : rtc (step demo_names demo_connect) initial demo_sys.
Proof.
  eapply rtc_l; [apply (step_create _ _ _ demo_bucket 1)|].
  eapply rtc_l; [apply (step_get _ _ _ demo_bucket (py "s1") (py "c1")); [set_solver|by eexists; vm_compute]|].
  apply rtc_refl.
Qed.


Lemma demo_pool_bucket : clients demo_pool !! demo_bucket = Some (BPool false ([] ++ [demo_client]) [] ∅).
Proof. vm_compute. reflexivity. Qed.

Lemma pool_mixes_collections_witness :
  let '(r1, p1) := get_attempt demo_bucket (py "a") (py "bc") demo_pool in
  let '(r2, p2) := get_attempt demo_bucket (py "ab") (py "c") p1 in
  r1 = Ok (Some demo_client) ∧ r2 = Ok (Some demo_client) ∧ handle <$> heap p2 !! demo_client = Some (py "a", py "bc").
Proof.
  apply (pool_mixes_collections demo_bucket (py "a") (py "bc") (py "ab") (py "c") demo_pool [] demo_client [] ∅).
  - exact demo_pool_bucket.
  - by eexists; vm_compute.
  - done.
  - done.
  - done.
  - set_solver.
  - done.
Defined.

Lemma pool_error_keeps_lock_witness :
  (get_attempt demo_bucket (py "lo") (py "ck") demo_pool).1 = raise TypeError.
Proof.
  destruct (pool_error_keeps_lock demo_bucket _ demo_pool demo_pool_bucket eq_refl) as [H _].
  refine (proj1 (H (py "lo") (py "ck") _)). apply elem_of_cons. by left.
Defined.
