(* ===== verification/LoadTasks.v ===== *)
(** * lib/Jython_tasks/task.py: tasks that load documents

    [Task], [GenericLoadingTask] with its batch methods, [LoadDocumentsTask] and [LoadSubDocumentsTask], the
    splitting of a generator into tasks, and the bulk methods of [SDKClient] (lib/sdk_client3.py) that they call.
    The Java methods under the bulk methods are an interface: they get the documents and options and return a list
    of results, or raise.  A task runs against a world [W] (the cluster) that other tasks share. *)

From S2P Require Import Prelude Py DocGen DocLoader.
Local Open Scope string_scope.
Local Open Scope list_scope.
Local Open Scope Z_scope.

(** ** lib/sdk_client3.py: results *)

(** A Java throwable: the name of its class, its message (which may be null), and the parts of its
    request context that could be read. *)
Record jerror := JError { je_class : pystr; je_message : option pystr; je_context : list pystr }.

(** An element of the list that the Java bulk methods return. *)
Record jresult (V : Type) := JResult { jr_id : pystr; jr_status : bool; jr_cas : Z; jr_value : V; jr_error : jerror }.
Arguments JResult {V}. Arguments jr_id {V}. Arguments jr_status {V}. Arguments jr_cas {V}.
Arguments jr_value {V}. Arguments jr_error {V}.

(** The dictionaries in [success] and [fail]: the key "value" may be absent or hold an empty dictionary. *)
Inductive field (V : Type) := Absent | EmptyDict | Value (v : V).
Arguments Absent {V}. Arguments EmptyDict {V}. Arguments Value {V}.
Record entry (V : Type) := Entry { e_value : field V; e_cas : Z; e_error : option pystr }.
Arguments Entry {V}. Arguments e_value {V}. Arguments e_cas {V}. Arguments e_error {V}.
Abbreviation entries V := (gmap pystr (entry V)).

(** [populate_crud_failure_reason]: appends until something is missing. *)
Definition reason_labels : list pystr := [py " | "; py " | reason:"; py " | retryAttempts:"; py " | retryReasons:"].
Definition populate_crud_failure_reason (text : pystr) (e : jerror) : pystr :=
  text ++ concat (zip_with app reason_labels (je_context e)).
(** [str(error.getClass().getName() + " | " + error.getMessage())]; adding null is a [TypeError]. *)
Definition error_text (e : jerror) : res pystr :=
  m ← of_option TypeError (je_message e);
  Ok (populate_crud_failure_reason (je_class e ++ py " | " ++ m) e).

Section Translate.
Context {V : Type}.

(** The loop of the three [__translate_..._multi_results]: [ok] is the entry of a success and [value] the
    "value" of a failure. *)
Fixpoint translate (ok : jresult V → entry V) (value : jresult V → field V) (data : list (jresult V))
    (acc : entries V * entries V) : res (entries V * entries V) :=
  match data with
  | [] => Ok acc
  | r :: data =>
      if jr_status r then translate ok value data (<[jr_id r := ok r]> acc.1, acc.2)
      else
        t ← error_text (jr_error r);
        translate ok value data (acc.1, <[jr_id r := Entry (value r) (jr_cas r) (Some t)]> acc.2)
  end.
Definition translated (ok : jresult V → entry V) (value : jresult V → field V) (data : option (list (jresult V))) : res (entries V * entries V) :=
  match data with None => Ok (∅, ∅) | Some data => translate ok value data (∅, ∅) end.

Definition translate_upsert_multi_results : option (list (jresult V)) → res (entries V * entries V) :=
  translated (λ r, Entry (Value (jr_value r)) (jr_cas r) None) (λ r, Value (jr_value r)).
Definition translate_delete_multi_results : option (list (jresult V)) → res (entries V * entries V) :=
  translated (λ r, Entry Absent (jr_cas r) None) (λ _, EmptyDict).
Definition translate_get_multi_results : option (list (jresult V)) → res (entries V * entries V) :=
  translated (λ r, Entry (Value (jr_value r)) (jr_cas r) None) (λ _, EmptyDict).
End Translate.

(** ** The interface of the Java methods *)

(** The options that decide how a document is written. *)
Record opts := Opts {
  o_exp : Z; o_exp_unit : pystr; o_persist_to : Z; o_replicate_to : Z; o_timeout : Z; o_time_unit : pystr;
  o_durability : pystr; o_preserve_expiry : option bool; o_transcoder : option pystr
}.
(** A batch: the generator leaves the empty string, [None], as value when values are skipped. *)
Abbreviation batch V := (list (pystr * option V)).

Class DocOp (W V : Type) := {
  bulkInsert : batch V → opts → W → res (option (list (jresult V))) * W;
  bulkUpsert : batch V → opts → W → res (option (list (jresult V))) * W;
  bulkReplace : batch V → opts → W → res (option (list (jresult V))) * W;
  bulkDelete : list pystr → opts → W → res (option (list (jresult V))) * W;
  bulkTouch : list pystr → Z → opts → W → res (option (list (jresult V))) * W;
  bulkGet : list pystr → opts → W → res (option (list (jresult V))) * W
}.

(** The client of a task: its own, or one of a pool that is taken for each batch ([None] for a bucket that the
    pool does not know). *)
Class Pool (W : Type) := {
  pool_get : W → res (option nat) * W;
  pool_release : nat → W → res unit * W
}.

(** [options.transcoder(...)] for the two raw document types *)
Definition transcoder (doc_type : pystr) : option pystr :=
  if bool_decide (lower doc_type = py "binary") then Some (py "binary")
  else if bool_decide (lower doc_type = py "string") then Some (py "string") else None.

Section Client.
Context {W V : Type} `{DocOp W V}.
Abbreviation MW := (M W).

Definition on_java {A} (f : W → res (option (list (jresult V))) * W)
    (g : option (list (jresult V)) → res A) : MW A :=
  r ← f; lift (g r).

(** The bulk methods; [o] has the arguments that become options. *)
Definition set_multi (items : batch V) (o : opts) : MW (entries V * entries V) :=
  on_java (bulkInsert items o) translate_upsert_multi_results.
Definition upsert_multi (docs : batch V) (o : opts) : MW (entries V * entries V) :=
  on_java (bulkUpsert docs o) translate_upsert_multi_results.
Definition replace_multi (docs : batch V) (o : opts) : MW (entries V * entries V) :=
  on_java (bulkReplace docs o) translate_upsert_multi_results.
Definition delete_multi (keys : list pystr) (o : opts) : MW (entries V * entries V) :=
  on_java (bulkDelete keys o) translate_delete_multi_results.
Definition touch_multi (keys : list pystr) (exp : Z) (o : opts) : MW (entries V * entries V) :=
  on_java (bulkTouch keys exp o) translate_delete_multi_results.
Definition get_multi (keys : list pystr) (o : opts) : MW (entries V * entries V) :=
  on_java (bulkGet keys o) translate_get_multi_results.
End Client.

(** ** Task *)

(** The arguments of a [LoadDocumentsTask] that do not change.  [use_pool] says whether it was given a pool of clients. *)
Record config := Config {
  op_type : pystr; abs_exp : Z; exp_unit : pystr; random_exp : bool; persist_to : Z; replicate_to : Z;
  durability : pystr; timeout : Z; time_unit : pystr; cf_doc_type : pystr; batch_size : Z;
  skip_read_on_error : bool; track_failures : bool; skip_read_success_results : bool;
  preserve_expiry : option bool; req_iterations : Z; use_pool : bool
}.

(** The attributes of a loading task that change. *)
Record task (V G : Type) := Task {
  started : bool; completed : bool; exception : option pyexn;
  generator : G; client : option nat; exp : Z;
  docs_loaded : Z; itr_count : Z; stop_loading : bool;
  t_fail : entries V; t_success : entries V
}.
Arguments Task {V G}. Arguments started {V G}. Arguments completed {V G}. Arguments exception {V G}.
Arguments generator {V G}. Arguments client {V G}. Arguments exp {V G}. Arguments docs_loaded {V G}.
Arguments itr_count {V G}. Arguments stop_loading {V G}. Arguments t_fail {V G}. Arguments t_success {V G}.

Record running (W V G : Type) := Running { tk : task V G; world : W }.
Arguments Running {W V G}. Arguments tk {W V G}. Arguments world {W V G}.

Section Task.
Context {W V G : Type} `{HD : DocOp W V} `{HP : Pool W} `{HG : Generator G V}.
Context (randint : Z → Z → res Z) (cf : config).
Abbreviation MT := (M (running W V G)).

Definition on_task (f : task V G → task V G) : MT unit := modify (λ s, Running (f (tk s)) (world s)).
Definition on_world {A} (m : M W A) : MT A := λ s, let '(r, w) := m (world s) in (r, Running (tk s) w).
Definition on_gen {A} (m : M G A) : MT A := λ s,
  let t := tk s in
  let '(r, g) := m (generator t) in
  (r, Running (Task (started t) (completed t) (exception t) g (client t) (exp t) (docs_loaded t) (itr_count t)
                 (stop_loading t) (t_fail t) (t_success t)) (world s)).

Definition set_started (t : task V G) : task V G :=
  Task true (completed t) (exception t) (generator t) (client t) (exp t) (docs_loaded t) (itr_count t)
    (stop_loading t) (t_fail t) (t_success t).
Definition set_completed (t : task V G) : task V G :=
  Task (started t) true (exception t) (generator t) (client t) (exp t) (docs_loaded t) (itr_count t)
    (stop_loading t) (t_fail t) (t_success t).
Definition set_error (e : pyexn) (t : task V G) : task V G :=
  Task (started t) (completed t) (Some e) (generator t) (client t) (exp t) (docs_loaded t) (itr_count t)
    (stop_loading t) (t_fail t) (t_success t).
Definition set_generator (g : G) (t : task V G) : task V G :=
  Task (started t) (completed t) (exception t) g (client t) (exp t) (docs_loaded t) (itr_count t)
    (stop_loading t) (t_fail t) (t_success t).
Definition set_client (c : option nat) (t : task V G) : task V G :=
  Task (started t) (completed t) (exception t) (generator t) c (exp t) (docs_loaded t) (itr_count t)
    (stop_loading t) (t_fail t) (t_success t).
Definition set_exp (e : Z) (t : task V G) : task V G :=
  Task (started t) (completed t) (exception t) (generator t) (client t) e (docs_loaded t) (itr_count t)
    (stop_loading t) (t_fail t) (t_success t).
Definition add_loaded (n : Z) (t : task V G) : task V G :=
  Task (started t) (completed t) (exception t) (generator t) (client t) (exp t) (docs_loaded t + n) (itr_count t)
    (stop_loading t) (t_fail t) (t_success t).
Definition count_iteration (t : task V G) : task V G :=
  Task (started t) (completed t) (exception t) (generator t) (client t) (exp t) (docs_loaded t) (itr_count t + 1)
    (stop_loading t) (t_fail t) (t_success t).
Definition set_stop (t : task V G) : task V G :=
  Task (started t) (completed t) (exception t) (generator t) (client t) (exp t) (docs_loaded t) (itr_count t)
    true (t_fail t) (t_success t).
Definition update_fail (f : entries V) (t : task V G) : task V G :=
  Task (started t) (completed t) (exception t) (generator t) (client t) (exp t) (docs_loaded t) (itr_count t)
    (stop_loading t) (f ∪ t_fail t) (t_success t).
Definition update_success (f : entries V) (t : task V G) : task V G :=
  Task (started t) (completed t) (exception t) (generator t) (client t) (exp t) (docs_loaded t) (itr_count t)
    (stop_loading t) (t_fail t) (f ∪ t_success t).

(** [Task.start_task], [complete_task], [set_exception], [set_warn] and [GenericLoadingTask.end_task] *)
Definition start_task : MT unit := on_task set_started.
Definition complete_task : MT unit := on_task set_completed.
Definition set_exception {A} (e : pyexn) : MT A :=
  _ ← on_task (set_error e);
  _ ← complete_task;
  mraise BaseException.
Definition set_warn (e : pyexn) : MT unit := _ ← on_task (set_error e); complete_task.
Definition end_task : MT unit := on_task set_stop.

(** ** The batch methods *)

Definition options (pe : option bool) (tr : option pystr) (e : Z) : opts :=
  Opts e (exp_unit cf) (persist_to cf) (replicate_to cf) (timeout cf) (time_unit cf) (durability cf) pe tr.
(** A method of [self.client], which may be [None]. *)
Definition with_client {A} (m : M W A) : MT A :=
  t ← gets tk;
  match client t with None => mraise AttributeError | Some _ => on_world m end.

Definition batch_read (keys : list pystr) : MT (entries V * entries V) :=
  with_client (get_multi keys (Opts 0 [] 0 0 (timeout cf) (time_unit cf) [] None None)).

(** The loop over the failures of a create or replace ([recovers] says whether the document that was read shows that
    the write happened): such a failure becomes a success, without its "error". *)
Definition recover (recovers : entry V → entry V → bool) (read_map : entries V) (sf : entries V * entries V)
    : entries V * entries V :=
  let found := map_imap (λ k e, r ← read_map !! k;
                               if recovers e r then Some (Entry (e_value e) (e_cas e) None) else None) sf.2 in
  (found ∪ sf.1, sf.2 ∖ found).
(** In [batch_create] and [batch_replace]: [read_map[key]["cas"] != 0].  In [batch_update] also
    [value == read_map[key]["value"]], where [value] is the dictionary of the failure and never equal to
    a document. *)
Definition was_written (e r : entry V) : bool := negb (e_cas r =? 0).
Definition dict_equals_document (e : entry V) (v : field V) : bool := false.
Definition was_updated (e r : entry V) : bool := was_written e r && dict_equals_document e (e_value r).

(** The body that [batch_create], [batch_update] and [batch_replace] share: every exception is logged and
    what was known by then is returned. *)
Definition batch_write (recovers : entry V → entry V → bool) (m : M W (entries V * entries V))
    : MT (entries V * entries V) :=
  r ← except_Exception (sf ← with_client m; mret (Some sf)) (λ _, mret None);
  match r with
  | None => mret (∅, ∅)
  | Some sf =>
      if bool_decide (sf.2 = ∅) || skip_read_on_error cf then mret sf
      else except_Exception (rd ← batch_read ((map_to_list sf.2).*1); mret (recover recovers rd.1 sf))
             (λ _, mret sf)
  end.

Definition batch_create (kvs : batch V) : MT (entries V * entries V) :=
  t ← gets tk;
  batch_write was_written (set_multi kvs (options None (transcoder (cf_doc_type cf)) (exp t))).
Definition batch_update (kvs : batch V) : MT (entries V * entries V) :=
  t ← gets tk;
  batch_write was_updated (upsert_multi kvs (options (preserve_expiry cf) (transcoder (cf_doc_type cf)) (exp t))).
Definition batch_replace (kvs : batch V) : MT (entries V * entries V) :=
  t ← gets tk;
  batch_write was_written (replace_multi kvs (options (preserve_expiry cf) (transcoder (cf_doc_type cf)) (exp t))).

(** [dict(key_value).keys()]: each key once (in the order of the map). *)
Definition keys_of (kvs : batch V) : list pystr :=
  (map_to_list (list_to_map (reverse kvs) : gmap pystr (option V))).*1.
Definition batch_delete (kvs : batch V) : MT (entries V * entries V) :=
  with_client (delete_multi (keys_of kvs) (options None None 0)).
Definition batch_touch (kvs : batch V) (e : Z) : MT (entries V * entries V) :=
  with_client (touch_multi (keys_of kvs) e (Opts 0 [] 0 0 (timeout cf) (time_unit cf) [] None None)).

(** ** [LoadDocumentsTask] *)

Definition skip_doc_gen_value : bool :=
  bool_decide (op_type cf ∈ [DocOps.DELETE; DocOps.TOUCH; DocOps.READ]).
Definition has_next : MT bool := gets (λ s, g_has_next (generator (tk s))).

(** What [next] does with the results of a batch. *)
Definition track (fail : entries V) : MT unit := if track_failures cf then on_task (update_fail fail) else mret tt.
Definition do_batch (kvs : batch V) : MT unit :=
  let op := op_type cf in
  if bool_decide (op = DocOps.CREATE) then sf ← batch_create kvs; track sf.2
  else if bool_decide (op = DocOps.UPDATE) then sf ← batch_update kvs; track sf.2
  else if bool_decide (op = DocOps.REPLACE) then sf ← batch_replace kvs; track sf.2
  else if bool_decide (op = DocOps.DELETE) then sf ← batch_delete kvs; track sf.2
  else if bool_decide (op = DocOps.TOUCH) then t ← gets tk; sf ← batch_touch kvs (exp t); track sf.2
  else if bool_decide (op = DocOps.READ) then
    sf ← batch_read (keys_of kvs);
    _ ← track sf.2;
    if skip_read_success_results cf then mret tt else on_task (update_success sf.1)
  else set_exception (Exn GenericException (py "Bad operation: " ++ op)).

Definition take_client : MT unit :=
  if use_pool cf then c ← on_world pool_get; on_task (set_client c) else mret tt.
Definition give_client : MT unit :=
  if use_pool cf then
    t ← gets tk;
    _ ← match client t with None => mraise AttributeError | Some c => on_world (pool_release c) end;
    on_task (set_client None)
  else mret tt.

Definition next : MT unit :=
  kvs ← on_gen (next_batch (batch_size cf) skip_doc_gen_value);
  _ ← (if random_exp cf then e ← lift (randint (abs_exp cf / 2) (abs_exp cf)); on_task (set_exp e) else mret tt);
  _ ← take_client;
  _ ← do_batch kvs;
  _ ← give_client;
  on_task (add_loaded (len kvs)).

(** ** [GenericLoadingTask.call] *)

(** [while self.has_next(): self.next()] and the loop of iterations, for any [next]; the fuel counts rounds of each. *)
Section Call.
Context (nxt : MT unit).
Fixpoint load_all (fuel : nat) : MT unit :=
  b ← has_next;
  if (b : bool) then
    match fuel with O => mraise Blocked | S fuel => _ ← nxt; load_all fuel end
  else mret tt.
Fixpoint iterations (rounds fuel : nat) : MT unit :=
  t ← gets tk;
  if stop_loading t then mret tt
  else match rounds with
  | O => mraise Blocked
  | S rounds =>
      _ ← on_task count_iteration;
      t ← gets tk;
      _ ← (if negb (req_iterations cf =? -1) && (req_iterations cf <=? itr_count t) then on_task set_stop else mret tt);
      _ ← on_task (λ t, set_generator (g_reset (generator t)) t);
      _ ← except_Exception (load_all fuel) (λ e, set_exception (Exn GenericException (exn_msg e)));
      iterations rounds fuel
  end.
Definition call (rounds fuel : nat) : MT unit :=
  _ ← start_task;
  _ ← iterations rounds fuel;
  complete_task.
End Call.
End Task.

(** ** Splitting a generator *)

(** [gen_range] of [get_tasks] *)
Definition gen_range (st en concurrency : Z) : res Z :=
  if concurrency =? 0 then raise ZeroDivisionError else Ok (Z.max ((en - st) / concurrency) 1).
(** [range(st, en, step)] for a positive step *)
Definition py_range (st en step : Z) : list Z :=
  (λ i, st + Z.of_nat i * step) <$> seq 0 (Z.to_nat ((en - st + step - 1) / step)).
(** The parts: where each starts and ends. *)
Definition parts (st en concurrency : Z) : res (list (Z * Z)) :=
  r ← gen_range st en concurrency;
  Ok ((λ pos, (pos, if en <? pos + r then en else pos + r)) <$> py_range st en r).
(** [partition_gen]: a deep copy with another range. *)
Definition partition_gen (g : docgen) (p : Z * Z) : docgen :=
  DocGenerator (name g) p.1 p.1 p.2 (doc_type g) (key_size g) (doc_size g) (body g)
    (randomize_doc_size g) (randomize_value g) (randomize g) (mix_key_size g) (deep_copy g)
    (kwargs g) (template g) (heap g).

Definition new_task {V G} (cf : config) (c : option nat) (g : G) : task V G :=
  Task false false None g c (abs_exp cf) 0 0 false ∅ ∅.

(** [LoadDocumentsGeneratorsTask.get_tasks], and the clients that [ServerTasks.async_load_gen_docs] makes for them. *)
Fixpoint make_tasks {V} (cf : config) (gs : list docgen) (clients : list (option nat)) : res (list (task V docgen)) :=
  match gs with
  | [] => Ok []
  | g :: gs =>
      match clients with
      | [] => raise IndexError
      | c :: clients => ts ← make_tasks cf gs clients; Ok (new_task cf c g :: ts)
      end
  end.
Definition get_tasks {V} (cf : config) (concurrency : Z) (clients : list (option nat)) (g : docgen) : res (list (task V docgen)) :=
  ps ← parts (start g) (end_ g) concurrency;
  _ ← (if bool_decide (ps = []) then Ok tt else _ ← new_batched (batch_size cf); Ok tt);
  make_tasks cf (partition_gen g <$> ps) clients.
Definition make_clients (connect : nat → nat) (g : docgen) (concurrency : Z) (pool : bool) : res (list (option nat)) :=
  r ← gen_range (start g) (end_ g) concurrency;
  Ok ((λ i, if pool then None else Some (connect i)) <$> seq 0 (length (py_range (start g) (end_ g) r))).

(** What [LoadDocumentsGeneratorsTask.call] collects from its tasks: [self.success] and [self.fail]. *)
Definition collect {V G} (track : bool) (ts : list (task V G)) : entries V * entries V :=
  foldl (λ acc t, (t_success t ∪ acc.1, if track then t_fail t ∪ acc.2 else acc.2)) (∅, ∅) ts.

(** ** Proofs: splitting *)

Lemma length_py_range st en r : 0 < r → Z.of_nat (length (py_range st en r)) = Z.max 0 ((en - st + r - 1) / r).
Proof. intros Hr. unfold py_range. rewrite length_fmap, length_seq. lia. Qed.

Lemma py_range_cons st en r : 0 < r → st < en → py_range st en r = st :: py_range (st + r) en r.
Proof.
  intros Hr Hlt. unfold py_range.
  assert ((en - st + r - 1) / r = (en - (st + r) + r - 1) / r + 1) as ->.
  { rewrite <- Z.div_add by lia. f_equal. lia. }
  assert (0 ≤ (en - (st + r) + r - 1) / r) by (apply Z.div_pos; lia).
  rewrite Z.add_1_r, Z2Nat.inj_succ by done. cbn [seq fmap list_fmap]. f_equal; [lia|].
  rewrite <- fmap_S_seq, <- list_fmap_compose. apply list_fmap_ext. intros i x _. cbn. lia.
Qed.
Lemma py_range_nil st en r : 0 < r → en ≤ st → py_range st en r = [].
Proof.
  intros Hr Hle. unfold py_range. rewrite (Z2Nat.nonpos ((en - st + r - 1) / r)); [done|].
  assert ((en - st + r - 1) / r < 1); [|lia]. apply Z.div_lt_upper_bound; lia.
Qed.

(** The parts of a range with a step, one after the other. *)
Lemma parts_concat n st en r :
  0 < r → (Z.to_nat (en - st) ≤ n)%nat →
  let ps := (λ pos, (pos, if en <? pos + r then en else pos + r)) <$> py_range st en r in
  concat ((λ p : Z * Z, seqZ p.1 (p.2 - p.1)) <$> ps) = seqZ st (en - st) ∧
  Forall (λ p : Z * Z, st ≤ p.1 < p.2 ∧ p.2 ≤ en ∧ p.2 - p.1 ≤ r) ps.
Proof.
  intros Hr. revert st. induction n as [|n IH]; intros st Hn ps; unfold ps; clear ps;
    (destruct (Z.le_gt_cases en st) as [Hle|Hlt]; [rewrite py_range_nil, seqZ_nil by lia; done|]); [lia|].
  rewrite py_range_cons by done. destruct (IH (st + r)) as [Hc Hf]; [lia|].
  rewrite !fmap_cons. cbn [concat fst snd]. rewrite Hc. clear IH Hc. destruct (Z.ltb_spec en (st + r)) as [H|H].
  - rewrite (seqZ_nil (st + r)) by lia. rewrite app_nil_r. split; [done|]. constructor; [cbn; lia|].
    eapply Forall_impl; [exact Hf|]. cbn. lia.
  - split.
    + replace (st + r - st) with r by lia. rewrite <- seqZ_app by lia. f_equal. lia.
    + constructor; [cbn; lia|]. eapply Forall_impl; [exact Hf|]. cbn. lia.
Qed.

Lemma make_tasks_ok {V} cf gs clients :
  length gs = length clients →
  make_tasks (V := V) cf gs clients = Ok (zip_with (new_task cf) clients gs).
Proof.
  revert clients. induction gs as [|g gs IH]; intros [|c clients] Hl; try done.
  cbn [make_tasks]. rewrite IH by (cbn in Hl; lia). done.
Qed.

(** The tasks have the generators they were made for. *)
Lemma new_tasks_map {V A} cf (h : task V docgen → A) (h' : docgen → A) clients gs :
  length gs = length clients → (∀ c g, h (new_task cf c g) = h' g) →
  h <$> zip_with (new_task cf) clients gs = h' <$> gs.
Proof.
  intros Hl Hh. revert clients Hl. induction gs as [|g gs IH]; intros [|c clients] Hl; try done.
  cbn. rewrite Hh. f_equal. apply IH. cbn in Hl. lia.
Qed.
Lemma new_tasks_Forall {V} cf (P : task V docgen → Prop) (Q : option nat → Prop) clients gs :
  Forall Q clients → Forall (λ g, ∀ c, Q c → P (new_task cf c g)) gs → Forall P (zip_with (new_task cf) clients gs).
Proof.
  intros Hc Hg. revert clients Hc. induction Hg as [|g gs Hg _ IH]; intros ? [|c clients Hc Hcs]; cbn; constructor; auto.
Qed.

(** The number of parts is between the number asked for and twice that. *)
Lemma parts_count n c : 0 < c → 0 ≤ n →
  let k := (n + Z.max (n / c) 1 - 1) / Z.max (n / c) 1 in Z.min n c ≤ k ≤ Z.min n (2 * c - 1).
Proof.
  intros Hc Hn k. set (r := Z.max (n / c) 1) in *. assert (1 ≤ r) as Hr by lia.
  pose proof (Z.div_mod (n + r - 1) r ltac:(lia)) as E. pose proof (Z.mod_pos_bound (n + r - 1) r ltac:(lia)) as B. fold k in E.
  destruct (Z.lt_ge_cases n c) as [H|H].
  - assert (n / c = 0) as E0 by (apply Z.div_small; lia). assert (r = 1) as -> by lia. lia.
  - pose proof (Z.div_mod n c ltac:(lia)) as E'. pose proof (Z.mod_pos_bound n c Hc) as B'.
    assert (1 ≤ n / c) by (apply Z.div_le_lower_bound; lia). assert (r = n / c) as Hrr by lia. rewrite <- Hrr in *.
    clearbody r k. nia.
Qed.

(** ** The promise of the cluster *)

(** One result per key, in any order, with a message for every error. *)
Definition results_for {V} (keys : list pystr) (rs : list (jresult V)) : Prop :=
  jr_id <$> rs ≡ₚ keys ∧ Forall (λ r, jr_status r = false → is_Some (je_message (jr_error r))) rs.

(** What the data service documents: an insert succeeds only on a new key, a replace only on an existing one; a write that fails may still have
    happened (its acknowledgement was lost); a read finds documents that exist, with a CAS, and may fail; other keys are not touched. *)
Class DocOpLaws (W V : Type) `{DocOp W V} := {
  docs : W → gmap pystr V;
  insert_law kvs o w : NoDup kvs.*1 → Forall (λ kv, is_Some kv.2) kvs → ∃ rs w', bulkInsert kvs o w = (Ok (Some rs), w') ∧
    results_for kvs.*1 rs ∧ (∀ k, k ∉ kvs.*1 → docs w' !! k = docs w !! k) ∧
    ∀ r v, r ∈ rs → (jr_id r, v) ∈ kvs →
      if jr_status r then docs w !! jr_id r = None ∧ docs w' !! jr_id r = v
      else docs w' !! jr_id r = docs w !! jr_id r ∨ (docs w !! jr_id r = None ∧ docs w' !! jr_id r = v);
  upsert_law kvs o w : NoDup kvs.*1 → Forall (λ kv, is_Some kv.2) kvs → ∃ rs w', bulkUpsert kvs o w = (Ok (Some rs), w') ∧
    results_for kvs.*1 rs ∧ (∀ k, k ∉ kvs.*1 → docs w' !! k = docs w !! k) ∧
    ∀ r v, r ∈ rs → (jr_id r, v) ∈ kvs →
      if jr_status r then docs w' !! jr_id r = v
      else docs w' !! jr_id r = docs w !! jr_id r ∨ docs w' !! jr_id r = v;
  replace_law kvs o w : NoDup kvs.*1 → Forall (λ kv, is_Some kv.2) kvs → ∃ rs w', bulkReplace kvs o w = (Ok (Some rs), w') ∧
    results_for kvs.*1 rs ∧ (∀ k, k ∉ kvs.*1 → docs w' !! k = docs w !! k) ∧
    ∀ r v, r ∈ rs → (jr_id r, v) ∈ kvs →
      if jr_status r then is_Some (docs w !! jr_id r) ∧ docs w' !! jr_id r = v
      else docs w' !! jr_id r = docs w !! jr_id r ∨ (is_Some (docs w !! jr_id r) ∧ docs w' !! jr_id r = v);
  get_law keys o w : NoDup keys → ∃ rs w', bulkGet keys o w = (Ok (Some rs), w') ∧
    results_for keys rs ∧ docs w' = docs w ∧
    ∀ r, r ∈ rs → jr_status r = true → docs w !! jr_id r = Some (jr_value r) ∧ jr_cas r ≠ 0
}.

(** ** Proofs: the results *)

Section Results.
Context {V : Type}.
Implicit Types (rs : list (jresult V)).

Lemma error_text_ok e : is_Some (je_message e) → ∃ t, error_text e = Ok t.
Proof. intros [m Hm]. unfold error_text. rewrite Hm. cbn. eauto. Qed.

(** With one result per key, the entries are those of the results. *)
Lemma translate_spec ok value rs acc :
  NoDup (jr_id <$> rs) → Forall (λ r, jr_status r = false → is_Some (je_message (jr_error r))) rs →
  ∃ s f, translate ok value rs acc = Ok (s, f) ∧
    ∀ k, (k ∉ jr_id <$> rs → s !! k = acc.1 !! k ∧ f !! k = acc.2 !! k) ∧
      (∀ r, r ∈ rs → jr_id r = k →
         if jr_status r then s !! k = Some (ok r) ∧ f !! k = acc.2 !! k
         else s !! k = acc.1 !! k ∧ ∃ t, f !! k = Some (Entry (value r) (jr_cas r) (Some t))).
Proof.
  revert acc. induction rs as [|r rs IH]; intros [s0 f0] Hnd Hm.
  { exists s0, f0. split; [done|]. intros k. split; [done|]. by intros r ?%elem_of_nil. }
  rewrite fmap_cons, NoDup_cons in Hnd. destruct Hnd as [Hni Hnd]. apply Forall_cons in Hm as [Hr Hm].
  cbn [translate fst snd].
  assert (∃ s1 f1, translate ok value (r :: rs) (s0, f0) = translate ok value rs (s1, f1) ∧
    (∀ k, k ≠ jr_id r → s1 !! k = s0 !! k ∧ f1 !! k = f0 !! k) ∧
    if jr_status r then s1 !! jr_id r = Some (ok r) ∧ f1 !! jr_id r = f0 !! jr_id r
    else s1 !! jr_id r = s0 !! jr_id r ∧ ∃ t, f1 !! jr_id r = Some (Entry (value r) (jr_cas r) (Some t)))
    as (s1 & f1 & He & Hne & Heq).
  { cbn [translate fst snd]. destruct (jr_status r).
    - eexists _, _. split; [reflexivity|]. split; [|by rewrite lookup_insert_eq].
      intros k Hk. by rewrite lookup_insert_ne by congruence.
    - destruct (error_text_ok (jr_error r)) as [t Ht]; [auto|]. rewrite Ht. cbn.
      eexists _, _. split; [reflexivity|]. rewrite lookup_insert_eq. split; [|eauto].
      intros k Hk. by rewrite lookup_insert_ne by congruence. }
  cbn [translate fst snd] in He. rewrite He. destruct (IH (s1, f1) Hnd Hm) as (s & f & -> & Hk). exists s, f.
  split; [done|]. intros k. destruct (Hk k) as [Hk1 Hk2]. cbn [fst snd] in *. split.
  - rewrite fmap_cons, elem_of_cons. intros Hn. destruct (Hk1 ltac:(tauto)) as [-> ->]. apply Hne. tauto.
  - intros r' [->|Hin]%elem_of_cons Hid.
    + rewrite <- Hid in *. destruct (Hk1 Hni) as [-> ->]. done.
    + assert (k ≠ jr_id r) as Hne'.
      { intros ->. apply Hni. rewrite <- Hid. apply list_elem_of_fmap. eauto. }
      specialize (Hk2 r' Hin Hid). destruct (Hne k Hne') as [Es Ef]. by rewrite Es, Ef in Hk2.
Qed.

Lemma translated_spec ok value keys rs :
  NoDup keys → results_for keys rs →
  ∃ s f, translated ok value (Some rs) = Ok (s, f) ∧ (∀ k, k ∉ keys → s !! k = None ∧ f !! k = None) ∧
    ∀ r, r ∈ rs →
      if jr_status r then s !! jr_id r = Some (ok r) ∧ f !! jr_id r = None
      else s !! jr_id r = None ∧ ∃ t, f !! jr_id r = Some (Entry (value r) (jr_cas r) (Some t)).
Proof.
  intros Hnd [Hp Hm]. destruct (translate_spec ok value rs (∅, ∅)) as (s & f & He & Hk); [by rewrite Hp|done|].
  exists s, f. split; [done|]. split.
  - intros k Hn. apply Hk. by rewrite Hp.
  - intros r Hr. destruct (Hk (jr_id r)) as [_ H]. by apply (H r Hr).
Qed.

(** Every key has its result. *)
Lemma results_for_elem keys rs k : results_for keys rs → k ∈ keys → ∃ r, r ∈ rs ∧ jr_id r = k.
Proof. intros [Hp _] Hk. rewrite <- Hp in Hk. apply list_elem_of_fmap in Hk as (r & -> & Hr). eauto. Qed.
End Results.

(** ** Proofs: a batch *)

Section Batch.
Context {W V G : Type} `{HL : DocOpLaws W V} `{HG : Generator G V}.
Context (cf : config).
Implicit Types (t : task V G) (w : W) (s f rm : entries V) (kvs : batch V).

Lemma recover_lookup (rec : entry V → entry V → bool) rm s f k :
  (recover rec rm (s, f)).2 !! k =
    match f !! k with
    | Some e => match rm !! k with Some r => if rec e r then None else Some e | None => Some e end
    | None => None
    end.
Proof.
  unfold recover. cbn [snd fst]. set (found := map_imap _ f).
  assert (found !! k = (e ← f !! k; r ← rm !! k; if rec e r then Some (Entry (e_value e) (e_cas e) None) else None)) as Hf.
  { unfold found. by rewrite map_lookup_imap. }
  rewrite lookup_difference, Hf. destruct (f !! k) as [e|]; cbn; [|done]. destruct (rm !! k) as [r|]; cbn; [|done].
  by destruct (rec e r).
Qed.
Lemma recover_nothing (rec : entry V → entry V → bool) s f : recover rec ∅ (s, f) = (s, f).
Proof.
  unfold recover. cbn [fst snd]. assert (map_imap (λ k e, r ← (∅ : entries V) !! k;
    if rec e r then Some (Entry (e_value e) (e_cas e) None) else None) f = ∅) as ->.
  { apply map_eq. intros k. rewrite map_lookup_imap, lookup_empty. by destruct (f !! k). }
  by rewrite map_empty_union, map_difference_empty.
Qed.

Lemma with_client_run {A} (m : M W A) t w : client t ≠ None →
  with_client m (Running t w) = (let '(r, w') := m w in (r, Running t w')).
Proof. intros Hc. unfold with_client. rewrite (bind_Ok (gets _) _ _ _ _ eq_refl). cbn. by destruct (client t). Qed.

(** The documents that a read finds. *)
Definition found_in (rm : entries V) (w : W) : Prop :=
  ∀ k e, rm !! k = Some e → ∃ v, docs w !! k = Some v ∧ e_value e = Value v ∧ e_cas e ≠ 0.

Lemma get_multi_run keys o w : NoDup keys →
  ∃ rm f w', get_multi keys o w = (Ok (rm, f), w') ∧ docs w' = docs w ∧ found_in rm w ∧
    (∀ k, k ∉ keys → rm !! k = None ∧ f !! k = None) ∧
    (∀ k, k ∈ keys → is_Some (rm !! k) ∨ ∃ e x, f !! k = Some e ∧ e_error e = Some x).
Proof.
  intros Hnd. unfold get_multi, on_java. destruct (get_law keys o w Hnd) as (rs & w' & Hg & Hrs & Hd & Hr).
  rewrite (bind_Ok _ _ _ _ _ Hg). unfold translate_get_multi_results.
  destruct (translated_spec (λ r, Entry (Value (jr_value r)) (jr_cas r) None) (λ _ : jresult V, EmptyDict) keys rs Hnd Hrs)
    as (rm & f & -> & Hn & Hk). cbn. exists rm, f, w'. split_and!; [done|done| |done|].
  - intros k e He. destruct (decide (k ∈ keys)) as [Hin|Hin]; [|by destruct (Hn k Hin) as [? _]; congruence].
    destruct (results_for_elem keys rs k Hrs Hin) as (r & Hr1 & <-). specialize (Hk r Hr1). specialize (Hr r Hr1).
    destruct (jr_status r); [|destruct Hk as [Hk _]; congruence]. destruct Hk as [Hk _]. rewrite Hk in He. injection He as <-.
    destruct Hr as [? ?]; [done|]. eauto.
  - intros k Hin. destruct (results_for_elem keys rs k Hrs Hin) as (r & Hr1 & <-). specialize (Hk r Hr1).
    destruct (jr_status r); [left; destruct Hk as [-> _]; eauto|right]. destruct Hk as (_ & x & ->). eauto.
Qed.

Lemma batch_read_run keys t w : client t ≠ None → NoDup keys →
  ∃ rm f w', batch_read cf keys (Running t w) = (Ok (rm, f), Running t w') ∧ docs w' = docs w ∧ found_in rm w.
Proof.
  intros Hc Hnd. unfold batch_read. rewrite with_client_run by done.
  destruct (get_multi_run keys (Opts 0 [] 0 0 (timeout cf) (time_unit cf) [] None None) w Hnd) as (rm & f & w' & -> & Hd & Hf & _).
  by exists rm, f, w'.
Qed.

Lemma batch_write_run (rec : entry V → entry V → bool) (m : M W (entries V * entries V)) t w s f (w1 : W) :
  client t ≠ None → m w = (Ok (s, f), w1) →
  ∃ rm w2, batch_write cf rec m (Running t w) = (Ok (recover rec rm (s, f)), Running t w2) ∧
    docs w2 = docs w1 ∧ found_in rm w1 ∧
    (skip_read_on_error cf = true → rm = ∅).
Proof.
  intros Hc Hm. unfold batch_write.
  assert (except_Exception (sf ← with_client m; mret (Some sf)) (λ _, mret None) (Running t w) =
    (Ok (Some (s, f)), Running t w1)) as He.
  { unfold except_Exception, try_except. erewrite bind_Ok; [reflexivity|]. by rewrite with_client_run, Hm. }
  rewrite (bind_Ok _ _ _ _ _ He). cbn [snd]. destruct (bool_decide (f = ∅) || skip_read_on_error cf) eqn:E.
  { exists ∅, w1. rewrite recover_nothing. split_and!; try done. }
  apply orb_false_iff in E as [_ E].
  destruct (batch_read_run ((map_to_list f).*1) t w1 Hc (NoDup_fst_map_to_list f)) as (rm & fr & w2 & Hr & Hd & Hf).
  exists rm, w2. split_and!; [|done|done|congruence].
  unfold except_Exception, try_except. by erewrite bind_Ok by exact Hr.
Qed.
End Batch.

Section Create.
Context {W V G : Type} {HD : DocOp W V} {HL : DocOpLaws W V} {HP : Pool W} {HG : Generator G V} {HGL : GeneratorLaws G V}.
Context (randint : Z → Z → res Z) (cf : config).
Implicit Types (t : task V G) (w : W) (kvs b : batch V).

(** The values of a batch are documents unless they were skipped. *)
Lemma next_batch_loop_values n skip (val : option V) (g : G) kvs g' :
  next_batch_loop n skip val g = (Ok kvs, g') → (skip = true → is_Some val) → Forall (λ kv, is_Some kv.2) kvs.
Proof.
  revert skip val g kvs g'. induction n as [|n IH]; intros skip val g kvs g'; cbn [next_batch_loop]; [by intros [= <- _] _|].
  rewrite (bind_Ok get _ _ _ _ eq_refl). destruct (g_has_next g); [|by intros [= <- _] _].
  destruct (negb skip || g_deep_copy g) eqn:E; intros (x & g1 & H1 & H2)%bind_inv Hs.
  - destruct x as [k v]. apply bind_inv in H2 as (rest & g2 & H2 & [= <- <-]).
    constructor; [by eexists|]. eapply IH; [exact H2|by eexists].
  - apply bind_inv in H2 as (rest & g2 & H2 & [= <- <-]).
    destruct skip; [|done]. constructor; [by apply Hs|]. by eapply IH.
Qed.

(** A batch of new documents: those that are not reported as failed exist, with the value that was sent. *)
Lemma batch_create_run kvs t w :
  client t ≠ None → NoDup kvs.*1 → Forall (λ kv, is_Some kv.2) kvs → (∀ k, k ∈ kvs.*1 → docs w !! k = None) →
  ∃ s f w', batch_create cf kvs (Running t w) = (Ok (s, f), Running t w') ∧ dom f ⊆ list_to_set kvs.*1 ∧
    (∀ k, k ∉ kvs.*1 → docs w' !! k = docs w !! k) ∧
    (∀ k v, (k, v) ∈ kvs → docs w' !! k = v ∨ (docs w' !! k = None ∧ is_Some (f !! k))).
Proof.
  intros Hc Hnd Hv Hnew. unfold batch_create. rewrite (bind_Ok (gets _) _ _ _ _ eq_refl). cbn [tk].
  set (o := options _ _ _ _). destruct (insert_law kvs o w Hnd Hv) as (rs & w1 & Hi & Hrs & Ho & Hr).
  destruct (translated_spec (λ r, Entry (Value (jr_value r)) (jr_cas r) None) (λ r, Value (jr_value r)) kvs.*1 rs Hnd Hrs)
    as (s & f & Ht & Hn & Hk).
  assert (set_multi kvs o w = (Ok (s, f), w1)) as Hs.
  { unfold set_multi, on_java. rewrite (bind_Ok _ _ _ _ _ Hi). unfold translate_upsert_multi_results. by rewrite Ht. }
  destruct (batch_write_run cf was_written _ t w s f w1 Hc Hs) as (rm & w2 & Hb & Hd & Hf & _).
  rewrite Hb. destruct (recover was_written rm (s, f)) as [s' f'] eqn:Erec. exists s', f', w2.
  assert (∀ k, f' !! k = (recover was_written rm (s, f)).2 !! k) as Hf' by (by rewrite Erec).
  split_and!; [done| | |].
  - intros k Hkd. apply elem_of_list_to_set. apply elem_of_dom in Hkd as [e He]. rewrite Hf', recover_lookup in He.
    destruct (decide (k ∈ kvs.*1)); [done|]. destruct (Hn k) as [_ E]; [done|]. by rewrite E in He.
  - intros k Hk'. rewrite Hd. by apply Ho.
  - intros k v Hkv. assert (k ∈ kvs.*1) as Hin by (apply list_elem_of_fmap; by exists (k, v)).
    destruct (results_for_elem _ rs k Hrs Hin) as (r & Hr1 & <-). specialize (Hk r Hr1). specialize (Hr r v Hr1 Hkv).
    rewrite Hd, Hf', recover_lookup. specialize (Hnew _ Hin). destruct (jr_status r); [left; by destruct Hr|].
    destruct Hr as [Hr|[_ Hr]]; [|by left]. right. destruct Hk as (_ & x & ->). split; [congruence|].
    destruct (rm !! jr_id r) as [e|] eqn:Erm; [|by eexists]. destruct (Hf _ _ Erm) as (v' & Hv' & _). congruence.
Qed.

(** A call of [next] of a task that creates documents with its own client. *)
Context (Hop : op_type cf = DocOps.CREATE) (Hpool : use_pool cf = false) (Hexp : random_exp cf = false)
        (Htrack : track_failures cf = true).

(** A batch keeps what the loop of iterations looks at. *)
Definition same_control (t t' : task V G) : Prop :=
  stop_loading t' = stop_loading t ∧ started t' = started t ∧ exception t' = exception t ∧ itr_count t' = itr_count t.
Lemma next_create t w :
  client t ≠ None → g_ok (generator t) → NoDup (g_keys (generator t)) → (∀ k, k ∈ g_keys (generator t) → docs w !! k = None) →
  ∃ b t' w' f, next randint cf (Running t w) = (Ok tt, Running t' w') ∧
    next_batch (batch_size cf) false (generator t) = (Ok b, generator t') ∧
    b.*1 = take (Z.to_nat (batch_size cf)) (g_keys (generator t)) ∧
    g_ok (generator t') ∧ g_keys (generator t') = drop (Z.to_nat (batch_size cf)) (g_keys (generator t)) ∧
    client t' = client t ∧ same_control t t' ∧ docs_loaded t' = docs_loaded t + len b ∧
    t_fail t' = f ∪ t_fail t ∧ dom f ⊆ list_to_set b.*1 ∧
    (∀ k, k ∉ b.*1 → docs w' !! k = docs w !! k) ∧
    (∀ k v, (k, v) ∈ b → docs w' !! k = v ∨ (docs w' !! k = None ∧ is_Some (f !! k))).
Proof.
  intros Hc Hok Hnd Hnew. unfold next.
  assert (skip_doc_gen_value cf = false) as -> by (unfold skip_doc_gen_value; by rewrite Hop).
  destruct (next_batch_loop_keys (Z.to_nat (batch_size cf)) false None (generator t) Hok) as (b & g' & Hg & Hb & Hok' & Hk').
  erewrite bind_Ok by (unfold on_gen; cbn [tk world]; unfold next_batch; rewrite Hg; reflexivity).
  rewrite Hexp. unfold take_client, give_client. rewrite Hpool. do 2 erewrite (bind_Ok (mret tt)) by reflexivity.
  cbn [generator world]. set (t1 := Task _ _ _ _ _ _ _ _ _ _ _).
  assert (∀ k, k ∈ b.*1 → k ∈ g_keys (generator t)) as Hsub.
  { intros k. rewrite Hb. intros Hk%elem_of_take. destruct Hk as (i & Hi & _). by eapply list_elem_of_lookup_2. }
  destruct (batch_create_run b t1 w) as (s & f & w' & Hcr & Hf & Ho & Hr).
  { done. } { rewrite Hb. rewrite <- (take_drop (Z.to_nat (batch_size cf))) in Hnd. by apply NoDup_app in Hnd as (? & _). } { eapply next_batch_loop_values; [exact Hg|done]. } { auto. }
  assert (do_batch cf b (Running t1 w) = (Ok tt, Running (update_fail f t1) w')) as Hdo.
  { unfold do_batch. rewrite Hop, bool_decide_eq_true_2 by done. rewrite (bind_Ok _ _ _ _ _ Hcr).
    unfold track. by rewrite Htrack. }
  rewrite (bind_Ok _ _ _ _ _ Hdo). erewrite (bind_Ok (mret tt)) by reflexivity.
  exists b, (add_loaded (len b) (update_fail f t1)), w', f. by split_and!.
Qed.

(** ** Proofs: tasks side by side *)

Record system := System { tasks : list (task V G); sys_world : W }.
(** One of the tasks that are not finished runs [next]. *)
Inductive load_step (σ : system) : system → Prop :=
  | load_step_next i t :
      tasks σ !! i = Some t → g_has_next (generator t) = true →
      let r := (next randint cf (Running t (sys_world σ))).2 in
      load_step σ (System (<[i := tk r]> (tasks σ)) (world r)).

(** The batches that a generator has yielded on its way from one state to another. *)
Inductive gen_run : G → list (batch V) → G → Prop :=
  | gen_run_nil g : gen_run g [] g
  | gen_run_snoc g bs g1 b g2 :
      gen_run g bs g1 → g_has_next g1 = true → next_batch (batch_size cf) false g1 = (Ok b, g2) →
      gen_run g (bs ++ [b]) g2.

Lemma gen_run_values g bs g' : gen_run g bs g' → Forall (λ kv, is_Some kv.2) (concat bs).
Proof.
  clear Hop Hpool Hexp Htrack. induction 1 as [g|g bs g1 b g2 _ IH _ Hb]; [constructor|].
  rewrite concat_app. cbn. rewrite app_nil_r. apply Forall_app. split; [done|]. by eapply next_batch_loop_values.
Qed.

(** What has become of a task: the documents of its batches so far are counted, and they exist or have been
    recorded as failed. *)
Definition progress (t0 t : task V G) (w : W) : Prop :=
  ∃ bs, gen_run (generator t0) bs (generator t) ∧ g_ok (generator t) ∧ client t ≠ None ∧
    g_keys (generator t0) = (concat bs).*1 ++ g_keys (generator t) ∧
    docs_loaded t = docs_loaded t0 + len (concat bs) ∧ dom (t_fail t) ⊆ list_to_set (concat bs).*1 ∧
    (∀ k v, (k, v) ∈ concat bs → docs w !! k = v ∨ (docs w !! k = None ∧ k ∈ dom (t_fail t))) ∧
    same_control t0 t.

Definition all_keys (ts : list (task V G)) : list pystr := concat ((λ t, g_keys (generator t)) <$> ts).

Definition system_ok (ts0 : list (task V G)) (w0 : W) (σ : system) : Prop :=
  Forall2 (λ t0 t, progress t0 t (sys_world σ)) ts0 (tasks σ) ∧
  (∀ i t k, tasks σ !! i = Some t → k ∈ g_keys (generator t) → docs (sys_world σ) !! k = None) ∧
  (∀ k, k ∉ all_keys ts0 → docs (sys_world σ) !! k = docs w0 !! k).

Lemma progress_frame t0 t w w' :
  progress t0 t w → (∀ k, k ∈ g_keys (generator t0) → docs w' !! k = docs w !! k) → progress t0 t w'.
Proof.
  intros (bs & H1 & H2 & H3 & H4 & H5 & H6 & H7 & H8) Hf. exists bs. split_and!; try done; try apply H8.
  intros k v Hkv. rewrite Hf; [by apply H7|]. rewrite H4. apply elem_of_app. left.
  apply list_elem_of_fmap. by exists (k, v).
Qed.

Lemma progress_keys t0 t w k : progress t0 t w → k ∈ g_keys (generator t) → k ∈ g_keys (generator t0).
Proof. intros (bs & _ & _ & _ & -> & _). set_solver. Qed.

Lemma concat_disjoint (ls : list (list pystr)) i j l1 l2 x :
  NoDup (concat ls) → ls !! i = Some l1 → ls !! j = Some l2 → x ∈ l1 → x ∈ l2 → i = j.
Proof.
  revert i j. induction ls as [|l ls IH]; intros i j Hnd Hi Hj H1 H2; [done|].
  cbn [concat] in Hnd. apply NoDup_app in Hnd as (_ & Hd & Hnd).
  assert (∀ n l', ls !! n = Some l' → x ∈ l' → x ∈ concat ls) as Hin.
  { intros n l' Hn Hx. apply list_elem_of_In, in_concat. exists l'.
    split; apply list_elem_of_In; [by eapply list_elem_of_lookup_2|done]. }
  destruct i as [|i], j as [|j]; simplify_eq/=; [done| | |by f_equal; eapply IH].
  - by destruct (Hd x H1); eapply Hin.
  - by destruct (Hd x H2); eapply Hin.
Qed.

(** A step moves one task on by one batch and leaves the documents of the others alone. *)
Lemma progress_next t0 t w :
  progress t0 t w → NoDup (g_keys (generator t0)) → g_has_next (generator t) = true →
  (∀ k, k ∈ g_keys (generator t) → docs w !! k = None) →
  let r := next randint cf (Running t w) in
  r.1 = Ok tt ∧ progress t0 (tk r.2) (world r.2) ∧
  (∀ k, k ∉ g_keys (generator t) → docs (world r.2) !! k = docs w !! k) ∧
  (∀ k, k ∈ g_keys (generator (tk r.2)) → k ∈ g_keys (generator t) ∧ docs (world r.2) !! k = None) ∧
  (0 < batch_size cf → (length (g_keys (generator (tk r.2))) < length (g_keys (generator t)))%nat).
Proof.
  intros (bs & Hrun & Hok & Hc & Hkeys & Hl & Hfail & Hdocs & Hctl) Hnd Hn Hnew r. rewrite Hkeys in Hnd.
  apply NoDup_app in Hnd as (Hnd1 & Hdis & Hnd2).
  destruct (next_create t w Hc Hok Hnd2 Hnew) as (b & t' & w' & f & Hr & Hg & Hb & Hok' & Hk' & Hc' & Hctl' & Hl' & Hf & Hfd & Ho & Hd).
  unfold r. rewrite Hr. cbn [fst snd tk world]. clear r Hr.
  assert (∀ k, k ∈ b.*1 → k ∈ g_keys (generator t)) as Hbk.
  { intros k. rewrite Hb. intros (i & Hi & _)%elem_of_take. by eapply list_elem_of_lookup_2. }
  split_and!; [done| | | |].
  - exists (bs ++ [b]). rewrite concat_app. cbn [concat]. rewrite app_nil_r, fmap_app. split; [by econstructor|]. split; [done|]. split; [congruence|].
    split; [|split; [|split; [|split]]].
    + by rewrite Hkeys, <- app_assoc, Hb, Hk', take_drop.
    + rewrite Hl', Hl, len_app. lia.
    + rewrite Hf, dom_union_L, list_to_set_app_L. set_solver.
    + intros k v [Hkv|Hkv]%elem_of_app.
      * assert (k ∈ (concat bs).*1) as Hin by (apply list_elem_of_fmap; by exists (k, v)).
        rewrite Ho by (intros Hkb; by apply (Hdis k Hin), Hbk). destruct (Hdocs k v Hkv) as [?|[? ?]]; [by left|right].
        split; [done|]. rewrite Hf, dom_union_L. set_solver.
      * destruct (Hd k v Hkv) as [?|[? Hs]]; [by left|right]. split; [done|]. rewrite Hf, dom_union_L.
        apply elem_of_union. left. by apply elem_of_dom.
    + unfold same_control in *. naive_solver congruence.
  - intros k Hk. apply Ho. auto.
  - intros k Hk. assert (k ∈ g_keys (generator t)) as Hin.
    { rewrite <- (take_drop (Z.to_nat (batch_size cf)) (g_keys (generator t))), <- Hk'. set_solver. }
    split; [done|]. rewrite Ho; [by apply Hnew|].
    intros Hkb. rewrite <- (take_drop (Z.to_nat (batch_size cf)) (g_keys (generator t))) in Hnd2.
      apply NoDup_app in Hnd2 as (_ & Hd2 & _). rewrite Hb in Hkb. rewrite Hk' in Hk. by apply (Hd2 k).
  - intros Hbs. rewrite Hk', length_drop. rewrite law_has_next in Hn by done.
    destruct (g_keys (generator t)); [done|]. cbn. lia.
Qed.

Lemma load_step_ok ts0 w0 σ σ' :
  NoDup (all_keys ts0) → system_ok ts0 w0 σ → load_step σ σ' →
  system_ok ts0 w0 σ' ∧
  (0 < batch_size cf → (length (all_keys (tasks σ')) < length (all_keys (tasks σ)))%nat).
Proof.
  intros Hnd (Hp & Hnew & Ho) [i t Hi Hn r]. subst r.
  destruct (Forall2_lookup_r _ _ _ _ _ Hp Hi) as (t0 & Hi0 & Hpt).
  assert (∀ j t1 k, ts0 !! j = Some t1 → k ∈ g_keys (generator t1) → k ∈ g_keys (generator t0) → j = i) as Hdis.
  { intros j t1 k Hj H1 H2. eapply (concat_disjoint _ j i _ _ k Hnd); [| |exact H1|exact H2];
      rewrite list_lookup_fmap; [by rewrite Hj|by rewrite Hi0]. }
  assert (NoDup (g_keys (generator t0))) as Hnd0.
  { unfold all_keys in Hnd. rewrite <- (take_drop_middle _ _ _ Hi0), fmap_app, concat_app, fmap_cons in Hnd.
    apply NoDup_app in Hnd as (_ & _ & Hnd). cbn in Hnd. by apply NoDup_app in Hnd as (? & _). }
  destruct (progress_next t0 t (sys_world σ) Hpt Hnd0 Hn) as (_ & Hpt' & Hother & Hnew' & Hless).
  { intros k Hk. by eapply Hnew. }
  set (r := next randint cf (Running t (sys_world σ))) in *. split.
  - split_and!; cbn [tasks sys_world].
    + apply Forall2_lookup. intros j. destruct (decide (j = i)) as [->|Hne].
      * rewrite list_lookup_insert_eq by (by eapply lookup_lt_Some). rewrite Hi0. by constructor.
      * rewrite list_lookup_insert_ne by done. pose proof (proj1 (Forall2_lookup _ _ _) Hp j) as Hj.
        destruct (ts0 !! j) as [t1|] eqn:E1; inversion Hj as [? t1' Hp1|]; [|by constructor]. constructor.
        eapply progress_frame; [exact Hp1|].
        intros k Hk. apply Hother. intros Hk'. apply Hne. eapply Hdis; [exact E1|exact Hk|].
        by apply (progress_keys t0 t (sys_world σ)).
    + intros j t1 k Hj Hk. destruct (decide (j = i)) as [->|Hne].
      * rewrite list_lookup_insert_eq in Hj by (by eapply lookup_lt_Some). injection Hj as <-. by apply Hnew'.
      * rewrite list_lookup_insert_ne in Hj by done. rewrite Hother; [by eapply Hnew|]. intros Hk'.
        destruct (Forall2_lookup_r _ _ _ _ _ Hp Hj) as (t2 & Hj0 & Hp2). apply Hne.
        eapply Hdis; [exact Hj0|by apply (progress_keys t2 t1 (sys_world σ))|by apply (progress_keys t0 t (sys_world σ))].
    + intros k Hk. rewrite Hother; [by apply Ho|]. intros Hk'. apply Hk. unfold all_keys.
      apply list_elem_of_In, in_concat. exists (g_keys (generator t0)). split; apply list_elem_of_In.
      * apply list_elem_of_fmap. exists t0. split; [done|]. by eapply list_elem_of_lookup_2.
      * by apply (progress_keys t0 t (sys_world σ)).
  - intros Hb. specialize (Hless Hb). cbn [tasks]. unfold all_keys.
    rewrite <- (take_drop_middle _ _ _ Hi) at 2. rewrite insert_take_drop by (by eapply lookup_lt_Some).
    rewrite !fmap_app, !fmap_cons, !concat_app. cbn [concat]. rewrite !length_app. lia.
Qed.

Lemma initial_system ts w :
  Forall (λ t, g_ok (generator t) ∧ client t ≠ None ∧ t_fail t = ∅) ts → (∀ k, k ∈ all_keys ts → docs w !! k = None) →
  system_ok ts w (System ts w).
Proof.
  clear Hop Hpool Hexp Htrack. intros Hts Hnew. split_and!; cbn [tasks sys_world]; [| |done].
  - apply Forall_Forall2_diag. eapply Forall_impl; [exact Hts|]. intros t (Hok & Hc & Hf). exists [].
    split_and!; [constructor|done|done|done|by rewrite Z.add_0_r|rewrite Hf; set_solver|set_solver|done..].
  - intros i t k Hi Hk. apply Hnew. unfold all_keys. apply list_elem_of_In, in_concat. exists (g_keys (generator t)).
    split; apply list_elem_of_In; [|done]. apply list_elem_of_fmap. exists t. split; [done|]. by eapply list_elem_of_lookup_2.
Qed.

Lemma load_run_ok ts0 w0 n σ σ' :
  NoDup (all_keys ts0) → 0 < batch_size cf → system_ok ts0 w0 σ → nsteps load_step n σ σ' →
  system_ok ts0 w0 σ' ∧ (n + length (all_keys (tasks σ')) ≤ length (all_keys (tasks σ)))%nat.
Proof.
  intros Hnd Hb Hok Hn. induction Hn as [σ|n σ σ1 σ' Hs Hn IH]; [by split|].
  destruct (load_step_ok ts0 w0 σ σ1 Hnd Hok Hs) as [Hok1 Hless]. destruct (IH Hok1) as [? ?]. specialize (Hless Hb). split; [done|lia].
Qed.

(** When no task has a batch left, the documents are accounted for. *)
Lemma load_finished ts0 w0 σ :
  system_ok ts0 w0 σ → Forall (λ t, g_has_next (generator t) = false) (tasks σ) →
  (∀ k, k ∈ all_keys ts0 → ∃ t0 t bs v, t0 ∈ ts0 ∧ t ∈ tasks σ ∧ gen_run (generator t0) bs (generator t) ∧ (k, v) ∈ concat bs ∧
     (docs (sys_world σ) !! k = v ∨ (docs (sys_world σ) !! k = None ∧ k ∈ dom (t_fail t)))) ∧
  (∀ t k, t ∈ tasks σ → k ∈ dom (t_fail t) → k ∈ all_keys ts0) ∧
  foldr Z.add 0 (docs_loaded <$> tasks σ) = foldr Z.add 0 (docs_loaded <$> ts0) + len (all_keys ts0).
Proof.
  clear Hop Hpool Hexp Htrack. intros (Hp & _ & _) Hfin.
  assert (∀ t0 t, progress t0 t (sys_world σ) → g_has_next (generator t) = false → g_keys (generator t) = []) as Hnil.
  { intros t0 t (bs & _ & Hok & _) Hn. rewrite law_has_next in Hn by done. by case_bool_decide. }
  assert (∀ k, k ∈ all_keys ts0 ↔ ∃ i t0, ts0 !! i = Some t0 ∧ k ∈ g_keys (generator t0)) as Hall.
  { intros k. unfold all_keys. rewrite list_elem_of_In, in_concat. setoid_rewrite <- list_elem_of_In.
    setoid_rewrite list_elem_of_fmap. setoid_rewrite list_elem_of_lookup. naive_solver. }
  split_and!.
  - intros k (i & t0 & Hi0 & Hk)%Hall. destruct (Forall2_lookup_l _ _ _ _ _ Hp Hi0) as (t & Hi & Hpt).
    pose proof (Hnil t0 t Hpt (proj1 (Forall_lookup _ _) Hfin i t Hi)) as Hz.
    destruct Hpt as (bs & Hrun & _ & _ & Hkeys & _ & _ & Hd). rewrite Hkeys, Hz, app_nil_r in Hk.
    apply list_elem_of_fmap in Hk as ([k' v] & -> & Hkv). exists t0, t, bs, v.
    split_and!; [by eapply list_elem_of_lookup_2|by eapply list_elem_of_lookup_2|done|done|by apply Hd].
  - intros t k (i & Hi)%list_elem_of_lookup Hk. apply Hall. destruct (Forall2_lookup_r _ _ _ _ _ Hp Hi) as (t0 & Hi0 & Hpt).
    exists i, t0. split; [done|]. destruct Hpt as (bs & _ & _ & _ & -> & _ & Hf & _). apply elem_of_app. left.
    specialize (Hf k Hk). by apply elem_of_list_to_set in Hf.
  - clear Hall. unfold all_keys. destruct σ as [ts w]. cbn [tasks sys_world] in *.
    induction Hp as [|t0 t ts0 ts Hpt Hp IH]; [done|]. apply Forall_cons in Hfin as [Hn Hfin].
    rewrite !fmap_cons. cbn [foldr concat]. rewrite (IH Hfin), len_app. pose proof (Hnil t0 t Hpt Hn) as Hz.
    destruct Hpt as (bs & _ & _ & _ & Hkeys & Hl & _). rewrite Hl, Hkeys, Hz, app_nil_r. unfold len. rewrite length_fmap. lia.
Qed.

(** The loop of one task alone. *)
Lemma load_all_run t0 fuel t w :
  progress t0 t w → NoDup (g_keys (generator t0)) → 0 < batch_size cf →
  (∀ k, k ∈ g_keys (generator t) → docs w !! k = None) → (length (g_keys (generator t)) ≤ fuel)%nat →
  ∃ t' w', load_all (next randint cf) fuel (Running t w) = (Ok tt, Running t' w') ∧ progress t0 t' w' ∧
    g_keys (generator t') = [] ∧ (∀ k, k ∉ g_keys (generator t) → docs w' !! k = docs w !! k).
Proof.
  intros Hp Hnd Hb. revert t w Hp. induction fuel as [|fuel IH]; intros t w Hp Hnew Hl; cbn [load_all];
    rewrite (bind_Ok has_next _ (Running t w) _ (Running t w) eq_refl); cbn [tk];
    pose proof Hp as (bs & _ & Hok & _); rewrite law_has_next by done; case_bool_decide as E; cbn [negb].
  1,3: exists t, w; by split_and!.
  - destruct (g_keys (generator t)); [done|cbn in Hl; lia].
  - destruct (progress_next t0 t w Hp Hnd) as (Hr & Hp' & Ho & Hnew' & Hless);
      [rewrite law_has_next by done; by rewrite bool_decide_eq_false_2|done|].
    destruct (next randint cf (Running t w)) as [r [t1 w1]] eqn:En. cbn [fst snd tk world] in *. subst r.
    rewrite (bind_Ok _ _ _ _ _ En). specialize (Hless Hb).
    destruct (IH t1 w1 Hp') as (t' & w' & He & Hp2 & Hz & Ho2); [by apply Hnew'|lia|]. exists t', w'. split_and!; [done|done|done|].
    intros k Hk. rewrite Ho2; [by apply Ho|]. intros Hk1. by apply Hk, Hnew'.
Qed.

Lemma iterations_run t w fuel :
  req_iterations cf = 1 → 0 < batch_size cf → stop_loading t = false → itr_count t = 0 → t_fail t = ∅ → client t ≠ None →
  g_ok (generator t) → g_reset (generator t) = generator t → NoDup (g_keys (generator t)) →
  (∀ k, k ∈ g_keys (generator t) → docs w !! k = None) → (length (g_keys (generator t)) ≤ fuel)%nat →
  let t1 := set_stop (count_iteration t) in
  ∃ t' w', iterations cf (next randint cf) 2 fuel (Running t w) = (Ok tt, Running t' w') ∧
    progress t1 t' w' ∧ g_keys (generator t') = [] ∧ (∀ k, k ∉ g_keys (generator t) → docs w' !! k = docs w !! k).
Proof.
  intros Hreq Hb Hstop Hitr Hfail Hc Hok Hres Hnd Hnew Hl t1. cbn [iterations].
  rewrite (bind_Ok (gets tk) _ _ _ _ eq_refl). cbn [tk]. rewrite Hstop.
  rewrite (bind_Ok (on_task _) _ _ tt _ eq_refl). cbn [tk world].
  rewrite (bind_Ok (gets tk) _ _ _ _ eq_refl). cbn [tk]. rewrite Hreq. replace (itr_count (count_iteration t)) with 1 by (cbn; lia).
  cbn [Z.eqb negb andb Z.leb Z.compare Pos.compare Pos.compare_cont].
  rewrite (bind_Ok (on_task _) _ _ tt _ eq_refl), (bind_Ok (on_task _) _ _ tt _ eq_refl). cbn [tk world].
  assert (set_generator (g_reset (generator (set_stop (count_iteration t)))) (set_stop (count_iteration t)) = t1) as ->.
  { unfold t1, set_generator, set_stop, count_iteration. cbn. by rewrite Hres. }
  assert (progress t1 t1 w) as Hp.
  { exists []. cbn. rewrite Z.add_0_r, Hfail. split_and!; first [done | by constructor | by unfold same_control | set_solver]. }
  destruct (load_all_run t1 fuel t1 w Hp Hnd Hb Hnew Hl) as (t' & w' & He & Hp' & Hz & Ho). exists t', w'. split_and!; [|done|done|done].
  rewrite (bind_Ok _ _ _ tt (Running t' w')) by (unfold except_Exception, try_except; by rewrite He).
  rewrite (bind_Ok (gets tk) _ _ _ _ eq_refl). cbn [tk]. destruct Hp' as (bs & _ & _ & _ & _ & _ & _ & _ & Hs & _). by rewrite Hs.
Qed.
End Create.

(** ** Properties *)

(** The parts of a [DocumentGenerator]: together they have its keys. *)
Lemma partition_keys draw g ps :
  concat ((λ p : Z * Z, seqZ p.1 (p.2 - p.1)) <$> ps) = seqZ (start g) (end_ g - start g) →
  concat (dg_keys draw <$> (partition_gen g <$> ps)) = doc_key draw g <$> seqZ (start g) (end_ g - start g).
Proof.
  intros <-. induction ps as [|p ps IH]; [done|]. rewrite !fmap_cons. cbn [concat]. rewrite fmap_app, IH. done.
Qed.

(** Splitting a load.  For any positive concurrency and batch size, [get_tasks] returns one task per client that
    [async_load_gen_docs] has made, so that it never runs out of clients; there are at least as many as the concurrency says (or as there
    are documents) and fewer than twice as many; each has at least one document and a generator of its own that a reset leaves as it is; and
    the keys of the tasks one after the other are the keys of the generator, in order and each once. *)
Theorem tasks_cover {V} draw cf concurrency connect pool g :
  0 < concurrency → 0 < batch_size cf → 0 ≤ start g ≤ end_ g → dg_ok g →
  let n := end_ g - start g in
  ∃ clients ts, make_clients connect g concurrency pool = Ok clients ∧
    get_tasks (V := V) cf concurrency clients g = Ok ts ∧ length ts = length clients ∧
    Z.min n concurrency ≤ len ts ≤ Z.min n (2 * concurrency - 1) ∧
    concat ((λ t, dg_keys draw (generator t)) <$> ts) = doc_key draw g <$> seqZ (start g) n ∧
    NoDup (doc_key draw g <$> seqZ (start g) n) ∧
    Forall (λ t, dg_ok (generator t) ∧ dg_keys draw (generator t) ≠ [] ∧ dg_reset (generator t) = generator t ∧
                 docs_loaded t = 0 ∧ t_fail t = ∅ ∧ (client t = None → pool = true)) ts.
Proof.
  intros Hc Hb Hse Hok n. unfold make_clients, get_tasks, parts, gen_range. rewrite (proj2 (Z.eqb_neq _ _)) by lia. cbn [mbind res_bind].
  fold n. set (r := Z.max (n / concurrency) 1). set (clients := _ <$> seq 0 _). set (ps := _ <$> py_range _ _ _).
  destruct (parts_concat (Z.to_nat (end_ g - start g)) (start g) (end_ g) r) as [Hcat Hps]; [lia|done|]. fold ps in Hcat, Hps.
  assert (length ps = length clients) as Hlen by (unfold ps, clients; by rewrite !length_fmap, length_seq).
  exists clients, (zip_with (new_task cf) clients (partition_gen g <$> ps)). split; [done|].
  assert ((if bool_decide (ps = []) then Ok tt else _ ← new_batched (batch_size cf); Ok tt) = Ok tt) as ->.
  { case_bool_decide; [done|]. unfold new_batched. by rewrite (proj2 (Z.leb_gt _ _)). }
  cbn [mbind res_bind]. rewrite make_tasks_ok by (by rewrite length_fmap).
  assert (length (zip_with (new_task (V := V) cf) clients (partition_gen g <$> ps)) = length ps) as Hl.
  { rewrite length_zip_with, length_fmap. lia. }
  assert (Z.min n concurrency ≤ Z.of_nat (length ps) ≤ Z.min n (2 * concurrency - 1)) as [Hlo Hhi].
  { unfold ps. rewrite length_fmap, length_py_range by lia. pose proof (parts_count n concurrency Hc ltac:(lia)) as Hcount.
    cbv zeta in Hcount. fold r in Hcount. change (end_ g - start g) with n. lia. }
  unfold len. rewrite Hl. split_and!; [done|lia|done|done| | |].
  - rewrite (new_tasks_map cf _ (dg_keys draw)); [|by rewrite length_fmap|done]. by apply partition_keys.
  - apply NoDup_fmap_2_strong; [|apply NoDup_seqZ]. intros x y Hx%elem_of_seqZ Hy%elem_of_seqZ. apply doc_key_inj; lia.
  - apply (new_tasks_Forall cf _ (λ c, c = None → pool = true)).
    { unfold clients. apply Forall_fmap, Forall_true. intros i. cbn. by destruct pool. }
    apply Forall_fmap. eapply Forall_impl; [exact Hps|]. intros p (Hp1 & Hp2 & _) c Hcp. cbn.
    split_and!; [done| |done|done|done|done]. unfold dg_keys. cbn. by rewrite seqZ_cons by lia.
Qed.

Lemma collect_fail {V G} (ts : list (task V G)) k :
  k ∈ dom (collect true ts).2 ↔ ∃ t, t ∈ ts ∧ k ∈ dom (t_fail t).
Proof.
  assert (∀ acc : entries V * entries V, k ∈ dom (foldl (λ acc t, (t_success t ∪ acc.1, t_fail t ∪ acc.2)) acc ts).2 ↔
    k ∈ dom acc.2 ∨ ∃ t, t ∈ ts ∧ k ∈ dom (t_fail t)) as H.
  { induction ts as [|t ts IH]; intros acc; cbn [foldl]; [set_solver|]. rewrite IH. cbn [snd]. rewrite dom_union_L. set_solver. }
  unfold collect. rewrite H. cbn. set_solver.
Qed.


(** A load task ends.  Run alone on documents that do not exist yet, [call] with one iteration returns after one pass (fuel: the number
    of documents), completed and without an exception; it has counted all its documents, every one of them
    exists or is recorded as failed, and nothing else has changed. *)
Theorem load_task_ends {W V G} `{HL : DocOpLaws W V} `{HP : Pool W} `{HGL : GeneratorLaws G V} randint cf (t : task V G) (w : W) fuel :
  op_type cf = DocOps.CREATE → use_pool cf = false → random_exp cf = false → track_failures cf = true →
  req_iterations cf = 1 → 0 < batch_size cf →
  stop_loading t = false → itr_count t = 0 → docs_loaded t = 0 → t_fail t = ∅ → exception t = None → client t ≠ None →
  g_ok (generator t) → g_reset (generator t) = generator t → NoDup (g_keys (generator t)) →
  (∀ k, k ∈ g_keys (generator t) → docs w !! k = None) → (length (g_keys (generator t)) ≤ fuel)%nat →
  ∃ t' w', call cf (next randint cf) 2 fuel (Running t w) = (Ok tt, Running t' w') ∧
    completed t' = true ∧ exception t' = None ∧ itr_count t' = 1 ∧ docs_loaded t' = len (g_keys (generator t)) ∧
    (∀ k, k ∈ g_keys (generator t) → is_Some (docs w' !! k) ∨ (docs w' !! k = None ∧ k ∈ dom (t_fail t'))) ∧
    (∀ k, k ∈ dom (t_fail t') → k ∈ g_keys (generator t)) ∧
    (∀ k, k ∉ g_keys (generator t) → docs w' !! k = docs w !! k).
Proof.
  intros Hop Hpool Hexp Htrack Hreq Hb Hstop Hitr Hl0 Hfail Hexc Hc Hok Hres Hnd Hnew Hl.
  destruct (iterations_run randint cf Hop Hpool Hexp Htrack (set_started t) w fuel Hreq Hb Hstop Hitr Hfail Hc Hok Hres Hnd Hnew Hl)
    as (t' & w' & He & Hp & Hz & Ho).
  exists (set_completed t'), w'. split.
  { unfold call. rewrite (bind_Ok start_task _ _ tt _ eq_refl). cbn [tk world]. by rewrite (bind_Ok _ _ _ _ _ He). }
  destruct Hp as (bs & Hrun & _ & _ & Hkeys & Hloaded & Hf & Hd & _ & _ & Hx & Hi). cbn in *.
  rewrite Hz, app_nil_r in Hkeys. rewrite Hkeys in *.
  split_and!; [done|congruence|lia|unfold len in *; rewrite length_fmap; lia| | |done].
  - intros k Hk. destruct (docs w' !! k) as [v|] eqn:E; [left; by eexists|right]. split; [done|].
    apply list_elem_of_fmap in Hk as ([k' v] & -> & Hkv). cbn in E.
    destruct (Hd k' v Hkv) as [Hv|[_ ?]]; [|done].
    destruct (proj1 (Forall_forall _ _) (gen_run_values _ _ _ _ Hrun) _ Hkv) as [x Hx']. cbn in Hx'. congruence.
  - intros k Hk. specialize (Hf k Hk). by apply elem_of_list_to_set in Hf.
Qed.

(** Failed writes that the tasks do not report.  When the bulk insert raises, no document of the batch is loaded, yet [next] returns, counts
    them as loaded and records no failure.  When a replace fails, for whatever reason, and the document that was there before can be read,
    the failure is turned into a success (for a create too); the failure of an update never is, although the update may
    have happened. *)
Theorem write_errors_hidden {W V G} `{HD : DocOp W V} `{HP : Pool W} `{HG : Generator G V} randint cf (t : task V G) (w : W) :
  client t ≠ None →
  (∀ b g' e w', op_type cf = DocOps.CREATE → use_pool cf = false → random_exp cf = false →
     next_batch (batch_size cf) false (generator t) = (Ok b, g') → is_Exception e = true →
     (∀ o, bulkInsert b o w = (Err e, w')) →
     ∃ t', next randint cf (Running t w) = (Ok tt, Running t' w') ∧
       docs_loaded t' = docs_loaded t + len b ∧ t_fail t' = t_fail t ∧ t_success t' = t_success t) ∧
  (∀ (m : M W (entries V * entries V)) (s f rm fr : entries V) (w1 w2 : W) (k : pystr) (e r : entry V),
     skip_read_on_error cf = false → m w = (Ok (s, f), w1) →
     batch_read cf (map_to_list f).*1 (Running t w1) = (Ok (rm, fr), Running t w2) →
     f !! k = Some e → rm !! k = Some r → e_cas r ≠ 0 →
     (∃ s' f', batch_write cf was_written m (Running t w) = (Ok (s', f'), Running t w2) ∧ f' !! k = None ∧
        s' !! k = Some (Entry (e_value e) (e_cas e) None)) ∧
     batch_write cf was_updated m (Running t w) = (Ok (s, f), Running t w2)).
Proof.
  intros Hc. split.
  - intros b g' e w' Hop Hpool Hexp Hg He Hi. unfold next.
    assert (skip_doc_gen_value cf = false) as -> by (unfold skip_doc_gen_value; by rewrite Hop).
    erewrite bind_Ok by (unfold on_gen; cbn [tk world]; rewrite Hg; reflexivity).
    rewrite Hexp. unfold take_client, give_client. rewrite Hpool. do 2 erewrite (bind_Ok (mret tt)) by reflexivity.
    cbn [world]. set (t1 := Task _ _ _ _ _ _ _ _ _ _ _).
    assert (batch_create cf b (Running t1 w) = (Ok (∅, ∅), Running t1 w')) as Hb.
    { unfold batch_create. rewrite (bind_Ok (gets tk) _ _ _ _ eq_refl). unfold batch_write.
      rewrite (bind_Ok _ _ _ None (Running t1 w')); [done|]. unfold except_Exception, try_except.
      erewrite bind_Err by (rewrite with_client_run by done; unfold set_multi, on_java; erewrite bind_Err by (by apply Hi); reflexivity).
      by rewrite He. }
    assert (∃ t2, do_batch cf b (Running t1 w) = (Ok tt, Running t2 w') ∧ docs_loaded t2 = docs_loaded t ∧ t_fail t2 = t_fail t ∧ t_success t2 = t_success t)
      as (t2 & Hdo & Hl & Hf & Hs).
    { unfold do_batch. rewrite Hop, bool_decide_eq_true_2 by done. rewrite (bind_Ok _ _ _ _ _ Hb). unfold track. cbn [snd].
      destruct (track_failures cf); [|by exists t1]. exists (update_fail ∅ t1). cbn. by rewrite map_empty_union. }
    rewrite (bind_Ok _ _ _ _ _ Hdo). erewrite (bind_Ok (mret tt)) by reflexivity.
    exists (add_loaded (len b) t2). split; [done|]. cbn. by rewrite Hl.
  - intros m s f rm fr w1 w2 k e r Hskip Hm Hr Hf Hrm Hcas.
    assert (∀ rec, batch_write cf rec m (Running t w) = (Ok (recover rec rm (s, f)), Running t w2)) as Hb.
    { intros rec. unfold batch_write. rewrite (bind_Ok _ _ _ (Some (s, f)) (Running t w1)).
      2:{ unfold except_Exception, try_except. erewrite bind_Ok; [reflexivity|]. by rewrite with_client_run, Hm. }
      cbn [snd]. rewrite bool_decide_eq_false_2 by (intros ->; by rewrite lookup_empty in Hf). rewrite Hskip. cbn [orb].
      unfold except_Exception, try_except. by rewrite (bind_Ok _ _ _ _ _ Hr). }
    split.
    + rewrite Hb. destruct (recover was_written rm (s, f)) as [s' f'] eqn:E. exists s', f'.
      split; [done|]. pose proof (recover_lookup was_written rm s f k) as Hl. rewrite E, Hf, Hrm in Hl. cbn in Hl.
      unfold was_written in Hl. rewrite (proj2 (Z.eqb_neq _ _) Hcas) in Hl. split; [done|].
      assert (s' = (recover was_written rm (s, f)).1) as -> by (by rewrite E). unfold recover. cbn [fst snd].
      rewrite lookup_union, map_lookup_imap, Hf. cbn. rewrite Hrm. cbn. unfold was_written.
      rewrite (proj2 (Z.eqb_neq _ _) Hcas). cbn. by destruct (s !! k).
    + rewrite Hb. do 2 f_equal. unfold recover. cbn [fst snd].
      assert (map_imap (λ k e, r ← rm !! k; if was_updated e r then Some (Entry (e_value e) (e_cas e) None) else None) f = ∅) as ->.
      { apply map_eq. intros k'. rewrite map_lookup_imap, lookup_empty. destruct (f !! k'); [|done]. cbn.
        destruct (rm !! k'); [|done]. cbn. unfold was_updated, dict_equals_document. by rewrite andb_false_r. }
      by rewrite map_empty_union, map_difference_empty.
Qed.

(** ** Examples *)

(** A cluster that holds documents and fails only the writes that it has to fail. *)
Section Demo.
Context {V : Type}.
Abbreviation store := (gmap pystr V).

Definition demo_error : jerror := JError (py "DocumentError") (Some (py "no")) [].
Definition put_one (ok : option V → bool) (w : store) (kv : pystr * option V) (acc : store) : store :=
  match kv.2 with Some v => if ok (w !! kv.1) then <[kv.1 := v]> acc else acc | None => acc end.
Definition demo_write (ok : option V → bool) (dummy : V) (kvs : batch V) (w : store) : res (option (list (jresult V))) * store :=
  (Ok (Some ((λ kv : pystr * option V, JResult kv.1 (ok (w !! kv.1)) 1 (default dummy kv.2) demo_error) <$> kvs)),
   foldr (put_one ok w) w kvs).

Lemma demo_put_other ok w kvs acc k : k ∉ kvs.*1 → foldr (put_one ok w) acc kvs !! k = acc !! k.
Proof.
  induction kvs as [|[k' v] kvs IH]; [done|]. cbn. intros Hk. unfold put_one at 1. cbn.
  destruct v as [v|]; [destruct (ok _)|]; rewrite ?lookup_insert_ne; set_solver.
Qed.
Lemma demo_put_in ok w kvs k v :
  NoDup kvs.*1 → (k, Some v) ∈ kvs →
  foldr (put_one ok w) w kvs !! k = if ok (w !! k) then Some v else w !! k.
Proof.
  induction kvs as [|[k' v'] kvs IH]; intros Hnd Hin; [by apply elem_of_nil in Hin|].
  cbn in Hnd. apply NoDup_cons in Hnd as [Hni Hnd]. cbn [foldr]. apply elem_of_cons in Hin as [[= -> <-]|Hin].
  - unfold put_one at 1. cbn. destruct (ok (w !! k')); [by rewrite lookup_insert_eq|]. by rewrite demo_put_other.
  - assert (k' ≠ k). { intros ->. apply Hni, list_elem_of_fmap. by exists (k, Some v). }
    unfold put_one at 1. cbn. destruct v'; [destruct (ok (w !! k'))|]; rewrite ?lookup_insert_ne by done; by apply IH.
Qed.
Lemma demo_write_law ok dummy kvs w :
  NoDup kvs.*1 → Forall (λ kv, is_Some kv.2) kvs →
  ∃ rs w', demo_write ok dummy kvs w = (Ok (Some rs), w') ∧ results_for kvs.*1 rs ∧
    (∀ k, k ∉ kvs.*1 → w' !! k = w !! k) ∧
    ∀ r v, r ∈ rs → (jr_id r, v) ∈ kvs → jr_status r = ok (w !! jr_id r) ∧
      w' !! jr_id r = if jr_status r then v else w !! jr_id r.
Proof.
  intros Hnd Hv. unfold demo_write. eexists _, _. split; [reflexivity|]. split; [split|split].
  - by rewrite <- list_fmap_compose.
  - apply Forall_fmap, Forall_true. intros kv _. by eexists.
  - intros k Hk. by apply demo_put_other.
  - intros r v ((k & x) & -> & Hx)%list_elem_of_fmap Hin. cbn in *.
    destruct (proj1 (Forall_forall _ _) Hv _ Hin) as [y Hy]. cbn in Hy. subst v. split; [done|]. by apply demo_put_in.
Qed.
End Demo.

(** Documents of [DocumentGenerator]s. *)
#[local] Instance demo_docop : DocOp (gmap pystr doc) doc := {|
  bulkInsert kvs _ := demo_write (λ o, bool_decide (o = None)) (DRef 0) kvs;
  bulkUpsert kvs _ := demo_write (λ _, true) (DRef 0) kvs;
  bulkReplace kvs _ := demo_write (λ o, bool_decide (o ≠ None)) (DRef 0) kvs;
  bulkDelete ks _ w := (Ok None, foldr delete w ks);
  bulkTouch _ _ _ w := (Ok None, w);
  bulkGet ks _ w := (Ok (Some ((λ k, JResult k (bool_decide (w !! k ≠ None)) 1 (default (DRef 0) (w !! k)) demo_error) <$> ks)), w)
|}.
#[local] Instance demo_pool : Pool (gmap pystr doc) := {| pool_get w := (Ok None, w); pool_release _ w := (Ok tt, w) |}.
#[local] Program Instance demo_laws : DocOpLaws (gmap pystr doc) doc := {| docs w := w |}.
Next Obligation.
  intros kvs o w Hnd Hv. destruct (demo_write_law (λ o, bool_decide (o = None)) (DRef 0) kvs w Hnd Hv) as (rs & w' & H1 & H2 & H3 & H4).
  exists rs, w'. split_and!; [done|done|done|]. intros r v Hr Hin. destruct (H4 r v Hr Hin) as [Hs ->].
  rewrite Hs. case_bool_decide; auto.
Qed.
Next Obligation.
  intros kvs o w Hnd Hv. destruct (demo_write_law (λ _, true) (DRef 0) kvs w Hnd Hv) as (rs & w' & H1 & H2 & H3 & H4).
  exists rs, w'. split_and!; [done|done|done|]. intros r v Hr Hin. destruct (H4 r v Hr Hin) as [Hs ->].
  by rewrite Hs.
Qed.
Next Obligation.
  intros kvs o w Hnd Hv. destruct (demo_write_law (λ o, bool_decide (o ≠ None)) (DRef 0) kvs w Hnd Hv) as (rs & w' & H1 & H2 & H3 & H4).
  exists rs, w'. split_and!; [done|done|done|]. intros r v Hr Hin. destruct (H4 r v Hr Hin) as [Hs ->].
  rewrite Hs. case_bool_decide as E; [|auto]. split; [|done]. by apply not_eq_None_Some.
Qed.
Next Obligation.
  intros ks o w Hnd. eexists _, w. split; [reflexivity|]. split; [split|split; [done|]]; [by rewrite <- list_fmap_compose, list_fmap_id| |].
  - apply Forall_fmap, Forall_true. intros k _. by eexists.
  - intros r (k & -> & _)%list_elem_of_fmap. cbn. intros Hs%bool_decide_eq_true. destruct (w !! k); [done|by destruct Hs].
Qed.

Definition demo_config : config :=
  Config DocOps.CREATE 0 (py "seconds") false 0 0 [] 5 (py "seconds") (py "json") 2 false true true None 1 false.
Definition demo_tasks : list (task doc docgen) :=
  match get_tasks demo_config 2 [Some 0%nat; Some 1%nat; Some 2%nat] demo_gen with Ok ts => ts | Err _ => [] end.
Lemma demo_gen_ok : dg_ok demo_gen.
Proof. exists (fst (doc_template 256 (py "ADD") 0)). split; [reflexivity|discriminate]. Qed.

Lemma tasks_cover_witness :
  ∃ clients ts, make_clients id demo_gen 2 false = Ok clients ∧
    get_tasks (V := doc) demo_config 2 clients demo_gen = Ok ts ∧ length ts = length clients.
Proof.
  destruct (tasks_cover (V := doc) (λ _ _, 0) demo_config 2 id false demo_gen) as (clients & ts & H1 & H2 & H3 & _);
    [done|done|done|exact demo_gen_ok|eauto].
Defined.


Lemma load_task_ends_witness :
  ∃ t' w', call (HG := docgen_generator (λ _ _, 0)) demo_config (next (HG := docgen_generator (λ _ _, 0)) (λ _ _, Ok 0) demo_config) 2 5
    (Running (new_task demo_config (Some 0%nat) demo_gen) (∅ : gmap pystr doc)) = (Ok tt, Running t' w') ∧ docs_loaded t' = 5.
Proof.
  assert (NoDup (dg_keys (λ _ _, 0) demo_gen)) as Hnd by (apply (bool_decide_unpack _); vm_compute; exact I).
  assert (length (dg_keys (λ _ _, 0%Z) demo_gen) ≤ 5)%nat as Hl by (vm_compute; lia).
  destruct (load_task_ends (HGL := docgen_laws (λ _ _, 0)) (λ _ _, Ok 0) demo_config (new_task demo_config (Some 0%nat) demo_gen)
              (∅ : gmap pystr doc) 5 eq_refl eq_refl eq_refl eq_refl eq_refl eq_refl eq_refl eq_refl eq_refl eq_refl eq_refl
              (ltac:(discriminate)) demo_gen_ok eq_refl Hnd (λ k _, lookup_empty k) Hl)
    as (t' & w' & H1 & _ & _ & _ & H2 & _).
  exists t', w'. split; [exact H1|]. rewrite H2. reflexivity.
Defined.

Lemma write_errors_hidden_witness :
  batch_write (G := docgen) demo_config was_updated (λ w : gmap pystr doc, (Ok (∅, {[py "k" := Entry Absent 0 (Some [])]}), w))
    (Running (new_task demo_config (Some 0%nat) demo_gen) {[py "k" := DRef 0]})
  = (Ok (∅, {[py "k" := Entry Absent 0 (Some [])]}), Running (new_task demo_config (Some 0%nat) demo_gen) {[py "k" := DRef 0]}).
Proof.
  destruct (write_errors_hidden (HG := docgen_generator (λ _ _, 0)) (λ _ _, Ok 0) demo_config (new_task demo_config (Some 0%nat) demo_gen)
              ({[py "k" := DRef 0]} : gmap pystr doc)) as [_ H]; [done|].
  eapply (H _ _ _ {[py "k" := Entry (Value (DRef 0)) 1 None]} ∅ _ _ (py "k")); try reflexivity. by cbn.
Defined.
