(* ===== verification/ValidateTasks.v ===== *)
(** * lib/Jython_tasks/task.py: tasks that validate documents

    [ValidateDocumentsTask] reads the documents of a generator back, from the active copy or from all replicas, and compares
    them with what the generator says they should be.  It is a [GenericLoadingTask], so its [call] is that of LoadTasks.v; its own attributes
    travel with the world. *)

From S2P Require Import Prelude Py DocGen DocLoader LoadTasks.
Local Open Scope string_scope.
Local Open Scope list_scope.
Local Open Scope Z_scope.

#[global] Instance jv_eq_dec : EqDecision jv.
Proof. solve_decision. Defined.

(** [missing_keys], [wrong_values] (by key) and [failed_reads]. *)
Record checked (W V : Type) := Checked {
  cluster : W; missing_keys : list pystr; wrong_values : list pystr; failed_reads : entries V
}.
Arguments Checked {W V}. Arguments cluster {W V}. Arguments missing_keys {W V}.
Arguments wrong_values {W V}. Arguments failed_reads {W V}.

(** The arguments of the task. *)
Record vconfig := VConfig {
  v_op_type : pystr; check_replica : bool; replicas : Z; nodes_in_cluster : Z; load_config : config
}.

Section Validate.
Context {W V G : Type} `{HD : DocOp W V} `{HP : Pool W} `{HG : Generator G V}.
(** [Json.loads] of the text of a document; [get_from_all_replicas]: value and CAS per copy; [str] of its result. *)
Context (to_json : V → res tmpl) (get_from_all_replicas : pystr → W → res (list (V * Z)) * W)
        (show_copies : list (V * Z) → pystr) (cf : vconfig).
Abbreviation MV := (M (running (checked W V) V G)).

(** *** Comparing *)

(** [doc["mutated"] = int(doc["mutated"])] *)
Definition with_mutated (d : tmpl) : res tmpl :=
  match d !! "mutated" with
  | None => raise KeyError
  | Some (JVInt n) => Ok (<["mutated" := JVInt n]> d)
  | Some (JVStr s) => n ← int_of_str s; Ok (<["mutated" := JVInt n]> d)
  end.
(** The body of the loop of [validate_key_val]. *)
Inductive verdict := Right | Missing | Wrong | Ignored.
Definition validate_key (result_map failed : entries V) (k : pystr) (value : option V) : res verdict :=
  match result_map !! k with
  | Some e =>
      v ← of_option ValueError value;   (* [Json.loads] of an empty string *)
      expected ← to_json v;
      if negb (e_cas e =? 0) then
        match e_value e with
        | Value a =>
            actual ← to_json a;
            actual ← with_mutated actual;
            expected ← with_mutated expected;
            Ok (if bool_decide (expected = actual) then Right else Wrong)
        | _ => raise KeyError
        end
      else match e_error e with None => raise KeyError | Some _ => raise TypeError end
  | None =>
      f ← dict_get failed k;
      x ← of_option KeyError (e_error f);
      Ok (if contains SDKException.DocumentNotFoundException x then Missing else Ignored)
  end.
(** [validate_key_val], in the order in which the dictionary yields its items. *)
Fixpoint validate_key_val (result_map failed : entries V) (kvs : list (pystr * option V)) : res (list pystr * list pystr) :=
  match kvs with
  | [] => Ok ([], [])
  | (k, v) :: kvs =>
      x ← validate_key result_map failed k v;
      '(ms, ws) ← validate_key_val result_map failed kvs;
      Ok (match x with Missing => (k :: ms, ws) | Wrong => (ms, k :: ws) | _ => (ms, ws) end)
  end.

(** *** Reading *)

Definition on_cluster {A} (m : M W A) : M (checked W V) A := λ c,
  let '(r, w) := m (cluster c) in (r, Checked w (missing_keys c) (wrong_values c) (failed_reads c)).
Definition set_failed (f : entries V) : MV unit :=
  modify (λ s, Running (tk s) (Checked (cluster (world s)) (missing_keys (world s)) (wrong_values (world s)) f)).
Definition extend (ms ws : list pystr) : MV unit :=
  modify (λ s, Running (tk s) (Checked (cluster (world s)) (missing_keys (world s) ++ ms) (wrong_values (world s) ++ ws)
                                 (failed_reads (world s)))).

(** A method of [self.client]. *)
Definition v_with_client {A} (m : M W A) : MV A :=
  t ← gets tk;
  match client t with None => mraise AttributeError | Some _ => on_world (on_cluster m) end.
Definition read_opts : opts :=
  Opts 0 [] 0 0 (timeout (load_config cf)) (time_unit (load_config cf)) [] None None.
Definition v_batch_read (keys : list pystr) : MV (entries V * entries V) :=
  v_with_client (get_multi keys read_opts).

(** The loop over the keys with [check_replica]; [None] when an exception was caught. *)
Definition read_key (k : pystr) (acc : entries V * entries V) : MV (entries V * entries V) :=
  copies ← v_with_client (get_from_all_replicas k);
  match copies with
  | [] =>
      if bool_decide (0 = Z.min (replicas cf + 1) (nodes_in_cluster cf)) then mraise IndexError
      else mret (acc.1, <[k := Entry EmptyDict 0 (Some SDKException.DocumentNotFoundException)]> acc.2)
  | (v, cas) :: _ =>
      if bool_decide (len copies = Z.min (replicas cf + 1) (nodes_in_cluster cf))
      then mret (<[k := Entry (Value v) cas None]> acc.1, acc.2)
      else mret (acc.1, <[k := Entry EmptyDict cas (Some (show_copies copies))]> acc.2)
  end.
Fixpoint read_replicas (keys : list pystr) (acc : entries V * entries V) : MV (option (entries V)) :=
  match keys with
  | [] => mret (Some acc.1)
  | k :: keys =>
      r ← except_Exception (a ← read_key k acc; mret (Some a))
            (λ e, _ ← on_task (set_error e); mret None);
      match r with
      | None => mret None
      | Some acc => _ ← set_failed acc.2; read_replicas keys acc
      end
  end.

(** *** [__validate_docs] *)

Definition v_take_client : MV unit :=
  if use_pool (load_config cf) then c ← on_world (on_cluster pool_get); on_task (set_client c) else mret tt.
Definition v_give_client : MV unit :=
  if use_pool (load_config cf) then
    t ← gets tk;
    _ ← match client t with None => mraise AttributeError | Some c => on_world (on_cluster (pool_release c)) end;
    on_task (set_client None)
  else mret tt.

(** What is done with the verdicts: [self.exception] is set. *)
Definition judge (keys ms ws : list pystr) : MV unit :=
  if bool_decide (v_op_type cf = DocOps.DELETE) then
    if bool_decide (len ms = len keys) || bool_decide (filter (λ k, k ∉ ms) keys = []) then mret tt
    else on_task (set_error (Exn GenericException (py "Keys were not deleted. Keys not deleted: " ++ join (py ",") (filter (λ k, k ∉ ms) keys))))
  else
    _ ← (if bool_decide (ms = []) then mret tt
         else on_task (set_error (Exn GenericException (py "Total " ++ str_of_Z (len ms) ++ py " keys missing"))));
    _ ← (if bool_decide (ws = []) then mret tt
         else on_task (set_error (Exn GenericException (py "Total " ++ str_of_Z (len ws) ++ py " wrong key-values"))));
    extend ms ws.
Definition raise_exception : MV unit :=
  t ← gets tk;
  match exception t with None => mret tt | Some e => lift (Err e) end.

Definition v_skip : bool := bool_decide (v_op_type cf = DocOps.DELETE).
Definition validate_docs : MV unit :=
  _ ← v_take_client;
  kvs ← on_gen (next_batch (batch_size (load_config cf)) v_skip);
  let key_value := map_to_list (list_to_map (reverse kvs) : gmap pystr (option V)) in
  r ← (if check_replica cf then _ ← set_failed ∅; read_replicas key_value.*1 (∅, ∅)
       else sf ← v_batch_read key_value.*1; _ ← set_failed sf.2; mret (Some sf.1));
  match r with
  | None => mret tt
  | Some result_map =>
      _ ← v_give_client;
      failed ← gets (λ s, failed_reads (world s));
      '(ms, ws) ← lift (validate_key_val result_map failed key_value);
      _ ← judge key_value.*1 ms ws;
      raise_exception
  end.
Definition validate_call (rounds fuel : nat) : MV unit := call (load_config cf) validate_docs rounds fuel.
End Validate.

(** ** Proofs *)

Section Verdicts.
Context {V : Type} (to_json : V → res tmpl).
Implicit Types (rm f : entries V) (kvs : list (pystr * option V)).

(** The verdicts decide what is missing and what is wrong. *)
Lemma validate_key_val_inv rm f kvs ms ws :
  validate_key_val to_json rm f kvs = Ok (ms, ws) →
  ∀ k v, (k, v) ∈ kvs → ∃ x, validate_key to_json rm f k v = Ok x ∧ (x = Missing → k ∈ ms) ∧ (x = Wrong → k ∈ ws).
Proof.
  revert ms ws. induction kvs as [|[k v] kvs IH]; intros ms ws; cbn [validate_key_val]; [by intros _ k v ?%elem_of_nil|].
  intros (x & Hx & H)%res_bind_inv. apply res_bind_inv in H as ([ms' ws'] & Hr & H). injection H as H.
  intros k' v' [[= -> ->]|Hin]%elem_of_cons.
  - exists x. split; [done|]. destruct x; simplify_eq; set_solver.
  - destruct (IH ms' ws' Hr k' v' Hin) as (y & Hy & H1 & H2). exists y. split; [done|]. destruct x; simplify_eq; set_solver.
Qed.
Lemma validate_key_val_right rm f kvs :
  (∀ k v, (k, v) ∈ kvs → validate_key to_json rm f k v = Ok Right ∨ validate_key to_json rm f k v = Ok Ignored) →
  validate_key_val to_json rm f kvs = Ok ([], []).
Proof.
  induction kvs as [|[k v] kvs IH]; [done|]. intros H. cbn [validate_key_val].
  destruct (H k v) as [-> | ->]; [set_solver| |]; cbn [mbind res_bind]; rewrite IH; set_solver.
Qed.

(** The dictionary of a batch. *)
Definition dict (kvs : list (pystr * option V)) : list (pystr * option V) :=
  map_to_list (list_to_map (reverse kvs) : gmap pystr (option V)).
Lemma elem_of_dict kvs k v : NoDup kvs.*1 → (k, v) ∈ dict kvs ↔ (k, v) ∈ kvs.
Proof.
  intros Hnd. unfold dict. rewrite elem_of_map_to_list. rewrite <- elem_of_list_to_map.
  - by rewrite elem_of_reverse.
  - by rewrite fmap_reverse, reverse_Permutation.
Qed.
Lemma NoDup_dict kvs : NoDup (dict kvs).*1.
Proof. apply NoDup_fst_map_to_list. Qed.

(** The JSON that is compared. *)
Definition normal (v : V) : res tmpl := d ← to_json v; with_mutated d.

Lemma validate_key_right rm f k v e a d d' :
  rm !! k = Some e → e_value e = Value a → e_cas e ≠ 0 → normal v = Ok d → normal a = Ok d' →
  validate_key to_json rm f k (Some v) = Ok (if bool_decide (d = d') then Right else Wrong).
Proof.
  intros Hrm Hv Hc (dv & Hdv & Hd)%res_bind_inv (da & Hda & Hd')%res_bind_inv. unfold validate_key. rewrite Hrm. cbn.
  rewrite Hdv. cbn. rewrite (proj2 (Z.eqb_neq _ _) Hc). cbn. rewrite Hv, Hda. cbn. rewrite Hd'. cbn. rewrite Hd. done.
Qed.
Lemma validate_key_Right_inv rm f k v :
  validate_key to_json rm f k v = Ok Right →
  ∃ e a x d, rm !! k = Some e ∧ e_value e = Value a ∧ v = Some x ∧ normal x = Ok d ∧ normal a = Ok d.
Proof.
  unfold validate_key. destruct (rm !! k) as [e|] eqn:Hrm.
  2:{ intros (? & _ & H)%res_bind_inv. apply res_bind_inv in H as (? & _ & H). by destruct (contains _ _). }
  intros (x & Hx & H)%res_bind_inv. apply res_bind_inv in H as (dv & Hdv & H).
  destruct (negb _); [|by destruct (e_error e)]. destruct (e_value e) as [| |a] eqn:Ha; [done|done|].
  apply res_bind_inv in H as (da & Hda & H). apply res_bind_inv in H as (na & Hna & H). apply res_bind_inv in H as (nv & Hnv & H).
  injection H as H. case_bool_decide as E; [|done]. subst nv. exists e, a, x, na. unfold normal. rewrite Hdv, Hda.
  destruct v as [v|]; [|done]. injection Hx as ->. by split_and!.
Qed.
Lemma validate_key_Ignored_inv rm f k v :
  validate_key to_json rm f k v = Ok Ignored →
  ∃ e x, f !! k = Some e ∧ e_error e = Some x ∧ contains SDKException.DocumentNotFoundException x = false.
Proof.
  unfold validate_key. destruct (rm !! k) as [e|] eqn:Hrm.
  - intros (x & Hx & H)%res_bind_inv. apply res_bind_inv in H as (dv & Hdv & H).
    destruct (negb _); [|by destruct (e_error e)]. destruct (e_value e) as [| |a] eqn:Ha; [done|done|].
    apply res_bind_inv in H as (da & Hda & H). apply res_bind_inv in H as (na & Hna & H). apply res_bind_inv in H as (nv & Hnv & H).
    injection H as H. by case_bool_decide.
  - intros (e & He & H)%res_bind_inv. apply res_bind_inv in H as (x & Hx & H). injection H as H.
    destruct (contains _ _) eqn:Ec; [done|]. unfold dict_get in He. destruct (f !! k); [|done].
    injection He as ->. destruct (e_error e) as [y|] eqn:Ee; [|done]. injection Hx as ->. eauto.
Qed.

End Verdicts.

(** [validate_docs] without replicas and pool, in terms of what is read. *)
Lemma validate_docs_step {W V G} {HD : DocOp W V} {HP : Pool W} {HG : Generator G V} to_json replicas_of show cf
    (t : task V G) (c : checked W V) kvs g' rm f w' :
  check_replica cf = false → use_pool (load_config cf) = false →
  client t ≠ None → next_batch (batch_size (load_config cf)) (v_skip cf) (generator t) = (Ok kvs, g') →
  get_multi (dict kvs).*1 (read_opts cf) (cluster c) = (Ok (rm, f), w') →
  validate_docs to_json replicas_of show cf (Running t c) =
    ('(ms, ws) ← lift (validate_key_val to_json rm f (dict kvs));
     _ ← judge cf (dict kvs).*1 ms ws;
     raise_exception) (Running (set_generator g' t) (Checked w' (missing_keys c) (wrong_values c) f)).
Proof.
  intros Hrep Hpool Hc Hg Hget. unfold validate_docs, v_take_client, v_give_client. rewrite Hpool, Hrep.
  rewrite (bind_Ok (mret tt) _ _ tt _ eq_refl).
  erewrite bind_Ok by (unfold on_gen; cbn [tk world]; rewrite Hg; reflexivity). cbn [tk world].
  fold (dict kvs). set (t1 := Task _ _ _ _ _ _ _ _ _ _ _). change t1 with (set_generator g' t). clear t1.
  erewrite bind_Ok; [|erewrite bind_Ok; [|unfold v_batch_read, v_with_client;
    rewrite (bind_Ok (gets tk) _ _ _ _ eq_refl); cbn [tk]; change (client (set_generator g' t)) with (client t);
    destruct (client t) as [cl|]; [|done]; unfold on_world, on_cluster; cbn [world]; rewrite Hget; reflexivity]; reflexivity].
  done.
Qed.

Lemma judge_run {W V G} cf keys ms ws (t : task V G) (c : checked W V) :
  v_op_type cf ≠ DocOps.DELETE → exception t = None →
  let r := (_ ← judge cf keys ms ws; raise_exception) (Running t c) in
  if bool_decide (ms = [] ∧ ws = []) then r = (Ok tt, Running t c)
  else raises GenericException r.1.
Proof.
  intros Hop He. cbv zeta. unfold judge. rewrite (bool_decide_eq_false_2 (v_op_type cf = DocOps.DELETE)) by done.
  repeat case_bool_decide; try naive_solver.
  subst. unfold raise_exception, extend, gets, modify, mret, M_ret, mbind, M_bind. cbn. rewrite He, !app_nil_r. by destruct c.
Qed.

Section Proofs.
Context {W V G : Type} {HD : DocOp W V} {HL : DocOpLaws W V} {HP : Pool W} {HG : Generator G V} {HGL : GeneratorLaws G V}.
Context (to_json : V → res tmpl) (replicas_of : pystr → W → res (list (V * Z)) * W) (show : list (V * Z) → pystr) (cf : vconfig).
Implicit Types (t : task V G) (c : checked W V) (rm f : entries V) (kvs : list (pystr * option V)).

(** [validate_docs] without replicas and pool. *)
Context (Hrep : check_replica cf = false) (Hpool : use_pool (load_config cf) = false).

Lemma validate_docs_run t c kvs g' :
  client t ≠ None → next_batch (batch_size (load_config cf)) (v_skip cf) (generator t) = (Ok kvs, g') →
  ∃ rm f w', docs w' = docs (cluster c) ∧ found_in rm (cluster c) ∧
    get_multi (dict kvs).*1 (read_opts cf) (cluster c) = (Ok (rm, f), w') ∧
    validate_docs to_json replicas_of show cf (Running t c) =
      ('(ms, ws) ← lift (validate_key_val to_json rm f (dict kvs));
       _ ← judge cf (dict kvs).*1 ms ws;
       raise_exception) (Running (set_generator g' t) (Checked w' (missing_keys c) (wrong_values c) f)).
Proof.
  intros Hc Hg.
  destruct (get_multi_run (dict kvs).*1 (read_opts cf) (cluster c) (NoDup_dict kvs)) as (rm & f & w' & Hget & Hd & Hf & _).
  exists rm, f, w'. split_and!; try done. by apply validate_docs_step.
Qed.

Context (Hop : v_op_type cf ≠ DocOps.DELETE).

(** One batch of documents that are as they should be. *)
Lemma validate_docs_ok t c kvs g' :
  client t ≠ None → exception t = None → NoDup kvs.*1 →
  next_batch (batch_size (load_config cf)) false (generator t) = (Ok kvs, g') →
  (∀ keys o w rm f w', get_multi keys o w = (Ok (rm, f), w') → ∀ k, k ∈ keys → is_Some (docs w !! k) → is_Some (rm !! k)) →
  (∀ k v, (k, v) ∈ kvs → ∃ x d, v = Some x ∧ docs (cluster c) !! k = Some x ∧ normal to_json x = Ok d) →
  ∃ w' f, validate_docs to_json replicas_of show cf (Running t c) =
    (Ok tt, Running (set_generator g' t) (Checked w' (missing_keys c) (wrong_values c) f)) ∧ docs w' = docs (cluster c).
Proof.
  intros Hc He Hnd Hg Hread Hdocs. assert (v_skip cf = false) as Hskip by (by apply bool_decide_eq_false).
  rewrite <- Hskip in Hg. destruct (validate_docs_run t c kvs g' Hc Hg) as (rm & f & w' & Hd & Hf & Hget & ->).
  exists w', f. split; [|done]. erewrite bind_Ok; [|unfold lift; rewrite validate_key_val_right; [reflexivity|]].
  - pose proof (judge_run cf (dict kvs).*1 [] [] (set_generator g' t) (Checked w' (missing_keys c) (wrong_values c) f) Hop He) as Hj.
    cbv zeta in Hj. rewrite (bool_decide_eq_true_2 _ (conj eq_refl eq_refl)) in Hj. exact Hj.
  - intros k v Hin. left. assert (k ∈ (dict kvs).*1) as Hk1 by (apply list_elem_of_fmap; by exists (k, v)).
    rewrite elem_of_dict in Hin by done. destruct (Hdocs k v Hin) as (x & d & -> & Hx & Hdx).
    destruct (Hread _ _ _ _ _ _ Hget k Hk1) as [e Hrm]; [by rewrite Hx|]. destruct (Hf k e Hrm) as (a & Ha & Hea & Hca).
    rewrite Hx in Ha. injection Ha as <-. rewrite (validate_key_right to_json rm f k x e x d d); try done.
    by rewrite bool_decide_eq_true_2.
Qed.

(** The whole task. *)
Lemma validate_all_ok fuel t c :
  client t ≠ None → exception t = None → 0 < batch_size (load_config cf) → g_ok (generator t) → NoDup (g_keys (generator t)) →
  (∀ keys o w rm f w', get_multi keys o w = (Ok (rm, f), w') → ∀ k, k ∈ keys → is_Some (docs w !! k) → is_Some (rm !! k)) →
  (∀ bs g', gen_run (load_config cf) (generator t) bs g' → ∀ k v, (k, v) ∈ concat bs →
     ∃ x d, v = Some x ∧ docs (cluster c) !! k = Some x ∧ normal to_json x = Ok d) →
  (length (g_keys (generator t)) ≤ fuel)%nat →
  ∃ g' w' f, load_all (validate_docs to_json replicas_of show cf) fuel (Running t c) =
    (Ok tt, Running (set_generator g' t) (Checked w' (missing_keys c) (wrong_values c) f)) ∧ docs w' = docs (cluster c).
Proof.
  revert t c. induction fuel as [|fuel IH]; intros t c Hc He Hb Hok Hnd Hread Hdocs Hl; cbn [load_all];
    rewrite (bind_Ok has_next _ (Running t c) _ (Running t c) eq_refl); cbn [tk];
    rewrite law_has_next by done; case_bool_decide as E; cbn [negb].
  1,3: exists (generator t), (cluster c), (failed_reads c); split; [by destruct t, c|done].
  - destruct (g_keys (generator t)); [done|cbn in Hl; lia].
  - destruct (next_batch_loop_keys (Z.to_nat (batch_size (load_config cf))) false None (generator t) Hok)
      as (kvs & g1 & Hg & Hkv & Hok1 & Hk1).
    assert (gen_run (load_config cf) (generator t) [kvs] g1) as Hrun.
    { apply (gen_run_snoc _ _ [] (generator t)); [constructor| |done]. rewrite law_has_next by done. by rewrite bool_decide_eq_false_2. }
    rewrite <- (take_drop (Z.to_nat (batch_size (load_config cf))) (g_keys (generator t))) in Hnd.
    apply NoDup_app in Hnd as (Hnd1 & _ & Hnd2).
    destruct (validate_docs_ok t c kvs g1 Hc He) as (w1 & f1 & Hv & Hd1); [by rewrite Hkv|done|done| |].
    { intros k v Hin. apply (Hdocs _ _ Hrun). cbn. by rewrite app_nil_r. }
    rewrite (bind_Ok _ _ _ _ _ Hv).
    destruct (IH (set_generator g1 t) (Checked w1 (missing_keys c) (wrong_values c) f1)) as (g' & w' & f & Hr & Hd'); try done.
    + cbn. by rewrite Hk1.
    + intros bs g' Hbs k v Hin. cbn [cluster]. rewrite Hd1. apply (Hdocs (kvs :: bs) g').
      * clear -Hbs Hrun. cbn in Hbs. induction Hbs as [g|g bs ga b gb Hbs IHb Hn Hb]; [done|]. by apply (gen_run_snoc _ _ (kvs :: bs) ga); [apply IHb| |].
      * cbn. set_solver.
    + cbn. rewrite Hk1, length_drop. destruct (g_keys (generator t)); [done|]. cbn in *. lia.
    + exists g', w', f. split; [by rewrite Hr|by rewrite Hd'].
Qed.
End Proofs.

(** ** Properties *)


(** Loading and then validating.  If the cluster holds what the generator yields, batch by batch, as it does after a load without failures
    ([loads_reported]), and existing documents can be read, then validating with a generator in the same state and the same batch size
    ends (fuel: the number of documents) without an exception, and finds nothing missing and nothing wrong. *)
Theorem validation_accepts {W V G} {HD : DocOp W V} {HL : DocOpLaws W V} {HP : Pool W} {HG : Generator G V} {HGL : GeneratorLaws G V}
    to_json replicas_of show cf (t : task V G) (c : checked W V) fuel :
  check_replica cf = false → use_pool (load_config cf) = false → v_op_type cf ≠ DocOps.DELETE →
  req_iterations (load_config cf) = 1 → 0 < batch_size (load_config cf) →
  client t ≠ None → exception t = None → stop_loading t = false → itr_count t = 0 → g_ok (generator t) → g_reset (generator t) = generator t →
  NoDup (g_keys (generator t)) →
  (∀ keys o w rm f w', get_multi keys o w = (Ok (rm, f), w') → ∀ k, k ∈ keys → is_Some (docs w !! k) → is_Some (rm !! k)) →
  (∀ bs g', gen_run (load_config cf) (generator t) bs g' → ∀ k v, (k, v) ∈ concat bs →
     ∃ x d, v = Some x ∧ docs (cluster c) !! k = Some x ∧ normal to_json x = Ok d) →
  (length (g_keys (generator t)) ≤ fuel)%nat →
  ∃ t' c', validate_call to_json replicas_of show cf 2 fuel (Running t c) = (Ok tt, Running t' c') ∧
    completed t' = true ∧ exception t' = None ∧ missing_keys c' = missing_keys c ∧ wrong_values c' = wrong_values c ∧
    docs (cluster c') = docs (cluster c).
Proof.
  intros Hrep Hpool Hop Hreq Hb Hc He Hs Hi Hok Hres Hnd Hread Hdocs Hl.
  set (t1 := set_stop (count_iteration (set_started t))).
  destruct (validate_all_ok to_json replicas_of show cf Hrep Hpool Hop fuel t1 c Hc He Hb Hok Hnd Hread Hdocs Hl) as (g' & w' & f & Hr & Hd).
  exists (set_completed (set_generator g' t1)), (Checked w' (missing_keys c) (wrong_values c) f).
  split; [|by split_and!]. unfold validate_call, call. rewrite (bind_Ok start_task _ _ tt _ eq_refl). cbn [tk world].
  assert (iterations (load_config cf) (validate_docs to_json replicas_of show cf) 2 fuel (Running (set_started t) c) =
    (Ok tt, Running (set_generator g' t1) (Checked w' (missing_keys c) (wrong_values c) f))) as Hit.
  { cbn [iterations]. rewrite (bind_Ok (gets tk) _ _ _ _ eq_refl). cbn [tk]. change (stop_loading (set_started t)) with (stop_loading t). rewrite Hs.
    rewrite (bind_Ok (on_task _) _ _ tt _ eq_refl). cbn [tk world]. rewrite (bind_Ok (gets tk) _ _ _ _ eq_refl). cbn [tk]. rewrite Hreq.
    replace (itr_count (count_iteration (set_started t))) with 1 by (cbn; lia). cbn [Z.eqb negb andb Z.leb Z.compare Pos.compare Pos.compare_cont].
    rewrite (bind_Ok (on_task _) _ _ tt _ eq_refl), (bind_Ok (on_task _) _ _ tt _ eq_refl). cbn [tk world]. fold t1.
    assert (set_generator (g_reset (generator t1)) t1 = t1) as -> by (unfold t1, set_generator, set_stop, count_iteration, set_started; cbn; by rewrite Hres).
    erewrite bind_Ok by (unfold except_Exception, try_except; rewrite Hr; reflexivity).
    by rewrite (bind_Ok (gets tk) _ _ _ _ eq_refl). }
  by rewrite (bind_Ok _ _ _ _ _ Hit).
Qed.

(** What the validation does not see.  Documents whose reads fail with any error but document-not-found (a timeout, say) are accepted, whatever the cluster holds.
    With [check_replica], so is a document of which there are copies but not as many as there should be.  And an exception while
    the replicas are read ends the batch without a word: [next] returns, and what is left of the batch is never read. *)
Theorem validation_blind {W V G} {HD : DocOp W V} {HP : Pool W} {HG : Generator G V}
    to_json replicas_of show cf (t : task V G) (c : checked W V) kvs g' :
  use_pool (load_config cf) = false → v_op_type cf ≠ DocOps.DELETE → client t ≠ None → exception t = None →
  next_batch (batch_size (load_config cf)) false (generator t) = (Ok kvs, g') →
  (∀ f w', check_replica cf = false → get_multi (dict kvs).*1 (read_opts cf) (cluster c) = (Ok (∅, f), w') →
     (∀ k, k ∈ (dict kvs).*1 → ∃ e x, f !! k = Some e ∧ e_error e = Some x ∧ contains SDKException.DocumentNotFoundException x = false) →
     validate_docs to_json replicas_of show cf (Running t c) =
       (Ok tt, Running (set_generator g' t) (Checked w' (missing_keys c) (wrong_values c) f))) ∧
  (∀ k v copies w' acc, replicas_of k (cluster c) = (Ok copies, w') → copies ≠ [] → len copies ≠ Z.min (replicas cf + 1) (nodes_in_cluster cf) →
     contains SDKException.DocumentNotFoundException (show copies) = false → acc.1 !! k = None →
     ∃ acc' s', read_key replicas_of show cf k acc (Running t c) = (Ok acc', s') ∧ validate_key to_json acc'.1 acc'.2 k v = Ok Ignored) ∧
  (∀ k kvs' e w', check_replica cf = true → (dict kvs).*1 = k :: kvs' → replicas_of k (cluster c) = (Err e, w') → is_Exception e = true →
     ∃ s', validate_docs to_json replicas_of show cf (Running t c) = (Ok tt, s') ∧ generator (tk s') = g' ∧ exception (tk s') = Some e ∧ cluster (world s') = w').
Proof.
  intros Hpool Hop Hc He Hg. assert (v_skip cf = false) as Hskip by (by apply bool_decide_eq_false). rewrite <- Hskip in Hg. split_and!.
  - intros f w' Hrep Hget Hf. rewrite (validate_docs_step to_json replicas_of show cf t c kvs g' ∅ f w') by done.
    erewrite bind_Ok; [|unfold lift; rewrite validate_key_val_right; [reflexivity|]].
    + pose proof (judge_run cf (dict kvs).*1 [] [] (set_generator g' t) (Checked w' (missing_keys c) (wrong_values c) f) Hop He) as Hj.
      cbv zeta in Hj. rewrite (bool_decide_eq_true_2 _ (conj eq_refl eq_refl)) in Hj. exact Hj.
    + intros k v Hin. right. destruct (Hf k) as (e & x & Hk & Hx & Hn); [apply list_elem_of_fmap; by exists (k, v)|].
      unfold validate_key, dict_get. rewrite lookup_empty, Hk. cbn [mbind res_bind of_option]. rewrite Hx. cbn [mbind res_bind of_option]. by rewrite Hn.
  - intros k v copies w' acc Hr Hne Hlen Hshow Hacc. unfold read_key, v_with_client.
    erewrite bind_Ok by (rewrite (bind_Ok (gets tk) _ _ _ _ eq_refl); cbn [tk]; destruct (client t); [|done]; unfold on_world, on_cluster; cbn [world]; rewrite Hr; reflexivity).
    destruct copies as [|[a cas] copies]; [done|]. rewrite bool_decide_eq_false_2 by done. eexists _, _. split; [reflexivity|].
    unfold validate_key, dict_get. cbn [fst snd]. rewrite Hacc, lookup_insert_eq. cbn [mbind res_bind of_option e_error]. by rewrite Hshow.
  - intros k kvs' e w' Hrep Hks Hr Hex. unfold validate_docs, v_take_client. rewrite Hpool, Hrep.
    rewrite (bind_Ok (mret tt) _ _ tt _ eq_refl).
    erewrite bind_Ok by (unfold on_gen; cbn [tk world]; rewrite Hg; reflexivity). cbn [tk world].
    fold (dict kvs). rewrite Hks. set (t1 := Task _ _ _ _ _ _ _ _ _ _ _).
    assert (client t1 ≠ None) as Hc1 by done.
    set (c1 := Checked (cluster c) (missing_keys c) (wrong_values c) (∅ : entries V)).
    assert (read_replicas replicas_of show cf (k :: kvs') (∅, ∅) (Running t1 c1) =
      (Ok None, Running (set_error e t1) (Checked w' (missing_keys c) (wrong_values c) ∅))) as Hrd.
    { assert (read_key replicas_of show cf k (∅, ∅) (Running t1 c1) = (Err e, Running t1 (Checked w' (missing_keys c) (wrong_values c) ∅))) as Hk.
      { unfold read_key, v_with_client. apply bind_Err. rewrite (bind_Ok (gets tk) _ _ _ _ eq_refl). cbn [tk]. destruct (client t1); [|done].
        unfold on_world, on_cluster. cbn [world cluster c1]. by rewrite Hr. }
      cbn [read_replicas]. rewrite (bind_Ok _ _ _ None (Running (set_error e t1) (Checked w' (missing_keys c) (wrong_values c) ∅))); [done|].
      unfold except_Exception, try_except. rewrite (bind_Err _ _ _ _ _ Hk). by rewrite Hex. }
    exists (Running (set_error e t1) (Checked w' (missing_keys c) (wrong_values c) ∅)). split; [|done].
    rewrite (bind_Ok _ _ _ None (Running (set_error e t1) (Checked w' (missing_keys c) (wrong_values c) ∅))); [done|].
    rewrite (bind_Ok (set_failed ∅) _ _ tt _ eq_refl). exact Hrd.
Qed.

(** ** Examples *)

(** A generator that yields the documents of a list, and the cluster of LoadTasks.v. *)
Abbreviation listing := (list (pystr * doc)).
#[local] Instance listing_generator : Generator listing doc := {|
  g_has_next g := negb (bool_decide (g = []));
  g_next g := match g with [] => (raise StopIteration, g) | kv :: g' => (Ok kv, g') end;
  g_next_key g := match g with [] => (raise StopIteration, g) | kv :: g' => (Ok kv.1, g') end;
  g_deep_copy _ := true;
  g_reset g := g
|}.
#[local] Program Instance listing_laws : GeneratorLaws listing doc := {| g_ok _ := True; g_keys g := g.*1 |}.
Next Obligation. by intros [|kv g] _. Qed.
Next Obligation. intros [|[k' v] g] k ks _ [= -> <-]. by exists v, g. Qed.
Next Obligation. intros [|[k' v] g] k ks _ [= -> <-]. by exists g. Qed.

Lemma listing_batch n skip (val : option doc) (g : listing) :
  next_batch_loop n skip val g = (Ok ((λ kv, (kv.1, Some kv.2)) <$> take n g), drop n g).
Proof.
  revert skip val g. induction n as [|n IH]; intros skip val g; [done|]. cbn [next_batch_loop].
  rewrite (bind_Ok get _ _ _ _ eq_refl). destruct g as [|[k v] g]; [done|]. cbn [g_has_next listing_generator g_deep_copy].
  rewrite bool_decide_eq_false_2 by done. rewrite orb_true_r. cbn [negb].
  rewrite (bind_Ok _ _ _ (k, v) g) by done. cbv beta iota. by rewrite (bind_Ok _ _ _ _ _ (IH true (Some v) g)).
Qed.
Lemma listing_run cf (g g' : listing) bs :
  gen_run cf g bs g' → ∃ l, g = l ++ g' ∧ concat bs = (λ kv, (kv.1, Some kv.2)) <$> l.
Proof.
  induction 1 as [g|g bs g1 b g2 _ (l & Hl & Hc) _ Hb]; [by exists []|].
  unfold next_batch in Hb. rewrite listing_batch in Hb. injection Hb as <- <-.
  exists (l ++ take (Z.to_nat (batch_size cf)) g1). rewrite <- app_assoc, take_drop. split; [done|].
  rewrite concat_app, Hc. cbn. by rewrite app_nil_r, fmap_app.
Qed.

Definition demo_doc (n : Z) : doc := DText {["mutated" := JVInt n]}.
Definition demo_listing : listing := [(py "a", demo_doc 0); (py "b", demo_doc 1); (py "c", demo_doc 2)].
Definition demo_to_json (d : doc) : res tmpl := match d with DText t => Ok t | _ => raise ValueError end.
Definition demo_vconfig : vconfig := VConfig (py "create") false 0 1 demo_config.
Definition demo_validator : task doc listing := new_task demo_config (Some 0%nat) demo_listing.
Definition demo_checked : checked (gmap pystr doc) doc := Checked (list_to_map demo_listing) [] [] ∅.
Definition no_replicas (k : pystr) (w : gmap pystr doc) : res (list (doc * Z)) * gmap pystr doc := (Ok [], w).
Definition no_text (l : list (doc * Z)) : pystr := [].
#[local] Existing Instance demo_docop.
#[local] Existing Instance demo_pool.
#[local] Existing Instance demo_laws.

Lemma demo_listing_keys : NoDup demo_listing.*1.
Proof. apply (bool_decide_unpack _). vm_compute. exact I. Qed.


(** This cluster finds what exists. *)
Lemma demo_reads (keys : list pystr) (o : opts) (w : gmap pystr doc) (rm f : entries doc) (w' : gmap pystr doc) :
  get_multi keys o w = (Ok (rm, f), w') → ∀ k, k ∈ keys → is_Some (docs w !! k) → is_Some (rm !! k).
Proof.
  unfold get_multi, on_java. intros (r & w1 & H1 & H2)%bind_inv k Hk [v Hv]. cbn in H1. injection H1 as <- <-.
  unfold lift, translate_get_multi_results, translated in H2. injection H2 as H2 _. cbn in Hv.
  assert (∀ ks acc, translate (λ r, Entry (Value (jr_value r)) (jr_cas r) None) (λ _ : jresult doc, EmptyDict)
    ((λ k, JResult k (bool_decide (w !! k ≠ None)) 1 (default (DRef 0) (w !! k)) demo_error) <$> ks) acc = Ok (rm, f) →
    k ∈ ks ∨ is_Some (acc.1 !! k) → is_Some (rm !! k)) as H; [|eapply H; eauto].
  induction ks as [|k' ks IH]; intros [s0 f0]; cbn [translate fmap list_fmap fst snd].
  - intros [= -> ->] [?%elem_of_nil|?]; done.
  - cbn [jr_status]. case_bool_decide as E.
    + intros Ht Hor. eapply IH; [exact Ht|]. cbn [fst jr_id]. destruct (decide (k = k')) as [->|Hne].
      * right. by rewrite lookup_insert_eq.
      * rewrite lookup_insert_ne by done. set_solver.
    + intros Ht Hor. apply res_bind_inv in Ht as (x & _ & Ht). eapply IH; [exact Ht|]. cbn [fst]. destruct Hor as [Hor|Hor]; [|by right].
      apply elem_of_cons in Hor as [Heq|]; [|by left]. exfalso. unfold docs in Hv. cbn in Hv. congruence.
Qed.

Lemma validation_accepts_witness :
  ∃ t' c', validate_call demo_to_json no_replicas no_text demo_vconfig 2 3 (Running demo_validator demo_checked) = (Ok tt, Running t' c') ∧
    missing_keys c' = [] ∧ wrong_values c' = [].
Proof.
  assert (∀ bs g', gen_run demo_config demo_listing bs g' → ∀ k v, (k, v) ∈ concat bs →
     ∃ x d, v = Some x ∧ docs (cluster demo_checked) !! k = Some x ∧ normal demo_to_json x = Ok d) as Hd.
  { intros bs g' (l & Hl & Hc)%listing_run k v Hin. rewrite Hc in Hin. apply list_elem_of_fmap in Hin as ([k' x] & [= -> ->] & Hx).
    assert ((k', x) ∈ demo_listing) as Hx' by (rewrite Hl; set_solver).
    exists x. apply elem_of_list_to_map_1 in Hx' as Hm; [|exact demo_listing_keys].
    unfold demo_listing in Hx'. rewrite !elem_of_cons, elem_of_nil in Hx'.
    destruct Hx' as [[= -> ->]|[[= -> ->]|[[= -> ->]|[]]]]; eexists; (split; [done|]); (split; [exact Hm|]); vm_compute; reflexivity. }
  assert ((length demo_listing.*1 ≤ 3)%nat) as Hl by (cbn; lia).
  destruct (validation_accepts demo_to_json no_replicas no_text demo_vconfig demo_validator demo_checked 3 eq_refl eq_refl
              ltac:(discriminate) eq_refl eq_refl ltac:(discriminate) eq_refl eq_refl eq_refl I eq_refl demo_listing_keys demo_reads Hd Hl)
    as (t' & c' & H1 & _ & _ & H2 & H3 & _).
  exists t', c'. exact (conj H1 (conj H2 H3)).
Defined.

Lemma validation_blind_witness :
  ∃ acc s, read_key (λ _ w, (Ok [(demo_doc 0, 1)], w)) no_text (VConfig (py "create") true 1 2 demo_config) (py "a") (∅, ∅)
             (Running demo_validator demo_checked) = (Ok acc, s) ∧
    validate_key demo_to_json acc.1 acc.2 (py "a") (Some (demo_doc 0)) = Ok Ignored.
Proof.
  destruct (validation_blind demo_to_json (λ _ w, (Ok [(demo_doc 0, 1)], w)) no_text (VConfig (py "create") true 1 2 demo_config)
              demo_validator demo_checked _ _ eq_refl ltac:(discriminate) ltac:(discriminate) eq_refl
              (listing_batch 2 false None demo_listing)) as (_ & H & _).
  exact (H (py "a") (Some (demo_doc 0)) [(demo_doc 0, 1)] (cluster demo_checked) (∅, ∅) eq_refl ltac:(discriminate)
           ltac:(discriminate) eq_refl eq_refl).
Defined.
