(* ===== verification/Rebalance.v ===== *)
(** * lib/Jython_tasks/task.py: rebalancing a cluster

    [RebalanceTask] adds and removes nodes and follows the rebalance until it ends, over the REST methods of
    lib/membase/api/rest_client.py that poll the list of cluster tasks
    ([_rebalance_status_and_progress], [monitorRebalance], ...), and [BucketHelper._get_vbuckets] of lib/BucketLib/BucketOperations_Rest.py.
    The answers of the cluster are an interface, class [Rest]; so is the clock.  Progress is kept in hundredths of a percent, to which the code rounds it.
    Loops that poll have fuel: a round each. *)

From stdpp Require Import sorting.
From S2P Require Import Prelude Py.
Local Open Scope string_scope.
Local Open Scope list_scope.
Local Open Scope Z_scope.
#[local] Arguments py : simpl never.

(** ** The data *)

(** A [TestInputServer]; [sv_id] is the identity of the object. *)
Record server := Server { sv_id : nat; ip : pystr; hostname : pystr; port : pystr }.
#[global] Instance server_eq_dec : EqDecision server.
Proof. solve_decision. Defined.

(** [CbServer.Services] *)
Inductive service := KV | INDEX | N1QL | CBAS | EVENTING | FTS | BACKUP.
#[global] Instance service_eq_dec : EqDecision service.
Proof. solve_decision. Defined.
Definition service_name (s : service) : pystr :=
  match s with
  | KV => py "kv" | INDEX => py "index" | N1QL => py "n1ql" | CBAS => py "cbas"
  | EVENTING => py "eventing" | FTS => py "fts" | BACKUP => py "backup"
  end.
(** The order in which [add_nodes] compares names. *)
Definition service_named (x : pystr) : option service :=
  snd <$> list_find (λ s, service_name s = x) [KV; INDEX; N1QL; CBAS; EVENTING; FTS; BACKUP].

(** The [CBCluster]: [servers], [nodes_in_cluster], and [kv_nodes], [index_nodes], ... by service. *)
Record cluster := Cluster {
  master : server; all_servers : list server; nodes_in_cluster : list server; nodes_of : service → list server
}.
Definition node_str (i p : pystr) : pystr := i ++ py ":" ++ p.

(** What the cluster says: a node of [get_nodes], an [OtpNode] of [node_statuses], and an entry of the list of tasks
    with the keys that are looked at. *)
Record rnode := RNode { r_ip : pystr; r_port : pystr; clusterMembership : pystr }.
Record otp := Otp { o_id : pystr; o_ip : pystr; o_port : Z }.
Record ctask (F : Type) := CTask {
  ct_type : option pystr; ct_subtype : option pystr; ct_status : option pystr; ct_error : bool;
  ct_id : option pystr; ct_progress : option F
}.
Arguments CTask {F}. Arguments ct_type {F}. Arguments ct_subtype {F}. Arguments ct_status {F}. Arguments ct_error {F}.
Arguments ct_id {F}. Arguments ct_progress {F}.
(** The result of [_get_vbuckets]: "active_vb" and "replica_vb" per server. *)
Abbreviation vbmap := (gmap nat (list Z * list Z)).

(** ** The cluster as the task sees it *)

Class Rest (W F : Type) := {
  time : W → Z * W;                                             (* [time.time()], in milliseconds *)
  round2 : F → Z;                                               (* [round(x, 2)], in hundredths *)
  connect : server → W → res unit * W;                          (* [RestConnection(server)] *)
  get_tasks : W → res (bool * list (ctask F)) * W;              (* GET pools/default/tasks: status and parsed content *)
  get_nodes : W → res (list rnode) * W;                         (* with inactive=True *)
  node_statuses : W → res (list otp) * W;
  node_names : W → res (list pystr) * W;                        (* the keys of [get_cluster_stats] *)
  add_node : pystr → pystr → option pystr → list pystr → W → res unit * W;
  post_rebalance : gmap pystr pystr → W → res (bool * pystr) * W;  (* POST controller/rebalance *)
  is_cluster_mixed : W → res bool * W;
  check_node_versions : W → res bool * W;
  get_nodes_services : W → res (gmap pystr (list pystr)) * W;
  pools : server → W → res (option Z) * W;                      (* the number of "pools" in [get_pools_info], if the key is there *)
  server_map : server → W → res (list pystr * list (list Z)) * W;  (* "serverList" and "vBucketMap" of the first bucket *)
  update_bucket_servers : W → res unit * W                      (* [get_updated_bucket_server_list] of every bucket *)
}.

(** ** lib/membase/api/rest_client.py *)

(** A code or a whole percentage as a progress. *)
Definition pct (n : Z) : Z := n * 100.

Section RestClient.
Context {W F : Type} `{HR : Rest W F}.

(** The loop that looks for the task of type "rebalance"; the list itself has no key when there is none. *)
Definition rebalance_task (l : list (ctask F)) : option (ctask F) :=
  snd <$> list_find (λ t, ct_type t = Some (py "rebalance")) l.
Definition shown_status (st : pystr) : pystr := if bool_decide (st = py "notRunning") then py "none" else st.

Definition status_and_progress (task_status_id : option pystr) : M W (option pystr * Z) :=
  r ← try_except (x ← get_tasks; mret (Some x))
        (λ e, if bool_decide (exn_cls e = ServerUnavailable) then mret None else lift (Err e));
  match r with
  | None => mret (None, pct (-100))
  | Some (false, _) => mret (None, pct (-100))
  | Some (true, l) =>
      match rebalance_task l ≫= λ t, st ← ct_status t; Some (t, st) with
      | None => mret (None, pct (-1))
      | Some (t, st) =>
          let st := shown_status st in
          if ct_error t then mraise RebalanceFailed
          else if bool_decide (st = py "running") then
            match task_status_id, ct_id t with
            | Some i, Some j =>
                if bool_decide (j ≠ i) then mret (Some (py "none"), pct 100)
                else p ← lift (of_option KeyError (ct_progress t)); mret (Some st, round2 p)
            | _, _ => p ← lift (of_option KeyError (ct_progress t)); mret (Some st, round2 p)
            end
          else
            '(_, l) ← get_tasks;
            if (match rebalance_task l with Some t => ct_error t | None => false end) then mraise RebalanceFailed
            else mret (Some st, pct 100)
      end
  end.

Definition progress_status (include_failover : bool) : M W (option pystr) :=
  '(status, l) ← get_tasks;
  match (if (status : bool) then rebalance_task l ≫= λ t, st ← ct_status t; Some (t, st) else None) with
  | None => mret None
  | Some (t, st) =>
      if include_failover then mret (Some (shown_status st))
      else
        sub ← lift (of_option KeyError (ct_subtype t));
        mret (Some (if bool_decide (sub = py "failover") then py "none" else shown_status st))
  end.

Fixpoint first_task (task_type sub : pystr) (l : list (ctask F)) : res (option (ctask F)) :=
  match l with
  | [] => Ok None
  | t :: l =>
      ty ← of_option KeyError (ct_type t);
      if bool_decide (ty = task_type) then
        match ct_subtype t with
        | None => Ok (Some t)
        | Some s => if bool_decide (s = sub) then Ok (Some t) else first_task task_type sub l
        end
      else first_task task_type sub l
  end.
(** A content that is not JSON gives [None]. *)
Definition ns_server_tasks (task_type sub : pystr) : M W (option (ctask F)) :=
  try_except ('(_, l) ← get_tasks; lift (first_task task_type sub l))
    (λ e, if bool_decide (exn_cls e = ValueError) then mret None else lift (Err e)).

(** [monitorRebalance]: the test of the loop, and the loop; [None] when it runs out of fuel. *)
Definition keep_monitoring (progress retry : Z) : M W bool :=
  if progress =? pct (-1) then mret false
  else
    again ← (if progress =? pct 100 then st ← progress_status true; mret (bool_decide (st = Some (py "running")))
             else mret true);
    mret ((again : bool) && (retry <? 20)).
Fixpoint monitor_loop (fuel : nat) (stop_if_loop : bool) (progress retry same previous : Z) : M W bool :=
  go ← keep_monitoring progress retry;
  if (go : bool) then
    match fuel with
    | O => mraise Blocked
    | S fuel =>
        sp ← status_and_progress None;
        let progress := sp.2 in
        let retry := if progress =? pct (-100) then retry + 1 else 0 in
        if stop_if_loop then
          let changed := negb (previous =? progress) || (progress =? 0) in
          let previous := if changed then progress else previous in
          let same := if changed then 0 else same + 1 in
          if 500 <? same then mret false else monitor_loop fuel stop_if_loop progress retry same previous
        else monitor_loop fuel stop_if_loop progress retry same previous
    end
  else mret (0 <=? progress).
Definition monitorRebalance (fuel : nat) (stop_if_loop : bool) : M W bool :=
  monitor_loop fuel stop_if_loop 0 0 0 0.

(** [stop_rebalance], after the request: the number of seconds to wait. *)
Fixpoint wait_stopped (wait_timeout : nat) (status : bool) : M W bool :=
  match wait_timeout with
  | O => mret status
  | S n =>
      st ← progress_status true;
      if bool_decide (st = Some (py "running")) then wait_stopped n false else mret true
  end.

(** The parameters of [rebalance]; [defrag] has the zones and the known nodes, each joined by commas. *)
Definition rebalance_params (user password : pystr) (otpNodes ejectedNodes : list pystr) (defrag : option (pystr * pystr))
    : gmap pystr pystr :=
  let params := <[py "knownNodes" := join (py ",") otpNodes]> (<[py "ejectedNodes" := join (py ",") ejectedNodes]>
                  (<[py "user" := user]> (<[py "password" := password]> ∅))) in
  match defrag with
  | None => params
  | Some (zones, known) => <[py "knownNodes" := known]> (<[py "defragmentZones" := zones]> params)
  end.

(** ** [BucketHelper._get_vbuckets] *)

Definition target_servers (servers : list server) (server_list : list pystr) : list server :=
  concat ((λ s, filter (λ t, Some (ip t) = head (split_on ":"%char s)) servers) <$> server_list).
Definition add_vb (active : bool) (vb : Z) (s : server) (m : vbmap) : vbmap :=
  alter (λ p, if active then (p.1 ++ [vb], p.2) else (p.1, p.2 ++ [vb])) (sv_id s) m.
(** A row of the map: the position in the row selects the server, the number in it active or replica. *)
Fixpoint vb_row (vb : Z) (targets : list server) (row : list Z) (m : vbmap) : vbmap :=
  match targets, row with
  | s :: targets, i :: row =>
      vb_row vb targets row (if i =? 0 then add_vb true vb s m else if 0 <? i then add_vb false vb s m else m)
  | _, _ => m
  end.
Fixpoint vb_rows (vb : Z) (targets : list server) (rows : list (list Z)) (m : vbmap) : vbmap :=
  match rows with
  | [] => m
  | row :: rows => vb_rows (vb + 1) targets rows (vb_row vb targets row m)
  end.
Definition get_vbuckets (via : server) (servers : list server) : M W vbmap :=
  '(server_list, rows) ← server_map via;
  mret (vb_rows 0 (target_servers servers server_list) rows (list_to_map ((λ s, (sv_id s, ([], []))) <$> servers))).
End RestClient.

(** ** [RebalanceTask] *)

(** What the task is given, and the settings of the run ([ClusterRun.is_enabled], the "serverless" profile). *)
Record rconfig := RConfig {
  to_add : list server; to_remove : list server; use_hostnames : bool; services : list pystr;  (* no services: [] *)
  check_vbucket_shuffling : bool; cluster_run : bool; serverless : bool; r_user : pystr; r_password : pystr;
  defrag_zones : option (pystr * list pystr)  (* the zones, joined, and the addresses of the known nodes *)
}.
(** The rest of the object.  [self.servers] is the list object [cluster.nodes_in_cluster].  [groups] is the dictionary of the caller. *)
Record rtask := RTask {
  started : bool; completed : bool; result : bool; exception : option pyexn; state : option pystr;
  monitor_shuffling : bool; old_vbuckets : vbmap; retry_get_progress : Z; retry_get_process_num : Z; previous_progress : Z;
  prev_status_id : option pystr; groups : list (pystr * Z); api_response : pystr
}.
Record rsys (W : Type) := RSys { rt : rtask; cl : cluster; rw : W }.
Arguments RSys {W}. Arguments rt {W}. Arguments cl {W}. Arguments rw {W}.

(** *** [__init__] *)

Section Init.
Context {W F : Type} `{HR : Rest W F} (cf : rconfig).

Definition goes_out (i p : pystr) : bool :=
  if cluster_run cf then bool_decide (node_str i p ∈ (λ s, node_str (ip s) (port s)) <$> to_remove cf)
  else bool_decide (i ∈ ip <$> to_remove cf).
(** The loops over the nodes that the cluster has and the servers of the test. *)
Definition member (n : rnode) : bool := bool_decide (clusterMembership n ∈ [py "active"; py "inactiveAdded"]).
Fixpoint servers_of (n : rnode) (l : list server) : list server :=
  match l with
  | [] => []
  | s :: l =>
      if bool_decide (r_ip n = ip s ∧ r_port n = port s) && member n then
        let kept := if goes_out (r_ip n) (r_port n) then [] else [s] in
        if cluster_run cf then kept ++ servers_of n l else kept
      else servers_of n l
  end.
Definition current_servers (nodes : list rnode) (l : list server) : list server :=
  concat ((λ n, servers_of n l) <$> nodes).
Definition drop_out_nodes (c : cluster) : cluster :=
  Cluster (master c) (all_servers c) (nodes_in_cluster c)
    (λ s, filter (λ n, goes_out (ip n) (port n) = false) (nodes_of c s)).
(** The loop over [cluster_stats]; a name must be an address and a port. *)
Definition visit_node (name : pystr) : M (cluster * W) unit :=
  if bool_decide (length (split_on ":"%char name) = 2%nat) then modify (λ s, (drop_out_nodes s.1, s.2)) else mraise ValueError.

Definition on_w {A} (m : M W A) : M (cluster * W) A := λ s, let '(r, w) := m s.2 in (r, (s.1, w)).
Definition init (server_groups : option (list (pystr * Z))) (retry_num : Z) : M (cluster * W) rtask :=
  _ ← (match server_groups with
       | Some g => if bool_decide (len (to_add cf) ≠ foldr Z.add 0 g.*2) then mraise GenericException else mret tt
       | None => mret tt
       end);
  s ← get;
  _ ← on_w (connect (master s.1));
  nodes ← on_w get_nodes;
  _ ← modify (λ s, (Cluster (master s.1) (all_servers s.1) (current_servers nodes (all_servers s.1)) (nodes_of s.1), s.2));
  names ← on_w node_names;
  _ ← mfor names visit_node;
  t ← on_w (ns_server_tasks (py "rebalance") (py "rebalance"));
  mret (RTask false false false None None false ∅ 0 retry_num 0 (t ≫= ct_id) (default [] server_groups) []).
End Init.

(** *** The steps *)

Section Task.
Context {W F : Type} `{HR : Rest W F} (cf : rconfig).
Abbreviation MR := (M (rsys W)).
Definition on_rw {A} (m : M W A) : MR A := λ s, let '(r, w) := m (rw s) in (r, RSys (rt s) (cl s) w).
Definition on_rt (f : rtask → rtask) : MR unit := modify (λ s, RSys (f (rt s)) (cl s) (rw s)).
Definition on_cl (f : cluster → cluster) : MR unit := modify (λ s, RSys (rt s) (f (cl s)) (rw s)).
Definition set_flags (st co re : bool) (e : option pyexn) (t : rtask) : rtask :=
  RTask st co re e (state t) (monitor_shuffling t) (old_vbuckets t) (retry_get_progress t) (retry_get_process_num t)
    (previous_progress t) (prev_status_id t) (groups t) (api_response t).
Definition set_result (b : bool) (t : rtask) : rtask := set_flags (started t) (completed t) b (exception t) t.
Definition set_state (s : string) (t : rtask) : rtask :=
  RTask (started t) (completed t) (result t) (exception t) (Some (py s)) (monitor_shuffling t) (old_vbuckets t)
    (retry_get_progress t) (retry_get_process_num t) (previous_progress t) (prev_status_id t) (groups t) (api_response t).
Definition set_monitor (b : bool) (m : vbmap) (t : rtask) : rtask :=
  RTask (started t) (completed t) (result t) (exception t) (state t) b m (retry_get_progress t) (retry_get_process_num t)
    (previous_progress t) (prev_status_id t) (groups t) (api_response t).
Definition set_retry (n num p : Z) (t : rtask) : rtask :=
  RTask (started t) (completed t) (result t) (exception t) (state t) (monitor_shuffling t) (old_vbuckets t) n num p
    (prev_status_id t) (groups t) (api_response t).
Definition set_status_id (i : option pystr) (t : rtask) : rtask :=
  RTask (started t) (completed t) (result t) (exception t) (state t) (monitor_shuffling t) (old_vbuckets t)
    (retry_get_progress t) (retry_get_process_num t) (previous_progress t) i (groups t) (api_response t).
Definition set_groups (g : list (pystr * Z)) (t : rtask) : rtask :=
  RTask (started t) (completed t) (result t) (exception t) (state t) (monitor_shuffling t) (old_vbuckets t)
    (retry_get_progress t) (retry_get_process_num t) (previous_progress t) (prev_status_id t) g (api_response t).
Definition set_response (r : pystr) (t : rtask) : rtask :=
  RTask (started t) (completed t) (result t) (exception t) (state t) (monitor_shuffling t) (old_vbuckets t)
    (retry_get_progress t) (retry_get_process_num t) (previous_progress t) (prev_status_id t) (groups t) r.

(** [add_nodes]: the zone of the next node.  [index] counts the zones that are full. *)
Definition next_zone (index : nat) : MR (option pystr * nat) :=
  s ← get;
  match groups (rt s) with
  | [] => mret (None, index)
  | g =>
      '(zone, n) ← lift (list_get g index);
      _ ← on_rt (set_groups (<[index := (zone, n - 1)]> g));
      mret (Some zone, if n - 1 =? 0 then S index else index)
  end.
Definition occurrences (s : service) (n : server) (names : pystr) : list server :=
  concat ((λ x, if bool_decide (service_named x = Some s) then [n] else []) <$> split_on ","%char names).
Definition append_node (n : server) (names : pystr) (c : cluster) : cluster :=
  Cluster (master c) (all_servers c) (nodes_in_cluster c) (λ s, nodes_of c s ++ occurrences s n names).
Definition append_in (n : server) (c : cluster) : cluster :=
  Cluster (master c) (all_servers c) (nodes_in_cluster c ++ [n]) (nodes_of c).
Fixpoint add_each (nodes : list server) (node_index zone_index : nat) : MR unit :=
  match nodes with
  | [] => mret tt
  | n :: nodes =>
      '(zone, zone_index) ← next_zone zone_index;
      sv ← (if bool_decide (services cf = []) then mret (service_name KV) else lift (list_get (services cf) node_index));
      _ ← on_rw (add_node (if use_hostnames cf then hostname n else ip n) (port n) zone [sv]);
      _ ← on_cl (append_node n sv);
      _ ← on_cl (append_in n);
      add_each nodes (if bool_decide (services cf = []) then node_index else S node_index) zone_index
  end.
Definition add_nodes : MR unit :=
  s ← get;
  _ ← lift (list_get (nodes_in_cluster (cl s)) 0);
  add_each (to_add cf) 0 0.

(** [start_rebalance] *)
Definition ejected (n : otp) (s : server) : res bool :=
  if cluster_run cf then p ← int_of_str (port s); Ok (bool_decide (p = o_port n))
  else if bool_decide ((if use_hostnames cf then hostname s else ip s) = o_ip n)
       then p ← int_of_str (port s); Ok (bool_decide (p = o_port n))
       else Ok false.
Fixpoint ejected_of (s : server) (nodes : list otp) : res (list pystr) :=
  match nodes with
  | [] => Ok []
  | n :: nodes => b ← ejected n s; l ← ejected_of s nodes; Ok (if (b : bool) then o_id n :: l else l)
  end.
Fixpoint ejected_nodes (l : list server) (nodes : list otp) : res (list pystr) :=
  match l with
  | [] => Ok []
  | s :: l => a ← ejected_of s nodes; b ← ejected_nodes l nodes; Ok (a ++ b)
  end.
Definition known_nodes (ips : list pystr) (nodes : list otp) : pystr :=
  join (py ",") (o_id <$> filter (λ n, o_ip n ∈ ips) nodes).
Definition start_rebalance : MR unit :=
  nodes ← on_rw node_statuses;
  let defrag := (λ d, (d.1, known_nodes d.2 nodes)) <$> defrag_zones cf in
  ej ← lift (ejected_nodes (to_remove cf) nodes);
  '(ok, content) ← on_rw (post_rebalance (rebalance_params (r_user cf) (r_password cf) (o_id <$> nodes) ej defrag));
  _ ← on_rt (set_response content);
  if (ok : bool) then mret tt else on_rt (set_state "trigger_failed").

(** *** [check] *)

Definition non_swap_servers (c : cluster) : list server :=
  filter (λ s, s ∉ to_remove cf ∧ s ∉ to_add cf) (remove_dups (nodes_in_cluster c)).
Definition same_vbs (old new : vbmap) (part : list Z * list Z → list Z) (s : server) : res bool :=
  a ← dict_get old (sv_id s);
  b ← dict_get new (sv_id s);
  Ok (bool_decide ((list_to_set (part a) : gset Z) = list_to_set (part b))).
Fixpoint all_same (old new : vbmap) (part : list Z * list Z → list Z) (l : list server) : res unit :=
  match l with
  | [] => Ok tt
  | s :: l => b ← same_vbs old new part s; if (b : bool) then all_same old new part l else raise GenericException
  end.
Definition check_shuffling : MR unit :=
  s ← get;
  if monitor_shuffling (rt s) then
    let l := non_swap_servers (cl s) in
    via ← lift (list_get (nodes_in_cluster (cl s)) 0);
    new ← on_rw (get_vbuckets via l);
    _ ← lift (all_same (old_vbuckets (rt s)) new fst l);
    lift (all_same (old_vbuckets (rt s)) new snd l)
  else mret tt.
(** What a round learns: status and progress, with the counters. *)
Definition count_progress (p : Z) (t : rtask) : rtask :=
  if p =? pct (-100) then set_retry (retry_get_progress t + 1) (retry_get_process_num t) (previous_progress t) t
  else if negb (previous_progress t =? p) then set_retry 0 (retry_get_process_num t) p t
  else set_retry (retry_get_progress t + 1) (retry_get_process_num t) (previous_progress t) t.
Definition poll : MR (option pystr * Z) :=
  sp ← try_except
         (_ ← check_shuffling;
          s ← get;
          sp ← on_rw (status_and_progress (prev_status_id (rt s)));
          _ ← on_rt (count_progress sp.2);
          mret sp)
         (λ e, if is_Exception e then _ ← on_rt (set_result false); lift (Err e) else lift (Err e));
  mixed ← on_rw is_cluster_mixed;
  _ ← (if (mixed : bool) then on_rt (λ t, set_retry (retry_get_progress t) (retry_get_process_num t * 2) (previous_progress t) t)
       else mret tt);
  mret (sp : option pystr * Z).

(** Whether a removed node has left, asked for half a minute; the fuel counts the requests. *)
Fixpoint wait_cleaned (fuel : nat) (start : Z) (s : server) : MR bool :=
  now ← on_rw (λ w, let '(t, w) := time w in (Ok t, w));
  if now - start <? 30000 then
    match fuel with
    | O => mraise Blocked
    | S fuel =>
        clean ← try_except
          (n ← on_rw (pools s);
           match n with
           | None => mret false
           | Some _ => n ← on_rw (pools s); n ← lift (of_option KeyError n); mret (bool_decide (n = 0))
           end)
          (λ e, if bool_decide (exn_cls e ∈ [ServerUnavailable; IncompleteRead]) then mret false else lift (Err e));
        if (clean : bool) then mret true else wait_cleaned fuel start s
    end
  else mret false.
Fixpoint cleaned (fuel : nat) (l : list server) : MR (list server) :=
  match l with
  | [] => mret []
  | s :: l =>
      up ← try_except (_ ← on_rw (connect s); mret true)
             (λ e, if bool_decide (exn_cls e = ServerUnavailable) then mret false else lift (Err e));
      c ← (if (up : bool) then
             start ← on_rw (λ w, let '(t, w) := time w in (Ok t, w));
             wait_cleaned fuel start s
           else mret false);
      rest ← cleaned fuel l;
      mret (if (c : bool) then s :: rest else rest)
  end.
Definition finish (fuel : nat) : MR unit :=
  ok ← cleaned fuel (to_remove cf);
  _ ← (if bool_decide (Forall (λ s, s ∈ ok) (to_remove cf)) then mret tt else on_rt (set_result false));
  on_rt (set_result true).

Fixpoint check (fuel clean_fuel : nat) : MR unit :=
  match fuel with
  | O => mraise Blocked
  | S fuel =>
      '(status, progress) ← poll;
      if negb (progress =? pct (-1)) && bool_decide (status ≠ Some (py "none")) then
        s ← get;
        if retry_get_progress (rt s) <? retry_get_process_num (rt s) then check fuel clean_fuel
        else
          _ ← on_rt (set_result false);
          mraise RebalanceFailed
      else finish clean_fuel
  end.

(** *** [call] *)

(** The preparation of a swap rebalance. *)
Definition prepare_swap : MR unit :=
  if bool_decide (to_add cf ≠ [] ∧ length (to_add cf) = length (to_remove cf)) then
    version_ok ← on_rw check_node_versions;
    s ← get;
    _ ← (if check_vbucket_shuffling cf then
           via ← lift (list_get (nodes_in_cluster (cl s)) 0);
           old ← on_rw (get_vbuckets via (non_swap_servers (cl s)));
           on_rt (set_monitor (bool_decide (old ≠ ∅)) old)
         else mret tt);
    _ ← on_rt (λ t, if monitor_shuffling t && version_ok && existsb (λ g, negb (contains (py "kv") g)) (services cf)
                    then set_monitor false (old_vbuckets t) t else t);
    s ← get;
    if monitor_shuffling (rt s) && version_ok then
      map ← on_rw get_nodes_services;
      mfor (to_remove cf) (λ r,
        sv ← lift (dict_get map (node_str (ip r) (port r)));
        on_rt (λ t, if bool_decide (py "kv" ∈ sv) then t else set_monitor false (old_vbuckets t) t))
    else mret tt
  else mret tt.
(** The wait for a new "statusId", ten seconds at most. *)
Fixpoint wait_started (fuel : nat) (timeout : Z) : MR unit :=
  now ← on_rw (λ w, let '(t, w) := time w in (Ok t, w));
  if now / 1000 <? timeout then
    match fuel with
    | O => mraise Blocked
    | S fuel =>
        t ← on_rw (ns_server_tasks (py "rebalance") (py "rebalance"));
        match t with
        | None => wait_started fuel timeout
        | Some t =>
            i ← lift (of_option KeyError (ct_id t));
            s ← get;
            if bool_decide (Some i = prev_status_id (rt s)) then wait_started fuel timeout
            else on_rt (set_status_id (Some i))
        end
    end
  else mret tt.
(** From the request on. *)
Definition follow (start_fuel fuel clean_fuel : nat) : MR bool :=
  _ ← on_rt (set_state "triggering");
  _ ← start_rebalance;
  s ← get;
  if bool_decide (state (rt s) = Some (py "trigger_failed")) then
    _ ← on_rt (λ t, set_flags (started t) true false (exception t) t);
    mret false
  else
    _ ← on_rt (set_state "triggered");
    now ← on_rw (λ w, let '(t, w) := time w in (Ok t, w));
    _ ← wait_started start_fuel (now / 1000 + 10);
    _ ← on_rt (set_state "running");
    _ ← check fuel clean_fuel;
    mret true.
Definition run_rebalance (start_fuel fuel clean_fuel : nat) : MR bool :=
  _ ← prepare_swap;
  _ ← on_rt (set_state "add_nodes");
  _ ← add_nodes;
  follow start_fuel fuel clean_fuel.
Definition call (start_fuel fuel clean_fuel : nat) : MR bool :=
  _ ← on_rt (λ t, set_flags true (completed t) (result t) (exception t) t);
  r ← except_Exception (b ← run_rebalance start_fuel fuel clean_fuel; mret (Some b))
        (λ e, _ ← on_rt (λ t, set_flags (started t) (completed t) false (Some e) t); mret None);
  match r with
  | None | Some false => mret false
  | Some true =>
      _ ← (if serverless cf then on_rw update_bucket_servers else mret tt);
      _ ← on_rt (λ t, set_flags (started t) true true (exception t) t);
      mret true
  end.
End Task.

(** ** Proofs: the cluster object *)


Section Frame.
Context {W : Type} (I : rsys W → Prop).
Lemma minv_on_rw {A} (m : M W A) : (∀ s w, I s → I (RSys (rt s) (cl s) w)) → minv I (on_rw m).
Proof. intros H s Hs. unfold on_rw. destruct (m (rw s)). by apply H. Qed.
Lemma minv_on_rt f : (∀ s, I s → I (RSys (f (rt s)) (cl s) (rw s))) → minv I (on_rt f).
Proof. intros H. by apply minv_modify. Qed.
Lemma minv_on_cl f : (∀ s, I s → I (RSys (rt s) (f (cl s)) (rw s))) → minv I (on_cl f).
Proof. intros H. by apply minv_modify. Qed.
End Frame.

(** [solve_frame]: a step that leaves a part of the object alone. *)
Ltac solve_frame :=
  repeat lazymatch goal with
    | |- minv _ (_ ≫= _) => apply minv_bind; [|intros ?]
    | |- minv _ (match ?x with _ => _ end) => destruct x
    | |- minv _ (try_except _ _) => apply minv_try; [|intros ?]
    | |- minv _ (mraise _) => apply minv_lift
    | |- minv _ (on_rw _) => apply minv_on_rw
    | |- minv _ (on_rt _) => apply minv_on_rt
    | |- minv _ (on_cl _) => apply minv_on_cl
    | |- minv _ (mfor _ _) => apply minv_mfor; intros ?
    end; try assumption; auto with taf nocore; try (intros; cbn in *; naive_solver).

Section FrameProofs.
Context {W F : Type} `{HR : Rest W F} (cf : rconfig).

(** The cluster object and the state of the task. *)
Definition frame (c : cluster) (x : option pystr) (s : rsys W) : Prop := cl s = c ∧ state (rt s) = x.
Ltac frame := unfold frame in *; solve_frame.

Lemma prepare_swap_frame c x : minv (frame c x) (prepare_swap cf).
Proof.
  unfold prepare_swap. frame.
  - intros s Hs. cbn. by destruct (_ && _).
  - intros s Hs. cbn. by case_bool_decide.
Qed.
Lemma start_rebalance_cl c : minv (λ s, cl s = c) (start_rebalance cf).
Proof. unfold start_rebalance. frame. Qed.
Lemma wait_started_frame c x fuel n : minv (frame c x) (wait_started fuel n).
Proof. induction fuel; cbn [wait_started]; frame. Qed.
Lemma wait_cleaned_frame c x fuel n s : minv (frame c x) (wait_cleaned fuel n s).
Proof. induction fuel; cbn [wait_cleaned]; frame. Qed.
Lemma finish_frame c x fuel : minv (frame c x) (finish cf fuel).
Proof.
  assert (∀ l, minv (frame c x) (cleaned fuel l)) as H.
  { induction l; cbn [cleaned]; [frame|]. pose proof (wait_cleaned_frame c x fuel). frame. }
  unfold finish. frame.
Qed.
Lemma poll_frame c x : minv (frame c x) (poll cf).
Proof.
  unfold poll, check_shuffling. frame. intros s Hs. cbn. unfold count_progress. by repeat destruct (_ =? _).
Qed.
Lemma check_frame c x fuel clean_fuel : minv (frame c x) (check cf fuel clean_fuel).
Proof.
  pose proof (poll_frame c x). pose proof (finish_frame c x clean_fuel). induction fuel; cbn [check]; frame.
Qed.

(** [add_nodes] *)
Definition service_lists (i n : nat) : list pystr :=
  if bool_decide (services cf = []) then replicate n (service_name KV) else take n (drop i (services cf)).
Definition added (s : service) (nodes : list server) (i : nat) : list server :=
  concat (zip_with (occurrences s) nodes (service_lists i (length nodes))).

Lemma added_cons s n nodes i sv :
  (if bool_decide (services cf = []) then Ok (service_name KV) else list_get (services cf) i) = Ok sv →
  added s (n :: nodes) i = occurrences s n sv ++ added s nodes (if bool_decide (services cf = []) then i else S i).
Proof.
  unfold added, service_lists. case_bool_decide as E.
  - intros [= <-]. done.
  - unfold list_get. destruct (services cf !! i) as [x|] eqn:Hi; [|done]. intros [= ->].
    cbn [length]. by rewrite (drop_S _ _ _ Hi).
Qed.
Lemma next_zone_frame c x j : minv (frame c x) (next_zone (W := W) j).
Proof. unfold next_zone. frame. Qed.
Lemma add_each_cl nodes i j c x s u s' :
  frame c x s → add_each cf nodes i j s = (Ok u, s') →
  frame (Cluster (master c) (all_servers c) (nodes_in_cluster c ++ nodes) (nodes_of (cl s'))) x s' ∧
  ∀ sv, nodes_of (cl s') sv = nodes_of c sv ++ added sv nodes i.
Proof.
  revert i j c s. induction nodes as [|n nodes IH]; intros i j c s Hf; cbn [add_each].
  - intros [= <- <-]. destruct Hf as [<- <-]. split; [|intros; by rewrite app_nil_r]. split; [|done]. destruct (cl s); cbn. by rewrite app_nil_r.
  - intros ([zone j'] & s1 & H1 & H)%bind_inv. pose proof (next_zone_frame c x j s Hf) as Hf1. rewrite H1 in Hf1. cbn in Hf1.
    apply bind_inv in H as (sv & s2 & H2 & H).
    assert (s2 = s1 ∧ (if bool_decide (services cf = []) then Ok (service_name KV) else list_get (services cf) i) = Ok sv) as [-> Hsv].
    { destruct (bool_decide _); [by injection H2 as <- <-|]. unfold lift in H2. by injection H2 as -> ->. }
    apply bind_inv in H as (u1 & s3 & H3 & H). pose proof (minv_on_rw (frame c x) (add_node (if use_hostnames cf then hostname n else ip n) (port n) zone [sv]) ltac:(by intros ? ? [? ?]) s1 Hf1) as Hf3.
    rewrite H3 in Hf3. cbn in Hf3. rewrite (bind_Ok (on_cl _) _ _ tt _ eq_refl), (bind_Ok (on_cl _) _ _ tt _ eq_refl) in H. cbn [rt cl rw] in H.
    destruct Hf3 as [Hc Hx]. apply (IH _ _ (append_in n (append_node n sv c))) in H; [|split; cbn; congruence].
    destruct H as [H4 H5]. cbn in H4. rewrite <- app_assoc in H4. split; [exact H4|]. intros s0.
    by rewrite H5, (added_cons _ _ _ _ _ Hsv), app_assoc.
Qed.

(** [__init__] *)
Lemma servers_of_ok n l s : s ∈ servers_of cf n l → s ∈ l ∧ goes_out cf (ip s) (port s) = false.
Proof.
  induction l as [|x l IH]; cbn [servers_of]; [by intros ?%elem_of_nil|].
  assert (∀ y, y ∈ (if goes_out cf (r_ip n) (r_port n) then [] else [x]) → r_ip n = ip x → r_port n = port x →
            y ∈ x :: l ∧ goes_out cf (ip y) (port y) = false) as Hk.
  { intros y Hy E1 E2. destruct (goes_out cf (r_ip n) (r_port n)) eqn:E; [by apply elem_of_nil in Hy|].
    apply list_elem_of_singleton in Hy as ->. rewrite <- E1, <- E2. split; [by left|done]. }
  case_bool_decide as E; cbn [andb]; [destruct E as [E1 E2]|intros H; destruct (IH H); split; [by right|done]].
  destruct (member n); [|intros H; destruct (IH H); split; [by right|done]]. cbv zeta. destruct (cluster_run cf).
  - intros [H|H]%elem_of_app; [by apply Hk|]. destruct (IH H); split; [by right|done].
  - intros H. by apply Hk.
Qed.
Lemma goes_out_removed s : s ∈ to_remove cf → goes_out cf (ip s) (port s) = true.
Proof. intros H. unfold goes_out. destruct (cluster_run cf); apply bool_decide_eq_true_2, list_elem_of_fmap; eauto. Qed.

Lemma visits_run names (s s' : cluster * W) u :
  mfor names (visit_node cf) s = (Ok u, s') →
  master s'.1 = master s.1 ∧ all_servers s'.1 = all_servers s.1 ∧ nodes_in_cluster s'.1 = nodes_in_cluster s.1 ∧
  ∀ sv, nodes_of s'.1 sv =
    if bool_decide (names = []) then nodes_of s.1 sv
    else filter (λ n, goes_out cf (ip n) (port n) = false) (nodes_of s.1 sv).
Proof.
  revert s. induction names as [|x names IH]; intros s; cbn [mfor].
  - by intros [= <- <-].
  - intros (u1 & s1 & H1 & H)%bind_inv. unfold visit_node in H1. case_bool_decide; [|done]. injection H1 as <- <-.
    apply IH in H as (-> & -> & -> & H). cbn in *. split_and!; [done..|]. intros sv. rewrite H.
    case_bool_decide; [done|]. rewrite list_filter_filter. apply list_filter_iff. naive_solver.
Qed.
Lemma init_run sg num c w t c1 w1 :
  init cf sg num (c, w) = (Ok t, (c1, w1)) →
  ∃ nodes names wa wb wc, get_nodes wa = (Ok nodes, wb) ∧ node_names wb = (Ok names, wc) ∧ state t = None ∧ groups t = default [] sg ∧
    nodes_in_cluster c1 = current_servers cf nodes (all_servers c) ∧
    ∀ sv, nodes_of c1 sv =
      if bool_decide (names = []) then nodes_of c sv
      else filter (λ n, goes_out cf (ip n) (port n) = false) (nodes_of c sv).
Proof.
  unfold init. intros (u & s0 & H0 & H)%bind_inv.
  assert (s0 = (c, w)) as -> by (destruct sg; [case_bool_decide; [done|]|]; by injection H0 as _ <-).
  rewrite (bind_Ok get _ _ _ _ eq_refl) in H. apply bind_inv in H as (u1 & s1 & H1 & H).
  assert (s1.1 = c) as Hs1 by (unfold on_w in H1; cbn in H1; destruct (connect _ _); by injection H1 as _ <-).
  apply bind_inv in H as (nodes & s2 & H2 & H). unfold on_w in H2. destruct (get_nodes s1.2) as [r2 w2] eqn:E2. injection H2 as -> <-.
  rewrite (bind_Ok (modify _) _ _ tt _ eq_refl) in H. cbn [fst snd] in H.
  apply bind_inv in H as (names & s3 & H3 & H). unfold on_w in H3. cbn [fst snd] in H3.
  destruct (node_names w2) as [r3 w3] eqn:E3. injection H3 as -> <-.
  apply bind_inv in H as (u4 & s4 & H4 & H). apply visits_run in H4 as (_ & _ & Hn & Hsv). cbn in Hn, Hsv.
  apply bind_inv in H as (t5 & s5 & H5 & H). unfold on_w in H5. destruct (ns_server_tasks _ _ _) as [r5 w5]. injection H5 as -> <-.
  injection H as <- <- <-. exists nodes, names, s1.2, w2, w3. by rewrite Hn, Hs1 in *.
Qed.

(** [call]: what the cluster object is once the nodes have been added. *)
Definition bookkept (c : cluster) (s : rsys W) : Prop :=
  nodes_in_cluster (cl s) = nodes_in_cluster c ++ to_add cf ∧ ∀ sv, nodes_of (cl s) sv = nodes_of c sv ++ added sv (to_add cf) 0.
Definition not_added (s : rsys W) : Prop := state (rt s) ∈ [None; Some (py "add_nodes")].

Lemma frame_cl {A} c (m : M (rsys W) A) : (∀ x, minv (frame c x) m) → minv (λ s, cl s = c) m.
Proof. intros H s Hs. by apply (H (state (rt s)) s). Qed.
Lemma add_each_state x nodes i j : minv (λ s : rsys W, state (rt s) = x) (add_each cf nodes i j).
Proof. revert i j. induction nodes as [|n nodes IH]; intros i j; cbn [add_each]; unfold next_zone; frame. Qed.

Lemma follow_cl c a b d : minv (λ s, cl s = c) (follow cf a b d).
Proof.
  pose proof (start_rebalance_cl c). pose proof (λ n, frame_cl c _ (λ x, wait_started_frame c x a n)).
  pose proof (frame_cl c _ (λ x, check_frame c x b d)). unfold follow. frame.
Qed.
Lemma run_rebalance_cl c a b d s r s' : frame c None s → run_rebalance cf a b d s = (r, s') → not_added s' ∨ bookkept c s'.
Proof.
  intros Hf. unfold run_rebalance. pose proof (prepare_swap_frame c None s Hf) as H1. unfold mbind at 1, M_bind at 1.
  destruct (prepare_swap cf s) as [[u1|e] s1]; cbn in H1.
  2:{ intros [= _ <-]. left. unfold not_added. rewrite (proj2 H1). by left. }
  rewrite (bind_Ok (on_rt _) _ _ tt _ eq_refl). set (s2 := RSys _ _ _).
  assert (frame c (Some (py "add_nodes")) s2) as H2 by (split; [apply H1|done]). clearbody s2. clear H1.
  assert (minv (λ s : rsys W, state (rt s) = Some (py "add_nodes")) (add_nodes cf)) as Ha.
  { unfold add_nodes. pose proof (add_each_state (Some (py "add_nodes")) (to_add cf) 0 0). frame. }
  specialize (Ha s2 (proj2 H2)). unfold mbind at 1, M_bind at 1. destruct (add_nodes cf s2) as [[u3|e] s3] eqn:E3; cbn in Ha.
  2:{ intros [= _ <-]. left. unfold not_added. rewrite Ha. by right; left. }
  intros H. right. unfold add_nodes in E3. rewrite (bind_Ok get _ _ _ _ eq_refl) in E3. apply bind_inv in E3 as (v & s4 & E4 & E5).
  unfold lift in E4. injection E4 as _ <-. apply (add_each_cl _ _ _ c (Some (py "add_nodes"))) in E5 as [Hf3 Hsv]; [|done].
  pose proof (follow_cl (cl s3) a b d s3 eq_refl) as Hc. rewrite H in Hc. cbn in Hc.
  unfold bookkept. rewrite Hc. split; [|exact Hsv]. by rewrite (proj1 Hf3).
Qed.
Lemma call_cl c a b d s r s' : frame c None s → call cf a b d s = (r, s') → not_added s' ∨ bookkept c s'.
Proof.
  intros Hf. unfold call. rewrite (bind_Ok (on_rt _) _ _ tt _ eq_refl). set (s1 := RSys _ _ _).
  assert (frame c None s1) as Hf1 by done. clearbody s1. unfold except_Exception, try_except.
  destruct (run_rebalance cf a b d s1) as [[b1|e] s2] eqn:E; pose proof (run_rebalance_cl c a b d s1 _ _ Hf1 E) as H.
  - rewrite (bind_Ok _ _ _ (Some b1) s2); [|by rewrite (bind_Ok _ _ _ _ _ E)]. destruct b1; [|by intros [= _ <-]].
    assert (minv (λ s, cl s = cl s2 ∧ state (rt s) = state (rt s2))
      (_ ← (if serverless cf then on_rw update_bucket_servers else mret tt);
       _ ← on_rt (λ t, set_flags (started t) true true (exception t) t); mret true)) as Hm by solve_frame.
    intros Hr. destruct (Hm s2 (conj eq_refl eq_refl)) as [E1 E2]. rewrite Hr in E1, E2. cbn in E1, E2.
    unfold not_added, bookkept in *. by rewrite E1, E2.
  - destruct (is_Exception e) eqn:Ee.
    + rewrite (bind_Ok _ _ _ None (RSys (set_flags (started (rt s2)) (completed (rt s2)) false (Some e) (rt s2)) (cl s2) (rw s2)));
        [by intros [= _ <-]|]. by rewrite (bind_Err _ _ _ _ _ E), Ee.
    + rewrite (bind_Err _ _ _ e s2); [by intros [= _ <-]|]. by rewrite (bind_Err _ _ _ _ _ E), Ee.
Qed.
End FrameProofs.

(** ** Proofs: zones *)

Section Zones.
Context {W F : Type} `{HR : Rest W F} (cf : rconfig).

Definition zones_of (g : list (pystr * Z)) : list pystr := concat ((λ x, replicate (Z.to_nat x.2) x.1) <$> g).
Definition emptied (g : list (pystr * Z)) : list (pystr * Z) := (λ x, (x.1, 0)) <$> g.
(** A request of [add_nodes]. *)
Definition request (w : W) (x : server * pystr * pystr) : W :=
  (add_node (if use_hostnames cf then hostname x.1.1 else ip x.1.1) (port x.1.1) (Some x.1.2) [x.2] w).2.

Lemma zones_of_step (z : pystr) (k : Z) g : 0 < k →
  zones_of ((z, k) :: g) = z :: zones_of (if k - 1 =? 0 then g else (z, k - 1) :: g).
Proof.
  intros Hk. unfold zones_of. rewrite fmap_cons. cbn [concat fst snd].
  destruct (Z.to_nat k) as [|n] eqn:E; [lia|]. cbn [replicate]. rewrite <- app_comm_cons. f_equal.
  destruct (Z.eqb_spec (k - 1) 0) as [Hz|Hz].
  - by replace n with 0%nat by lia.
  - rewrite fmap_cons. cbn [concat fst snd]. by replace (Z.to_nat (k - 1)) with n by lia.
Qed.
Lemma length_zones_of g : Forall (λ x, 0 < x.2) g → Z.of_nat (length (zones_of g)) = foldr Z.add 0 g.*2.
Proof.
  induction 1 as [|[z k] g Hk Hg IH]; [done|]. unfold zones_of in *. rewrite fmap_cons. cbn [concat fmap list_fmap foldr fst snd] in *.
  rewrite length_app, length_replicate. cbn in Hk. lia.
Qed.

Lemma next_zone_run g1 z k g2 (s : rsys W) :
  groups (rt s) = emptied g1 ++ (z, k) :: g2 →
  next_zone (length g1) s =
    (Ok (Some z, if k - 1 =? 0 then S (length g1) else length g1), RSys (set_groups (emptied g1 ++ (z, k - 1) :: g2) (rt s)) (cl s) (rw s)).
Proof.
  intros Hg. unfold next_zone. rewrite (bind_Ok get _ _ _ _ eq_refl). rewrite Hg.
  destruct (emptied g1 ++ (z, k) :: g2) as [|x l] eqn:E; [by destruct (emptied g1)|]. rewrite <- E.
  assert (length (emptied g1) = length g1) as Hl by apply length_fmap.
  rewrite (bind_Ok (lift _) _ _ (z, k) s); [|unfold lift, list_get; by rewrite <- Hl, list_lookup_middle].
  cbv beta iota. rewrite (bind_Ok (on_rt _) _ _ tt _ eq_refl).
  by rewrite <- Hl, insert_app_r_alt, Nat.sub_diag by lia.
Qed.

Hypothesis Hadd : ∀ h p z sv w, (add_node h p z sv w).1 = Ok tt.

Lemma add_each_zones nodes i g1 g2 (s : rsys W) :
  groups (rt s) = emptied g1 ++ g2 → Forall (λ x, 0 < x.2) g2 → foldr Z.add 0 g2.*2 = len nodes →
  (services cf = [] ∨ (i + length nodes ≤ length (services cf))%nat) →
  ∃ s', add_each cf nodes i (length g1) s = (Ok tt, s') ∧ groups (rt s') = emptied (g1 ++ g2) ∧
    rw s' = foldl request (rw s) (zip (zip nodes (zones_of g2)) (service_lists cf i (length nodes))).
Proof.
  revert i g1 g2 s. induction nodes as [|n nodes IH]; intros i g1 g2 s Hg Hpos Hsum Hi.
  - destruct Hpos as [|[z k] g2 Hk Hpos].
    + exists s. cbn. by rewrite Hg, !app_nil_r.
    + pose proof (length_zones_of g2 Hpos). cbn in Hsum, Hk. unfold len in Hsum. cbn in Hsum. lia.
  - destruct Hpos as [|[z k] g2 Hk Hpos]; [unfold len in Hsum; cbn in Hsum; lia|]. cbn [fst snd] in Hk.
    cbn [add_each]. rewrite (bind_Ok _ _ _ _ _ (next_zone_run g1 z k g2 s Hg)). cbv beta iota.
    assert (∃ sv, (if bool_decide (services cf = []) then Ok (service_name KV) else list_get (services cf) i) = Ok sv ∧
      service_lists cf i (S (length nodes)) = sv :: service_lists cf (if bool_decide (services cf = []) then i else S i) (length nodes)) as (sv & Hsv1 & Hsv2).
    { unfold service_lists. case_bool_decide as E; [by eexists|]. destruct Hi as [?|Hi]; [done|]. cbn in Hi.
      destruct (lookup_lt_is_Some_2 (services cf) i) as [x Hx]; [lia|]. exists x. unfold list_get. rewrite Hx. by rewrite (drop_S _ _ _ Hx). }
    set (s1 := RSys _ _ _). rewrite (bind_Ok _ _ _ sv s1) by (destruct (bool_decide _); [by injection Hsv1 as <-|unfold lift; by rewrite Hsv1]).
    destruct (add_node (if use_hostnames cf then hostname n else ip n) (port n) (Some z) [sv] (rw s)) as [r w1] eqn:Ea.
    pose proof (Hadd (if use_hostnames cf then hostname n else ip n) (port n) (Some z) [sv] (rw s)) as Hr. rewrite Ea in Hr. cbn in Hr. subst r.
    rewrite (bind_Ok _ _ _ tt (RSys (rt s1) (cl s1) w1)) by (unfold on_rw; cbn [rw s1]; by rewrite Ea).
    rewrite (bind_Ok (on_cl _) _ _ tt _ eq_refl), (bind_Ok (on_cl _) _ _ tt _ eq_refl). cbn [rt cl rw]. set (s2 := RSys _ _ _).
    assert (services cf = [] ∨ ((if bool_decide (services cf = []) then i else S i) + length nodes ≤ length (services cf))%nat) as Hi'.
    { case_bool_decide; [by left|]. destruct Hi as [?|Hi]; [done|right]. cbn in Hi. lia. }
    cbn [fmap list_fmap foldr fst snd] in Hsum. unfold len in Hsum. cbn [length] in Hsum.
    assert (request (rw s) (n, z, sv) = w1) as Hw by (unfold request; cbn [fst snd]; by rewrite Ea).
    destruct (Z.eqb_spec (k - 1) 0) as [Hz|Hz].
    + destruct (IH (if bool_decide (services cf = []) then i else S i) (g1 ++ [(z, k)]) g2 s2) as (s' & H1 & H2 & H3); [|done|unfold len; lia|done|].
      { cbn. unfold emptied. rewrite fmap_app. cbn. by rewrite Hz, <- app_assoc. }
      exists s'. rewrite length_app, Nat.add_1_r in H1. split; [exact H1|]. rewrite <- app_assoc in H2. split; [exact H2|].
      rewrite H3. rewrite zones_of_step, Hz, Z.eqb_refl by done. cbn [length]. rewrite Hsv2. cbn [zip zip_with foldl]. by rewrite Hw.
    + destruct (IH (if bool_decide (services cf = []) then i else S i) g1 ((z, k - 1) :: g2) s2) as (s' & H1 & H2 & H3);
        [done|constructor; [cbn; lia|done]|cbn [fmap list_fmap foldr fst snd]; unfold len; lia|done|].
      exists s'. split; [exact H1|]. split; [rewrite H2; unfold emptied; by rewrite !fmap_app|].
      rewrite H3. rewrite (zones_of_step z k), (proj2 (Z.eqb_neq (k - 1) 0)) by done. cbn [length]. rewrite Hsv2. cbn [zip zip_with foldl]. by rewrite Hw.
Qed.
End Zones.

(** ** Proofs: following the rebalance *)

(** The answers of the cluster to a number of rounds, and how often the progress in a list of answers changes. *)
Section Answers.
Context {W F : Type} `{HR : Rest W F}.
Fixpoint answers (id : option pystr) (n : nat) (w : W) : list (option pystr * Z) :=
  match n with
  | O => []
  | S n =>
      match status_and_progress id w with
      | (Ok a, w1) => a :: answers id n (is_cluster_mixed w1).2
      | (Err _, _) => []
      end
  end.
End Answers.
Fixpoint changes (prev : Z) (l : list Z) : nat :=
  match l with
  | [] => 0
  | p :: l => if (p =? pct (-100)) || (p =? prev) then changes prev l else S (changes p l)
  end.
(** Answers that tell nothing new. *)
Definition no_news (prev : Z) (l : list (option pystr * Z)) : Prop := Forall (λ a, a.2 = pct (-100) ∨ a.2 = prev) l.
Definition terminal (a : option pystr * Z) : Prop := a.2 = pct (-1) ∨ a.1 = Some (py "none").

(** Progress that never goes back changes at most once per value. *)
Lemma changes_bounded top prev l :
  Forall (λ p, p = pct (-100) ∨ p ≤ top) l →
  StronglySorted Z.le (prev :: filter (λ p, p ≠ pct (-100)) l) → (Z.of_nat (changes prev l) ≤ Z.max 0 (top - prev)).
Proof.
  intros Hl. revert prev. induction Hl as [|p l Hp Hl IH]; intros prev Hs; cbn [changes]; [lia|].
  destruct (Z.eqb_spec p (pct (-100))) as [->|Hne]; cbn [orb].
  - apply IH. by rewrite filter_cons_False in Hs by naive_solver.
  - rewrite filter_cons_True in Hs by done. apply StronglySorted_inv in Hs as [Hs Hle]. pose proof (Forall_inv Hle) as Hle1. cbn in Hle1.
    destruct Hp as [?|Hp]; [done|]. destruct (Z.eqb_spec p prev) as [->|Hne'].
    + by apply IH.
    + specialize (IH p Hs). lia.
Qed.

Section CheckProofs.
Context {W F : Type} `{HR : Rest W F} (cf : rconfig).
Hypothesis Hpure : ∀ w : W, ∃ w', is_cluster_mixed w = (Ok false, w').

Lemma poll_Ok t c (w : W) a w1 :
  monitor_shuffling t = false → status_and_progress (prev_status_id t) w = (Ok a, w1) →
  poll cf (RSys t c w) = (Ok a, RSys (count_progress a.2 t) c (is_cluster_mixed w1).2).
Proof.
  intros Hm Ha. unfold poll. rewrite (bind_Ok _ _ _ a (RSys (count_progress a.2 t) c w1)).
  - destruct (Hpure w1) as [w2 Hw]. rewrite (bind_Ok _ _ _ false (RSys (count_progress a.2 t) c w2)); [by rewrite Hw|].
    unfold on_rw. cbn [rw]. by rewrite Hw.
  - unfold try_except, check_shuffling. rewrite (bind_Ok _ _ _ tt (RSys t c w)); [|by rewrite (bind_Ok get _ _ _ _ eq_refl); cbn [rt]; rewrite Hm].
    rewrite (bind_Ok get _ _ _ _ eq_refl). rewrite (bind_Ok _ _ _ a (RSys t c w1)); [done|]. unfold on_rw. cbn [rw rt]. by rewrite Ha.
Qed.
Lemma poll_Err t c (w : W) e w1 :
  monitor_shuffling t = false → status_and_progress (prev_status_id t) w = (Err e, w1) →
  ∃ t', poll cf (RSys t c w) = (Err e, RSys t' c w1).
Proof.
  intros Hm Ha. exists (if is_Exception e then set_result false t else t). unfold poll. apply bind_Err.
  unfold try_except, check_shuffling. rewrite (bind_Ok _ _ _ tt (RSys t c w)); [|by rewrite (bind_Ok get _ _ _ _ eq_refl); cbn [rt]; rewrite Hm].
  rewrite (bind_Ok get _ _ _ _ eq_refl). rewrite (bind_Err _ _ _ e (RSys t c w1)); [by destruct (is_Exception e)|]. unfold on_rw. cbn [rw rt]. by rewrite Ha.
Qed.

Lemma count_progress_eq p t :
  count_progress p t =
    if (p =? pct (-100)) || (p =? previous_progress t) then set_retry (retry_get_progress t + 1) (retry_get_process_num t) (previous_progress t) t
    else set_retry 0 (retry_get_process_num t) p t.
Proof.
  unfold count_progress. destruct (p =? pct (-100)); [done|]. rewrite (Z.eqb_sym (previous_progress t) p). by destruct (p =? previous_progress t).
Qed.

(** How [check] ends, after [n] rounds with the answers [l]; the last [r] of an earlier list of answers [h] told nothing new. *)
Definition outcome (clean_fuel : nat) (id : option pystr) (num : Z) (h l : list (option pystr * Z)) (res : res unit * rsys W) : Prop :=
  (∃ a s', last l = Some a ∧ terminal a ∧ res = finish cf clean_fuel s') ∨
  (∃ s' l1 l2, res = (raise RebalanceFailed, s') ∧ result (rt s') = false ∧ h ++ l = l1 ++ l2 ∧ num ≤ len l2 ∧
     no_news (previous_progress (rt s')) l2) ∨
  (∃ e s' w1, res = (Err e, s') ∧ (status_and_progress id w1).1 = Err e).

Lemma check_run fuel clean_fuel K t c (w : W) h1 h2 :
  let num := retry_get_process_num t in let id := prev_status_id t in
  monitor_shuffling t = false → 0 ≤ num → retry_get_progress t = len h2 → no_news (previous_progress t) h2 →
  (∀ n, (changes (previous_progress t) (answers id n w).*2 ≤ K)%nat) →
  Z.max 0 (num - retry_get_progress t) + Z.of_nat K * (num + 1) < Z.of_nat fuel →
  ∃ n, (n ≤ fuel)%nat ∧ outcome clean_fuel id num (h1 ++ h2) (answers id n w) (check cf fuel clean_fuel (RSys t c w)).
Proof.
  revert K t w h1 h2. induction fuel as [|fuel IH]; intros K t w h1 h2 num id Hm Hnum Hr Hnews Hch Hf; [lia|].
  cbn [check]. destruct (status_and_progress id w) as [[a|e] w1] eqn:Ea.
  2:{ destruct (poll_Err t c w e w1 Hm Ea) as [t' Hp]. exists 0%nat. split; [lia|]. right; right. exists e, (RSys t' c w1), w.
      split; [by rewrite (bind_Err _ _ _ _ _ Hp)|by rewrite Ea]. }
  rewrite (bind_Ok _ _ _ _ _ (poll_Ok t c w a w1 Hm Ea)). destruct a as [st p]. cbv beta iota. cbn [snd].
  set (w2 := (is_cluster_mixed w1).2).
  assert (∀ n, answers id (S n) w = (st, p) :: answers id n w2) as Hans by (intros n; cbn [answers]; by rewrite Ea).
  destruct (negb (p =? pct (-1)) && bool_decide (st ≠ Some (py "none"))) eqn:Et.
  2:{ exists 1%nat. split; [lia|]. left. rewrite Hans. exists (st, p). eexists. split; [done|]. split; [|done].
      apply andb_false_iff in Et as [Et|Et]; [left; cbn; apply negb_false_iff in Et; lia|right; cbn].
      apply bool_decide_eq_false in Et. by apply dec_stable. }
  rewrite (bind_Ok get _ _ _ _ eq_refl). cbn [rt]. set (t1 := count_progress p t).
  assert (monitor_shuffling t1 = false ∧ prev_status_id t1 = id ∧ retry_get_process_num t1 = num) as (Hm1 & Hid1 & Hnum1).
  { unfold t1. rewrite count_progress_eq. by destruct (_ || _). }
  assert (∃ h1' h2' K', h1 ++ h2 ++ [(st, p)] = h1' ++ h2' ∧ retry_get_progress t1 = len h2' ∧ no_news (previous_progress t1) h2' ∧
     (∀ n, (changes (previous_progress t1) (answers id n w2).*2 ≤ K')%nat) ∧
     (retry_get_progress t1 < num → Z.max 0 (num - retry_get_progress t1) + Z.of_nat K' * (num + 1) < Z.of_nat fuel))
    as (h1' & h2' & K' & Hh & Hr' & Hnews' & Hch' & Hf').
  { assert (∀ n, (changes (previous_progress t) (p :: (answers id n w2).*2) ≤ K)%nat) as Hch2 by (intros n; specialize (Hch (S n)); by rewrite Hans in Hch).
    unfold t1. rewrite count_progress_eq. cbn [changes] in Hch2. destruct ((p =? pct (-100)) || (p =? previous_progress t)) eqn:Ec.
    - exists h1, (h2 ++ [(st, p)]), K. split; [done|]. cbn. unfold len in *. rewrite length_app. cbn.
      split; [lia|]. split; [|split; [done|lia]]. apply Forall_app. split; [done|]. apply Forall_singleton. cbn.
      apply orb_true_iff in Ec as [E|E]; [left|right]; lia.
    - destruct K as [|K]; [specialize (Hch2 0%nat); cbn in Hch2; lia|].
      exists (h1 ++ h2 ++ [(st, p)]), [], K. split; [by rewrite app_nil_r|]. cbn. split; [done|]. split; [by constructor|].
      split; [intros n; specialize (Hch2 n); lia|]. nia. }
  destruct (Z.ltb_spec (retry_get_progress t1) (retry_get_process_num t1)) as [Hlt|Hge].
  - destruct (IH K' t1 w2 h1' h2' Hm1 ltac:(by rewrite Hnum1) Hr' Hnews') as (n & Hn & Ho).
    { by rewrite Hid1. }
    { rewrite Hnum1 in *. by apply Hf'. }
    rewrite Hid1, Hnum1 in Ho. exists (S n). split; [lia|]. rewrite Hans.
    destruct Ho as [(a & s' & Hl & Ht & He)|[(s' & l1 & l2 & He & Hres & Hl & Hlen & Hnn)|(e & s' & w3 & He & Hw)]].
    + left. exists a, s'. split; [|done]. by rewrite last_cons, Hl.
    + right; left. exists s', l1, l2. split_and!; [done|done| |done|done]. by rewrite <- Hl, <- Hh, <- !app_assoc.
    + right; right. by exists e, s', w3.
  - exists 1%nat. split; [lia|]. right; left. rewrite Hans. exists (RSys (set_result false t1) c w2), h1', h2'.
    split_and!; [done|done|by rewrite <- app_assoc|lia|exact Hnews'].
Qed.
End CheckProofs.

(** What the last part of [check] relies on: reading the clock changes nothing, a request takes time, and a node answers or is unavailable. *)
Class RestLaws (W F : Type) `{HR : Rest W F} := {
  time_pure (w : W) : (time w).2 = w;
  pools_ends (s : server) (w : W) : ∃ r w', pools s w = (r, w') ∧ (time w).1 < (time w').1 ∧
    ((∃ n, r = Ok (Some n)) ∨ ∃ e, r = Err e ∧ exn_cls e ∈ [ServerUnavailable; IncompleteRead]);
  connect_ends (s : server) (w : W) : ∃ r w', connect s w = (r, w') ∧ (r = Ok tt ∨ ∃ e, r = Err e ∧ exn_cls e = ServerUnavailable)
}.

Section FinishProofs.
Context {W F : Type} `{HL : RestLaws W F} (cf : rconfig).

Lemma read_clock (t : rtask) c (w : W) :
  on_rw (λ w : W, let '(t, w0) := time w in (Ok t, w0)) (RSys t c w) = (Ok (time w).1, RSys t c w).
Proof. unfold on_rw. cbn [rw rt cl]. pose proof (time_pure w) as H. destruct (time w). cbn in *. by rewrite H. Qed.

(** One request for the pools of a node, or two. *)
Lemma ask_pools t c (w : W) s : ∃ b w', (time w).1 < (time w').1 ∧
  try_except
    (n ← on_rw (pools s);
     match n with
     | None => mret false
     | Some _ => n ← on_rw (pools s); n ← lift (of_option KeyError n); mret (bool_decide (n = 0))
     end)
    (λ e, if bool_decide (exn_cls e ∈ [ServerUnavailable; IncompleteRead]) then mret false else lift (Err e)) (RSys t c w)
  = (Ok b, RSys t c w').
Proof.
  destruct (pools_ends s w) as (r & w1 & Hp & Hlt & Hr).
  assert (∀ (w : W) r w1, pools s w = (r, w1) → on_rw (pools s) (RSys t c w) = (r, RSys t c w1)) as Hon.
  { intros w0 r0 w0' H0. unfold on_rw. cbn [rw]. by rewrite H0. }
  unfold try_except. destruct Hr as [[n ->]|(e & -> & He)].
  2:{ exists false, w1. split; [done|]. rewrite (bind_Err _ _ _ e _ (Hon _ _ _ Hp)). by rewrite bool_decide_eq_true_2. }
  rewrite (bind_Ok _ _ _ _ _ (Hon _ _ _ Hp)). destruct (pools_ends s w1) as (r & w2 & Hp2 & Hlt2 & Hr).
  destruct Hr as [[m ->]|(e & -> & He)].
  - exists (bool_decide (m = 0)), w2. split; [lia|]. by rewrite (bind_Ok _ _ _ _ _ (Hon _ _ _ Hp2)).
  - exists false, w2. split; [lia|]. rewrite (bind_Err _ _ _ e _ (Hon _ _ _ Hp2)). by rewrite bool_decide_eq_true_2.
Qed.
Lemma wait_cleaned_ends fuel start t c (w : W) s :
  start + 30000 - (time w).1 ≤ Z.of_nat fuel → ∃ b w', wait_cleaned fuel start s (RSys t c w) = (Ok b, RSys t c w').
Proof.
  revert w. induction fuel as [|fuel IH]; intros w Hf; cbn [wait_cleaned]; rewrite (bind_Ok _ _ _ _ _ (read_clock t c w)).
  - rewrite (proj2 (Z.ltb_ge _ _)) by lia. eauto.
  - destruct (Z.ltb_spec ((time w).1 - start) 30000); [|eauto].
    destruct (ask_pools t c w s) as (b & w1 & Hlt & Ha). rewrite (bind_Ok _ _ _ _ _ Ha). destruct b; [eauto|]. apply IH. lia.
Qed.
Lemma cleaned_ends fuel l t c (w : W) : 30000 ≤ Z.of_nat fuel → ∃ l' w', cleaned fuel l (RSys t c w) = (Ok l', RSys t c w').
Proof.
  intros Hf. revert w. induction l as [|s l IH]; intros w; cbn [cleaned]; [eauto|].
  destruct (connect_ends s w) as (r & w1 & Hc & Hr).
  assert (∃ up, try_except (_ ← on_rw (connect s); mret true)
    (λ e, if bool_decide (exn_cls e = ServerUnavailable) then mret false else lift (Err e)) (RSys t c w) = (Ok up, RSys t c w1)) as [up Hup].
  { unfold try_except. destruct Hr as [->|(e & -> & He)].
    - exists true. rewrite (bind_Ok _ _ _ tt (RSys t c w1)); [done|]. unfold on_rw. cbn [rw]. by rewrite Hc.
    - exists false. rewrite (bind_Err _ _ _ e (RSys t c w1)); [by rewrite bool_decide_eq_true_2|]. unfold on_rw. cbn [rw]. by rewrite Hc. }
  rewrite (bind_Ok _ _ _ _ _ Hup).
  assert (∃ b w2, (if up then start ← on_rw (λ w : W, let '(t, w0) := time w in (Ok t, w0)); wait_cleaned fuel start s else mret false) (RSys t c w1)
     = (Ok b, RSys t c w2)) as (b & w2 & Hb).
  { destruct up; [|eauto]. rewrite (bind_Ok _ _ _ _ _ (read_clock t c w1)). apply wait_cleaned_ends. lia. }
  rewrite (bind_Ok _ _ _ _ _ Hb). destruct (IH w2) as (l' & w3 & Hl). rewrite (bind_Ok _ _ _ _ _ Hl). eauto.
Qed.
Lemma finish_ends fuel t c (w : W) : 30000 ≤ Z.of_nat fuel → ∃ w', finish cf fuel (RSys t c w) = (Ok tt, RSys (set_result true t) c w').
Proof.
  intros Hf. destruct (cleaned_ends fuel (to_remove cf) t c w Hf) as (l & w' & Hl). exists w'. unfold finish.
  rewrite (bind_Ok _ _ _ _ _ Hl). by case_bool_decide.
Qed.
End FinishProofs.

Section OtherProofs.
Context {W F : Type} `{HR : Rest W F} (cf : rconfig).

(** In a cluster of mixed versions the limit doubles in every round. *)
Lemma check_mixed fuel clean_fuel t c (w : W) p :
  monitor_shuffling t = false → p ≠ pct (-1) → 0 < retry_get_process_num t → 0 ≤ retry_get_progress t < retry_get_process_num t →
  (∀ w : W, ∃ w', status_and_progress (prev_status_id t) w = (Ok (Some (py "running"), p), w')) →
  (∀ w : W, ∃ w', is_cluster_mixed w = (Ok true, w')) →
  (check cf fuel clean_fuel (RSys t c w)).1 = raise Blocked.
Proof.
  intros Hm Hp Hnum Hr Hs Hmix. revert t w Hm Hnum Hr Hs. induction fuel as [|fuel IH]; intros t w Hm Hnum Hr Hs; [done|]. cbn [check].
  destruct (Hs w) as [w1 H1]. destruct (Hmix w1) as [w2 H2]. set (t1 := count_progress p t).
  set (t2 := set_retry (retry_get_progress t1) (retry_get_process_num t1 * 2) (previous_progress t1) t1).
  assert (poll cf (RSys t c w) = (Ok (Some (py "running"), p), RSys t2 c w2)) as Hpoll.
  { unfold poll. rewrite (bind_Ok _ _ _ (Some (py "running"), p) (RSys t1 c w1)).
    - rewrite (bind_Ok _ _ _ true (RSys t1 c w2)); [done|]. unfold on_rw. cbn [rw]. by rewrite H2.
    - unfold try_except, check_shuffling. rewrite (bind_Ok _ _ _ tt (RSys t c w)); [|by rewrite (bind_Ok get _ _ _ _ eq_refl); cbn [rt]; rewrite Hm].
      rewrite (bind_Ok get _ _ _ _ eq_refl). rewrite (bind_Ok _ _ _ (Some (py "running"), p) (RSys t c w1)); [done|]. unfold on_rw. cbn [rw rt]. by rewrite H1. }
  rewrite (bind_Ok _ _ _ _ _ Hpoll). cbv beta iota. rewrite (proj2 (Z.eqb_neq _ _) Hp). rewrite bool_decide_eq_true_2 by done. cbn [negb andb].
  rewrite (bind_Ok get _ _ _ _ eq_refl). cbn [rt].
  assert (monitor_shuffling t2 = false ∧ prev_status_id t2 = prev_status_id t ∧ retry_get_process_num t2 = retry_get_process_num t * 2 ∧
    0 ≤ retry_get_progress t2 ≤ retry_get_progress t + 1) as (E1 & E2 & E3 & E4).
  { unfold t2, t1. rewrite count_progress_eq. destruct (_ || _); cbn; split_and!; (done || lia). }
  rewrite (proj2 (Z.ltb_lt _ _)) by lia. apply IH; [done|lia|lia|]. by rewrite E2.
Qed.

(** [monitorRebalance] *)
Definition monitored (p r : Z) (w : W) : Prop :=
  (p = pct 100 → ∃ st w1, status_and_progress None w1 = (Ok (st, p), w)) ∧ (20 ≤ r → p < 0).
Lemma monitor_true fuel b p r sm pv (w w' : W) :
  monitored p r w → monitor_loop fuel b p r sm pv w = (Ok true, w') →
  ∃ st st' w1 w2, status_and_progress None w1 = (Ok (st, pct 100), w2) ∧ progress_status true w2 = (Ok st', w') ∧ st' ≠ Some (py "running").
Proof.
  revert p r sm pv w. induction fuel as [|fuel IH]; intros p r sm pv w [Hp Hr]; cbn [monitor_loop]; intros (go & w1 & Hk & H)%bind_inv.
  all: assert (go = false → w1 = w' ∧ 0 ≤ p → ∃ st st' w1 w2, status_and_progress None w1 = (Ok (st, pct 100), w2) ∧
         progress_status true w2 = (Ok st', w') ∧ st' ≠ Some (py "running")) as Hexit.
  1,3: intros -> [-> Hp0]; unfold keep_monitoring in Hk; destruct (Z.eqb_spec p (pct (-1))); [unfold pct in *; lia|];
       apply bind_inv in Hk as (again & w2 & Hag & Hk); injection Hk as Hk <-;
       destruct (Z.eqb_spec p (pct 100)) as [->|];
       [|injection Hag as <- <-; cbn in Hk; apply Z.ltb_ge in Hk; lia];
       apply bind_inv in Hag as (st' & w3 & Hst & Hag); injection Hag as Hag <-; destruct (Hp eq_refl) as (st & w4 & Hsp);
       exists st, st', w4, w; split_and!; [done|done|]; intros ->; rewrite bool_decide_eq_true_2 in Hag by done; subst again;
       cbn in Hk; apply Z.ltb_ge in Hk; unfold pct in *; lia.
  - destruct go; [done|]. injection H as H <-. apply Hexit; [done|]. split; [done|lia].
  - destruct go; [|injection H as H <-; apply Hexit; [done|]; split; [done|lia]]. clear Hexit Hk.
    apply bind_inv in H as ([st p'] & w2 & Hsp & H). cbn [snd] in H.
    assert (monitored p' (if p' =? pct (-100) then r + 1 else 0) w2) as Hmon.
    { split; [intros _; eauto|]. destruct (Z.eqb_spec p' (pct (-100))) as [->|]; [done|lia]. }
    destruct b; [|by eapply IH]. destruct (500 <? _); [done|]. by eapply IH.
Qed.
Lemma monitor_stuck fuel b sm (w : W) :
  (∀ w : W, ∃ w', status_and_progress None w = (Ok (Some (py "running"), 0), w')) →
  sm = 0 → (monitor_loop fuel b 0 0 sm 0 w).1 = raise Blocked.
Proof.
  intros H ->. revert w. induction fuel as [|fuel IH]; intros w; cbn [monitor_loop].
  - by rewrite (bind_Ok _ _ _ true w eq_refl).
  - rewrite (bind_Ok _ _ _ true w eq_refl). destruct (H w) as [w1 Hw]. rewrite (bind_Ok _ _ _ _ _ Hw). cbn [snd]. destruct b; apply IH.
Qed.

(** [_get_vbuckets] *)
Fixpoint at_position (j : nat) (P : Z → bool) (vb : Z) (rows : list (list Z)) : list Z :=
  match rows with
  | [] => []
  | row :: rows => (match row !! j with Some i => if P i then [vb] else [] | None => [] end) ++ at_position j P (vb + 1) rows
  end.
Definition hit (P : Z → bool) (vb : Z) (x : option Z) : list Z := match x with Some i => if P i then [vb] else [] | None => [] end.

Lemma vb_row_other vb targets row (m : vbmap) k : k ∉ sv_id <$> targets → vb_row vb targets row m !! k = m !! k.
Proof.
  revert row m. induction targets as [|s targets IH]; intros [|i row] m Hk; try done. cbn [vb_row].
  rewrite fmap_cons in Hk. apply not_elem_of_cons in Hk as [Hk1 Hk2]. rewrite IH by done.
  unfold add_vb. destruct (i =? 0); [by rewrite lookup_alter_ne|]. destruct (0 <? i); [by rewrite lookup_alter_ne|done].
Qed.
Lemma vb_row_lookup vb targets row (m : vbmap) j s :
  NoDup (sv_id <$> targets) → targets !! j = Some s →
  vb_row vb targets row m !! sv_id s =
    (λ p, (p.1 ++ hit (λ i, i =? 0) vb (row !! j), p.2 ++ hit (λ i, 0 <? i) vb (row !! j))) <$> m !! sv_id s.
Proof.
  revert row m j. induction targets as [|x targets IH]; intros row m j Hnd Hj; [done|].
  rewrite fmap_cons in Hnd. apply NoDup_cons in Hnd as [Hx Hnd]. destruct row as [|i row].
  { cbn. destruct (m !! sv_id s) as [[a b]|]; [|done]. cbn. by rewrite !app_nil_r. }
  cbn [vb_row]. destruct j as [|j].
  - injection Hj as ->. rewrite vb_row_other by done. cbn. unfold add_vb. destruct (m !! sv_id s) as [[a b]|] eqn:E.
    + destruct (Z.eqb_spec i 0) as [->|]; [rewrite lookup_alter_eq, E; cbn; by rewrite app_nil_r|].
      destruct (Z.ltb_spec 0 i); [rewrite lookup_alter_eq, E; cbn; by rewrite app_nil_r|]. rewrite E. cbn. by rewrite !app_nil_r.
    + destruct (i =? 0); [by rewrite lookup_alter_eq, E|]. destruct (0 <? i); [by rewrite lookup_alter_eq, E|by rewrite E].
  - cbn in Hj. rewrite (IH row _ j Hnd Hj). cbn. unfold add_vb.
    assert (sv_id x ≠ sv_id s) as Hne by (intros Heq; apply Hx; rewrite Heq; apply list_elem_of_fmap; exists s; split; [done|by eapply list_elem_of_lookup_2]).
    destruct (i =? 0); [by rewrite lookup_alter_ne|]. destruct (0 <? i); [by rewrite lookup_alter_ne|done].
Qed.
Lemma vb_rows_lookup vb targets rows (m : vbmap) j s :
  NoDup (sv_id <$> targets) → targets !! j = Some s →
  vb_rows vb targets rows m !! sv_id s =
    (λ p, (p.1 ++ at_position j (λ i, i =? 0) vb rows, p.2 ++ at_position j (λ i, 0 <? i) vb rows)) <$> m !! sv_id s.
Proof.
  intros Hnd Hj. revert vb m. induction rows as [|row rows IH]; intros vb m; cbn [vb_rows at_position].
  - destruct (m !! sv_id s) as [[a b]|]; [|done]. cbn. by rewrite !app_nil_r.
  - rewrite IH, (vb_row_lookup vb targets row m j s Hnd Hj). destruct (m !! sv_id s) as [[a b]|]; [|done]. cbn. by rewrite <- !app_assoc.
Qed.
Lemma at_position_short j P vb rows : Forall (λ row, (length row ≤ j)%nat) rows → at_position j P vb rows = [].
Proof. intros H. revert vb. induction H as [|row rows Hr _ IH]; intros vb; [done|]. cbn. by rewrite lookup_ge_None_2, IH. Qed.
End OtherProofs.

(** ** Properties *)

Lemma run_rebalance_true {W F} `{HR : Rest W F} cf a b d (s s' : rsys W) :
  run_rebalance cf a b d s = (Ok true, s') → state (rt s') = Some (py "running").
Proof.
  unfold run_rebalance, follow. intros (u1 & s1 & _ & H)%bind_inv. do 4 apply bind_inv in H as (? & ? & _ & H).
  rewrite (bind_Ok get _ _ _ _ eq_refl) in H. case_bool_decide; [by rewrite (bind_Ok (on_rt _) _ _ tt _ eq_refl) in H|].
  apply bind_inv in H as (u6 & s6 & _ & H). apply bind_inv in H as (now & s7 & _ & H). apply bind_inv in H as (u7 & s8 & _ & H).
  rewrite (bind_Ok (on_rt _) _ _ tt _ eq_refl) in H. set (s9 := RSys _ _ _) in H.
  apply bind_inv in H as (u10 & s10 & Hc & H). injection H as <-. pose proof (check_frame cf (cl s9) (Some (py "running")) b d s9 (conj eq_refl eq_refl)) as [_ Hx].
  rewrite Hc in Hx. exact Hx.
Qed.
Lemma call_true {W F} `{HR : Rest W F} cf a b d (s s' : rsys W) :
  call cf a b d s = (Ok true, s') → state (rt s') = Some (py "running") ∧ result (rt s') = true ∧ completed (rt s') = true.
Proof.
  unfold call. rewrite (bind_Ok (on_rt _) _ _ tt _ eq_refl). set (s1 := RSys _ _ _). intros (r & s2 & Hr & H)%bind_inv.
  unfold except_Exception, try_except in Hr. destruct (run_rebalance cf a b d s1) as [[b1|e] s3] eqn:E.
  - rewrite (bind_Ok _ _ _ _ _ E) in Hr. injection Hr as <- <-. destruct b1; [|done].
    apply bind_inv in H as (u & s4 & H4 & H). rewrite (bind_Ok (on_rt _) _ _ tt _ eq_refl) in H. injection H as <-. cbn. split_and!; [|done|done].
    assert (rt s4 = rt s3) as ->; [|by eapply run_rebalance_true].
    destruct (serverless cf); [|by injection H4 as _ <-]. unfold on_rw in H4. destruct (update_bucket_servers _). by injection H4 as _ <-.
  - rewrite (bind_Err _ _ _ _ _ E) in Hr. destruct (is_Exception e); [|done].
    rewrite (bind_Ok (on_rt _) _ _ tt _ eq_refl) in Hr. by injection Hr as <- <-.
Qed.


(** Zones.  If every zone is to get at least one node, as many nodes as asked for are added to every zone, zone after zone and each with its services, whatever the cluster
    answers otherwise.  The counts are those of the caller's dictionary, and they are all zero afterwards: another rebalance with the same dictionary is refused. *)
Theorem zones_filled {W F} `{HR : Rest W F} cf g (s : rsys W) :
  (∀ h p z sv (w : W), (add_node h p z sv w).1 = Ok tt) →
  groups (rt s) = g → Forall (λ x, 0 < x.2) g → foldr Z.add 0 g.*2 = len (to_add cf) → nodes_in_cluster (cl s) ≠ [] →
  services cf = [] ∨ (length (to_add cf) ≤ length (services cf))%nat →
  ∃ s', add_nodes cf s = (Ok tt, s') ∧
    rw s' = foldl (request cf) (rw s) (zip (zip (to_add cf) (zones_of g)) (service_lists cf 0 (length (to_add cf)))) ∧
    len (zones_of g) = len (to_add cf) ∧ groups (rt s') = emptied g ∧
    (to_add cf ≠ [] → ∀ num cw, (init cf (Some (groups (rt s'))) num cw).1 = raise GenericException).
Proof.
  intros Hadd Hg Hpos Hsum Hne Hsv. destruct (add_each_zones cf Hadd (to_add cf) 0 [] g s) as (s' & H1 & H2 & H3); [done|done|done|by destruct Hsv; auto|].
  exists s'. change (emptied ([] ++ g)) with (emptied g) in H2. split_and!; [|done|unfold len; rewrite length_zones_of, Hsum; done|done|].
  - unfold add_nodes. rewrite (bind_Ok get _ _ _ _ eq_refl). destruct (nodes_in_cluster (cl s)) as [|m l] eqn:E; [done|].
    by rewrite (bind_Ok (lift _) _ _ m s eq_refl).
  - intros Hta num cw. rewrite H2. unfold init. erewrite bind_Err; [reflexivity|]. rewrite bool_decide_eq_true_2; [done|].
    assert (foldr Z.add 0 (emptied g).*2 = 0) as ->; [|unfold len; destruct (to_add cf); [done|cbn; lia]].
    clear. unfold emptied. induction g as [|x g IH]; [done|]. rewrite !fmap_cons. cbn [foldr snd]. rewrite IH. done.
Qed.



(** [monitorRebalance] returns true only if the last progress was 100 percent and the cluster then said that no rebalance is running, or nothing at
    all; and it never returns as long as the progress stays at 0. *)
Theorem monitor_rebalance {W F} `{HR : Rest W F} fuel b (w w' : W) :
  (monitorRebalance fuel b w = (Ok true, w') →
     ∃ st st' w1 w2, status_and_progress None w1 = (Ok (st, pct 100), w2) ∧ progress_status true w2 = (Ok st', w') ∧ st' ≠ Some (py "running")) ∧
  ((∀ w : W, ∃ w', status_and_progress None w = (Ok (Some (py "running"), 0), w')) → (monitorRebalance fuel b w).1 = raise Blocked).
Proof.
  split.
  - apply monitor_true. split; [done|lia].
  - intros H. by apply monitor_stuck.
Qed.

(** What the shuffling check looks at.  For the server that is the j-th of the server list, the "active" vbuckets are those whose row has a 0 in the j-th place, and the "replica" ones those
    with a positive number there; so the servers after the first (number of replicas + 1) have none, wherever the vbuckets are. *)
Theorem vbuckets_by_position {W F} `{HR : Rest W F} via servers (w w' : W) server_list rows :
  server_map via w = (Ok (server_list, rows), w') →
  let targets := target_servers servers server_list in
  NoDup (sv_id <$> targets) →
  ∃ m, get_vbuckets via servers w = (Ok m, w') ∧ ∀ j s, targets !! j = Some s →
    m !! sv_id s = Some (at_position j (λ i, i =? 0) 0 rows, at_position j (λ i, 0 <? i) 0 rows) ∧
    (Forall (λ row, (length row ≤ j)%nat) rows → m !! sv_id s = Some ([], [])).
Proof.
  intros Hm targets Hnd. unfold get_vbuckets. rewrite (bind_Ok _ _ _ _ _ Hm). fold targets. eexists. split; [reflexivity|].
  intros j s Hj. assert (s ∈ servers) as Hs.
  { apply list_elem_of_lookup_2 in Hj. unfold targets, target_servers in Hj. apply list_elem_of_In, in_concat in Hj as (l & Hl & Hsl).
    apply list_elem_of_In in Hl, Hsl. apply list_elem_of_fmap in Hl as (x & -> & _). by apply list_elem_of_filter in Hsl as [_ ?]. }
  assert ((list_to_map ((λ s, (sv_id s, ([], []))) <$> servers) : vbmap) !! sv_id s = Some ([], [])) as H0.
  { destruct ((list_to_map ((λ s, (sv_id s, ([], []))) <$> servers) : vbmap) !! sv_id s) as [p|] eqn:E.
    - apply elem_of_list_to_map_2, list_elem_of_fmap in E as (x & [= _ ->] & _). done.
    - apply not_elem_of_list_to_map_2 in E. destruct E. rewrite <- list_fmap_compose. apply list_elem_of_fmap. by exists s. }
  rewrite (vb_rows_lookup 0 targets rows _ j s Hnd Hj), H0. split; [done|]. intros Hrows. cbn. by rewrite !at_position_short.
Qed.

(** ** Examples *)

(** A cluster whose state is its clock: each request takes a tick, and a rebalance runs until the third. *)
Definition demo_node (n : nat) (i : string) : server := Server n (py i) (py i) (py "8091").
Definition node_a := demo_node 0 "10.0.0.1".
Definition node_b := demo_node 1 "10.0.0.2".
Definition node_c := demo_node 2 "10.0.0.3".
Definition demo_task (w : Z) : ctask Z :=
  CTask (Some (py "rebalance")) (Some (py "rebalance")) (Some (if w <? 3 then py "running" else py "notRunning")) false
    (Some (if w <? 0 then py "0" else py "1")) (Some (w * 1000)).
#[local] Instance demo_rest : Rest Z Z := {|
  time w := (w, w);
  round2 x := x;
  connect _ w := (Ok tt, w);
  get_tasks w := (Ok (true, [demo_task w]), w + 1);
  get_nodes w := (Ok [RNode (ip node_a) (port node_a) (py "active"); RNode (ip node_b) (port node_b) (py "active")], w);
  node_statuses w := (Ok [Otp (py "ns_1@10.0.0.1") (ip node_a) 8091; Otp (py "ns_1@10.0.0.2") (ip node_b) 8091], w);
  node_names w := (Ok [py "10.0.0.1:8091"; py "10.0.0.2:8091"], w);
  add_node _ _ _ _ w := (Ok tt, w + 1);
  post_rebalance _ w := (Ok (true, []), w + 1);
  is_cluster_mixed w := (Ok false, w);
  check_node_versions w := (Ok true, w);
  get_nodes_services w := (Ok {[py "10.0.0.2:8091" := [py "kv"]]}, w);
  pools _ w := (Ok (Some 0), w + 1);
  server_map _ w := (Ok ([py "10.0.0.1:11210"; py "10.0.0.2:11210"; py "10.0.0.3:11210"], [[0; 1]; [1; 2]; [2; 0]]), w);
  update_bucket_servers w := (Ok tt, w)
|}.
#[local] Instance demo_rest_laws : RestLaws Z Z.
Proof.
  split; [done| |].
  - intros s w. exists (Ok (Some 0)), (w + 1). split; [done|]. split; [cbn; lia|]. left. by exists 0.
  - intros s w. exists (Ok tt), w. split; [done|]. by left.
Qed.
Definition demo_rconfig : rconfig := RConfig [node_c] [node_b] false [py "kv,n1ql"] false false false (py "u") (py "p") None.
Definition demo_cluster : cluster :=
  Cluster node_a [node_a; node_b; node_c] [node_a; node_b] (λ s, if bool_decide (s = KV) then [node_a; node_b] else []).
Definition demo_rtask (g : list (pystr * Z)) (i : option pystr) : rtask :=
  RTask false false false None None false ∅ 0 25 0 i g [].


Lemma zones_filled_witness :
  ∃ s', add_nodes demo_rconfig (RSys (demo_rtask [(py "AZ_1", 1)] None) demo_cluster 0) = (Ok tt, s') ∧ groups (rt s') = [(py "AZ_1", 0)].
Proof.
  destruct (zones_filled demo_rconfig [(py "AZ_1", 1)] (RSys (demo_rtask [(py "AZ_1", 1)] None) demo_cluster 0)
              ltac:(done) eq_refl ltac:(repeat constructor) eq_refl ltac:(done) ltac:(right; cbn; lia)) as (s' & H1 & _ & _ & H2 & _).
  exists s'. exact (conj H1 H2).
Defined.

Lemma demo_done i n w : 3 ≤ w → changes (pct 100) (answers i n w).*2 = 0%nat.
Proof.
  revert w. induction n as [|n IH]; intros w Hw; [done|]. cbn [answers].
  assert (status_and_progress i w = (Ok (Some (py "none"), pct 100), w + 2)) as ->.
  { replace (w + 2) with (w + 1 + 1) by lia. unfold status_and_progress. rewrite (bind_Ok _ _ _ (Some (true, [demo_task w])) (w + 1)) by done.
    unfold demo_task at 1. by rewrite (proj2 (Z.ltb_ge w 3)). }
  cbn [is_cluster_mixed demo_rest snd]. rewrite fmap_cons. cbn [changes snd]. rewrite Z.eqb_refl, orb_true_r. apply IH. lia.
Qed.
Lemma demo_changes n : (changes 0 (answers (W := Z) (Some (py "1")) n 0%Z).*2 ≤ 4)%nat.
Proof.
  do 3 (destruct n as [|n]; [vm_compute; lia|]).
  destruct n as [|n]; [vm_compute; lia|].
  change (changes 0 (answers (W := Z) (Some (py "1")) (S (S (S (S n)))) 0%Z).*2) with (S (S (S (changes (pct 100) (answers (W := Z) (Some (py "1")) n 5%Z).*2)))).
  rewrite demo_done by lia. lia.
Qed.

(** A cluster of mixed versions whose rebalance hangs. *)
Definition demo_hung : Rest Z Z := {|
  time w := (w, w);
  round2 x := x;
  connect _ w := (Ok tt, w);
  get_tasks w := (Ok (true, [demo_task 2]), w + 1);
  get_nodes w := (Ok [], w);
  node_statuses w := (Ok [], w);
  node_names w := (Ok [], w);
  add_node _ _ _ _ w := (Ok tt, w);
  post_rebalance _ w := (Ok (true, []), w);
  is_cluster_mixed w := (Ok true, w);
  check_node_versions w := (Ok true, w);
  get_nodes_services w := (Ok ∅, w);
  pools _ w := (Ok (Some 0), w);
  server_map _ w := (Ok ([], []), w);
  update_bucket_servers w := (Ok tt, w)
|}.

Lemma vbuckets_by_position_witness :
  ∃ m, get_vbuckets node_a [node_a; node_b; node_c] 0 = (Ok m, 0) ∧ m !! 2%nat = Some ([], []).
Proof.
  destruct (vbuckets_by_position (HR := demo_rest) node_a [node_a; node_b; node_c] 0 0 [py "10.0.0.1:11210"; py "10.0.0.2:11210"; py "10.0.0.3:11210"]
              [[0; 1]; [1; 2]; [2; 0]] eq_refl
              ltac:(apply (bool_decide_unpack _); vm_compute; exact I)) as (m & H1 & H2).
  exists m. split; [exact H1|]. apply (H2 2%nat node_c eq_refl). repeat constructor.
Defined.
