(* ===== verification/Waits.v ===== *)
(** * Waiting for a condition

    The loops in which the framework waits: [Task.wait_until] and [StatsWaitTask] of lib/Jython_tasks/task.py, and the waits of
    [RebalanceHelper] in lib/membase/helper/rebalance_helper.py.  Time is in milliseconds and part of the world,
    class [Clock]; what is waited for comes from arguments, and [verbose] is true, its default.  Loops have fuel: a round each. *)

From S2P Require Import Prelude Py Cbstats.
Local Open Scope string_scope.
Local Open Scope list_scope.
Local Open Scope Z_scope.
#[local] Arguments py : simpl never.

Class Clock (W : Type) := { now : W → Z; sleep : Z → W → W }.
Class ClockLaws (W : Type) `{Clock W} := { sleep_takes (d : Z) (w : W) : 0 ≤ d → now w + d ≤ now (sleep d w) }.
(** A computation that does not turn the clock back. *)
Definition forward {W A} `{Clock W} (m : M W A) : Prop := ∀ w, now w ≤ now (m w).2.

(** ** [Task.wait_until] *)

Section WaitUntil.
Context {W V : Type} `{HC : Clock W} (value_getter : M W V) (condition : V → bool) (timeout_secs : Z).

(** The interval is 0.01 seconds. *)
Fixpoint until_loop (fuel : nat) (start : Z) (attempt : nat) (value : V) : M W V :=
  if condition value then mret value
  else
    n ← gets now;
    if (timeout_secs <? 0) || (n <? start + timeout_secs * 1000) then
      match fuel with
      | O => mraise Blocked
      | S fuel =>
          _ ← modify (sleep (2 ^ Z.of_nat attempt * 10));
          value ← value_getter;
          until_loop fuel start (S attempt) value
      end
    else mraise GenericException.
Definition wait_until (fuel : nat) : M W V :=
  start ← gets now;
  value ← value_getter;
  until_loop fuel start 0 value.
End WaitUntil.

(** ** [StatsWaitTask] *)

(** The value that is waited for: a number or a text. *)
Inductive expected := EInt (n : Z) | EStr (s : pystr).
(** [a < b] for texts *)
Fixpoint str_lt (a b : pystr) : bool :=
  match a, b with
  | _, [] => false
  | [], _ :: _ => true
  | x :: a, y :: b => (ord x <? ord y) || ((ord x =? ord y) && str_lt a b)
  end.
Definition holds (cmp : pystr) (eq lt : bool) : bool :=
  (bool_decide (cmp = py "==") && eq) || (bool_decide (cmp = py "!=") && negb eq) || (bool_decide (cmp = py "<=") && (lt || eq)) ||
  (bool_decide (cmp = py ">=") && negb lt) || (bool_decide (cmp = py "<") && lt) || (bool_decide (cmp = py ">") && negb (lt || eq)).
(** [_compare]; [a] is the text of the number that was added up. *)
Definition compare (cmp : pystr) (a : pystr) (b : expected) : res bool :=
  match b with
  | EInt n =>
      if isdigit a then a ← int_of_str a; Ok (holds cmp (a =? n) (a <? n)) else Ok false
  | EStr s => Ok (holds cmp (bool_decide (a = s)) (str_lt a s))
  end.

Record wconfig (S : Type) := WConfig {
  w_servers : list S; statCmd : pystr; stat : pystr; comparison : pystr; value : expected; w_timeout : Z; membase : bool
}.
Arguments WConfig {S}. Arguments w_servers {S}. Arguments statCmd {S}. Arguments stat {S}. Arguments comparison {S}.
Arguments value {S}. Arguments w_timeout {S}. Arguments membase {S}.
Record wtask := WTask { w_started : bool; w_completed : bool; w_exception : option pyexn; stop : bool }.
Record waiting (W : Type) := Waiting { wt : wtask; ww : W }.
Arguments Waiting {W}. Arguments wt {W}. Arguments ww {W}.

Section StatsWait.
Context {S W : Type} `{HC : Clock W}.
(** [Cbstats.all_stats] and [Cbstats.checkpoint_stats] of a server *)
Context (all_stats : S → pystr → W → res (gmap pystr pystr) * W) (checkpoint_stats : S → W → res (gmap pystr (gmap pystr Z)) * W).
Context (cf : wconfig S).
Abbreviation MW := (M (waiting W)).
Definition on_ww {A} (m : M W A) : MW A := λ s, let '(r, w) := m (ww s) in (r, Waiting (wt s) w).
Definition set_w (f : wtask → wtask) : MW unit := modify (λ s, Waiting (f (wt s)) (ww s)).
Definition set_stop (t : wtask) : wtask := WTask (w_started t) (w_completed t) (w_exception t) true.

(** What a server adds to the sum. *)
Definition all_value (s : S) : M W Z :=
  tem ← all_stats s (statCmd cf);
  v ← lift (dict_get tem (stat cf));
  lift (int_of_str v).
Fixpoint vb_sum (l : list (gmap pystr Z)) : res Z :=
  match l with
  | [] => Ok 0
  | d :: l => v ← dict_get d (stat cf); n ← vb_sum l; Ok (v + n)
  end.
Definition checkpoint_value (s : S) : M W Z :=
  tem ← checkpoint_stats s;
  lift (vb_sum ((map_to_list tem).*2)).

(** The loop over the servers: the sum so far, and whether an exception ended it. *)
Fixpoint add_servers (val : S → M W Z) (l : list S) (sum : Z) : M W (Z * bool) :=
  match l with
  | [] => mret (sum, true)
  | s :: l =>
      r ← except_Exception (v ← val s; mret (Some v)) (λ _, mret None);
      match r with
      | Some v => add_servers val l (sum + v)
      | None => mret (sum, false)
      end
  end.
(** The loop over the attempts.  The sum is not reset, and nothing is raised when there are no attempts left. *)
Fixpoint try_stats (val : S → M W Z) (retry : nat) (sum : Z) : M W Z :=
  match retry with
  | O => mret sum
  | Datatypes.S retry =>
      '(sum, ok) ← add_servers val (w_servers cf) sum;
      if (ok : bool) then mret sum
      else _ ← modify (sleep 5000); try_stats val retry sum
  end.
Definition get_and_compare (val : S → M W Z) (retry : nat) : MW unit :=
  sum ← on_ww (try_stats val retry 0);
  b ← lift (compare (comparison cf) (str_of_Z sum) (value cf));
  if (b : bool) then set_w set_stop else on_ww (modify (sleep 5000)).
Definition get_all_stats_and_compare : MW unit := get_and_compare all_value 10.
Definition get_checkpoint_stats_and_compare : MW unit := get_and_compare checkpoint_value 5.

(** The loop of [call]. *)
Fixpoint wait_loop (fuel : nat) (timeout : Z) : MW unit :=
  s ← get;
  if negb (stop (wt s)) && (now (ww s) <? timeout) then
    match fuel with
    | O => mraise Blocked
    | Datatypes.S fuel =>
        if bool_decide (statCmd cf ∈ [py "all"; py "dcp"]) then _ ← get_all_stats_and_compare; wait_loop fuel timeout
        else if bool_decide (statCmd cf = py "checkpoint") then
          if membase cf then _ ← get_checkpoint_stats_and_compare; wait_loop fuel timeout else set_w set_stop
        else mraise GenericException
    end
  else mret tt.
Definition wait_call (fuel : nat) : MW unit :=
  _ ← set_w (λ t, WTask true (w_completed t) (w_exception t) (stop t));
  s ← get;
  let timeout := now (ww s) + w_timeout cf * 1000 in
  _ ← wait_loop fuel timeout;
  s ← get;
  _ ← (if timeout <? now (ww s) then
         _ ← set_w (λ t, WTask (w_started t) true (Some (Exn GenericException (py "Could not verify stat"))) (stop t));
         mraise BaseException
       else mret tt);
  set_w (λ t, WTask (w_started t) true (w_exception t) (stop t)).
End StatsWait.

(** ** [RebalanceHelper]: waiting *)

Section Helper.
Context {W : Type} `{HC : Clock W} (stat_key : pystr) (stat_value : Z) (timeout_in_seconds : Z).

(** What both waits do with a new value: [None] when the time is up.  The pair is [time_to_timeout] and [previous_stat_value]. *)
Definition note_value (curr : Z) (st : Z * Z) : M W (option (Z * Z)) :=
  if bool_decide (curr ≠ st.2) then mret (Some (0, curr))
  else
    t ← gets now;
    let limit := if st.1 =? 0 then t + timeout_in_seconds * 1000 else st.1 in
    t ← gets now;
    mret (if limit <? t then None else Some (limit, curr)).

(** [wait_for_stats]: every exception counts as success. *)
Context (get_bucket_stats : W → res (gmap pystr Z) * W).
Fixpoint stats_loop (fuel : nat) (st : Z * Z) (curr : Z) : M W bool :=
  match fuel with
  | O => mraise Blocked
  | S fuel =>
      r ← try_except (x ← get_bucket_stats; mret (Some x))
            (λ e, if bool_decide (exn_cls e = Blocked) then lift (Err e) else mret None);
      match r with
      | None => mret true
      | Some stats =>
          if bool_decide (stats !! stat_key = Some stat_value) then mret true
          else
            let curr := default curr (stats !! stat_key) in
            st ← note_value curr st;
            match st with
            | None => mret false
            | Some st => _ ← modify (sleep 2000); _ ← modify (sleep 5000); stats_loop fuel st curr
            end
      end
  end.
Definition wait_for_stats (fuel : nat) : M W bool := stats_loop fuel (0, -1) (-1).

(** [wait_for_stats_int_value] *)
Definition int_holds (option : pystr) (actual : Z) : bool :=
  if bool_decide (option = py "==") then stat_value =? actual
  else if bool_decide (option = py ">") then actual <? stat_value
  else if bool_decide (option = py "<") then stat_value <? actual
  else if bool_decide (option = py ">=") then actual <=? stat_value
  else if bool_decide (option = py "<=") then stat_value <=? actual
  else false.
Fixpoint int_loop (fuel : nat) (option : pystr) (start : Z) : M W bool :=
  t ← gets now;
  if t - start <=? timeout_in_seconds * 1000 then
    match fuel with
    | O => mraise Blocked
    | S fuel =>
        stats ← get_bucket_stats;
        if (match stats !! stat_key with Some v => int_holds option v | None => false end) then mret true
        else _ ← modify (sleep 2000); int_loop fuel option start
    end
  else mret false.
Definition wait_for_stats_int_value (fuel : nat) (option : pystr) : M W bool :=
  start ← gets now; int_loop fuel option start.
End Helper.

(** [wait_for_stats_on_all]: the first server that does not get there ends it. *)
Fixpoint wait_for_stats_on_all {W S} (wait : S → M W bool) (servers : list S) (verified : bool) : M W bool :=
  match servers with
  | [] => mret verified
  | s :: servers => v ← wait s; if (v : bool) then wait_for_stats_on_all wait servers v else mret v
  end.

(** [wait_for_mc_stats_all_nodes].  The statistics of a node that has left are kept. *)
Section AllNodes.
Context {W : Type} `{HC : Clock W}.
(** the nodes of [node_statuses], and the statistics of a node if it is active *)
Context (node_ids : W → res (list pystr) * W) (node_stats : pystr → W → res (option (gmap pystr pystr)) * W).
Context (stat_value : Z) (timeout_in_seconds : Z).

Fixpoint visit_nodes (ids : list pystr) (all : gmap pystr (gmap pystr pystr)) : M W (gmap pystr (gmap pystr pystr)) :=
  match ids with
  | [] => mret all
  | i :: ids =>
      s ← node_stats i;
      visit_nodes ids (match s with Some s => <[i := s]> all | None => all end)
  end.
Fixpoint total_stat (stat_key : pystr) (l : list (gmap pystr pystr)) (actual : Z) : res Z :=
  match l with
  | [] => Ok actual
  | s :: l =>
      match s !! stat_key with
      | None => total_stat stat_key l actual
      | Some v => n ← int_of_str v; total_stat stat_key l (if actual =? -1 then n else actual + n)
      end
  end.
Fixpoint all_nodes_loop (fuel : nat) (stat_key : pystr) (all : gmap pystr (gmap pystr pystr)) (st : Z * Z) : M W bool :=
  match fuel with
  | O => mraise Blocked
  | S fuel =>
      ids ← node_ids;
      all ← visit_nodes ids all;
      actual ← lift (total_stat stat_key ((map_to_list all).*2) (-1));
      if bool_decide (actual = stat_value) then mret true
      else
        st ← note_value timeout_in_seconds actual st;
        match st with
        | None => mret false
        | Some st => _ ← modify (sleep 2000); all_nodes_loop fuel stat_key all st
        end
  end.
Definition wait_for_mc_stats_all_nodes (fuel : nat) (stat_key : pystr) : M W bool := all_nodes_loop fuel stat_key ∅ (0, -1).
End AllNodes.
Definition wait_for_persistence {W} `{Clock W} node_ids node_stats (fuel : nat) (bucket_type : pystr) (timeout : Z) : M W bool :=
  if bool_decide (bucket_type = py "ephemeral") then mret true
  else
    a ← wait_for_mc_stats_all_nodes node_ids node_stats 0 timeout fuel (py "ep_queue_size");
    b ← wait_for_mc_stats_all_nodes node_ids node_stats 0 timeout fuel (py "ep_flusher_todo");
    c ← wait_for_mc_stats_all_nodes node_ids node_stats 0 timeout fuel (py "ep_uncommitted_items");
    mret ((a : bool) && (b : bool) && (c : bool)).

(** ** [RebalanceHelper]: checks *)

(** [verify_items_count]: the replicas of the bucket, the services of the nodes, the statistics of each node, those of the master. *)
Definition sum_items (l : list (gmap pystr Z)) : Z := foldr (λ s n, default 0 (s !! py "curr_items") + n) 0 l.
Definition verify_items_count (replica_factor : Z) (nodes_services : list (list pystr)) (server_stats : list (gmap pystr Z))
    (master_stats : gmap pystr Z) : res bool :=
  let kv_nodes := len (filter (λ s, py "kv" ∈ s) nodes_services) in
  if existsb (λ s, bool_decide (s = ∅)) server_stats then raise GenericException
  else
    tot ← of_option GenericException (master_stats !! py "curr_items_tot");
    let sum := sum_items server_stats in
    let delta := if kv_nodes <=? replica_factor then sum * kv_nodes - tot else sum * (replica_factor + 1) - tot in
    Ok (Z.abs delta =? 0).

(** [verify_maps] on the master and the replicas of each vbucket. *)
Fixpoint same_replicas (a b : list pystr) : res bool :=
  match a, b with
  | [], _ => Ok true
  | _ :: _, [] => raise IndexError
  | x :: a, y :: b => if bool_decide (x = y) then same_replicas a b else Ok false
  end.
Fixpoint verify_maps (before after : list (pystr * list pystr)) : res bool :=
  match before, after with
  | [], _ => Ok true
  | _ :: _, [] => raise IndexError
  | x :: before, y :: after =>
      if bool_decide (x.1 = y.1) then b ← same_replicas x.2 y.2; if (b : bool) then verify_maps before after else Ok false
      else Ok false
  end.

(** [rebalance_in]: the servers (address, port) to add, from those after the first, shuffled before; [nodes] are the members of the cluster. *)
Definition hostport (i p : pystr) : pystr := i ++ py ":" ++ p.
Definition on_same_ip (nodes : list (pystr * pystr)) : bool :=
  match nodes with
  | [] | [_] => false
  | n :: _ => forallb (λ m, bool_decide (m.1 = n.1)) nodes
  end.
Definition is_free (nodes : list (pystr * pystr)) (first_ip : pystr) (s : pystr * pystr) : bool :=
  let i := if on_same_ip nodes then first_ip else s.1 in
  bool_decide (hostport i s.2 ∉ (λ n, hostport n.1 n.2) <$> nodes).
Fixpoint choose (free : pystr * pystr → bool) (how_many : Z) (selection chosen : list (pystr * pystr)) : list (pystr * pystr) :=
  match selection with
  | [] => chosen
  | s :: selection =>
      let chosen := if free s then chosen ++ [s] else chosen in
      if len chosen =? how_many then chosen else choose free how_many selection chosen
  end.
Definition choose_in (do_check : bool) (nodes selection : list (pystr * pystr)) (how_many : Z) : res (list (pystr * pystr)) :=
  first ← of_option IndexError (head nodes);
  let l := choose (is_free nodes first.1) how_many selection [] in
  if do_check && (len l <? how_many) then raise GenericException else Ok l.
(** [rebalance_out]: the servers to remove; [None] when there are not enough. *)
Definition choose_out (cur_ips : list pystr) (servers : list (pystr * pystr)) (how_many : Z) : option (list (pystr * pystr)) :=
  let current := filter (λ s, s.1 ∈ cur_ips) servers in
  let servers := if bool_decide (current = []) then servers else current in
  if (len cur_ips <=? how_many) || (how_many <? 1) then None else Some (slice 1 (Z.to_nat how_many + 1) servers).
(** [rebalance_swap]: the nodes to remove and the servers to add. *)
Definition choose_swap (cur : list (pystr * pystr)) (servers : list (pystr * pystr)) (how_many : Z)
    : option (list pystr * list (pystr * pystr)) :=
  let free := filter (λ s, s.1 ∉ cur.*1) servers in
  if (how_many <? 1) || (len cur <=? how_many) || (len free <? how_many) then None
  else Some (drop (length cur - Z.to_nat how_many) cur.*2, take (Z.to_nat how_many) free).

(** ** Proofs *)

Section UntilProofs.
Context {W V : Type} {HC : Clock W} {HL : ClockLaws W} (value_getter : M W V) (condition : V → bool) (timeout_secs : Z).
Hypothesis Hget : ∀ w, ∃ v w', value_getter w = (Ok v, w') ∧ now w ≤ now w'.

Lemma until_loop_ends fuel start attempt v w :
  0 ≤ timeout_secs → start + 10 * (2 ^ Z.of_nat attempt - 1) ≤ now w →
  timeout_secs * 1000 ≤ 10 * (2 ^ Z.of_nat (attempt + fuel) - 1) →
  ∃ r w', until_loop value_getter condition timeout_secs fuel start attempt v w = (r, w') ∧
    ((∃ v, r = Ok v ∧ condition v = true) ∨ (r = raise GenericException ∧ start + timeout_secs * 1000 ≤ now w')).
Proof.
  intros Ht. revert attempt v w. induction fuel as [|fuel IH]; intros attempt v w Hw Hf; cbn [until_loop];
    destruct (condition v) eqn:Ev; [eauto 10| |eauto 10|]; rewrite (bind_Ok (gets now) _ _ _ _ eq_refl), (proj2 (Z.ltb_ge timeout_secs 0)) by done; cbn [orb].
  - rewrite Nat.add_0_r in Hf. rewrite (proj2 (Z.ltb_ge _ _)) by lia. eexists _, w. split; [done|]. right. split; [done|lia].
  - destruct (Z.ltb_spec (now w) (start + timeout_secs * 1000)) as [Hlt|Hge]; [|eexists _, w; split; [done|right; split; [done|lia]]].
    rewrite (bind_Ok (modify _) _ _ tt _ eq_refl). set (w1 := sleep _ w).
    destruct (Hget w1) as (v' & w2 & Hv & Hle). rewrite (bind_Ok _ _ _ _ _ Hv). apply IH.
    + assert (0 ≤ 2 ^ Z.of_nat attempt * 10) as Hd by lia. pose proof (sleep_takes (2 ^ Z.of_nat attempt * 10) w Hd) as Hs. fold w1 in Hs.
      rewrite Nat2Z.inj_succ, Z.pow_succ_r by lia. lia.
    + by replace (S attempt + fuel)%nat with (attempt + S fuel)%nat by lia.
Qed.
Lemma until_loop_forever fuel start attempt v w :
  timeout_secs < 0 → ∃ r w', until_loop value_getter condition timeout_secs fuel start attempt v w = (r, w') ∧
    ((∃ v, r = Ok v ∧ condition v = true) ∨ r = raise Blocked).
Proof.
  intros Ht. revert attempt v w. induction fuel as [|fuel IH]; intros attempt v w; cbn [until_loop];
    destruct (condition v) eqn:Ev; [eauto 10| |eauto 10|]; rewrite (bind_Ok (gets now) _ _ _ _ eq_refl), (proj2 (Z.ltb_lt timeout_secs 0)) by done; cbn [orb].
  - eauto 10.
  - rewrite (bind_Ok (modify _) _ _ tt _ eq_refl). destruct (Hget (sleep (2 ^ Z.of_nat attempt * 10) w)) as (v' & w2 & Hv & _).
    rewrite (bind_Ok _ _ _ _ _ Hv). apply IH.
Qed.
End UntilProofs.

Lemma isdigit_str a : isdigit (str_of_Z a) = bool_decide (0 ≤ a).
Proof.
  unfold isdigit. destruct (decide (0 ≤ a)) as [Ha|Ha].
  - rewrite (bool_decide_eq_true_2 (0 ≤ a)) by done.
    assert (str_of_Z a ≠ []) as Hne by (intros E; pose proof (int_of_number a Ha) as H; by rewrite E in H).
    rewrite bool_decide_eq_false_2 by done. cbn [negb andb]. apply forallb_forall. intros c Hc%list_elem_of_In.
    apply bool_decide_eq_true_2. by apply (proj1 (Forall_forall _ _) (str_of_Z_digits a Ha)).
  - rewrite (bool_decide_eq_false_2 (0 ≤ a)) by done. destruct a as [|p|p]; [lia|lia|]. done.
Qed.
Lemma compare_int cmp a n :
  compare cmp (str_of_Z a) (EInt n) = Ok (bool_decide (0 ≤ a) && holds cmp (a =? n) (a <? n)).
Proof.
  unfold compare. rewrite isdigit_str. case_bool_decide as Ha; [|done]. by rewrite int_of_number.
Qed.
Lemma compare_ok cmp a e : ∃ b, compare cmp (str_of_Z a) e = Ok b.
Proof. destruct e; [rewrite compare_int|]; eauto. Qed.

Section StatsWaitProofs.
Context {S W : Type} {HC : Clock W} {HL : ClockLaws W} (val : S → M W Z) (cf : wconfig S).

(** The sum is shifted by what was there before. *)
Lemma add_servers_shift l sum w :
  add_servers val l sum w =
    match add_servers val l 0 w with (Ok (n, b), w') => (Ok (sum + n, b), w') | (Err e, w') => (Err e, w') end.
Proof.
  revert sum w. induction l as [|s l IH]; intros sum w; cbn [add_servers].
  - cbn. by rewrite Z.add_0_r.
  - unfold mbind, M_bind. destruct (except_Exception _ _ w) as [[[v|]|e] w1].
    + rewrite (IH (sum + v)), (IH (0 + v)). destruct (add_servers val l 0 w1) as [[[n b]|e] w2]; [|done]. do 3 f_equal. lia.
    + cbn. by rewrite Z.add_0_r.
    + done.
Qed.

Hypothesis Hforward : ∀ s, forward (val s).
Hypothesis Hval : ∀ s w, is_ok (val s w).1 = true ∨ ∃ e w', val s w = (Err e, w') ∧ is_Exception e = true.

Lemma server_step s w : ∃ o w', except_Exception (v ← val s; mret (Some v)) (λ _, mret None) w = (Ok o, w') ∧ now w ≤ now w'.
Proof.
  unfold except_Exception, try_except. pose proof (Hforward s w) as Hf. destruct (Hval s w) as [Hv|(e & w' & He & Hx)].
  - destruct (val s w) as [[v|e] w'] eqn:E; [|done]. rewrite (bind_Ok _ _ _ _ _ E). by exists (Some v), w'.
  - rewrite He in Hf. rewrite (bind_Err _ _ _ _ _ He), Hx. by exists None, w'.
Qed.
Lemma add_servers_ends l sum w : ∃ n b w', add_servers val l sum w = (Ok (n, b), w') ∧ now w ≤ now w'.
Proof.
  revert sum w. induction l as [|s l IH]; intros sum w; cbn [add_servers].
  - exists sum, true, w. split; [done|lia].
  - destruct (server_step s w) as (o & w1 & Ho & Hle). rewrite (bind_Ok _ _ _ _ _ Ho). destruct o as [v|].
    + destruct (IH (sum + v) w1) as (n & b & w2 & H & Hle2). exists n, b, w2. split; [done|lia].
    + by exists sum, false, w1.
Qed.
Lemma try_stats_ends retry sum w : ∃ n w', try_stats cf val retry sum w = (Ok n, w') ∧ now w ≤ now w'.
Proof.
  revert sum w. induction retry as [|retry IH]; intros sum w; cbn [try_stats]; [exists sum, w; split; [done|lia]|].
  destruct (add_servers_ends (w_servers cf) sum w) as (n & b & w1 & H & Hle). rewrite (bind_Ok _ _ _ _ _ H). destruct b; [eauto|].
  rewrite (bind_Ok (modify _) _ _ tt _ eq_refl). destruct (IH n (sleep 5000 w1)) as (n' & w2 & H2 & Hle2). exists n', w2. split; [done|].
  pose proof (sleep_takes 5000 w1 ltac:(lia)). lia.
Qed.

(** A round either stops because the comparison holds, or takes five seconds. *)
Definition verified (retry : nat) : Prop :=
  ∃ n w1 w2, try_stats cf val retry 0 w1 = (Ok n, w2) ∧ compare (comparison cf) (str_of_Z n) (value cf) = Ok true.
Lemma round_ends retry t w : ∃ t' w', get_and_compare cf val retry (Waiting t w) = (Ok tt, Waiting t' w') ∧ now w ≤ now w' ∧
  ((t' = set_stop t ∧ verified retry) ∨ (t' = t ∧ now w + 5000 ≤ now w')).
Proof.
  destruct (try_stats_ends retry 0 w) as (n & w1 & Hn & Hle). destruct (compare_ok (comparison cf) n (value cf)) as [b Hb].
  unfold get_and_compare. rewrite (bind_Ok _ _ _ n (Waiting t w1)) by (unfold on_ww; cbn [ww wt]; by rewrite Hn).
  rewrite (bind_Ok (lift _) _ _ b _) by (unfold lift; by rewrite Hb). destruct b.
  - exists (set_stop t), w1. split; [done|]. split; [lia|]. left. split; [done|]. by exists n, w, w1.
  - exists t, (sleep 5000 w1). split; [done|]. pose proof (sleep_takes 5000 w1 ltac:(lia)). split; [lia|]. right. split; [done|lia].
Qed.
End StatsWaitProofs.

Lemma wait_loop_ends {S W} {HC : Clock W} {HL : ClockLaws W} all_stats checkpoint_stats (cf : wconfig S) fuel timeout t (w : W) :
  (∀ s, forward (all_value all_stats cf s)) →
  (∀ s w, is_ok (all_value all_stats cf s w).1 = true ∨ ∃ e w', all_value all_stats cf s w = (Err e, w') ∧ is_Exception e = true) →
  statCmd cf ∈ [py "all"; py "dcp"] → stop t = false → timeout - now w ≤ 5000 * Z.of_nat fuel →
  ∃ t' w', wait_loop all_stats checkpoint_stats cf fuel timeout (Waiting t w) = (Ok tt, Waiting t' w') ∧ now w ≤ now w' ∧
    ((t' = set_stop t ∧ verified (all_value all_stats cf) cf 10) ∨ (t' = t ∧ timeout ≤ now w')).
Proof.
  intros Hf Hv Hcmd. revert t w. induction fuel as [|fuel IH]; intros t w Hst Ht; cbn [wait_loop]; rewrite (bind_Ok get _ _ _ _ eq_refl);
    cbn [wt ww]; rewrite Hst; cbn [negb andb].
  - rewrite (proj2 (Z.ltb_ge _ _)) by lia. exists t, w. split; [done|]. split; [lia|]. right. split; [done|lia].
  - destruct (Z.ltb_spec (now w) timeout) as [Hlt|Hge]; [|exists t, w; split; [done|]; split; [lia|right; split; [done|lia]]].
    rewrite bool_decide_eq_true_2 by done.
    destruct (round_ends (all_value all_stats cf) cf Hf Hv 10 t w) as (t1 & w1 & H1 & Hle & Hor).
    unfold get_all_stats_and_compare. rewrite (bind_Ok _ _ _ _ _ H1). destruct Hor as [[-> Hver]|[-> H5]].
    + exists (set_stop t), w1. split; [|by auto]. destruct fuel; cbn [wait_loop]; by rewrite (bind_Ok get _ _ _ _ eq_refl).
    + destruct (IH t w1 Hst) as (t2 & w2 & H2 & Hle2 & Hor2); [lia|]. exists t2, w2. split; [done|]. split; [lia|done].
Qed.

(** The waits of [RebalanceHelper]. *)
Section HelperProofs.
Context {W : Type} {HC : Clock W} (stat_key : pystr) (stat_value timeout_in_seconds : Z) (get_bucket_stats : W → res (gmap pystr Z) * W).

Lemma note_value_run curr st w : ∃ o, note_value timeout_in_seconds curr st w = (Ok o, w).
Proof. unfold note_value. case_bool_decide; [eauto|]. eexists. reflexivity. Qed.
Lemma stats_loop_true fuel st curr w w' :
  stats_loop stat_key stat_value timeout_in_seconds get_bucket_stats fuel st curr w = (Ok true, w') →
  ∃ w1, (∃ stats, get_bucket_stats w1 = (Ok stats, w') ∧ stats !! stat_key = Some stat_value) ∨ (∃ e, get_bucket_stats w1 = (Err e, w')).
Proof.
  revert st curr w. induction fuel as [|fuel IH]; intros st curr w; cbn [stats_loop]; [done|].
  intros (o & w1 & Ho & H)%bind_inv. unfold try_except in Ho. destruct (get_bucket_stats w) as [[stats|e] w2] eqn:E.
  - rewrite (bind_Ok _ _ _ _ _ E) in Ho. injection Ho as <- <-. case_bool_decide as Ev.
    + injection H as <-. eauto 10.
    + destruct (note_value_run (default curr (stats !! stat_key)) st w2) as [o Hn]. rewrite (bind_Ok _ _ _ _ _ Hn) in H.
      destruct o as [st'|]; [|done]. rewrite (bind_Ok (modify _) _ _ tt _ eq_refl), (bind_Ok (modify _) _ _ tt _ eq_refl) in H. by eapply IH.
  - rewrite (bind_Err _ _ _ _ _ E) in Ho. case_bool_decide; [done|]. injection Ho as <- <-. injection H as <-. eauto 10.
Qed.
End HelperProofs.

Section AllNodesProofs.
Context {W : Type} {HC : Clock W}.
Context (node_ids : W → res (list pystr) * W) (node_stats : pystr → W → res (option (gmap pystr pystr)) * W).
Context (stat_key : pystr) (timeout_in_seconds : Z).
Hypothesis Hnonneg : ∀ i w s w' v n, node_stats i w = (Ok (Some s), w') → s !! stat_key = Some v → int_of_str v = Ok n → 0 ≤ n.

Definition counts (s : gmap pystr pystr) : Prop := ∀ v n, s !! stat_key = Some v → int_of_str v = Ok n → 0 ≤ n.
Lemma visit_nodes_counts ids all w all' w' :
  map_Forall (λ _, counts) all → visit_nodes node_stats ids all w = (Ok all', w') → map_Forall (λ _, counts) all'.
Proof.
  revert all w. induction ids as [|i ids IH]; intros all w Hall; cbn [visit_nodes]; [intros H; by injection H as <-|].
  intros (s & w1 & Hs & H)%bind_inv. eapply IH; [|exact H]. destruct s as [s|]; [|done]. apply map_Forall_insert_2; [|done]. intros v n. by eapply Hnonneg.
Qed.
Lemma total_stat_ge l actual n : Forall counts l → 0 ≤ actual → total_stat stat_key l actual = Ok n → actual ≤ n.
Proof.
  intros Hl. revert actual. induction Hl as [|s l Hs _ IH]; intros actual Ha; cbn [total_stat]; [by intros [= ->]|].
  destruct (s !! stat_key) as [v|] eqn:E; [|by apply IH]. intros (m & Hm & H)%res_bind_inv. specialize (Hs v m E Hm).
  rewrite (proj2 (Z.eqb_neq actual (-1))) in H by lia. apply IH in H; lia.
Qed.
Lemma total_stat_zero l actual : Forall counts l → actual = -1 ∨ actual = 0 → total_stat stat_key l actual = Ok 0 →
  Forall (λ s, ∀ v, s !! stat_key = Some v → int_of_str v = Ok 0) l.
Proof.
  intros Hl. revert actual. induction Hl as [|s l Hs Hl IH]; intros actual Ha; cbn [total_stat]; [by constructor|].
  destruct (s !! stat_key) as [v|] eqn:E; [|intros H; constructor; [by intros v; rewrite E|by eapply IH]].
  intros (m & Hm & H)%res_bind_inv. pose proof (Hs v m E Hm) as Hm0.
  assert ((if actual =? -1 then m else actual + m) = m) as Hx by (destruct Ha as [-> | ->]; [done|cbn; lia]). rewrite Hx in H.
  pose proof (total_stat_ge l m 0 Hl Hm0 H). assert (m = 0) as -> by lia. constructor; [intros v' Hv'; congruence|]. eapply IH; [|exact H]. by right.
Qed.
Lemma all_nodes_true fuel all st w w' :
  map_Forall (λ _, counts) all →
  all_nodes_loop node_ids node_stats 0 timeout_in_seconds fuel stat_key all st w = (Ok true, w') →
  ∃ w1 w2 ids all0 all', node_ids w1 = (Ok ids, w2) ∧ visit_nodes node_stats ids all0 w2 = (Ok all', w') ∧
    map_Forall (λ _ s, ∀ v, s !! stat_key = Some v → int_of_str v = Ok 0) all'.
Proof.
  revert all st w. induction fuel as [|fuel IH]; intros all st w Hall; cbn [all_nodes_loop]; [done|].
  intros (ids & w1 & H1 & H)%bind_inv. apply bind_inv in H as (all' & w2 & H2 & H). apply bind_inv in H as (n & w3 & H3 & H).
  unfold lift in H3. injection H3 as H3 <-. pose proof (visit_nodes_counts _ _ _ _ _ Hall H2) as Hall'. case_bool_decide as E.
  - injection H as <-. subst n. exists w, w1, ids, all, all'. split_and!; [done|done|].
    assert (Forall counts (map_to_list all').*2) as Hl.
    { apply Forall_fmap. apply map_Forall_to_list in Hall'. eapply Forall_impl; [exact Hall'|]. by intros [k s]. }
    pose proof (total_stat_zero _ _ Hl (or_introl eq_refl) H3) as Hz. apply map_Forall_to_list. apply Forall_fmap in Hz.
    eapply Forall_impl; [exact Hz|]. by intros [k s].
  - destruct (note_value_run timeout_in_seconds n st w2) as [o Hn]. rewrite (bind_Ok _ _ _ _ _ Hn) in H. destruct o as [st'|]; [|done].
    rewrite (bind_Ok (modify _) _ _ tt _ eq_refl) in H. by eapply IH.
Qed.
End AllNodesProofs.

(** Choosing servers. *)
Lemma choose_take free how_many sel chosen :
  len chosen < how_many → choose free how_many sel chosen = chosen ++ take (Z.to_nat (how_many - len chosen)) (filter (λ s, free s = true) sel).
Proof.
  revert chosen. induction sel as [|s sel IH]; intros chosen Hn; cbn [choose]; [rewrite filter_nil; by rewrite take_nil, app_nil_r|].
  destruct (free s) eqn:E.
  - rewrite filter_cons_True by done. destruct (Z.to_nat (how_many - len chosen)) as [|k] eqn:Ek; [unfold len in *; lia|]. cbn [firstn take].
    assert (len (chosen ++ [s]) = len chosen + 1) as Hl by (unfold len; rewrite length_app; cbn; lia).
    destruct (Z.eqb_spec (len (chosen ++ [s])) how_many).
    + assert (k = 0)%nat as -> by lia. by rewrite take_0.
    + rewrite IH by lia. rewrite <- app_assoc. cbn. do 3 f_equal. lia.
  - rewrite filter_cons_False by congruence. rewrite (proj2 (Z.eqb_neq _ _)) by lia. by apply IH.
Qed.
Lemma choose_all free how_many sel chosen : how_many ≤ 0 → chosen ≠ [] → choose free how_many sel chosen = chosen ++ filter (λ s, free s = true) sel.
Proof.
  intros Hn. revert chosen. induction sel as [|s sel IH]; intros chosen Hc; cbn [choose]; [by rewrite app_nil_r|].
  assert (∀ l : list (pystr * pystr), l ≠ [] → (len l =? how_many) = false) as Hl.
  { intros l Hl. apply Z.eqb_neq. unfold len. destruct l; [done|cbn; lia]. }
  destruct (free s) eqn:E.
  - rewrite filter_cons_True by done. rewrite Hl by (by destruct chosen). rewrite IH by (by destruct chosen). by rewrite <- app_assoc.
  - rewrite filter_cons_False by congruence. rewrite Hl by done. by apply IH.
Qed.
Lemma same_replicas_true a b : same_replicas a b = Ok true ↔ a `prefix_of` b.
Proof.
  revert b. induction a as [|x a IH]; intros b; cbn [same_replicas]; [split; [intros _; apply prefix_nil|done]|].
  destruct b as [|y b]; [split; [done|intros H; by apply prefix_nil_not in H]|]. case_bool_decide as E.
  - subst. rewrite IH. split; [by apply prefix_cons|by apply prefix_cons_inv_2].
  - split; [done|]. intros H. by apply prefix_cons_inv_1 in H.
Qed.

(** ** Properties *)

(** [wait_until] with a timeout makes at most [n] attempts after the first, where 10 * (2^n - 1) milliseconds are at least the timeout: it returns a value that satisfies the
    condition, or raises, and then not before the timeout.  With a negative timeout it never raises. *)
Theorem wait_until_ends {W V} {HC : Clock W} {HL : ClockLaws W} (value_getter : M W V) (condition : V → bool) (timeout_secs : Z) (n : nat) (w : W) :
  (∀ w, ∃ v w', value_getter w = (Ok v, w') ∧ now w ≤ now w') →
  timeout_secs * 1000 ≤ 10 * (2 ^ Z.of_nat n - 1) →
  ∃ r w', wait_until value_getter condition timeout_secs n w = (r, w') ∧
    ((∃ v, r = Ok v ∧ condition v = true) ∨
     (0 ≤ timeout_secs ∧ r = raise GenericException ∧ now w + timeout_secs * 1000 ≤ now w') ∨
     (timeout_secs < 0 ∧ r = raise Blocked)).
Proof.
  intros Hget Hn. unfold wait_until. rewrite (bind_Ok (gets now) _ _ _ _ eq_refl). destruct (Hget w) as (v & w1 & Hv & Hle).
  rewrite (bind_Ok _ _ _ _ _ Hv). destruct (Z.le_gt_cases 0 timeout_secs) as [Ht|Ht].
  - destruct (until_loop_ends value_getter condition timeout_secs Hget n (now w) 0 v w1 Ht ltac:(cbn; lia) Hn) as (r & w2 & H & Hor).
    exists r, w2. naive_solver.
  - destruct (until_loop_forever value_getter condition timeout_secs Hget n (now w) 0 v w1 Ht) as (r & w2 & H & Hor). exists r, w2. naive_solver.
Qed.

(** C16: [StatsWaitTask] ends within a fifth of its timeout in rounds, whatever the servers answer or fail to answer: it completes with the comparison
    verified on a sum that was read (or at the very moment of the timeout), or raises after the timeout, with the exception recorded. *)
Theorem stats_wait_ends {S W} {HC : Clock W} {HL : ClockLaws W} all_stats checkpoint_stats (cf : wconfig S) fuel t (w : W) :
  (∀ s, forward (all_value all_stats cf s)) →
  (∀ s w, is_ok (all_value all_stats cf s w).1 = true ∨ ∃ e w', all_value all_stats cf s w = (Err e, w') ∧ is_Exception e = true) →
  statCmd cf ∈ [py "all"; py "dcp"] → stop t = false → w_exception t = None → w_timeout cf * 1000 ≤ 5000 * Z.of_nat fuel →
  let timeout := now w + w_timeout cf * 1000 in
  ∃ r s', wait_call all_stats checkpoint_stats cf fuel (Waiting t w) = (r, s') ∧ w_completed (wt s') = true ∧
    ((r = Ok tt ∧ w_exception (wt s') = None ∧ now (ww s') ≤ timeout ∧
      (stop (wt s') = true ∧ verified (all_value all_stats cf) cf 10 ∨ stop (wt s') = false ∧ now (ww s') = timeout)) ∨
     (r = raise BaseException ∧ is_Some (w_exception (wt s')) ∧ timeout < now (ww s'))).
Proof.
  intros Hf Hv Hcmd Hst Hex Ht timeout. unfold wait_call. rewrite (bind_Ok (set_w _) _ _ tt _ eq_refl). cbn [wt ww].
  rewrite (bind_Ok get _ _ _ _ eq_refl). cbn [wt ww]. cbv zeta. fold timeout. set (t1 := WTask _ _ _ _).
  destruct (wait_loop_ends all_stats checkpoint_stats cf fuel timeout t1 w Hf Hv Hcmd Hst ltac:(unfold timeout; lia)) as (t' & w' & H & Hle & Hor).
  rewrite (bind_Ok _ _ _ _ _ H), (bind_Ok get _ _ _ _ eq_refl). cbn [wt ww]. destruct (Z.ltb_spec timeout (now w')) as [Hlt|Hge].
  - eexists _, _. split; [reflexivity|]. split; [done|]. right. split_and!; [done|by eexists|done].
  - eexists _, _. split; [reflexivity|]. split; [done|]. left. cbn [wt ww]. destruct Hor as [[-> Hver]|[-> Hto]]; cbn.
    + split_and!; [done|done|lia|]. by left.
    + split_and!; [done|done|lia|]. right. split; [done|lia].
Qed.

(** The number that [StatsWaitTask] compares.  If every server answers, it is the sum of their values.  But when an attempt fails at some server, what
    the servers before it have added stays in the sum and they are added again by the next attempt; and when every attempt fails, what was added up is compared all the same. *)
Theorem stats_retry_adds {S W} {HC : Clock W} (val : S → M W Z) (cf : wconfig S) :
  (∀ f retry w, (∀ s w, ∃ w', val s w = (Ok (f s), w')) →
     ∃ w', try_stats cf val (Datatypes.S retry) 0 w = (Ok (foldr (λ s n, f s + n) 0 (w_servers cf)), w')) ∧
  (∀ retry sum w x w1 n w2, add_servers val (w_servers cf) sum w = (Ok (x, false), w1) →
     add_servers val (w_servers cf) 0 (sleep 5000 w1) = (Ok (n, true), w2) →
     try_stats cf val (Datatypes.S (Datatypes.S retry)) sum w = (Ok (x + n), w2)) ∧
  (∀ x w, (∀ sum w, ∃ w1, add_servers val (w_servers cf) sum w = (Ok (sum + x, false), w1)) →
     ∀ retry sum, ∃ w', try_stats cf val retry sum w = (Ok (sum + Z.of_nat retry * x), w')).
Proof.
  split_and!.
  - intros f retry w Hf. assert (∀ l sum w, ∃ w', add_servers val l sum w = (Ok (sum + foldr (λ s n, f s + n) 0 l, true), w')) as H.
    { induction l as [|s l IH]; intros sum w0; cbn [add_servers foldr]; [exists w0; by rewrite Z.add_0_r|].
      destruct (Hf s w0) as [w1 Hs]. rewrite (bind_Ok _ _ _ (Some (f s)) w1); [|unfold except_Exception, try_except; by rewrite (bind_Ok _ _ _ _ _ Hs)].
      destruct (IH (sum + f s) w1) as [w2 H2]. exists w2. rewrite H2. by rewrite Z.add_assoc. }
    destruct (H (w_servers cf) 0 w) as [w' Hw]. exists w'. cbn [try_stats]. by rewrite (bind_Ok _ _ _ _ _ Hw).
  - intros retry sum w x w1 n w2 H1 H2. cbn [try_stats]. rewrite (bind_Ok _ _ _ _ _ H1). cbv beta iota.
    rewrite (bind_Ok (modify _) _ _ tt _ eq_refl). assert (add_servers val (w_servers cf) x (sleep 5000 w1) = (Ok (x + n, true), w2)) as H3
      by (rewrite add_servers_shift, H2; done).
    by rewrite (bind_Ok _ _ _ _ _ H3).
  - intros x w H retry. revert w. induction retry as [|retry IH]; intros w sum; cbn [try_stats]; [exists w; by rewrite Z.mul_0_l, Z.add_0_r|].
    destruct (H sum w) as [w1 H1]. rewrite (bind_Ok _ _ _ _ _ H1). cbv beta iota. rewrite (bind_Ok (modify _) _ _ tt _ eq_refl).
    destruct (IH (sleep 5000 w1) (sum + x)) as [w2 H2]. exists w2. rewrite H2, Nat2Z.inj_succ, Z.mul_succ_l. do 2 f_equal. lia.
Qed.

(** [wait_for_stats] says true only if the statistic had the value in the last answer, or the last request failed; and a failure of the first request is enough. *)
Theorem wait_for_stats_true {W} {HC : Clock W} stat_key stat_value timeout get_bucket_stats fuel (w w' : W) :
  (wait_for_stats stat_key stat_value timeout get_bucket_stats fuel w = (Ok true, w') →
     ∃ w1, (∃ stats, get_bucket_stats w1 = (Ok stats, w') ∧ stats !! stat_key = Some stat_value) ∨ (∃ e, get_bucket_stats w1 = (Err e, w'))) ∧
  (∀ e, get_bucket_stats w = (Err e, w') → exn_cls e ≠ Blocked →
     wait_for_stats stat_key stat_value timeout get_bucket_stats (S fuel) w = (Ok true, w')).
Proof.
  split; [apply stats_loop_true|]. intros e He Hb. unfold wait_for_stats. cbn [stats_loop].
  rewrite (bind_Ok _ _ _ None w'); [done|]. unfold try_except. rewrite (bind_Err _ _ _ _ _ He). by rewrite bool_decide_eq_false_2.
Qed.


(** [verify_items_count] accepts exactly when the total of the master is the number of items times the number of copies there can be: one more than the replicas,
    but not more than there are nodes with the data service. *)
Theorem items_counted replica_factor nodes_services server_stats master_stats tot :
  0 ≤ replica_factor → Forall (λ s, s ≠ ∅) server_stats → master_stats !! py "curr_items_tot" = Some tot →
  verify_items_count replica_factor nodes_services server_stats master_stats =
    Ok (tot =? sum_items server_stats * Z.min (replica_factor + 1) (len (filter (λ s, py "kv" ∈ s) nodes_services))).
Proof.
  intros Hr Hs Ht. unfold verify_items_count. assert (existsb (λ s : gmap pystr Z, bool_decide (s = ∅)) server_stats = false) as ->.
  { induction Hs as [|s l Hx _ IH]; [done|]. cbn. by rewrite bool_decide_eq_false_2. }
  rewrite Ht. cbn [of_option mbind res_bind]. f_equal. set (kv := len _). set (sum := sum_items _).
  destruct (Z.leb_spec kv replica_factor).
  - rewrite Z.min_r by lia. apply eq_true_iff_eq. rewrite !Z.eqb_eq. lia.
  - rewrite Z.min_l by lia. apply eq_true_iff_eq. rewrite !Z.eqb_eq. lia.
Qed.

(** [rebalance_in] adds the first [how_many] servers of the selection that are not in the cluster, and raises if there are fewer; but asked for none, it adds all of
    them, unless the first of the selection is in the cluster. *)
Theorem servers_chosen nodes selection how_many first :
  head nodes = Some first →
  let free := filter (λ s, is_free nodes first.1 s = true) selection in
  (0 < how_many → choose_in true nodes selection how_many =
     if len free <? how_many then raise GenericException else Ok (take (Z.to_nat how_many) free)) ∧
  (∀ s sel, selection = s :: sel →
     choose_in true nodes selection 0 = Ok (if is_free nodes first.1 s then free else [])).
Proof.
  intros Hn free. unfold choose_in. rewrite Hn. cbn [of_option mbind res_bind andb]. split.
  - intros Hm. rewrite choose_take by (unfold len; cbn; lia). change (len (@nil (pystr * pystr))) with 0. rewrite Z.sub_0_r, app_nil_l. fold free.
    assert (len (take (Z.to_nat how_many) free) = Z.min how_many (len free)) as -> by (unfold len; rewrite length_take; lia).
    destruct (Z.ltb_spec (len free) how_many); destruct (Z.ltb_spec (Z.min how_many (len free)) how_many); try done; lia.
  - intros s sel ->. cbn [choose]. destruct (is_free nodes first.1 s) eqn:E; cbn [app].
    + change (len [s] =? 0) with false. cbv beta iota. rewrite choose_all by done. unfold free. rewrite filter_cons_True by done.
      rewrite (proj2 (Z.ltb_ge _ _)) by (unfold len; lia). done.
    + done.
Qed.

(** [verify_maps] accepts exactly when every vbucket has kept its master and, as far as there were replicas, its replicas. *)
Theorem maps_verified before after :
  verify_maps before after = Ok true ↔
  (length before ≤ length after)%nat ∧ ∀ i x y, before !! i = Some x → after !! i = Some y → x.1 = y.1 ∧ x.2 `prefix_of` y.2.
Proof.
  revert after. induction before as [|x before IH]; intros after; cbn [verify_maps]; [split; [intros _; split; [cbn; lia|done]|done]|].
  destruct after as [|y after]; [split; [done|intros [H _]; cbn in H; lia]|]. split.
  - case_bool_decide as E; [|done]. intros (b & Hb & H)%res_bind_inv. destruct b; [|done]. apply IH in H as [Hl H]. apply same_replicas_true in Hb.
    split; [cbn; lia|]. intros [|i] x' y'; cbn; [intros [= <-] [= <-]; done|]. apply H.
  - intros [Hl H]. destruct (H 0%nat x y eq_refl eq_refl) as [E1 E2]. rewrite bool_decide_eq_true_2 by done.
    rewrite (proj2 (same_replicas_true _ _) E2). cbn [mbind res_bind]. apply IH. split; [cbn in Hl; lia|]. intros i x' y' Hx Hy. by apply (H (S i)).
Qed.

(** ** Examples *)

#[local] Instance demo_clock : Clock Z := {| now w := w; sleep d w := w + d |}.
#[local] Instance demo_clock_laws : ClockLaws Z.
Proof. split. intros d w Hd. cbn. lia. Qed.
Definition demo_getter : M Z Z := λ w, (Ok w, w + 1).
Lemma wait_until_ends_witness :
  ∃ r w', wait_until demo_getter (λ v, 500 <=? v) 1 7 0 = (r, w') ∧ r = Ok 636.
Proof.
  destruct (wait_until_ends demo_getter (λ v, 500 <=? v) 1 7 0 ltac:(intros w; exists w, (w + 1); split; [done|cbn; lia]) ltac:(vm_compute; discriminate))
    as (r & w' & H & _).
  exists r, w'. split; [exact H|]. apply (f_equal fst) in H. vm_compute in H. exact (eq_sym H).
Defined.

Definition demo_all_stats (s : pystr) (cmd : pystr) (w : Z) : res (gmap pystr pystr) * Z :=
  (if w <? 3000 then Err (Exn GenericException []) else Ok {[py "curr_items" := py "5"]}, w + 1000).
Definition demo_wconfig : wconfig pystr := WConfig [py "a"; py "b"] (py "all") (py "curr_items") (py "==") (EInt 10) 100 true.
Lemma demo_all_forward s : forward (all_value demo_all_stats demo_wconfig s).
Proof.
  intros w. unfold all_value, demo_all_stats, mbind, M_bind, lift, now, demo_clock. destruct (w <? 3000); [cbn; lia|].
  destruct (dict_get _ _); cbn [snd]; lia.
Qed.
Lemma demo_all_total s w : is_ok (all_value demo_all_stats demo_wconfig s w).1 = true ∨
  ∃ e w', all_value demo_all_stats demo_wconfig s w = (Err e, w') ∧ is_Exception e = true.
Proof.
  unfold all_value, demo_all_stats, mbind, M_bind. destruct (w <? 3000); [right|left; vm_compute; reflexivity].
  by exists (Exn GenericException []), (w + 1000).
Qed.
Lemma stats_wait_ends_witness :
  ∃ r s', wait_call demo_all_stats (λ _ w, (Ok ∅, w)) demo_wconfig 20 (Waiting (WTask false false None false) 0) = (r, s') ∧ w_completed (wt s') = true.
Proof.
  destruct (stats_wait_ends demo_all_stats (λ _ w, (Ok ∅, w)) demo_wconfig 20 (WTask false false None false) 0
              demo_all_forward demo_all_total ltac:(by left) eq_refl eq_refl ltac:(vm_compute; discriminate)) as (r & s' & H1 & H2 & _).
  exists r, s'. exact (conj H1 H2).
Defined.

Definition demo_ids (w : Z) : res (list pystr) * Z := (Ok [py "n1"], w).
Definition demo_node_stats (i : pystr) (w : Z) : res (option (gmap pystr pystr)) * Z :=
  (Ok (Some {[py "ep_queue_size" := py "0"; py "ep_flusher_todo" := py "0"; py "ep_uncommitted_items" := py "0"]}), w).
Lemma demo_node_stats_ok k i w s w' v n : demo_node_stats i w = (Ok (Some s), w') → s !! k = Some v → int_of_str v = Ok n → 0 ≤ n.
Proof.
  intros Hs. injection Hs as <- _. rewrite !lookup_insert_Some, lookup_singleton_Some. intros Hv.
  assert (v = py "0") as -> by naive_solver. vm_compute. intros H. injection H as <-. done.
Qed.

Lemma items_counted_witness :
  verify_items_count 1 [[py "kv"]; [py "kv"; py "n1ql"]] [{[py "curr_items" := 5]}; {[py "curr_items" := 7]}] {[py "curr_items_tot" := 24]} = Ok true.
Proof.
  rewrite (items_counted 1 [[py "kv"]; [py "kv"; py "n1ql"]] [{[py "curr_items" := 5]}; {[py "curr_items" := 7]}] {[py "curr_items_tot" := 24]} 24
             ltac:(lia) ltac:(repeat constructor; discriminate) eq_refl).
  vm_compute. reflexivity.
Defined.

Lemma servers_chosen_witness :
  choose_in true [(py "a", py "8091")] [(py "b", py "8091"); (py "c", py "8091")] 1 = Ok [(py "b", py "8091")] ∧
  choose_in true [(py "a", py "8091")] [(py "b", py "8091"); (py "c", py "8091")] 0 = Ok [(py "b", py "8091"); (py "c", py "8091")].
Proof.
  destruct (servers_chosen [(py "a", py "8091")] [(py "b", py "8091"); (py "c", py "8091")] 1 (py "a", py "8091") eq_refl) as [H1 _].
  destruct (servers_chosen [(py "a", py "8091")] [(py "b", py "8091"); (py "c", py "8091")] 0 (py "a", py "8091") eq_refl) as [_ H2].
  split; [rewrite H1 by lia|rewrite (H2 _ _ eq_refl)]; vm_compute; reflexivity.
Defined.
