(* ===== verification/Cbas.v ===== *)
(** * The analytics entities

    The objects in which the analytics tests keep what they have created (lib/CbasLib/cbas_entity.py), their names
    ([CBASHelper] of lib/CbasLib/CBASOperations.py) and the bookkeeping of couchbase_utils/cbas_utils/cbas_utils.py around
    dataverses and synonyms, with the pool of worker threads that runs analytics jobs.  The cluster is an argument: what it answers to a
    statement. *)

From S2P Require Import Prelude Py.
Local Open Scope string_scope.
Local Open Scope list_scope.
Local Open Scope Z_scope.
#[local] Arguments py : simpl never.

(** ** Names *)

Definition tick : ascii := "`"%char.
Definition dot : ascii := "."%char.
Definition is_tick (c : ascii) : bool := bool_decide (c = tick).
(** [s.strip("`")] and [s.replace("`", "")] *)
Definition strip_ticks (s : pystr) : pystr := rstrip_by is_tick (lstrip_by is_tick s).
Definition remove_ticks (s : pystr) : pystr := filter (λ c, c ≠ tick) s.

Definition needs_ticks (p : pystr) : bool :=
  match p with [] => false | c :: _ => isdigit [c] || bool_decide ("-"%char ∈ p) end.
Definition format_part (p : pystr) : res pystr :=
  let p := strip_ticks p in
  if bool_decide (p = []) then raise IndexError
  else Ok (if needs_ticks p then tick :: p ++ [tick] else p).
Fixpoint format_parts (l : list pystr) : res (list pystr) :=
  match l with
  | [] => Ok []
  | p :: l => x ← format_part p; l ← format_parts l; Ok (x :: l)
  end.
(** The parts of a name; an empty name and [None] have none. *)
Definition parts_of (o : option pystr) : list pystr :=
  match o with Some n => if bool_decide (n = []) then [] else split_on dot n | None => [] end.
Definition format_name (args : list (option pystr)) : res pystr :=
  ps ← format_parts (concat (parts_of <$> args)); Ok (join [dot] ps).
Definition unformat_name (args : list pystr) : pystr :=
  join [dot] (concat ((λ n, remove_ticks <$> split_on dot n) <$> args)).
Definition metadata_format (n : pystr) : pystr := join (py "/") (remove_ticks <$> split_on dot n).

(** ** lib/CbasLib/cbas_entity.py *)

Record link := Link { ln_name : pystr; ln_dataverse : pystr; ln_type : pystr; ln_full : pystr }.
Record index := Index { ix_name : pystr; ix_dataset : pystr; ix_dataverse : pystr; ix_full_dataset : pystr; analytics_index : bool; indexed_fields : list pystr }.
Record dataset := Dataset {
  ds_name : pystr; ds_dataverse : pystr; ds_full : pystr; ds_link : pystr; ds_source : pystr; indexes : gmap pystr index;
  dataset_properties : gmap pystr pystr; enabled_from_KV : bool; full_kv_entity_name : option pystr; num_of_items : Z
}.
Record synonym := Synonym {
  sy_name : pystr; sy_entity : pystr; sy_entity_dataverse : pystr; sy_dataverse : pystr; sy_full : pystr; sy_entity_full : pystr;
  synonym_on_synonym : bool
}.
(** The dependencies name their entities by dataverse and name, those on functions by their arity too. *)
Record udf := Udf {
  uf_name : pystr; uf_dataverse : pystr; uf_full : pystr; parameters : list pystr; arity : Z; body : pystr;
  dataset_dependencies : list (pystr * pystr); udf_dependencies : list (pystr * pystr * Z); synonym_dependencies : list (pystr * pystr)
}.
Inductive entity := ADataset (d : dataset) | ASynonym (s : synonym) | AUdf (u : udf).
Record dataverse := Dataverse {
  dv_name : pystr; links : gmap pystr link; datasets : gmap pystr dataset; synonyms : gmap pystr synonym; udfs : gmap pystr udf
}.

Definition new_dataverse (name : pystr) : res dataverse := n ← format_name [Some name]; Ok (Dataverse n ∅ ∅ ∅ ∅).
(** [Link]: the dictionary of properties is the caller's. *)
Definition new_link (name : option pystr) (dataverse_name : pystr) : M (gmap pystr pystr) link :=
  n ← lift (format_name [name]);
  dv ← lift (format_name [Some dataverse_name]);
  _ ← modify (<[py "name" := unformat_name [n]]>);
  _ ← modify (<[py "dataverse" := unformat_name [dv]]>);
  props ← get;
  ty ← lift (dict_get props (py "type"));
  full ← lift (format_name [Some dv; Some n]);
  mret (Link n dv (lower ty) full).
(** [Dataset], of an internal or an external source. *)
Definition new_dataset (name dataverse_name : pystr) (link_name : option pystr) (source : pystr) (props : gmap pystr pystr) (from_KV : bool)
    (bucket scope collection : option pystr) (items : Z) : res dataset :=
  n ← format_name [Some name];
  dv ← format_name [Some dataverse_name];
  full ← format_name [Some dv; Some n];
  ln ← format_name [link_name];
  if bool_decide (source = py "internal") then
    kv ← (match collection with
          | Some c => b ← of_option AttributeError bucket; s ← of_option AttributeError scope; format_name [Some b; Some s; Some c]
          | None => b ← of_option AttributeError bucket; format_name [Some b]
          end);
    Ok (Dataset n dv full ln source ∅ ∅ from_KV (Some kv) items)
  else Ok (Dataset n dv full ln source ∅ props false None 0).
Definition new_synonym (name entity entity_dataverse dataverse_name : pystr) (on_synonym : bool) : res synonym :=
  n ← format_name [Some name];
  e ← format_name [Some entity];
  ed ← format_name [Some entity_dataverse];
  dv ← format_name [Some dataverse_name];
  full ← format_name [Some dv; Some n];
  efull ← format_name [Some ed; Some e];
  Ok (Synonym n e ed dv full efull on_synonym).
Definition new_index (name dataset_name dataverse_name fields : pystr) : res index :=
  n ← format_name [Some name];
  ds ← format_name [Some dataset_name];
  dv ← format_name [Some dataverse_name];
  full ← format_name [Some dv; Some ds];
  Ok (Index n ds dv full false (if bool_decide (fields = []) then [] else split_on "-"%char fields)).
Definition new_udf (name dataverse_name : pystr) (parameters : list pystr) (body : pystr) (referenced : list entity) : res udf :=
  n ← format_name [Some name];
  dv ← format_name [Some dataverse_name];
  full ← format_name [Some dv; Some n];
  Ok (Udf n dv full parameters (if bool_decide (head parameters = Some (py "...")) then -1 else len parameters) body
        (omap (λ e, match e with ADataset d => Some (unformat_name [ds_dataverse d], unformat_name [ds_name d]) | _ => None end) referenced)
        (omap (λ e, match e with AUdf u => Some (unformat_name [uf_dataverse u], unformat_name [uf_name u], arity u) | _ => None end) referenced)
        (omap (λ e, match e with ASynonym s => Some (unformat_name [sy_dataverse s], unformat_name [sy_name s]) | _ => None end) referenced)).

(** ** [BaseUtil] *)

Definition validate_error_in_response (status : pystr) (errors : list (pystr * Z)) (expected : option pystr) (code : option Z) : res bool :=
  if bool_decide (status = py "success") then Ok false
  else
    e ← of_option IndexError (head errors);
    x ← of_option AttributeError expected;
    if contains (remove_ticks x) (remove_ticks e.1) then
      match code with
      | None => Ok true
      | Some c => Ok (bool_decide (c = e.2))
      end
    else Ok false.

Definition reserved_words : list pystr :=
  [py "at"; py "in"; py "for"; py "by"; py "which"; py "select"; py "from"; py "like"; py "or"; py "and"; py "to"; py "if"; py "else";
   py "as"; py "with"; py "on"; py "where"; py "is"; py "all"; py "end"; py "div"; py "into"; py "let"; py "asc"; py "desc"; py "key";
   py "any"; py "run"; py "set"; py "use"].
(** [generate_name]: [words] are the words that [random] gives after [random.seed]; the clock seeds attempt [n]. *)
Section GenerateName.
Context (words : Z → list pystr) (clock : nat → Z) (name_cardinality : Z) (name_key : pystr) (seed : Z).
Definition candidate (attempt : nat) : pystr :=
  join [dot] (if bool_decide (name_key = []) then words (if seed =? 0 then clock attempt else seed)
              else replicate (Z.to_nat name_cardinality) name_key).
Definition is_reserved (name : pystr) : bool := existsb (λ w, bool_decide (w ∈ reserved_words)) (split_on dot (lower name)).
Fixpoint generate_name (fuel attempt : nat) : res (option pystr) :=
  if (0 <? name_cardinality) && (name_cardinality <? 3) then
    if is_reserved (candidate attempt) then
      match fuel with O => raise RuntimeError | S fuel => generate_name fuel (S attempt) end
    else Ok (Some (candidate attempt))
  else Ok None.
End GenerateName.

(** ** [Dataverse_Util] and [Synonym_Util] *)

Record cbas (W : Type) := Cbas { dataverses : gmap pystr dataverse; cw : W }.
Arguments Cbas {W}. Arguments dataverses {W}. Arguments cw {W}.

Section Util.
Context {W : Type}.
(** The answer to a statement: status and errors; for a query on the metadata, the name of the first dataverse found. *)
Context (execute : pystr → W → res (pystr * list (pystr * Z)) * W) (query : pystr → W → res (option pystr) * W).
Abbreviation MC := (M (cbas W)).
Definition on_cw {A} (m : M W A) : MC A := λ s, let '(r, w) := m (cw s) in (r, Cbas (dataverses s) w).
Definition on_dvs (f : gmap pystr dataverse → gmap pystr dataverse) : MC unit := modify (λ s, Cbas (f (dataverses s)) (cw s)).
Definition get_dataverse_obj (n : pystr) : MC (option dataverse) := gets (λ s, dataverses s !! n).

Definition create_dataverse (name : pystr) (validate : option (option pystr * option Z)) (if_not_exists analytics_scope : bool) : MC bool :=
  obj ← lift (new_dataverse name);
  '(status, errors) ← on_cw (execute ((if analytics_scope then py "create analytics scope " else py "create dataverse ") ++ name
                              ++ (if if_not_exists then py " if not exists" else []) ++ py ";"));
  match validate with
  | Some (e, c) => lift (validate_error_in_response status errors e c)
  | None =>
      if bool_decide (status = py "success") then
        o ← get_dataverse_obj name;
        _ ← (match o with None => on_dvs (<[dv_name obj := obj]>) | Some _ => mret tt end);
        mret true
      else mret false
  end.
Definition drop_dataverse (name : pystr) (validate : option (option pystr * option Z)) (if_exists analytics_scope delete_obj disconnect : bool) : MC bool :=
  ok ← (if disconnect then '(status, _) ← on_cw (execute (py "disconnect link " ++ name ++ py ".Local")); mret (bool_decide (status = py "success"))
        else mret true);
  if (ok : bool) then
    '(status, errors) ← on_cw (execute ((if analytics_scope then py "drop analytics scope " else py "drop dataverse ") ++ name
                                ++ (if if_exists then py " if exists" else []) ++ py ";"));
    match validate with
    | Some (e, c) => lift (validate_error_in_response status errors e c)
    | None =>
        if bool_decide (status = py "success") then
          _ ← (if delete_obj then
                 o ← get_dataverse_obj name;
                 match o with Some d => on_dvs (delete (dv_name d)) | None => mret tt end
               else mret tt);
          mret true
        else mret false
    end
  else mret false.

(** The dataverse of an entity, by a query when it is not given ([None] stands for an empty name too). *)
Definition find_dataverse (given : option pystr) (cmd : pystr) : MC (option pystr) :=
  match given with
  | Some dv => mret (Some dv)
  | None => r ← on_cw (query cmd); match r with None => mret None | Some dv => n ← lift (format_name [Some dv]); mret (Some n) end
  end.
Definition quote (s : pystr) : pystr := chr 34 :: s ++ [chr 34].
Definition get_synonym_obj (name : pystr) (dv entity entity_dv : option pystr) : MC (option synonym) :=
  n ← find_dataverse dv
        (py "select value sy from Metadata.`Synonym` as sy where             sy.SynonymName = " ++ quote (unformat_name [name])
         ++ (match entity with Some e => py " and sy.ObjectName = " ++ quote (unformat_name [e]) | None => [] end)
         ++ (match entity_dv with Some e => py " and sy.ObjectDataverseName = " ++ quote (unformat_name [e]) | None => [] end) ++ py ";");
  match n with
  | None => mret None
  | Some n => d ← get_dataverse_obj n; d ← lift (of_option AttributeError d); mret (synonyms d !! name)
  end.
Definition get_dataset_obj (name : pystr) (dv : option pystr) : MC (option dataset) :=
  n ← find_dataverse dv (py "SELECT value MD FROM Metadata.`Dataset` as MD WHERE DatasetName=" ++ quote (unformat_name [name]) ++ py ";");
  match n with
  | None => mret None
  | Some n => d ← get_dataverse_obj n; d ← lift (of_option AttributeError d); mret (datasets d !! name)
  end.
(** A name that is empty counts as not given. *)
Definition given (n : pystr) : option pystr := if bool_decide (n = []) then None else Some n.

(** [inner_func] of [get_dataset_obj_for_synonym]; its loop repeats until a synonym that is not on a synonym comes back, which is
    what it returns. *)
Fixpoint resolve (fuel : nat) (name : pystr) (dv entity entity_dv : option pystr) : MC synonym :=
  match fuel with
  | O => mraise RuntimeError
  | S fuel =>
      s ← get_synonym_obj name dv entity entity_dv;
      s ← lift (of_option AttributeError s);
      if synonym_on_synonym s then resolve fuel (sy_entity s) (given (sy_entity_dataverse s)) None None else mret s
  end.
Definition get_dataset_obj_for_synonym (fuel : nat) (name : pystr) (dv entity entity_dv : option pystr) : MC (option dataset) :=
  s ← resolve fuel name dv entity entity_dv;
  get_dataset_obj (sy_entity s) (given (sy_entity_dataverse s)).

Definition list_all_dataset_objs (source : option pystr) : MC (list dataset) :=
  gets (λ s, concat ((λ d : pystr * dataverse, filter (λ x, default (ds_source x) source = ds_source x) (map_to_list (datasets d.2)).*2)
                       <$> map_to_list (dataverses s))).
Definition list_all_synonym_objs : MC (list synonym) :=
  gets (λ s, concat ((λ d : pystr * dataverse, (map_to_list (synonyms d.2)).*2) <$> map_to_list (dataverses s))).
Definition list_all_link_objs (ty : option pystr) : MC (list link) :=
  gets (λ s, concat ((λ d : pystr * dataverse, filter (λ x, default (ln_type x) (lower <$> ty) = ln_type x) (map_to_list (links d.2)).*2)
                       <$> map_to_list (dataverses s))).
Definition list_all_udf_objs : MC (list udf) :=
  gets (λ s, concat ((λ d : pystr * dataverse, (map_to_list (udfs d.2)).*2) <$> map_to_list (dataverses s))).
End Util.

(** ** [run_jobs_in_parallel] *)

(** A worker is at the test of its loop, has seen that the queue is not empty, runs a job, or has ended. *)
Inductive worker (J : Type) := Testing | Taking | Working (j : J) | Ended.
Arguments Testing {J}. Arguments Taking {J}. Arguments Working {J}. Arguments Ended {J}.
Record pool (J R : Type) := Pool { queue : list J; workers : list (worker J); results : list R; unfinished : Z }.
Arguments Pool {J R}. Arguments queue {J R}. Arguments workers {J R}. Arguments results {J R}. Arguments unfinished {J R}.

Section Jobs.
Context {J R : Type} (run : J → res R) (failed : R).
(** What a job adds to the results: [False] when it raises. *)
Definition outcome (j : J) : R := match run j with Ok r => r | Err _ => failed end.
Definition start_jobs (jobs : list J) (thread_count : Z) : pool J R :=
  let n := if len jobs <? thread_count then len jobs else thread_count in
  Pool jobs (replicate (Z.to_nat n) Testing) [] (len jobs).
(** [jobs.empty()], [jobs.get()], and the job with [task_done]. *)
Inductive job_step (p : pool J R) : pool J R → Prop :=
  | see_jobs i : workers p !! i = Some Testing → queue p ≠ [] →
      job_step p (Pool (queue p) (<[i := Taking]> (workers p)) (results p) (unfinished p))
  | see_none i : workers p !! i = Some Testing → queue p = [] →
      job_step p (Pool (queue p) (<[i := Ended]> (workers p)) (results p) (unfinished p))
  | take_job i j q : workers p !! i = Some Taking → queue p = j :: q →
      job_step p (Pool q (<[i := Working j]> (workers p)) (results p) (unfinished p))
  | end_job i j : workers p !! i = Some (Working j) →
      job_step p (Pool (queue p) (<[i := Testing]> (workers p)) (results p ++ [outcome j]) (unfinished p - 1)).
(** [jobs.join()] returns. *)
Definition joined (p : pool J R) : Prop := unfinished p = 0.
(** A worker that waits for ever. *)
Definition stuck (p : pool J R) (i : nat) : Prop := workers p !! i = Some Taking ∧ queue p = [].
End Jobs.

(** ** Proofs: names *)

Lemma rev_reverse (s : pystr) : rev s = reverse s.
Proof. apply rev_alt. Qed.
Lemma lstrip_suffix p s : ∃ l, s = l ++ lstrip_by p s ∧ Forall (λ c, p c = true) l.
Proof.
  induction s as [|c s (l & Hs & Hl)]; [by exists []|]. cbn [lstrip_by]. destruct (p c) eqn:E; [|by exists []].
  exists (c :: l). split; [by rewrite Hs at 1|by constructor].
Qed.
Lemma lstrip_head p s : ∀ c, head (lstrip_by p s) = Some c → p c = false.
Proof. induction s as [|x s IH]; [done|]. cbn [lstrip_by]. destruct (p x) eqn:E; [done|]. cbn. by intros c [= <-]. Qed.
Lemma lstrip_id p s : (∀ c, head s = Some c → p c = false) → lstrip_by p s = s.
Proof. destruct s as [|c s]; [done|]. intros H. cbn. by rewrite (H c eq_refl). Qed.
Lemma rstrip_prefix p s : ∃ l, s = rstrip_by p s ++ l ∧ Forall (λ c, p c = true) l.
Proof.
  destruct (lstrip_suffix p (rev s)) as (l & Hs & Hl). exists (rev l). unfold rstrip_by. split.
  - rewrite <- rev_app_distr, <- Hs. by rewrite rev_involutive.
  - apply Forall_forall. intros c Hc. apply list_elem_of_In, in_rev, list_elem_of_In in Hc. by apply (proj1 (Forall_forall _ _) Hl).
Qed.
Lemma rstrip_id p s : (∀ c, last s = Some c → p c = false) → rstrip_by p s = s.
Proof.
  intros H. unfold rstrip_by. rewrite lstrip_id; [apply rev_involutive|]. intros c Hc. apply H. by rewrite rev_reverse, head_reverse in Hc.
Qed.
Lemma rstrip_last p s : ∀ c, last (rstrip_by p s) = Some c → p c = false.
Proof. intros c. unfold rstrip_by. rewrite rev_reverse, last_reverse. apply lstrip_head. Qed.

(** No tick at either end. *)
Definition stripped (p : pystr) : Prop := (∀ c, head p = Some c → is_tick c = false) ∧ (∀ c, last p = Some c → is_tick c = false).
Lemma strip_stripped s : stripped (strip_ticks s).
Proof.
  unfold strip_ticks. split; [|apply rstrip_last]. intros c Hc. destruct (rstrip_prefix is_tick (lstrip_by is_tick s)) as (l & Hl & _).
  destruct (rstrip_by is_tick (lstrip_by is_tick s)) as [|x y] eqn:E; [done|]. injection Hc as ->.
  apply (lstrip_head is_tick s). by rewrite Hl.
Qed.
Lemma strip_id p : stripped p → strip_ticks p = p.
Proof. intros [H1 H2]. unfold strip_ticks. by rewrite lstrip_id, rstrip_id by done. Qed.
Lemma strip_quoted p : p ≠ [] → stripped p → strip_ticks (tick :: p ++ [tick]) = p.
Proof.
  intros Hne [H1 H2]. unfold strip_ticks. change (lstrip_by is_tick (tick :: p ++ [tick])) with (lstrip_by is_tick (p ++ [tick])).
  rewrite lstrip_id by (destruct p; [done|exact H1]). unfold rstrip_by. rewrite rev_app_distr. cbn [rev app].
  change (lstrip_by is_tick (tick :: rev p)) with (lstrip_by is_tick (rev p)). rewrite lstrip_id; [apply rev_involutive|].
  intros c Hc. apply H2. by rewrite rev_reverse, head_reverse in Hc.
Qed.
Lemma strip_remove s : remove_ticks (strip_ticks s) = remove_ticks s.
Proof.
  assert (∀ l, Forall (λ c, is_tick c = true) l → remove_ticks l = []) as H0.
  { induction 1 as [|c l Hc _ IH]; [done|]. apply bool_decide_eq_true in Hc as ->. unfold remove_ticks. by rewrite filter_cons_False by naive_solver. }
  unfold strip_ticks. destruct (lstrip_suffix is_tick s) as (l & Hs & Hl). destruct (rstrip_prefix is_tick (lstrip_by is_tick s)) as (l' & Hs' & Hl').
  rewrite Hs at 2. unfold remove_ticks in *. rewrite filter_app, (H0 l Hl). cbn [app]. rewrite Hs' at 2. by rewrite filter_app, (H0 l' Hl'), app_nil_r.
Qed.

Lemma split_on_parts c s : Forall (λ w, c ∉ w) (split_on c s).
Proof.
  induction s as [|a s IH]; cbn [split_on]; [constructor; [apply not_elem_of_nil|done]|]. case_bool_decide as E.
  - constructor; [apply not_elem_of_nil|done].
  - destruct (split_on c s) as [|w ws]; [constructor; [set_solver|done]|]. apply Forall_cons in IH as [? ?]. constructor; [set_solver|done].
Qed.
Lemma strip_subset s c : c ∈ strip_ticks s → c ∈ s.
Proof.
  unfold strip_ticks. destruct (lstrip_suffix is_tick s) as (l & Hs & _). destruct (rstrip_prefix is_tick (lstrip_by is_tick s)) as (l' & Hs' & _).
  intros H. rewrite Hs, Hs'. set_solver.
Qed.
Lemma format_part_ok p x : format_part p = Ok x → dot ∉ p →
  format_part x = Ok x ∧ dot ∉ x ∧ x ≠ [] ∧ remove_ticks x = remove_ticks p.
Proof.
  unfold format_part. case_bool_decide as E; [done|]. intros [= <-] Hdot. pose proof (strip_stripped p) as Hst. set (q := strip_ticks p) in *.
  assert (dot ∉ q) as Hq by (intros H; apply Hdot, strip_subset, H).
  assert (remove_ticks q = remove_ticks p) as Hr by apply strip_remove.
  destruct (needs_ticks q) eqn:En.
  - rewrite (strip_quoted q E Hst), bool_decide_eq_false_2, En by done. split_and!; [done| |done|].
    + intros H. rewrite elem_of_cons, elem_of_app, list_elem_of_singleton in H. destruct H as [?|[?|?]]; [done|done|done].
    + rewrite <- Hr. unfold remove_ticks. rewrite filter_cons_False by naive_solver. rewrite filter_app. rewrite (filter_cons_False _ tick []) by naive_solver.
      by rewrite filter_nil, app_nil_r.
  - rewrite (strip_id q Hst), bool_decide_eq_false_2, En by done. done.
Qed.
Lemma format_parts_ok l l' : format_parts l = Ok l' → Forall (λ w, dot ∉ w) l →
  format_parts l' = Ok l' ∧ Forall (λ w, dot ∉ w ∧ w ≠ []) l' ∧ remove_ticks <$> l' = remove_ticks <$> l ∧ length l' = length l.
Proof.
  revert l'. induction l as [|p l IH]; intros l' H Hd; cbn [format_parts] in H; [injection H as <-; by repeat constructor|].
  apply res_bind_inv in H as (x & Hx & H). apply res_bind_inv in H as (l1 & Hl & H). injection H as <-. apply Forall_cons in Hd as [Hp Hd].
  destruct (format_part_ok p x Hx Hp) as (H1 & H2 & H3 & H4). destruct (IH l1 Hl Hd) as (H5 & H6 & H7 & H8).
  split_and!; [|by constructor| |cbn; lia].
  - cbn [format_parts]. rewrite H1. cbn [mbind res_bind]. by rewrite H5.
  - cbn. by rewrite H4, H7.
Qed.
Lemma format_parts_app l1 l2 r1 r2 : format_parts l1 = Ok r1 → format_parts l2 = Ok r2 → format_parts (l1 ++ l2) = Ok (r1 ++ r2).
Proof.
  revert r1. induction l1 as [|p l1 IH]; intros r1 H1 H2; cbn [format_parts app] in *; [by injection H1 as <-|].
  apply res_bind_inv in H1 as (x & Hx & H1). apply res_bind_inv in H1 as (l & Hl & H1). injection H1 as <-. rewrite Hx. cbn [mbind res_bind].
  by rewrite (IH l Hl H2).
Qed.
Lemma join_app_dot a b : a ≠ [] → b ≠ [] → join [dot] (a ++ b) = join [dot] a ++ dot :: join [dot] b.
Proof.
  intros Ha Hb. induction a as [|x a IH]; [done|]. destruct a as [|y a].
  - cbn. by destruct b.
  - change (join [dot] ((x :: y :: a) ++ b)) with (x ++ [dot] ++ join [dot] ((y :: a) ++ b)). rewrite IH by done.
    change (join [dot] (x :: y :: a)) with (x ++ [dot] ++ join [dot] (y :: a)). by rewrite <- !app_assoc.
Qed.
(** A formatted name and its parts. *)
Lemma format_name_parts n m : n ≠ [] → format_name [Some n] = Ok m →
  ∃ ps, format_parts (split_on dot n) = Ok ps ∧ m = join [dot] ps ∧ split_on dot m = ps ∧ ps ≠ [] ∧ m ≠ [] ∧ format_parts ps = Ok ps ∧
    remove_ticks <$> ps = remove_ticks <$> split_on dot n.
Proof.
  intros Hn H. unfold format_name in H. cbn [fmap list_fmap parts_of concat] in H. rewrite bool_decide_eq_false_2, app_nil_r in H by done.
  apply res_bind_inv in H as (ps & Hps & H). injection H as <-. destruct (format_parts_ok _ _ Hps (split_on_parts dot n)) as (H1 & H2 & H3 & H4).
  assert (ps ≠ []) as Hne by (intros ->; cbn in H4; pose proof (split_on_not_nil dot n); by destruct (split_on dot n)).
  exists ps. split_and!; [done|done| |done| |done|done].
  - apply split_on_join; [done|]. eapply Forall_impl; [exact H2|]. naive_solver.
  - destruct ps as [|x ps]; [done|]. apply Forall_cons in H2 as [[_ Hx] _]. destruct x; [done|]. by destruct ps.
Qed.

(** ** Proofs: workers *)

Section JobProofs.
Context {J R : Type} (run : J → res R) (failed : R).
Abbreviation out := (outcome run failed).

Definition running (ws : list (worker J)) : list J := omap (λ w, match w with Working j => Some j | _ => None end) ws.
Definition weight (w : worker J) : nat := match w with Testing => 2 | Taking => 1 | Working _ => 3 | Ended => 0 end.
Definition weights (ws : list (worker J)) : nat := sum_list (weight <$> ws).
Definition measure (p : pool J R) : nat := 3 * length (queue p) + weights (workers p).

Lemma weights_insert i w w' (ws : list (worker J)) : ws !! i = Some w → (weights (<[i := w']> ws) + weight w = weights ws + weight w')%nat.
Proof.
  unfold weights. revert i. induction ws as [|x ws IH]; intros [|i] Hi; [done|done| |]; cbn [insert list_insert fmap list_fmap sum_list].
  - injection Hi as ->. unfold id. lia.
  - specialize (IH i Hi). unfold id, insert in *. lia.
Qed.
Lemma running_insert i w w' (ws : list (worker J)) : ws !! i = Some w →
  running [w'] ++ running ws ≡ₚ running [w] ++ running (<[i := w']> ws).
Proof.
  revert i. induction ws as [|x ws IH]; intros [|i] Hi; [done|done| |].
  - cbn in Hi. injection Hi as ->. cbn [insert list_insert]. change (running (w :: ws)) with (running ([w] ++ ws)).
    change (running (w' :: ws)) with (running ([w'] ++ ws)). unfold running. rewrite !omap_app. rewrite !app_assoc. apply Permutation_app_tail, Permutation_app_comm.
  - cbn in Hi. cbn [insert list_insert]. change (running (x :: ws)) with (running ([x] ++ ws)). change (running (x :: <[i:=w']> ws)) with (running ([x] ++ <[i:=w']> ws)).
    specialize (IH i Hi). unfold running in *. rewrite !omap_app. rewrite (Permutation_app_swap_app (omap _ [w'])), (Permutation_app_swap_app (omap _ [w])). by rewrite IH.
Qed.

Lemma measure_step p p' : job_step run failed p p' → (measure p' < measure p)%nat.
Proof.
  intros H. unfold measure. destruct H as [i Hi _|i Hi Hq|i j q Hi Hq|i j Hi]; cbn [queue workers].
  - pose proof (weights_insert i _ Taking _ Hi). cbn in *. lia.
  - pose proof (weights_insert i _ Ended _ Hi). cbn in *. lia.
  - pose proof (weights_insert i _ (Working j) _ Hi). rewrite Hq. cbn in *. lia.
  - pose proof (weights_insert i _ Testing _ Hi). cbn in *. lia.
Qed.

Definition pool_ok (jobs : list J) (n : nat) (p : pool J R) : Prop :=
  length (workers p) = n ∧ (∀ i, workers p !! i = Some Ended → queue p = []) ∧ unfinished p = len (running (workers p) ++ queue p) ∧
  ∃ done, results p = out <$> done ∧ done ++ running (workers p) ++ queue p ≡ₚ jobs.
Lemma pool_ok_step jobs n p p' : pool_ok jobs n p → job_step run failed p p' → pool_ok jobs n p'.
Proof.
  intros (Hn & He & Hu & done & Hr & Hp) H. unfold pool_ok.
  destruct H as [i Hi Hq|i Hi Hq|i j q Hi Hq|i j Hi]; cbn [queue workers results unfinished]; rewrite length_insert; (split; [done|]).
  - pose proof (running_insert i _ Taking _ Hi) as Hw. cbn in Hw. split_and!.
    + intros k Hk. destruct (decide (i = k)) as [->|]; [|rewrite list_lookup_insert_ne in Hk by done; by eapply He].
      rewrite list_lookup_insert_eq in Hk by (by eapply lookup_lt_Some). done.
    + rewrite Hu. unfold len. by rewrite !length_app, Hw.
    + exists done. split; [done|]. by rewrite <- Hw.
  - pose proof (running_insert i _ Ended _ Hi) as Hw. cbn in Hw. split_and!; [done| |].
    + rewrite Hu. unfold len. by rewrite !length_app, Hw.
    + exists done. split; [done|]. by rewrite <- Hw.
  - pose proof (running_insert i _ (Working j) _ Hi) as Hw. cbn in Hw. rewrite Hq in *. split_and!.
    + intros k Hk. destruct (decide (i = k)) as [->|].
      * rewrite list_lookup_insert_eq in Hk by (by eapply lookup_lt_Some). done.
      * rewrite list_lookup_insert_ne in Hk by done. by apply He in Hk.
    + rewrite Hu. unfold len. rewrite !length_app, <- Hw. cbn. lia.
    + exists done. split; [done|]. rewrite <- Hp, <- Hw. cbn. apply Permutation_app_head. by rewrite Permutation_middle.
  - pose proof (running_insert i _ Testing _ Hi) as Hw. cbn in Hw. split_and!.
    + intros k Hk. destruct (decide (i = k)) as [->|].
      * rewrite list_lookup_insert_eq in Hk by (by eapply lookup_lt_Some). done.
      * rewrite list_lookup_insert_ne in Hk by done. by eapply He.
    + rewrite Hu. unfold len. rewrite !length_app, Hw. cbn. lia.
    + exists (done ++ [j]). split; [rewrite Hr, fmap_app; done|]. rewrite <- Hp, Hw, <- app_assoc. done.
Qed.
Lemma pool_ok_steps jobs n p p' : rtc (job_step run failed) p p' → pool_ok jobs n p → pool_ok jobs n p'.
Proof. induction 1 as [|p1 p2 p3 Hs _ IH]; [done|]. intros H0. by apply IH, (pool_ok_step jobs n p1). Qed.
Lemma measure_steps n p p' : nsteps (job_step run failed) n p p' → (n + measure p' ≤ measure p)%nat.
Proof. induction 1 as [|n p1 p2 p3 Hs _ IH]; [lia|]. pose proof (measure_step _ _ Hs). lia. Qed.
Lemma measure_start jobs t : measure (start_jobs jobs t) = (3 * length jobs + 2 * length (workers (start_jobs (R := R) jobs t)))%nat.
Proof.
  unfold measure, start_jobs. cbn [queue workers]. generalize (Z.to_nat (if len jobs <? t then len jobs else t)). intros k.
  rewrite length_replicate. f_equal. unfold weights. induction k as [|k IH]; [done|].
  cbn [replicate fmap list_fmap sum_list weight] in *. rewrite IH. unfold id. lia.
Qed.
Lemma workers_start (jobs : list J) t : 0 < t → jobs ≠ [] → (0 < length (workers (start_jobs (R := R) jobs t)))%nat.
Proof.
  intros Ht Hne. unfold start_jobs. cbn [workers]. rewrite length_replicate. unfold len. destruct jobs; [done|]. cbn [length].
  destruct (Z.ltb_spec (Z.of_nat (S (length jobs))) t); lia.
Qed.
(** A job that is not finished moves. *)
Lemma pool_moves jobs n p : (jobs ≠ [] → (0 < n)%nat) → pool_ok jobs n p → unfinished p ≠ 0 → ∃ p', job_step run failed p p'.
Proof.
  intros Hn0 (Hl & He & Hu & done & _ & Hp) Hj. destruct (running (workers p)) as [|j l] eqn:E.
  - destruct (queue p) as [|j q] eqn:Eq; [by destruct Hj; rewrite Hu|].
    assert (0 < n)%nat by (apply Hn0; intros ->; symmetry in Hp; apply Permutation_nil, app_eq_nil in Hp as [_ ?]; done).
    destruct (lookup_lt_is_Some_2 (workers p) 0) as [w Hw]; [lia|]. destruct w as [| |j'|].
    + eexists. apply (see_jobs run failed p 0); [done|by rewrite Eq].
    + eexists. by apply (take_job run failed p 0 j q).
    + eexists. by apply (end_job run failed p 0 j').
    + by specialize (He 0%nat Hw).
  - assert (j ∈ running (workers p)) as Hin by (rewrite E; by left). unfold running in Hin. apply list_elem_of_omap in Hin as (x & Hx & Hxj).
    destruct x; try done. injection Hxj as ->. apply list_elem_of_lookup in Hx as [i Hi]. eexists. by apply (end_job run failed p i j).
Qed.
Lemma pool_joined jobs n p : pool_ok jobs n p → unfinished p = 0 → results p ≡ₚ out <$> jobs ∧ queue p = [].
Proof.
  intros (_ & _ & Hu & done & Hr & Hperm) Hj. rewrite Hu in Hj. unfold len in Hj. destruct (running (workers p) ++ queue p) as [|x l] eqn:E; [|cbn in Hj; lia].
  apply app_nil in E as [E1 E2]. rewrite app_nil_r in Hperm. split; [by rewrite Hr, Hperm|done].
Qed.
Lemma pool_ok_start jobs t : pool_ok jobs (length (workers (start_jobs (R := R) jobs t))) (start_jobs jobs t).
Proof.
  unfold pool_ok, start_jobs. cbn [queue workers results unfinished]. set (n := Z.to_nat _).
  assert (running (replicate n Testing) = []) as Hr by (induction n; cbn; done).
  split_and!; [done| |by rewrite Hr|].
  - intros i Hi. by apply lookup_replicate in Hi as [? _].
  - exists []. by rewrite Hr.
Qed.
End JobProofs.

(** ** Properties *)


(** Dataverses.  As long as they are created and dropped under formatted names, the dictionary of dataverse objects follows what the cluster accepts, and a dataverse that is created
    again keeps its object.  Under another spelling, creating it again replaces the object, and with it everything recorded in the dataverse, by an empty one, and dropping it leaves the object. *)
Theorem dataverses_kept {W : Type} (execute : pystr → W → res (pystr * list (pystr * Z)) * W) (name n : pystr) (b1 b2 : bool) (dvs : gmap pystr dataverse) (w w1 : W) (errors : list (pystr * Z)) :
  format_name [Some name] = Ok n →
  (∀ k d, dvs !! k = Some d → dv_name d = k) → (name ≠ n → dvs !! name = None) →
  (∀ cmd, execute cmd w = (Ok (py "success", errors), w1)) →
  create_dataverse execute name None b1 b2 (Cbas dvs w) =
    (Ok true, Cbas (if bool_decide (name = n ∧ is_Some (dvs !! n)) then dvs else <[n := Dataverse n ∅ ∅ ∅ ∅]> dvs) w1) ∧
  drop_dataverse execute name None b1 b2 true false (Cbas dvs w) = (Ok true, Cbas (if bool_decide (name = n) then delete n dvs else dvs) w1).
Proof.
  intros Hn Hk Hnew He. split.
  - unfold create_dataverse. rewrite (bind_Ok (lift _) _ _ (Dataverse n ∅ ∅ ∅ ∅) (Cbas dvs w)) by (unfold lift, new_dataverse; by rewrite Hn).
    rewrite (bind_Ok _ _ _ (py "success", errors) (Cbas dvs w1)) by (unfold on_cw; cbn [cw dataverses]; by rewrite He).
    cbv beta iota. rewrite bool_decide_eq_true_2 by done. rewrite (bind_Ok (get_dataverse_obj _) _ _ _ _ eq_refl). cbn [dataverses].
    destruct (decide (name = n)) as [->|Hne].
    + destruct (dvs !! n) as [d|] eqn:E.
      * rewrite bool_decide_eq_true_2 by eauto. done.
      * rewrite bool_decide_eq_false_2 by (intros [_ [? ?]]; done). done.
    + rewrite (Hnew Hne), bool_decide_eq_false_2 by naive_solver. done.
  - unfold drop_dataverse. rewrite (bind_Ok (mret true) _ _ true _ eq_refl). cbv beta iota.
    rewrite (bind_Ok _ _ _ (py "success", errors) (Cbas dvs w1)) by (unfold on_cw; cbn [cw dataverses]; by rewrite He).
    cbv beta iota. rewrite (bool_decide_eq_true_2 (py "success" = py "success")) by done.
    rewrite (bind_Ok _ _ _ tt (Cbas (if bool_decide (name = n) then delete n dvs else dvs) w1)); [done|].
    rewrite (bind_Ok (get_dataverse_obj _) _ _ _ _ eq_refl). cbn [dataverses]. destruct (decide (name = n)) as [->|Hne].
    + rewrite bool_decide_eq_true_2 by done. destruct (dvs !! n) as [d|] eqn:E; [by rewrite <- (Hk n d E)|]. by rewrite delete_id.
    + by rewrite (Hnew Hne), bool_decide_eq_false_2.
Qed.

Lemma get_synonym_run {W} (query : pystr → W → res (option pystr) * W) name dv e ed dvs (w : W) :
  get_synonym_obj query name (Some dv) e ed (Cbas dvs w) =
    (d ← of_option AttributeError (dvs !! dv); Ok (synonyms d !! name), Cbas dvs w).
Proof. unfold get_synonym_obj, find_dataverse. rewrite (bind_Ok (mret (Some dv)) _ _ _ _ eq_refl), (bind_Ok (get_dataverse_obj _) _ _ _ _ eq_refl). cbn. by destruct (dvs !! dv). Qed.

(** Resolving a synonym.  If synonyms only refer to synonyms of lower rank, as when each is created on an entity that was there before, it ends, at a synonym of a dataset or with
    [AttributeError]; on a cycle of synonyms it never does. *)
Theorem synonyms_resolved {W : Type} (query : pystr → W → res (option pystr) * W) (dvs : gmap pystr dataverse) (w : W) :
  (∀ rank : pystr → pystr → nat,
     (∀ dv d name s, dvs !! dv = Some d → synonyms d !! name = Some s → synonym_on_synonym s = true →
        sy_entity_dataverse s ≠ [] ∧ (rank (sy_entity_dataverse s) (sy_entity s) < rank dv name)%nat) →
     ∀ (fuel : nat) (dv name : pystr) (e ed : option pystr), (rank dv name < fuel)%nat →
       ∃ r, resolve query fuel name (Some dv) e ed (Cbas dvs w) = (r, Cbas dvs w) ∧
         (r = raise AttributeError ∨ ∃ s dv' d k, r = Ok s ∧ synonym_on_synonym s = false ∧ dvs !! dv' = Some d ∧ synonyms d !! k = Some s)) ∧
  (∀ P : pystr → pystr → Prop,
     (∀ dv name, P dv name → ∃ d s, dvs !! dv = Some d ∧ synonyms d !! name = Some s ∧ synonym_on_synonym s = true ∧
        sy_entity_dataverse s ≠ [] ∧ P (sy_entity_dataverse s) (sy_entity s)) →
     ∀ (fuel : nat) (dv name : pystr) (e ed : option pystr), P dv name → (resolve query fuel name (Some dv) e ed (Cbas dvs w)).1 = raise RuntimeError).
Proof.
  split.
  - intros rank Hrank fuel. induction fuel as [|fuel IH]; intros dv name e ed Hf; [lia|]. cbn [resolve].
    unfold mbind at 1, M_bind at 1. rewrite get_synonym_run. destruct (dvs !! dv) as [d|] eqn:Ed; [|eexists; split; [done|by left]].
    cbn [of_option mbind res_bind]. destruct (synonyms d !! name) as [s|] eqn:Es; [|eexists; split; [done|by left]].
    rewrite (bind_Ok (lift _) _ _ s _ eq_refl). destruct (synonym_on_synonym s) eqn:Eo.
    + destruct (Hrank dv d name s Ed Es Eo) as [Hne Hlt]. unfold given. rewrite bool_decide_eq_false_2 by done. apply IH. lia.
    + exists (Ok s). split; [done|]. right. by exists s, dv, d, name.
  - intros P HP fuel. induction fuel as [|fuel IH]; intros dv name e ed H; [done|]. cbn [resolve].
    destruct (HP dv name H) as (d & s & Ed & Es & Eo & Hne & Hn). unfold mbind at 1, M_bind at 1. rewrite get_synonym_run, Ed.
    cbn [of_option mbind res_bind]. rewrite Es, (bind_Ok (lift _) _ _ s _ eq_refl), Eo. unfold given. rewrite bool_decide_eq_false_2 by done. by apply IH.
Qed.


(** [generate_name].  A name that it returns has no reserved word among its parts; for a cardinality other than 1 and 2 it returns nothing; and
    with a name key that is reserved, or a seed whose name is, it tries the same name until the recursion fails. *)
Theorem names_generated (words : Z → list pystr) (clock : nat → Z) (name_cardinality : Z) (name_key : pystr) (seed : Z) (fuel : nat) :
  (∀ (attempt : nat) (n : pystr), generate_name words clock name_cardinality name_key seed fuel attempt = Ok (Some n) → is_reserved n = false) ∧
  (¬ 1 ≤ name_cardinality ≤ 2 → generate_name words clock name_cardinality name_key seed fuel 0 = Ok None) ∧
  (1 ≤ name_cardinality ≤ 2 → name_key ≠ [] ∨ seed ≠ 0 → is_reserved (candidate words clock name_cardinality name_key seed 0) = true →
     generate_name words clock name_cardinality name_key seed fuel 0 = raise RuntimeError).
Proof.
  split_and!.
  - induction fuel as [|fuel IH]; intros attempt n; cbn [generate_name]; (destruct (_ && _); [|done]);
      (destruct (is_reserved _) eqn:E; [|by intros [= <-]]); [done|apply IH].
  - intros Hc. destruct fuel; cbn [generate_name]; by replace ((0 <? name_cardinality) && (name_cardinality <? 3)) with false by lia.
  - intros Hc Hs Hr. assert (∀ a, candidate words clock name_cardinality name_key seed a = candidate words clock name_cardinality name_key seed 0) as Hsame.
    { intros a. unfold candidate. case_bool_decide; [|done]. destruct Hs as [?|Hs]; [done|]. by rewrite (proj2 (Z.eqb_neq _ _) Hs). }
    assert (∀ a, generate_name words clock name_cardinality name_key seed fuel a = raise RuntimeError) as H; [|apply H].
    induction fuel as [|fuel IH]; intros a; cbn [generate_name]; replace ((0 <? name_cardinality) && (name_cardinality <? 3)) with true by lia;
      rewrite Hsame, Hr; [done|apply IH].
Qed.

(** ** Examples *)


Definition demo_execute (cmd : pystr) (w : Z) : res (pystr * list (pystr * Z)) * Z := (Ok (py "success", []), w + 1).
Definition demo_dataverse : dataverse := Dataverse (py "`a-b`") ∅ ∅ ∅ {[py "f" := Udf (py "f") (py "`a-b`") (py "`a-b`.f") [] 0 (py "1") [] [] []]}.
Lemma dataverses_kept_witness :
  (create_dataverse demo_execute (py "a-b") None true false (Cbas {[py "`a-b`" := demo_dataverse]} 0)).2 =
    Cbas {[py "`a-b`" := Dataverse (py "`a-b`") ∅ ∅ ∅ ∅]} 1.
Proof.
  destruct (dataverses_kept demo_execute (py "a-b") (py "`a-b`") true false {[py "`a-b`" := demo_dataverse]} 0 1 []
              ltac:(vm_compute; reflexivity)) as [H _].
  - intros k d [<- <-]%lookup_singleton_Some. done.
  - intros _. apply lookup_singleton_ne. discriminate.
  - done.
  - rewrite H. rewrite bool_decide_eq_false_2 by (intros [? _]; discriminate). cbn [snd]. by rewrite insert_singleton_eq.
Defined.

Definition demo_synonym (e : string) (b : bool) : synonym := Synonym (py "s") (py e) (py "dv") (py "dv") (py "dv.s") (py "dv." ++ py e) b.
Definition demo_synonyms : gmap pystr dataverse :=
  {[py "dv" := Dataverse (py "dv") ∅ ∅ {[py "s1" := demo_synonym "d" false; py "s2" := demo_synonym "s1" true; py "loop" := demo_synonym "loop" true]} ∅]}.
(** A synonym of a synonym is followed to the dataset; a synonym of itself is followed for ever. *)
Example synonyms_example :
  let look name := (resolve (λ _ (w : Z), (Ok None, w)) 5 (py name) (Some (py "dv")) None None (Cbas demo_synonyms 0)).1 in
  look "s2" = Ok (demo_synonym "d" false) ∧ look "loop" = raise RuntimeError.
Proof. vm_compute. done. Qed.
