(* ===== verification/SpecTasks.v ===== *)
(** * Scope and collection operations from a specification

    [BucketUtils.perform_tasks_from_spec] (couchbase_utils/bucket_utils/bucket_ready_functions.py): it drops, creates and recreates scopes and
    collections of several buckets, chosen at random, with the operations of Bucket.v and the selections of BucketSelect.v,
    and returns what it has done.  Operations on collections run on a pool of threads; here a pool runs its jobs one after the other, in an
    order that is an argument.  The random choices are an argument too, one for each call.  In the dictionary that is returned, the collections of a
    scope may be one object under two keys, so they live in a store. *)

From S2P Require Import Prelude Py Bucket BucketSelect.
Local Open Scope string_scope.
Local Open Scope list_scope.
Local Open Scope Z_scope.
#[local] Arguments py : simpl never.

(** ** [ops_details] *)

Inductive dkey := ScopesAdded | ScopesDropped | CollectionsAdded | CollectionsDropped | CollectionsFlushed.
#[global] Instance dkey_eq_dec : EqDecision dkey.
Proof. solve_decision. Defined.
(** For each key, the scopes of each bucket with a reference to the dictionary of their collections. *)
Record details := Details { tables : dkey → gmap pystr (gmap pystr nat); cells : list (gset pystr) }.
Definition no_details : details := Details (λ _, ∅) [].
Definition set_table (k : dkey) (t : gmap pystr (gmap pystr nat)) (d : details) : details :=
  Details (λ k', if decide (k' = k) then t else tables d k') (cells d).
Definition add_names (r : nat) (names : gset pystr) (d : details) : details :=
  Details (tables d) (alter (λ cs, names ∪ cs) r (cells d)).
Definition new_cell (names : gset pystr) (d : details) : nat * details :=
  (length (cells d), Details (tables d) (cells d ++ [names])).
Definition set_ref (k : dkey) (b sc : pystr) (r : nat) (d : details) : details :=
  set_table k (<[b := <[sc := r]> (default ∅ (tables d k !! b))]> (tables d k)) d.
(** [if bucket_name not in dict_to_update: ...] *)
Definition open_bucket (k : dkey) (b : pystr) (d : details) : details :=
  match tables d k !! b with Some _ => d | None => set_table k (<[b := ∅]> (tables d k)) d end.
Definition open_scope (k : dkey) (b sc : pystr) (d : details) : nat * details :=
  match tables d k !! b ≫= (.!! sc) with
  | Some r => (r, d)
  | None => let '(r, d) := new_cell ∅ d in (r, set_ref k b sc r d)
  end.

(** ** The system *)

(** The bucket objects with their buckets on the cluster, the dictionary, the counters of the class [Bucket] for names, and how many
    random choices and pools there have been. *)
Record sys (W : Type) := Sys { bks : list (bucket * W); det : details; scope_counter : Counter; collection_counter : Counter; ticks : nat }.
Arguments Sys {W}. Arguments bks {W}. Arguments det {W}. Arguments scope_counter {W}. Arguments collection_counter {W}. Arguments ticks {W}.
(** A job of a thread: the bucket and what to do there. *)
Abbreviation job := (pystr * change)%type.

(** What the specification asks for; the entries that are missing are [None]. *)
Record crud_spec := CrudSpec {
  collections_to_drop : option req; scopes_considered_for_ops : option req; bucket_considered_for_ops : option req;
  scopes_to_drop : option req; scopes_to_add_per_bucket : option Z; collections_to_add_for_new_scopes : option Z;
  collections_to_add_per_bucket : option Z; scopes_to_recreate : option req; collections_to_recreate : option req
}.

Section Tasks.
Context {W : Type} `{HM : Manifest W}.
Context (random : nat → list pystr → Z → res (list pystr)) (schedule : nat → list job → list job).
Abbreviation MS := (M (sys W)).

Definition objs (s : sys W) : list bucket := (bks s).*1.
Definition on_det (f : details → details) : MS unit :=
  modify (λ s, Sys (bks s) (f (det s)) (scope_counter s) (collection_counter s) (ticks s)).
Definition tick : MS nat := λ s, (Ok (ticks s), Sys (bks s) (det s) (scope_counter s) (collection_counter s) (S (ticks s))).
(** [get_random_name] with a prefix and a counter *)
Definition scope_name : MS pystr := λ s,
  let '(n, c) := counter_name (py "scope") (scope_counter s) in (Ok n, Sys (bks s) (det s) c (collection_counter s) (ticks s)).
Definition collection_name : MS pystr := λ s,
  let '(n, c) := counter_name (py "collection") (collection_counter s) in (Ok n, Sys (bks s) (det s) (scope_counter s) c (ticks s)).
(** [get_bucket_obj]; an attribute of [None] is read when there is none. *)
Definition bucket_obj (n : pystr) : MS bucket := s ← get; lift (of_option AttributeError (get_bucket_obj (objs s) n)).
(** An operation on the bucket that [get_bucket_obj] finds *)
Fixpoint on_first {A} (n : pystr) (m : M (world W) A) (l : list (bucket * W)) : res A * list (bucket * W) :=
  match l with
  | [] => (raise AttributeError, [])
  | (b, w) :: l =>
      if bool_decide (b_name b = n) then let '(r, x) := m (World b w []) in (r, (bk x, srv x) :: l)
      else let '(r, l) := on_first n m l in (r, (b, w) :: l)
  end.
Definition on_bucket {A} (n : pystr) (m : M (world W) A) : MS A := λ s,
  let '(r, l) := on_first n m (bks s) in (r, Sys l (det s) (scope_counter s) (collection_counter s) (ticks s)).

(** ** Threads *)

Definition run_job (j : job) : MS unit := on_bucket j.1 (perform j.2).
Fixpoint run_jobs (js : list job) : MS (list (option pyexn)) :=
  match js with
  | [] => mret []
  | j :: js => o ← try_except (_ ← run_job j; mret None) (λ e, mret (Some e)); os ← run_jobs js; mret (o :: os)
  end.
(** The jobs that were submitted, and the exception that ended their submission, if any.  All jobs are run before the block is left. *)
Definition pool (js : list job) (submission : option pyexn) : MS unit :=
  n ← tick;
  os ← run_jobs (schedule n js);
  match submission with
  | Some e => lift (Err e)
  | None => match omap id os with e :: _ => lift (Err e) | [] => mret tt end
  end.

(** ** [update_ops_details_dict] *)

Definition record_scope (k : dkey) (fetch : bool) (b sc : pystr) (cols : gset pystr) : MS unit :=
  s ← get;
  let '(r, d) := open_scope k b sc (det s) in
  _ ← on_det (λ _, d);
  cols ← (if fetch then o ← bucket_obj b; x ← lift (dict_get (scopes o) sc); mret (dom (collections x)) else mret cols);
  on_det (add_names r cols).
Definition update_ops_details_dict (k : dkey) (sel : selection) (fetch : bool) : MS unit :=
  mfor (map_to_list sel) (λ b : pystr * gmap pystr (gset pystr),
    _ ← on_det (open_bucket k b.1);
    mfor (map_to_list b.2) (λ sc : pystr * gset pystr, record_scope k fetch b.1 sc.1 sc.2)).

(** ** [perform_scope_operation] *)

(** The pairs and triples of a selection *)
Definition scopes_of (sel : selection) : list (pystr * pystr) :=
  b ← map_to_list sel; sc ← map_to_list b.2; [(b.1, sc.1)].
Definition collections_of (sel : selection) : list (pystr * pystr * pystr) :=
  b ← map_to_list sel; sc ← map_to_list b.2; c ← elements sc.2; [(b.1, sc.1, c)].

Fixpoint repeat_m {A} (n : nat) (m : MS A) : MS (list A) :=
  match n with O => mret [] | S n => x ← m; l ← repeat_m n m; mret (x :: l) end.
Definition name_spec (c : pystr) : cspec := CSpec c None None None.
(** A new scope with its collections *)
Definition create_one_scope (b : pystr) (collection_count : nat) : MS (pystr * list pystr) :=
  sc ← scope_name;
  _ ← on_bucket b (create_scope sc);
  cs ← repeat_m collection_count collection_name;
  _ ← pool ((λ c, (b, CreateCollection sc (name_spec c))) <$> cs) None;
  mret (sc, cs).
(** The dictionary of a new scope goes into both tables. *)
Definition record_new (b : pystr) (x : pystr * list pystr) : MS unit :=
  s ← get;
  let '(r, d) := new_cell (list_to_set x.2) (det s) in
  on_det (λ _, set_ref CollectionsAdded b x.1 r (set_ref ScopesAdded b x.1 r d)).
Definition create_scopes_in (scopes_num collection_count : nat) (b : pystr) : MS unit :=
  _ ← on_det (open_bucket ScopesAdded b);
  _ ← on_det (open_bucket CollectionsAdded b);
  created ← repeat_m scopes_num (create_one_scope b collection_count);
  mfor created (record_new b).
Definition scopes_create (sel : selection) (scopes_num collection_count : Z) : MS unit :=
  mfor (map_to_list sel).*1 (create_scopes_in (Z.to_nat scopes_num) (Z.to_nat collection_count)).
Definition scopes_drop (sel : selection) : MS unit :=
  _ ← update_ops_details_dict ScopesDropped sel true;
  _ ← update_ops_details_dict CollectionsDropped sel true;
  pool ((λ p, (p.1, DropScope p.2)) <$> scopes_of sel) None.
(** [collection.get_dict_object()], without the history for a bucket that has none *)
Definition recreate_dict (o : bucket) (c : collection) : cspec :=
  let d := collection_dict c in
  if bool_decide (py "nonDedupedHistory" ∈ bucketCapabilities o) then d else CSpec (cs_name d) (cs_num_items d) (cs_maxTTL d) None.
Definition recreate_scope (p : pystr * pystr) : MS unit :=
  o ← bucket_obj p.1;
  sc ← lift (dict_get (scopes o) p.2);
  _ ← on_bucket p.1 (create_scope (scope_dict sc));
  pool ((λ c : pystr * collection, (p.1, CreateCollection p.2 (recreate_dict o c.2))) <$> map_to_list (collections sc)) None.
Definition scopes_recreate (sel : selection) : MS unit :=
  _ ← update_ops_details_dict ScopesAdded sel false;
  _ ← update_ops_details_dict CollectionsAdded sel true;
  mfor (scopes_of sel) recreate_scope.

(** ** [perform_collection_operation] *)

(** [sample(l, 1)[0]] *)
Definition sample_one (l : list pystr) : MS pystr := n ← tick; r ← lift (random n l 1); lift (list_get r 0).
Definition pick_new (sel : selection) : MS (pystr * pystr * pystr) :=
  b ← sample_one (map_to_list sel).*1;
  scs ← lift (dict_get sel b);
  sc ← sample_one (map_to_list scs).*1;
  c ← collection_name;
  mret (b, sc, c).
Fixpoint submit_new (n : nat) (sel : selection) : MS (list (pystr * pystr * pystr) * option pyexn) :=
  match n with
  | O => mret ([], None)
  | S n =>
      r ← try_except (t ← pick_new sel; mret (inl t)) (λ e, mret (inr e));
      match r with
      | inl t => '(ts, e) ← submit_new n sel; mret (t :: ts, e)
      | inr e => mret ([], Some e)
      end
  end.
(** [net_dict] *)
Definition net_dict (ts : list (pystr * pystr * pystr)) : selection :=
  foldl (λ m t, let scs := default ∅ (m !! t.1.1) in <[t.1.1 := <[t.1.2 := {[t.2]} ∪ default ∅ (scs !! t.1.2)]> scs]> m) ∅ ts.
Definition collections_create (sel : selection) (req_collections : Z) : MS unit :=
  '(ts, e) ← submit_new (Z.to_nat req_collections) sel;
  _ ← pool ((λ t, (t.1.1, CreateCollection t.1.2 (name_spec t.2))) <$> ts) e;
  mfor ts (λ t, update_ops_details_dict CollectionsAdded {[t.1.1 := default ∅ (net_dict ts !! t.1.1)]} false).
Definition collections_flush (sel : selection) : MS unit :=
  _ ← update_ops_details_dict CollectionsFlushed sel false;
  mfor (collections_of sel) (λ t, on_bucket t.1.1 (flush_collection t.1.2 t.2)).
Definition collections_drop (sel : selection) : MS unit :=
  _ ← update_ops_details_dict CollectionsDropped sel false;
  pool ((λ t, (t.1.1, DropCollection t.1.2 t.2)) <$> collections_of sel) None.
Fixpoint submit_recreated (l : list bucket) (ts : list (pystr * pystr * pystr)) : list job * option pyexn :=
  match ts with
  | [] => ([], None)
  | (b, sc, c) :: ts =>
      match (o ← of_option AttributeError (get_bucket_obj l b); x ← dict_get (scopes o) sc; col ← dict_get (collections x) c; Ok (recreate_dict o col)) with
      | Ok d => let '(js, e) := submit_recreated l ts in ((b, CreateCollection sc d) :: js, e)
      | Err e => ([], Some e)
      end
  end.
Definition collections_recreate (sel : selection) : MS unit :=
  _ ← update_ops_details_dict CollectionsAdded sel false;
  s ← get;
  let '(js, e) := submit_recreated (objs s) (collections_of sel) in
  pool js e.

(** ** [perform_tasks_from_spec] *)

Definition system_collections : gset pystr :=
  {[CbServer.eventing_collection; CbServer.query_collection; CbServer.mobile_collection; CbServer.regulator_collection]}.
Definition excluded (names : list pystr) (recreate : bool) : selection :=
  let ex : selection := foldl (λ m n, <[n := {[CbServer.system_scope := system_collections]}]> m) ∅ names in
  if recreate then
    foldl (λ m n, let scs := default ∅ (m !! n) in
             <[n := <[CbServer.default_scope := {[CbServer.default_collection]} ∪ default ∅ (scs !! CbServer.default_scope)]> scs]> m) ex names
  else ex.
Definition asks (r : option req) : bool := match r with None => false | Some All => true | Some (Num n) => negb (n =? 0) end.
Definition choose_with (f : (list pystr → Z → res (list pystr)) → list bucket → res selection) : MS selection :=
  n ← tick; s ← get; lift (f (random n) (objs s)).

Definition perform_tasks_from_spec (sp : crud_spec) : MS details :=
  _ ← on_det (λ _, no_details);
  s ← get;
  let ex := excluded (b_name <$> objs s) (asks (collections_to_recreate sp)) in
  cols_to_drop ← choose_with (λ sample bs,
    get_random_collections sample bs (default (Num 0) (collections_to_drop sp)) (default (Num 0) (scopes_considered_for_ops sp))
      (default (Num 1) (bucket_considered_for_ops sp)) false ex);
  _ ← collections_flush ∅;
  _ ← collections_drop cols_to_drop;
  to_drop ← choose_with (λ sample bs,
    get_random_scopes sample bs (default (Num 0) (scopes_to_drop sp)) (default (Num 1) (bucket_considered_for_ops sp)) true false ∅);
  _ ← scopes_drop to_drop;
  to_extend ← choose_with (λ sample bs, get_random_buckets sample bs (default All (bucket_considered_for_ops sp)) []);
  _ ← scopes_create to_extend (default 0 (scopes_to_add_per_bucket sp)) (default 0 (collections_to_add_for_new_scopes sp));
  to_fill ← choose_with (λ sample bs,
    get_random_scopes sample bs (default All (scopes_considered_for_ops sp)) (default All (bucket_considered_for_ops sp)) false false ∅);
  _ ← collections_create to_fill (default 0 (collections_to_add_per_bucket sp));
  scs ← choose_with (λ sample bs,
    get_random_scopes sample bs (default (Num 0) (scopes_to_recreate sp)) (default All (bucket_considered_for_ops sp)) false true ∅);
  _ ← scopes_recreate scs;
  cols ← choose_with (λ sample bs,
    get_random_collections sample bs (default (Num 0) (collections_to_recreate sp)) (default All (scopes_considered_for_ops sp))
      (default All (bucket_considered_for_ops sp)) true ∅);
  _ ← collections_recreate cols;
  s ← get; mret (det s).
End Tasks.

(** ** Proofs: what a job does *)

(** The collections that a bucket object knows, dropped or not. *)
Definition knows (o : bucket) (sc c : pystr) : Prop := ∃ x, scopes o !! sc = Some x ∧ is_Some (collections x !! c).
Definition targets (ch : change) (sc c : pystr) : Prop :=
  match ch with CreateCollection n spec => sc = n ∧ c = cs_name spec | _ => False end.
(** What no operation changes: the properties, and the known collections but for the one that is created. *)
Definition kept (o : bucket) (T : pystr → pystr → Prop) (o' : bucket) : Prop :=
  b_props o' = b_props o ∧ (∀ sc c, knows o sc c → knows o' sc c) ∧ (∀ sc c, knows o' sc c → knows o sc c ∨ T sc c).

Lemma kept_scopes o T o1 f : kept o T o1 →
  (∀ sc x, scopes o1 !! sc = Some x → ∃ x', f (scopes o1) !! sc = Some x' ∧ ∀ c, is_Some (collections x !! c) → is_Some (collections x' !! c)) →
  (∀ sc c x', f (scopes o1) !! sc = Some x' → is_Some (collections x' !! c) → knows o1 sc c ∨ T sc c) →
  kept o T (with_scopes f o1).
Proof.
  intros (Hp & H1 & H2) Hf Hg. split_and!; [done| |].
  - intros sc c (x & Hx & Hc)%H1. destruct (Hf sc x Hx) as (x' & Hx' & Hxc). exists x'. auto.
  - intros sc c (x' & Hx' & Hc). destruct (Hg sc c x' Hx' Hc) as [H|H]; [by apply H2|by right].
Qed.
Lemma kept_alter o T o1 g n : kept o T o1 → (∀ x c, is_Some (collections (g x) !! c) ↔ is_Some (collections x !! c)) →
  kept o T (with_scopes (alter g n) o1).
Proof.
  intros Hk Hg. apply kept_scopes; [done| |].
  - intros sc x Hx. destruct (decide (n = sc)) as [<-|Hne].
    + exists (g x). rewrite lookup_alter_eq, Hx. split; [done|]. intros c. by rewrite Hg.
    + exists x. by rewrite lookup_alter_ne.
  - intros sc c x'. destruct (decide (n = sc)) as [<-|Hne]; [|rewrite lookup_alter_ne by done; left; by exists x'].
    rewrite lookup_alter_eq. intros (x & Hx & ->)%fmap_Some. rewrite Hg. left. by exists x.
Qed.
Lemma kept_incr o T o1 : kept o T o1 → kept o T (increment_manifest_uid o1).
Proof. done. Qed.
Lemma kept_insert o T o1 sc x : kept o T o1 →
  (∀ c, is_Some (collections x !! c) ↔ knows o1 sc c) → kept o T (with_scopes (insert sc x) o1).
Proof.
  intros Hk Hx. apply kept_scopes; [done| |].
  - intros sc' x' Hx'. rewrite lookup_insert. case_decide as E; [subst|by exists x']. exists x. split; [done|].
    intros c Hc. apply Hx. by exists x'.
  - intros sc' c x'. rewrite lookup_insert. case_decide as E; [subst|left; by exists x']. intros [= <-] Hc. left. by apply Hx.
Qed.

Lemma on_collection_keeps c f x k : is_Some (collections (with_collections (alter f c) x) !! k) ↔ is_Some (collections x !! k).
Proof. cbn. destruct (decide (c = k)) as [<-|Hne]; [rewrite lookup_alter_eq; by rewrite fmap_is_Some|by rewrite lookup_alter_ne]. Qed.
Lemma mark_collection_keeps o T sc c : minv (kept o T) (mark_collection_as_dropped sc c).
Proof. unfold mark_collection_as_dropped. solve_minv. apply kept_alter; [done|]. intros. by apply on_collection_keeps. Qed.
Lemma mark_scope_keeps o T sc : minv (kept o T) (mark_scope_as_dropped sc).
Proof.
  unfold mark_scope_as_dropped. solve_minv; [apply mark_collection_keeps|]. by apply kept_alter.
Qed.
Lemma create_scope_object_keeps o T n : minv (kept o T) (create_scope_object n).
Proof.
  intros b Hb. unfold create_scope_object, mbind, M_bind, get, get_scope_obj, modify. destruct (scopes b !! n) as [x|] eqn:E; cbn.
  - apply kept_insert; [done|]. intros c. cbn. split; [by exists x|]. by intros (? & [= <-]%(eq_trans (eq_sym E)) & ?).
  - apply kept_insert; [done|]. intros c. cbn. rewrite lookup_empty. split; [by intros [? ?]|]. intros (x & Hx & _). congruence.
Qed.
Lemma create_collection_object_keeps o T sc spec : T sc (cs_name spec) → minv (kept o T) (create_collection_object sc spec).
Proof.
  intros HT b Hb. unfold create_collection_object, mbind, M_bind, get, lift, some_scope, get_scope_obj, modify.
  destruct (scopes b !! sc) as [x|] eqn:E; cbn; [|done].
  assert (cs_name (with_history b spec) = cs_name spec) as -> by (unfold with_history; by destruct (cs_history spec)).
  set (col := match get_collection_obj x _ with Some _ => _ | None => _ end). apply kept_scopes; [done| |].
  - intros sc' x' Hx'. destruct (decide (sc = sc')) as [<-|Hne]; [|exists x'; by rewrite lookup_alter_ne].
    rewrite lookup_alter_eq, Hx'. eexists. split; [done|]. intros c Hc. cbn. rewrite lookup_insert. by case_decide.
  - intros sc' c x'. destruct (decide (sc = sc')) as [<-|Hne]; [|rewrite lookup_alter_ne by done; left; by exists x'].
    rewrite lookup_alter_eq. intros (x1 & Hx1 & ->)%fmap_Some. cbn. rewrite lookup_insert. case_decide as Ec; [subst; by right|]. left. by exists x1.
Qed.

Lemma on_bk_keeps {W A} (I : bucket → Prop) (m : M bucket A) : minv I m → minv (λ x : world W, I (bk x)) (on_bk m).
Proof. intros Hm [b w d] Hb. unfold on_bk. cbn in *. specialize (Hm b Hb). by destruct (m b). Qed.
Lemma on_srv_keeps {W A} (I : bucket → Prop) (f : W → A * W) : minv (λ x : world W, I (bk x)) (on_srv f).
Proof. intros [b w d] Hb. unfold on_srv. cbn in *. by destruct (f w). Qed.
#[local] Hint Resolve kept_incr : core.

(** A change other than a flush *)
Definition plain (c : change) : bool := match c with FlushBucket _ => false | _ => true end.
Lemma perform_keeps {W} `{Manifest W} o c : plain c = true →
  minv (λ x : world W, kept o (targets c) (bk x)) (perform c).
Proof.
  intros Hc. assert (∀ T (m : M bucket unit), minv (kept o T) m → minv (λ x : world W, kept o T (bk x)) (on_bk m)) as Hbk by (intros; by apply on_bk_keeps).
  destruct c as [n|n|n spec|n k|]; [| | | |done]; cbn [perform targets].
  1-2,4: unfold create_scope, drop_scope, drop_collection; apply minv_bind; [apply on_srv_keeps|]; intros ok; destruct (negb ok); [apply minv_lift|];
    (apply minv_bind; [apply Hbk, minv_modify; auto|]; intros _; apply Hbk).
  - apply create_scope_object_keeps.
  - apply mark_scope_keeps.
  - apply mark_collection_keeps.
  - apply minv_bind; [|intros; apply minv_ret]. unfold create_collection. apply minv_bind; [apply on_srv_keeps|]. intros ok. destruct (negb ok); [apply minv_lift|].
    apply minv_bind; [apply Hbk, minv_modify; auto|]. intros _. apply on_bk_keeps, create_collection_object_keeps. done.
Qed.

(** ** Proofs: the system *)

Section System.
Context {W : Type} {HM : Manifest W} {HL : ManifestLaws W}.
Implicit Types (s : sys W) (b sc c n : pystr) (j : job).

(** Every bucket object follows its bucket on the cluster. *)
Definition follows s : Prop := Forall (λ p : bucket * W, tracks (World p.1 p.2 [])) (bks s).
Definition obj s b : option bucket := get_bucket_obj (objs s) b.
(** The live scopes and collections, and the known ones *)
Definition live_in_scope s b sc : Prop := ∃ o, obj s b = Some o ∧ is_Some (active o !! sc).
Definition live_in s b sc c : Prop := ∃ o cs, obj s b = Some o ∧ active o !! sc = Some cs ∧ c ∈ cs.
Definition known_in s b sc c : Prop := ∃ o, obj s b = Some o ∧ knows o sc c.

Lemma obj_name s b o : obj s b = Some o → b_name o = b.
Proof. unfold obj. induction (objs s) as [|x l IH]; cbn; [done|]. case_bool_decide; [by intros [= <-]|done]. Qed.

Definition with_bks (l : list (bucket * W)) s : sys W := Sys l (det s) (scope_counter s) (collection_counter s) (ticks s).
Lemma on_first_spec {A} n (m : M (world W) A) (l : list (bucket * W)) :
  match get_bucket_obj l.*1 n with
  | None => on_first n m l = (raise AttributeError, l)
  | Some o => ∃ w, let '(r, x) := m (World o w []) in ∃ l', on_first n m l = (r, l') ∧
      (Forall (λ p : bucket * W, tracks (World p.1 p.2 [])) l → tracks (World o w []) ∧ (tracks x → Forall (λ p : bucket * W, tracks (World p.1 p.2 [])) l')) ∧
      (b_props (bk x) = b_props o → ∀ b, get_bucket_obj l'.*1 b = if decide (b = n) then Some (bk x) else get_bucket_obj l.*1 b)
  end.
Proof.
  induction l as [|[o w] l IH]; cbn [fmap list_fmap fst get_bucket_obj on_first]; [done|]. case_bool_decide as E.
  - exists w. destruct (m (World o w [])) as [r x]. exists ((bk x, srv x) :: l). split_and!; [done| |].
    + intros [H1 H2]%Forall_cons. split; [done|]. intros Hx. by constructor.
    + intros Hp b. cbn. assert (b_name (bk x) = b_name o) as -> by (unfold b_name; congruence). rewrite E. case_decide as Hb; case_bool_decide; congruence.
  - destruct (get_bucket_obj l.*1 n) as [o'|]; [|by rewrite IH]. destruct IH as [w' IH]. exists w'. destruct (m (World o' w' [])) as [r x].
    destruct IH as (l' & -> & H1 & H2). exists ((o, w) :: l'). split_and!; [done| |].
    + intros [H3 H4]%Forall_cons. destruct (H1 H4) as [H5 H6]. split; [done|]. intros Hx. constructor; auto.
    + intros Hp b. cbn. rewrite (H2 Hp). case_bool_decide as Hb; [|done]. case_decide; congruence.
Qed.
Lemma on_bucket_spec {A} n (m : M (world W) A) s :
  match obj s n with
  | None => on_bucket n m s = (raise AttributeError, s)
  | Some o => ∃ w, let '(r, x) := m (World o w []) in ∃ l, on_bucket n m s = (r, with_bks l s) ∧
      (follows s → tracks (World o w []) ∧ (tracks x → follows (with_bks l s))) ∧
      (b_props (bk x) = b_props o → ∀ b, obj (with_bks l s) b = if decide (b = n) then Some (bk x) else obj s b)
  end.
Proof.
  pose proof (on_first_spec n m (bks s)) as H. unfold obj, objs, on_bucket, with_bks. destruct (get_bucket_obj (bks s).*1 n) as [o|].
  - destruct H as [w H]. exists w. destruct (m (World o w [])) as [r x]. destruct H as (l & -> & H1 & H2). exists l. done.
  - rewrite H. by destruct s.
Qed.

(** What a job that succeeds removes and adds *)
Definition sdel j b sc : Prop := j = (b, DropScope sc).
Definition sadd j b sc : Prop := j = (b, CreateScope sc).
Definition cdel j b sc c : Prop := j = (b, DropScope sc) ∨ j = (b, DropCollection sc c).
Definition cadd j b sc c : Prop := ∃ spec, j = (b, CreateCollection sc spec) ∧ cs_name spec = c.

(** The change of the live scopes and collections of one bucket *)
Lemma perform_effect ch (x x' : world W) : plain ch = true → tracks x → perform ch x = (Ok tt, x') →
  tracks x' ∧
  (∀ sc, is_Some (active (bk x') !! sc) ↔ (is_Some (active (bk x) !! sc) ∧ ch ≠ DropScope sc) ∨ ch = CreateScope sc) ∧
  (∀ sc, ch = CreateScope sc → active (bk x) !! sc = None) ∧
  (∀ sc c, (∃ cs, active (bk x') !! sc = Some cs ∧ c ∈ cs) ↔
     ((∃ cs, active (bk x) !! sc = Some cs ∧ c ∈ cs) ∧ ch ≠ DropScope sc ∧ ch ≠ DropCollection sc c) ∨ ∃ spec, ch = CreateCollection sc spec ∧ cs_name spec = c).
Proof.
  intros Hpl Ht Hr. pose proof (perform_tracks ch x Ht) as (Ht' & Hok & _). rewrite Hr in Ht', Hok. cbn in Ht', Hok. split; [done|].
  assert (∀ allowed chg call (op : M (world W) unit), call_ok allowed chg call op x → op x = (Ok tt, x') →
    allowed (active (bk x)) ∧ active (bk x') = chg (active (bk x))) as Hcall.
  { intros allowed chg call op (_ & _ & _ & H) E. rewrite E in H. cbn in H. destruct (call (srv x)).1; [|by destruct H].
    destruct Ht as (_ & Ha & _), Ht' as (_ & Ha' & _). rewrite Ha, Ha'. naive_solver. }
  destruct ch as [n|n|n spec|n k|]; [| | | |done]; cbn [perform] in Hr.
  - destruct (Hcall _ _ _ _ (create_scope_step n x Ht) Hr) as [Hn ->]. split_and!; [| |].
    + intros sc. rewrite lookup_insert. case_decide as E; [subst; split; [by right|eauto]|]. naive_solver.
    + by intros sc [= <-].
    + intros sc c. rewrite lookup_insert. case_decide as E; [subst|naive_solver]. rewrite Hn. split; [intros (? & [= <-] & ?); set_solver|naive_solver].
  - destruct (Hcall _ _ _ _ (drop_scope_step n x Ht) Hr) as [Hn ->]. split_and!; [|done|].
    + intros sc. rewrite lookup_delete. case_decide as E; [subst; split; [by intros [? ?]|naive_solver]|]. naive_solver.
    + intros sc c. rewrite lookup_delete. case_decide as E; [subst|]; naive_solver.
  - apply bind_inv in Hr as (sp & x1 & Hr & Hx). injection Hx as ->.
    destruct (create_collection_step n spec x Ht) as (_ & _ & _ & H). rewrite Hr in H. cbn in H. destruct (rest_create_collection n spec (srv x)).1; [|by destruct H].
    destruct H as (_ & (cs & Hn & Hk) & Hm). destruct Ht as (_ & Ha & _), Ht' as (_ & Ha' & _). rewrite Ha', Hm, <- Ha. rewrite <- Ha in Hn. split_and!; [|done|].
    + intros sc. destruct (decide (n = sc)) as [<-|Hne]; [rewrite lookup_alter_eq, fmap_is_Some|rewrite lookup_alter_ne by done]; naive_solver.
    + intros sc c. destruct (decide (n = sc)) as [<-|Hne]; [|rewrite lookup_alter_ne by done; naive_solver]. rewrite lookup_alter_eq, Hn. cbn. split.
      * intros (? & [= <-] & [->%elem_of_singleton|Hc]%elem_of_union); [right; eauto|left; eauto].
      * intros [((? & [= <-] & Hc) & _)|(? & [= <-] & <-)]; (eexists; split; [done|]); set_solver.
  - destruct (Hcall _ _ _ _ (drop_collection_step n k x Ht) Hr) as [(cs & Hn & Hk) ->]. split_and!; [|done|].
    + intros sc. destruct (decide (n = sc)) as [<-|Hne]; [rewrite lookup_alter_eq, fmap_is_Some|rewrite lookup_alter_ne by done]; naive_solver.
    + intros sc c. destruct (decide (n = sc)) as [<-|Hne]; [|rewrite lookup_alter_ne by done; naive_solver]. rewrite lookup_alter_eq, Hn. cbn. split.
      * intros (? & [= <-] & [Hc Hne]%elem_of_difference). left. split_and!; [eauto|done|]. intros [= ->]. set_solver.
      * intros [((? & [= <-] & Hc) & _ & Hne)|(? & [=] & _)]. eexists. split; [done|]. apply elem_of_difference. split; [done|]. intros ->%elem_of_singleton. done.
Qed.

Lemma kept_refl o T : kept o T o.
Proof. split_and!; [done|done|by left]. Qed.

(** The effect of a computation on the live and known names *)
Definition effect (SD SA : pystr → pystr → Prop) (CD CA : pystr → pystr → pystr → Prop) s s' : Prop :=
  follows s' ∧ det s' = det s ∧
  (∀ b sc, live_in_scope s' b sc ↔ (live_in_scope s b sc ∧ ¬ SD b sc) ∨ SA b sc) ∧
  (∀ b sc c, live_in s' b sc c ↔ (live_in s b sc c ∧ ¬ CD b sc c) ∨ CA b sc c) ∧
  (∀ b sc c, known_in s b sc c → known_in s' b sc c) ∧
  (∀ b sc c, known_in s' b sc c → known_in s b sc c ∨ CA b sc c).

Lemma run_job_ok j s s' u : plain j.2 = true → follows s → run_job j s = (Ok u, s') →
  effect (sdel j) (sadd j) (cdel j) (cadd j) s s' ∧ ∀ b sc, sadd j b sc → ¬ live_in_scope s b sc.
Proof.
  intros Hpl Hs Hr. destruct j as [n ch]. destruct u. unfold run_job in Hr. cbn [fst snd] in *.
  pose proof (on_bucket_spec n (perform ch) s) as H. destruct (obj s n) as [o|] eqn:Ho; [|by rewrite H in Hr]. destruct H as [w H].
  pose proof (perform_keeps o ch Hpl (World o w []) (kept_refl _ _)) as (Hp & Hk1 & Hk2).
  destruct (perform ch (World o w [])) as [r x] eqn:E. destruct H as (l & Hrun & Hf & Hobj). rewrite Hrun in Hr. injection Hr as -> <-.
  destruct (Hf Hs) as [Ht Hf']. specialize (Hobj Hp). destruct (perform_effect ch _ x Hpl Ht E) as (Ht' & HS & Hnew & HC). cbn [bk] in *.
  assert (∀ b, b ≠ n → obj (with_bks l s) b = obj s b) as Hother by (intros b Hb; rewrite Hobj; by case_decide).
  assert (obj (with_bks l s) n = Some (bk x)) as Hn by (rewrite Hobj; by case_decide).
  split; [split_and!|]; [by apply Hf'|done| | | | |].
  - intros b sc. unfold live_in_scope, sdel, sadd. destruct (decide (b = n)) as [->|Hb].
    + rewrite Hn, Ho. specialize (HS sc). clear -HS. naive_solver.
    + rewrite Hother by done. clear -Hb. naive_solver.
  - intros b sc c. unfold live_in, cdel, cadd. destruct (decide (b = n)) as [->|Hb].
    + rewrite Hn, Ho. specialize (HC sc c). clear -HC. naive_solver.
    + rewrite Hother by done. clear -Hb. naive_solver.
  - intros b sc c (o' & Ho' & Hk). destruct (decide (b = n)) as [->|Hb]; [exists (bk x)|exists o'; by rewrite Hother].
    split; [done|]. apply Hk1. congruence.
  - intros b sc c (o' & Ho' & Hk). destruct (decide (b = n)) as [->|Hb].
    + assert (o' = bk x) as -> by congruence. destruct (Hk2 sc c Hk) as [H|H]; [left; by exists o|right].
      destruct ch as [| |n' spec| |]; try done. destruct H as [-> ->]. by exists spec.
    + left. exists o'. by rewrite <- Hother.
  - intros b sc [= -> ->] (o' & Ho' & [cs Hc]). assert (o' = o) as -> by congruence. rewrite (Hnew sc eq_refl) in Hc. done.
Qed.
Lemma on_bucket_follows {A} n (m : M (world W) A) : (∀ x, tracks x → tracks (m x).2) → minv follows (on_bucket n m).
Proof.
  intros Hm s Hs. pose proof (on_bucket_spec n m s) as H. destruct (obj s n) as [o|]; [|by rewrite H]. destruct H as [w H].
  specialize (Hm (World o w [])). destruct (m (World o w [])) as [r x]. destruct H as (l & -> & Hf & _). destruct (Hf Hs) as [Ht Hf']. by apply Hf', Hm.
Qed.
Lemma run_job_follows j : minv follows (run_job j).
Proof. apply on_bucket_follows. intros x Hx. by apply perform_tracks. Qed.
Lemma run_jobs_follows js : minv follows (run_jobs js).
Proof.
  induction js as [|j js IH]; cbn [run_jobs]; [apply minv_ret|]. apply minv_bind; [apply minv_try; [|intros; apply minv_ret]|].
  - apply minv_bind; [apply run_job_follows|intros; apply minv_ret].
  - intros o. apply minv_bind; [done|intros; apply minv_ret].
Qed.

(** Jobs that all succeed: the first to run has run. *)
Lemma run_jobs_cons j js s os s' : run_jobs (j :: js) s = (Ok os, s') → omap id os = [] →
  ∃ s1 os1, run_job j s = (Ok tt, s1) ∧ run_jobs js s1 = (Ok os1, s') ∧ omap id os1 = [].
Proof.
  cbn [run_jobs]. intros (o & s1 & H1 & H2)%bind_inv Hos. apply bind_inv in H2 as (os1 & s2 & H2 & H3). injection H3 as <- <-.
  unfold try_except in H1. destruct ((_ ← run_job j; mret None) s) as [[a|e] s3] eqn:E.
  - injection H1 as <- ->. apply bind_inv in E as ([] & s4 & E & Ea). injection Ea as <- ->. by exists s1, os1.
  - by injection H1 as <- _.
Qed.
Definition removes j : bool := match j.2 with DropScope _ | DropCollection _ _ => true | _ => false end.
Definition fills j : bool := match j.2 with CreateCollection _ _ => true | _ => false end.

Lemma run_drops js s os s' : Forall (λ j, removes j = true) js → follows s → run_jobs js s = (Ok os, s') → omap id os = [] →
  effect (λ b sc, ∃ j, j ∈ js ∧ sdel j b sc) (λ _ _, False) (λ b sc c, ∃ j, j ∈ js ∧ cdel j b sc c) (λ _ _ _, False) s s'.
Proof.
  intros Hjs. revert s os. induction Hjs as [|j js Hj _ IH]; intros s os Hs Hr Hos.
  - injection Hr as _ <-. split_and!; [done|done|set_solver|set_solver|done|by left].
  - destruct (run_jobs_cons _ _ _ _ _ Hr Hos) as (s1 & os1 & H1 & H2 & H3).
    destruct (run_job_ok j s s1 tt) as [(F1 & D1 & S1 & C1 & K1 & K1') _]; [by destruct j as [? []]|done|done|].
    destruct (IH s1 os1 F1 H2 H3) as (F2 & D2 & S2 & C2 & K2 & K2').
    assert (∀ b sc, ¬ sadd j b sc) as Nj by (intros b sc ->; done). assert (∀ b sc c, ¬ cadd j b sc c) as Nj' by (intros b sc c (? & -> & _); done).
    split_and!; [done|congruence| | |auto|].
    + intros b sc. rewrite S2, S1. setoid_rewrite elem_of_cons. clear -Nj. naive_solver.
    + intros b sc c. rewrite C2, C1. setoid_rewrite elem_of_cons. clear -Nj'. naive_solver.
    + intros b sc c Hk. destruct (K2' b sc c Hk) as [H|[]]. destruct (K1' b sc c H) as [?|?]; [by left|naive_solver].
Qed.
Lemma run_fills js s os s' : Forall (λ j, fills j = true) js → follows s → run_jobs js s = (Ok os, s') → omap id os = [] →
  effect (λ _ _, False) (λ _ _, False) (λ _ _ _, False) (λ b sc c, ∃ j, j ∈ js ∧ cadd j b sc c) s s'.
Proof.
  intros Hjs. revert s os. induction Hjs as [|j js Hj _ IH]; intros s os Hs Hr Hos.
  - injection Hr as _ <-. split_and!; [done|done|set_solver|set_solver|done|by left].
  - destruct (run_jobs_cons _ _ _ _ _ Hr Hos) as (s1 & os1 & H1 & H2 & H3).
    destruct (run_job_ok j s s1 tt) as [(F1 & D1 & S1 & C1 & K1 & K1') _]; [by destruct j as [? []]|done|done|].
    destruct (IH s1 os1 F1 H2 H3) as (F2 & D2 & S2 & C2 & K2 & K2').
    assert (∀ b sc, ¬ sadd j b sc ∧ ¬ sdel j b sc) as Nj by (intros b sc; split; intros ->; done).
    assert (∀ b sc c, ¬ cdel j b sc c) as Nj' by (intros b sc c [-> | ->]; done).
    split_and!; [done|congruence| | |auto|].
    + intros b sc. rewrite S2, S1. naive_solver.
    + intros b sc c. rewrite C2, C1. setoid_rewrite elem_of_cons. clear -Nj'. naive_solver.
    + intros b sc c Hk. setoid_rewrite elem_of_cons. destruct (K2' b sc c Hk) as [H|(j' & Hj' & H)]; [|right; eauto].
      destruct (K1' b sc c H) as [?|?]; [by left|right; eauto].
Qed.

Context (schedule : nat → list job → list job) (Hsch : ∀ (k : nat) (l : list job), schedule k l ≡ₚ l).
(** A pool whose jobs all succeed *)
Lemma pool_inv js e s s' u : pool schedule js e s = (Ok u, s') →
  e = None ∧ ∃ os, run_jobs (schedule (ticks s) js) (Sys (bks s) (det s) (scope_counter s) (collection_counter s) (S (ticks s))) = (Ok os, s') ∧ omap id os = [].
Proof.
  unfold pool. rewrite (bind_Ok tick _ _ _ _ eq_refl). intros (os & s1 & H1 & H2)%bind_inv. destruct e; [done|]. split; [done|]. exists os.
  destruct (omap id os); [|done]. by injection H2 as _ ->.
Qed.
Lemma pool_drops js s s' u : Forall (λ j, removes j = true) js → follows s → pool schedule js None s = (Ok u, s') →
  effect (λ b sc, ∃ j, j ∈ js ∧ sdel j b sc) (λ _ _, False) (λ b sc c, ∃ j, j ∈ js ∧ cdel j b sc c) (λ _ _ _, False) s s'.
Proof.
  intros Hjs Hs (_ & os & H & Hos)%pool_inv. rewrite <- (Hsch (ticks s)) in Hjs.
  destruct (run_drops _ (Sys _ _ _ _ _) _ _ Hjs ltac:(exact Hs) H Hos) as (F & D & S1 & C1 & K1 & K2). setoid_rewrite (Hsch (ticks s) js) in S1. setoid_rewrite (Hsch (ticks s) js) in C1. done.
Qed.
Lemma pool_fills js e s s' u : Forall (λ j, fills j = true) js → follows s → pool schedule js e s = (Ok u, s') →
  effect (λ _ _, False) (λ _ _, False) (λ _ _ _, False) (λ b sc c, ∃ j, j ∈ js ∧ cadd j b sc c) s s'.
Proof.
  intros Hjs Hs (_ & os & H & Hos)%pool_inv. rewrite <- (Hsch (ticks s)) in Hjs.
  destruct (run_fills _ (Sys _ _ _ _ _) _ _ Hjs ltac:(exact Hs) H Hos) as (F & D & S1 & C1 & K1 & K2). setoid_rewrite (Hsch (ticks s) js) in C1. setoid_rewrite (Hsch (ticks s) js) in K2. done.
Qed.
Lemma pool_follows js e : minv follows (pool schedule js e).
Proof.
  unfold pool. apply minv_bind; [by intros s|]. intros n. apply minv_bind; [apply run_jobs_follows|]. intros os. destruct e; [apply minv_lift|].
  destruct (omap id os); [apply minv_ret|apply minv_lift].
Qed.
End System.

(** ** Proofs: the details *)

Section DetailsProofs.
Implicit Types (d : details) (k : dkey) (b sc c : pystr) (r : nat).

Definition ref d k b sc : option nat := tables d k !! b ≫= (.!! sc).
Definition rec_scope d k b sc : Prop := is_Some (ref d k b sc).
Definition rec_in d k b sc c : Prop := ∃ r cs, ref d k b sc = Some r ∧ cells d !! r = Some cs ∧ c ∈ cs.
(** Keys that may share a dictionary *)
Definition sharing k k' : Prop := k = k' ∨ (k ∈ [ScopesAdded; CollectionsAdded] ∧ k' ∈ [ScopesAdded; CollectionsAdded]).
Definition wfd d : Prop :=
  (∀ k b sc r, ref d k b sc = Some r → (r < length (cells d))%nat) ∧
  (∀ k b sc k' b' sc' r, ref d k b sc = Some r → ref d k' b' sc' = Some r → b = b' ∧ sc = sc' ∧ sharing k k').

Lemma ref_set_ref k b sc r d k' b' sc' :
  ref (set_ref k b sc r d) k' b' sc' = if decide (k' = k ∧ b' = b ∧ sc' = sc) then Some r else ref d k' b' sc'.
Proof.
  unfold ref, set_ref, set_table. cbn. destruct (decide (k' = k)) as [->|Hk]; [|by rewrite decide_False by naive_solver].
  destruct (decide (b' = b)) as [->|Hb]; [|rewrite lookup_insert_ne, decide_False by naive_solver; done].
  rewrite lookup_insert_eq. cbn. destruct (decide (sc' = sc)) as [->|Hsc]; [by rewrite lookup_insert_eq, decide_True|].
  rewrite lookup_insert_ne, decide_False by naive_solver. by destruct (tables d k !! b).
Qed.
Lemma ref_open_bucket k b d k' b' sc' : ref (open_bucket k b d) k' b' sc' = ref d k' b' sc'.
Proof.
  unfold open_bucket. destruct (tables d k !! b) eqn:E; [done|]. unfold ref, set_table. cbn. destruct (decide (k' = k)) as [->|]; [|done].
  destruct (decide (b' = b)) as [->|]; [by rewrite lookup_insert_eq, E|by rewrite lookup_insert_ne].
Qed.
Lemma cells_open_bucket k b d : cells (open_bucket k b d) = cells d.
Proof. unfold open_bucket. by destruct (tables d k !! b). Qed.
Lemma open_bucket_spec k b d : wfd d →
  wfd (open_bucket k b d) ∧ (∀ k' b' sc', rec_scope (open_bucket k b d) k' b' sc' ↔ rec_scope d k' b' sc') ∧
  (∀ k' b' sc' c, rec_in (open_bucket k b d) k' b' sc' c ↔ rec_in d k' b' sc' c).
Proof.
  intros [H1 H2]. unfold wfd, rec_scope, rec_in. setoid_rewrite ref_open_bucket. rewrite cells_open_bucket. done.
Qed.

(** A scope that gets a dictionary of its own, with the names in it, under the keys [ks]. *)
Lemma new_ref_spec (ks : list dkey) b sc names d d' : wfd d →
  (∀ k, k ∈ ks → ref d k b sc = None) → (∀ k k', k ∈ ks → k' ∈ ks → sharing k k') →
  cells d' = cells d ++ [names] → (∀ k' b' sc', ref d' k' b' sc' = if decide (k' ∈ ks ∧ b' = b ∧ sc' = sc) then Some (length (cells d)) else ref d k' b' sc') →
  wfd d' ∧ (∀ k' b' sc', rec_scope d' k' b' sc' ↔ rec_scope d k' b' sc' ∨ (k' ∈ ks ∧ b' = b ∧ sc' = sc)) ∧
  (∀ k' b' sc' c, rec_in d' k' b' sc' c ↔ rec_in d k' b' sc' c ∨ (k' ∈ ks ∧ b' = b ∧ sc' = sc ∧ c ∈ names)).
Proof.
  intros [W1 W2] Hnew Hsh Hc Hr. split_and!.
  - split.
    + intros k' b' sc' r. rewrite Hr, Hc, length_app. cbn. case_decide as E; [intros Hx; injection Hx as <-; lia|]. intros Hx%W1. lia.
    + intros k1 b1 sc1 k2 b2 sc2 r. rewrite !Hr. case_decide as E1; case_decide as E2.
      * intros _ _. destruct E1 as (? & -> & ->), E2 as (? & -> & ->). auto.
      * intros Hx Hy%W1. injection Hx as <-. lia.
      * intros Hx%W1 Hy. injection Hy as <-. lia.
      * apply W2.
  - intros k' b' sc'. unfold rec_scope. rewrite Hr. case_decide as E; [naive_solver|]. naive_solver.
  - intros k' b' sc' c. unfold rec_in. rewrite Hc. setoid_rewrite Hr. case_decide as E.
    + destruct E as (Hk & -> & ->). rewrite (Hnew _ Hk). split.
      * intros (r & cs & Hl & Hx & Hin). injection Hl as <-. rewrite lookup_app_r, Nat.sub_diag in Hx by lia. injection Hx as <-. by right.
      * intros [(r & cs & Hl & _)|(_ & _ & _ & Hin)]; [done|]. exists (length (cells d)), names. split_and!; [done| |done]. by rewrite lookup_app_r, Nat.sub_diag by lia.
    + split; [|intros [(r & cs & H1 & H2 & H3)|[? ?]]; [|naive_solver]].
      * intros (r & cs & H1 & H2 & H3). left. exists r, cs. split_and!; [done| |done]. by rewrite lookup_app_l in H2 by (by eapply W1).
      * exists r, cs. split_and!; [done| |done]. rewrite lookup_app_l; [done|by eapply W1].
Qed.
Lemma open_scope_spec k b sc d r d' : wfd d → open_scope k b sc d = (r, d') →
  wfd d' ∧ ref d' k b sc = Some r ∧ (∀ k' b' sc', rec_scope d' k' b' sc' ↔ rec_scope d k' b' sc' ∨ (k' = k ∧ b' = b ∧ sc' = sc)) ∧
  (∀ k' b' sc' c, rec_in d' k' b' sc' c ↔ rec_in d k' b' sc' c).
Proof.
  intros Hd. unfold open_scope. destruct (tables d k !! b ≫= (.!! sc)) as [r0|] eqn:E.
  - intros [= <- <-]. split_and!; [done|done| |done]. intros k' b' sc'. split; [by left|]. intros [?|(-> & -> & ->)]; [done|]. by exists r0.
  - cbn [new_cell]. intros [= <- <-]. set (d0 := Details (tables d) (cells d ++ [∅])).
    destruct (new_ref_spec [k] b sc ∅ d (set_ref k b sc (length (cells d)) d0)) as (H1 & H2 & H3); [done| | |done| |].
    + intros k' ->%list_elem_of_singleton. done.
    + intros k1 k2 ->%list_elem_of_singleton ->%list_elem_of_singleton. by left.
    + intros k' b' sc'. rewrite ref_set_ref. apply decide_ext. by rewrite list_elem_of_singleton.
    + setoid_rewrite list_elem_of_singleton in H2. split_and!; [done|by rewrite ref_set_ref, decide_True| |].
      * intros k' b' sc'. apply H2.
      * intros k' b' sc' c. rewrite H3. set_solver.
Qed.
Lemma add_names_spec k b sc r names d : wfd d → ref d k b sc = Some r →
  wfd (add_names r names d) ∧ (∀ k' b' sc', rec_scope (add_names r names d) k' b' sc' ↔ rec_scope d k' b' sc') ∧
  (∀ k' b' sc' c, rec_in (add_names r names d) k' b' sc' c ↔ rec_in d k' b' sc' c ∨ (ref d k' b' sc' = Some r ∧ c ∈ names)).
Proof.
  intros [W1 W2] Hr. split_and!; [|done|].
  - split; [|apply W2]. intros k' b' sc' r' H. cbn. rewrite length_alter. by apply (W1 k' b' sc').
  - intros k' b' sc' c. change (ref (add_names r names d) k' b' sc') with (ref d k' b' sc'). unfold rec_in.
    change (ref (add_names r names d) k' b' sc') with (ref d k' b' sc'). cbn [cells add_names]. split.
    + intros (r' & cs & H1 & H2 & H3). destruct (decide (r = r')) as [<-|Hne].
      * rewrite list_lookup_alter_eq in H2. apply fmap_Some in H2 as (cs0 & H2 & ->). apply elem_of_union in H3 as [?|?]; [by right|]. left. by exists r, cs0.
      * rewrite list_lookup_alter_ne in H2 by done. left. by exists r', cs.
    + intros [(r' & cs & H1 & H2 & H3)|[H1 H2]].
      * destruct (decide (r = r')) as [<-|Hne].
        -- exists r, (names ∪ cs). rewrite list_lookup_alter_eq, H2. set_solver.
        -- exists r', cs. by rewrite list_lookup_alter_ne.
      * destruct (lookup_lt_is_Some_2 (cells d) r) as [cs Hcs]; [by eapply W1|]. exists r, (names ∪ cs). rewrite list_lookup_alter_eq, Hcs. set_solver.
Qed.
End DetailsProofs.

Section Recording.
Context {W : Type}.
Implicit Types (s : sys W) (d : details) (k : dkey) (b sc c : pystr).

(** Scopes and collections recorded under a key *)
Definition records k (P : pystr → pystr → Prop) (N : pystr → pystr → pystr → Prop) d d' : Prop :=
  wfd d' ∧ (∀ k' b sc, rec_scope d' k' b sc ↔ rec_scope d k' b sc ∨ (k' = k ∧ P b sc)) ∧
  (∀ b sc c, rec_in d' k b sc c ↔ rec_in d k b sc c ∨ N b sc c) ∧
  (∀ k' b sc c, rec_in d k' b sc c → rec_in d' k' b sc c) ∧
  (∀ k' b sc c, rec_in d' k' b sc c → rec_in d k' b sc c ∨ (sharing k' k ∧ N b sc c)).
Lemma records_nothing k d : wfd d → records k (λ _ _, False) (λ _ _ _, False) d d.
Proof. intros Hd. split_and!; [done|naive_solver|naive_solver|done|by left]. Qed.
Lemma open_bucket_records k b d : wfd d → records k (λ _ _, False) (λ _ _ _, False) d (open_bucket k b d).
Proof. intros Hd. destruct (open_bucket_spec k b d Hd) as (W0 & S0 & I0). unfold records. setoid_rewrite S0. setoid_rewrite I0. split; [done|by apply records_nothing]. Qed.
Lemma records_trans k P N P' N' d1 d2 d3 : records k P N d1 d2 → records k P' N' d2 d3 →
  records k (λ b sc, P b sc ∨ P' b sc) (λ b sc c, N b sc c ∨ N' b sc c) d1 d3.
Proof.
  intros (A1 & A2 & A3 & A4 & A5) (B1 & B2 & B3 & B4 & B5). split_and!; [done| | |auto|].
  - intros k' b sc. rewrite B2, A2. clear. naive_solver.
  - intros b sc c. rewrite B3, A3. clear. naive_solver.
  - intros k' b sc c [H|[? ?]]%B5; [|right; auto]. destruct (A5 _ _ _ _ H) as [?|[? ?]]; [by left|right; auto].
Qed.
Lemma records_ext k P N P' N' d1 d2 : (∀ b sc, P b sc ↔ P' b sc) → (∀ b sc c, N b sc c ↔ N' b sc c) → records k P N d1 d2 → records k P' N' d1 d2.
Proof. intros HP HN. unfold records. setoid_rewrite HP. setoid_rewrite HN. done. Qed.

Definition with_det d s : sys W := Sys (bks s) d (scope_counter s) (collection_counter s) (ticks s).
Lemma record_scope_spec k (fetch : bool) b sc (cols : gset pystr) s s' u : wfd (det s) → record_scope k fetch b sc cols s = (Ok u, s') →
  ∃ d', s' = with_det d' s ∧ records k (λ b' sc', b' = b ∧ sc' = sc)
    (λ b' sc' c, b' = b ∧ sc' = sc ∧ if fetch then known_in s b sc c else c ∈ cols) (det s) d'.
Proof.
  intros Hd. unfold record_scope. rewrite (bind_Ok get _ _ _ _ eq_refl). destruct (open_scope k b sc (det s)) as [r d1] eqn:E.
  destruct (open_scope_spec _ _ _ _ _ _ Hd E) as (W1 & R1 & S1 & I1). rewrite (bind_Ok (on_det _) _ _ _ _ eq_refl). intros (names & s1 & Hn & H)%bind_inv.
  assert (s1 = with_det d1 s ∧ ∀ c, c ∈ names ↔ if fetch then known_in s b sc c else c ∈ cols) as [-> Hnames].
  { destruct fetch; [|by injection Hn as <- <-]. apply bind_inv in Hn as (o & s2 & Ho & Hn). unfold bucket_obj in Ho. rewrite (bind_Ok get _ _ _ _ eq_refl) in Ho.
    injection Ho as Ho <-. apply bind_inv in Hn as (x & s3 & Hx & Hn). injection Hx as Hx <-. injection Hn as <- <-. split; [done|].
    intros c. rewrite elem_of_dom. unfold known_in, obj, knows. change (objs _) with (objs s) in Ho. destruct (get_bucket_obj (objs s) b) as [o'|]; [|done]. injection Ho as ->.
    unfold dict_get in Hx. destruct (scopes o !! sc) as [x'|] eqn:Ex; [|done]. injection Hx as ->. split; [intros Hc; exists o; split; [done|]; by exists x|].
    intros (? & [= <-] & ? & [= <-]%(eq_trans (eq_sym Ex)) & Hc). done. }
  injection H as <-. destruct (add_names_spec k b sc r names d1 W1 R1) as (W2 & S2 & I2). exists (add_names r names d1). split; [done|]. split_and!; [done| | | |].
  - intros k' b' sc'. rewrite S2, S1. done.
  - intros b' sc' c. rewrite I2, I1, Hnames. split; [intros [?|[Hr ?]]; [by left|right]|intros [?|(-> & -> & ?)]; [by left|by right]].
    destruct W1 as [_ W1]. by destruct (W1 _ _ _ _ _ _ _ Hr R1) as (-> & -> & _).
  - intros k' b' sc' c Hx. apply I2. left. by apply I1.
  - intros k' b' sc' c. rewrite I2, I1, Hnames. intros [?|[Hr ?]]; [by left|right]. destruct W1 as [_ W1]. by destruct (W1 _ _ _ _ _ _ _ Hr R1) as (-> & -> & ?).
Qed.

Lemma with_det_twice d d' s : with_det d' (with_det d s) = with_det d' s.
Proof. done. Qed.
Lemma record_scopes_spec k (fetch : bool) b (l : list (pystr * gset pystr)) s s' u : wfd (det s) →
  mfor l (λ sc : pystr * gset pystr, record_scope k fetch b sc.1 sc.2) s = (Ok u, s') →
  ∃ d', s' = with_det d' s ∧ records k (λ b' sc', b' = b ∧ ∃ cols, (sc', cols) ∈ l)
    (λ b' sc' c, b' = b ∧ ∃ cols, (sc', cols) ∈ l ∧ if fetch then known_in s b sc' c else c ∈ cols) (det s) d'.
Proof.
  revert s. induction l as [|[sc cols] l IH]; intros s Hd H; cbn [mfor] in H.
  - injection H as <-. exists (det s). split; [by destruct s|]. eapply records_ext; [| |by apply records_nothing]; set_solver.
  - apply bind_inv in H as ([] & s1 & H1 & H2). destruct (record_scope_spec _ _ _ _ _ _ _ _ Hd H1) as (d1 & -> & R1).
    destruct (IH (with_det d1 s) (proj1 R1) H2) as (d2 & -> & R2). exists d2. split; [done|].
    eapply records_ext; [| |exact (records_trans _ _ _ _ _ _ _ _ R1 R2)]; cbn [fst snd].
    + intros b' sc'. setoid_rewrite elem_of_cons. split; [intros [[-> ->]|(-> & x & Hx)]|intros (-> & x & [[= -> ->]|Hx])]; eauto 6.
    + intros b' sc' c. setoid_rewrite elem_of_cons. split; [intros [(-> & -> & Hc)|(-> & x & Hx & Hc)]|intros (-> & x & [[= -> ->]|Hx] & Hc)]; eauto 8.
Qed.
Lemma update_spec k (sel : selection) (fetch : bool) s s' u : wfd (det s) → update_ops_details_dict k sel fetch s = (Ok u, s') →
  ∃ d', s' = with_det d' s ∧ records k (has_scope sel)
    (λ b sc c, if fetch then has_scope sel b sc ∧ known_in s b sc c else has_collection sel b sc c) (det s) d'.
Proof.
  assert (∀ l s s' u, wfd (det s) →
    mfor l (λ b : pystr * gmap pystr (gset pystr), _ ← on_det (open_bucket k b.1);
      mfor (map_to_list b.2) (λ sc : pystr * gset pystr, record_scope k fetch b.1 sc.1 sc.2)) s = (Ok u, s') →
    ∃ d', s' = with_det d' s ∧ records k (λ b sc, ∃ scs cols, (b, scs) ∈ l ∧ scs !! sc = Some cols)
      (λ b sc c, ∃ scs cols, (b, scs) ∈ l ∧ scs !! sc = Some cols ∧ if fetch then known_in s b sc c else c ∈ cols) (det s) d') as Hl.
  { clear s s' u. induction l as [|[b scs] l IH]; intros s s' u Hd H; cbn [mfor] in H.
    - injection H as <-. exists (det s). split; [by destruct s|]. eapply records_ext; [| |by apply records_nothing]; set_solver.
    - apply bind_inv in H as ([] & s1 & H1 & H2). rewrite (bind_Ok (on_det _) _ _ _ _ eq_refl) in H1. cbn [fst snd] in H1.
      destruct (open_bucket_spec k b (det s) Hd) as (W0 & _). set (s0 := with_det (open_bucket k b (det s)) s).
      destruct (record_scopes_spec k fetch b (map_to_list scs) s0 s1 _ W0 H1) as (d1 & -> & R1).
      destruct (IH (with_det d1 s0) _ _ (proj1 R1) H2) as (d2 & -> & R2). exists d2. split; [done|].
      pose proof (open_bucket_records k b (det s) Hd) as R0.
      eapply records_ext; [| |exact (records_trans _ _ _ _ _ _ _ _ R0 (records_trans _ _ _ _ _ _ _ _ R1 R2))]; cbn [fst snd].
      + intros b' sc'. setoid_rewrite elem_of_cons. setoid_rewrite elem_of_map_to_list.
        split; [intros [[]|[(-> & x & Hx)|(x & y & Hx & Hy)]]|intros (x & y & [[= -> ->]|Hx] & Hy)]; eauto 8.
      + intros b' sc' c. setoid_rewrite elem_of_cons. setoid_rewrite elem_of_map_to_list.
        split; [intros [[]|[(-> & x & Hx & Hc)|(x & y & Hx & Hy & Hc)]]|intros (x & y & [[= -> ->]|Hx] & Hy & Hc)]; eauto 10. }
  intros Hd H. destruct (Hl _ _ _ _ Hd H) as (d' & -> & R). exists d'. split; [done|]. eapply records_ext; [| |exact R].
  - intros b sc. setoid_rewrite elem_of_map_to_list. unfold has_scope, is_Some. naive_solver.
  - intros b sc c. setoid_rewrite elem_of_map_to_list. unfold has_scope, has_collection, is_Some. destruct fetch; naive_solver.
Qed.
End Recording.

(** ** Proofs: the operations *)

Lemma elem_of_collections_of (sel : selection) b sc c : (b, sc, c) ∈ collections_of sel ↔ has_collection sel b sc c.
Proof.
  unfold collections_of, has_collection. rewrite list_elem_of_bind. setoid_rewrite list_elem_of_bind. setoid_rewrite list_elem_of_bind. split.
  - intros ([b' scs] & ([sc' cs] & (c' & Hx & Hc) & Hsc) & Hb). apply list_elem_of_singleton in Hx. injection Hx as -> -> ->. apply elem_of_map_to_list in Hb, Hsc. apply elem_of_elements in Hc. by exists scs, cs.
  - intros (scs & cs & Hb & Hsc & Hc). exists (b, scs). split; [|by apply elem_of_map_to_list]. exists (sc, cs). split; [|by apply elem_of_map_to_list].
    exists c. split; [by apply list_elem_of_singleton|by apply elem_of_elements].
Qed.
Lemma elem_of_scopes_of (sel : selection) b sc : (b, sc) ∈ scopes_of sel ↔ has_scope sel b sc.
Proof.
  unfold scopes_of, has_scope. rewrite list_elem_of_bind. setoid_rewrite list_elem_of_bind. split.
  - intros ([b' scs] & ([sc' cs] & Hx & Hsc) & Hb). apply list_elem_of_singleton in Hx. injection Hx as -> ->. apply elem_of_map_to_list in Hb, Hsc. exists scs. eauto.
  - intros (scs & Hb & [cs Hsc]). exists (b, scs). split; [|by apply elem_of_map_to_list]. exists (sc, cs). split; [by apply list_elem_of_singleton|by apply elem_of_map_to_list].
Qed.
Lemma has_collection_scope (sel : selection) b sc c : has_collection sel b sc c → has_scope sel b sc.
Proof. intros (scs & cs & Hb & Hsc & _). exists scs. eauto. Qed.

Section Operations.
Context {W : Type} {HM : Manifest W} {HL : ManifestLaws W}.
Context (random : nat → list pystr → Z → res (list pystr)) (schedule : nat → list job → list job).
Context (Hsch : ∀ (k : nat) (l : list job), schedule k l ≡ₚ l).
Implicit Types (s : sys W) (d : details) (k : dkey) (b sc c : pystr).

(** Only names were drawn or choices made. *)
Definition same s s' : Prop := bks s' = bks s ∧ det s' = det s.
Lemma same_refl s : same s s.
Proof. done. Qed.
Lemma same_trans s1 s2 s3 : same s1 s2 → same s2 s3 → same s1 s3.
Proof. intros [? ?] [? ?]. split; congruence. Qed.
Lemma same_view s s' (P : sys W → Prop) : (∀ l d x y z x' y' z', P (Sys l d x y z) → P (Sys l d x' y' z')) → same s s' → P s → P s'.
Proof. intros HP. destruct s, s'. intros [Hb Hd]. cbn in Hb, Hd. subst. apply HP. Qed.

Lemma repeat_names (n : nat) s (cs : list pystr) s' : repeat_m n collection_name s = (Ok cs, s') → same s s'.
Proof.
  revert s cs. induction n as [|n IH]; intros s cs; cbn [repeat_m]; [by intros [= _ <-]|]. intros (c & s1 & H1 & H2)%bind_inv.
  apply bind_inv in H2 as (cs' & s2 & H2 & H3). injection H3 as _ <-. eapply same_trans; [|by eapply IH]. unfold collection_name in H1. by injection H1 as _ <-.
Qed.
Lemma choose_with_inv (f : (list pystr → Z → res (list pystr)) → list bucket → res selection) s (sel : selection) s' : choose_with random f s = (Ok sel, s') → same s s' ∧ f (random (ticks s)) (objs s) = Ok sel.
Proof.
  unfold choose_with. rewrite (bind_Ok tick _ _ _ _ eq_refl), (bind_Ok get _ _ _ _ eq_refl). intros [= H <-]. done.
Qed.

Lemma follows_wf s b o : follows s → obj s b = Some o → wf o.
Proof.
  unfold follows, obj, objs. intros H. induction H as [|[o' w] l Ht _ IH]; cbn; [done|]. case_bool_decide; [|done]. intros [= <-]. by destruct Ht.
Qed.
Lemma live_known s b sc c : live_in s b sc c → known_in s b sc c.
Proof.
  intros (o & cs & Ho & (x & Hx & _ & ->)%active_Some & Hc). exists o. split; [done|]. exists x. split; [done|]. apply elem_of_live_cols in Hc as (col & Hc & _). eauto.
Qed.

Lemma collections_drop_spec (sel : selection) s s' u : wfd (det s) → follows s → collections_drop schedule sel s = (Ok u, s') →
  follows s' ∧ records CollectionsDropped (has_scope sel) (has_collection sel) (det s) (det s') ∧
  (∀ b sc, live_in_scope s' b sc ↔ live_in_scope s b sc) ∧ (∀ b sc c, live_in s' b sc c ↔ live_in s b sc c ∧ ¬ has_collection sel b sc c).
Proof.
  intros Hd Hs (? & s1 & H1 & H2)%bind_inv. destruct (update_spec _ _ _ _ _ _ Hd H1) as (d1 & -> & R1).
  apply (pool_drops schedule Hsch) in H2 as (F & D & S1 & C1 & _); [|by apply Forall_fmap, Forall_forall|exact Hs].
  split_and!; [done|by rewrite D| |].
  - intros b sc. rewrite S1. split; [intros [[? _]|[]]; done|]. intros H. left. split; [done|]. intros (j & (t & -> & _)%list_elem_of_fmap & Hj). done.
  - intros b sc c. rewrite C1. split; [intros [[H Hn]|[]]; split; [done|]|intros [H Hn]; left; split; [done|]].
    + intros Hc%elem_of_collections_of. apply Hn. eexists. split; [by apply list_elem_of_fmap_2|]. by right.
    + intros (j & ([[b' sc'] c'] & -> & Ht)%list_elem_of_fmap & [Hj|Hj]); [done|]. injection Hj as -> -> ->. apply Hn. by apply elem_of_collections_of.
Qed.
Lemma scopes_drop_spec (sel : selection) s s' u : wfd (det s) → follows s → scopes_drop schedule sel s = (Ok u, s') →
  follows s' ∧ (∃ d1 N, records ScopesDropped (has_scope sel) N (det s) d1 ∧
    records CollectionsDropped (has_scope sel) (λ b sc c, has_scope sel b sc ∧ known_in s b sc c) d1 (det s')) ∧
  (∀ b sc, live_in_scope s' b sc ↔ live_in_scope s b sc ∧ ¬ has_scope sel b sc) ∧ (∀ b sc c, live_in s' b sc c ↔ live_in s b sc c ∧ ¬ has_scope sel b sc).
Proof.
  intros Hd Hs (? & s1 & H1 & H2)%bind_inv. apply bind_inv in H2 as (? & s2 & H2 & H3). destruct (update_spec _ _ _ _ _ _ Hd H1) as (d1 & -> & R1).
  destruct (update_spec _ _ _ (with_det d1 s) _ _ (proj1 R1) H2) as (d2 & -> & R2).
  apply (pool_drops schedule Hsch) in H3 as (F & D & S1 & C1 & _); [|by apply Forall_fmap, Forall_forall|exact Hs].
  split_and!; [done|rewrite D; eexists _, _; split; [exact R1|exact R2]| |].
  - intros b sc. rewrite S1. split; [intros [[H Hn]|[]]; split; [done|]|intros [H Hn]; left; split; [done|]].
    + intros Hc%elem_of_scopes_of. apply Hn. eexists. by split; [by apply list_elem_of_fmap_2|].
    + intros (j & ([b' sc'] & -> & Ht)%list_elem_of_fmap & Hj). injection Hj as -> ->. apply Hn. by apply elem_of_scopes_of.
  - intros b sc c. rewrite C1. split; [intros [[H Hn]|[]]; split; [done|]|intros [H Hn]; left; split; [done|]].
    + intros Hc%elem_of_scopes_of. apply Hn. eexists. split; [by apply list_elem_of_fmap_2|]. by left.
    + intros (j & ([b' sc'] & -> & Ht)%list_elem_of_fmap & [Hj|Hj]); [|done]. injection Hj as -> ->. apply Hn. by apply elem_of_scopes_of.
Qed.

(** *** New scopes *)

Lemma create_one_scope_spec b (n : nat) s sc (cs : list pystr) s' : follows s → create_one_scope schedule b n s = (Ok (sc, cs), s') →
  follows s' ∧ det s' = det s ∧ ¬ live_in_scope s b sc ∧
  (∀ b' sc', live_in_scope s' b' sc' ↔ live_in_scope s b' sc' ∨ (b' = b ∧ sc' = sc)) ∧
  (∀ b' sc' c, live_in s' b' sc' c ↔ live_in s b' sc' c ∨ (b' = b ∧ sc' = sc ∧ c ∈ cs)).
Proof.
  intros Hs. unfold create_one_scope. rewrite (bind_Ok scope_name _ _ _ _ eq_refl). intros ([] & s1 & H1 & H2)%bind_inv.
  apply bind_inv in H2 as (cs' & s2 & H2 & H3). apply bind_inv in H3 as (u & s3 & H3 & H4). injection H4 as <- <- <-.
  set (sc0 := (counter_name (py "scope") (scope_counter s)).1) in *.
  apply (run_job_ok (b, CreateScope sc0)) in H1 as [(F1 & D1 & S1 & C1 & _) Hnew]; [|done|exact Hs]. apply repeat_names in H2 as [Hb2 Hd2].
  assert (follows s2) as F2 by (unfold follows; by rewrite Hb2).
  apply (pool_fills schedule Hsch) in H3 as (F3 & D3 & S3 & C3 & _); [|by apply Forall_fmap, Forall_forall|done].
  assert (∀ b, obj s2 b = obj s1 b) as Ho by (intros b'; unfold obj, objs; by rewrite Hb2).
  split_and!; [done|etrans; [exact D3|]; etrans; [exact Hd2|exact D1]|exact (Hnew b sc0 eq_refl)| |].
  - intros b' sc'. rewrite S3. unfold live_in_scope at 1. rewrite Ho. fold (live_in_scope s1 b' sc'). rewrite S1. unfold sdel, sadd. split.
    + intros [[[[H _]|H] _]|[]]; [by left|right]. by injection H as <- <-.
    + intros [H|[-> ->]]; left; split; [|auto| |auto]; [by left|by right].
  - intros b' sc' c. rewrite C3. unfold live_in at 1. rewrite Ho. fold (live_in s1 b' sc' c). rewrite C1. split.
    + intros [[[[H _]|(spec & H & _)] _]|(j & (c' & -> & Hc)%list_elem_of_fmap & spec & Hj & <-)]; [by left|done|right]. by injection Hj as <- <- <-.
    + intros [H|(-> & -> & Hc)]; [left; split; [left|auto]|right].
      * split; [done|]. by intros [?|?].
      * eexists. split; [by apply list_elem_of_fmap_2|]. by eexists.
Qed.
Lemma create_scopes_loop_spec b (m n : nat) s (l : list (pystr * list pystr)) s' :
  follows s → repeat_m m (create_one_scope schedule b n) s = (Ok l, s') →
  follows s' ∧ det s' = det s ∧ NoDup l.*1 ∧ (∀ sc, sc ∈ l.*1 → ¬ live_in_scope s b sc) ∧
  (∀ b' sc', live_in_scope s' b' sc' ↔ live_in_scope s b' sc' ∨ (b' = b ∧ sc' ∈ l.*1)) ∧
  (∀ b' sc' c, live_in s' b' sc' c ↔ live_in s b' sc' c ∨ (b' = b ∧ ∃ cs, (sc', cs) ∈ l ∧ c ∈ cs)).
Proof.
  revert s l. induction m as [|m IH]; intros s l Hs H; cbn [repeat_m] in H.
  - injection H as <- <-. split_and!; [done|done|constructor|by intros sc ?%not_elem_of_nil|set_solver|set_solver].
  - apply bind_inv in H as ([sc cs] & s1 & H1 & H2). apply bind_inv in H2 as (l' & s2 & H2 & H3). injection H3 as <- <-.
    destruct (create_one_scope_spec _ _ _ _ _ _ Hs H1) as (F1 & D1 & N1 & S1 & C1). destruct (IH s1 l' F1 H2) as (F2 & D2 & U2 & N2 & S2 & C2).
    split_and!; [done|congruence| | | |].
    + cbn. constructor; [|done]. intros Hin%N2. apply Hin, S1. by right.
    + cbn. intros sc' [->|Hin]%elem_of_cons; [done|]. intros Hl. apply (N2 sc' Hin), S1. by left.
    + intros b' sc'. rewrite S2, S1. cbn. rewrite elem_of_cons. clear. naive_solver.
    + intros b' sc' c. rewrite C2, C1. setoid_rewrite elem_of_cons. clear. split.
      * intros [[?|(-> & -> & ?)]|(-> & x & ? & ?)]; [by left|right; eauto|right; eauto 6].
      * intros [?|(-> & x & [Hx|Hx] & ?)]; [auto|injection Hx as -> ->; auto|eauto 6].
Qed.
Lemma record_new_spec b (l : list (pystr * list pystr)) s s' u : wfd (det s) → NoDup l.*1 →
  (∀ sc, sc ∈ l.*1 → ¬ rec_scope (det s) ScopesAdded b sc ∧ ¬ rec_scope (det s) CollectionsAdded b sc) →
  mfor l (record_new b) s = (Ok u, s') →
  ∃ d', s' = with_det d' s ∧ wfd d' ∧
    (∀ k' b' sc', rec_scope d' k' b' sc' ↔ rec_scope (det s) k' b' sc' ∨ (k' ∈ [ScopesAdded; CollectionsAdded] ∧ b' = b ∧ sc' ∈ l.*1)) ∧
    (∀ k' b' sc' c, rec_in d' k' b' sc' c ↔ rec_in (det s) k' b' sc' c ∨ (k' ∈ [ScopesAdded; CollectionsAdded] ∧ b' = b ∧ ∃ cs, (sc', cs) ∈ l ∧ c ∈ cs)).
Proof.
  revert s. induction l as [|[sc cs] l IH]; intros s Hd Hnd Hnew H; cbn [mfor] in H.
  - injection H as <-. exists (det s). split_and!; [by destruct s|done|set_solver|set_solver].
  - apply bind_inv in H as ([] & s1 & H1 & H2). unfold record_new in H1. rewrite (bind_Ok get _ _ _ _ eq_refl) in H1. injection H1 as <-.
    cbn [fst snd] in *. set (d0 := Details (tables (det s)) (cells (det s) ++ [list_to_set cs])) in *. set (r := length (cells (det s))) in *.
    set (d1 := set_ref CollectionsAdded b sc r (set_ref ScopesAdded b sc r d0)) in *. cbn in Hnd. apply NoDup_cons in Hnd as [Hsc Hnd].
    assert (∀ k, ¬ rec_scope (det s) k b sc → ref (det s) k b sc = None) as Hnone by (intros k Hk; by apply eq_None_not_Some).
    destruct (new_ref_spec [ScopesAdded; CollectionsAdded] b sc (list_to_set cs) (det s) d1) as (W1 & S1 & I1); [done| | |done| |].
    { intros k Hk. apply Hnone. destruct (Hnew sc) as [HA HB]; [cbn; by left|]. by apply elem_of_cons in Hk as [-> | ->%list_elem_of_singleton]. }
    { intros k k' Hk Hk'. by right. }
    { intros k' b' sc'. unfold d1. rewrite !ref_set_ref. change (ref d0 k' b' sc') with (ref (det s) k' b' sc').
      repeat case_decide; set_solver. }
    destruct (IH (with_det d1 s) W1 Hnd) as (d2 & -> & W2 & S2 & I2); [|done|].
    { intros sc' Hin. cbn [det with_det]. rewrite !S1. destruct (Hnew sc') as [HA HB]; [cbn; by right|]. split; intros [?|(_ & _ & ->)]; done. }
    exists d2. split_and!; [done|done| |].
    + intros k' b' sc'. rewrite S2. cbn [det with_det]. rewrite S1. cbn. rewrite (elem_of_cons _ _ sc). clear. naive_solver.
    + intros k' b' sc' c. rewrite I2. cbn [det with_det]. rewrite I1, elem_of_list_to_set. setoid_rewrite (elem_of_cons l). clear. split.
      * intros [[?|(? & -> & -> & ?)]|(? & -> & x & ? & ?)]; [by left|right; eauto 8|right; eauto 8].
      * intros [?|(? & -> & x & [Hx|Hx] & ?)]; [auto|injection Hx as -> ->; left; right; auto|right; eauto 8].
Qed.

(** *** The details explain the live scopes and collections *)

Definition explained s0 s : Prop :=
  follows s ∧ wfd (det s) ∧
  (∀ b sc, live_in_scope s b sc ↔ (live_in_scope s0 b sc ∧ ¬ rec_scope (det s) ScopesDropped b sc) ∨ rec_scope (det s) ScopesAdded b sc) ∧
  (∀ b sc c, live_in s b sc c ↔ (live_in s0 b sc c ∧ ¬ rec_in (det s) CollectionsDropped b sc c) ∨ rec_in (det s) CollectionsAdded b sc c).
Definition none_added d : Prop := ∀ b sc, ¬ rec_scope d ScopesAdded b sc ∧ ¬ rec_scope d CollectionsAdded b sc.
Definition added_live s : Prop := ∀ b sc, rec_scope (det s) CollectionsAdded b sc → live_in_scope s b sc.

Lemma explained_same s0 s s' : same s s' → explained s0 s → explained s0 s'.
Proof. by apply same_view. Qed.
Lemma none_same s s' : same s s' → none_added (det s) → none_added (det s').
Proof. by intros [_ ->]. Qed.
Lemma rec_in_scope d k b sc c : rec_in d k b sc c → rec_scope d k b sc.
Proof. intros (r & cs & Hr & _). by exists r. Qed.
Lemma records_other k P N d d' k' : records k P N d d' → k' ≠ k → ∀ b sc, rec_scope d' k' b sc ↔ rec_scope d k' b sc.
Proof. intros (_ & R & _) Hk b sc. rewrite R. naive_solver. Qed.
Lemma records_other_in k P N d d' k' : records k P N d d' → ¬ sharing k' k → ∀ b sc c, rec_in d' k' b sc c ↔ rec_in d k' b sc c.
Proof. intros (_ & _ & _ & R1 & R2) Hk b sc c. split; [|apply R1]. by intros [?|[? _]]%R2. Qed.
Lemma not_sharing k k' : k ∈ [ScopesDropped; CollectionsDropped; CollectionsFlushed] → k' ≠ k → ¬ sharing k' k ∧ ¬ sharing k k'.
Proof. intros Hk Hne. unfold sharing. split; intros [?|[? ?]]; set_solver. Qed.

Lemma collections_drop_explained s0 (sel : selection) s s' u : explained s0 s → none_added (det s) → collections_drop schedule sel s = (Ok u, s') →
  explained s0 s' ∧ none_added (det s').
Proof.
  intros (F & Wd & HS & HC) Hno H. destruct (collections_drop_spec _ _ _ _ Wd F H) as (F' & R & LS & LC). pose proof (proj1 R) as Wd'.
  assert (none_added (det s')) as Hno'.
  { intros b sc. rewrite (records_other _ _ _ _ _ ScopesAdded R), (records_other _ _ _ _ _ CollectionsAdded R) by done. apply Hno. }
  split; [|done]. split_and!; [done|done| |].
  - intros b sc. rewrite LS, HS, (records_other _ _ _ _ _ ScopesAdded R), (records_other _ _ _ _ _ ScopesDropped R) by done. done.
  - intros b sc c. rewrite LC, HC. destruct R as (_ & _ & R & _). rewrite R.
    assert (∀ d, none_added d → ¬ rec_in d CollectionsAdded b sc c) as Hn by (intros d Hd Hc%rec_in_scope; by apply (Hd b sc)).
    pose proof (Hn _ Hno). pose proof (Hn _ Hno'). clear R Hn. naive_solver.
Qed.
Lemma scopes_drop_explained s0 (sel : selection) s s' u : explained s0 s → none_added (det s) → scopes_drop schedule sel s = (Ok u, s') →
  explained s0 s' ∧ none_added (det s').
Proof.
  intros (F & Wd & HS & HC) Hno H. destruct (scopes_drop_spec _ _ _ _ Wd F H) as (F' & (d1 & N & R1 & R2) & LS & LC). pose proof (proj1 R2) as Wd'.
  assert (none_added (det s')) as Hno'.
  { intros b sc. rewrite (records_other _ _ _ _ _ ScopesAdded R2), (records_other _ _ _ _ _ CollectionsAdded R2) by done.
    rewrite (records_other _ _ _ _ _ ScopesAdded R1), (records_other _ _ _ _ _ CollectionsAdded R1) by done. apply Hno. }
  split; [|done]. split_and!; [done|done| |].
  - intros b sc. rewrite LS, HS. rewrite (records_other _ _ _ _ _ ScopesDropped R2) by done. rewrite (proj1 (proj2 R1)).
    destruct (Hno b sc) as [? _], (Hno' b sc) as [? _]. clear R1 R2. naive_solver.
  - intros b sc c. rewrite LC. rewrite (proj1 (proj2 (proj2 R2))).
    rewrite (records_other_in _ _ _ _ _ CollectionsDropped R1) by (apply not_sharing; [set_solver|done]).
    assert (∀ d, none_added d → ¬ rec_in d CollectionsAdded b sc c) as Hn by (intros d Hd Hc%rec_in_scope; by apply (Hd b sc)).
    pose proof (Hn _ Hno) as H1. pose proof (Hn _ Hno') as H2. pose proof (live_known s b sc c) as Hk. rewrite HC in Hk |- *. clear R1 R2 Hn HS HC LS LC Hno Hno'. naive_solver.
Qed.

Lemma create_scopes_in_explained s0 (m n : nat) b s s' u : explained s0 s → added_live s → create_scopes_in schedule m n b s = (Ok u, s') →
  explained s0 s' ∧ added_live s'.
Proof.
  intros (F & Wd & HS & HC) Hal. unfold create_scopes_in. rewrite (bind_Ok (on_det _) _ _ _ _ eq_refl), (bind_Ok (on_det _) _ _ _ _ eq_refl). intros (l & s1 & H1 & H2)%bind_inv.
  cbn [det] in H1. set (d0 := open_bucket CollectionsAdded b (open_bucket ScopesAdded b (det s))) in *.
  destruct (open_bucket_spec ScopesAdded b (det s) Wd) as (W1 & S1 & I1). destruct (open_bucket_spec CollectionsAdded b _ W1) as (W2 & S2 & I2). fold d0 in W2, S2, I2.
  destruct (create_scopes_loop_spec _ _ _ (with_det d0 s) _ _ F H1) as (F2 & D2 & U2 & N2 & S3 & C3). cbn [det with_det] in D2.
  destruct (record_new_spec b l s1 s' u) as (d' & -> & W' & S4 & I4); [by rewrite D2|done| |done|].
  { intros sc Hsc. apply N2 in Hsc. rewrite D2, !S2, !S1. split; intros Hr; apply Hsc; [apply HS; by right|by apply Hal]. }
  assert (∀ k b' sc, rec_scope d' k b' sc ↔ rec_scope (det s) k b' sc ∨ (k ∈ [ScopesAdded; CollectionsAdded] ∧ b' = b ∧ sc ∈ l.*1)) as S5 by (intros; by rewrite S4, D2, S2, S1).
  assert (∀ k b' sc c, rec_in d' k b' sc c ↔ rec_in (det s) k b' sc c ∨ (k ∈ [ScopesAdded; CollectionsAdded] ∧ b' = b ∧ ∃ cs, (sc, cs) ∈ l ∧ c ∈ cs)) as I5 by (intros; by rewrite I4, D2, I2, I1).
  assert (∀ b' sc, live_in_scope (with_det d' s1) b' sc ↔ live_in_scope s b' sc ∨ (b' = b ∧ sc ∈ l.*1)) as L5 by (intros; by apply S3).
  clear S4 I4 S3. split.
  - split_and!; [done|done| |].
    + intros b' sc. cbn [det with_det]. rewrite !S5, L5, HS. clear. set_solver.
    + intros b' sc c. cbn [det with_det]. rewrite !I5, (C3 b' sc c), (HC b' sc c). clear. set_solver.
  - intros b' sc. cbn [det with_det]. rewrite S5, L5. intros [?|(_ & -> & ?)]; [left; by apply Hal|by right].
Qed.
Lemma scopes_create_explained s0 (sel : selection) (m n : Z) s s' u : explained s0 s → added_live s → scopes_create schedule sel m n s = (Ok u, s') →
  explained s0 s' ∧ added_live s'.
Proof.
  unfold scopes_create. generalize (map_to_list sel).*1. intros l. revert s. induction l as [|b l IH]; intros s He Ha H; cbn [mfor] in H; [injection H as _ <-; exact (conj He Ha)|].
  apply bind_inv in H as ([] & s1 & H1 & H2). destruct (create_scopes_in_explained _ _ _ _ _ _ _ He Ha H1) as [He1 Ha1]. by apply (IH s1).
Qed.

(** Collections that are recorded and created, whatever else is recorded under other keys *)
Lemma added_explained s0 s s' (N : pystr → pystr → pystr → Prop) (P : pystr → pystr → Prop) :
  explained s0 s → follows s' → records CollectionsAdded P N (det s) (det s') →
  (∀ b sc, live_in_scope s' b sc ↔ live_in_scope s b sc) → (∀ b sc c, live_in s' b sc c ↔ live_in s b sc c ∨ N b sc c) → explained s0 s'.
Proof.
  intros (F & Wd & HS & HC) F' R LS LC. split_and!; [done|by apply R| |].
  - intros b sc. rewrite LS, HS, (records_other _ _ _ _ _ ScopesAdded R), (records_other _ _ _ _ _ ScopesDropped R) by done. done.
  - intros b sc c. rewrite LC, HC. rewrite (proj1 (proj2 (proj2 R))).
    rewrite (records_other_in _ _ _ _ _ CollectionsDropped R) by (apply not_sharing; [set_solver|done]). clear. naive_solver.
Qed.

(** *** New collections *)

Lemma net_step (m : selection) (t : pystr * pystr * pystr) b sc c :
  has_collection (let scs := default ∅ (m !! t.1.1) in <[t.1.1 := <[t.1.2 := {[t.2]} ∪ default ∅ (scs !! t.1.2)]> scs]> m) b sc c ↔
  has_collection m b sc c ∨ t = (b, sc, c).
Proof.
  destruct t as [[tb tsc] tc]. cbn. unfold has_collection. split.
  - intros (scs & cs & Hb & Hsc & Hc). destruct (decide (tb = b)) as [->|Hne]; [|rewrite lookup_insert_ne in Hb by done; left; by exists scs, cs].
    rewrite lookup_insert_eq in Hb. injection Hb as <-. destruct (decide (tsc = sc)) as [->|Hne].
    + rewrite lookup_insert_eq in Hsc. injection Hsc as <-. apply elem_of_union in Hc as [->%elem_of_singleton|Hc]; [by right|left].
      destruct (m !! b) as [scs|] eqn:Em; cbn in Hc; [|by rewrite lookup_empty in Hc; set_solver]. destruct (scs !! sc) as [cs|] eqn:Es; [|set_solver]. by exists scs, cs.
    + rewrite lookup_insert_ne in Hsc by done. destruct (m !! b) as [scs|] eqn:Em; cbn in Hsc; [|by rewrite lookup_empty in Hsc]. left. by exists scs, cs.
  - intros [(scs & cs & Hb & Hsc & Hc)|[= -> -> ->]].
    + destruct (decide (tb = b)) as [->|Hne]; [|exists scs, cs; by rewrite lookup_insert_ne]. rewrite Hb. cbn. destruct (decide (tsc = sc)) as [->|Hne].
      * eexists _, _. rewrite lookup_insert_eq. split; [done|]. rewrite lookup_insert_eq, Hsc. split; [done|]. set_solver.
      * eexists _, cs. rewrite lookup_insert_eq. split; [done|]. by rewrite lookup_insert_ne.
    + eexists _, _. rewrite lookup_insert_eq. split; [done|]. rewrite lookup_insert_eq. split; [done|]. set_solver.
Qed.
Lemma net_dict_spec (ts : list (pystr * pystr * pystr)) b sc c : has_collection (net_dict ts) b sc c ↔ (b, sc, c) ∈ ts.
Proof.
  unfold net_dict. trans (has_collection ∅ b sc c ∨ (b, sc, c) ∈ ts).
  - generalize (∅ : selection). induction ts as [|t ts IH]; intros m; cbn [foldl]; [set_solver|]. rewrite IH, net_step, elem_of_cons. clear. naive_solver.
  - split; [|by right]. intros [(scs & ? & H & _)|?]; [by rewrite lookup_empty in H|done].
Qed.

Lemma submit_new_same s0 (n : nat) (sel : selection) : minv (same s0) (submit_new (W := W) random n sel).
Proof.
  assert (minv (same s0) (tick (W := W))) as Ht by (intros s Hs; exact Hs).
  assert (minv (same s0) (collection_name (W := W))) as Hc by (intros s Hs; exact Hs).
  assert (∀ l, minv (same s0) (sample_one (W := W) random l)) as H1 by (intros l; unfold sample_one; apply minv_bind; [done|]; intros k; solve_minv).
  assert (minv (same s0) (pick_new (W := W) random sel)) as H2.
  { unfold pick_new. apply minv_bind; [apply H1|]. intros b. apply minv_bind; [apply minv_lift|]. intros scs. apply minv_bind; [apply H1|]. intros sc.
    apply minv_bind; [done|]. intros c. apply minv_ret. }
  induction n as [|n IH]; cbn [submit_new]; [apply minv_ret|]. apply minv_bind.
  - apply minv_try; [apply minv_bind; [done|intros; apply minv_ret]|intros; apply minv_ret].
  - intros [t|e]; [|apply minv_ret]. apply minv_bind; [done|]. intros [ts e]. apply minv_ret.
Qed.
Lemma record_net_spec (net : selection) (l : list (pystr * pystr * pystr)) s s' u : wfd (det s) →
  mfor l (λ t : pystr * pystr * pystr, update_ops_details_dict CollectionsAdded {[t.1.1 := default ∅ (net !! t.1.1)]} false) s = (Ok u, s') →
  ∃ d' P, s' = with_det d' s ∧ records CollectionsAdded P (λ b sc c, (∃ t, t ∈ l ∧ t.1.1 = b) ∧ has_collection net b sc c) (det s) d'.
Proof.
  revert s. induction l as [|t l IH]; intros s Hd H; cbn [mfor] in H.
  - injection H as _ <-. exists (det s). eexists. split; [by destruct s|]. eapply records_ext; [done| |by apply records_nothing]. set_solver.
  - apply bind_inv in H as ([] & s1 & H1 & H2). destruct (update_spec _ _ _ _ _ _ Hd H1) as (d1 & -> & R1).
    destruct (IH (with_det d1 s) (proj1 R1) H2) as (d2 & P & -> & R2). exists d2. eexists. split; [done|].
    eapply records_ext; [done| |exact (records_trans _ _ _ _ _ _ _ _ R1 R2)]. intros b sc c. setoid_rewrite elem_of_cons. cbn.
    assert (has_collection {[t.1.1 := default ∅ (net !! t.1.1)]} b sc c ↔ t.1.1 = b ∧ has_collection net b sc c) as ->; [|clear; naive_solver].
    unfold has_collection. split.
    + intros (scs & cs & [<- <-]%lookup_singleton_Some & Hsc & Hc). split; [done|]. destruct (net !! t.1.1) as [scs|] eqn:E; [by exists scs, cs|]. cbn in Hsc. by rewrite lookup_empty in Hsc.
    + intros (<- & scs & cs & Hb & Hsc & Hc). exists scs, cs. rewrite lookup_singleton_eq, Hb. done.
Qed.
Lemma collections_create_explained s0 (sel : selection) (n : Z) s s' u : explained s0 s → collections_create random schedule sel n s = (Ok u, s') → explained s0 s'.
Proof.
  intros He (te & s1 & H1 & H2)%bind_inv. destruct te as [ts e]. apply bind_inv in H2 as (? & s2 & H2 & H3).
  pose proof (submit_new_same s (Z.to_nat n) sel s (same_refl s)) as Hs. rewrite H1 in Hs. cbn in Hs.
  pose proof (explained_same _ _ _ Hs He) as He1. clear He Hs H1. pose proof He1 as (F & Wd & _).
  apply (pool_fills schedule Hsch) in H2 as (F2 & D2 & S2 & C2 & _); [|by apply Forall_fmap, Forall_forall|done].
  destruct (record_net_spec (net_dict ts) ts s2 s' u) as (d' & P & -> & R); [by rewrite D2|done|]. rewrite D2 in R.
  eapply added_explained; [exact He1|exact F2|exact R| |].
  - intros b sc. trans (live_in_scope s2 b sc); [done|]. rewrite S2. clear. naive_solver.
  - intros b sc c. trans (live_in s2 b sc c); [done|]. rewrite C2, net_dict_spec. split.
    + intros [[? _]|(j & ([[b' sc'] c'] & -> & Ht)%list_elem_of_fmap & spec & Hj & <-)]; [by left|right]. injection Hj as -> -> <-. split; [by eexists|done].
    + intros [?|[_ Ht]]; [left; auto|right]. eexists. split; [by apply list_elem_of_fmap_2|]. by eexists.
Qed.

(** *** Scopes and collections that are created again *)

Lemma recreate_dict_name o col : cs_name (recreate_dict o col) = c_name col.
Proof. unfold recreate_dict. by case_bool_decide. Qed.
Lemma recreate_scope_spec b sc s s' u : follows s → recreate_scope schedule (b, sc) s = (Ok u, s') →
  effect (λ _ _, False) (λ b' sc', b' = b ∧ sc' = sc) (λ _ _ _, False) (λ b' sc' c, b' = b ∧ sc' = sc ∧ known_in s b sc c) s s'.
Proof.
  intros F. unfold recreate_scope, bucket_obj. cbn [fst snd]. intros (o & s1 & Ho & H)%bind_inv. rewrite (bind_Ok get _ _ _ _ eq_refl) in Ho. injection Ho as Ho <-.
  apply bind_inv in H as (x & s1 & Hx & H). injection Hx as Hx <-. apply bind_inv in H as ([] & s1 & H1 & H2).
  assert (obj s b = Some o) as Ho' by (unfold obj; destruct (get_bucket_obj (objs s) b); [by injection Ho as ->|done]).
  unfold dict_get in Hx. destruct (scopes o !! sc) as [x'|] eqn:Ex; [|done]. injection Hx as ->. destruct (follows_wf s b o F Ho' sc x Ex) as [Hn Hw].
  unfold scope_dict in H1. rewrite Hn in H1. apply (run_job_ok (b, CreateScope sc)) in H1 as [(F1 & D1 & S1 & C1 & K1 & K1') _]; [|done|exact F].
  apply (pool_fills schedule Hsch) in H2 as (F2 & D2 & S2 & C2 & K2 & K2'); [|by apply Forall_fmap, Forall_forall|done].
  assert (∀ b' sc' c, (∃ j, j ∈ ((λ c : pystr * collection, (b, CreateCollection sc (recreate_dict o c.2))) <$> map_to_list (collections x)) ∧ cadd j b' sc' c) ↔
    b' = b ∧ sc' = sc ∧ known_in s b sc c) as Hj.
  { intros b' sc' c. split.
    - intros (j & ([k col] & -> & Hk)%list_elem_of_fmap & spec & Hj & <-). apply elem_of_map_to_list in Hk. injection Hj as -> -> <-. split_and!; [done|done|].
      rewrite recreate_dict_name. destruct (Hw k col Hk) as [-> _]. exists o. split; [done|]. exists x. eauto.
    - intros (-> & -> & o' & Ho2 & x2 & Hx2 & col & Hc). assert (o' = o) as -> by congruence. assert (x2 = x) as -> by congruence.
      eexists. split; [apply list_elem_of_fmap_2, elem_of_map_to_list, Hc|]. eexists. split; [done|]. cbn [snd]. rewrite recreate_dict_name. by destruct (Hw c col Hc). }
  split_and!; [done|congruence| | | |].
  - intros b' sc'. rewrite S2, S1. unfold sdel, sadd. split; [intros [[[[? _]|Hx] _]|[]]|intros [[? _]|[-> ->]]].
    + left. auto.
    + right. by injection Hx as -> ->.
    + left. split; [left|auto]. by split.
    + left. split; [by right|auto].
  - intros b' sc' c. rewrite C2, C1, Hj. unfold cdel, cadd. split; [intros [[[[? _]|(? & ? & _)] _]|?]; [left; auto|done|by right]|].
    intros [[? _]|?]; [left|by right]. split; [left|auto]. split; [done|]. by intros [?|?].
  - auto.
  - intros b' sc' c Hk. apply K2' in Hk as [Hk|Hk]; [|right; by apply Hj]. apply K1' in Hk as [Hk|(? & ? & _)]; [by left|done].
Qed.
Lemma recreate_scopes_spec (l : list (pystr * pystr)) s s' u : follows s → mfor l (recreate_scope schedule) s = (Ok u, s') →
  effect (λ _ _, False) (λ b sc, (b, sc) ∈ l) (λ _ _ _, False) (λ b sc c, (b, sc) ∈ l ∧ known_in s b sc c) s s'.
Proof.
  revert s. induction l as [|[b sc] l IH]; intros s F H; cbn [mfor] in H.
  - injection H as _ <-. split_and!; [done|done|set_solver|set_solver|done|by left].
  - apply bind_inv in H as ([] & s1 & H1 & H2). destruct (recreate_scope_spec _ _ _ _ _ F H1) as (F1 & D1 & S1 & C1 & K1 & K1').
    destruct (IH s1 F1 H2) as (F2 & D2 & S2 & C2 & K2 & K2').
    assert (∀ b sc c, known_in s1 b sc c ↔ known_in s b sc c) as Hk by (intros b' sc' c; split; [intros [?|(-> & -> & ?)]%K1'; done|apply K1]).
    split_and!; [done|congruence| | |auto|].
    + intros b' sc'. rewrite S2, S1, elem_of_cons, pair_equal_spec. clear. naive_solver.
    + intros b' sc' c. rewrite C2, C1, elem_of_cons, Hk, pair_equal_spec. clear. naive_solver.
    + intros b' sc' c Hx. apply K2' in Hx as [Hx|[? Hx]]; rewrite Hk in Hx; [by left|right]. split; [by apply elem_of_cons; right|done].
Qed.
Lemma scopes_recreate_explained s0 (sel : selection) s s' u : (∀ b sc c, ¬ has_collection sel b sc c) →
  explained s0 s → scopes_recreate schedule sel s = (Ok u, s') → explained s0 s'.
Proof.
  intros Hempty (F & Wd & HS & HC) (? & s1 & H1 & H2)%bind_inv. apply bind_inv in H2 as (? & s2 & H2 & H3).
  destruct (update_spec _ _ _ _ _ _ Wd H1) as (d1 & -> & R1). destruct (update_spec _ _ _ (with_det d1 s) _ _ (proj1 R1) H2) as (d2 & -> & R2).
  apply recreate_scopes_spec in H3 as (F3 & D3 & S3 & C3 & _); [|exact F]. change (det (with_det d2 (with_det d1 s))) with d2 in D3. rewrite <- D3 in R2.
  change (det (with_det d1 s)) with d1 in R2. split_and!; [done|by apply R2| |].
  - intros b sc. rewrite S3, elem_of_scopes_of. trans ((live_in_scope s b sc ∧ ¬ False) ∨ has_scope sel b sc); [done|]. rewrite HS.
    rewrite (records_other _ _ _ _ _ ScopesAdded R2), (records_other _ _ _ _ _ ScopesDropped R2), (records_other _ _ _ _ _ ScopesDropped R1), (proj1 (proj2 R1)) by done.
    clear. naive_solver.
  - intros b sc c. rewrite C3, elem_of_scopes_of. trans ((live_in s b sc c ∧ ¬ False) ∨ has_scope sel b sc ∧ known_in s b sc c); [done|]. rewrite HC.
    rewrite (proj1 (proj2 (proj2 R2))). rewrite (records_other_in _ _ _ _ _ CollectionsDropped R2), (records_other_in _ _ _ _ _ CollectionsDropped R1) by (apply not_sharing; [set_solver|done]).
    assert (rec_in d1 CollectionsAdded b sc c ↔ rec_in (det s) CollectionsAdded b sc c) as ->; [|clear; naive_solver].
    destruct R1 as (_ & _ & _ & R3 & R4). split; [|apply R3]. intros [?|[_ Hx]]%R4; [done|]. by apply Hempty in Hx.
Qed.

Lemma submit_recreated_spec s (ts : list (pystr * pystr * pystr)) js : follows s → submit_recreated (objs s) ts = (js, None) →
  Forall (λ j, fills j = true) js ∧ ∀ b sc c, (∃ j, j ∈ js ∧ cadd j b sc c) ↔ (b, sc, c) ∈ ts.
Proof.
  intros F. revert js. induction ts as [|[[b sc] c] ts IH]; intros js H; cbn [submit_recreated] in H; [injection H as <-; split; [constructor|set_solver]|].
  destruct (o ← of_option AttributeError (get_bucket_obj (objs s) b); x ← dict_get (scopes o) sc; col ← dict_get (collections x) c; Ok (recreate_dict o col)) as [d|e] eqn:E; [|done].
  destruct (submit_recreated (objs s) ts) as [js' e]. injection H as <- ->. destruct (IH js' eq_refl) as [H1 H2]. split; [by constructor|].
  apply res_bind_inv in E as (o & Ho & E). apply res_bind_inv in E as (x & Hx & E). apply res_bind_inv in E as (col & Hc & E). injection E as <-.
  unfold dict_get in Hx, Hc. destruct (get_bucket_obj (objs s) b) as [o'|] eqn:Eo; [|done]. injection Ho as ->. destruct (scopes o !! sc) as [x'|] eqn:Ex; [|done]. injection Hx as ->.
  destruct (collections x !! c) as [col'|] eqn:Ec; [|done]. injection Hc as ->. destruct (follows_wf s b o F Eo sc x Ex) as [_ Hw]. destruct (Hw c col Ec) as [Hn _].
  intros b' sc' c'. rewrite elem_of_cons, <- H2. setoid_rewrite elem_of_cons. split.
  - intros (j & [->|Hj] & Ha); [left|right; eauto]. destruct Ha as (spec & Ha & <-). injection Ha as -> -> <-. by rewrite recreate_dict_name, Hn.
  - intros [Ht|(j & Hj & Ha)]; [|eauto]. injection Ht as -> -> ->. eexists. split; [by left|]. eexists. split; [done|]. by rewrite recreate_dict_name.
Qed.
Lemma collections_recreate_explained s0 (sel : selection) s s' u : explained s0 s → collections_recreate schedule sel s = (Ok u, s') → explained s0 s'.
Proof.
  intros He (? & s1 & H1 & H2)%bind_inv. pose proof He as (F & Wd & _). destruct (update_spec _ _ _ _ _ _ Wd H1) as (d1 & -> & R1).
  rewrite (bind_Ok get _ _ _ _ eq_refl) in H2. change (objs (with_det d1 s)) with (objs s) in H2. destruct (submit_recreated (objs s) (collections_of sel)) as [js e] eqn:E.
  pose proof (pool_inv _ _ _ _ _ _ H2) as [-> _]. destruct (submit_recreated_spec s _ js F E) as [Hf Hj].
  apply (pool_fills schedule Hsch) in H2 as (F2 & D2 & S2 & C2 & _); [|done|exact F]. change (det (with_det d1 s)) with d1 in D2. rewrite <- D2 in R1.
  eapply added_explained; [exact He|exact F2|exact R1| |].
  - intros b sc. rewrite S2. trans ((live_in_scope s b sc ∧ ¬ False) ∨ False); [done|]. clear. naive_solver.
  - intros b sc c. rewrite C2, Hj, elem_of_collections_of. trans ((live_in s b sc c ∧ ¬ False) ∨ has_collection sel b sc c); [done|]. clear. naive_solver.
Qed.
End Operations.

(** ** Proofs: the whole *)

(** A selection of scopes has no collections. *)
Lemma buckets_no_collections (sample : list pystr → Z → res (list pystr)) (bs : list bucket) (r : req) ex sel b sc c :
  get_random_buckets sample bs r ex = Ok sel → ¬ has_collection sel b sc c.
Proof.
  unfold get_random_buckets. intros (l & _ & [= <-])%res_bind_inv. assert (∀ m : selection, (∀ b sc c, ¬ has_collection m b sc c) →
    ¬ has_collection (foldl (λ m n, <[n := ∅]> m) m l) b sc c) as H.
  { induction l as [|n l IH]; intros m Hm; cbn [foldl]; [apply Hm|]. apply IH. intros b' sc' c' (scs & cs & Hb & Hsc & Hc).
    rewrite lookup_insert in Hb. case_decide; [injection Hb as <-; by rewrite lookup_empty in Hsc|]. apply (Hm b' sc' c'). by exists scs, cs. }
  apply H. intros b' sc' c' (scs & ? & Hb & _). by rewrite lookup_empty in Hb.
Qed.
Lemma scopes_no_collections (sample : list pystr → Z → res (list pystr)) (bs : list bucket) (r rb : req) avoid od ex sel b sc c :
  get_random_scopes sample bs r rb avoid od ex = Ok sel → ¬ has_collection sel b sc c.
Proof.
  unfold get_random_scopes. intros (m & Hm & H)%res_bind_inv. apply res_bind_inv in H as (av & _ & H). apply res_bind_inv in H as (l & _ & H).
  assert (∀ b sc c, ¬ has_collection m b sc c) as Hno by (intros b' sc' c'; by eapply buckets_no_collections). clear Hm. revert m Hno H.
  induction l as [|q l IH]; intros m Hno H; cbn [select_scopes] in H; [injection H as <-; apply Hno|].
  apply res_bind_inv in H as (m1 & Hm1 & H). refine (IH m1 _ H). intros b' sc' c' (scs & cs & Hb & Hsc & Hc). unfold select_scope in Hm1.
  apply res_bind_inv in Hm1 as (qb & _ & Hm1). apply res_bind_inv in Hm1 as (qs & _ & Hm1). apply res_bind_inv in Hm1 as (scs0 & Hs0 & Hm1). injection Hm1 as <-.
  rewrite lookup_insert in Hb. case_decide as Eb; [|apply (Hno b' sc' c'); by exists scs, cs]. injection Hb as <-. rewrite lookup_insert in Hsc.
  case_decide; [injection Hsc as <-; set_solver|]. unfold dict_get in Hs0. destruct (m !! qb) as [scs1|] eqn:Eq; [|done]. injection Hs0 as ->. subst.
  apply (Hno b' sc' c'). by exists scs0, cs.
Qed.

Lemma collections_flush_none {W} (HM : Manifest W) (s : sys W) : collections_flush ∅ s = (Ok tt, s).
Proof. unfold collections_flush, update_ops_details_dict, collections_of. by rewrite map_to_list_empty. Qed.

(** ** Properties *)

(** C6: What [perform_tasks_from_spec] returns is what has changed.  When every bucket object follows its bucket on the cluster and the run ends without an exception, then,
    whatever was chosen and in whatever order the threads ran, every bucket object follows its bucket again; the live scopes are those from before that are not among the dropped ones,
    and the added ones; the live collections likewise. *)
Theorem tasks_recorded {W : Type} {HM : Manifest W} {HL : ManifestLaws W} (random : nat → list pystr → Z → res (list pystr))
    (schedule : nat → list job → list job) (sp : crud_spec) (s s' : sys W) (d : details) :
  (∀ (k : nat) (l : list job), schedule k l ≡ₚ l) → follows s → perform_tasks_from_spec random schedule sp s = (Ok d, s') →
  follows s' ∧
  (∀ b sc : pystr, live_in_scope s' b sc ↔ (live_in_scope s b sc ∧ ¬ rec_scope d ScopesDropped b sc) ∨ rec_scope d ScopesAdded b sc) ∧
  (∀ b sc c : pystr, live_in s' b sc c ↔ (live_in s b sc c ∧ ¬ rec_in d CollectionsDropped b sc c) ∨ rec_in d CollectionsAdded b sc c).
Proof.
  intros Hsch F. unfold perform_tasks_from_spec. rewrite (bind_Ok (on_det _) _ _ _ _ eq_refl), (bind_Ok get _ _ _ _ eq_refl).
  set (s0 := with_det no_details s). fold s0.
  assert (explained s s0 ∧ none_added (det s0)) as [E0 N0].
  { assert (∀ k b sc, ¬ rec_scope no_details k b sc) as Hn by (intros k b sc [r Hr]; unfold ref in Hr; cbn in Hr; by rewrite lookup_empty in Hr).
    assert (∀ k b sc c, ¬ rec_in no_details k b sc c) as Hn' by (intros k b sc c Hr%rec_in_scope; by apply Hn in Hr).
    split; [|intros b sc; split; apply Hn]. split_and!; [done| | |].
    - split; [intros k b sc r Hr; by destruct (Hn k b sc); exists r|intros k b sc k' b' sc' r Hr; by destruct (Hn k b sc); exists r].
    - intros b sc. pose proof (Hn ScopesAdded b sc). pose proof (Hn ScopesDropped b sc). change (live_in_scope s0 b sc) with (live_in_scope s b sc). tauto.
    - intros b sc c. pose proof (Hn' CollectionsAdded b sc c). pose proof (Hn' CollectionsDropped b sc c). change (live_in s0 b sc c) with (live_in s b sc c). tauto. }
  intros (sel1 & s1 & H1 & H)%bind_inv. apply choose_with_inv in H1 as [Q1 _]. rewrite (bind_Ok _ _ _ _ _ (collections_flush_none HM s1)) in H.
  apply (explained_same _ _ _ Q1) in E0. apply (none_same _ _ Q1) in N0. clear Q1.
  apply bind_inv in H as (? & s2 & H2 & H). destruct (collections_drop_explained schedule Hsch _ _ _ _ _ E0 N0 H2) as [E2 N2]. clear E0 N0 H2.
  apply bind_inv in H as (sel2 & s3 & H3 & H). apply choose_with_inv in H3 as [Q3 _]. apply (explained_same _ _ _ Q3) in E2. apply (none_same _ _ Q3) in N2. clear Q3.
  apply bind_inv in H as (? & s4 & H4 & H). destruct (scopes_drop_explained schedule Hsch _ _ _ _ _ E2 N2 H4) as [E4 N4]. clear E2 N2 H4.
  apply bind_inv in H as (sel3 & s5 & H5 & H). apply choose_with_inv in H5 as [Q5 _]. apply (explained_same _ _ _ Q5) in E4. apply (none_same _ _ Q5) in N4. clear Q5.
  apply bind_inv in H as (? & s6 & H6 & H). assert (added_live s5) as A5 by (intros b sc Hr; by apply N4 in Hr).
  destruct (scopes_create_explained random schedule Hsch _ _ _ _ _ _ _ E4 A5 H6) as [E6 _]. clear E4 A5 N4 H6.
  apply bind_inv in H as (sel4 & s7 & H7 & H). apply choose_with_inv in H7 as [Q7 _]. apply (explained_same _ _ _ Q7) in E6. clear Q7.
  apply bind_inv in H as (? & s8 & H8 & H). apply (collections_create_explained random schedule Hsch _ _ _ _ _ _ E6) in H8 as E8. clear E6 H8.
  apply bind_inv in H as (sel5 & s9 & H9 & H). apply choose_with_inv in H9 as [Q9 H9]. apply (explained_same _ _ _ Q9) in E8. clear Q9.
  apply bind_inv in H as (? & s10 & H10 & H).
  apply (scopes_recreate_explained schedule Hsch _ _ _ _ _ (λ b sc c, scopes_no_collections _ _ _ _ _ _ _ _ b sc c H9) E8) in H10 as E10. clear E8 H10.
  apply bind_inv in H as (sel6 & s11 & H11 & H). apply choose_with_inv in H11 as [Q11 _]. apply (explained_same _ _ _ Q11) in E10. clear Q11.
  apply bind_inv in H as (? & s12 & H12 & H). apply (collections_recreate_explained schedule Hsch _ _ _ _ _ E10) in H12 as (F12 & _ & S12 & C12).
  rewrite (bind_Ok get _ _ _ _ eq_refl) in H. injection H as <- <-. done.
Qed.

(** Every part keeps the bucket objects in step with the cluster. *)
Section Follow.
Context {W : Type} {HM : Manifest W} {HL : ManifestLaws W}.
Context (random : nat → list pystr → Z → res (list pystr)) (schedule : nat → list job → list job).
Abbreviation keeps := (minv (follows (W := W))).

Lemma on_det_follows f : keeps (on_det f).
Proof. intros s Hs. exact Hs. Qed.
Lemma tick_follows : keeps tick.
Proof. intros s Hs. exact Hs. Qed.
Lemma scope_name_follows : keeps scope_name.
Proof. intros s Hs. exact Hs. Qed.
Lemma collection_name_follows : keeps collection_name.
Proof. intros s Hs. exact Hs. Qed.
Lemma repeat_follows {A} (n : nat) (m : M (sys W) A) : keeps m → keeps (repeat_m n m).
Proof. intros Hm. induction n as [|n IH]; cbn [repeat_m]; solve_minv. Qed.
#[local] Hint Resolve on_det_follows tick_follows scope_name_follows collection_name_follows repeat_follows pool_follows run_job_follows : taf.
Lemma bucket_obj_follows b : keeps (bucket_obj b).
Proof. unfold bucket_obj. solve_minv. Qed.
#[local] Hint Resolve bucket_obj_follows : taf.
Lemma record_scope_follows k fetch b sc cols : keeps (record_scope k fetch b sc cols).
Proof. unfold record_scope. apply minv_bind; [auto with taf|]. intros s. destruct (open_scope k b sc (det s)) as [r d]. destruct fetch; solve_minv. Qed.
#[local] Hint Resolve record_scope_follows : taf.
Lemma update_follows k sel fetch : keeps (update_ops_details_dict k sel fetch).
Proof. unfold update_ops_details_dict. solve_minv. Qed.
#[local] Hint Resolve update_follows : taf.
Lemma create_scope_follows b n : keeps (on_bucket b (create_scope n)).
Proof. apply (run_job_follows (b, CreateScope n)). Qed.
#[local] Hint Resolve create_scope_follows : taf.
Lemma create_one_scope_follows b n : keeps (create_one_scope schedule b n).
Proof. unfold create_one_scope. solve_minv. Qed.
Lemma record_new_follows b x : keeps (record_new b x).
Proof. unfold record_new. apply minv_bind; [auto with taf|]. intros s. cbn [new_cell]. auto with taf. Qed.
#[local] Hint Resolve create_one_scope_follows record_new_follows : taf.
Lemma scopes_create_follows sel m n : keeps (scopes_create schedule sel m n).
Proof. unfold scopes_create, create_scopes_in. solve_minv. Qed.
Lemma scopes_drop_follows sel : keeps (scopes_drop schedule sel).
Proof. unfold scopes_drop. solve_minv. Qed.
Lemma recreate_scope_follows p : keeps (recreate_scope schedule p).
Proof. unfold recreate_scope. solve_minv. Qed.
#[local] Hint Resolve recreate_scope_follows : taf.
Lemma scopes_recreate_follows sel : keeps (scopes_recreate schedule sel).
Proof. unfold scopes_recreate. solve_minv. Qed.
Lemma sample_one_follows l : keeps (sample_one random l).
Proof. unfold sample_one. solve_minv. Qed.
#[local] Hint Resolve sample_one_follows minv_try : taf.
Lemma submit_new_follows n sel : keeps (submit_new random n sel).
Proof.
  assert (keeps (pick_new random sel)) as Hp by (unfold pick_new; solve_minv). induction n as [|n IH]; cbn [submit_new]; [auto with taf|]. apply minv_bind.
  - apply minv_try; solve_minv.
  - intros [t|e]; [|auto with taf]. apply minv_bind; [done|]. intros [ts e]. auto with taf.
Qed.
Lemma collections_create_follows sel n : keeps (collections_create random schedule sel n).
Proof. unfold collections_create. apply minv_bind; [apply submit_new_follows|]. intros [ts e]. solve_minv. Qed.
Lemma collections_flush_follows sel : keeps (collections_flush sel).
Proof. unfold collections_flush. solve_minv. apply on_bucket_follows. done. Qed.
Lemma collections_drop_follows sel : keeps (collections_drop schedule sel).
Proof. unfold collections_drop. solve_minv. Qed.
Lemma collections_recreate_follows sel : keeps (collections_recreate schedule sel).
Proof. unfold collections_recreate. apply minv_bind; [auto with taf|]. intros ?. apply minv_bind; [auto with taf|]. intros s. destruct (submit_recreated _ _). auto with taf. Qed.
Lemma choose_with_follows f : keeps (choose_with random f).
Proof. unfold choose_with. solve_minv. Qed.
#[local] Hint Resolve scopes_create_follows scopes_drop_follows scopes_recreate_follows collections_create_follows collections_flush_follows
  collections_drop_follows collections_recreate_follows choose_with_follows : taf.
Lemma perform_tasks_follows sp : keeps (perform_tasks_from_spec random schedule sp).
Proof. unfold perform_tasks_from_spec. solve_minv. Qed.
End Follow.


Lemma run_jobs_total {W : Type} {HM : Manifest W} (l : list job) (s : sys W) : ∃ os s', run_jobs l s = (Ok os, s').
Proof.
  revert s. induction l as [|j l IH]; intros s; cbn [run_jobs]; [by eexists _, _|].
  assert (∃ o s1, try_except (_ ← run_job j; mret None) (λ e, mret (Some e)) s = (Ok o, s1)) as (o & s1 & H).
  { unfold try_except. destruct ((_ ← run_job j; mret None) s) as [[]]; by eexists _, _. }
  rewrite (bind_Ok _ _ _ _ _ H). destruct (IH s1) as (os & s2 & H2). rewrite (bind_Ok _ _ _ _ _ H2). by eexists _, _.
Qed.
Lemma pool_submission {W : Type} {HM : Manifest W} (schedule : nat → list job → list job) js e (s : sys W) : ∃ s', pool schedule js (Some e) s = (Err e, s').
Proof.
  unfold pool. rewrite (bind_Ok tick _ _ _ _ eq_refl). destruct (run_jobs_total (schedule (ticks s) js) (Sys (bks s) (det s) (scope_counter s) (collection_counter s) (S (ticks s)))) as (os & s' & H).
  rewrite (bind_Ok _ _ _ _ _ H). by eexists.
Qed.

(** Adding collections fails when a bucket was chosen in which no scope was: [random.sample] then gets an empty list, and [ValueError] ends the run. *)
Theorem no_scope_chosen {W : Type} {HM : Manifest W} (random : nat → list pystr → Z → res (list pystr)) (schedule : nat → list job → list job)
    (sel : selection) (n : Z) (b : pystr) (s : sys W) :
  (∀ k : nat, samples (random k)) → 0 < n → sel !! b = Some ∅ → random (ticks s) (map_to_list sel).*1 1 = Ok [b] →
  (collections_create random schedule sel n s).1 = raise ValueError.
Proof.
  intros Hr Hn Hb Hp. unfold collections_create. destruct (Z.to_nat n) as [|m] eqn:Em; [lia|]. cbn [submit_new].
  assert (∃ s1, pick_new random sel s = (raise ValueError, s1)) as [s1 H1].
  { unfold pick_new, sample_one. eexists. rewrite (bind_Ok _ _ _ b (Sys (bks s) (det s) (scope_counter s) (collection_counter s) (S (ticks s)))).
    - rewrite (bind_Ok (lift _) _ _ ∅ _) by (unfold lift, dict_get; by rewrite Hb). rewrite map_to_list_empty. cbn [fmap list_fmap]. apply bind_Err.
      rewrite (bind_Ok tick _ _ _ _ eq_refl). apply bind_Err. specialize (Hr (S (ticks s)) [] 1). rewrite bool_decide_eq_false_2 in Hr by (unfold len; cbn; lia).
      unfold lift. cbn [ticks]. rewrite Hr. done.
    - rewrite (bind_Ok tick _ _ _ _ eq_refl). rewrite (bind_Ok (lift _) _ _ [b] _) by (unfold lift; by rewrite Hp). done. }
  rewrite (bind_Ok _ _ _ ([], Some (Exn ValueError [])) s1).
  - destruct (pool_submission schedule [] (Exn ValueError []) s1) as [s2 H2]. cbv beta iota. cbn [fmap list_fmap]. by rewrite (bind_Err _ _ _ _ _ H2).
  - rewrite (bind_Ok _ _ _ (inr (Exn ValueError [])) s1); [done|]. unfold try_except. by rewrite (bind_Err _ _ _ _ _ H1).
Qed.

(** ** Examples *)

Definition demo_sys : sys DemoServer.server := Sys ((λ b, (b, DemoServer.Server (active b) 0)) <$> demo_buckets) no_details 0 0 0.
Lemma demo_follows : follows demo_sys.
Proof.
  unfold follows, demo_sys. cbn [bks]. apply Forall_fmap, Forall_forall. intros b (n & _ & Hb)%list_elem_of_omap.
  destruct (Bucket_init (py "default") (Some n) ∅) as [b'|] eqn:E; [|done]. injection Hb as ->. by destruct (Bucket_init_view _ _ _ _ E) as (H1 & _ & H3).
Qed.
(** Drop a collection, add a scope with two collections to every bucket, and one more collection. *)
Definition demo_spec : crud_spec := CrudSpec (Some (Num 1)) (Some All) (Some All) None (Some 1) (Some 2) (Some 1) None None.
Lemma demo_schedule (k : nat) (l : list job) : rev l ≡ₚ l.
Proof. symmetry. apply Permutation_rev. Qed.

Lemma tasks_recorded_witness :
  ∃ d s', perform_tasks_from_spec (λ _, first_sample) (λ _ l, rev l) demo_spec demo_sys = (Ok d, s') ∧ follows s' ∧
    (live_in s' (py "b1") (py "scope-1") (py "collection-2") ↔
       (live_in demo_sys (py "b1") (py "scope-1") (py "collection-2") ∧ ¬ rec_in d CollectionsDropped (py "b1") (py "scope-1") (py "collection-2")) ∨
       rec_in d CollectionsAdded (py "b1") (py "scope-1") (py "collection-2")).
Proof.
  assert (is_ok (perform_tasks_from_spec (λ _, first_sample) (λ _ l, rev l) demo_spec demo_sys).1 = true) as Hok by (vm_compute; reflexivity).
  destruct (perform_tasks_from_spec (λ _, first_sample) (λ _ l, rev l) demo_spec demo_sys) as [[d|e] s'] eqn:E; [|discriminate Hok].
  destruct (tasks_recorded _ _ _ _ _ _ demo_schedule demo_follows E) as (H1 & _ & H3). exists d, s'. exact (conj eq_refl (conj H1 (H3 _ _ _))).
Defined.
Lemma no_scope_chosen_witness :
  (collections_create (λ _, first_sample) (λ _ l, l) {[py "b1" := ∅]} 1 demo_sys).1 = raise ValueError.
Proof.
  apply (no_scope_chosen _ _ _ _ (py "b1")); [intros _; exact first_sample_samples|reflexivity|apply lookup_singleton_eq|vm_compute; reflexivity].
Defined.

(** The scopes and collections recorded under a key *)
Definition listed (d : details) (k : dkey) : list (pystr * pystr * list pystr) :=
  b ← map_to_list (tables d k); sc ← map_to_list b.2; [(b.1, sc.1, elements (default ∅ (cells d !! sc.2)))].
(** A collection that is added to a scope after the scope was created appears among the added scopes too, since the dictionary is shared. *)
Example added_twice :
  let s := Sys (bks demo_sys) no_details 0 0 0 in
  let run := (_ ← scopes_create (λ _ l, l) {[py "b1" := ∅]} 1 0;
              collections_create (λ _, first_sample) (λ _ l, l) {[py "b1" := {[py "scope-0" := ∅]}]} 1) in
  listed (det (run s).2) ScopesAdded = [(py "b1", py "scope-0", [py "collection-0"])].
Proof. vm_compute. reflexivity. Qed.
