(* ===== verification/BucketVerify.v ===== *)
(** * Checks on buckets

    The checks of [BucketUtils] (couchbase_utils/bucket_utils/bucket_ready_functions.py) that compare a test's bucket objects with what the cluster
    reports: on which servers a bucket is, item counts with replicas, warm-up, documents per collection, the placement of serverless buckets,
    replicas in server groups, history retention, and failed document operations.  What the cluster reports is an argument; time is the class [Clock] of Waits.v. *)

From S2P Require Import Prelude Py Json Bucket DocLoader Cbstats Waits.
Local Open Scope string_scope.
Local Open Scope list_scope.
Local Open Scope Z_scope.
#[local] Arguments py : simpl never.

(** ** [get_updated_bucket_server_list] *)

Record node := Node { n_ip : pystr; n_port : Z; memcached_port : Z }.
Definition cluster_run_memcached_port := 12000.
Definition cluster_run_ssl_memcached_port := 11999.
Record cluster_kind := ClusterKind { cluster_run : bool; use_https : bool }.

(** Whether a node is the one with address [ip] and memcached port [mc_port] *)
Definition is_node (ck : cluster_kind) (ip : pystr) (mc_port : Z) (n : node) : bool :=
  bool_decide (n_ip n = ip) &&
  (if cluster_run ck then
     if use_https ck then mc_port =? cluster_run_memcached_port + 2 * ((cluster_run_ssl_memcached_port - memcached_port n) / 4)
     else memcached_port n =? mc_port
   else true).
(** [ip, mc_port = server.split(":")] *)
Definition parse_server (server : pystr) : res (pystr * Z) :=
  match split_on ":"%char server with
  | [ip; port] => p ← int_of_str port; Ok (ip, p)
  | _ => raise ValueError
  end.
(** The servers found, and the exception that ended the loop, if any. *)
Fixpoint find_servers (ck : cluster_kind) (nodes : list node) (l : list pystr) : list node * option pyexn :=
  match l with
  | [] => ([], None)
  | server :: l =>
      match parse_server server with
      | Err e => ([], Some e)
      | Ok (ip, p) =>
          let here := match list_find (λ n, is_node ck ip p n = true) nodes with Some (_, n) => [n] | None => [] end in
          let '(rest, e) := find_servers ck nodes l in (here ++ rest, e)
      end
  end.
(** One attempt: the server list of the bucket, [None] for [GetBucketInfoFailed].  A [break] in [finally] ends the loop as soon as there are
    servers, and with it an exception. *)
Fixpoint server_list_loop {W} `{Clock W} (fetch : M W (option (list pystr))) (ck : cluster_kind) (nodes : list node) (retry : nat) : M W (list node) :=
  match retry with
  | O => mret []
  | S retry =>
      '(servers, e) ← try_except (r ← fetch; mret (match r with Some l => find_servers ck nodes l | None => ([], None) end)) (λ e, mret ([], Some e));
      if bool_decide (servers = []) then
        match e with
        | Some e => lift (Err e)
        | None => _ ← modify (sleep 2000); server_list_loop fetch ck nodes retry
        end
      else mret servers
  end.
Definition get_updated_bucket_server_list {W} `{Clock W} (fetch : M W (option (list pystr))) (ck : cluster_kind) (nodes : list node) : M W (list node) :=
  server_list_loop fetch ck nodes 15.

(** ** Replicas *)

(** [get_min_nodes_in_zone]: the numbers of nodes in the zones that have some. *)
Definition get_min_nodes_in_zone (counts : list Z) : res Z :=
  let min_count := List.filter (λ n, negb (n =? 0)) counts in
  if len min_count =? 3 then Ok (if 2 <=? len (List.filter (λ n, n =? 1) min_count) then 2 else 3)
  else match min_count with [] => raise ValueError | n :: l => Ok (foldl Z.min n l) end.
(** The replicas that [verify_stats_for_bucket] expects *)
Definition available_replicas (replicaNumber num_zone num_servers : Z) (counts : list Z) : res Z :=
  if 1 <? num_zone then
    if num_zone <=? replicaNumber then n ← get_min_nodes_in_zone counts; Ok (if replicaNumber <? n then replicaNumber else n)
    else Ok replicaNumber
  else Ok (if num_servers <=? replicaNumber then num_servers - 1 else replicaNumber).
(** [verify_stats_for_bucket]: [wait] is a [StatsWaitTask] that has been waited for, by statistic and expected value. *)
Definition verify_stats_for_bucket {W} (wait : pystr → Z → M W unit) (curr_items : list Z) (memcached : bool)
    (replicaNumber num_zone : Z) (counts : list Z) (items : Z) : M W unit :=
  if memcached then
    if items =? foldr Z.add 0 curr_items then mret tt else mraise GenericException
  else
    n ← lift (available_replicas replicaNumber num_zone (len curr_items) counts);
    except_Exception (_ ← wait (py "vb_replica_curr_items") (items * n); wait (py "curr_items_tot") (items * (n + 1))) (λ _, mret tt).

(** [verify_items_count] *)
Definition stat_sum (k : pystr) (l : list (gmap pystr Z)) : Z :=
  foldr (λ s n, match s !! py "curr_items" with Some _ => default 0 (s !! k) + n | None => n end) 0 l.
Definition active_differs (master nodes v : Z) : bool := (master + nodes <=? v) && (v <=? master - nodes).
Definition verify_items_count (replica_factor num_zone max_vbuckets : Z) (server_stats : list (gmap pystr Z)) (master_stats : gmap pystr Z) : res bool :=
  let nodes := len server_stats in
  if existsb (λ s, bool_decide (s = ∅)) server_stats then raise StatsUnavailable
  else
    active ← of_option GenericException (master_stats !! py "vb_active_num");
    if existsb (λ s : gmap pystr Z, match s !! py "curr_items", s !! py "vb_active_num" with Some _, Some v => active_differs active nodes v | _, _ => false end) server_stats
    then raise GenericException
    else
      tot ← of_option GenericException (master_stats !! py "curr_items_tot");
      let sum := stat_sum (py "curr_items") server_stats in
      let num_nodes := if 1 <? num_zone then num_zone else nodes in
      let '(expected_replica, delta) :=
        if num_nodes <=? replica_factor then (max_vbuckets * (num_nodes - 1), sum * num_nodes - tot)
        else (max_vbuckets * replica_factor, sum * (replica_factor + 1) - tot) in
      if negb (stat_sum (py "vb_active_num") server_stats =? max_vbuckets) then raise GenericException
      else if negb (stat_sum (py "vb_replica_num") server_stats =? expected_replica) then raise GenericException
      else Ok (Z.abs delta =? 0).
(** [wait_till_total_numbers_match]; the exception that ends the wait is [StatsUnavailableException]. *)
Fixpoint match_loop {W} `{Clock W} (verify : M W bool) (timeout start : Z) (fuel : nat) : M W bool :=
  t ← gets now;
  if t - start <=? timeout * 1000 then
    match fuel with
    | O => mraise Blocked
    | S fuel =>
        v ← try_except (b ← verify; mret (Some b)) (λ e, if decide (exn_cls e = StatsUnavailable) then mret None else lift (Err e));
        match v with
        | None => mret false
        | Some true => mret true
        | Some false => _ ← modify (sleep 2000); match_loop verify timeout start fuel
        end
    end
  else mret false.
Definition wait_till_total_numbers_match {W} `{Clock W} (verify : M W bool) (timeout : Z) (fuel : nat) : M W bool :=
  start ← gets now; match_loop verify timeout start fuel.

(** [_wait_warmup_completed]: a server is asked for its statistics until it says that it is warm. *)
Fixpoint warmup_loop {W S} `{Clock W} (all_stats : S → M W (gmap pystr pystr)) (wait_time start : Z) (fuel : nat) (server : S) : M W bool :=
  t ← gets now;
  if t - start <? wait_time * 1000 then
    match fuel with
    | O => mraise Blocked
    | Datatypes.S fuel =>
        warm ← except_Exception (d ← all_stats server; v ← lift (dict_get d (py "ep_warmup_thread")); mret (bool_decide (v = py "complete"))) (λ _, mret false);
        if (warm : bool) then mret true else _ ← modify (sleep 2000); warmup_loop all_stats wait_time start fuel server
    end
  else mret false.
Fixpoint warmup_servers {W S} `{Clock W} (all_stats : S → M W (gmap pystr pystr)) (wait_time start : Z) (fuel : nat) (l : list S) (warmed_up : bool) : M W bool :=
  match l with
  | [] => mret warmed_up
  | s :: l => w ← warmup_loop all_stats wait_time start fuel s; warmup_servers all_stats wait_time start fuel l w
  end.
Definition wait_warmup_completed {W S} `{Clock W} (all_stats : S → M W (gmap pystr pystr)) (membase : bool) (wait_time : Z) (fuel : nat) (servers : list S) : M W bool :=
  if negb membase then mret true
  else start ← gets now; warmup_servers all_stats wait_time start fuel servers false.

(** [verify_vbucket_distribution_in_zones] for one bucket: the vbuckets of the servers of each group *)
Definition zone_vbuckets {S} (ip_of : S → pystr) (vbs : S → list Z) (servers : list S) (ips : list pystr) : list Z :=
  ip ← ips; match list_find (λ s, ip_of s = ip) servers with Some (_, s) => vbs s | None => [] end.
Definition verify_vbucket_distribution {S} (ip_of : S → pystr) (active replica : S → list Z) (servers : list S) (groups : list (list pystr)) : res unit :=
  if forallb (λ ips, bool_decide (list_to_set (zone_vbuckets ip_of active servers ips) ## (list_to_set (zone_vbuckets ip_of replica servers ips) : gset Z))) groups
  then Ok tt else raise GenericException.

(** ** Documents per collection *)

(** [d['items']] of a collection: a number, if the statistics have it *)
Definition items_of (d : gmap pystr sval) : res Z :=
  v ← dict_get d (py "items"); match v with SInt n => Ok n | SStr _ => raise TypeError end.
(** [collection_data[key][col_name]['items'] += c_data['items']] *)
Definition add_items (data : gmap pystr collection_entry) (key col_name : pystr) (c_data : gmap pystr sval) : res (gmap pystr collection_entry) :=
  e ← dict_get data key;
  cols ← match e with CScope cols => Ok cols | _ => raise TypeError end;
  d ← dict_get cols col_name;
  n ← items_of d;
  m ← items_of c_data;
  Ok (<[key := CScope (<[col_name := <[py "items" := SInt (n + m)]> d]> cols)]> data).
Fixpoint fold_res {A B} (f : A → B → res A) (l : list B) (a : A) : res A :=
  match l with [] => Ok a | x :: l => a ← f a x; fold_res f l a end.
Definition add_node (data node : gmap pystr collection_entry) : res (gmap pystr collection_entry) :=
  fold_res (λ data kv, match kv.2 with
                       | CScope cols => fold_res (λ data (c : pystr * gmap pystr sval), add_items data kv.1 c.1 c.2) (map_to_list cols) data
                       | _ => Ok data
                       end) (map_to_list node) data.
(** [get_doc_count_per_collection] from the answers of the nodes; [None] when there are no nodes. *)
Definition get_doc_count_per_collection (nodes : list (gmap pystr collection_entry)) : res (option (gmap pystr collection_entry)) :=
  match nodes with
  | [] => Ok None
  | n :: nodes => d ← fold_res add_node nodes n; Ok (Some d)
  end.
(** The item counts, as the check of the hierarchy reads them *)
Fixpoint counts_of (l : list (pystr * gmap pystr sval)) : res (gmap pystr Z) :=
  match l with [] => Ok ∅ | (c, d) :: l => n ← items_of d; m ← counts_of l; Ok (<[c := n]> m) end.
Fixpoint item_counts (l : list (pystr * collection_entry)) : res (gmap pystr (gmap pystr Z)) :=
  match l with
  | [] => Ok ∅
  | (k, CScope cols) :: l => m ← counts_of (map_to_list cols); r ← item_counts l; Ok (<[k := m]> r)
  | _ :: l => item_counts l
  end.
Definition validate_doc_count_as_per_collections (b : bucket) (nodes : list (gmap pystr collection_entry)) (scope_count : Z) (scope_data : gmap pystr Z) : res unit :=
  data ← get_doc_count_per_collection nodes;
  data ← of_option TypeError data;
  counts ← item_counts (map_to_list data);
  status ← validate_bucket_collection_hierarchy b scope_count scope_data counts;
  if (status : bool) then Ok tt else raise GenericException.

(** [validate_manifest_uid] *)
Definition validate_manifest_uid (b : bucket) (manifest_uid_text : pystr) : res bool :=
  n ← int_of_hex manifest_uid_text; Ok (manifest_uid (b_stats b) =? n).

(** The loop of [validate_docs_per_collections_all_buckets] for a bucket: a manifest uid that differs is only logged. *)
Definition validate_docs_of_bucket {W} (verify_stats : Z → M W unit) (b : bucket) (manifest_uid_text : pystr) (seqnos_ok : res bool)
    (nodes : list (gmap pystr collection_entry)) (scope_count : Z) (scope_data : gmap pystr Z) : M W unit :=
  expected ← lift (get_expected_total_num_items b);
  _ ← verify_stats expected;
  if bool_decide (bucketType (b_props b) = PStr Type_.MEMCACHED) then mret tt
  else
    _ ← lift (validate_manifest_uid b manifest_uid_text);
    ok ← lift seqnos_ok;
    if negb ok then mraise GenericException
    else lift (validate_doc_count_as_per_collections b nodes scope_count scope_data).

(** ** [validate_serverless_buckets] *)

Definition KV_SubCluster_Size := 3.
Definition VB_COUNT := 64.
Definition MAX_BUCKETS := 25.
Definition MAX_WEIGHT := 10000.
(** A bucket as the server reports it: the server group of each node *)
Record sbucket := SBucket { sb_name : pystr; sb_groups : list pystr; sb_numVBuckets : Z }.
Record kv_stats := KvStats { kv_buckets : Z; kv_weight : Z; kv_memory : Z }.
Record snode := SNode { sn_ip : pystr; sn_port : Z; limits : kv_stats; utilization : kv_stats }.
(** A bucket of the test: name, width, weight, number of vbuckets, RAM quota and servers *)
Record tbucket := TBucket { tb_name : pystr; tb_width : Z; tb_weight : Z; tb_num_vbuckets : option Z; tb_ramQuotaMB : Z; tb_servers : list (pystr * Z) }.

Definition get_server_bucket (l : list sbucket) (n : pystr) : option sbucket := snd <$> list_find (λ b, sb_name b = n) l.
Definition server_key (s : pystr * Z) : pystr := s.1 ++ py ":" ++ str_of_Z s.2.
Definition get_server_node (l : list snode) (key : pystr) : res (option snode) :=
  '(ip, port) ← parse_server key; Ok (snd <$> list_find (λ n, sn_ip n = ip ∧ sn_port n = port) l).
Definition az_map (groups : list pystr) : gmap pystr Z := foldl (λ m g, <[g := default 0 (m !! g) + 1]> m) ∅ groups.
Definition check_bucket (server_buckets : list sbucket) (b : tbucket) : res bool :=
  sb ← of_option TypeError (get_server_bucket server_buckets (tb_name b));
  let width_ok := tb_width b * KV_SubCluster_Size =? len (sb_groups sb) in
  let num_vb := match tb_num_vbuckets b with Some n => if n =? 0 then VB_COUNT else n | None => VB_COUNT end in
  let vb_ok := num_vb =? sb_numVBuckets sb in
  match elements (list_to_set (map_to_list (az_map (sb_groups sb))).*2 : gset Z) with
  | [] => raise IndexError
  | [w] => Ok (width_ok && vb_ok && (w =? tb_width b))
  | _ => Ok false
  end.
Definition add_use (b : tbucket) (m : gmap pystr kv_stats) (s : pystr * Z) : gmap pystr kv_stats :=
  let u := default (KvStats 0 0 0) (m !! server_key s) in
  <[server_key s := KvStats (kv_buckets u + 1) (kv_weight u + tb_weight b) (kv_memory u + tb_ramQuotaMB b * 1048576)]> m.
(** [test_values] *)
Definition test_values (buckets : list tbucket) : gmap pystr kv_stats := foldl (λ m b, foldl (add_use b) m (tb_servers b)) ∅ buckets.
Definition check_node (nodes : list snode) (kv : pystr * kv_stats) : res bool :=
  n ← get_server_node nodes kv.1;
  n ← of_option AttributeError n;
  let l := limits n in let u := utilization n in let t := kv.2 in
  Ok ((kv_weight l =? MAX_WEIGHT) && (kv_buckets l =? MAX_BUCKETS) && (kv_memory u <=? kv_memory l) && (kv_memory u =? kv_memory t) &&
      (kv_buckets u =? kv_buckets t) && (kv_weight u =? kv_weight t)).
Fixpoint all_res {A} (f : A → res bool) (l : list A) : res bool :=
  match l with [] => Ok true | x :: l => b ← f x; r ← all_res f l; Ok (b && r) end.
(** [server_buckets] are those that the endpoint of a bucket reports. *)
Definition validate_serverless_buckets (server_buckets : tbucket → list sbucket) (nodes : list snode) (buckets : list tbucket) : res bool :=
  a ← all_res (λ b, check_bucket (server_buckets b) b) buckets;
  b ← all_res (check_node nodes) (map_to_list (test_values buckets));
  Ok (a && b).

(** ** History retention *)

Record vb_stat := VbStat { high_seqno : Z; history_start_seqno : Z; purge_seqno : Z }.
Record vb_stats := VbStats { vb_active : vb_stat; vb_replicas : list vb_stat }.
Definition replica_ok (r : vb_stat) : bool :=
  negb (high_seqno r <? history_start_seqno r) && negb (history_start_seqno r =? 0) && negb (history_start_seqno r <? purge_seqno r).
Definition replicas_ok (stats : gmap Z vb_stats) : bool := forallb (λ kv : Z * vb_stats, forallb replica_ok (vb_replicas kv.2)) (map_to_list stats).
(** Whether a value of before fails the comparison with that of now; other comparisons are not checked. *)
Definition fails (comparison : pystr) (prev curr : Z) : bool :=
  if bool_decide (comparison = py "==") then negb (prev =? curr)
  else if bool_decide (comparison = py ">") then curr <? prev
  else if bool_decide (comparison = py ">=") then curr <=? prev
  else false.
Definition compared (comparison : pystr) : bool := bool_decide (comparison ∈ [py "=="; py ">"; py ">="]).
Definition validate_history_start_seqno_stat (prev curr : gmap Z vb_stats) (comparison : pystr) (no_history_preserved : bool) : res bool :=
  let r := replicas_ok prev && replicas_ok curr in
  if no_history_preserved then Ok (r && forallb (λ kv : Z * vb_stats, history_start_seqno (vb_active kv.2) =? 0) (map_to_list curr))
  else if compared comparison then
    b ← all_res (λ kv : Z * vb_stats, c ← dict_get curr kv.1;
                   Ok (negb (fails comparison (history_start_seqno (vb_active kv.2)) (history_start_seqno (vb_active c))))) (map_to_list prev);
    Ok (r && b)
  else Ok r.

(** [get_vb_details_for_bucket].  The fields that are read are a list made once, before the loop over the nodes. *)
Definition all_fields : list pystr := [py "high_seqno"; py "history_start_seqno"; py "purge_seqno"].
(** [l.remove(x)] *)
Fixpoint list_remove (x : pystr) (l : list pystr) : res (list pystr) :=
  match l with [] => raise ValueError | y :: l => if bool_decide (y = x) then Ok l else l ← list_remove x l; Ok (y :: l) end.
Record vb_entry := VbEntry { e_active : gmap pystr sval; e_replica : list (gmap pystr sval) }.
Fixpoint read_fields (fields : list pystr) (d : gmap pystr sval) : res (gmap pystr sval) :=
  match fields with [] => Ok ∅ | f :: fields => v ← dict_get d f; m ← read_fields fields d; Ok (<[f := v]> m) end.
Definition add_active (fields : list pystr) (vbs : gmap pystr (gmap pystr sval)) (m : gmap Z vb_entry) (vb : Z) : res (gmap Z vb_entry) :=
  let e := default (VbEntry ∅ []) (m !! vb) in
  d ← dict_get vbs (str_of_Z vb);
  v ← read_fields fields d;
  Ok (<[vb := VbEntry (v ∪ e_active e) (e_replica e)]> m).
Definition add_replica (fields : list pystr) (vbs : gmap pystr (gmap pystr sval)) (m : gmap Z vb_entry) (vb : Z) : res (gmap Z vb_entry) :=
  let e := default (VbEntry ∅ []) (m !! vb) in
  d ← dict_get vbs (str_of_Z vb);
  v ← read_fields fields d;
  Ok (<[vb := VbEntry (e_active e) (e_replica e ++ [v])]> m).
(** For a magma bucket the answer of a node is fetched until every vbucket has the field, five times more at most. *)
Fixpoint fetch_details {W} `{Clock W} (magma : bool) (vbucket_details : M W (gmap pystr (gmap pystr sval))) (retries : nat) : M W (gmap pystr (gmap pystr sval)) :=
  d ← vbucket_details;
  if negb magma || forallb (λ kv : pystr * gmap pystr sval, bool_decide (is_Some (kv.2 !! py "history_start_seqno"))) (map_to_list d) then mret d
  else match retries with O => mret d | S retries => _ ← modify (sleep 3000); fetch_details magma vbucket_details retries end.
Fixpoint vb_details_loop {W N} `{Clock W} (magma : bool) (details : N → M W (gmap pystr (gmap pystr sval))) (lists : N → pystr → M W (list Z))
    (fields : list pystr) (m : gmap Z vb_entry) (nodes : list N) : M W (gmap Z vb_entry) :=
  match nodes with
  | [] => mret m
  | n :: nodes =>
      vbs ← fetch_details magma (details n) 5;
      fields ← lift (if magma then Ok fields else list_remove (py "history_start_seqno") fields);
      a ← lists n (py "active");
      m ← lift (fold_res (add_active fields vbs) a m);
      r ← lists n (py "replica");
      m ← lift (fold_res (add_replica fields vbs) r m);
      vb_details_loop magma details lists fields m nodes
  end.
Definition get_vb_details_for_bucket {W N} `{Clock W} (magma : bool) (details : N → M W (gmap pystr (gmap pystr sval))) (lists : N → pystr → M W (list Z)) (nodes : list N) : M W (gmap Z vb_entry) :=
  vb_details_loop magma details lists all_fields ∅ nodes.

(** ** Failed document operations *)

Section DocOps.
Context {V C : Type}.
(** [client.crud] with the options of the task: the status and the error. *)
Context (crud : pystr → pystr → V → C → result * C).

Record failure := Failure { fd_value : V; fd_error : pystr }.
(** [get_doc_op_info_dict], without the options that only [crud] uses, and the task with its failed documents and its result *)
Record op_info := OpInfo {
  ops_failed : bool; i_scope : pystr; i_collection : pystr; i_op_type : pystr; ignore_exceptions : list pystr; retry_exceptions : list pystr;
  r_success : gmap pystr failure; r_fail : gmap pystr failure; u_success : gmap pystr failure; u_fail : gmap pystr failure; ignored : gmap pystr failure;
  task_fail : gmap pystr failure; task_result : bool
}.
Definition get_doc_op_info_dict (scope collection op_type : pystr) (ignore_ex retry_ex : list pystr) (fail : gmap pystr failure) (result : bool) : op_info :=
  OpInfo false scope collection op_type ignore_ex retry_ex ∅ ∅ ∅ ∅ ∅ fail result.
Record checking := Checking { ck_bucket : bucket; ck_client : C; ck_info : op_info }.

Definition set_ignored (k : pystr) (f : failure) (i : op_info) : op_info :=
  OpInfo (ops_failed i) (i_scope i) (i_collection i) (i_op_type i) (ignore_exceptions i) (retry_exceptions i)
    (r_success i) (r_fail i) (u_success i) (u_fail i) (<[k := f]> (ignored i)) (task_fail i) (task_result i).
(** [tasks_info[task][dict_key]["success"].update(key_value)] and the same for "fail" *)
Definition set_retried (expected success : bool) (k : pystr) (f : failure) (i : op_info) : op_info :=
  let add (b : bool) m := if b then <[k := f]> m else m in
  OpInfo (ops_failed i) (i_scope i) (i_collection i) (i_op_type i) (ignore_exceptions i) (retry_exceptions i)
    (add (expected && success) (r_success i)) (add (expected && negb success) (r_fail i))
    (add (negb expected && success) (u_success i)) (add (negb expected && negb success) (u_fail i)) (ignored i) (task_fail i) (task_result i).
Definition ambiguous_error (e : pystr) : bool :=
  contains SDKException.DurabilityAmbiguousException e || contains SDKException.AmbiguousTimeoutException e ||
  contains SDKException.TimeoutException e || contains SDKException.RequestCanceledException e.
Definition effective (op_type : pystr) (ambiguous_state : bool) (r : result) : bool :=
  r_status r
  || (ambiguous_state && contains SDKException.DocumentExistsException (r_error r) && bool_decide (op_type ∈ [py "create"; py "update"]))
  || (ambiguous_state && contains SDKException.DocumentNotFoundException (r_error r) && bool_decide (op_type = py "delete")).

Definition judge_failure (kf : pystr * failure) : M checking unit :=
  s ← get;
  let i := ck_info s in let '(k, f) := kf in
  if mentions (ignore_exceptions i) (fd_error f) then
    _ ← lift (get_collection (ck_bucket s) (i_scope i) (i_collection i));
    modify (λ s, Checking (on_collection (i_scope i) (i_collection i) (λ c, set_num_items (num_items c - 1) c) (ck_bucket s)) (ck_client s) (set_ignored k f i))
  else
    let '(r, cl) := crud (i_op_type i) k (fd_value f) (ck_client s) in
    put (Checking (ck_bucket s) cl (set_retried (mentions (retry_exceptions i) (fd_error f)) (effective (i_op_type i) (ambiguous_error (fd_error f)) r) k f i)).
(** [verify_doc_op_task_exceptions] for a task and its client *)
Definition verify_doc_op_task_exceptions : M checking unit :=
  s ← get; mfor (map_to_list (task_fail (ck_info s))) judge_failure.
(** [log_doc_ops_task_failures] and [doc_ops_tasks_status] *)
Definition log_doc_ops_task_failures (i : op_info) : op_info :=
  let bad := negb (bool_decide (r_fail i = ∅)) || negb (bool_decide (u_success i = ∅)) || negb (bool_decide (u_fail i = ∅)) in
  OpInfo (ops_failed i || bad) (i_scope i) (i_collection i) (i_op_type i) (ignore_exceptions i) (retry_exceptions i)
    (r_success i) (r_fail i) (u_success i) (u_fail i) (ignored i) (task_fail i) (negb bad).
Definition doc_ops_tasks_status (l : list op_info) : bool := forallb (λ i, negb (ops_failed i)) l.
End DocOps.

(** ** Proofs *)

(** *** Item counts *)

Lemma active_check_void master nodes v : 0 < nodes → active_differs master nodes v = false.
Proof. unfold active_differs. lia. Qed.
Lemma existsb_none {A} (f : A → bool) l : Forall (λ x, f x = false) l → existsb f l = false.
Proof. induction 1 as [|x l Hx _ IH]; [done|]. cbn. by rewrite Hx. Qed.

(** *** Warm-up *)

Section Warmup.
Context {W S : Type} {HC : Clock W} {HL : ClockLaws W} (all_stats : S → M W (gmap pystr pystr)) (wait_time start : Z).
Context (Hf : ∀ s, forward (all_stats s)).

Definition warm_seen (s : S) : Prop := ∃ w1 w2 d, all_stats s w1 = (Ok d, w2) ∧ d !! py "ep_warmup_thread" = Some (py "complete").
Lemma warmup_loop_spec fuel s w r w' : warmup_loop all_stats wait_time start fuel s w = (Ok r, w') →
  now w ≤ now w' ∧ (if r then warm_seen s ∧ now w - start < wait_time * 1000 else wait_time * 1000 ≤ now w' - start).
Proof.
  revert w. induction fuel as [|fuel IH]; intros w; cbn [warmup_loop]; rewrite (bind_Ok (gets now) _ _ _ _ eq_refl).
  - destruct (Z.ltb_spec (now w - start) (wait_time * 1000)); [done|]. intros [= <- <-]. lia.
  - destruct (Z.ltb_spec (now w - start) (wait_time * 1000)) as [Hlt|Hge]; [|intros [= <- <-]; lia].
    intros (b & w1 & Hb & H)%bind_inv.
    assert (now w ≤ now w1 ∧ (b = true → warm_seen s)) as [Hn Hs].
    { pose proof (Hf s w) as Hfs. unfold except_Exception, try_except in Hb. destruct (all_stats s w) as [[d|e] w2] eqn:E; cbn in Hfs.
      - rewrite (bind_Ok _ _ _ _ _ E) in Hb. unfold dict_get in Hb. destruct (d !! py "ep_warmup_thread") as [v|] eqn:Ev; cbn in Hb.
        + injection Hb as <- <-. split; [done|]. intros Hv. apply bool_decide_eq_true in Hv as ->. by exists w, w2, d.
        + by injection Hb as <- <-.
      - rewrite (bind_Err _ _ _ _ _ E) in Hb. cbn in Hb. destruct (is_Exception e); [|done]. by injection Hb as <- <-. }
    destruct b.
    + injection H as <- <-. split; [done|]. split; [by apply Hs|done].
    + rewrite (bind_Ok (modify _) _ _ _ _ eq_refl) in H. pose proof (sleep_takes 2000 w1 ltac:(lia)). destruct (IH _ H) as [H1 H2].
      split; [lia|]. destruct r; [|done]. destruct H2. split; [done|lia].
Qed.
Lemma warmup_servers_spec fuel l b w w' : warmup_servers all_stats wait_time start fuel l b w = (Ok true, w') →
  (l = [] ∧ b = true) ∨ (l ≠ [] ∧ Forall warm_seen l ∧ now w - start < wait_time * 1000).
Proof.
  revert b w. induction l as [|s l IH]; intros b w; cbn [warmup_servers]; [intros [= -> _]; by left|].
  intros (r & w1 & Hr & H)%bind_inv. right. destruct (warmup_loop_spec _ _ _ _ _ Hr) as [Hn Hs].
  destruct (IH r w1 H) as [[-> ->]|(_ & Hl & Hlt)].
  - destruct Hs. split_and!; [done|by constructor|done].
  - destruct r; [|lia]. destruct Hs. split_and!; [done|by constructor|done].
Qed.
(** Asking a server ends: with its statistics or with an exception that is caught. *)
Definition answers (m : M W (gmap pystr pystr)) : Prop := ∀ w, match (m w).1 with Ok _ => True | Err e => is_Exception e = true end.
Lemma warmup_loop_total fuel s w : answers (all_stats s) → wait_time * 1000 - (now w - start) ≤ 2000 * Z.of_nat fuel →
  ∃ r w', warmup_loop all_stats wait_time start fuel s w = (Ok r, w').
Proof.
  intros Ha. revert w. induction fuel as [|fuel IH]; intros w Hw; cbn [warmup_loop]; rewrite (bind_Ok (gets now) _ _ _ _ eq_refl).
  - rewrite (proj2 (Z.ltb_ge _ _)) by lia. by eexists _, _.
  - destruct (Z.ltb_spec (now w - start) (wait_time * 1000)) as [Hlt|Hge]; [|by eexists _, _].
    assert (∃ (b : bool) w1, except_Exception (d ← all_stats s; v ← lift (dict_get d (py "ep_warmup_thread")); mret (bool_decide (v = py "complete"))) (λ _, mret false) w = (Ok b, w1) ∧ now w ≤ now w1)
      as (b & w1 & Hb & Hn).
    { pose proof (Hf s w) as Hfs. pose proof (Ha w) as Haw. unfold except_Exception, try_except. destruct (all_stats s w) as [[d|e] w2] eqn:E; cbn in Hfs, Haw.
      - rewrite (bind_Ok _ _ _ _ _ E). unfold dict_get. destruct (d !! py "ep_warmup_thread"); cbn; by eexists _, _.
      - rewrite (bind_Err _ _ _ _ _ E). cbn. rewrite Haw. by eexists _, _. }
    rewrite (bind_Ok _ _ _ _ _ Hb). destruct b; [by eexists _, _|]. rewrite (bind_Ok (modify _) _ _ _ _ eq_refl). apply IH. pose proof (sleep_takes 2000 w1 ltac:(lia)). lia.
Qed.
Lemma warmup_servers_total fuel l b w : (∀ s, s ∈ l → answers (all_stats s)) → wait_time * 1000 - (now w - start) ≤ 2000 * Z.of_nat fuel →
  ∃ r w', warmup_servers all_stats wait_time start fuel l b w = (Ok r, w').
Proof.
  revert b w. induction l as [|s l IH]; intros b w Ha Hw; cbn [warmup_servers]; [by eexists _, _|].
  destruct (warmup_loop_total fuel s w) as (r & w1 & Hr); [apply Ha; by left|done|]. rewrite (bind_Ok _ _ _ _ _ Hr).
  apply IH; [intros; apply Ha; by right|]. apply warmup_loop_spec in Hr as [? _]. lia.
Qed.
Lemma warmup_servers_late fuel l b w w' : warmup_servers all_stats wait_time start fuel l b w = (Ok false, w') →
  (l = [] ∧ b = false) ∨ wait_time * 1000 ≤ now w' - start.
Proof.
  revert b w. induction l as [|s l IH]; intros b w; cbn [warmup_servers]; [intros [= -> _]; by left|].
  intros (r & w1 & Hr & H)%bind_inv. right. destruct (IH _ _ H) as [[-> ->]|Hl]; [|done].
  apply warmup_loop_spec in Hr as [_ Hr]. injection H as <-. done.
Qed.
End Warmup.

(** *** Serverless *)

Lemma all_res_true {A} (f : A → res bool) l : all_res f l = Ok true ↔ Forall (λ x, f x = Ok true) l.
Proof.
  induction l as [|x l IH]; cbn [all_res]; [by split|]. rewrite Forall_cons, <- IH. split.
  - intros (b & Hb & H)%res_bind_inv. apply res_bind_inv in H as (r & Hr & H). injection H as H. apply andb_true_iff in H as [-> ->]. done.
  - intros [-> ->]. done.
Qed.
(** How often a group occurs *)
Definition occurrences (g : pystr) (l : list pystr) : Z := len (filter (λ x, x = g) l).
Lemma occurrences_cons g x l : occurrences g (x :: l) = (if decide (x = g) then 1 else 0) + occurrences g l.
Proof. unfold occurrences, len. rewrite filter_cons. destruct (decide (x = g)); cbn [length]; lia. Qed.
Lemma occurrences_none g l : g ∉ l → occurrences g l = 0.
Proof. induction l as [|x l IH]; [done|]. rewrite occurrences_cons, elem_of_cons. intros H. rewrite IH by tauto. case_decide; [naive_solver|lia]. Qed.
Lemma az_map_lookup groups g : az_map groups !! g = if decide (g ∈ groups) then Some (occurrences g groups) else None.
Proof.
  unfold az_map. assert (∀ m : gmap pystr Z, foldl (λ m g, <[g := default 0 (m !! g) + 1]> m) m groups !! g =
    if decide (g ∈ groups) then Some (default 0 (m !! g) + occurrences g groups) else m !! g) as H.
  { induction groups as [|x l IH]; intros m; cbn [foldl]; [by rewrite decide_False by set_solver|]. rewrite IH, occurrences_cons, lookup_insert.
    destruct (decide (x = g)) as [->|Hne].
    - rewrite (decide_True (P := g ∈ g :: l)) by set_solver. case_decide as Hin; cbn; f_equal; [lia|].
      rewrite occurrences_none by done. lia.
    - case_decide as H1; case_decide as H2; try (by rewrite Z.add_0_l); set_solver. }
  rewrite H. case_decide; [|apply lookup_empty]. by rewrite lookup_empty.
Qed.

(** The width of a bucket is even over the groups. *)
Definition evenly (w : Z) (groups : list pystr) : Prop := groups ≠ [] ∧ ∀ g, g ∈ groups → occurrences g groups = w.
Lemma az_values groups w : elements (list_to_set (map_to_list (az_map groups)).*2 : gset Z) = [w] ↔ evenly w groups.
Proof.
  assert (∀ x, x ∈ (list_to_set (map_to_list (az_map groups)).*2 : gset Z) ↔ ∃ g, g ∈ groups ∧ occurrences g groups = x) as Hx.
  { intros x. rewrite elem_of_list_to_set, list_elem_of_fmap. setoid_rewrite elem_of_map_to_list'. split.
    - intros ([g y] & -> & H). cbn in H. rewrite az_map_lookup in H. case_decide; [|done]. injection H as <-. by exists g.
    - intros (g & Hg & <-). exists (g, occurrences g groups). cbn. by rewrite az_map_lookup, decide_True. }
  split.
  - intros H. assert (∀ x, (∃ g, g ∈ groups ∧ occurrences g groups = x) ↔ x = w) as Hw by (intros x; rewrite <- Hx, <- elem_of_elements, H; apply list_elem_of_singleton).
    destruct (proj2 (Hw w) eq_refl) as (g & Hg & _). split; [by intros ->; apply not_elem_of_nil in Hg|]. intros g' Hg'. apply Hw. by exists g'.
  - intros [Hne Hall]. assert ((list_to_set (map_to_list (az_map groups)).*2 : gset Z) = {[w]}) as ->; [|apply elements_singleton].
    apply set_eq. intros x. rewrite Hx, elem_of_singleton. split; [intros (g & Hg & <-); by apply Hall|]. intros ->. destruct groups as [|g l]; [done|]. exists g. split; [by left|]. apply Hall. by left.
Qed.

(** The buckets of the test on a server, one for each time that it is listed *)
Definition on_server (buckets : list tbucket) (k : pystr) : list tbucket :=
  b ← buckets; replicate (length (filter (λ s, server_key s = k) (tb_servers b))) b.
Definition use_of (l : list tbucket) : kv_stats :=
  KvStats (len l) (foldr (λ b n, tb_weight b + n) 0 l) (foldr (λ b n, tb_ramQuotaMB b * 1048576 + n) 0 l).
Definition plus_use (a b : kv_stats) : kv_stats := KvStats (kv_buckets a + kv_buckets b) (kv_weight a + kv_weight b) (kv_memory a + kv_memory b).
Lemma use_app a b : use_of (a ++ b) = plus_use (use_of a) (use_of b).
Proof.
  unfold use_of, plus_use, len. cbn [kv_buckets kv_weight kv_memory]. f_equal.
  - rewrite length_app. lia.
  - induction a as [|x a IH]; cbn; [done|]. rewrite IH. lia.
  - induction a as [|x a IH]; cbn; [done|]. rewrite IH. lia.
Qed.
(** The use of a server after more buckets were added *)
Definition more (o : option kv_stats) (l : list tbucket) : option kv_stats :=
  if decide (l = []) then o else Some (plus_use (default (KvStats 0 0 0) o) (use_of l)).
Lemma more_app o a b : more (more o a) b = more o (a ++ b).
Proof.
  unfold more. destruct (decide (a = [])) as [->|Ha]; [done|]. rewrite (decide_False (P := a ++ b = [])) by (by intros [? _]%app_nil).
  destruct (decide (b = [])) as [->|Hb]; [by rewrite app_nil_r|]. cbn [default]. unfold id. rewrite use_app. unfold plus_use. cbn [kv_buckets kv_weight kv_memory]. do 2 f_equal; lia.
Qed.
Lemma add_uses b l m k : foldl (add_use b) m l !! k = more (m !! k) (replicate (length (filter (λ s, server_key s = k) l)) b).
Proof.
  revert m. induction l as [|s l IH]; intros m; cbn [foldl]; [done|]. rewrite IH, filter_cons. unfold add_use at 1. rewrite lookup_insert.
  destruct (decide (server_key s = k)) as [E|E]; [|done]. cbn [length replicate]. rewrite <- E.
  change (b :: replicate ?n b) with ([b] ++ replicate n b). rewrite <- more_app. f_equal. unfold more. rewrite decide_False by done.
  unfold plus_use, use_of, len. cbn. do 2 f_equal; lia.
Qed.
Lemma test_values_lookup buckets k : test_values buckets !! k = more None (on_server buckets k).
Proof.
  unfold test_values. assert (∀ m, foldl (λ m b, foldl (add_use b) m (tb_servers b)) m buckets !! k = more (m !! k) (on_server buckets k)) as H.
  { induction buckets as [|b l IH]; intros m; cbn [foldl]; [done|]. rewrite IH, add_uses, more_app. done. }
  rewrite H. by rewrite lookup_empty.
Qed.

(** What a valid bucket and a valid server are *)
Definition bucket_placed (server_buckets : list sbucket) (b : tbucket) : Prop :=
  ∃ sb, get_server_bucket server_buckets (tb_name b) = Some sb ∧ len (sb_groups sb) = 3 * tb_width b ∧ evenly (tb_width b) (sb_groups sb) ∧
    sb_numVBuckets sb = (if decide (default 0 (tb_num_vbuckets b) = 0) then 64 else default 0 (tb_num_vbuckets b)).
Definition server_used (nodes : list snode) (k : pystr) (t : kv_stats) : Prop :=
  ∃ n, get_server_node nodes k = Ok (Some n) ∧ utilization n = t ∧ kv_memory t ≤ kv_memory (limits n) ∧ kv_weight (limits n) = 10000 ∧ kv_buckets (limits n) = 25.
Lemma check_bucket_true sbs b : check_bucket sbs b = Ok true ↔ bucket_placed sbs b.
Proof.
  unfold check_bucket, bucket_placed. destruct (get_server_bucket sbs (tb_name b)) as [sb|]; cbn [of_option mbind res_bind]; [|naive_solver].
  assert ((match tb_num_vbuckets b with Some n => if n =? 0 then VB_COUNT else n | None => VB_COUNT end) =
    (if decide (default 0 (tb_num_vbuckets b) = 0) then 64 else default 0 (tb_num_vbuckets b))) as ->.
  { destruct (tb_num_vbuckets b) as [n|]; cbn; [|done]. destruct (Z.eqb_spec n 0); case_decide; try done. }
  set (v := if decide _ then _ else _). unfold KV_SubCluster_Size. pose proof (az_values (sb_groups sb)) as Hz. split.
  - intros H. exists sb. destruct (elements _) as [|w [|? ?]] eqn:E; try done. injection H as H. rewrite !andb_true_iff, !Z.eqb_eq in H. destruct H as [[H1 H2] ->].
    split_and!; [done|lia|by apply Hz|done].
  - intros (sb' & [= <-] & H1 & H2 & H3). apply Hz in H2. rewrite H2. f_equal. rewrite !andb_true_iff, !Z.eqb_eq. lia.
Qed.
Lemma check_node_true nodes k t : check_node nodes (k, t) = Ok true ↔ server_used nodes k t.
Proof.
  unfold check_node, server_used. cbn [fst snd]. destruct (get_server_node nodes k) as [[n|]|e]; cbn [of_option mbind res_bind]; [|naive_solver|naive_solver].
  unfold MAX_WEIGHT, MAX_BUCKETS. split.
  - intros [= H]. rewrite !andb_true_iff, !Z.eqb_eq, Z.leb_le in H. exists n. destruct H as [[[[[H1 H2] H3] H4] H5] H6]. split_and!; [done| |lia|done|done].
    destruct (utilization n), t; cbn in *. by subst.
  - intros (n' & [= <-] & <- & H1 & H2 & H3). f_equal. rewrite !andb_true_iff, !Z.eqb_eq, Z.leb_le. lia.
Qed.

(** C27: [validate_serverless_buckets] answers [True] exactly when every bucket of the test is known to the server, is on three times its width in
    nodes, evenly over the server groups and with its number of vbuckets (64 when it has none), and every server of a bucket is a node with the limits
    of a serverless node, whose use is that of the buckets of the test on it and within its memory.  Servers without a bucket are not looked at. *)
Theorem serverless_validated (server_buckets : tbucket → list sbucket) (nodes : list snode) (buckets : list tbucket) :
  validate_serverless_buckets server_buckets nodes buckets = Ok true ↔
  Forall (λ b, bucket_placed (server_buckets b) b) buckets ∧
  ∀ k, on_server buckets k ≠ [] → server_used nodes k (use_of (on_server buckets k)).
Proof.
  unfold validate_serverless_buckets.
  assert (∀ k, test_values buckets !! k = if decide (on_server buckets k = []) then None else Some (use_of (on_server buckets k))) as Hv.
  { intros k. rewrite test_values_lookup. unfold more. case_decide; [done|]. f_equal. }
  assert (all_res (check_node nodes) (map_to_list (test_values buckets)) = Ok true ↔
          ∀ k, on_server buckets k ≠ [] → server_used nodes k (use_of (on_server buckets k))) as Hn.
  { rewrite all_res_true, Forall_forall. split.
    - intros H k Hk. apply check_node_true, H. apply elem_of_map_to_list. by rewrite Hv, decide_False.
    - intros H [k t] Hk%elem_of_map_to_list. rewrite Hv in Hk. case_decide as Hne; [done|]. injection Hk as <-. by apply check_node_true, H. }
  assert (all_res (λ b, check_bucket (server_buckets b) b) buckets = Ok true ↔ Forall (λ b, bucket_placed (server_buckets b) b) buckets) as Hb.
  { rewrite all_res_true, !Forall_forall. split; intros H b Hin; by apply check_bucket_true, H. }
  rewrite <- Hn, <- Hb. split.
  - intros (x & -> & (y & -> & H)%res_bind_inv)%res_bind_inv. injection H as H. apply andb_true_iff in H as [-> ->]. done.
  - intros [-> ->]. done.
Qed.

(** [_wait_warmup_completed] on a bucket that is membase answers, with a turn of the loop for every two seconds of the time to wait, however the
    servers behave as long as they answer or fail with an exception.  When it answers [True], there was a server to ask and every server has reported
    a finished warm-up; when it answers [False], there was no server, or the time is over. *)
Theorem warmup_decided {W S : Type} {HC : Clock W} {HL : ClockLaws W} (all_stats : S → M W (gmap pystr pystr)) (wait_time : Z) (fuel : nat) (servers : list S) (w : W) :
  (∀ s, forward (all_stats s)) → (∀ s, s ∈ servers → answers (all_stats s)) → wait_time ≤ 2 * Z.of_nat fuel →
  ∃ r w', wait_warmup_completed all_stats true wait_time fuel servers w = (Ok r, w') ∧
    if r then servers ≠ [] ∧ ∀ s, s ∈ servers → ∃ w1 w2 d, all_stats s w1 = (Ok d, w2) ∧ d !! py "ep_warmup_thread" = Some (py "complete")
    else servers = [] ∨ wait_time * 1000 ≤ now w' - now w.
Proof.
  intros Hf Ha Hw. unfold wait_warmup_completed. cbn [negb]. rewrite (bind_Ok (gets now) _ _ _ _ eq_refl).
  destruct (warmup_servers_total all_stats wait_time (now w) Hf fuel servers false w) as (r & w' & H); [done|lia|]. exists r, w'. split; [done|]. destruct r.
  - apply (warmup_servers_spec _ _ _ Hf) in H as [[_ ?]|(Hne & Hall & _)]; [done|]. split; [done|]. by apply Forall_forall.
  - apply (warmup_servers_late _ _ _ Hf) in H as [[? _]|?]; [by left|by right].
Qed.

(** *** Failed document operations *)

Section Classes.
Context {V C : Type} (crud : pystr → pystr → V → C → result * C).

(** Where a failed document is noted *)
Inductive class := Ignored | Retried (success : bool) | Unwanted (success : bool).
#[local] Instance class_eq_dec : EqDecision class.
Proof. solve_decision. Defined.
Definition table (i : op_info) (c : class) : gmap pystr (@failure V) :=
  match c with
  | Ignored => ignored i
  | Retried b => if b then r_success i else r_fail i
  | Unwanted b => if b then u_success i else u_fail i
  end.
(** Whether a document of a task that failed with an error belongs to a class: its second attempt had that outcome. *)
Definition belongs (ign retry : list pystr) (op : pystr) (k : pystr) (f : @failure V) (c : class) : Prop :=
  match c with
  | Ignored => mentions ign (fd_error f) = true
  | Retried b | Unwanted b =>
      mentions ign (fd_error f) = false ∧ mentions retry (fd_error f) = (if c is Retried _ then true else false) ∧
      ∃ cl, b = effective op (ambiguous_error (fd_error f)) (crud op k (fd_value f) cl).1
  end.
(** What the check keeps of a task *)
Definition same_task (i j : @op_info V) : Prop :=
  i_scope i = i_scope j ∧ i_collection i = i_collection j ∧ i_op_type i = i_op_type j ∧ ignore_exceptions i = ignore_exceptions j ∧
  retry_exceptions i = retry_exceptions j ∧ ops_failed i = ops_failed j.

Lemma on_collection_get sn cn g b c : get_collection b sn cn = Ok c → get_collection (on_collection sn cn g b) sn cn = Ok (g c).
Proof.
  intros H. unfold get_collection, dict_get in H. destruct (scopes b !! sn) as [s|] eqn:Hs; [|done]. cbn in H. destruct (collections s !! cn) as [c'|] eqn:Hc; [|done]. injection H as ->.
  rewrite (on_collection_known sn cn g b s c) by done. unfold get_collection, dict_get. cbn. rewrite lookup_insert_eq. cbn. by rewrite lookup_insert_eq.
Qed.
Lemma judge_failure_spec k f s co : get_collection (ck_bucket s) (i_scope (ck_info s)) (i_collection (ck_info s)) = Ok co →
  ∃ c s', judge_failure crud (k, f) s = (Ok tt, s') ∧
    belongs (ignore_exceptions (ck_info s)) (retry_exceptions (ck_info s)) (i_op_type (ck_info s)) k f c ∧ same_task (ck_info s') (ck_info s) ∧
    (∀ c', table (ck_info s') c' = if decide (c' = c) then <[k := f]> (table (ck_info s) c') else table (ck_info s) c') ∧
    ∃ co', get_collection (ck_bucket s') (i_scope (ck_info s)) (i_collection (ck_info s)) = Ok co' ∧ num_items co' = num_items co - if decide (c = Ignored) then 1 else 0.
Proof.
  intros Hco. unfold judge_failure. rewrite (bind_Ok get _ _ _ _ eq_refl). destruct (mentions (ignore_exceptions (ck_info s)) (fd_error f)) eqn:Hm.
  - rewrite Hco. rewrite (bind_Ok (lift (Ok co)) _ _ _ _ eq_refl). eexists Ignored, _. split; [reflexivity|]. cbn.
    split_and!; [done|by split_and!| |eexists; split; [by apply on_collection_get|done]]. intros [| |]; by case_decide.
  - destruct (crud (i_op_type (ck_info s)) k (fd_value f) (ck_client s)) as [r cl] eqn:Hr.
    set (b := effective (i_op_type (ck_info s)) (ambiguous_error (fd_error f)) r).
    assert (∃ cl, b = effective (i_op_type (ck_info s)) (ambiguous_error (fd_error f)) (crud (i_op_type (ck_info s)) k (fd_value f) cl).1) as Hcl by (exists (ck_client s); by rewrite Hr).
    destruct (mentions (retry_exceptions (ck_info s)) (fd_error f)) eqn:Hx; [exists (Retried b)|exists (Unwanted b)]; (eexists; split; [reflexivity|]);
      cbn [belongs ck_info ck_bucket]; (split_and!; [done|done|exact Hcl|by split_and!| |exists co; split; [done|rewrite decide_False by done; lia]]).
    + intros [|[]|[]]; destruct b; done.
    + intros [|[]|[]]; destruct b; done.
Qed.
Lemma judge_failures_spec l s co : NoDup l.*1 → (∀ k, k ∈ l.*1 → ignored (ck_info s) !! k = None) →
  get_collection (ck_bucket s) (i_scope (ck_info s)) (i_collection (ck_info s)) = Ok co →
  ∃ (assign : pystr → class) s' co', mfor l (judge_failure crud) s = (Ok tt, s') ∧ same_task (ck_info s') (ck_info s) ∧
    (∀ k f, (k, f) ∈ l → belongs (ignore_exceptions (ck_info s)) (retry_exceptions (ck_info s)) (i_op_type (ck_info s)) k f (assign k)) ∧
    (∀ c k, table (ck_info s') c !! k = match (list_to_map l : gmap pystr failure) !! k with
                                        | Some f => if decide (assign k = c) then Some f else table (ck_info s) c !! k
                                        | None => table (ck_info s) c !! k end) ∧
    get_collection (ck_bucket s') (i_scope (ck_info s)) (i_collection (ck_info s)) = Ok co' ∧
    num_items co' + Z.of_nat (size (ignored (ck_info s'))) = num_items co + Z.of_nat (size (ignored (ck_info s))).
Proof.
  revert s co. induction l as [|[k f] l IH]; intros s co Hnd Hi Hco; cbn [mfor].
  { exists (λ _, Ignored), s, co. split_and!; [done|by split_and!|intros ? ? ?%not_elem_of_nil; done|done|done|done]. }
  apply NoDup_cons in Hnd as [Hk Hnd]. destruct (judge_failure_spec k f s co Hco) as (c & s1 & Hrun & Hb & Hsame & Ht & Hn).
  destruct Hsame as (E1 & E2 & E3 & E4 & E5 & E6). destruct Hn as (co1 & Hco1 & Hn).
  pose proof (Ht Ignored) as Hti. cbn in Hti.
  destruct (IH s1 co1) as (assign & s' & co' & Hl & (F1 & F2 & F3 & F4 & F5 & F6) & Hbl & Htl & Hco' & Hnl); [done| |by rewrite E1, E2|].
  { intros k' Hk'. assert (k' ≠ k) by (by intros ->). rewrite Hti. case_decide; [rewrite lookup_insert_ne by done|]; apply Hi; by right. }
  rewrite E1, E2 in *. rewrite E3, E4, E5 in Hbl. exists (λ x, if decide (x = k) then c else assign x), s', co'. split_and!.
  - rewrite (bind_Ok _ _ _ _ _ Hrun). done.
  - split_and!; congruence.
  - intros k' f' [[= -> ->]|Hin]%elem_of_cons; [by rewrite decide_True|]. rewrite decide_False; [by apply Hbl|]. intros ->. apply Hk. apply list_elem_of_fmap. by exists (k, f').
  - intros c' k'. rewrite Htl, Ht, list_to_map_cons.
    destruct (decide (k' = k)) as [->|Hne].
    + rewrite (not_elem_of_list_to_map_1 l k) by done. rewrite lookup_insert_eq. destruct (decide (c' = c)) as [->|]; [rewrite lookup_insert_eq, decide_True; done|by rewrite decide_False].
    + rewrite lookup_insert_ne by done. assert ((if decide (c' = c) then <[k := f]> (table (ck_info s) c') else table (ck_info s) c') !! k' = table (ck_info s) c' !! k') as ->; [|done].
      destruct (decide (c' = c)); [|done]. apply lookup_insert_ne. congruence.
  - done.
  - rewrite Hnl, Hn, Hti. destruct (decide (Ignored = c)) as [<-|Hc]; [|rewrite decide_False by done; lia]. rewrite decide_True by done.
    rewrite map_size_insert_None by (apply Hi; by left). lia.
Qed.
End Classes.
Lemma no_failure_left {V : Type} (i : @op_info V) : ops_failed i = false →
  ops_failed (log_doc_ops_task_failures i) = false ↔ ∀ c k f, table i c !! k = Some f → c = Ignored ∨ c = Retried true.
Proof.
  intros Hf. unfold log_doc_ops_task_failures. cbn [ops_failed]. rewrite Hf, orb_false_l, !orb_false_iff, !negb_false_iff, !bool_decide_eq_true. split.
  - intros [[E1 E2] E3] [|[]|[]] k f; cbn [table]; rewrite ?E1, ?E2, ?E3, ?lookup_empty; by auto.
  - intros H. split_and!; apply map_empty; intros k.
    + destruct (r_fail i !! k) eqn:E; [|done]. by destruct (H (Retried false) k _ E).
    + destruct (u_success i !! k) eqn:E; [|done]. by destruct (H (Unwanted true) k _ E).
    + destruct (u_fail i !! k) eqn:E; [|done]. by destruct (H (Unwanted false) k _ E).
Qed.


(** *** Item counts, history and servers *)

(** [verify_items_count] with a server at least: the test of [vb_active_num] of each server has no effect. *)
Lemma items_verified (replica_factor num_zone max_vbuckets : Z) (server_stats : list (gmap pystr Z)) (master_stats : gmap pystr Z) (active tot : Z) :
  server_stats ≠ [] → ∅ ∉ server_stats → master_stats !! py "vb_active_num" = Some active → master_stats !! py "curr_items_tot" = Some tot →
  let n := if 1 <? num_zone then num_zone else len server_stats in
  let copies := if n <=? replica_factor then n - 1 else replica_factor in
  verify_items_count replica_factor num_zone max_vbuckets server_stats master_stats =
  (if decide (stat_sum (py "vb_active_num") server_stats = max_vbuckets ∧ stat_sum (py "vb_replica_num") server_stats = max_vbuckets * copies)
   then Ok (bool_decide (stat_sum (py "curr_items") server_stats * (copies + 1) = tot)) else raise GenericException).
Proof.
  intros Hne Hem Ha Ht n copies. unfold verify_items_count.
  rewrite (existsb_none (λ s, bool_decide (s = ∅))) by (apply Forall_forall; intros s Hs; apply bool_decide_eq_false; by intros ->).
  rewrite Ha. cbn [of_option mbind res_bind]. rewrite existsb_none; cycle 1.
  { apply Forall_forall. intros s _. destruct (s !! py "curr_items"), (s !! py "vb_active_num"); try done. apply active_check_void. destruct server_stats; [done|]. unfold len. cbn [length]. lia. }
  rewrite Ht. cbn [of_option mbind res_bind]. fold n. unfold copies. destruct (n <=? replica_factor);
    do 2 (match goal with |- context [negb (?a =? ?b)] => destruct (Z.eqb_spec a b) end; cbn [negb]; [|rewrite decide_False by tauto; done]);
    rewrite decide_True by done; f_equal; apply eq_true_iff_eq; rewrite Z.eqb_eq, bool_decide_eq_true; lia.
Qed.
(** For a bucket that is not magma, the second node of [get_vb_details_for_bucket] ends it with [ValueError]: its field was removed for the first. *)
Lemma vb_details_two_nodes {W N} {HC : Clock W} (details : N → M W (gmap pystr (gmap pystr sval))) (lists : N → pystr → M W (list Z)) (n1 n2 : N) (nodes : list N) (w w' : W) m :
  get_vb_details_for_bucket false details lists (n1 :: n2 :: nodes) w = (Ok m, w') → False.
Proof.
  unfold get_vb_details_for_bucket. cbn [vb_details_loop]. intros H.
  assert (list_remove (py "history_start_seqno") all_fields = Ok [py "high_seqno"; py "purge_seqno"]) as E by (vm_compute; reflexivity).
  apply bind_inv in H as (? & ? & _ & H). rewrite E in H. rewrite (bind_Ok (lift (Ok _)) _ _ _ _ eq_refl) in H.
  apply bind_inv in H as (? & ? & _ & H). apply bind_inv in H as (? & ? & _ & H). apply bind_inv in H as (? & ? & _ & H). apply bind_inv in H as (? & ? & _ & H).
  cbn [vb_details_loop] in H. apply bind_inv in H as (? & ? & _ & H). apply bind_inv in H as (f & ? & Hf & _).
  assert (list_remove (py "history_start_seqno") [py "high_seqno"; py "purge_seqno"] = raise ValueError) as E2 by (vm_compute; reflexivity). by rewrite E2 in Hf.
Qed.

(** ** Examples *)

#[local] Instance demo_clock : Clock Z := {| now w := w; sleep d w := w + d |}.
#[local] Instance demo_clock_laws : ClockLaws Z.
Proof. split. intros d w Hd. cbn. lia. Qed.
(** A server that is warm after three seconds, and fails in the first *)
Definition demo_warming (s : pystr) (w : Z) : res (gmap pystr pystr) * Z :=
  (if w <? 1000 then Err (Exn GenericException []) else Ok {[py "ep_warmup_thread" := if w <? 3000 then py "running" else py "complete"]}, w + 100).
Lemma demo_warming_forward s : forward (demo_warming s).
Proof. intros w. change (w ≤ w + 100). lia. Qed.
Lemma demo_warming_answers s : answers (demo_warming s).
Proof. intros w. unfold demo_warming. cbn [fst]. destruct (w <? 1000); [exact eq_refl|exact I]. Qed.
Lemma warmup_decided_witness :
  ∃ r w', wait_warmup_completed demo_warming true 10 5 [py "a"; py "b"] 0 = (Ok r, w') ∧ r = true.
Proof.
  destruct (warmup_decided demo_warming 10 5 [py "a"; py "b"] 0
              demo_warming_forward (λ s _, demo_warming_answers s) ltac:(lia)) as (r & w' & H & _).
  exists r, w'. split; [exact H|]. apply (f_equal fst) in H. vm_compute in H. injection H as H. exact (eq_sym H).
Defined.

Definition demo_fail : gmap pystr (@failure pystr) :=
  {[py "k1" := Failure (py "v1") (py "com.couchbase.TimeoutException: late"); py "k2" := Failure (py "v2") (py "com.couchbase.CasMismatchException")]}.
Definition demo_crud (op k v : pystr) (calls : nat) : result * nat := (Result true [], S calls).
