(* ===== verification/ClusterUtils.v ===== *)
(** * The cluster object and its utilities

    [CBCluster] and [ClusterUtils] of couchbase_utils/cluster_utils/cluster_ready_functions.py, on the [cluster] and [server] of Rebalance.v: which
    servers are in the cluster and run which service, the choice of nodes, following a rebalance, cleaning up.  What
    REST calls and remote shells return is an argument; time is the class [Clock] of Waits.v. *)

From S2P Require Import Prelude Py Rebalance Waits.
Local Open Scope string_scope.
Local Open Scope list_scope.
Local Open Scope Z_scope.
#[local] Arguments py : simpl never.

(** ** [CBCluster] *)

(** The names by which [refresh_object] knows a service *)
Definition offered_as (k : service) : list pystr :=
  match k with
  | KV => [py "Data"; py "kv"] | N1QL => [py "Query"; py "n1ql"] | INDEX => [py "Index"; py "index"] | EVENTING => [py "Eventing"; py "eventing"]
  | CBAS => [py "Analytics"; py "cbas"] | FTS => [py "Search"; py "fts"] | BACKUP => []
  end.
Definition offers (services : server → list pystr) (k : service) (s : server) : bool := existsb (λ n, bool_decide (n ∈ services s)) (offered_as k).
(** The servers' attribute [type] is not part of the model. *)
Definition refresh_object (services : server → list pystr) (servers : list server) : M cluster unit :=
  _ ← modify (λ c, Cluster (master c) (all_servers c) servers (λ k, List.filter (offers services k) servers));
  c ← get;
  m ← lift (list_get (nodes_of c KV) 0);
  put (Cluster m (all_servers c) (nodes_in_cluster c) (nodes_of c)).
(** [s.replace("\\", "").replace("'", "")] *)
Definition unquote (s : pystr) : pystr := List.filter (λ c, negb (bool_decide (c = "\"%char)) && negb (bool_decide (c = "'"%char))) s.
(** [content.split("@")[1]] without quotes, and the server with that address *)
Definition set_master (answer : pystr) : M cluster unit :=
  a ← lift (list_get (split_on "@"%char answer) 1);
  c ← get;
  m ← lift (list_get (List.filter (λ s, bool_decide (ip s = unquote a)) (all_servers c)) 0);
  put (Cluster m (all_servers c) (nodes_in_cluster c) (nodes_of c)).
Definition update_master_using_diag_eval (status : bool) (content : pystr) : M cluster (bool * pystr) :=
  _ ← set_master content; mret (status, content).

(** ** [find_orchestrator] *)

Section Orchestrator.
Context {W : Type} `{HC : Clock W} (terse_cluster_info : M W (bool * pystr)).

(** [retry_index] is compared in every round, and never changed. *)
Fixpoint orchestrator_loop (fuel : nat) (retry_index max_retry : Z) (r : option (bool * pystr)) : M W (option (bool * pystr)) :=
  if retry_index <? max_retry then
    match fuel with
    | O => mraise Blocked
    | S fuel =>
        '(status, node) ← terse_cluster_info;
        if bool_decide (node = py "undefined") then _ ← modify (sleep 1000); orchestrator_loop fuel retry_index max_retry (Some (status, node))
        else mret (Some (status, node))
    end
  else mret r.
Definition find_orchestrator (fuel : nat) : M (cluster * W) (option bool * pystr) := λ '(c, w),
  match orchestrator_loop fuel 0 12 None w with
  | (Err e, w) => (Err e, (c, w))
  | (Ok None, w) => (raise AttributeError, (c, w))
  | (Ok (Some (status, node)), w) =>
      match set_master node c with
      | (Err e, c) => (Err e, (c, w))
      | (Ok _, c) => (Ok (Some status, py "ns_1@" ++ ip (master c)), (c, w))
      end
  end.
End Orchestrator.

(** ** Nodes and services *)

Definition has_colon (s : pystr) : bool := bool_decide (":"%char ∈ s).
(** [get_nodes_in_cluster] for a node: the log line of a host name with an IPv6 node names [self], which a static method has not. *)
Fixpoint servers_of_node (servers : list server) (node_ip : pystr) : res (list server) :=
  match servers with
  | [] => Ok []
  | s :: l =>
      if negb (has_colon (ip s)) && has_colon node_ip then raise NameError
      else
        r ← servers_of_node l node_ip;
        Ok (if bool_decide (has_colon (ip s) = has_colon node_ip) && bool_decide (ip s = node_ip) then s :: r else r)
  end.
Fixpoint get_nodes_in_cluster (servers : list server) (node_ips : list pystr) : res (list server) :=
  match node_ips with
  | [] => Ok []
  | n :: l => a ← servers_of_node servers n; b ← get_nodes_in_cluster servers l; Ok (a ++ b)
  end.

(** [get_services_map] from the items of [get_nodes_services] *)
Definition add_service (key : pystr) (m : gmap pystr (list pystr)) (service : pystr) : gmap pystr (list pystr) :=
  <[service := default [] (m !! service) ++ [key]]> m.
Definition get_services_map (items : list (pystr * list pystr)) : gmap pystr (list pystr) :=
  foldl (λ m kv, foldl (add_service kv.1) m kv.2) ∅ items.

(** [append_nodes_to_list] for a node, already split *)
Fixpoint find_server (servers : list server) (t_node : list pystr) : res (option server) :=
  match servers with
  | [] => Ok None
  | s :: l =>
      a ← list_get t_node 0;
      if bool_decide (ip s = a) then
        p ← int_of_str (port s);
        b ← list_get t_node 1;
        q ← int_of_str b;
        if p =? q then Ok (Some s) else find_server l t_node
      else find_server l t_node
  end.
Definition append_to (k : service) (s : server) (c : cluster) : cluster :=
  Cluster (master c) (all_servers c) (nodes_in_cluster c) (λ k', if decide (k' = k) then nodes_of c k' ++ [s] else nodes_of c k').
Definition append_node (k : service) (t_node : pystr) : M cluster unit :=
  c ← get;
  o ← lift (find_server (all_servers c) (split_on ":"%char t_node));
  match o with Some s => modify (append_to k s) | None => mret tt end.
Definition append_nodes_to_list (k : service) (nodes : list pystr) : M cluster unit := mfor nodes (append_node k).
Definition update_cluster_nodes_service_list (items : list (pystr * list pystr)) : M cluster unit :=
  let service_map := get_services_map items in
  _ ← modify (λ c, Cluster (master c) (all_servers c) (nodes_in_cluster c) (λ _, []));
  mfor (map_to_list service_map) (λ kv, match service_named kv.1 with Some k => append_nodes_to_list k kv.2 | None => mret tt end).

(** [get_nodes_from_services_map].  Host names and addresses come from remote shells; the servers are shared objects, whose address may be replaced. *)
Section NodesFromServices.
Context (full_hostname : pystr → pystr) (ip_address : pystr → list pystr) (cluster_run : bool) (constants_port : Z).
Definition on_couchbase_com (s : pystr) : bool := contains (py "couchbase.com") s.
Definition set_ip (a : pystr) (s : server) : server := Server (sv_id s) a (hostname s) (port s).
Definition without_newlines (s : pystr) : pystr := List.filter (λ c, negb (bool_decide (c = "010"%char))) s.
(** The variable [server] after the inner loop: the first server with the address, or the last *)
Definition inner_server (servers : list server) (a : pystr) : nat :=
  match list_find (λ s, a ∈ without_newlines <$> ip_address (ip s)) servers with Some (j, _) => j | None => pred (length servers) end.
(** A round: the servers, the address looked for and the nodes found *)
Definition match_server (prt : Z) (st : list server * pystr * list server) (i : nat) : res (list server * pystr * list server) :=
  let '(servers, a, found) := st in
  s ← list_get servers i;
  let '(servers, a, j) :=
    if on_couchbase_com a && negb (on_couchbase_com (ip s)) then (alter (set_ip (full_hostname (ip s))) i servers, a, i)
    else if on_couchbase_com (ip s) && negb (on_couchbase_com a) then (servers, full_hostname a, inner_server servers a)
    else (servers, a, i) in
  s ← list_get servers j;
  hit ← (if cluster_run then if prt =? constants_port then Ok false else p ← int_of_str (port s); Ok (prt =? p) else Ok (bool_decide (ip s = a)));
  Ok (servers, a, if (hit : bool) then found ++ [s] else found).
Fixpoint match_servers (prt : Z) (st : list server * pystr * list server) (idx : list nat) : res (list server * pystr * list server) :=
  match idx with [] => Ok st | i :: idx => st ← match_server prt st i; match_servers prt st idx end.
Fixpoint match_infos (infos : list pystr) (servers found : list server) : res (list server * list server) :=
  match infos with
  | [] => Ok (servers, found)
  | info :: infos =>
      let tokens := rsplit_once ":"%char info in
      a ← list_get tokens 0;
      b ← list_get tokens 1;
      prt ← int_of_str b;
      '(servers, _, found) ← match_servers prt (servers, a, found) (seq 0 (length servers));
      match_infos infos servers found
  end.
(** The servers afterwards, and the nodes; [None] when no node has the service. *)
Definition get_nodes_from_services_map (services_map : gmap pystr (list pystr)) (service_type : pystr) (servers : list server) :
    res (list server * option (list server)) :=
  match services_map !! service_type with
  | None => Ok (servers, None)
  | Some infos => '(servers, found) ← match_infos infos servers []; Ok (servers, Some found)
  end.
End NodesFromServices.
(** With [get_all_nodes] false: the first of them *)
Definition first_node (r : res (list server * option (list server))) : res (option server) :=
  '(_, o) ← r; match o with None => Ok None | Some l => s ← list_get l 0; Ok (Some s) end.
(** [get_kv_nodes] of a cluster of type "default": [kv_servers] is what [get_nodes_from_services_map] found. *)
Definition same_address (a b : server) : bool := bool_decide (ip a = ip b) && bool_decide (port a = port b).
Fixpoint keep_kv (kv_servers : list server) (servers new_servers : list server) : list server :=
  match servers with
  | [] => new_servers
  | s :: l => keep_kv kv_servers l (if existsb (λ k, same_address k s) kv_servers && negb (bool_decide (s ∈ new_servers)) then new_servers ++ [s] else new_servers)
  end.
Definition get_kv_nodes (kv_servers : option (list server)) (servers : list server) : res (list server) :=
  match kv_servers, servers with
  | Some kv_servers, _ => Ok (keep_kv kv_servers servers [])
  | None, [] => Ok []
  | None, _ => raise TypeError
  end.

(** [get_services]; [services] of a node may be [None]. *)
Definition commas (s : pystr) : pystr := (λ c, if bool_decide (c = ":"%char) then ","%char else c) <$> s.
Definition get_services (node_services : list (option pystr)) (tgt_services : option pystr) (start_node : nat) : option (list pystr) :=
  match tgt_services with
  | None =>
      let services := omap (λ o, match o with Some x => if bool_decide (x = []) then None else Some x | None => None end) (drop start_node node_services) in
      if bool_decide (services = []) then None else Some services
  | Some t =>
      Some (if bool_decide ("-"%char ∈ t) then drop start_node (split_on "-"%char (commas t)) else replicate (length node_services - start_node) (commas t))
  end.
Definition generate_services_map (nodes : list (pystr * pystr)) (services : option pystr) : gmap pystr pystr :=
  match services with None => ∅ | Some _ => foldl (λ m n, <[n.1 := n.2]> m) ∅ nodes end.
(** [find_node_info]: the last one *)
Definition find_node_info (nodes : list rnode) (node_ip : pystr) : option rnode := foldl (λ o n, if bool_decide (r_ip n = node_ip) then Some n else o) None nodes.

(** ** Choosing nodes *)

(** A server of the list: an object, and whether it is a copy *)
Abbreviation obj := (bool * server)%type.
(** [l.remove(x)] *)
Fixpoint remove_one (x : obj) (l : list obj) : list obj :=
  match l with [] => [] | y :: l => if bool_decide (y = x) then l else y :: remove_one x l end.
(** [for server in initial_list: ... initial_list.remove(server)]: the loop goes on with the next index of the list that has become shorter. *)
Fixpoint remove_loop (fuel i : nat) (remove_ip : pystr) (l : list obj) : list obj :=
  match fuel with
  | O => l
  | S fuel =>
      match l !! i with
      | None => l
      | Some s => remove_loop fuel (S i) remove_ip (if bool_decide (ip s.2 = remove_ip) then remove_one s l else l)
      end
  end.
Definition remove_server (l : list obj) (o : option server) : list obj :=
  match o with Some r => remove_loop (length l) 0 (ip r) l | None => l end.
Definition added (cluster_servers : list server) (o : option server) : list server :=
  match o with Some a => replicate (length (List.filter (λ s, bool_decide (ip s = ip a)) cluster_servers)) a | None => [] end.
Definition add_remove_servers (cluster_servers server_list : list server) (remove_list add_list : list (option server)) : list server :=
  (foldl remove_server ((pair true <$> server_list) ++ (pair false <$> (o ← add_list; added cluster_servers o))) remove_list).*2.
Definition get_victim_nodes (c : cluster) (nodes : list server) (m chosen : option server) (victim_type : pystr) (victim_count : nat) : list (option server) :=
  if bool_decide (victim_type = py "graceful_failover_node") then [chosen]
  else if bool_decide (victim_type = py "other") then Some <$> take victim_count (add_remove_servers (all_servers c) nodes [chosen; Some (master c)] [])
  else [m].

(** [pick_nodes]: the addresses of the nodes to exclude, and of the target *)
Fixpoint pick_loop (m : server) (howmany : Z) (target_ip : option pystr) (nodes picked : list otp) : list otp :=
  match nodes with
  | [] => picked
  | n :: l =>
      if bool_decide (o_ip n = ip m) && bool_decide (str_of_Z (o_port n) = port m) then pick_loop m howmany target_ip l picked
      else
        match target_ip with
        | None => if len (picked ++ [n]) =? howmany then picked ++ [n] else pick_loop m howmany target_ip l (picked ++ [n])
        | Some t =>
            if bool_decide (t = o_ip n) then picked ++ [n]
            else if len picked =? howmany then picked else pick_loop m howmany target_ip l picked
        end
  end.
Definition pick_nodes (m : server) (howmany : Z) (target_ip : option pystr) (exclude_nodes : list pystr) (nodes : list otp) : list otp :=
  pick_loop m howmany target_ip (List.filter (λ n, negb (bool_decide (o_ip n ∈ exclude_nodes))) nodes) [].

(** ** Rebalancing *)

Section Rebalancing.
Context {W : Type} `{HC : Clock W}.

(** [rebalance_reached], with [retry] in halves; a progress of -1 is an error, of -100 one that could not be read. *)
Fixpoint reached_loop (rebalance_progress : M W Z) (percentage wait_step num_retry : Z) (fuel : nat) (progress previous retry2 : Z) : M W (Z * Z) :=
  if negb (progress =? -1) && (progress <? percentage) && (retry2 <? 2 * num_retry) then
    match fuel with
    | O => mraise Blocked
    | S fuel =>
        p ← rebalance_progress;
        let '(previous, retry2) :=
          if p =? -100 then (previous, retry2 + 2)
          else if previous =? p then (previous, retry2 + 1) else (p, 0) in
        _ ← modify (sleep (wait_step * 1000));
        reached_loop rebalance_progress percentage wait_step num_retry fuel p previous retry2
    end
  else mret (progress, retry2).
Definition rebalance_reached (rebalance_progress : M W Z) (percentage wait_step num_retry : Z) (fuel : nat) : M W bool :=
  '(progress, retry2) ← reached_loop rebalance_progress percentage wait_step num_retry fuel 0 0 0;
  mret (if progress <=? 0 then false else if 2 * num_retry <=? retry2 then false else true).

(** REST: the request, with the known and the ejected nodes, and its end *)
Context (post : list pystr → list pystr → M W bool) (monitor : M W bool) (statuses : M W (list otp)).
Definition remove_nodes (known ejected : list pystr) (wait_for_rebalance : bool) : M W bool :=
  if bool_decide (ejected = []) then mret false
  else _ ← post known ejected; if wait_for_rebalance then monitor else mret false.
Definition rebalance (wait_for_completion : bool) (ejected : list pystr) : M W bool :=
  nodes ← statuses;
  result ← post (o_id <$> nodes) ejected;
  if result && wait_for_completion then monitor else mret result.
Definition remove_node (otpnode : list otp) (wait_for_rebalance : bool) : M W unit :=
  nodes ← statuses;
  if (length nodes <=? length otpnode)%nat then mret tt
  else
    _ ← except_Exception (remove_nodes (o_id <$> nodes) (o_id <$> otpnode) wait_for_rebalance)
          (λ _, _ ← modify (sleep 5000); remove_nodes (o_id <$> nodes) (o_id <$> otpnode) wait_for_rebalance);
    mret tt.
(** [add_all_nodes_then_rebalance]: [rebalance] gets the master instead of the cluster, and a server has no attribute [master]. *)
Fixpoint add_others {O : Type} (add : server → M W O) (m : server) (nodes : list server) : M W (list O) :=
  match nodes with
  | [] => mret []
  | s :: l => if bool_decide (ip m = ip s) then add_others add m l else o ← add s; r ← add_others add m l; mret (o :: r)
  end.
Definition add_all_nodes_then_rebalance {O : Type} (add : server → M W O) (m : server) (nodes : list server) : M W (list O) :=
  match nodes with
  | [] => mret []
  | _ => _ ← add_others add m nodes; mraise AttributeError
  end.

(** [wait_for_node_status]: the status of each node by its id *)
Fixpoint status_loop (node_statuses : M W (list (pystr * pystr))) (id expected : pystr) (end_time : Z) (fuel : nat) (reached : bool) : M W bool :=
  t ← gets now;
  if (t <=? end_time) && negb reached then
    match fuel with
    | O => mraise Blocked
    | S fuel =>
        nodes ← node_statuses;
        let reached := match list_find (λ n, n.1 = id) nodes with Some (_, n) => bool_decide (lower n.2 = lower expected) | None => false end in
        _ ← (if reached then mret tt else modify (sleep 5000));
        status_loop node_statuses id expected end_time fuel reached
    end
  else mret reached.
Definition wait_for_node_status (node_statuses : M W (list (pystr * pystr))) (id expected : pystr) (timeout : Z) (fuel : nat) : M W bool :=
  t ← gets now; status_loop node_statuses id expected (t + timeout * 1000) fuel false.

(** [wait_for_cb_collect_to_complete]: progress of the collection, [None] for no response.  Only a missing response counts. *)
Fixpoint collect_loop (tasks : M W (option Z)) (retry_count : Z) (fuel : nat) (retry : Z) : M W bool :=
  if retry <? retry_count then
    match fuel with
    | O => mraise Blocked
    | S fuel =>
        r ← tasks;
        match r with
        | Some p => if p =? 100 then mret true else collect_loop tasks retry_count fuel retry
        | None => _ ← modify (sleep 10000); collect_loop tasks retry_count fuel (retry + 1)
        end
    end
  else mret false.
Definition wait_for_cb_collect_to_complete (tasks : M W (option Z)) (retry_count : Z) (fuel : nat) : M W bool := collect_loop tasks retry_count fuel 0.
End Rebalancing.

(** ** Cleaning up *)

Section CleanUp.
Context {W : Type} `{HC : Clock W}.
(** REST calls on a node: ejecting it, connecting to it, how many pools it has, ejecting it by force *)
Context (eject_node : otp → M W unit) (connect_to : otp → M W unit) (pools_of : otp → M W Z) (force_eject : otp → M W unit).
Context (post : list pystr → list pystr → M W bool) (monitor : M W bool).

Fixpoint remove_otp (x : otp) (l : list otp) : list otp :=
  match l with [] => [] | y :: l => if bool_decide (o_id y = o_id x) then l else y :: remove_otp x l end.
(** The nodes on other ports are ejected and removed from the list that is iterated. *)
Fixpoint eject_loop (fuel i : nat) (nodes : list otp) : M W (list otp) :=
  match fuel with
  | O => mret nodes
  | S fuel =>
      match nodes !! i with
      | None => mret nodes
      | Some n =>
          if (9091 <=? o_port n) && (o_port n <? 9991) then _ ← eject_node n; eject_loop fuel (S i) (remove_otp n nodes)
          else eject_loop fuel (S i) nodes
      end
  end.
(** Whether a node has no pools within 30 seconds *)
Fixpoint pools_loop (start : Z) (fuel : nat) (n : otp) : M W bool :=
  t ← gets now;
  if t - start <? 30000 then
    match fuel with
    | O => mraise Blocked
    | S fuel => p ← pools_of n; if p =? 0 then mret true else _ ← modify (sleep 1000); pools_loop start fuel n
    end
  else mret false.
Definition check_removed (n : otp) : M W bool :=
  _ ← except_Exception (connect_to n) (λ _, _ ← modify (sleep 10000); connect_to n);
  start ← gets now;
  ok ← pools_loop start 30 n;
  t ← gets now;
  _ ← (if 10000 <? t - start then _ ← pools_of n; mret tt else mret tt);
  mret ok.
Fixpoint check_all (l : list otp) : M W (list otp) :=
  match l with [] => mret [] | n :: l => ok ← check_removed n; r ← check_all l; mret (if (ok : bool) then n :: r else r) end.
(** [cleanup_cluster], from the answer of [node_statuses] on; nodes are told apart by their ids. *)
Definition cleanup_cluster (wait_for_rebalance : bool) (master_id : pystr) (nodes : list otp) : M W unit :=
  nodes ← eject_loop (length nodes) 0 nodes;
  if (length nodes <=? 1)%nat then mret tt
  else
    let out := List.filter (λ n, negb (bool_decide (o_id n = master_id))) nodes in
    _ ← remove_nodes post monitor (o_id <$> nodes) (o_id <$> out) wait_for_rebalance;
    success_cleaned ← check_all out;
    let left := List.filter (λ n, negb (bool_decide (o_id n ∈ o_id <$> success_cleaned))) out in
    _ ← mfor left (λ n, except_Exception (_ ← connect_to n; force_eject n) (λ _, mret tt));
    if bool_decide (left = []) then mret tt else mraise GenericException.
End CleanUp.

(** ** Settings *)

(** [check_if_services_obey_tls]: on which addresses a server listens on a port.  The loop over the servers returns in its first round. *)
Definition local_address (prt : pystr) : pystr := py "127.0.0.1:" ++ prt ++ ["010"%char].
Definition open_addresses (prt : pystr) : list pystr := [py "*:" ++ prt ++ ["010"%char]; py "0.0.0.0:" ++ prt ++ ["010"%char]].
Definition server_obeys_tls (ssl_port_map : gmap pystr pystr) (port_recvq : pystr → list pystr) (ports : list pystr) : bool :=
  forallb (λ p, forallb (λ a, bool_decide (a = local_address p)) (port_recvq p)) ports &&
  forallb (λ p, match ssl_port_map !! p with
                | None => true
                | Some q => forallb (λ a, bool_decide (a ∈ open_addresses q)) (port_recvq q)
                end) ports.
Definition check_if_services_obey_tls {S : Type} (ssl_port_map : gmap pystr pystr) (port_recvq : S → pystr → list pystr) (ports : list pystr) (servers : list S) : option bool :=
  match servers with
  | [] => None
  | s :: _ => Some (server_obeys_tls ssl_port_map (port_recvq s) ports)
  end.

(** [check_ip_family_enforcement]: the number of processes that bind to an address family on each server *)
Definition check_ip_family_enforcement {S : Type} (bound : S → pystr → Z) (servers : list S) (ip_family : pystr) : bool :=
  forallb (λ s, bound s (if bool_decide (ip_family = py "ipv4_only") then py "ipv6" else py "ipv4") =? 0) servers.
Section IpFamily.
Context {W : Type} `{HC : Clock W} (setting_autofailover : Z → M W unit) (set_address_family : pystr → M W bool) (get_address_family : M W (list pystr)).
Context (check_ipv4 : M W bool).
(** For IPv6 the check is called through [self.cluster_util], which the class has not. *)
Definition check_enforcement (ipv4_only ipv6_only : bool) : M W (bool * pystr) :=
  ok ← (if ipv4_only then check_ipv4 else mret true);
  if negb ok then mret (false, py "Ports are still binding to the opposite ip-family")
  else if ipv6_only then mraise AttributeError else mret (true, []).
Definition cannot_change (f : pystr) : pystr := py "Unable to change ip-family to " ++ f.
Definition enable_disable_ip_address_family_type (enable ipv4_only ipv6_only : bool) : M W (option (bool * pystr)) :=
  if enable then
    _ ← setting_autofailover 0;
    ok4 ← (if ipv4_only then set_address_family (py "ipv4only") else mret true);
    if negb ok4 then mret (Some (false, cannot_change (py "ipv4only")))
    else
      ok6 ← (if ipv6_only then set_address_family (py "ipv6only") else mret true);
      if negb ok6 then mret (Some (false, cannot_change (py "ipv6only")))
      else
        _ ← setting_autofailover 1;
        _ ← modify (sleep 2000);
        '(status, msg) ← check_enforcement ipv4_only ipv6_only;
        mret (Some (if (status : bool) then (true, []) else (status, msg)))
  else
    '(status, msg) ← check_enforcement ipv4_only ipv6_only;
    if negb status then mret (Some (status, msg))
    else
      _ ← setting_autofailover 0;
      _ ← (if ipv4_only then _ ← set_address_family (py "ipv4"); mret tt else mret tt);
      _ ← (if ipv6_only then _ ← set_address_family (py "ipv6"); mret tt else mret tt);
      stdout ← get_address_family;
      _ ← setting_autofailover 1;
      let judge (f : pystr) : M W (option (bool * pystr)) :=
        x ← lift (list_get stdout 0);
        mret (Some (if bool_decide (x = f) then (true, []) else (false, py "Failed to change IP family"))) in
      if ipv4_only then judge (py "Cluster using ipv4") else if ipv6_only then judge (py "Cluster using ipv6") else mret None.
End IpFamily.

(** ** Proofs *)

(** *** Services *)

(** The nodes that list a service, in order, as often as they list it *)
Definition keys_of (items : list (pystr * list pystr)) (s : pystr) : list pystr :=
  kv ← items; replicate (length (filter (λ x, x = s) kv.2)) kv.1.
Lemma add_services key m l s : default [] (foldl (add_service key) m l !! s) = default [] (m !! s) ++ replicate (length (filter (λ x, x = s) l)) key.
Proof.
  revert m. induction l as [|x l IH]; intros m; cbn [foldl]; [by rewrite app_nil_r|]. rewrite IH, filter_cons. unfold add_service. rewrite lookup_insert.
  destruct (decide (x = s)) as [->|]; [|done]. cbn [length replicate]. cbn [default]. unfold id. by rewrite <- app_assoc.
Qed.
Lemma services_map_lookup items s : default [] (get_services_map items !! s) = keys_of items s.
Proof.
  unfold get_services_map. assert (∀ m, default [] (foldl (λ m kv, foldl (add_service kv.1) m kv.2) m items !! s) = default [] (m !! s) ++ keys_of items s) as H.
  { induction items as [|kv l IH]; intros m; cbn [foldl]; [by rewrite app_nil_r|]. rewrite IH, add_services, <- app_assoc. done. }
  rewrite H. by rewrite lookup_empty.
Qed.
Lemma service_named_name x k : service_named x = Some k ↔ x = service_name k.
Proof.
  unfold service_named. split.
  - intros ([i y] & (Hi & <- & _)%list_find_Some & [= <-])%fmap_Some. done.
  - intros ->. destruct k; vm_compute; reflexivity.
Qed.

Definition num (s : pystr) : option Z := match int_of_str s with Ok p => Some p | Err _ => None end.
Definition numeric (s : server) : Prop := is_ok (int_of_str (port s)) = true.
Definition address_ok (t : pystr) : Prop := match split_on ":"%char t with [_; b] => is_ok (int_of_str b) = true | _ => False end.
(** The server of the cluster object at an address "ip:port" *)
Definition at_address (servers : list server) (t : pystr) : option server :=
  match split_on ":"%char t with
  | [a; b] => snd <$> list_find (λ s, ip s = a ∧ num (port s) = num b) servers
  | _ => None
  end.
Lemma find_server_at servers t : Forall numeric servers → address_ok t → find_server servers (split_on ":"%char t) = Ok (at_address servers t).
Proof.
  unfold address_ok, at_address, num. destruct (split_on _ t) as [|a [|b [|]]]; try done. intros Hs Hb. destruct (int_of_str b) as [q|] eqn:Eq; [|done].
  induction Hs as [|s l Hs _ IH]; [done|]. cbn [find_server list_find]. unfold numeric in Hs. destruct (int_of_str (port s)) as [p|] eqn:Ep; [|done].
  change (list_get [a; b] 0) with (Ok a). change (list_get [a; b] 1) with (Ok b). rewrite IH. cbn [mbind res_bind]. rewrite Eq. cbn [mbind res_bind].
  case_bool_decide as Ha; cbn [mbind res_bind].
  - destruct (Z.eqb_spec p q) as [->|Hne]; [by rewrite decide_True|]. rewrite decide_False by (intros [_ [= ?]]; done). by destruct (list_find _ l) as [[]|].
  - rewrite decide_False by tauto. by destruct (list_find _ l) as [[]|].
Qed.
(** The lists of services of a cluster object replaced *)
Definition with_nodes (f : service → list server) (c : cluster) : cluster := Cluster (master c) (all_servers c) (nodes_in_cluster c) f.
(** A cluster object that has got servers for some services *)
Definition extended (c : cluster) (f : service → list server) (c' : cluster) : Prop :=
  master c' = master c ∧ all_servers c' = all_servers c ∧ nodes_in_cluster c' = nodes_in_cluster c ∧ ∀ k, nodes_of c' k = nodes_of c k ++ f k.
Lemma extended_trans c1 f c2 g c3 : extended c1 f c2 → extended c2 g c3 → extended c1 (λ k, f k ++ g k) c3.
Proof. intros (E1 & E2 & E3 & E4) (F1 & F2 & F3 & F4). split_and!; [congruence..|]. intros k. by rewrite F4, E4, app_assoc. Qed.
Lemma append_node_spec k t c : Forall numeric (all_servers c) → address_ok t →
  append_node k t c = (Ok tt, match at_address (all_servers c) t with Some s => append_to k s c | None => c end).
Proof.
  intros Hs Ht. unfold append_node. rewrite (bind_Ok get _ _ _ _ eq_refl), (find_server_at _ _ Hs Ht), (bind_Ok (lift (Ok _)) _ _ _ _ eq_refl).
  by destruct (at_address _ _).
Qed.
Lemma append_nodes_spec k nodes c : Forall numeric (all_servers c) → Forall address_ok nodes →
  ∃ c', append_nodes_to_list k nodes c = (Ok tt, c') ∧ extended c (λ k', if decide (k' = k) then omap (at_address (all_servers c)) nodes else []) c'.
Proof.
  intros Hs Hn. revert c Hs. induction Hn as [|t nodes Ht _ IH]; intros c Hs.
  { exists c. split; [done|]. split_and!; try done. intros k'. case_decide; by rewrite app_nil_r. }
  unfold append_nodes_to_list. cbn [mfor]. rewrite (bind_Ok _ _ _ _ _ (append_node_spec k t c Hs Ht)). destruct (at_address (all_servers c) t) as [s|] eqn:E.
  - destruct (IH (append_to k s c) Hs) as (c' & Hrun & Hext). exists c'. split; [exact Hrun|].
    assert (extended c (λ k', if decide (k' = k) then [s] else []) (append_to k s c)) as H1.
    { split_and!; try done. intros k'. cbn. case_decide; [done|]. by rewrite app_nil_r. }
    destruct (extended_trans _ _ _ _ _ H1 Hext) as (F1 & F2 & F3 & F4). split_and!; try done. intros k'. rewrite F4. f_equal. cbn [omap list_omap]. rewrite E. by case_decide.
  - destruct (IH c Hs) as (c' & Hrun & Hext). exists c'. split; [exact Hrun|]. cbn [omap list_omap]. by rewrite E.
Qed.
Lemma append_services_spec (l : list (pystr * list pystr)) c : Forall numeric (all_servers c) → Forall (λ kv, Forall address_ok kv.2) l →
  ∃ c', mfor l (λ kv, match service_named kv.1 with Some k => append_nodes_to_list k kv.2 | None => mret tt end) c = (Ok tt, c') ∧
    extended c (λ k, kv ← l; if decide (kv.1 = service_name k) then omap (at_address (all_servers c)) kv.2 else []) c'.
Proof.
  intros Hs Hl. revert c Hs. induction Hl as [|kv l Hkv _ IH]; intros c Hs; cbn [mfor].
  { exists c. split; [done|]. split_and!; try done. intros k'. by rewrite app_nil_r. }
  destruct (service_named kv.1) as [k|] eqn:Ek.
  - apply service_named_name in Ek.  destruct (append_nodes_spec k kv.2 c Hs Hkv) as (c1 & Hrun & Hext). rewrite (bind_Ok _ _ _ _ _ Hrun). pose proof Hext as (_ & E2 & _).
    destruct (IH c1) as (c' & Hrun' & Hext'); [by rewrite E2|]. rewrite E2 in Hext'. exists c'. split; [done|].
    destruct (extended_trans _ _ _ _ _ Hext Hext') as (F1 & F2 & F3 & F4). split_and!; try done. intros k'. rewrite F4. f_equal. cbn [mbind list_bind]. f_equal.
    rewrite Ek. destruct (decide (k' = k)) as [->|Hne]; [by rewrite decide_True|]. rewrite decide_False; [done|]. intros E. apply Hne. destruct k, k'; done.
  - rewrite (bind_Ok (mret tt) _ _ _ _ eq_refl). destruct (IH c Hs) as (c' & Hrun & E1 & E2 & E3 & E4). exists c'. split; [done|]. split_and!; try done.
    intros k'. rewrite E4. f_equal. cbn [mbind list_bind]. rewrite decide_False; [done|]. intros E. apply service_named_name in E. congruence.
Qed.
Lemma one_entry {A} (l : list (pystr * list A)) {B} (f : A → option B) x : NoDup l.*1 →
  (kv ← l; if decide (kv.1 = x) then omap f kv.2 else []) = omap f (default [] ((list_to_map l : gmap pystr (list A)) !! x)).
Proof.
  induction l as [|[y v] l IH]; intros Hnd; [done|]. apply NoDup_cons in Hnd as [Hy Hnd]. cbn [mbind list_bind]. rewrite list_to_map_cons, lookup_insert. cbn [fst snd].
  assert ((kv ← l; if decide (kv.1 = x) then omap f kv.2 else []) = omap f (default [] ((list_to_map l : gmap pystr (list A)) !! x))) as Hl by (by apply IH).
  destruct (decide (y = x)) as [->|]; [|exact Hl]. change (list_bind _ _ ?g l) with (l ≫= g). rewrite Hl, (not_elem_of_list_to_map_1 l x) by done. apply app_nil_r.
Qed.

(** C18: [update_cluster_nodes_service_list] gives every service of the cluster object exactly the servers at the addresses that list it, in the order of the
    answer, whatever the lists were before; addresses of unknown servers are left out and nothing else changes. *)
Theorem services_listed (items : list (pystr * list pystr)) (c : cluster) :
  Forall numeric (all_servers c) → Forall (λ kv : pystr * list pystr, address_ok kv.1) items →
  ∃ c', update_cluster_nodes_service_list items c = (Ok tt, c') ∧
    master c' = master c ∧ all_servers c' = all_servers c ∧ nodes_in_cluster c' = nodes_in_cluster c ∧
    ∀ k, nodes_of c' k = omap (at_address (all_servers c)) (keys_of items (service_name k)).
Proof.
  intros Hs Hi. unfold update_cluster_nodes_service_list. rewrite (bind_Ok (modify _) _ _ _ _ eq_refl).
  destruct (append_services_spec (map_to_list (get_services_map items)) (with_nodes (λ _, []) c)) as (c' & Hrun & E1 & E2 & E3 & E4); [done| |].
  - apply Forall_forall. intros [s l] Hl%elem_of_map_to_list. cbn [snd]. pose proof (services_map_lookup items s) as H. rewrite Hl in H. cbn in H. unfold id in H. rewrite H.
    apply Forall_forall. intros t (kv & Ht & Hkv)%list_elem_of_bind. apply elem_of_replicate in Ht as [-> _]. by eapply Forall_forall in Hi.
  - exists c'. split; [exact Hrun|]. split_and!; try done. intros k. rewrite E4. cbn [with_nodes nodes_of all_servers app].
    rewrite one_entry by apply NoDup_fst_map_to_list. by rewrite list_to_map_to_list, services_map_lookup.
Qed.

(** *** Choosing nodes *)

Lemma remove_loop_none fuel i r l : Forall (λ s : obj, ip s.2 ≠ r) l → remove_loop fuel i r l = l.
Proof.
  intros Hl. revert i. induction fuel as [|fuel IH]; intros i; cbn [remove_loop]; [done|]. destruct (l !! i) as [s|] eqn:E; [|done].
  rewrite bool_decide_eq_false_2; [apply IH|]. eapply Forall_lookup_1 in Hl; done.
Qed.
Lemma remove_one_first a x b : x ∉ a → remove_one x (a ++ x :: b) = a ++ b.
Proof.
  induction a as [|y a IH]; cbn [app remove_one]; intros H; [by rewrite bool_decide_eq_true_2|].
  rewrite elem_of_cons in H. rewrite bool_decide_eq_false_2 by (intros ->; tauto). by rewrite IH by tauto.
Qed.
Lemma remove_loop_one fuel i r a x b : Forall (λ s : obj, ip s.2 ≠ r) a → ip x.2 = r → Forall (λ s : obj, ip s.2 ≠ r) b →
  (i ≤ length a)%nat → (length a < i + fuel)%nat → remove_loop fuel i r (a ++ x :: b) = a ++ b.
Proof.
  intros Ha Hx Hb. revert i. induction fuel as [|fuel IH]; intros i Hi Hf; [lia|]. cbn [remove_loop]. destruct (decide (i = length a)) as [->|Hne].
  - rewrite lookup_app_r, Nat.sub_diag by lia. cbn. rewrite bool_decide_eq_true_2 by done. rewrite remove_one_first; [apply remove_loop_none, Forall_app; done|].
    intros Hin. eapply Forall_forall in Ha; done.
  - destruct (lookup_lt_is_Some_2 a i) as [y Hy]; [lia|]. rewrite lookup_app_l, Hy by lia. rewrite bool_decide_eq_false_2; [apply IH; lia|].
    eapply Forall_lookup_1 in Ha; done.
Qed.
Definition ip_of (s : obj) : pystr := ip s.2.
Lemma remove_server_spec l o : NoDup (ip_of <$> l) →
  remove_server l o = List.filter (λ s : obj, match o with Some r => negb (bool_decide (ip r = ip s.2)) | None => true end) l.
Proof.
  destruct o as [r|]; cbn [remove_server]; [|intros _; induction l as [|x l IH]; cbn; congruence]. intros Hnd.
  assert (∀ l : list obj, Forall (λ s : obj, ip s.2 ≠ ip r) l → List.filter (λ s : obj, negb (bool_decide (ip r = ip s.2))) l = l) as Hid.
  { induction 1 as [|s m Hs _ IH]; [done|]. cbn. rewrite bool_decide_eq_false_2 by congruence. cbn. by rewrite IH. }
  destruct (decide (Exists (λ s : obj, ip s.2 = ip r) l)) as [He|Hn].
  - apply Exists_exists in He. destruct He as (x & Hin & Hx). apply list_elem_of_split in Hin as (a & b & ->).
    rewrite fmap_app, fmap_cons in Hnd. apply NoDup_app in Hnd as (_ & Hab & Hb). apply NoDup_cons in Hb as [Hxb _].
    assert (Forall (λ s : obj, ip s.2 ≠ ip r) a) as Ha.
    { apply Forall_forall. intros s Hs E. apply (Hab (ip_of s)); [by apply (list_elem_of_fmap_2 ip_of)|]. unfold ip_of at 1. rewrite E, <- Hx. by left. }
    assert (Forall (λ s : obj, ip s.2 ≠ ip r) b) as Hb.
    { apply Forall_forall. intros s Hs E. apply Hxb. replace (ip_of x) with (ip_of s) by (unfold ip_of; congruence). by apply (list_elem_of_fmap_2 ip_of). }
    rewrite (remove_loop_one _ 0 _ a x b Ha Hx Hb) by (rewrite ?length_app; cbn; lia).
    rewrite List.filter_app. cbn. rewrite bool_decide_eq_true_2 by done. cbn. by rewrite !Hid.
  - apply not_Exists_Forall in Hn; [|intros; exact _ || solve_decision]. rewrite remove_loop_none by done. by rewrite Hid.
Qed.
Definition to_remove (remove_list : list (option server)) (s : server) : bool :=
  existsb (λ o : option server, match o with Some r => bool_decide (ip r = ip s) | None => false end) remove_list.
Lemma filter_ips (f : obj → bool) l : NoDup (ip_of <$> l) → NoDup (ip_of <$> List.filter f l).
Proof. intros H. eapply sublist_NoDup; [exact H|]. clear H. induction l as [|x l IH]; [constructor|]. cbn. destruct (f x); by constructor. Qed.
Lemma filter_twice {A} (f g : A → bool) l : List.filter f (List.filter g l) = List.filter (λ x, g x && f x) l.
Proof. induction l as [|x l IH]; [done|]. cbn. destruct (g x); cbn; [destruct (f x)|]; by rewrite IH. Qed.
Lemma remove_servers_spec l rs : NoDup (ip_of <$> l) → foldl remove_server l rs = List.filter (λ s : obj, negb (to_remove rs s.2)) l.
Proof.
  revert l. induction rs as [|o rs IH]; intros l Hnd; cbn [foldl].
  { clear. induction l as [|x l IH]; [done|]. cbn. by f_equal. }
  rewrite remove_server_spec, IH by (try done; by apply filter_ips). clear. rewrite filter_twice. apply List.filter_ext. intros x.
  unfold to_remove. cbn [existsb]. destruct o; [|done]. by rewrite negb_orb.
Qed.

(** When the servers that [add_remove_servers] starts from and adds have different addresses, it returns them, in order, without those that
    have the address of a server to remove.  (Of two that share an address and follow each other, one stays, see [one_stays].) *)
Theorem servers_removed (cluster_servers server_list : list server) (remove_list add_list : list (option server)) :
  NoDup (ip <$> server_list ++ (o ← add_list; added cluster_servers o)) →
  add_remove_servers cluster_servers server_list remove_list add_list =
  List.filter (λ s, negb (to_remove remove_list s)) (server_list ++ (o ← add_list; added cluster_servers o)).
Proof.
  intros Hnd. unfold add_remove_servers. set (more := o ← add_list; _) in *. rewrite remove_servers_spec.
  - rewrite !List.filter_app, fmap_app. f_equal; generalize server_list, more; intros l m; clear.
    + induction l as [|s l IH]; [done|]. cbn. destruct (to_remove remove_list s); cbn; [exact IH|]. f_equal. exact IH.
    + induction m as [|s m IH]; [done|]. cbn. destruct (to_remove remove_list s); cbn; [exact IH|]. f_equal. exact IH.
  - rewrite fmap_app, <- !list_fmap_compose. rewrite fmap_app in Hnd. exact Hnd.
Qed.
Example one_stays : ∀ s, add_remove_servers [s] [s; s] [Some s] [] = [s].
Proof. intros s. unfold add_remove_servers. cbn. rewrite bool_decide_eq_true_2 by done. by rewrite bool_decide_eq_true_2. Qed.

Definition is_master (m : server) (n : otp) : bool := bool_decide (o_ip n = ip m) && bool_decide (str_of_Z (o_port n) = port m).
(** [pick_nodes] picks, without a target, the first [howmany] nodes that are neither the master nor excluded, and all of them when there are fewer;
    with a target, the first such node at its address. *)
Theorem nodes_picked (m : server) (howmany : Z) (exclude : list pystr) (nodes : list otp) :
  0 < howmany →
  let others := List.filter (λ n, negb (is_master m n)) (List.filter (λ n, negb (bool_decide (o_ip n ∈ exclude))) nodes) in
  pick_nodes m howmany None exclude nodes = take (Z.to_nat howmany) others ∧
  ∀ t, pick_nodes m howmany (Some t) exclude nodes = take 1 (List.filter (λ n, bool_decide (t = o_ip n)) others).
Proof.
  intros Hh others. unfold pick_nodes, others. clear others. generalize (List.filter (λ n, negb (bool_decide (o_ip n ∈ exclude))) nodes). intros l. split.
  - assert (∀ picked, len picked < howmany → pick_loop m howmany None l picked = picked ++ take (Z.to_nat (howmany - len picked)) (List.filter (λ n, negb (is_master m n)) l)) as H.
    { induction l as [|n l IH]; intros picked Hp; cbn [pick_loop]; [cbn [List.filter]; by rewrite take_nil, app_nil_r|]. cbn [List.filter]. fold (is_master m n).
      destruct (is_master m n); cbn [negb]; [by apply IH|]. unfold len in *. rewrite length_app. cbn [length].
      replace (Z.to_nat (howmany - Z.of_nat (length picked))) with (S (Z.to_nat (howmany - Z.of_nat (length picked + 1)))) by lia. cbn [take].
      destruct (Z.eqb_spec (Z.of_nat (length picked + 1)) howmany) as [E|E].
      - replace (Z.to_nat (howmany - Z.of_nat (length picked + 1))) with O by lia. by rewrite take_0.
      - rewrite IH by (rewrite length_app; cbn [length]; lia). rewrite length_app. cbn [length]. by rewrite <- app_assoc. }
    rewrite H by (unfold len; cbn; lia). cbn [app]. f_equal. unfold len. cbn. lia.
  - intros t. induction l as [|n l IH]; [done|]. cbn [pick_loop List.filter]. fold (is_master m n). destruct (is_master m n); cbn [negb]; [exact IH|].
    cbn [List.filter]. destruct (bool_decide (t = o_ip n)); [cbn; by destruct (List.filter _ (List.filter _ l))|]. destruct (Z.eqb_spec (len (@nil otp)) howmany) as [E|E]; [unfold len in E; cbn in E; lia|exact IH].
Qed.

(** *** The orchestrator *)

(** The cluster answers "undefined" [n] times, with the sleeps between. *)
Fixpoint undefined_for {W} `{Clock W} (terse : M W (bool * pystr)) (n : nat) (w w' : W) : Prop :=
  match n with
  | O => w' = w
  | S n => ∃ st w1, terse w = (Ok (st, py "undefined"), w1) ∧ undefined_for terse n (sleep 1000 w1) w'
  end.
Lemma orchestrator_loop_waits {W} {HC : Clock W} (terse : M W (bool * pystr)) n fuel r w w1 : undefined_for terse n w w1 →
  ∃ r', orchestrator_loop terse (n + fuel) 0 12 r w = orchestrator_loop terse fuel 0 12 r' w1.
Proof.
  revert r w. induction n as [|n IH]; intros r w H; [cbn in H; subst; by exists r|]. destruct H as (st & w2 & Hw & H).
  destruct (IH (Some (st, py "undefined")) _ H) as (r' & Hr). exists r'. cbn [orchestrator_loop Nat.add]. rewrite (proj2 (Z.ltb_lt 0 12)) by lia.
  rewrite (bind_Ok _ _ _ _ _ Hw). rewrite bool_decide_eq_true_2 by done. by rewrite (bind_Ok (modify _) _ _ _ _ eq_refl).
Qed.

(** C25: [find_orchestrator] makes the server at the address of the orchestrator the master, after however many answers "undefined"; the limit of twelve
    attempts does not exist: while the cluster answers "undefined" the loop goes on, for any number of rounds. *)
Theorem orchestrator_found {W : Type} {HC : Clock W} (terse : M W (bool * pystr)) (c : cluster) (w : W) :
  (∀ n w1 w2 st a m, undefined_for terse n w w1 → terse w1 = (Ok (st, py "ns_1@" ++ a), w2) → "@"%char ∉ a →
     list_find (λ s, ip s = unquote a) (all_servers c) = Some m →
     find_orchestrator terse (n + 1) (c, w) =
       (Ok (Some st, py "ns_1@" ++ ip m.2), (Cluster m.2 (all_servers c) (nodes_in_cluster c) (nodes_of c), w2))) ∧
  (∀ n w1, undefined_for terse n w w1 → find_orchestrator terse n (c, w) = (raise Blocked, (c, w1))).
Proof.
  split.
  - intros n w1 w2 st a m Hn Hw Ha Hm. unfold find_orchestrator. destruct (orchestrator_loop_waits terse n 1 None w w1 Hn) as (r' & ->).
    cbn [orchestrator_loop]. rewrite (proj2 (Z.ltb_lt 0 12)) by lia. rewrite (bind_Ok _ _ _ _ _ Hw). rewrite bool_decide_eq_false_2 by done. cbn [mret M_ret].
    unfold set_master. assert (split_on "@"%char (py "ns_1@" ++ a) = [py "ns_1"; a]) as -> by (change (py "ns_1@" ++ a) with (py "ns_1" ++ "@"%char :: a); rewrite split_on_app by (vm_compute; set_solver); by rewrite split_on_word).
    change (list_get [py "ns_1"; a] 1) with (Ok a). rewrite (bind_Ok (lift (Ok a)) _ _ _ _ eq_refl), (bind_Ok get _ _ _ _ eq_refl).
    assert (list_get (List.filter (λ s, bool_decide (ip s = unquote a)) (all_servers c)) 0 = Ok m.2) as ->; [|done].
    destruct m as [i m]. apply list_find_Some in Hm as (Hi & Hip & Hbefore). revert i Hi Hbefore. induction (all_servers c) as [|s l IH]; intros i Hi Hb; [done|]. cbn [List.filter].
    destruct i as [|i]; [cbn in Hi; injection Hi as ->; by rewrite bool_decide_eq_true_2|].
    rewrite bool_decide_eq_false_2 by (apply (Hb O s); [done|lia]). apply (IH i); [done|]. intros j y Hj Hlt. apply (Hb (S j) y); [done|lia].
  - intros n w1 Hn. unfold find_orchestrator. destruct (orchestrator_loop_waits terse n 0 None w w1 Hn) as (r' & H). rewrite Nat.add_0_r in H. by rewrite H.
Qed.

(** *** Cleaning up and waiting *)

Section CleanUpProofs.
Context {W : Type} {HC : Clock W} (eject_node : otp → M W unit) (connect_to : otp → M W unit) (pools_of : otp → M W Z) (force_eject : otp → M W unit)
  (post : list pystr → list pystr → M W bool) (monitor : M W bool).
(** The node has answered that it is in no pool. *)
Definition cleaned (n : otp) : Prop := ∃ w1 w2, pools_of n w1 = (Ok 0, w2).
Lemma pools_loop_true start fuel n w w' : pools_loop pools_of start fuel n w = (Ok true, w') → cleaned n.
Proof.
  revert w. induction fuel as [|fuel IH]; intros w; cbn [pools_loop]; rewrite (bind_Ok (gets now) _ _ _ _ eq_refl); (destruct (now w - start <? 30000); [|done]); [done|].
  intros (p & w1 & Hp & H)%bind_inv. destruct (Z.eqb_spec p 0) as [->|]; [by exists w, w1|]. rewrite (bind_Ok (modify _) _ _ _ _ eq_refl) in H. by eapply IH.
Qed.
Lemma check_removed_true n w w' : check_removed connect_to pools_of n w = (Ok true, w') → cleaned n.
Proof.
  unfold check_removed. intros (u & w1 & _ & H)%bind_inv. rewrite (bind_Ok (gets now) _ _ _ _ eq_refl) in H. apply bind_inv in H as (ok & w2 & Hok & H).
  rewrite (bind_Ok (gets now) _ _ _ _ eq_refl) in H. apply bind_inv in H as (u' & w3 & _ & H). injection H as -> _. by eapply pools_loop_true.
Qed.
Lemma check_all_spec l r w w' : check_all connect_to pools_of l w = (Ok r, w') → Forall (λ n, n ∈ l ∧ cleaned n) r.
Proof.
  revert r w w'. induction l as [|n l IH]; intros r w w'; cbn [check_all]; [intros [= <- _]; constructor|].
  intros (ok & w1 & Hok & H)%bind_inv. apply bind_inv in H as (r' & w2 & Hr & H). injection H as <- _. apply IH in Hr.
  assert (Forall (λ x, x ∈ n :: l ∧ cleaned x) r') as Hr' by (eapply Forall_impl; [exact Hr|]; intros x [? ?]; split; [by right|done]).
  destruct ok; [|done]. constructor; [|done]. split; [by left|by eapply check_removed_true].
Qed.
Definition usual_port (n : otp) : Prop := ¬ (9091 ≤ o_port n < 9991).
Lemma eject_loop_none fuel i nodes w : Forall usual_port nodes → eject_loop eject_node fuel i nodes w = (Ok nodes, w).
Proof.
  intros Hp. revert i. induction fuel as [|fuel IH]; intros i; cbn [eject_loop]; [done|]. destruct (nodes !! i) as [n|] eqn:E; [|done].
  eapply Forall_lookup_1 in Hp; [|done]. unfold usual_port in Hp. destruct (Z.leb_spec 9091 (o_port n)), (Z.ltb_spec (o_port n) 9991); cbn [andb]; try apply IH. lia.
Qed.
End CleanUpProofs.

(** While the collection is reported with a progress that is not 100, the wait goes on without a limit. *)
Lemma collect_never_ends {W} {HC : Clock W} (tasks : M W (option Z)) retry_count fuel w : 0 < retry_count →
  (∀ w, ∃ p w', tasks w = (Ok (Some p), w') ∧ p ≠ 100) → ∃ w', wait_for_cb_collect_to_complete tasks retry_count fuel w = (raise Blocked, w').
Proof.
  intros Hr Ht. unfold wait_for_cb_collect_to_complete. revert w. induction fuel as [|fuel IH]; intros w; cbn [collect_loop]; rewrite (proj2 (Z.ltb_lt 0 retry_count)) by lia; [by exists w|].
  destruct (Ht w) as (p & w1 & Hp & Hne). rewrite (bind_Ok _ _ _ _ _ Hp). destruct (Z.eqb_spec p 100); [done|]. apply IH.
Qed.
(** Enforcing IPv6 never succeeds, and never says that it failed once the family was changed: it raises. *)
Lemma ipv6_not_enforced {W} {HC : Clock W} auto set_family get_family check4 enable ipv4_only (w w' : W) msg :
  enable_disable_ip_address_family_type auto set_family get_family check4 enable ipv4_only true w = (Ok (Some (true, msg)), w') → False.
Proof.
  assert (∀ w1 r w2, check_enforcement check4 ipv4_only true w1 = (Ok r, w2) → r.1 = false) as Hc.
  { intros w1 r w2 H. unfold check_enforcement in H. apply bind_inv in H as (ok & w3 & _ & H). destruct ok; cbn [negb] in H; [done|]. by injection H as <- _. }
  unfold enable_disable_ip_address_family_type. destruct enable; intros H.
  - apply bind_inv in H as (? & ? & _ & H). apply bind_inv in H as (ok4 & ? & _ & H). destruct ok4; cbn [negb] in H; [|done].
    apply bind_inv in H as (ok6 & ? & _ & H). destruct ok6; cbn [negb] in H; [|done]. apply bind_inv in H as (? & ? & _ & H). apply bind_inv in H as (? & ? & _ & H).
    apply bind_inv in H as ([st m] & ? & He & H). apply Hc in He. cbn in He. subst st. done.
  - apply bind_inv in H as ([st m] & ? & He & H). apply Hc in He. cbn in He. subst st. done.
Qed.
(** [rebalance_reached] says true only after an answer of at least the percentage. *)
Lemma reached_loop_spec {W} {HC : Clock W} (progress_of : M W Z) percentage wait_step num_retry fuel progress previous retry2 w p r w' :
  reached_loop progress_of percentage wait_step num_retry fuel progress previous retry2 w = (Ok (p, r), w') →
  (p = progress ∨ ∃ w1 w2, progress_of w1 = (Ok p, w2)) ∧ (p = -1 ∨ percentage ≤ p ∨ 2 * num_retry ≤ r).
Proof.
  revert progress previous retry2 w. induction fuel as [|fuel IH]; intros progress previous retry2 w; cbn [reached_loop];
    (destruct (_ && _ && _) eqn:E; [|intros [= -> -> _]; split; [by left|]; rewrite !andb_false_iff, negb_false_iff, Z.eqb_eq, !Z.ltb_ge in E; tauto]); [done|].
  intros (q & w1 & Hq & H)%bind_inv. destruct (if q =? -100 then _ else _) as [pr rt]. rewrite (bind_Ok (modify _) _ _ _ _ eq_refl) in H. apply IH in H as [[->|Hp] Hd]; (split; [right|done]); [by exists w, w1|done].
Qed.
Lemma reached_sound {W} {HC : Clock W} (progress_of : M W Z) percentage wait_step num_retry fuel w w' :
  rebalance_reached progress_of percentage wait_step num_retry fuel w = (Ok true, w') → ∃ p w1 w2, progress_of w1 = (Ok p, w2) ∧ percentage ≤ p ∧ 0 < p.
Proof.
  unfold rebalance_reached. intros ([p r] & w1 & Hp & H)%bind_inv. injection H as H _. destruct (Z.leb_spec p 0); [done|]. destruct (Z.leb_spec (2 * num_retry) r); [done|].
  apply reached_loop_spec in Hp as [[->|(wa & wb & Hp)] Hd]; [lia|]. exists p, wa, wb. split; [done|lia].
Qed.

(** ** Examples *)

Definition demo_server (n : nat) (a : pystr) : server := Server n a a (py "8091").
Definition demo_servers : list server := [demo_server 1 (py "10.0.0.1"); demo_server 2 (py "10.0.0.2"); demo_server 3 (py "10.0.0.3")].
Definition demo_cluster : cluster := Cluster (demo_server 1 (py "10.0.0.1")) demo_servers demo_servers (λ _, demo_servers).
Definition demo_items : list (pystr * list pystr) := [(py "10.0.0.2:8091", [py "kv"; py "index"]); (py "10.0.0.1:8091", [py "kv"]); (py "10.0.0.9:8091", [py "kv"])].
Lemma services_listed_witness :
  ∃ c', update_cluster_nodes_service_list demo_items demo_cluster = (Ok tt, c') ∧ (sv_id <$> nodes_of c' KV) = [2; 1]%nat ∧ nodes_of c' FTS = [].
Proof.
  destruct (services_listed demo_items demo_cluster ltac:(repeat constructor) ltac:(repeat constructor)) as (c' & Hrun & _ & _ & _ & H).
  exists c'. split; [exact Hrun|]. split; rewrite H; vm_compute; reflexivity.
Defined.
Lemma servers_removed_witness :
  add_remove_servers demo_servers demo_servers [Some (demo_server 2 (py "10.0.0.2")); None] [] = [demo_server 1 (py "10.0.0.1"); demo_server 3 (py "10.0.0.3")].
Proof.
  refine (eq_trans (servers_removed demo_servers demo_servers [Some (demo_server 2 (py "10.0.0.2")); None] [] _) _); [|vm_compute; reflexivity].
  apply (bool_decide_unpack _). vm_compute. exact I.
Defined.
Definition demo_otp (a : pystr) : otp := Otp (py "ns_1@" ++ a) a 8091.
Definition demo_nodes : list otp := demo_otp <$> [py "10.0.0.1"; py "10.0.0.2"; py "10.0.0.3"].
Lemma nodes_picked_witness : pick_nodes (demo_server 1 (py "10.0.0.1")) 1 None [py "10.0.0.2"] demo_nodes = [demo_otp (py "10.0.0.3")].
Proof.
  refine (eq_trans (proj1 (nodes_picked (demo_server 1 (py "10.0.0.1")) 1 [py "10.0.0.2"] demo_nodes ltac:(lia))) _). vm_compute. reflexivity.
Defined.
#[local] Instance demo_clock : Clock Z := {| now w := w; sleep d w := w + d |}.
(** A cluster that has elected an orchestrator after two seconds *)
Definition demo_terse (w : Z) : res (bool * pystr) * Z := (Ok (true, if w <? 2000 then py "undefined" else py "ns_1@10.0.0.3"), w).
Lemma orchestrator_found_witness :
  ∃ s', find_orchestrator demo_terse 3 (demo_cluster, 0) = (Ok (Some true, py "ns_1@10.0.0.3"), s') ∧ sv_id (master s'.1) = 3%nat.
Proof.
  destruct (orchestrator_found demo_terse demo_cluster 0) as [H _].
  eexists. split; [refine (H 2%nat 2000 2000 true (py "10.0.0.3") (2%nat, demo_server 3 (py "10.0.0.3")) _ eq_refl _ _)|reflexivity].
  - exists true, 0. split; [reflexivity|]. exists true, 1000. split; reflexivity.
  - apply (bool_decide_unpack _). vm_compute. exact I.
  - vm_compute. reflexivity.
Defined.
