(* ===== verification/DurableLoad.v ===== *)
(** * Durable loads and their readers

    [Durability.Loader] of lib/Jython_tasks/task.py: a thread writes batches of documents with durability and moves [write_offset]; beside it [Reader] reads each
    document from all replicas and [Persistence] asks the nodes whether it is on disk, and both note where the cluster and the answers of the
    SDK differ.  The threads are a step relation: each step is one access to what they share.  The answers of the cluster are arbitrary. *)

From S2P Require Import Prelude Py DocLoader.
Local Open Scope string_scope.
Local Open Scope list_scope.
Local Open Scope Z_scope.
#[local] Arguments py : simpl never.

(** [op_type]; with any other one the first batch fails. *)
Inductive op_type := Create | Update | Delete.

Section Durable.
Context {V : Type} `{EqDecision V}.
(** A document, and the answer of a replica as a dictionary *)
Abbreviation doc := (pystr * V)%type.
Abbreviation replica_doc := (gmap pystr V).

(** ** The judgement of the reader *)

(** [create_failed], [update_failed] or [delete_failed], the documents before the change, and the two results *)
Record found := Found { sdk_acked_crud_failed : gmap pystr V; sdk_exception_crud_succeed : gmap pystr V }.
Definition acked (d : doc) (r : found) : found := Found (<[d.1 := d.2]> (sdk_acked_crud_failed r)) (sdk_exception_crud_succeed r).
Definition excepted (d : doc) (r : found) : found := Found (sdk_acked_crud_failed r) (<[d.1 := d.2]> (sdk_exception_crud_succeed r)).
Definition ambiguous (e : pystr) : bool := contains SDKException.DurabilityAmbiguousException e || contains SDKException.TimeoutException e.
(** The number of replicas whose value is not the old one, up to an exception *)
Fixpoint changed (docs_to_be_updated : gmap pystr replica_doc) (key : pystr) (result : list replica_doc) : nat * option pyexn :=
  match result with
  | [] => (O, None)
  | x :: l =>
      match (v ← dict_get x (py "value"); o ← dict_get docs_to_be_updated key; ov ← dict_get o (py "value"); Ok (v, ov)) with
      | Err e => (O, Some e)
      | Ok (v, ov) => let '(n, e) := changed docs_to_be_updated key l in (if bool_decide (v = ov) then n else S n, e)
      end
  end.
(** The results afterwards, and the exception that ends the thread, if any *)
Definition judge (op : op_type) (replicaNumber : Z) (failed : gmap pystr pystr) (old : gmap pystr replica_doc) (d : doc) (result : list replica_doc) (r : found) : found * option pyexn :=
  match op, failed !! d.1 with
  | Create, None => (if bool_decide (result = []) then acked d r else r, None)
  | Create, Some e => (if bool_decide (result = []) || ambiguous e then r else excepted d r, None)
  | Update, None =>
      if bool_decide (result = []) then (acked d r, None)
      else match changed old d.1 result with (n, None) => (if (n =? 0)%nat then acked d r else r, None) | (_, Some e) => (r, Some e) end
  | Update, Some _ => let '(n, e) := changed old d.1 result in (if (n =? 0)%nat then r else excepted d r, e)
  | Delete, None =>
      if replicaNumber <? len result then
        match result with
        | x :: _ => (Found (x ∪ sdk_acked_crud_failed r) (sdk_exception_crud_succeed r), None)
        | [] => (r, Some (Exn IndexError []))
        end
      else (r, None)
  | Delete, Some _ => (r, None)
  end.

(** The answers of the nodes on a key: whether it is dirty, [None] for an exception.  For a creation they are counted up to the first exception. *)
Fixpoint clean_count (answers : list (option bool)) : nat :=
  match answers with [] => O | None :: _ => O | Some dirty :: l => ((if (dirty : bool) then 0 else 1) + clean_count l)%nat end.
(** The judgement of [Persistence] on a created document; the key may be noted as not persisted. *)
Definition judge_persisted (failed : gmap pystr pystr) (d : doc) (answers : list (option bool)) (not_persisted : gmap pystr V) (r : found) : gmap pystr V * found :=
  match failed !! d.1 with
  | None => (if (clean_count answers =? 0)%nat then <[d.1 := d.2]> not_persisted else not_persisted, r)
  | Some _ => (not_persisted, if (clean_count answers =? 0)%nat then r else excepted d r)
  end.

(** ** The threads *)

(** In the loop of [call]; a batch that was taken; done, with its failures; noted; the loop has ended, or [set_exception] has raised. *)
Inductive loader_pc := LNext | LTaken (b : list doc) | LDone (b : list doc) (f : gmap pystr pystr) | LNoted (b : list doc) | LEnded | LRaised.
(** At the test of the offsets; before and after [get_from_all_replicas]; at the end of a round; ended, or ended by an exception. *)
Inductive reader_pc := RWait | RFetch (d : doc) | RJudge (d : doc) (result : list replica_doc) | RNext | REnded | RDead.
Inductive persistence_pc := PWait | PStat (d : doc) | PNext | PEnded | PDead.

Record dstate := DState {
  lpc : loader_pc; todo : list doc; write_offset : Z; failed : gmap pystr pystr; old : gmap pystr replica_doc;
  rpc : reader_pc; to_read : list doc; read_offset : Z; results : found;
  ppc : persistence_pc; to_check : list doc; persistence_offset : Z; sdk_acked_pers_failed : gmap pystr V
}.
Definition set_loader (pc : loader_pc) (s : dstate) : dstate :=
  DState pc (todo s) (write_offset s) (failed s) (old s) (rpc s) (to_read s) (read_offset s) (results s) (ppc s) (to_check s) (persistence_offset s) (sdk_acked_pers_failed s).
Definition take_batch (b rest : list doc) (o : gmap pystr replica_doc) (s : dstate) : dstate :=
  DState (LTaken b) rest (write_offset s) (failed s) (o ∪ old s) (rpc s) (to_read s) (read_offset s) (results s) (ppc s) (to_check s) (persistence_offset s) (sdk_acked_pers_failed s).
Definition note_failures (b : list doc) (f : gmap pystr pystr) (s : dstate) : dstate :=
  DState (LNoted b) (todo s) (write_offset s) (f ∪ failed s) (old s) (rpc s) (to_read s) (read_offset s) (results s) (ppc s) (to_check s) (persistence_offset s) (sdk_acked_pers_failed s).
Definition advance (b : list doc) (s : dstate) : dstate :=
  DState LNext (todo s) (write_offset s + len b) (failed s) (old s) (rpc s) (to_read s) (read_offset s) (results s) (ppc s) (to_check s) (persistence_offset s) (sdk_acked_pers_failed s).
Definition set_reader (pc : reader_pc) (l : list doc) (o : Z) (r : found) (s : dstate) : dstate :=
  DState (lpc s) (todo s) (write_offset s) (failed s) (old s) pc l o r (ppc s) (to_check s) (persistence_offset s) (sdk_acked_pers_failed s).
Definition set_persistence (pc : persistence_pc) (l : list doc) (o : Z) (m : gmap pystr V) (r : found) (s : dstate) : dstate :=
  DState (lpc s) (todo s) (write_offset s) (failed s) (old s) (rpc s) (to_read s) (read_offset s) r pc l o m.

Context (op : op_type) (replicaNumber start : Z) (batch_size : nat) (docs : list doc).
Definition end_offset : Z := start + len docs.
(** [call] has started the threads. *)
Definition started (check_persistence : bool) : dstate :=
  DState LNext docs start ∅ ∅ RWait docs start (Found ∅ ∅) (if check_persistence then PWait else PEnded) docs start ∅.

(** What the threads find out: the failures that the SDK reports for a batch, the replicas read, and the answers of the nodes *)
Inductive event := Reported (f : gmap pystr pystr) | Read (d : doc) (result : list replica_doc) | Checked (d : doc) (answers : list (option bool)).
Inductive dstep (s : dstate) : list event → dstate → Prop :=
  (** [next_batch]; for updates and deletes the documents are read first. *)
  | l_take o : lpc s = LNext → todo s ≠ [] → (op = Create → o = ∅) → dstep s [] (take_batch (take batch_size (todo s)) (drop batch_size (todo s)) o s)
  (** The operation: some documents of the batch have failed. *)
  | l_write b f : lpc s = LTaken b → (∀ k, is_Some (f !! k) → k ∈ b.*1) → dstep s [Reported f] (set_loader (LDone b f) s)
  | l_note b f : lpc s = LDone b f → dstep s [] (note_failures b f s)
  | l_advance b : lpc s = LNoted b → dstep s [] (advance b s)
  | l_end : lpc s = LNext → todo s = [] → dstep s [] (set_loader LEnded s)
  | l_raise : (lpc s = LNext ∧ todo s ≠ []) ∨ (∃ b, lpc s = LTaken b) → dstep s [] (set_loader LRaised s)
  | r_doc d l : rpc s = RWait → read_offset s < write_offset s ∨ read_offset s = end_offset → to_read s = d :: l →
      dstep s [] (set_reader (RFetch d) l (read_offset s) (results s) s)
  | r_none : rpc s = RWait → read_offset s < write_offset s ∨ read_offset s = end_offset → to_read s = [] →
      dstep s [] (set_reader RNext [] (read_offset s) (results s) s)
  | r_fetch d result : rpc s = RFetch d → dstep s [] (set_reader (RJudge d result) (to_read s) (read_offset s) (results s) s)
  | r_fetch_raise d : rpc s = RFetch d → dstep s [] (set_reader RDead (to_read s) (read_offset s) (results s) s)
  | r_judge d result : rpc s = RJudge d result →
      dstep s [Read d result]
        (let '(r, e) := judge op replicaNumber (failed s) (old s) d result (results s) in set_reader (if e is Some _ then RDead else RNext) (to_read s) (read_offset s) r s)
  | r_next : rpc s = RNext →
      dstep s [] (if bool_decide (read_offset s = end_offset) then set_reader REnded (to_read s) (read_offset s) (results s) s
                  else set_reader RWait (to_read s) (read_offset s + 1) (results s) s)
  | p_doc d l : ppc s = PWait → persistence_offset s < write_offset s ∨ persistence_offset s = end_offset → to_check s = d :: l →
      dstep s [] (set_persistence (PStat d) l (persistence_offset s) (sdk_acked_pers_failed s) (results s) s)
  | p_none : ppc s = PWait → persistence_offset s < write_offset s ∨ persistence_offset s = end_offset → to_check s = [] →
      dstep s [] (set_persistence PNext [] (persistence_offset s) (sdk_acked_pers_failed s) (results s) s)
  | p_judge d answers : ppc s = PStat d → op = Create →
      dstep s [Checked d answers]
        (let '(m, r) := judge_persisted (failed s) d answers (sdk_acked_pers_failed s) (results s) in set_persistence PNext (to_check s) (persistence_offset s) m r s)
  (** [self.update_failed[self.instance]] has no such key; the map of vbuckets may not have the vbucket. *)
  | p_raise d : ppc s = PStat d → dstep s [] (set_persistence PDead (to_check s) (persistence_offset s) (sdk_acked_pers_failed s) (results s) s)
  | p_next : ppc s = PNext →
      dstep s [] (if bool_decide (persistence_offset s = end_offset) then set_persistence PEnded (to_check s) (persistence_offset s) (sdk_acked_pers_failed s) (results s) s
                  else set_persistence PWait (to_check s) (write_offset s) (sdk_acked_pers_failed s) (results s) s).
(** A run of so many steps from the start, and what was found out *)
Inductive druns (check_persistence : bool) : nat → list event → dstate → Prop :=
  | druns_start : druns check_persistence 0 [] (started check_persistence)
  | druns_step n evs s ev s' : druns check_persistence n evs s → dstep s ev s' → druns check_persistence (S n) (evs ++ ev) s'.
End Durable.

(** ** Proofs *)

Section Proofs.
Context {V : Type} `{EqDecision V} (op : op_type) (replicaNumber start : Z) (batch_size : nat) (docs : list (pystr * V)).
Hypothesis Hbatch : (0 < batch_size)%nat.
Hypothesis Hnd : NoDup docs.*1.
Abbreviation step := (dstep op replicaNumber start batch_size docs).
Abbreviation fin := (end_offset start docs).
Implicit Types s : @dstate V.

(** Offsets as numbers of documents *)
Definition at_ (o : Z) : nat := Z.to_nat (o - start).
Abbreviation wr s := (at_ (write_offset s)).

(** The cases of a step, with the next state computed *)
Ltac open_next :=
  repeat match goal with
  | |- context [if bool_decide ?P then _ else _] => destruct (bool_decide_reflect P)
  | |- context [let '(_, _) := judge ?a ?b ?c ?d ?e ?f ?g in _] => destruct (judge a b c d e f g) as [? ?] eqn:?
  | |- context [let '(_, _) := judge_persisted ?a ?b ?c ?d ?e in _] => destruct (judge_persisted a b c d e) as [? ?] eqn:?
  end; cbn.

(** *** The loader *)

Definition pending (b rest : list (pystr * V)) (n : nat) : Prop := b ≠ [] ∧ b ++ rest = drop n docs ∧ (length b = batch_size ∨ rest = []).
Definition linv s : Prop :=
  start ≤ write_offset s ≤ fin ∧ (wr s = length docs ∨ (batch_size | wr s)%nat) ∧
  match lpc s with
  | LNext => todo s = drop (wr s) docs
  | LTaken b | LNoted b => pending b (todo s) (wr s)
  | LDone b f => pending b (todo s) (wr s) ∧ ∀ k, is_Some (f !! k) → k ∈ b.*1
  | LEnded => write_offset s = fin
  | LRaised => write_offset s < fin
  end.
Lemma pending_room b rest o : pending b rest (at_ o) → start ≤ o → o + len b ≤ fin ∧ 0 < len b.
Proof.
  intros (Hb & E & _) Ho. apply (f_equal length) in E. rewrite length_app, length_drop in E. unfold at_, end_offset, len in *.
  destruct b; [done|]. cbn [length] in *. lia.
Qed.
Lemma linv_step s ev s' : linv s → step s ev s' → linv s'.
Proof.
  intros (Hw & Hd & Hl) Hs. destruct Hs as [o E Ht Ho|b f E Hf|b f E|b E|E Ht|E| | | | | | | | | | |]; unfold linv; open_next; try (split; [exact Hw|split; [exact Hd|exact Hl]]).
  - split; [done|]. split; [done|]. rewrite E in Hl. cbn. unfold pending. rewrite <- Hl. split_and!.
    + intros Hn. apply Ht. rewrite <- (take_drop batch_size (todo s)), Hn. destruct (todo s); [done|]. destruct batch_size; [lia|done].
    + apply take_drop.
    + rewrite length_take. destruct (decide (batch_size ≤ length (todo s))%nat); [left; lia|right]. apply drop_ge. lia.
  - rewrite E in Hl. split; [done|]. split; [done|]. done.
  - rewrite E in Hl. destruct Hl. split; [done|]. split; [done|]. done.
  - rewrite E in Hl. destruct (pending_room _ _ _ Hl) as [H1 H2]; [lia|]. destruct Hl as (Hb & Hd' & Hlen).
    assert (at_ (write_offset s + len b) = wr s + length b)%nat as E' by (unfold at_, len in *; lia). cbn. rewrite E'.
    assert (todo s = drop (wr s + length b) docs) as Htodo by (rewrite <- drop_drop, <- Hd'; by rewrite drop_app_length).
    split; [lia|]. split; [|done]. destruct Hlen as [Hlen|Hlen].
    + destruct Hd as [Hd|Hd]; [|right; rewrite Hlen; by apply Nat.divide_add_r; [|apply Nat.divide_refl]].
      apply (f_equal length) in Hd'. rewrite length_app, length_drop in Hd'. left. lia.
    + left. apply (f_equal length) in Hd'. rewrite Hlen, app_nil_r, length_drop in Hd'. destruct b; [done|]. cbn [length] in *. lia.
  - rewrite E, Ht in Hl. split; [done|]. split; [done|]. symmetry in Hl. apply (f_equal length) in Hl. rewrite length_drop in Hl. cbn in Hl. unfold at_, end_offset, len in *. lia.
  - split; [done|]. split; [done|]. destruct E as [[E Ht]|[b E]]; rewrite E in Hl.
    + destruct (decide (write_offset s = fin)) as [Hf|]; [|lia]. exfalso. apply Ht. rewrite Hl. apply drop_ge. unfold at_, end_offset, len in *. lia.
    + destruct (pending_room _ _ _ Hl); lia.
Qed.

(** *** The reader *)

Abbreviation rd s := (at_ (read_offset s)).
Definition reads (evs : list (@event V)) : list (pystr * V) := omap (λ e, if e is Read d _ then Some d else None) evs.
Definition rinv (evs : list event) s : Prop :=
  start ≤ read_offset s ≤ write_offset s ∧
  match rpc s with
  | RWait => to_read s = drop (rd s) docs ∧ reads evs = take (rd s) docs
  | RFetch d | RJudge d _ => docs !! rd s = Some d ∧ to_read s = drop (S (rd s)) docs ∧ reads evs = take (rd s) docs ∧ read_offset s < write_offset s
  | RNext => to_read s = drop (S (rd s)) docs ∧ reads evs = take (S (rd s)) docs ∧ (read_offset s < write_offset s ∨ read_offset s = fin)
  | REnded => read_offset s = fin ∧ reads evs = docs
  | RDead => ∃ n, (n ≤ wr s)%nat ∧ reads evs = take n docs
  end.
Lemma drop_cons n d l : drop n docs = d :: l → docs !! n = Some d ∧ l = drop (S n) docs.
Proof.
  intros E. assert (docs !! n = Some d) as Hn by (rewrite <- (Nat.add_0_r n), <- lookup_drop, E; done). split; [done|].
  rewrite (drop_S _ _ _ Hn) in E. by injection E.
Qed.
Lemma reads_app e1 e2 : reads (e1 ++ e2) = reads e1 ++ reads e2.
Proof. apply omap_app. Qed.
Lemma rinv_write evs s s' : rinv evs s → rpc s' = rpc s → to_read s' = to_read s → read_offset s' = read_offset s → write_offset s ≤ write_offset s' → rinv evs s'.
Proof.
  intros [Hr Hm] E1 E2 E3 Hw. unfold rinv. rewrite E1, E2, E3. split; [lia|]. destruct (rpc s); try done.
  - destruct Hm as (? & ? & ? & ?). split_and!; try done. lia.
  - destruct Hm as (? & ? & ? & ?). split_and!; try done. lia.
  - destruct Hm as (? & ? & [?|?]); (split_and!; [done|done|]); [left; lia|by right].
  - destruct Hm as (n & Hn & ?). exists n. split; [|done]. unfold at_ in *. lia.
Qed.
Lemma rinv_step evs s ev s' : linv s → rinv evs s → step s ev s' → rinv (evs ++ ev) s'.
Proof.
  intros Hlin Hri Hs. pose proof Hlin as (Hw & _ & _). pose proof Hri as [Hr Hm].
  destruct Hs as [o E Ht Ho|b f E Hf|b f E|b E|E Ht|E|d l E Hc Hl|E Hc Hl|d result E|d E|d result E|E|d l E Hc Hl|E Hc Hl|d answers E Hop|d E|E]; rewrite ?app_nil_r.
  1,3,5-6: by apply (rinv_write _ s).
  1: { assert (reads (evs ++ [Reported f]) = reads evs) as Hev by (rewrite reads_app; apply app_nil_r). apply (rinv_write _ s); try done. unfold rinv. by rewrite Hev. }
  1: { apply (rinv_write _ s); try done. cbn. unfold len. lia. }
  - split; [done|]. cbn. rewrite E in Hm. destruct Hm as [Hd Hev]. rewrite Hl in Hd. symmetry in Hd. apply drop_cons in Hd as [H1 ->]. split_and!; try done.
    destruct Hc as [?|Hc]; [done|]. apply lookup_lt_Some in H1. rewrite Hc in H1. unfold at_, end_offset, len in *. lia.
  - split; [done|]. cbn. rewrite E in Hm. destruct Hm as [Hd Hev]. rewrite Hl in Hd. symmetry in Hd. apply (f_equal length) in Hd. rewrite length_drop in Hd. cbn in Hd.
    split_and!; [symmetry; apply drop_ge; lia|rewrite Hev, !take_ge by lia; done|done].
  - split; [done|]. cbn. by rewrite E in Hm.
  - split; [done|]. cbn. rewrite E in Hm. destruct Hm as (_ & _ & Hev & Hlt). exists (rd s). split; [|done]. unfold at_. lia.
  - rewrite E in Hm. destruct Hm as (Hd & Ht & Hev & Hlt). open_next. split; [done|]. cbn. assert (reads (evs ++ [Read d result]) = take (S (rd s)) docs) as Hev'.
    { rewrite reads_app, Hev. cbn. by rewrite (take_S_r _ _ d). }
    destruct o; [exists (S (rd s)); split; [unfold at_ in *; lia|done]|]. split_and!; [done|done|by left].
  - rewrite E in Hm. destruct Hm as (Ht & Hev & Hc). open_next.
    + split; [done|]. cbn. split; [done|]. rewrite Hev. apply take_ge. unfold at_, end_offset, len in *. lia.
    + destruct Hc as [Hc|?]; [|done]. split; [cbn; lia|]. cbn. assert (at_ (read_offset s + 1) = S (rd s)) as -> by (unfold at_; lia). done.
  - by apply (rinv_write _ s).
  - by apply (rinv_write _ s).
  - open_next. assert (reads (evs ++ [Checked d answers]) = reads evs) as Hev by (rewrite reads_app; apply app_nil_r).
    unfold rinv. cbn. by rewrite Hev.
  - by apply (rinv_write _ s).
  - open_next; by apply (rinv_write _ s).
Qed.
Lemma reads_written evs s : linv s → rinv evs s → ∃ n, (n ≤ wr s)%nat ∧ reads evs = take n docs.
Proof.
  intros (Hw & _ & _) [Hr Hm]. destruct (rpc s).
  - exists (rd s). destruct Hm as [_ ?]. split; [|done]. unfold at_. lia.
  - exists (rd s). destruct Hm as (_ & _ & ? & _). split; [|done]. unfold at_. lia.
  - exists (rd s). destruct Hm as (_ & _ & ? & _). split; [|done]. unfold at_. lia.
  - destruct Hm as (_ & Hev & [?|Hf]); [exists (S (rd s)); split; [unfold at_; lia|done]|]. exists (rd s). split; [unfold at_; lia|].
    rewrite Hev, !take_ge; [done|..]; unfold at_, end_offset, len in *; lia.
  - destruct Hm as [Hf Hev]. exists (rd s). split; [unfold at_; lia|]. rewrite take_ge; [done|]. unfold at_, end_offset, len in *; lia.
  - done.
Qed.

(** *** The check of persistence *)

Definition checks (evs : list (@event V)) : list (pystr * V) := omap (λ e, if e is Checked d _ then Some d else None) evs.
Lemma checks_app e1 e2 : checks (e1 ++ e2) = checks e1 ++ checks e2.
Proof. apply omap_app. Qed.
(** The documents of which the check has asked, among those written, and how many: one for each time that the offset has moved *)
Abbreviation pr s := (at_ (persistence_offset s)).
(** The number of batches that hold so many documents *)
Definition batches (n : nat) : nat := ((n + batch_size - 1) / batch_size)%nat.
Definition moving s : Prop := persistence_offset s < write_offset s ∨ persistence_offset s = fin.
Definition pinv (evs : list event) s : Prop :=
  start ≤ persistence_offset s ≤ write_offset s ∧ (pr s = length docs ∨ (batch_size | pr s)%nat) ∧
  match ppc s with
  | PWait => ∃ c, (c ≤ pr s)%nat ∧ to_check s = drop c docs ∧ checks evs = take c docs ∧ (length (checks evs) ≤ batches (pr s))%nat
  | PStat d => ∃ c, (c < wr s)%nat ∧ docs !! c = Some d ∧ to_check s = drop (S c) docs ∧ checks evs = take c docs ∧ (length (checks evs) ≤ batches (pr s))%nat ∧ moving s
  | PNext => ∃ c, (c ≤ wr s)%nat ∧ to_check s = drop c docs ∧ checks evs = take c docs ∧ (length (checks evs) ≤ S (batches (pr s)))%nat ∧ moving s
  | PEnded | PDead => ∃ c, (c ≤ wr s)%nat ∧ checks evs = take c docs ∧ (length (checks evs) ≤ S (batches (length docs)))%nat
  end.
Lemma batches_le a b : (a ≤ b)%nat → (batches a ≤ batches b)%nat.
Proof. intros. unfold batches. apply Nat.Div0.div_le_mono. lia. Qed.
Lemma batches_lt a b : (batch_size | a)%nat → (a < b)%nat → (S (batches a) ≤ batches b)%nat.
Proof.
  intros [k ->] Hlt. unfold batches. replace (k * batch_size + batch_size - 1)%nat with (batch_size - 1 + k * batch_size)%nat by lia.
  rewrite Nat.div_add, Nat.div_small by lia. apply Nat.div_le_lower_bound; lia.
Qed.
Lemma pinv_write evs s s' : pinv evs s → ppc s' = ppc s → to_check s' = to_check s → persistence_offset s' = persistence_offset s → write_offset s ≤ write_offset s' → pinv evs s'.
Proof.
  intros (Hp & Hd & Hm) E1 E2 E3 Hw. unfold pinv, moving in *. rewrite E1, E2, E3. split; [lia|]. split; [done|].
  assert (wr s ≤ wr s')%nat by (unfold at_; lia).
  destruct (ppc s); destruct Hm as (c & Hc & Hm); exists c; (split; [lia|]); try done.
  - destruct Hm as (? & ? & ? & ? & Hm). split_and!; try done. destruct Hm; [left; lia|by right].
  - destruct Hm as (? & ? & ? & Hm). split_and!; try done. destruct Hm; [left; lia|by right].
Qed.
Lemma pinv_step evs s ev s' : linv s → pinv evs s → step s ev s' → pinv (evs ++ ev) s'.
Proof.
  intros Hlin Hpi Hs. pose proof Hlin as (Hw & Hdw & _). pose proof Hpi as (Hp & Hd & Hm).
  assert (pr s ≤ length docs)%nat as Hpl by (unfold at_, end_offset, len in *; lia).
  destruct Hs as [o E Ht Ho|b f E Hf|b f E|b E|E Ht|E|d l E Hc Hl|E Hc Hl|d result E|d E|d result E|E|d l E Hc Hl|E Hc Hl|d answers E Hop|d E|E]; rewrite ?app_nil_r.
  1,3,5-10: by apply (pinv_write _ s).
  1: { assert (checks (evs ++ [Reported f]) = checks evs) as Hev by (rewrite checks_app; apply app_nil_r). apply (pinv_write _ s); try done. unfold pinv. by rewrite Hev. }
  1: { apply (pinv_write _ s); try done. cbn. unfold len. lia. }
  - open_next. assert (checks (evs ++ [Read d result]) = checks evs) as Hev by (rewrite checks_app; apply app_nil_r).
    apply (pinv_write _ s); try done. unfold pinv. by rewrite Hev.
  - open_next; by apply (pinv_write _ s).
  - rewrite E in Hm. destruct Hm as (c & Hc' & Hd' & Hev & Hn). split; [done|]. split; [done|]. cbn. exists c. rewrite Hl in Hd'. symmetry in Hd'. apply drop_cons in Hd' as [H1 ->].
    split; [|by split_and!]. destruct Hc as [?|Hf]; [unfold at_ in *; lia|]. apply lookup_lt_Some in H1. unfold at_, end_offset, len in *. lia.
  - rewrite E in Hm. destruct Hm as (c & Hc' & Hd' & Hev & Hn). split; [done|]. split; [done|]. cbn. exists c. rewrite <- Hd', Hl. split; [unfold at_ in *; lia|].
    split_and!; try done. lia.
  - rewrite E in Hm. destruct Hm as (c & Hc' & Hl' & Hd' & Hev & Hn & Hmv). open_next. split; [done|]. split; [done|]. cbn.
    assert (checks (evs ++ [Checked d answers]) = take (S c) docs) as Hev' by (rewrite checks_app, Hev; cbn; by rewrite (take_S_r _ _ d)).
    exists (S c). rewrite Hev'. split_and!; try done. rewrite Hev, length_take in Hn. rewrite length_take. lia.
  - rewrite E in Hm. destruct Hm as (c & Hc' & Hl' & Hd' & Hev & Hn & Hmv). split; [done|]. split; [done|]. cbn. exists c. split_and!; [lia|done|].
    pose proof (batches_le _ _ Hpl). lia.
  - rewrite E in Hm. destruct Hm as (c & Hc' & Hd' & Hev & Hn & Hmv). open_next.
    + split; [done|]. split; [done|]. cbn. exists c. split_and!; [done|done|]. pose proof (batches_le _ _ Hpl). lia.
    + destruct Hmv as [Hmv|?]; [|done]. split; [cbn; lia|]. split; [exact Hdw|]. cbn. exists c. split_and!; try done.
      destruct Hd as [Hd|Hd]; [unfold at_, end_offset, len in *; lia|]. assert (pr s < wr s)%nat as Hlt by (unfold at_; lia). pose proof (batches_lt _ _ Hd Hlt). lia.
Qed.
Lemma checks_written evs s : linv s → pinv evs s → ∃ c, (c ≤ wr s)%nat ∧ checks evs = take c docs ∧ (length (checks evs) ≤ S (batches (length docs)))%nat.
Proof.
  intros (Hw & _ & _) (Hp & _ & Hm). assert (batches (pr s) ≤ batches (length docs))%nat as Hle by (apply batches_le; unfold at_, end_offset, len in *; lia).
  destruct (ppc s); destruct Hm as (c & Hc & Hm); exists c.
  - destruct Hm as (_ & Hev & Hn). split_and!; [unfold at_ in *; lia|done|lia].
  - destruct Hm as (_ & _ & Hev & Hn & _). split_and!; [lia|done|lia].
  - destruct Hm as (_ & Hev & Hn & _). split_and!; [lia|done|lia].
  - destruct Hm as (Hev & Hn). by split_and!.
  - destruct Hm as (Hev & Hn). by split_and!.
Qed.

(** *** What is noted on created documents *)

(** What follows from what was read, checked, and reported by the SDK: reported as written but on no replica; reported as failed, without
    ambiguity, but on a replica, or on the disk of a node; reported as written but on no disk *)
Definition lost (evs : list event) (F : gmap pystr pystr) (k : pystr) : Prop := ∃ d : pystr * V, Read d [] ∈ evs ∧ d.1 = k ∧ F !! k = None.
Definition kept (evs : list event) (F : gmap pystr pystr) (k : pystr) : Prop :=
  ∃ (d : pystr * V) x l e, Read d (x :: l) ∈ evs ∧ d.1 = k ∧ F !! k = Some e ∧ ambiguous e = false.
Definition kept_on_disk (evs : list event) (F : gmap pystr pystr) (k : pystr) : Prop :=
  ∃ (d : pystr * V) answers e, Checked d answers ∈ evs ∧ d.1 = k ∧ F !! k = Some e ∧ clean_count answers ≠ O.
Definition not_on_disk (evs : list event) (F : gmap pystr pystr) (k : pystr) : Prop :=
  ∃ (d : pystr * V) answers, Checked d answers ∈ evs ∧ d.1 = k ∧ F !! k = None ∧ clean_count answers = O.
(** The tables hold exactly that, for what the SDK has reported by now. *)
Definition tinv (evs : list event) s : Prop := ∀ k,
  (is_Some (sdk_acked_crud_failed (results s) !! k) ↔ lost evs (failed s) k) ∧
  (is_Some (sdk_exception_crud_succeed (results s) !! k) ↔ kept evs (failed s) k ∨ kept_on_disk evs (failed s) k) ∧
  (is_Some (sdk_acked_pers_failed s !! k) ↔ not_on_disk evs (failed s) k).
(** The key of an event *)
Definition seen (evs : list (@event V)) (k : pystr) : Prop := k ∈ (reads evs ++ checks evs).*1.
Lemma read_seen evs d result : Read d result ∈ evs → seen evs d.1.
Proof. intros H. apply list_elem_of_fmap. exists d. split; [done|]. apply elem_of_app. left. apply list_elem_of_omap. by exists (Read d result). Qed.
Lemma check_seen evs d answers : Checked d answers ∈ evs → seen evs d.1.
Proof. intros H. apply list_elem_of_fmap. exists d. split; [done|]. apply elem_of_app. right. apply list_elem_of_omap. by exists (Checked d answers). Qed.
Lemma tinv_agree evs s s' : tinv evs s → results s' = results s → sdk_acked_pers_failed s' = sdk_acked_pers_failed s →
  (∀ k, seen evs k → failed s' !! k = failed s !! k) → tinv evs s'.
Proof.
  intros Ht E1 E2 Hf k. rewrite E1, E2. destruct (Ht k) as (-> & -> & ->).
  destruct (decide (k ∈ (reads evs ++ checks evs).*1)) as [Hk|Hk].
  - apply Hf in Hk. unfold lost, kept, kept_on_disk, not_on_disk. by rewrite Hk.
  - assert (∀ F, ¬ lost evs F k ∧ ¬ kept evs F k ∧ ¬ kept_on_disk evs F k ∧ ¬ not_on_disk evs F k) as Hno.
    { intros F. split_and!; [intros (d & Hin & <- & _)|intros (d & x & l & e & Hin & <- & _)|intros (d & a & e & Hin & <- & _)|intros (d & a & Hin & <- & _)];
        apply Hk; first [by eapply read_seen|by eapply check_seen]. }
    destruct (Hno (failed s)) as (? & ? & ? & ?), (Hno (failed s')) as (? & ? & ? & ?). tauto.
Qed.
Lemma seen_written evs s k : linv s → rinv evs s → pinv evs s → seen evs k → k ∈ (take (wr s) docs).*1.
Proof.
  intros Hl Hr Hp (d & -> & [Hd|Hd]%elem_of_app)%list_elem_of_fmap; apply list_elem_of_fmap_2.
  - destruct (reads_written _ _ Hl Hr) as (n & Hn & E). rewrite E in Hd.  replace (take n docs) with (take n (take (wr s) docs)) in Hd by (rewrite take_take; f_equal; lia). by apply elem_of_take in Hd as (i & Hi%list_elem_of_lookup_2 & _).
  - destruct (checks_written _ _ Hl Hp) as (n & Hn & E & _). rewrite E in Hd.
    replace (take n docs) with (take n (take (wr s) docs)) in Hd by (rewrite take_take; f_equal; lia). by apply elem_of_take in Hd as (i & Hi%list_elem_of_lookup_2 & _).
Qed.
(** What an event adds to the tables *)
Lemma in_snoc (e ev : @event V) evs : e ∈ evs ++ [ev] ↔ e ∈ evs ∨ e = ev.
Proof. by rewrite elem_of_app, list_elem_of_singleton. Qed.
Lemma lost_snoc evs ev F k : lost (evs ++ [ev]) F k ↔ lost evs F k ∨ (if ev is Read d [] then d.1 = k ∧ F !! k = None else False).
Proof.
  unfold lost. setoid_rewrite in_snoc. split.
  - intros (d & [Hin| <-] & HP); [left; by exists d|by right].
  - intros [(d & Hin & HP)|HP]; [exists d; by auto|]. destruct ev as [f|d [|]|]; try done. exists d. by auto.
Qed.
Lemma kept_snoc evs ev F k : kept (evs ++ [ev]) F k ↔
  kept evs F k ∨ (if ev is Read d (_ :: _) then d.1 = k ∧ ∃ e, F !! k = Some e ∧ ambiguous e = false else False).
Proof.
  unfold kept. setoid_rewrite in_snoc. split.
  - intros (d & x & l & e & [Hin| <-] & HP & HQ); [left; by exists d, x, l, e|right; eauto].
  - intros [(d & x & l & e & Hin & HP)|HP]; [exists d, x, l, e; by auto|]. destruct ev as [f|d [|x l]|]; try done. destruct HP as [Hk [e HP]]. exists d, x, l, e. by auto.
Qed.
Lemma kept_on_disk_snoc evs ev F k : kept_on_disk (evs ++ [ev]) F k ↔
  kept_on_disk evs F k ∨ (if ev is Checked d a then d.1 = k ∧ is_Some (F !! k) ∧ clean_count a ≠ O else False).
Proof.
  unfold kept_on_disk. setoid_rewrite in_snoc. split.
  - intros (d & a & e & [Hin| <-] & HP & He & HQ); [left; by exists d, a, e|right; rewrite He; eauto].
  - intros [(d & a & e & Hin & HP)|HP]; [exists d, a, e; by auto|]. destruct ev as [| |d a]; try done. destruct HP as (Hk & [e He] & HP). exists d, a, e. by auto.
Qed.
Lemma not_on_disk_snoc evs ev F k : not_on_disk (evs ++ [ev]) F k ↔
  not_on_disk evs F k ∨ (if ev is Checked d a then d.1 = k ∧ F !! k = None ∧ clean_count a = O else False).
Proof.
  unfold not_on_disk. setoid_rewrite in_snoc. split.
  - intros (d & a & [Hin| <-] & HP); [left; by exists d, a|by right].
  - intros [(d & a & Hin & HP)|HP]; [exists d, a; by auto|]. destruct ev as [| |d a]; try done. exists d, a. by auto.
Qed.
Ltac solve_tables :=
  match goal with
  | Ef : failed ?s !! ?x.1 = _ |- context [lost ?evs (failed ?s) ?k] =>
      generalize (lost evs (failed s) k) (kept evs (failed s) k) (kept_on_disk evs (failed s) k) (not_on_disk evs (failed s) k);
      intros; destruct (decide (x.1 = k)) as [<-|]; rewrite ?Ef, ?is_Some_alt; naive_solver congruence
  end.
Lemma tinv_step evs s ev s' : op = Create → linv s → rinv evs s → pinv evs s → tinv evs s → step s ev s' → tinv (evs ++ ev) s'.
Proof.
  intros Hop Hl Hr Hp Ht Hs.
  destruct Hs as [o E Hto Ho|b f E Hf|b f E|b E|E Hto|E|d l E Hc Hto|E Hc Hto|d result E|d E|d result E|E|d l E Hc Hto|E Hc Hto|d answers E _|d E|E]; rewrite ?app_nil_r.
  all: try (open_next; by apply (tinv_agree _ s)).
  - intros k. cbn. rewrite lost_snoc, kept_snoc, kept_on_disk_snoc, not_on_disk_snoc. destruct (Ht k) as (-> & -> & ->). tauto.
  - apply (tinv_agree _ s); try done. intros k Hk. cbn. apply lookup_union_r. apply eq_None_not_Some. intros Hsome.
    apply (seen_written _ _ _ Hl Hr Hp) in Hk. destruct Hl as (_ & _ & Hl). rewrite E in Hl. destruct Hl as [(_ & Hb & _) Hdom]. apply Hdom in Hsome.
    pose proof Hnd as Hnd'. rewrite <- (take_drop (wr s) docs), <- Hb, !fmap_app in Hnd'. apply NoDup_app in Hnd' as (_ & Hdis & _). apply (Hdis k); [done|]. apply elem_of_app. by left.
  - unfold judge. rewrite Hop. intros k. destruct (Ht k) as (H1 & H2 & H3). destruct (failed s !! d.1) as [e|] eqn:Ef.
    + destruct result as [|x l]; [rewrite bool_decide_eq_true_2 by done|rewrite bool_decide_eq_false_2 by done; destruct (ambiguous e) eqn:Ha]; cbn;
        rewrite ?lookup_insert_is_Some', ?H1, ?H2, ?H3, ?lost_snoc, ?kept_snoc, ?kept_on_disk_snoc, ?not_on_disk_snoc; clear H1 H2 H3 Ht Hl Hr Hp Hop E; solve_tables.
    + destruct result as [|x l]; [rewrite bool_decide_eq_true_2 by done|rewrite bool_decide_eq_false_2 by done]; cbn;
        rewrite ?lookup_insert_is_Some', ?H1, ?H2, ?H3, ?lost_snoc, ?kept_snoc, ?kept_on_disk_snoc, ?not_on_disk_snoc; clear H1 H2 H3 Ht Hl Hr Hp Hop E; solve_tables.
  - intros k. destruct (Ht k) as (H1 & H2 & H3). unfold judge_persisted. destruct (failed s !! d.1) as [e|] eqn:Ef; destruct (clean_count answers) as [|n] eqn:Ec; cbn;
      rewrite ?lookup_insert_is_Some', ?H1, ?H2, ?H3, ?lost_snoc, ?kept_snoc, ?kept_on_disk_snoc, ?not_on_disk_snoc, ?Ec; clear H1 H2 H3 Ht Hl Hr Hp Hop E; solve_tables.
Qed.

(** *** Reports *)

(** All failures that the SDK has reported; the last report may not have been noted yet. *)
Definition reported (evs : list (@event V)) : gmap pystr pystr := foldl (λ m e, if e is Reported f then f ∪ m else m) ∅ evs.
Definition finv (evs : list event) s : Prop := reported evs = match lpc s with LDone _ f => f ∪ failed s | _ => failed s end.
Lemma reported_snoc evs ev : reported (evs ++ [ev]) = if ev is Reported f then f ∪ reported evs else reported evs.
Proof. unfold reported. by rewrite foldl_app. Qed.
Lemma finv_step evs s ev s' : finv evs s → step s ev s' → finv (evs ++ ev) s'.
Proof.
  unfold finv. intros Hf Hs.
  destruct Hs as [o E Hto Ho|b f E Hd|b f E|b E|E Hto|E|d l E Hc Hto|E Hc Hto|d result E|d E|d result E|E|d l E Hc Hto|E Hc Hto|d answers E _|d E|E]; rewrite ?app_nil_r, ?reported_snoc; open_next; try done.
  all: try (by rewrite E in Hf). { rewrite E in Hf. by rewrite Hf. } destruct E as [[E _]|[b E]]; by rewrite E in Hf.
Qed.
Lemma reported_seen evs s k : linv s → rinv evs s → pinv evs s → finv evs s → seen evs k → reported evs !! k = failed s !! k.
Proof.
  intros Hl Hr Hp Hf Hk. apply (seen_written _ _ _ Hl Hr Hp) in Hk. unfold finv in Hf. destruct Hl as (_ & _ & Hl). destruct (lpc s) as [|b|b f|b| |]; try by rewrite Hf.
  rewrite Hf. apply lookup_union_r, eq_None_not_Some. intros Hsome. destruct Hl as [(_ & Hb & _) Hdom]. apply Hdom in Hsome.
  pose proof Hnd as Hnd'. rewrite <- (take_drop (wr s) docs), <- Hb, !fmap_app in Hnd'. apply NoDup_app in Hnd' as (_ & Hdis & _). apply (Hdis k); [done|]. apply elem_of_app. by left.
Qed.

(** *** Runs *)

Lemma runs_inv check n evs s : druns op replicaNumber start batch_size docs check n evs s →
  linv s ∧ rinv evs s ∧ pinv evs s ∧ finv evs s ∧ (op = Create → tinv evs s).
Proof.
  induction 1 as [|n evs s ev s' _ (Hl & Hr & Hp & Hf & Ht) Hs].
  - assert (at_ start = O) as E by (unfold at_; lia). unfold linv, rinv, pinv, tinv, end_offset, len. cbn. rewrite E. split_and!; try done; try lia.
    + right. by exists O.
    + right. by exists O.
    + destruct check; exists O; cbn; split_and!; try done; lia.
    + intros _ k. rewrite !lookup_empty. unfold lost, kept, kept_on_disk, not_on_disk. setoid_rewrite elem_of_nil. rewrite !is_Some_alt. clear. naive_solver.
  - split_and!; [by eapply linv_step|by eapply rinv_step|by eapply pinv_step|by eapply finv_step|]. intros Hop. eapply tinv_step; eauto.
Qed.

(** What is left to do *)
Definition measure s : Z :=
  5 * len (todo s) + (match lpc s with LNext => 1 | LTaken _ => 4 | LDone _ _ => 3 | LNoted _ => 2 | LEnded | LRaised => 0 end) +
  4 * (fin - read_offset s) + (match rpc s with RWait => 4 | RFetch _ => 3 | RJudge _ _ => 2 | RNext => 1 | REnded | RDead => 0 end) +
  3 * (fin - persistence_offset s) + (match ppc s with PWait => 3 | PStat _ => 2 | PNext => 1 | PEnded | PDead => 0 end).
Lemma left_nonneg evs s : linv s → rinv evs s → pinv evs s → 0 ≤ measure s.
Proof.
  intros ((? & ?) & _ & _) [? _] (? & _ & _). unfold measure, len. destruct (lpc s), (rpc s), (ppc s); lia.
Qed.
Lemma left_step evs s ev s' : linv s → rinv evs s → pinv evs s → step s ev s' → measure s' < measure s.
Proof.
  intros Hl [Hr Hrm] (Hp & _ & Hpm) Hs. unfold measure.
  destruct Hs as [o E Hto Ho|b f E Hf|b f E|b E|E Hto|E|d l E Hc Hto|E Hc Hto|d result E|d E|d result E|E|d l E Hc Hto|E Hc Hto|d answers E _|d E|E]; open_next; rewrite ?E; try lia.
  - unfold len. rewrite length_drop. destruct (todo s); [done|]. cbn [length]. lia.
  - destruct E as [[-> Hto]|[b ->]]; lia.
  - destruct o; lia.
  - rewrite E in Hpm. destruct Hpm as (c & _ & _ & _ & _ & [?|?]); [lia|done].
Qed.
Lemma runs_bounded check n evs s : druns op replicaNumber start batch_size docs check n evs s → Z.of_nat n + measure s ≤ 12 * len docs + 8.
Proof.
  induction 1 as [|n evs s ev s' Hrun IH Hs].
  - unfold measure, end_offset. cbn. destruct check; lia.
  - destruct (runs_inv _ _ _ _ Hrun) as (Hl & Hr & Hp & _ & _). pose proof (left_step _ _ _ _ Hl Hr Hp Hs). lia.
Qed.
(** The reader and the loader move until they end or wait for each other. *)
Lemma final_state evs s : linv s → rinv evs s → (¬ ∃ ev s', step s ev s') →
  (lpc s = LEnded ∧ (rpc s = REnded ∨ rpc s = RDead)) ∨ (lpc s = LRaised ∧ (rpc s = RWait ∨ rpc s = RDead)).
Proof.
  intros (Hw & _ & Hl) [Hr Hrm] Hno.
  assert (lpc s = LEnded ∨ lpc s = LRaised) as HL.
  { destruct (lpc s) as [|b|b f|b| |] eqn:E; [destruct (decide (todo s = [])) as [Ht|Ht]| | | |by left|by right]; exfalso; apply Hno; eexists _, _.
    - by apply l_end.
    - apply l_raise. by left.
    - apply l_raise. right. by exists b.
    - by eapply l_note.
    - by eapply l_advance. }
  destruct (rpc s) as [|d|d result| | |] eqn:E.
  - destruct HL as [HL|HL]; [|right; by auto]. exfalso. rewrite HL in Hl. apply Hno. assert (read_offset s < write_offset s ∨ read_offset s = fin) as Hc by lia.
    destruct (to_read s) as [|d l] eqn:Ht; eexists _, _; [by apply r_none|by eapply r_doc].
  - exfalso. apply Hno. eexists _, _. by apply (r_fetch_raise _ _ _ _ _ _ d).
  - exfalso. apply Hno. eexists _, _. by apply (r_judge _ _ _ _ _ _ d result).
  - exfalso. apply Hno. eexists _, _. by apply r_next.
  - destruct HL as [HL|HL]; [left; by auto|]. rewrite HL in Hl. destruct Hrm. lia.
  - destruct HL; [left|right]; by auto.
Qed.
End Proofs.

(** C11: For created documents the reader and the check of persistence, running beside the loader, are not deceived by it: at any moment the documents read are the
    first ones, each once, and the tables hold exactly what follows from the replicas and nodes seen and from all that the SDK has reported by then.
    The failures of a batch are noted before the offset moves, so a document is judged only after its own failure is known. *)
Theorem durable_judged {V : Type} {HV : EqDecision V} (replicaNumber start : Z) (batch_size : nat) (docs : list (pystr * V)) (check : bool) (n : nat) (evs : list event) (s : dstate) :
  (0 < batch_size)%nat → NoDup docs.*1 → druns Create replicaNumber start batch_size docs check n evs s →
  (∃ m, reads evs = take m docs) ∧ (∃ m, checks evs = take m docs) ∧
  ∀ k, (is_Some (sdk_acked_crud_failed (results s) !! k) ↔ lost evs (reported evs) k) ∧
       (is_Some (sdk_exception_crud_succeed (results s) !! k) ↔ kept evs (reported evs) k ∨ kept_on_disk evs (reported evs) k) ∧
       (is_Some (sdk_acked_pers_failed s !! k) ↔ not_on_disk evs (reported evs) k).
Proof.
  intros Hb Hnd Hrun. destruct (runs_inv _ _ _ _ _ Hb Hnd _ _ _ _ Hrun) as (Hl & Hr & Hp & Hf & Ht).
  destruct (reads_written _ _ _ Hb _ _ Hl Hr) as (m & _ & Hm). destruct (checks_written _ _ _ Hb _ _ Hl Hp) as (m' & _ & Hm' & _).
  split_and!; [by exists m|by exists m'|]. specialize (Ht eq_refl).
  pose (s' := DState (lpc s) (todo s) (write_offset s) (reported evs) (old s) (rpc s) (to_read s) (read_offset s) (results s) (ppc s) (to_check s) (persistence_offset s) (sdk_acked_pers_failed s)).
  apply (tinv_agree evs s s' Ht eq_refl eq_refl). intros k Hk. by eapply reported_seen.
Qed.


(** C34: [Persistence] asks for one document each time the offset of the loader has moved, not for every document: with batches of [batch_size] it
    looks at no more documents than there are batches, and one. *)
Theorem persistence_samples {V : Type} {HV : EqDecision V} (op : op_type) (replicaNumber start : Z) (batch_size : nat) (docs : list (pystr * V)) (check : bool) (n : nat) (evs : list event) (s : dstate) :
  (0 < batch_size)%nat → NoDup docs.*1 → druns op replicaNumber start batch_size docs check n evs s →
  (length (checks evs) ≤ 1 + (length docs + batch_size - 1) / batch_size)%nat.
Proof.
  intros Hb Hnd Hrun. destruct (runs_inv _ _ _ _ _ Hb Hnd _ _ _ _ Hrun) as (Hl & _ & Hp & _).
  by destruct (checks_written _ _ _ Hb _ _ Hl Hp) as (m' & _ & _ & Hm').
Qed.

(** ** Examples *)

Definition demo_doc : pystr * Z := (py "k", 1).
Definition demo_events : list (@event Z) := [Reported ∅; Read demo_doc []; Checked demo_doc [Some true]].
(** The SDK reports the document as written, and no replica has it. *)
Lemma demo_run : ∃ s, druns Create 1 0 10 [demo_doc] true 10 demo_events s.
Proof.
  pose proof (druns_start Create 1 0 10 [demo_doc] true) as R.
  eapply druns_step in R; [|by apply (l_take _ _ _ _ _ _ ∅)].
  eapply druns_step in R; [|apply (l_write _ _ _ _ _ _ [demo_doc] ∅); [reflexivity|intros k [? Hk]; rewrite lookup_empty in Hk; done]].
  eapply druns_step in R; [|eapply l_note; reflexivity].
  eapply druns_step in R; [|eapply l_advance; reflexivity].
  eapply druns_step in R; [|eapply r_doc; [reflexivity|left; reflexivity|reflexivity]].
  eapply druns_step in R; [|apply (r_fetch _ _ _ _ _ _ demo_doc []); reflexivity].
  eapply druns_step in R; [|eapply r_judge; reflexivity].
  eapply druns_step in R; [|eapply r_next; reflexivity].
  eapply druns_step in R; [|eapply p_doc; [reflexivity|left; reflexivity|reflexivity]].
  eapply druns_step in R; [|apply (p_judge _ _ _ _ _ _ demo_doc [Some true]); reflexivity].
  eexists. exact R.
Qed.
Lemma demo_batch : (0 < 10)%nat ∧ NoDup ([demo_doc].*1).
Proof. split; [lia|]. repeat constructor. set_solver. Qed.
Lemma durable_judged_witness :
  ∃ s, druns Create 1 0 10 [demo_doc] true 10 demo_events s ∧
    (is_Some (sdk_acked_crud_failed (results s) !! py "k") ↔ lost demo_events (reported demo_events) (py "k")).
Proof.
  destruct demo_run as [s Hs]. exists s. split; [exact Hs|].
  destruct (durable_judged 1 0 10 [demo_doc] true 10 _ s (proj1 demo_batch) (proj2 demo_batch) Hs) as (_ & _ & H). exact (proj1 (H (py "k"))).
Defined.
Lemma persistence_samples_witness :
  ∃ s, druns Create 1 0 10 [demo_doc] true 10 demo_events s ∧
    (length (checks demo_events) ≤ 1 + (1 + 10 - 1) / 10)%nat.
Proof.
  destruct demo_run as [s Hs]. exists s. split; [exact Hs|].
  exact (persistence_samples Create 1 0 10 [demo_doc] true 10 _ s (proj1 demo_batch) (proj2 demo_batch) Hs).
Defined.
