(* ===== verification/MergeReports.v ===== *)
(** * Merging of report files

    scripts/merge_reports.py reads the JUnit files that lib/xunit.py has written (XUnit.v), keeps for each test its latest result, where tests that differ only in the order of
    their parameters and in parameters of the run are the same, and writes merged reports.  The parsed documents, in the order of their files, are an argument. *)

From stdpp Require Import sorting.
From S2P Require Import Prelude Py XUnit.
Local Open Scope string_scope.
Local Open Scope list_scope.
Local Open Scope Z_scope.
#[local] Arguments py : simpl never.

(** ** Names of tests *)

(** The order of strings, for [sorted] *)
Fixpoint str_leb (a b : pystr) : bool :=
  match a, b with
  | [], _ => true
  | _ :: _, [] => false
  | x :: a, y :: b => (ord x <? ord y) || ((ord x =? ord y) && str_leb a b)
  end.
Definition str_le (a b : pystr) : Prop := str_leb a b = true.
#[global] Instance str_le_dec : RelDecision str_le := λ a b, decide (str_leb a b = true).

Definition run_words (run_params : pystr) : list pystr := (λ p, default [] (head (split_on "="%char p))) <$> split_on ","%char run_params.
Definition colon_words : list pystr :=
  [py "logs_folder"; py "conf_file"; py "cluster_name:"; py "ini:"; py "case_number:"; py "num_nodes:"; py "spec:"; py "is_container:"].
Definition equal_words : list pystr :=
  [py "logs_folder="; py "conf_file="; py "cluster_name="; py "ini="; py "case_number="; py "num_nodes="; py "spec="; py "is_container="].
Definition filtered (words : list pystr) (fw : pystr) : bool := existsb (λ w, negb (bool_decide (w = [])) && startswith w fw) words.
(** [fw.replace(":", "=", 1)] *)
Fixpoint colon_to_equal (s : pystr) : pystr :=
  match s with [] => [] | c :: s => if bool_decide (c = ":"%char) then "="%char :: s else c :: colon_to_equal s end.
Definition filter_fields (run_params testname : pystr) : pystr :=
  let testwords := split_on ","%char testname in
  if contains (py "logs_folder:") testname then
    rstrip (py ",") (foldl (λ line fw,
      if filtered (colon_words ++ run_words run_params) fw then line
      else line ++ colon_to_equal fw ++ (if bool_decide (Some fw = last testwords) then [] else py ",")) [] testwords)
  else join (py ",") (List.filter (λ fw, negb (filtered (equal_words ++ run_words run_params) fw)) testwords).
(** The key with its parameters sorted, as [compare_with_sort] compares it *)
Definition canon (key : pystr) : pystr :=
  match split_on ","%char key with
  | [] => py ","
  | t :: params => t ++ py "," ++ join (py ",") (merge_sort str_le params)
  end.

(** ** Merging *)

Record tcase := TCase { t_name : pystr; t_time : pystr; t_error : pystr }.
(** The dictionary of the tests of a suite *)
Abbreviation tests := (list (pystr * tcase)).
Definition compare_with_sort (l : tests) (key : pystr) : option pystr := fst ∘ snd <$> list_find (λ kv, canon key = canon kv.1) l.
Fixpoint set_test (k : pystr) (v : tcase) (l : tests) : tests :=
  match l with
  | [] => [(k, v)]
  | (k', v') :: l => if bool_decide (k' = k) then (k, v) :: l else (k', v') :: set_test k v l
  end.
(** [str(tcerror[0].firstChild.nodeValue)]; [nodeValue] of an element is [None]. *)
Definition error_text (tc : node) : res pystr :=
  match getElementsByTagName "error" tc with
  | [] => Ok []
  | e :: _ => match childNodes e with Text d :: _ => Ok d | Elem _ _ _ :: _ => Ok (py "None") | [] => raise AttributeError end
  end.
Definition merge_case (run_params : pystr) (l : tests) (tc : node) : res tests :=
  let tcname := getAttribute "name" tc in
  let tcname_filtered := filter_fields run_params tcname in
  e ← error_text tc;
  Ok (set_test (default tcname_filtered (compare_with_sort l tcname_filtered)) (TCase tcname (getAttribute "time" tc) e) l).
Fixpoint merge_cases (run_params : pystr) (l : tests) (tcs : list node) : res tests :=
  match tcs with [] => Ok l | tc :: tcs => l ← merge_case run_params l tc; merge_cases run_params l tcs end.

Record tsuite := TSuite { ts_name : pystr; ts_errors : pystr; ts_failures : pystr; ts_skips : pystr; ts_time : pystr; ts_testcount : pystr; ts_tests : tests }.
Definition merge_suite (run_params : pystr) (m : gmap pystr tsuite) (ts : node) : res (gmap pystr tsuite) :=
  let tsname := getAttribute "name" ts in
  l ← merge_cases run_params (match m !! tsname with Some t => ts_tests t | None => [] end) (getElementsByTagName "testcase" ts);
  Ok (<[tsname := TSuite tsname (getAttribute "errors" ts) (getAttribute "failures" ts) (getAttribute "skips" ts) (getAttribute "time" ts) (getAttribute "tests" ts) l]> m).
Fixpoint merge_suites (run_params : pystr) (m : gmap pystr tsuite) (l : list node) : res (gmap pystr tsuite) :=
  match l with [] => Ok m | ts :: l => m ← merge_suite run_params m ts; merge_suites run_params m l end.
Definition merge_documents (run_params : pystr) (docs : list node) : res (gmap pystr tsuite) :=
  merge_suites run_params ∅ (docs ≫= getElementsByTagName "testsuite").

(** ** The merged report *)

Section Report.
(** [float(ttime)], the text of a time, and the name of the report file of a suite *)
Context (float : pystr → res Z) (str_time : Z → pystr) (output_filepath : pystr → pystr).

Definition split_params (tname : pystr) : pystr * pystr :=
  match split_once ","%char tname with [a; b] => (a, py "," ++ b) | _ => (tname, []) end.
Definition call_of (t : tcase) : res call :=
  inttime ← float (t_time t);
  let '(tname, tparams) := split_params (t_name t) in
  Ok (if bool_decide (t_error t = []) then Call tname inttime (CaseError [] []) Pass tparams
      else Call tname inttime (CaseError (py "membase.error") (t_error t)) Fail tparams).
Fixpoint calls_of (l : tests) : res (list call) :=
  match l with [] => Ok [] | kv :: l => k ← call_of kv.2; ks ← calls_of l; Ok (k :: ks) end.
Definition suite_report (s : tsuite) : res xunit := ks ← calls_of (ts_tests s); Ok (report ks).
Fixpoint write_reports (l : list (pystr * tsuite)) (files : gmap pystr node) : res (gmap pystr node) :=
  match l with
  | [] => Ok files
  | (n, s) :: l => x ← suite_report s; write_reports l (write str_time (output_filepath n) x files)
  end.
(** [merge_reports]: the suites, and the report files; nothing when the directory of the logs cannot be moved. *)
Definition merge_reports (run_params : pystr) (docs : list node) (moved : bool) (files : gmap pystr node) : res (gmap pystr tsuite * gmap pystr node) :=
  m ← merge_documents run_params docs;
  if moved then files ← write_reports (map_to_list m) files; Ok (m, files) else Ok (∅, files).
End Report.

(** ** Proofs *)

(** The result kept for a test, by its name with sorted parameters *)
Fixpoint entry (c : pystr) (l : tests) : option tcase :=
  match l with [] => None | (k, v) :: l => if decide (canon k = c) then Some v else entry c l end.
Definition canons (l : tests) : list pystr := canon <$> l.*1.
Lemma compare_cons k v l key : compare_with_sort ((k, v) :: l) key = if decide (canon key = canon k) then Some k else compare_with_sort l key.
Proof. unfold compare_with_sort. cbn. case_decide; [done|]. by destruct (list_find _ l) as [[]|]. Qed.
Lemma compare_canon l key k : compare_with_sort l key = Some k → canon k = canon key.
Proof. induction l as [|[k' v] l IH]; [done|]. rewrite compare_cons. case_decide as E; [|done]. by intros [= <-]. Qed.
Lemma merged_canon l key : canon (default key (compare_with_sort l key)) = canon key.
Proof. destruct (compare_with_sort l key) eqn:E; [|done]. by eapply compare_canon. Qed.
Lemma set_test_spec l key v : let l' := set_test (default key (compare_with_sort l key)) v l in
  (∀ c, entry c l' = if decide (canon key = c) then Some v else entry c l) ∧
  canons l' = if decide (canon key ∈ canons l) then canons l else canons l ++ [canon key].
Proof.
  cbn zeta. induction l as [|[k1 v1] l [IH1 IH2]]; [split; [done|by rewrite decide_False by set_solver]|]. rewrite compare_cons. cbn [set_test].
  destruct (decide (canon key = canon k1)) as [E|E].
  - cbn [default]. unfold id. rewrite bool_decide_eq_true_2 by done. split.
    + intros c. cbn. rewrite E. by destruct (decide (canon k1 = c)).
    + rewrite decide_True; [done|]. rewrite E. by left.
  - rewrite bool_decide_eq_false_2 by (intros Hk; apply E; rewrite Hk; symmetry; apply merged_canon). split.
    + intros c. cbn. rewrite IH1. destruct (decide (canon k1 = c)) as [Hc|]; [|done]. by rewrite decide_False by congruence.
    + change (canons ((k1, v1) :: set_test (default key (compare_with_sort l key)) v l)) with (canon k1 :: canons (set_test (default key (compare_with_sort l key)) v l)).
      change (canons ((k1, v1) :: l)) with (canon k1 :: canons l). rewrite IH2. destruct (decide (canon key ∈ canons l)) as [Hin|Hin].
      * rewrite decide_True; [done|]. by right.
      * rewrite decide_False; [done|]. rewrite elem_of_cons. tauto.
Qed.

(** A test case whose error can be read *)
Definition readable (tc : node) : Prop := is_ok (error_text tc) = true.
(** What a test case says, and which test it is of *)
Definition case_of (tc : node) : tcase :=
  TCase (getAttribute "name" tc) (getAttribute "time" tc) (match error_text tc with Ok e => e | Err _ => [] end).
Definition test_of (run_params : pystr) (tc : node) : pystr := canon (filter_fields run_params (getAttribute "name" tc)).
Definition latest (run_params c : pystr) (tcs : list node) : option tcase := case_of <$> last (filter (λ tc, test_of run_params tc = c) tcs).
Lemma latest_cons run_params c tc tcs :
  latest run_params c (tc :: tcs) = match latest run_params c tcs with Some v => Some v | None => if decide (test_of run_params tc = c) then Some (case_of tc) else None end.
Proof.
  unfold latest. rewrite filter_cons. destruct (decide (test_of run_params tc = c)); [rewrite last_cons|]; by destruct (last (filter _ tcs)).
Qed.


(** The merged report of a suite has a case for each entry, and counts those with an error. *)
Lemma merged_report float s ks : calls_of float (ts_tests s) = Ok ks →
  suite_report float s = Ok (report ks) ∧ length (all_cases (report ks)) = length (ts_tests s) ∧
  total_errors (report ks) = len (filter (λ kv, t_error kv.2 ≠ []) (ts_tests s)).
Proof.
  intros H. unfold suite_report. rewrite H. split; [done|]. assert (length ks = length (ts_tests s) ∧ len (failing ks) = len (filter (λ kv, t_error kv.2 ≠ []) (ts_tests s))) as [H1 H2].
  { revert ks H. induction (ts_tests s) as [|[k t] l IH]; intros ks; cbn [calls_of]; [by intros [= <-]|]. intros (c & Hc & (ks' & Hks & [= <-])%res_bind_inv)%res_bind_inv.
    destruct (IH _ Hks) as [E1 E2]. split; [cbn; by rewrite E1|]. unfold failing in *. rewrite !filter_cons. cbn [snd] in *. unfold call_of in Hc.
    apply res_bind_inv in Hc as (z & _ & Hc). destruct (split_params (t_name t)). injection Hc as <-. case_bool_decide as He.
    - rewrite decide_False by done. rewrite decide_False by (intros Hn; by apply Hn). exact E2.
    - rewrite decide_True by done. rewrite decide_True by done. unfold len in *. cbn [length]. lia. }
  rewrite report_cases, length_fmap. split; [done|]. rewrite total_errors_ok by apply report_ok.
  rewrite <- H2, <- failing_cases. unfold len. by rewrite report_cases.
Qed.

(** ** Examples *)

Definition demo_case (n e : string) : node :=
  Elem (py "testcase") [(py "name", py n); (py "time", py "1")] (if bool_decide (e = "") then [] else [Elem (py "error") [] [Text (py e)]]).
(** A test that failed, and passed when it was run again with its parameters in another order and another log folder *)
Definition demo_cases : list node := [demo_case "m.t,a=1,b=2,logs_folder=x" "bad"; demo_case "m.u,a=1" ""; demo_case "m.t,b=2,a=1,logs_folder=y" ""].
